(* ===== verification/_CoqProject ===== *)
-Q . S2P
Prelude.v
Strings.v
Regexp.v
Patterns.v
Compare.v
Semver.v
Effects.v
Sha256.v
Json.v
JsonSize.v
SelfUpdateState.v
SelfUpdateGrant.v
SelfUpdateRuntime.v
SelfUpdateSafety.v
PlanDigest.v
Paths.v
DockerPin.v
MutationLedger.v
MutationExec.v
MutationSafety.v
SystemdCutover.v
SystemdRecovery.v
MutationDemo.v
DockerRelease.v
DockerCutover.v
DockerRecovery.v
DockerDemo.v
FileTree.v
Artifact.v
ArchivePaths.v
ArtifactTree.v
ArtifactChecks.v
Release.v
ReleaseSafety.v
Install.v
InstallSafety.v
ArtifactDemo.v
Jobs.v
Journal.v
JournalRules.v
JournalSafety.v
JournalQueue.v
JournalClear.v
JournalDemo.v
TokenRotation.v
TokenExecutor.v
TokenSafety.v
TokenExpiry.v
TokenDemo.v
TokenAgent.v
TokenPhases.v
TokenAgentSafety.v
TokenAgentDemo.v
Grants.v
PortPlan.v
PortEngine.v
PortAdmission.v
PortSafety.v
PortRecovery.v
PortDemo.v
AgentPolicy.v
AgentClaims.v
RecoveryIntent.v
AgentWorld.v
AgentExecution.v
AgentRecovery.v
AgentPoll.v
AgentProtocol.v
AgentRules.v
AgentTriples.v
AgentSafety.v
AgentJobs.v
AgentCycle.v
AgentHistory.v
AgentFlush.v
AgentDemo.v
