(* ===== verification/Prelude.v ===== *)
(** * AutoStream updater: verification of the host runtime

    The updater installs new software on a host under the orders of a control
    Panel.  An unprivileged host agent talks to the Panel; a privileged local
    executor on the same host does the work, and may do it only with a short-lived
    grant that the Panel hands out once.  Hosts lose power and executors are killed
    in the middle of things, so almost every property worth having is about what is
    on disk at the moment a run is cut off.  This development models the parts of
    [src/internal/hostruntime] that decide what the privileged side does, and
    proves the ordering, replay and recovery properties the code is written for.

    ** Program parts and the files that model them

    - Release versions ([semver.go]): [Semver], module [ReleaseVersion].  Parsing
      and comparison as written; the specification is semantic-version precedence,
      built in [Compare] from lexicographic orders.
    - Identifiers, digests and messages ([digest.go], [target.go],
      [mutation_protocol.go] and the anchored regular expressions of several files):
      [Patterns], over byte strings ([Strings]) and a derivative matcher for
      regular expressions proved correct in [Regexp].
    - SHA-256, hexadecimal and canonical JSON, which the digests are computed from:
      [Sha256], [Json].  Both compute, and [Json] has the injectivity lemma for
      flat objects that the plan digest needs; [JsonSize] bounds the length of an
      encoding, for the state files that have a size limit.
    - Self-update of the updater itself, with two installation slots:
      [SelfUpdateState] is the pure state machine of [host_self_update_state.go];
      [SelfUpdateGrant] the grants of [host_self_update_grant*.go];
      [SelfUpdateRuntime] the executor's handlers and the recovery watchdog
      ([host_self_update_executor.go], [_activation.go], [_staging.go],
      [_slot_state.go], [_grant_authorization.go], [_grant_recovery.go],
      [_watchdog.go]); [SelfUpdateSafety] the theorems about them.
    - Updates of the managed services: [PlanDigest] has the immutable plans, their
      digest and the outcomes ([plan_digest.go], [mutation_protocol.go], [helper.go]);
      [Paths] the path arithmetic of [path/filepath] that the checks use;
      [MutationLedger] the durable record of a target ([executor_mutation_ledger.go],
      [executor_mutation_result.go]); [MutationExec] the stage, apply and reconcile
      requests, the grant gate and the systemd cutover
      ([executor_mutation_dispatch.go], [executor_stage_request.go],
      [executor_systemd_staging.go], [release_reconciliation.go],
      [systemd_release_state.go], [checkpoint.go]).  [MutationSafety],
      [SystemdCutover] and [SystemdRecovery] hold the theorems, [MutationDemo] a
      concrete target on which they are instantiated.
    - The Docker targets of the same executor: [DockerPin] has the version pin in the
      environment file ([docker_release_identity.go]); [DockerRelease] the rollback
      baseline, apply, rollback and reconcile over environment file, containers, images
      and frozen compose models ([docker_release_apply.go], [docker_release_identity.go],
      [docker_compose_verification.go], [release_reconciliation.go]), composed with the
      executor as a backend.  [DockerCutover] and [DockerRecovery] hold the theorems,
      [DockerDemo] a concrete target.
    - Release artifacts: [FileTree] is the directory tree with file modes, umask and the
      network log; [Artifact] the extraction of an archive, the checksum files and the
      verification of a release ([artifact.go]); [Release] the download from GitHub with
      its checks on release, tag and manifest ([artifact.go],
      [github_release_metadata.go]); [Install] the installation of a staged release under
      the release root ([release_filesystem.go]).  [ArchivePaths] has the lemmas about
      paths, [ArtifactTree], [ArtifactChecks], [ReleaseSafety] and [InstallSafety] the
      theorems, [ArtifactDemo] a concrete release.
    - The host agent's work list: [Jobs] has the claimed jobs, their software
      authority and the stage failures ([panel.go], [software_claim_binding.go],
      [stage_failure.go], [host_pull_claim_validation.go]); [Journal] the durable
      journal with its clear fence and all its operations ([journal.go],
      [software_journal_binding.go]).  [JournalRules] has the rules for its
      programs, [JournalSafety], [JournalQueue] and [JournalClear] the theorems,
      [JournalDemo] a concrete agent.
    - The host agent's job execution, on top of that journal.  [AgentPolicy] has the
      Panel's policy and binding, the observations and the readiness checks
      ([host_pull_panel.go], [host_pull_observation.go], [host_pull_execution.go]);
      [Grants] the mutation grants of the contracts module, which agent and executor read;
      [AgentClaims] the checks on claims and grants ([host_pull_claim_validation.go],
      [software_claim_binding.go], [software_claim_snapshot.go],
      [host_pull_execution_grants.go]); [RecoveryIntent] the records of a terminal-only
      recovery ([software_claim_recovery_intent.go], [software_claim_recovery_receipt.go],
      [software_claim_recovery.go]).  [AgentWorld] is the world of the agent process: the
      journal's files, the recovery record, the journal in memory, and the log of what the
      Panel and the executor see; an operation of the journal runs the program of
      [Journal].  [AgentExecution] has the reports, the plan and the stage, apply and
      reconcile of a job ([host_pull_software_execution.go],
      [host_pull_software_mutation.go], [host_pull_execution_grants.go]); [AgentRecovery]
      the recovery of a claim and of a saved plan ([software_claim_recovery.go],
      [software_plan_recovery.go], [software_journal_binding.go],
      [software_claim_recovery_history_store.go]); [AgentPoll] the poll for a job and the
      start of a cycle ([host_pull_execution.go], [host_pull_recovery_control.go]).
      [AgentProtocol] is the specification, an automaton over the log; [AgentRules] and
      [AgentTriples] have the rules that carry its state through the programs,
      [AgentSafety], [AgentJobs] and [AgentCycle] the proofs for execution, recovery and
      poll, [AgentHistory] the theorems, [AgentFlush] the fuel of the report loop,
      [AgentDemo] a concrete host with a crash and its recovery.
    - Rotation of the agent's runtime token.  On the privileged side [TokenRotation]
      has the directives, requests and the durable status
      ([runtime_token_rotation_protocol.go]); [TokenExecutor] the requests,
      reconciliation, expiry and emergency recovery over the status file, the three
      identity files and the Panel ([runtime_token_rotation_executor.go], [_state.go],
      [_binding.go], [_staging.go], [_transition.go], [_reconciliation.go],
      [_cleanup.go], [_expiry.go], [_emergency_recovery.go]).  [TokenSafety] and
      [TokenExpiry] hold the theorems, [TokenDemo] a concrete rotation.  On the agent's
      side [TokenAgent] has the loop over the executor's status, the durable claim, the
      heartbeat and the clients of executor and Panel
      ([host_pull_runtime_token_rotation.go], [runtime_token_rotation_claim_state.go],
      [runtime_token_rotation_panel.go], [local_executor_runtime_credential_client_linux.go],
      [host_pull_credential_heartbeat.go]).  Its executor is the program of
      [TokenExecutor]: an operation of the agent runs the executor's handler, and the
      executor's own activity may come before every operation.  [TokenPhases] has what the
      executor's answers say about its ledger, [TokenAgentSafety] the theorems about both
      together, [TokenAgentDemo] a concrete rotation from claim to activation.  The
      operator's emergency replacement of the identity file is an entry of its own, between
      any two runs.
    - Changes of the port a systemd service listens on, plans of the first contract version:
      [PortPlan] has the plans, results and records ([systemd_port_reconfigure.go],
      [systemd_port_result.go], [systemd_port_state_models.go]); [PortEngine] the ledger
      files, the actions of the Linux runtime and the transaction with its recovery
      ([systemd_port_state.go], [systemd_port_reconfigure_linux.go],
      [systemd_port_execution.go], [systemd_port_commit.go],
      [systemd_port_recovery.go]); [PortAdmission] what a request passes before that, the
      check of a v2 grant against the plan among it ([local_executor_mutation.go]).
      [PortSafety] and [PortRecovery] hold the theorems,
      [PortDemo] a concrete service.

    ** How effects are modelled

    [Effects] has programs as trees of named operations ([prog]): a file write, a
    rename of the current link, a systemctl call, a request to the Panel, a look at
    the clock.  A component has a [world] record with everything durable that it
    touches, an inductive family [op] of operations and a [handle] function, an
    instance of [Handler], that says what an operation does to the world when the
    environment gives a certain [answer]: it succeeds, it fails before it has any
    effect, it fails although the effect happened (the rename was done, the sync of
    the directory failed), or it returns the data the answer carries.  [run p answers
    w] executes [p] on a list of answers; when the list is used up the run stops
    where it is, which is how a crash or a power loss looks.  A statement about all
    lists of answers is therefore a statement about every failure and every crash
    point.  [wp I p Q w] is the corresponding logic: [I] holds of the world after
    every operation, [Q] of the result.  [history] closes a set of entry points
    under runs one after the other, each possibly cut off.  [exec] and [twp] are the
    cooperative counterpart for recovery theorems: every operation is answered by
    the given well-behaved answer, and the program must return.

    Errors are values of [Prelude.result].  Integers are [Z] with their Go width
    where it matters ([u64_succ], the saturating [GoTime.Sub]).  Times are
    nanoseconds with a flag for the UTC location.

    ** What is shown

    - C1: the version comparison is exactly semantic-version precedence, a total order.
      It is the downgrade guard of self-update.
    - C2, [ArtifactTree]: unpacking an archive is confined to its destination and to its
      limits at every crash point.
    - C6, [ReleaseSafety]: a downloaded release is the one its manifest describes, from
      the immutable release and tag on GitHub down to the unpacked tree.  The file also
      shows that the manifest determines that tree, modes included, on every host.
    - C7, C17, [AgentHistory]: over any history of agent processes and of the operator's
      recovery commands, the agent's traffic with Panel and executor refines the protocol
      of [AgentProtocol]: between opening and clearing, a job is staged at most once and
      then applied at most once.  In particular an apply request goes out only under the plan
      on disk, with the Panel's unused answer to the request of an apply grant for this job,
      plan and session, and after an accepted report, never during a terminal-only recovery,
      and only after the Panel ended the job of the apply before it and the journal was
      cleared of that job.
    - C8, [ArtifactChecks]: the checksum file determines the files of a verified release.
    - C16, [InstallSafety]: a release under the release root appears complete or not at all.
    - C3, C4, [SelfUpdateState]: every reachable state passes its own validation;
      reconciliation never gets stuck.  The file also shows that a commit needs the complete
      proof, that the healthy slot changes only by commit, that a rollback is final and that
      a failed generation stays refused.
    - C9, C10, C12, [SelfUpdateSafety]: over any history of requests and watchdog runs
      with crashes, the current link is on the healthy slot or guarded by a durable
      activation record; a pending update was licensed by a Panel receipt for that
      very request; an undisturbed watchdog run recovers a stuck update.  The file also
      shows that a grant is sent only after the grant journal names it.
    - C13, [PlanDigest]: the plan digest binds the whole intent, up to an explicit
      SHA-256 collision between the two payloads.
    - C14, C15, [MutationSafety]: the ledger is written ahead of the grant and of
      every change of the target; one apply grant at most is presented per staged
      release.  The file also shows that an unsettled update admits only reconcile and
      that reported results are durable and bound to the plan.  These hold for any Docker backend that keeps
      the laws of the class [GatedBackend]; [DockerCutover.docker_gated] shows that the
      one of the program does.
    - C18 to C20, [SystemdCutover] and [SystemdRecovery]: the systemd cutover is
      crash safe and honest about its end, and an interrupted cutover is settled by
      one undisturbed reconcile, except where another build of the version in service was
      being deployed and the previous release runs under the checkpoint: there C20 shows
      that every reconcile fails, another defect.  C18 is a defect of both kinds of target: a checkpoint
      left by an earlier successful job blocks the reconcile of a later one for good.
    - C21, C22, C25, [JournalSafety]: no lease token is ever on disk; a successful
      operation is durable and an uncertain one stops the process; what software jobs
      leave on disk passes the checks of the next opening.
    - C26, [JournalQueue]: the pending reports refine an abstract queue.
    - C23, C24, [JournalClear]: clearing the active job survives a crash at every
      point.  C24 is the exception, a defect: with a stage failure recorded, a crash
      between the two writes leaves a state the agent can never open again.
    - C27, C28, [TokenSafety]: the active identity is replaced only by the operator or by
      one that the Panel has activated, in an answer for exactly the rotation whose
      proof-ready status is on disk; every staged secret is on record with its digest at every crash point.
    - C5, C11, [TokenAgentSafety]: over any history of agent and executor together, a
      credential is claimed only under a claim on disk, claim and ledger are never both
      missing while one is needed, a heartbeat proof follows the heartbeat it is about, a
      cancel is acknowledged only when no secret is left, and the agent authenticates only
      with its first token, those the Panel has activated and those the operator installed.
    - C29 to C31, [TokenExpiry]: an undisturbed expiry run after the lifetime of a
      staged token destroys it; a valid status fits its file when the few values that the
      validation does not bound have an ordinary size.  C31 is a defect:
      a request that meets an expired claim goes on as if it had not expired.
    - C32 to C34, [PortSafety]: a sidecar file is replaced and a service restarted only
      under a durable ledger with a grant that was accepted for its plan, in the old and in
      the v2 grant contract; the ledgers of the jobs refine an
      abstract machine in which results are final; a reported result is durable and true
      of the sidecar and of the last verification.
    - C35, C36, [PortRecovery]: a first change that is interrupted before its result is
      closed by one undisturbed reconcile; one interrupted while its result is committed is
      closed with this result or stays open, and C35 says which.  C36 is a defect: when the port had been changed before, the same
      interruption leaves the target stuck.
    - C37, [DockerPin]: a pin that is written is read back, and the rest of the
      operator's environment file survives.
    - C38 to C40, [DockerCutover] and [DockerRecovery]: the Docker cutover is crash safe
      and honest about its end, and one undisturbed reconcile settles an interrupted one.
      C40 is a defect: a target without an environment file that stops between grant and
      checkpoint can never be settled.

    ** Bounds and fuel

    Recursion is structural wherever the source loops over a list.  The agent's rotation
    loop has the eight steps of the source.  Fuel appears in
    [Json.digits] (twenty digits cover every 64-bit integer), in
    [Strings.trim_leading] and [Strings.fields_from] (the length of the string), in
    [Release.follow] and [Release.dereference] (the limits of five requests and eight tags
    that the source itself has), in the scan for orphaned
    stage directories, which the source itself bounds by 256 generations, and in
    [AgentExecution.flush]: one round per queued report and one more, which
    [AgentFlush.flush_rounds_suffice] shows to be enough.

    ** Parameters

    Unicode case mapping and folding beyond ASCII ([Strings.UnicodeTables]), time-zone offsets
    ([Json.TimeZones]) and the accessors of the executor policy
    ([SelfUpdateGrant.ExecutorPolicy]) are class parameters; no law is assumed of
    them beyond what the statements say.  The Docker backend is a parameter of the
    mutation programs, with the laws of [MutationSafety.GatedBackend] and
    [SystemdCutover.JobBound]; it is instantiated by [DockerRelease.docker_backend].
    The payloads
    of port jobs, whose types come from the contracts module, are the class
    [Jobs.PortContracts]; [Journal.PortPolicies] adds the check of saved port
    policies with the law that it reads only encoded fields of the job.  The YAML
    codec of the identity file is the class [TokenRotation.IdentityCodec], with the
    law that it reads back what it has written.  The encoding of a listener
    configuration, from the contracts module, is the class [PortPlan.ListenerCodec]
    without laws, and the targets of the executor policy are [PortPlan.PolicyTargets].
    The constants and the validator of v2 grants, from the same module, are
    [Grants.GrantContracts], without laws.
    What gzip and tar make of an archive is [Artifact.ArchiveFormat], what the standard
    library makes of JSON, URLs and time stamps [Release.Formats], and the version the
    updater was built as [Release.BuildInfo]; none has laws.

    ** Not modelled

    Inside the executor models the download and installation of a release, the
    verification of slot trees and processes, file modes and ownership are operations whose
    answer may be success or failure, although download and installation have models of
    their own; so are, for Docker targets, the validation and freezing of compose models and
    the listener files.  The wire formats (JSON, URLs, gzip and tar, time stamps) are
    parameters.  In the tree of [FileTree] no symbolic link is followed, there is one
    process, and ownership is an answer of the environment.  The half of the
    Docker apply that pulls an image itself has no caller and is left out.  In the agent
    the Panel, the executor, the downloader and the archive of settled recovery records
    are operations; the handler of port jobs is any sequence of its journal calls and
    reports; the timer loop, the heartbeat outside token rotation, the capabilities and
    the privileged side of claim recovery have no model.  The second contract version of
    port changes and their Docker engine, policy parsing, host configuration and manual
    upgrade have no model either.

    This file is the prelude: results, record update, machine integers, times and
    the tactics the other files share. *)
From Stdlib Require Import Ascii String ZArith Lia.
From stdpp Require Import base decidable list strings gmap.

(** * Results

    A Go function that returns a value and an [error] is a function into
    [result E A].  Most of the code only builds errors with [errors.New], so
    [E] is usually [string], the message; the places that wrap a sentinel
    error use their own error type. *)

Inductive result (E A : Type) : Type :=
| Ok (a : A)
| Err (e : E).
Arguments Ok {E A} a.
Arguments Err {E A} e.

Definition is_ok {E A} (r : result E A) : bool :=
  match r with Ok _ => true | Err _ => false end.

Definition is_err {E A} (r : result E A) : bool := negb (is_ok r).

(** [errors.New(msg)] as the only result of a validation function. *)
Abbreviation check := (result string unit).

(** [firstError]: Go evaluates all its arguments first. *)
Definition firstError (errs : list check) : check :=
  match find is_err errs with Some e => e | None => Ok tt end.

Definition bind_res {E A B} (m : result E A) (k : A -> result E B) : result E B :=
  match m with Ok a => k a | Err e => Err e end.

Declare Scope go_scope.
Delimit Scope go_scope with go.
Open Scope go_scope.

Notation "'let!' x ':=' m 'in' k" := (bind_res m (fun x => k))
  (at level 10, x pattern, m at level 100, k at level 200) : go_scope.

(** Go's [==] on comparable values. *)
Notation "a ==? b" := (bool_decide (a = b)) (at level 70, no associativity) : go_scope.
Notation "a !=? b" := (negb (bool_decide (a = b))) (at level 70, no associativity) : go_scope.

Lemma firstError_ok errs : firstError errs = Ok tt -> Forall (fun e => e = Ok tt) errs.
Proof.
  unfold firstError. induction errs as [|[[]|e] errs IH]; cbn; [by constructor| |done].
  intros E. constructor; auto.
Qed.

(** * Record update

    Go mutates the fields of a struct value in place; [r <| f := v |>] is the
    struct with one field replaced.  A record type takes part by declaring its
    eta expansion as an [Eta] instance; the setter of a field is computed from
    it when the notation is used. *)

Class Eta (R : Type) := eta : R -> R.
#[global] Hint Mode Eta ! : typeclass_instances.

Class Setter {R T : Type} (getter : R -> T) := set_field : (T -> T) -> R -> R.
Arguments set_field {R T} getter {Setter} f r /.

Ltac solve_setter :=
  match goal with
  | |- @Setter ?R ?T ?p =>
      let f := fresh "f" in
      let r := fresh "r" in
      refine (fun (f : T -> T) (r : R) => _);
      let e := eval hnf in (eta r) in
      let q := eval pattern (p r) in e in
      match q with ?g _ =>
        let b := eval cbv beta in (g (f (p r))) in exact b
      end
  end.

#[export] Hint Extern 1 (Setter _) => solve_setter : typeclass_instances.

Notation "r <| p := v |>" := (set_field p (fun _ => v) r)
  (at level 1, left associativity, p at level 0, v at level 99) : go_scope.

(** * Booleans and branches

    Guards are written as boolean expressions, as the Go code writes them.
    [bool_to_prop] turns the guards that a proof has cases on into the
    propositions they decide; [ok_inv H] runs through the early returns of a
    hypothesis [H : f x = Ok y]. *)

Create HintDb go_db.

Ltac bool_step :=
  match goal with
  | H : _ && _ = true |- _ => apply andb_true_iff in H; destruct H
  | H : _ || _ = false |- _ => apply orb_false_iff in H; destruct H
  | H : negb _ = true |- _ => apply negb_true_iff in H
  | H : negb _ = false |- _ => apply negb_false_iff in H
  | H : bool_decide _ = true |- _ => apply bool_decide_eq_true in H
  | H : bool_decide _ = false |- _ => apply bool_decide_eq_false in H
  | H : (_ <? _)%Z = true |- _ => apply Z.ltb_lt in H
  | H : (_ <? _)%Z = false |- _ => apply Z.ltb_ge in H
  | H : (_ <=? _)%Z = true |- _ => apply Z.leb_le in H
  | H : (_ <=? _)%Z = false |- _ => apply Z.leb_gt in H
  | H : Is_true _ |- _ => apply Is_true_true in H
  end.

Ltac bool_to_prop := repeat bool_step.

(** The same with the case splits of a true disjunction or a false conjunction. *)
Ltac bool_cases :=
  repeat (bool_step || match goal with
  | H : _ || _ = true |- _ => apply orb_true_iff in H; destruct H
  | H : _ && _ = false |- _ => apply andb_false_iff in H; destruct H
  end).

(** Decides a boolean guard in the goal: both values are tried, and the one that
    contradicts the context goes away. *)
Ltac guard_cases tac :=
  match goal with
  | |- context [if ?b then _ else _] =>
      let E := fresh "E" in destruct b eqn:E; try (exfalso; bool_cases; tac)
  end.

Ltac ok_step H :=
  match type of H with
  | bind_res ?m _ = Ok _ =>
      let E := fresh "E" in destruct m eqn:E; cbn [bind_res] in H; [|discriminate H];
      repeat match goal with u : unit |- _ => destruct u end
  | (if ?b then Err _ else _) = Ok _ =>
      let E := fresh "E" in destruct b eqn:E; [discriminate H|]
  | (if ?b then _ else Err _) = Ok _ =>
      let E := fresh "E" in destruct b eqn:E; [|discriminate H]
  | Err _ = Ok _ => discriminate H
  end.

Ltac ok_inv H := cbn zeta beta in H; repeat (ok_step H; cbn zeta beta in H).

Lemma bind_res_ok {E A B} (m : result E A) (f : A -> result E B) b :
  bind_res m f = Ok b -> exists a, m = Ok a /\ f a = Ok b.
Proof. destruct m as [a|]; [by exists a|done]. Qed.

Lemma is_ok_unit {E} (r : result E unit) : is_ok r = true <-> r = Ok tt.
Proof. destruct r as [[]|e]; cbn; split; congruence. Qed.

Lemma is_ok_exists {E A} (r : result E A) : is_ok r = true <-> exists a, r = Ok a.
Proof. destruct r; cbn; split; [eauto|done|done|intros [? [=]]]. Qed.

Lemma is_err_false {E A} (r : result E A) : is_err r = false <-> is_ok r = true.
Proof. unfold is_err. by rewrite negb_false_iff. Qed.

#[export] Instance result_eq_dec {E A} `{!EqDecision E, !EqDecision A} :
  EqDecision (result E A).
Proof. solve_decision. Defined.

(** * Machine integers

    [int] and [int64] values are [Z]; the code never lets them leave their
    range except where noted.  [uint64] arithmetic wraps around. *)

Definition u64_modulus : Z := 2 ^ 64.
Definition u64_succ (x : Z) : Z := (x + 1) mod u64_modulus.
Definition max_int64 : Z := 2 ^ 63 - 1.
Definition min_int64 : Z := - 2 ^ 63.

(** [x + 1] on [int64], which wraps from the largest to the smallest value. *)
Definition i64_succ (x : Z) : Z := if (x =? max_int64)%Z then min_int64 else (x + 1)%Z.

Definition is_u64 (x : Z) : Prop := (0 <= x < u64_modulus)%Z.

Lemma u64_succ_range x : is_u64 (u64_succ x).
Proof. apply Z.mod_pos_bound. reflexivity. Qed.

Lemma u64_succ_small x : (0 <= x < u64_modulus - 1)%Z -> u64_succ x = (x + 1)%Z.
Proof. intros ?. apply Z.mod_small. unfold u64_modulus in *. lia. Qed.

#[export] Hint Resolve u64_succ_range : go_db.

(** * Time

    A [time.Time] is an instant, in nanoseconds since the zero time, and
    whether its location is [time.UTC]: the code reads nothing else of it.
    [Sub] saturates at the ends of a 64-bit [Duration], as Go's does. *)

Module GoTime.
Record t := mk { ns : Z; utc : bool }.

#[global] Instance eq_dec : EqDecision t.
Proof. solve_decision. Defined.

Definition zero : t := mk 0 true.
Definition IsZero (x : t) : bool := (ns x =? 0)%Z.
Definition IsUTC (x : t) : bool := utc x.
Definition Equal (x y : t) : bool := (ns x =? ns y)%Z.
Definition After (x y : t) : bool := (ns y <? ns x)%Z.
Definition Before (x y : t) : bool := (ns x <? ns y)%Z.
Definition UTC (x : t) : t := mk (ns x) true.
Definition Add (x : t) (d : Z) : t := mk (ns x + d) (utc x).
Definition Sub (x y : t) : Z := Z.max min_int64 (Z.min max_int64 (ns x - ns y)).

Definition Second : Z := 1000000000.
Definition Minute : Z := 60 * Second.
End GoTime.
