(* ===== verification/Strings.v ===== *)
(** Go strings: the functions of package [strings] that the code uses, on byte
    strings, and the lemmas about them that the components share. *)
From Stdlib Require Import Ascii String ZArith Lia.
From stdpp Require Import base decidable list strings.
From S2P Require Import Prelude.

Open Scope string_scope.
#[global] Arguments String.append !s1 s2 : simpl nomatch.

(** A Go string is a sequence of bytes; [len] counts bytes. *)
Definition code (c : ascii) : N := N_of_ascii c.
Definition byte (n : N) : ascii := ascii_of_N n.

Definition len (s : string) : Z := Z.of_nat (String.length s).

Fixpoint str_forall (P : ascii -> bool) (s : string) : bool :=
  match s with
  | "" => true
  | String c r => P c && str_forall P r
  end.

Fixpoint HasPrefix (s prefix : string) : bool :=
  match prefix, s with
  | "", _ => true
  | String p ps, String c cs => Ascii.eqb c p && HasPrefix cs ps
  | String _ _, "" => false
  end.

Fixpoint str_drop (n : nat) (s : string) : string :=
  match n, s with
  | O, _ => s
  | S n', String _ r => str_drop n' r
  | S _, "" => ""
  end.

Definition TrimPrefix (s prefix : string) : string :=
  if HasPrefix s prefix then str_drop (String.length prefix) s else s.

(** [strings.Cut] and [strings.Split] with a one-byte separator. *)
Fixpoint Cut (s : string) (sep : ascii) : string * string * bool :=
  match s with
  | "" => ("", "", false)
  | String c r =>
      if Ascii.eqb c sep then ("", r, true)
      else let '(before, after, found) := Cut r sep in (String c before, after, found)
  end.

Fixpoint Split (s : string) (sep : ascii) : list string :=
  match s with
  | "" => [""]
  | String c r =>
      if Ascii.eqb c sep then "" :: Split r sep
      else match Split r sep with
           | h :: t => String c h :: t
           | [] => [String c ""]
           end
  end.

Fixpoint Contains (s substr : string) : bool :=
  HasPrefix s substr || match s with "" => false | String _ r => Contains r substr end.

Definition ContainsByte (s : string) (b : ascii) : bool :=
  negb (str_forall (fun c => negb (Ascii.eqb c b)) s).

Fixpoint str_rev_append (s acc : string) : string :=
  match s with "" => acc | String c r => str_rev_append r (String c acc) end.

Definition str_rev (s : string) : string := str_rev_append s "".

(** [strings.TrimSpace] removes the Unicode white space at both ends.  These
    are the UTF-8 encodings of the code points for which [unicode.IsSpace]
    holds; a decoder that meets one of them at the start or at the end of a
    string reads exactly these bytes. *)
Definition bytes (l : list N) : string :=
  foldr (fun n s => String (byte n) s) "" l.

Definition space_encodings : list string :=
  [bytes [9]; bytes [10]; bytes [11]; bytes [12]; bytes [13]; bytes [32];
   bytes [194; 133]; bytes [194; 160]; bytes [225; 154; 128];
   bytes [226; 128; 128]; bytes [226; 128; 129]; bytes [226; 128; 130];
   bytes [226; 128; 131]; bytes [226; 128; 132]; bytes [226; 128; 133];
   bytes [226; 128; 134]; bytes [226; 128; 135]; bytes [226; 128; 136];
   bytes [226; 128; 137]; bytes [226; 128; 138]; bytes [226; 128; 168];
   bytes [226; 128; 169]; bytes [226; 128; 175]; bytes [226; 129; 159];
   bytes [227; 128; 128]]%N.

(** Drops the leading occurrences of the given encodings. *)
Fixpoint trim_leading (encodings : list string) (fuel : nat) (s : string) : string :=
  match fuel with
  | O => s
  | S fuel' =>
      match find (fun e => HasPrefix s e) encodings with
      | Some e => trim_leading encodings fuel' (str_drop (String.length e) s)
      | None => s
      end
  end.

Definition TrimLeftSpace (s : string) : string :=
  trim_leading space_encodings (String.length s) s.

Definition TrimRightSpace (s : string) : string :=
  str_rev (trim_leading (map str_rev space_encodings) (String.length s) (str_rev s)).

Definition TrimSpace (s : string) : string := TrimRightSpace (TrimLeftSpace s).

(** Bytes no white-space encoding starts or ends with. *)
Definition printable (c : ascii) : bool := ((33 <=? code c) && (code c <=? 126))%N.

(** [strings.ToLower].  On an ASCII string it maps the letters A to Z; on any
    other string it applies the simple case mapping of the Unicode tables,
    which are data of the Go distribution and a parameter here. *)
Class UnicodeTables := {
  map_to_lower : string -> string;
  fold_equal : string -> string -> bool;
}.

Definition is_ascii_byte (c : ascii) : bool := (code c <? 128)%N.

Definition ascii_lower (c : ascii) : ascii :=
  if ((65 <=? code c) && (code c <=? 90))%N then byte (code c + 32) else c.

Fixpoint str_map (f : ascii -> ascii) (s : string) : string :=
  match s with "" => "" | String c r => String (f c) (str_map f r) end.

Definition ToLower `{UnicodeTables} (s : string) : string :=
  if str_forall is_ascii_byte s then str_map ascii_lower s else map_to_lower s.

(** [strings.EqualFold]: on ASCII strings, equality up to the case of the letters. *)
Definition EqualFold `{UnicodeTables} (s t : string) : bool :=
  if str_forall is_ascii_byte s && str_forall is_ascii_byte t
  then str_map ascii_lower s ==? str_map ascii_lower t else fold_equal s t.

(** [strings.Fields]: the maximal runs of bytes outside white space.  [cur] is the
    run being read, in reverse. *)
Definition flush (cur : string) (rest : list string) : list string :=
  match cur with "" => rest | _ => str_rev cur :: rest end.

Fixpoint fields_from (fuel : nat) (s cur : string) : list string :=
  match fuel, s with
  | S fuel', String c r =>
      match find (fun e => HasPrefix s e) space_encodings with
      | Some e => flush cur (fields_from fuel' (str_drop (String.length e) s) "")
      | None => fields_from fuel' r (String c cur)
      end
  | _, _ => flush cur []
  end.

Definition Fields (s : string) : list string := fields_from (String.length s) s "".

(** * Lemmas *)

Lemma str_forall_impl (P Q : ascii -> bool) s :
  (forall c, P c = true -> Q c = true) -> str_forall P s = true -> str_forall Q s = true.
Proof.
  intros HPQ. induction s as [|c s IH]; simpl; [done|].
  rewrite !andb_true_iff. intros [Hc Hs]. auto.
Qed.

Lemma str_forall_app P s t : str_forall P (s +:+ t) = str_forall P s && str_forall P t.
Proof. induction s as [|c s IH]; simpl; [done|]. by rewrite IH, andb_assoc. Qed.

Lemma str_app_assoc (s t u : string) : (s +:+ t) +:+ u = s +:+ (t +:+ u).
Proof. induction s as [|c s IH]; simpl; by rewrite ?IH. Qed.

Lemma str_rev_append_app s acc : str_rev_append s acc = str_rev s +:+ acc.
Proof.
  unfold str_rev. revert acc. induction s as [|c s IH]; intros acc; simpl; [done|].
  by rewrite (IH (String c acc)), (IH (String c "")), str_app_assoc.
Qed.

Lemma str_rev_cons c s : str_rev (String c s) = str_rev s +:+ String c "".
Proof. unfold str_rev at 1. cbn. apply str_rev_append_app. Qed.

Lemma str_app_nil_r (s : string) : s +:+ "" = s.
Proof. induction s as [|c s IH]; simpl; by rewrite ?IH. Qed.

Lemma str_app_nil_inv (s t : string) : s +:+ t = "" -> s = "" /\ t = "".
Proof. by destruct s, t. Qed.

Lemma str_rev_app s t : str_rev (s +:+ t) = str_rev t +:+ str_rev s.
Proof.
  induction s as [|c s IH]; simpl.
  - by rewrite str_app_nil_r.
  - by rewrite !str_rev_cons, IH, str_app_assoc.
Qed.

Lemma str_rev_involutive s : str_rev (str_rev s) = s.
Proof.
  induction s as [|c s IH]; [done|]. rewrite str_rev_cons, str_rev_app, IH. done.
Qed.

Lemma str_forall_rev P s : str_forall P (str_rev s) = str_forall P s.
Proof.
  induction s as [|c s IH]; [done|].
  rewrite str_rev_cons, str_forall_app, IH. cbn. by rewrite andb_true_r, andb_comm.
Qed.

Lemma length_str_app s t : String.length (s +:+ t) = String.length s + String.length t.
Proof. induction s as [|c s IH]; simpl; by rewrite ?IH. Qed.

Lemma HasPrefix_spec s p : HasPrefix s p = true <-> exists t, s = p +:+ t.
Proof.
  revert s. induction p as [|x p IH]; intros s; simpl.
  - destruct s; split; eauto.
  - destruct s as [|c s]; simpl; [split; [done|intros [? [=]]]|].
    rewrite andb_true_iff, Ascii.eqb_eq, IH. split.
    + intros [-> [t ->]]. by exists t.
    + intros [t [= -> ->]]. eauto.
Qed.

Lemma str_drop_app p t : str_drop (String.length p) (p +:+ t) = t.
Proof. by induction p. Qed.

Lemma TrimPrefix_app p t : TrimPrefix (p +:+ t) p = t.
Proof.
  unfold TrimPrefix. replace (HasPrefix (p +:+ t) p) with true; [apply str_drop_app|].
  symmetry. apply HasPrefix_spec. by exists t.
Qed.

(** The first byte of every encoding of a list misses a class of bytes. *)
Definition head_not (P : ascii -> bool) (e : string) : bool :=
  match e with "" => false | String c _ => negb (P c) end.

Lemma trim_leading_id P encs fuel s :
  forallb (head_not P) encs = true -> str_forall P s = true ->
  trim_leading encs fuel s = s.
Proof.
  intros Hencs Hs. destruct fuel as [|fuel]; [done|]. cbn.
  destruct (find _ encs) as [e|] eqn:Hf; [|done]. exfalso.
  apply find_some in Hf as [Hin Hp].
  rewrite forallb_forall in Hencs. specialize (Hencs e Hin).
  destruct e as [|c e]; [done|]. destruct s as [|d s]; [done|].
  cbn in *. bool_to_prop. apply Ascii.eqb_eq in H. subst. congruence.
Qed.

(** A string of printable ASCII bytes is its own trimmed form. *)
Lemma TrimSpace_printable s : str_forall printable s = true -> TrimSpace s = s.
Proof.
  intros Hs. unfold TrimSpace, TrimRightSpace, TrimLeftSpace.
  rewrite (trim_leading_id printable space_encodings); [|done|done].
  rewrite (trim_leading_id printable (map str_rev space_encodings)); [|done|].
  - apply str_rev_involutive.
  - by rewrite str_forall_rev.
Qed.

Lemma printable_is_ascii c : printable c = true -> is_ascii_byte c = true.
Proof. unfold printable, is_ascii_byte. rewrite andb_true_iff, !N.leb_le, N.ltb_lt. lia. Qed.

(** Bytes that [ToLower] leaves alone. *)
Definition not_upper (c : ascii) : bool := is_ascii_byte c && negb ((65 <=? code c) && (code c <=? 90))%N.

Lemma ToLower_not_upper `{UnicodeTables} s : str_forall not_upper s = true -> ToLower s = s.
Proof.
  intros Hs. unfold ToLower.
  rewrite (str_forall_impl not_upper is_ascii_byte s); [|by intros c; unfold not_upper; rewrite andb_true_iff; intros []|done].
  induction s as [|c s IH]; [done|]. cbn in *. apply andb_true_iff in Hs as [Hc Hs].
  rewrite IH by done. f_equal. unfold ascii_lower, not_upper in *.
  apply andb_true_iff in Hc as [_ Hc]. apply negb_true_iff in Hc. by rewrite Hc.
Qed.

#[export] Hint Resolve TrimSpace_printable ToLower_not_upper : go_db.

(** A word on a line of its own. *)
Lemma find_no_space c s : printable c = true -> find (fun e => HasPrefix (String c s) e) space_encodings = None.
Proof.
  intros Hc. destruct (find _ _) as [e|] eqn:Hf; [|done]. apply find_some in Hf as [Hin Hp]. exfalso.
  assert (Hh : forallb (head_not printable) space_encodings = true) by (vm_compute; reflexivity).
  rewrite forallb_forall in Hh. specialize (Hh e Hin). destruct e as [|d e]; [done|]. cbn -[printable Ascii.eqb] in *.
  apply andb_true_iff in Hp as [Hd _]. apply Ascii.eqb_eq in Hd as ->. by rewrite Hc in Hh.
Qed.

Lemma fields_from_word s cur fuel :
  str_forall printable s = true -> String.length s < fuel ->
  fields_from fuel (s +:+ String "010" "") cur = flush (str_rev_append s cur) [].
Proof.
  revert cur fuel. induction s as [|c s IH]; intros cur [|fuel] Hs Hl; cbn [String.length] in Hl; try lia.
  - vm_compute in cur |- *. destruct fuel; reflexivity.
  - cbn -[printable] in Hs. apply andb_true_iff in Hs as [Hc Hs].
    cbn [String.append fields_from]. rewrite find_no_space by done. rewrite IH by (done || lia). done.
Qed.

Lemma Fields_word s : str_forall printable s = true -> s <> "" -> Fields (s +:+ String "010" "") = [s].
Proof.
  intros Hs Hne. unfold Fields. rewrite fields_from_word by (done || (rewrite length_str_app; cbn; lia)).
  fold (str_rev s). rewrite <- (str_rev_involutive s) at 2. unfold flush.
  destruct (str_rev s) as [|c r] eqn:E; [|done]. rewrite <- (str_rev_involutive s), E in Hne. done.
Qed.

Lemma TrimSpace_word s : str_forall printable s = true -> s <> "" -> TrimSpace (s +:+ String "010" "") = s.
Proof.
  intros Hs Hne. unfold TrimSpace, TrimLeftSpace. rewrite length_str_app, Nat.add_comm. cbn [String.length Nat.add].
  destruct s as [|c s]; [done|]. set (s' := String c s) in *.
  assert (Hl : forall n, trim_leading space_encodings n (s' +:+ String "010" "") = s' +:+ String "010" "").
  { intros [|n]; [done|]. cbn [trim_leading]. change (s' +:+ String "010" "") with (String c (s +:+ String "010" "")).
    rewrite find_no_space; [done|]. cbn -[printable] in Hs. by apply andb_true_iff in Hs as [? _]. }
  rewrite Hl. unfold TrimRightSpace. rewrite str_rev_app, length_str_app, Nat.add_comm.
  change (str_rev (String "010" "") +:+ str_rev s') with (String "010" (str_rev s')).
  assert (Hd : forall n x, trim_leading (map str_rev space_encodings) (S n) (String "010" x) =
    trim_leading (map str_rev space_encodings) n x) by (by intros n []).
  cbn [String.length Nat.add]. rewrite Hd.
  rewrite (trim_leading_id printable), str_rev_involutive; [done|vm_compute; reflexivity|by rewrite str_forall_rev].
Qed.
