(* ===== verification/Regexp.v ===== *)
(** Regular expressions (package [regexp]) and the patterns the runtime uses to
    validate identities.  Every pattern of the code is anchored at both ends, so
    a match is a match of the whole string.  [re_match] decides a match by
    derivatives, and [re_match_spec] relates it to the denotation [matches]. *)
From Stdlib Require Import Ascii String ZArith Lia.
From stdpp Require Import base decidable list strings.
From S2P Require Import Prelude Strings.

Open Scope string_scope.

Inductive re : Type :=
| Empty
| Eps
| Cls (f : ascii -> bool)
| Cat (r1 r2 : re)
| Alt (r1 r2 : re)
| Star (r : re)
| Rep (r : re) (m n : nat).

(** [Rep r m n] is [r{m,n}]. *)
Inductive matches : re -> string -> Prop :=
| m_eps : matches Eps ""
| m_cls f c : f c = true -> matches (Cls f) (String c "")
| m_cat r1 r2 s t : matches r1 s -> matches r2 t -> matches (Cat r1 r2) (s +:+ t)
| m_alt_l r1 r2 s : matches r1 s -> matches (Alt r1 r2) s
| m_alt_r r1 r2 s : matches r2 s -> matches (Alt r1 r2) s
| m_star_nil r : matches (Star r) ""
| m_star_app r s t : matches r s -> matches (Star r) t -> matches (Star r) (s +:+ t)
| m_rep_nil r n : matches (Rep r 0 n) ""
| m_rep_app r m n s t :
    matches r s -> matches (Rep r (pred m) n) t -> matches (Rep r m (S n)) (s +:+ t).

#[export] Hint Constructors matches : go_db.

Fixpoint nullable (r : re) : bool :=
  match r with
  | Empty | Cls _ => false
  | Eps | Star _ => true
  | Cat r1 r2 => nullable r1 && nullable r2
  | Alt r1 r2 => nullable r1 || nullable r2
  | Rep r m n => Nat.eqb m 0 || nullable r && Nat.leb m n
  end.

(** Smart constructors keep the derivatives small. *)
Definition mkCat (r1 r2 : re) : re :=
  match r1 with Empty => Empty | Eps => r2 | _ => Cat r1 r2 end.

Definition mkAlt (r1 r2 : re) : re :=
  match r1, r2 with Empty, _ => r2 | _, Empty => r1 | _, _ => Alt r1 r2 end.

Fixpoint deriv (c : ascii) (r : re) : re :=
  match r with
  | Empty | Eps => Empty
  | Cls f => if f c then Eps else Empty
  | Cat r1 r2 =>
      if nullable r1 then mkAlt (mkCat (deriv c r1) r2) (deriv c r2)
      else mkCat (deriv c r1) r2
  | Alt r1 r2 => mkAlt (deriv c r1) (deriv c r2)
  | Star r => mkCat (deriv c r) (Star r)
  | Rep r m n =>
      match n with
      | O => Empty
      | S n' => mkCat (deriv c r) (Rep r (pred m) n')
      end
  end.

Fixpoint re_match (r : re) (s : string) : bool :=
  match s with
  | "" => nullable r
  | String c t => re_match (deriv c r) t
  end.

(** ** Correctness of the matcher *)

Lemma matches_mkCat r1 r2 s : matches (mkCat r1 r2) s <-> matches (Cat r1 r2) s.
Proof.
  destruct r1; cbn; try reflexivity; split; intros H.
  - inversion H.
  - inversion H as [| |? ? ? ? H1| | | | | |]; subst. inversion H1.
  - change s with ("" +:+ s). eauto with go_db.
  - inversion H as [| |? ? ? ? H1| | | | | |]; subst. inversion H1; subst. done.
Qed.

Lemma matches_mkAlt r1 r2 s : matches (mkAlt r1 r2) s <-> matches (Alt r1 r2) s.
Proof.
  assert (HL : forall r, matches r s <-> matches (Alt r Empty) s).
  { intros r. split; [eauto with go_db|]. inversion 1 as [| | | |? ? ? H1| | | |]; [done|inversion H1]. }
  assert (HR : forall r, matches r s <-> matches (Alt Empty r) s).
  { intros r. split; [eauto with go_db|]. inversion 1 as [| | |? ? ? H1| | | | |]; [inversion H1|done]. }
  destruct r1; [apply HR|..]; destruct r2; cbn; first [reflexivity | apply HL].
Qed.

Lemma nullable_spec r : nullable r = true <-> matches r "".
Proof.
  induction r as [| |f|r1 IH1 r2 IH2|r1 IH1 r2 IH2|r IH|r IH m n]; cbn.
  - split; [done|inversion 1].
  - split; eauto with go_db.
  - split; [done|inversion 1].
  - rewrite andb_true_iff, IH1, IH2. split.
    + intros []. change "" with ("" +:+ ""). eauto with go_db.
    + inversion 1 as [| |? ? s t H1 H2 E1 E2| | | | | |]; subst.
      apply str_app_nil_inv in E2 as [-> ->]. done.
  - rewrite orb_true_iff, IH1, IH2. split; [intros []; eauto with go_db|].
    inversion 1; auto.
  - split; eauto with go_db.
  - rewrite orb_true_iff, andb_true_iff, Nat.eqb_eq, Nat.leb_le, IH. split.
    + intros [->|[Hr Hmn]]; [eauto with go_db|].
      revert m Hmn. induction n as [|n IHn]; intros m Hmn.
      * replace m with 0 by lia. eauto with go_db.
      * change "" with ("" +:+ ""). constructor; [done|]. apply IHn. lia.
    + remember (Rep r m n) as q eqn:Eq. remember "" as s eqn:Es. intros H.
      revert m n Eq Es. induction H; intros m' n' Eq Es; try done; injection Eq as <- <- <-.
      * by left.
      * apply str_app_nil_inv in Es as [-> ->]. right. split; [done|].
        destruct (IHmatches2 IH _ _ eq_refl eq_refl) as [|[_ ?]]; lia.
Qed.

Lemma deriv_rep_nullable r m n s :
  matches r "" -> matches (Rep r (pred m) (pred n)) s -> (0 < n)%nat -> matches (Rep r m n) s.
Proof.
  intros Hr Hs Hn. destruct n as [|n]; [lia|]. change s with ("" +:+ s). by constructor.
Qed.

(** Where the first byte of a concatenation, a star or a repetition goes. *)
Lemma matches_cat_cons r1 r2 c s :
  matches (Cat r1 r2) (String c s) <->
  (exists t u, s = t +:+ u /\ matches r1 (String c t) /\ matches r2 u) \/
  (matches r1 "" /\ matches r2 (String c s)).
Proof.
  split.
  - inversion 1 as [| |? ? t u H1 H2 E1 E2| | | | | |]; subst.
    destruct t as [|c' t]; simpl in *; [subst; by right|].
    injection E2 as -> <-. left. eauto.
  - intros [(t & u & -> & H1 & H2)|[H1 H2]].
    + change (String c (t +:+ u)) with (String c t +:+ u). by constructor.
    + change (String c s) with ("" +:+ String c s). by constructor.
Qed.

Lemma matches_star_cons r c s :
  matches (Star r) (String c s) <->
  exists t u, s = t +:+ u /\ matches r (String c t) /\ matches (Star r) u.
Proof.
  split.
  - remember (Star r) as q eqn:Eq. remember (String c s) as w eqn:Ew. intros H.
    revert s Ew. induction H; intros v Ew; try done; injection Eq as ->.
    destruct s as [|c' s]; simpl in *; [by apply IHmatches2|].
    injection Ew as -> <-. eauto.
  - intros (t & u & -> & H1 & H2).
    change (String c (t +:+ u)) with (String c t +:+ u). by constructor.
Qed.

Lemma matches_rep_cons r m n c s :
  matches (Rep r m (S n)) (String c s) <->
  exists t u, s = t +:+ u /\ matches r (String c t) /\ matches (Rep r (pred m) n) u.
Proof.
  split.
  - remember (Rep r m (S n)) as q eqn:Eq. remember (String c s) as w eqn:Ew. intros H.
    revert m n s Eq Ew. induction H as [| | | | | | | |r' m' n' s1 t1 H1 _ H2 IH2];
      intros m0 n0 v Eq Ew; try done; injection Eq as -> -> ->.
    destruct s1 as [|c' s1]; simpl in *.
    + subst. destruct n0 as [|n1]; [inversion H2|].
      destruct (IH2 _ _ _ eq_refl eq_refl) as (t & u & -> & Ht & Hu).
      exists t, u. repeat split; [done|]. by apply deriv_rep_nullable; [..|lia].
    + injection Ew as -> <-. eauto.
  - intros (t & u & -> & H1 & H2).
    change (String c (t +:+ u)) with (String c t +:+ u). by constructor.
Qed.

Lemma matches_cat_deriv d r1 r2 s c :
  (forall t, matches d t <-> matches r1 (String c t)) ->
  matches (mkCat d r2) s <->
  exists t u, s = t +:+ u /\ matches r1 (String c t) /\ matches r2 u.
Proof.
  intros Hd. rewrite matches_mkCat. split.
  - inversion 1 as [| |? ? t u H1 H2| | | | | |]; subst. rewrite Hd in H1. eauto.
  - intros (t & u & -> & H1 & H2). rewrite <- Hd in H1. by constructor.
Qed.

Lemma matches_alt r1 r2 s : matches (Alt r1 r2) s <-> matches r1 s \/ matches r2 s.
Proof. split; [inversion 1; auto|intros []; eauto with go_db]. Qed.

Lemma deriv_spec c r : forall s, matches (deriv c r) s <-> matches r (String c s).
Proof.
  induction r as [| |f|r1 IH1 r2 IH2|r1 IH1 r2 IH2|r IH|r IH m n]; intros s; cbn.
  - split; inversion 1.
  - split; inversion 1.
  - destruct (f c) eqn:Hf; split; inversion 1; subst; eauto with go_db. congruence.
  - rewrite matches_cat_cons. destruct (nullable r1) eqn:Hn.
    + apply nullable_spec in Hn.
      rewrite matches_mkAlt, matches_alt, (matches_cat_deriv _ _ _ _ _ IH1), IH2. tauto.
    + rewrite (matches_cat_deriv _ _ _ _ _ IH1). split; [by left|].
      intros [H|[H _]]; [done|]. apply nullable_spec in H. congruence.
  - by rewrite matches_mkAlt, !matches_alt, IH1, IH2.
  - by rewrite (matches_cat_deriv _ _ _ _ _ IH), matches_star_cons.
  - destruct n as [|n]; [split; inversion 1|].
    by rewrite (matches_cat_deriv _ _ _ _ _ IH), matches_rep_cons.
Qed.

Theorem re_match_spec r s : re_match r s = true <-> matches r s.
Proof.
  revert r. induction s as [|c s IH]; intros r; cbn; [apply nullable_spec|].
  by rewrite IH, deriv_spec.
Qed.

(** ** What a pattern says about the strings it matches *)

Definition all_bytes : list ascii := map (fun n => ascii_of_nat n) (seq 0 256).

Lemma all_bytes_complete c : In c all_bytes.
Proof.
  apply in_map_iff. exists (nat_of_ascii c). split; [apply ascii_nat_embedding|].
  apply in_seq. pose proof (nat_ascii_bounded c). lia.
Qed.

(** Every byte class of the pattern lies in [P]. *)
Fixpoint re_within (P : ascii -> bool) (r : re) : bool :=
  match r with
  | Empty | Eps => true
  | Cls f => forallb (fun c => implb (f c) (P c)) all_bytes
  | Cat r1 r2 | Alt r1 r2 => re_within P r1 && re_within P r2
  | Star r | Rep r _ _ => re_within P r
  end.

Lemma matches_within P r s : matches r s -> re_within P r = true -> str_forall P s = true.
Proof.
  induction 1 as [|f c Hc| | | | | | |]; cbn [re_within str_forall]; intros HP;
    rewrite ?str_forall_app; [done| |..];
    [|apply andb_true_iff in HP as [HP1 HP2]..| | | |]; rewrite ?andb_true_iff; auto.
  rewrite forallb_forall in HP. specialize (HP c (all_bytes_complete c)).
  rewrite Hc in HP. cbn in HP. by rewrite HP.
Qed.

Lemma re_match_within P r s :
  re_match r s = true -> re_within P r = true -> str_forall P s = true.
Proof. rewrite re_match_spec. apply matches_within. Qed.

(** Bounds on the length of a match. *)
Fixpoint re_min (r : re) : nat :=
  match r with
  | Empty | Eps | Star _ => 0
  | Cls _ => 1
  | Cat r1 r2 => re_min r1 + re_min r2
  | Alt r1 r2 => Nat.min (re_min r1) (re_min r2)
  | Rep r m _ => m * re_min r
  end.

Fixpoint re_max (r : re) : option nat :=
  match r with
  | Empty | Eps => Some 0
  | Cls _ => Some 1
  | Cat r1 r2 =>
      match re_max r1, re_max r2 with Some a, Some b => Some (a + b) | _, _ => None end
  | Alt r1 r2 =>
      match re_max r1, re_max r2 with Some a, Some b => Some (Nat.max a b) | _, _ => None end
  | Star _ => None
  | Rep r _ n => match re_max r with Some a => Some (n * a) | None => None end
  end.

Lemma matches_min r s : matches r s -> re_min r <= String.length s.
Proof.
  induction 1 as [| | | | | | | |r m n s t _ IH1 _ IH2]; cbn; rewrite ?length_str_app; cbn in *; try lia.
  destruct m; cbn in *; nia.
Qed.

Lemma matches_max r s k : matches r s -> re_max r = Some k -> String.length s <= k.
Proof.
  intros H. revert k. induction H; cbn; intros k Hk; rewrite ?length_str_app; cbn in *;
    try destruct (re_max r1); try destruct (re_max r2); try destruct (re_max r); simplify_eq;
    repeat match goal with IH : forall k, Some _ = Some k -> _ |- _ => specialize (IH _ eq_refl) end;
    lia.
Qed.

Lemma re_match_length r s n :
  re_match r s = true -> re_min r = n -> re_max r = Some n -> String.length s = n.
Proof.
  rewrite re_match_spec. intros H <- Hn.
  pose proof (matches_min _ _ H). pose proof (matches_max _ _ _ H Hn). lia.
Qed.
