(* ===== verification/Patterns.v ===== *)
(** The identity patterns and small string predicates of the runtime:
    [target.go], [artifact.go], [docker_manifest.go], [mutation_protocol.go],
    [github_release_metadata.go], [digest.go] and the helpers beside them. *)
From Stdlib Require Import Ascii String ZArith Lia.
From stdpp Require Import base decidable list strings.
From S2P Require Import Prelude Strings Regexp.

Open Scope string_scope.

(** Byte classes and derived forms, named after the regexp syntax. *)
Definition rng (lo hi : ascii) (c : ascii) : bool := ((code lo <=? code c) && (code c <=? code hi))%N.
Definition one_of (s : string) (c : ascii) : bool := ContainsByte s c.
Definition digit : ascii -> bool := rng "0" "9".
Definition lower : ascii -> bool := rng "a" "z".
Definition upper : ascii -> bool := rng "A" "Z".
Definition alnum (c : ascii) : bool := upper c || lower c || digit c.
Definition hexdigit (c : ascii) : bool := digit c || rng "a" "f" c.

Definition Plus (r : re) : re := Cat r (Star r).
Definition Opt (r : re) : re := Alt Eps r.
Definition Times (r : re) (n : nat) : re := Rep r n n.
Fixpoint Lit (s : string) : re :=
  match s with
  | "" => Eps
  | String c r => Cat (Cls (Ascii.eqb c)) (Lit r)
  end.

(** [^[A-Za-z0-9][A-Za-z0-9._:-]{0,127}$] *)
Definition identifierPattern : re :=
  Cat (Cls alnum) (Rep (Cls (fun c => alnum c || one_of "._:-" c)) 0 127).

(** Three dotted numbers after a [v], then optionally a dash and words separated
    by a dot or a dash. *)
Definition versionPattern : re :=
  let number := Plus (Cls digit) in
  let word := Plus (Cls alnum) in
  Cat (Lit "v") (Cat number (Cat (Lit ".") (Cat number (Cat (Lit ".") (Cat number
    (Opt (Cat (Lit "-") (Cat word (Star (Cat (Cls (one_of ".-")) word)))))))))).

(** [^sha256:[0-9a-f]{64}$] *)
Definition digestPattern : re := Cat (Lit "sha256:") (Times (Cls hexdigit) 64).

(** [^[a-f0-9]{64}$] *)
Definition mutationPlanHashPattern : re := Times (Cls hexdigit) 64.

(** [^[A-Za-z0-9][A-Za-z0-9._:-]{15,127}$] *)
Definition mutationSessionPattern : re :=
  Cat (Cls alnum) (Rep (Cls (fun c => alnum c || one_of "._:-" c)) 15 127).

(** [^[0-9a-f]{40}$] *)
Definition updaterReleaseCommitPattern : re := Times (Cls hexdigit) 40.

(** [^[0-9a-f]{12,64}$] *)
Definition dockerContainerIDPattern : re := Rep (Cls hexdigit) 12 64.

(** [^[0-9a-f]{12}$] *)
Definition jobDirectoryPattern : re := Times (Cls hexdigit) 12.

Definition ModeSystemd : string := "systemd".
Definition ModeDocker : string := "docker".
Definition HostTransportPullV2 : string := "pull_v2".
Definition ServiceTypeUpdateAgent : string := "update_agent".

(** [validExecutionHostID]: the [range] loop visits runes; a rune that is not
    ASCII is outside every accepted range, so the bytes decide. *)
Definition validExecutionHostID (raw : string) : bool :=
  let value := TrimSpace raw in
  if ((len value <? 1) || (191 <? len value))%Z then false
  else match value with
       | "" => true
       | String c r => alnum c && str_forall (fun c => alnum c || one_of "._:-" c) r
       end.

Definition isCanonicalBareSHA256 (value : string) : bool :=
  if negb (len value =? 64)%Z then false
  else str_forall hexdigit value.

Definition validBoundedSecret (value : string) : bool :=
  if ((len value =? 0) || (16384 <? len value))%Z then false
  else str_forall (fun c => (33 <=? code c) && (code c <=? 126))%N value.

Definition safeExecutorMessage (value : string) : bool :=
  if (TrimSpace value ==? "") || (500 <? len value)%Z then false
  else str_forall (fun c => negb ((code c <? 32) || (code c =? 127)))%N value.

Section Digests.
Context `{UnicodeTables}.

Definition normalizeDigest (digest : string) : string :=
  let digest := TrimSpace (ToLower digest) in
  if (len digest =? 64)%Z && negb (HasPrefix digest "sha256:") then "sha256:" +:+ digest
  else digest.

Definition canonicalReportDigest (value : string) : string :=
  let value := normalizeDigest value in
  if (value !=? "") && negb (re_match digestPattern value) then "" else value.
End Digests.

Definition isTerminalUpdateStatus (status : string) : bool :=
  (status ==? "succeeded") || (status ==? "rolled_back") || (status ==? "failed").

(** [BoundedSecret] hides its content from every formatter. *)
Definition BoundedSecret_String (secret : string) : string := "[REDACTED]".

(** * What the patterns guarantee *)

Ltac pattern_within := eapply re_match_within; [eassumption | vm_compute; reflexivity].

(** The identity patterns only match printable ASCII, so the code's extra
    comparisons with the trimmed string never reject what a pattern accepts. *)
Lemma identifier_printable s : re_match identifierPattern s = true -> str_forall printable s = true.
Proof. intros. pattern_within. Qed.
Lemma version_printable s : re_match versionPattern s = true -> str_forall printable s = true.
Proof. intros. pattern_within. Qed.
Lemma digest_printable s : re_match digestPattern s = true -> str_forall printable s = true.
Proof. intros. pattern_within. Qed.
Lemma commit_printable s : re_match updaterReleaseCommitPattern s = true -> str_forall printable s = true.
Proof. intros. pattern_within. Qed.
Lemma plan_hash_printable s : re_match mutationPlanHashPattern s = true -> str_forall printable s = true.
Proof. intros. pattern_within. Qed.
Lemma session_printable s : re_match mutationSessionPattern s = true -> str_forall printable s = true.
Proof. intros. pattern_within. Qed.

#[export] Hint Resolve identifier_printable version_printable digest_printable
  commit_printable plan_hash_printable session_printable : go_db.

Lemma digest_not_upper s : re_match digestPattern s = true -> str_forall not_upper s = true.
Proof. intros. pattern_within. Qed.
Lemma plan_hash_not_upper s : re_match mutationPlanHashPattern s = true -> str_forall not_upper s = true.
Proof. intros. pattern_within. Qed.

#[export] Hint Resolve digest_not_upper plan_hash_not_upper : go_db.

Lemma digest_length s : re_match digestPattern s = true -> len s = 71%Z.
Proof.
  intros H. unfold len. by rewrite (re_match_length digestPattern s 71 H eq_refl eq_refl).
Qed.

Lemma plan_hash_length s : re_match mutationPlanHashPattern s = true -> len s = 64%Z.
Proof.
  intros H. unfold len. by rewrite (re_match_length mutationPlanHashPattern s 64 H eq_refl eq_refl).
Qed.

Lemma re_match_nonempty r s : re_match r s = true -> re_min r <> 0%nat -> s <> "".
Proof. rewrite re_match_spec. intros H Hr ->. apply matches_min in H. cbn in H. lia. Qed.

Lemma identifier_nonempty s : re_match identifierPattern s = true -> s <> "".
Proof. intros H. apply (re_match_nonempty _ _ H). vm_compute. done. Qed.

Lemma version_nonempty s : re_match versionPattern s = true -> s <> "".
Proof. intros H. apply (re_match_nonempty _ _ H). vm_compute. done. Qed.

Lemma matches_times_class f n s :
  matches (Times (Cls f) n) s <-> String.length s = n /\ str_forall f s = true.
Proof.
  unfold Times. revert s. induction n as [|n IH]; intros s.
  - split; [inversion 1; done|]. intros [Hs _]. destruct s; [constructor|done].
  - split.
    + inversion 1 as [| | | | | | | |r m k a b Ha Hb]; subst.
      apply IH in Hb as [Hl Hf]. inversion Ha; subst. cbn. split; [congruence|].
      by rewrite H1, Hf.
    + intros [Hl Hf]. destruct s as [|c s]; [done|]. cbn in *. apply andb_true_iff in Hf as [Hc Hf].
      change (String c s) with (String c "" +:+ s). constructor; [by constructor|].
      apply IH. auto.
Qed.

(** The hand-written digest check of the self-update code accepts exactly the
    strings of the plan-hash pattern. *)
Lemma isCanonicalBareSHA256_pattern s :
  isCanonicalBareSHA256 s = re_match mutationPlanHashPattern s.
Proof.
  apply eq_true_iff_eq. rewrite re_match_spec. unfold mutationPlanHashPattern.
  rewrite matches_times_class. unfold isCanonicalBareSHA256, len.
  destruct (Z.eqb_spec (Z.of_nat (String.length s)) 64); cbn; split; intros; try done.
  - split; [lia|done].
  - by destruct H.
  - destruct H. lia.
Qed.

Lemma digest_of_plan_hash s :
  re_match digestPattern ("sha256:" +:+ s) = re_match mutationPlanHashPattern s.
Proof. reflexivity. Qed.


Lemma matches_lit p s : matches (Lit p) s <-> s = p.
Proof.
  revert s. induction p as [|c p IH]; intros s; cbn.
  - split; [by inversion 1|intros ->; constructor].
  - split.
    + inversion 1 as [| |? ? a b Ha Hb| | | | | |]; subst.
      inversion Ha as [|? ? Hc| | | | | | |]; subst. apply IH in Hb as ->.
      apply Ascii.eqb_eq in Hc as ->. done.
    + intros ->. change (String c p) with (String c "" +:+ p).
      constructor; [constructor; apply Ascii.eqb_refl|by apply IH].
Qed.

Lemma matches_lit_cat p r s : matches (Cat (Lit p) r) s <-> exists t, s = p +:+ t /\ matches r t.
Proof.
  split.
  - inversion 1 as [| |? ? a b Ha Hb| | | | | |]; subst. apply matches_lit in Ha as ->. eauto.
  - intros (t & -> & Ht). constructor; [by apply matches_lit|done].
Qed.

Lemma digest_inv s :
  re_match digestPattern s = true ->
  exists h, s = "sha256:" +:+ h /\ re_match mutationPlanHashPattern h = true.
Proof.
  rewrite re_match_spec. intros H. apply matches_lit_cat in H as (t & -> & Ht).
  exists t. by rewrite re_match_spec.
Qed.

Lemma plan_hash_no_prefix s :
  re_match mutationPlanHashPattern s = true -> HasPrefix s "sha256:" = false.
Proof.
  intros H. assert (Hx : str_forall hexdigit s = true) by pattern_within.
  destruct s as [|c s]; [done|]. cbn in *. apply andb_true_iff in Hx as [Hx _].
  destruct (Ascii.eqb_spec c "s") as [->|]; [discriminate Hx|done].
Qed.

Section DigestLemmas.
Context `{UnicodeTables}.

Lemma normalizeDigest_digest s : re_match digestPattern s = true -> normalizeDigest s = s.
Proof.
  intros Hs. unfold normalizeDigest.
  rewrite ToLower_not_upper, TrimSpace_printable by eauto with go_db.
  by rewrite (digest_length _ Hs).
Qed.

Lemma normalizeDigest_plan_hash s :
  re_match mutationPlanHashPattern s = true -> normalizeDigest s = "sha256:" +:+ s.
Proof.
  intros Hs. unfold normalizeDigest.
  rewrite ToLower_not_upper, TrimSpace_printable by eauto with go_db.
  by rewrite (plan_hash_length _ Hs), (plan_hash_no_prefix _ Hs).
Qed.

Lemma canonicalReportDigest_valid s :
  canonicalReportDigest s = "" \/ re_match digestPattern (canonicalReportDigest s) = true.
Proof.
  unfold canonicalReportDigest. case_bool_decide as E; cbn; [by left|].
  destruct (re_match digestPattern (normalizeDigest s)) eqn:Hm; [by right|by left].
Qed.
End DigestLemmas.
