(* ===== verification/Compare.v ===== *)
(** Comparison functions that decide a strict total order, and how orders on
    components combine into lexicographic orders. *)
From Stdlib Require Import Ascii String ZArith Lia.
From stdpp Require Import base decidable list strings.
From S2P Require Import Prelude.

Class CmpOrder {A : Type} (cmp : A -> A -> comparison) : Prop := {
  cmp_eq x y : cmp x y = Eq <-> x = y;
  cmp_opp x y : cmp y x = CompOpp (cmp x y);
  cmp_lt_trans x y z : cmp x y = Lt -> cmp y z = Lt -> cmp x z = Lt;
}.

Section Facts.
Context {A : Type} {cmp : A -> A -> comparison} `{!CmpOrder cmp}.

Lemma cmp_refl x : cmp x x = Eq.
Proof. by apply cmp_eq. Qed.

(** [x] is at least [y]. *)
Definition cmp_ge (x y : A) : bool := match cmp x y with Lt => false | _ => true end.

Lemma cmp_ge_refl x : cmp_ge x x = true.
Proof. unfold cmp_ge. by rewrite cmp_refl. Qed.

Lemma cmp_ge_total x y : cmp_ge x y = true \/ cmp_ge y x = true.
Proof. unfold cmp_ge. rewrite (cmp_opp x y). destruct (cmp x y); cbn; auto. Qed.

Lemma cmp_ge_antisym x y : cmp_ge x y = true -> cmp_ge y x = true -> x = y.
Proof.
  unfold cmp_ge. rewrite (cmp_opp x y). destruct (cmp x y) eqn:E; try done.
  intros _ _. by apply cmp_eq.
Qed.

Lemma cmp_ge_trans x y z : cmp_ge x y = true -> cmp_ge y z = true -> cmp_ge x z = true.
Proof.
  unfold cmp_ge. intros Hxy Hyz. destruct (cmp x z) eqn:E; try done.
  assert (Hzx : cmp z x = Gt) by (by rewrite (cmp_opp x z), E).
  destruct (cmp x y) eqn:E1; [apply cmp_eq in E1; subst; by rewrite E in Hyz|done|].
  destruct (cmp y z) eqn:E2; [apply cmp_eq in E2; subst; by rewrite E in E1|done|].
  assert (H1 : cmp y x = Lt) by (by rewrite (cmp_opp x y), E1).
  pose proof (cmp_lt_trans _ _ _ H1 E) as H2. by rewrite E2 in H2.
Qed.
End Facts.

(** ** Instances *)

#[global] Instance Z_cmp : CmpOrder Z.compare.
Proof.
  split.
  - apply Z.compare_eq_iff.
  - intros. by rewrite Z.compare_antisym.
  - intros x y z. rewrite !Z.compare_lt_iff. lia.
Qed.

#[global] Instance ascii_cmp : CmpOrder Ascii.compare.
Proof.
  split.
  - intros x y. split; [apply Ascii.compare_eq_iff|]. intros ->. apply N.compare_refl.
  - intros x y. apply Ascii.compare_antisym.
  - intros x y z. unfold Ascii.compare. rewrite !N.compare_lt_iff. lia.
Qed.

Definition lex (c d : comparison) : comparison :=
  match c with Eq => d | _ => c end.

Lemma lex_lt c d : lex c d = Lt <-> c = Lt \/ c = Eq /\ d = Lt.
Proof. destruct c; cbn; intuition congruence. Qed.

Lemma lex_eq c d : lex c d = Eq <-> c = Eq /\ d = Eq.
Proof. destruct c; cbn; intuition congruence. Qed.

Lemma lex_opp c d : CompOpp (lex c d) = lex (CompOpp c) (CompOpp d).
Proof. by destruct c. Qed.

Section Pair.
Context {A B : Type} (ca : A -> A -> comparison) (cb : B -> B -> comparison).
Context `{!CmpOrder ca, !CmpOrder cb}.

Definition pair_cmp (x y : A * B) : comparison := lex (ca x.1 y.1) (cb x.2 y.2).

#[global] Instance pair_cmp_order : CmpOrder pair_cmp.
Proof.
  split; unfold pair_cmp.
  - intros [a b] [a' b']; cbn. rewrite lex_eq, !cmp_eq. intuition congruence.
  - intros [a b] [a' b']; cbn. by rewrite (cmp_opp (cmp := ca) a a'), (cmp_opp (cmp := cb) b b'), lex_opp.
  - intros [a b] [a' b'] [a'' b'']; cbn. rewrite !lex_lt, !cmp_eq.
    intros [H1|[-> H1]] [H2|[-> H2]]; auto;
      first [left; by eauto using cmp_lt_trans | right; by eauto using cmp_lt_trans].
Qed.
End Pair.

Section Sum.
Context {A B : Type} (ca : A -> A -> comparison) (cb : B -> B -> comparison).
Context `{!CmpOrder ca, !CmpOrder cb}.

(** Everything on the left is below everything on the right. *)
Definition sum_cmp (x y : A + B) : comparison :=
  match x, y with
  | inl a, inl a' => ca a a'
  | inl _, inr _ => Lt
  | inr _, inl _ => Gt
  | inr b, inr b' => cb b b'
  end.

#[global] Instance sum_cmp_order : CmpOrder sum_cmp.
Proof.
  split.
  - intros [a|b] [a'|b']; cbn; rewrite ?cmp_eq; intuition congruence.
  - intros [a|b] [a'|b']; cbn; [apply cmp_opp|done|done|apply cmp_opp].
  - intros [a|b] [a'|b'] [a''|b'']; cbn; try done; eauto using cmp_lt_trans.
Qed.
End Sum.

Section List.
Context {A : Type} (ca : A -> A -> comparison) `{!CmpOrder ca}.

Fixpoint list_cmp (x y : list A) : comparison :=
  match x, y with
  | [], [] => Eq
  | [], _ :: _ => Lt
  | _ :: _, [] => Gt
  | a :: x', b :: y' => lex (ca a b) (list_cmp x' y')
  end.

#[global] Instance list_cmp_order : CmpOrder list_cmp.
Proof.
  split.
  - intros x. induction x as [|a x IH]; intros [|b y]; cbn; try done.
    rewrite lex_eq, cmp_eq, IH. intuition congruence.
  - intros x. induction x as [|a x IH]; intros [|b y]; cbn; try done.
    by rewrite lex_opp, (cmp_opp (cmp := ca) a b), IH.
  - intros x. induction x as [|a x IH]; intros [|b y] [|c z]; cbn; try done.
    rewrite !lex_lt, !cmp_eq.
    intros [H1|[-> H1]] [H2|[-> H2]]; auto; try (left; by eauto using cmp_lt_trans).
    right. eauto.
Qed.
End List.

Lemma string_compare_list x y :
  String.compare x y = list_cmp Ascii.compare (String.list_ascii_of_string x) (String.list_ascii_of_string y).
Proof.
  revert y. induction x as [|a x IH]; intros [|b y]; simpl; [done..|].
  rewrite <- IH. by destruct (Ascii.compare a b).
Qed.

#[global] Instance string_cmp : CmpOrder String.compare.
Proof.
  split.
  - intros x y. rewrite string_compare_list, (cmp_eq (cmp := list_cmp Ascii.compare)).
    split; [|congruence]. intros E.
    rewrite <- (String.string_of_list_ascii_of_string x), E. apply String.string_of_list_ascii_of_string.
  - intros x y. apply String.compare_antisym.
  - intros x y z. rewrite !string_compare_list. apply (cmp_lt_trans (cmp := list_cmp Ascii.compare)).
Qed.
