(* ===== verification/Semver.v ===== *)
(** Release version ordering ([semver.go]).  The comparison the code writes out
    is shown to be the Semantic Versioning precedence, a total order on the
    version strings the parser accepts. *)
From Stdlib Require Import Ascii String ZArith Lia.
From stdpp Require Import base decidable list strings.
From S2P Require Import Prelude Strings Regexp Patterns Compare.

Open Scope string_scope.

Module ReleaseVersion.

Record updaterReleaseSemver := mk { core : Z * Z * Z; prerelease : list string }.

(** [strconv.ParseUint(s, 10, 64)]. *)
Definition digit_value (c : ascii) : Z := Z.of_N (code c) - 48.

Fixpoint dec_from (acc : Z) (s : string) : Z :=
  match s with
  | "" => acc
  | String c r => dec_from (10 * acc + digit_value c) r
  end.

Definition dec_value (s : string) : Z := dec_from 0 s.

Definition ParseUint (s : string) : option Z :=
  if (s ==? "") || negb (str_forall digit s) then None
  else if (dec_value s <? u64_modulus)%Z then Some (dec_value s) else None.

Definition decimalIdentifier (value : string) : bool :=
  if value ==? "" then false else str_forall digit value.

Definition leading_zero (part : string) : bool :=
  (1 <? len part)%Z && match part with String c _ => Ascii.eqb c "0" | "" => false end.

(** One round of the loop over the three core parts. *)
Definition parse_core_part (part : string) : option Z :=
  if leading_zero part then None else ParseUint part.

Definition bad_identifier (identifier : string) : bool :=
  (identifier ==? "") || (decimalIdentifier identifier && leading_zero identifier).

Definition parseUpdaterReleaseSemver (value : string) : option updaterReleaseSemver :=
  if negb (re_match versionPattern value) then None
  else
    let '(core, prerelease, hasPrerelease) := Cut (TrimPrefix value "v") "-" in
    match Split core "." with
    | [a; b; c] =>
        match parse_core_part a, parse_core_part b, parse_core_part c with
        | Some x, Some y, Some z =>
            if negb hasPrerelease then Some (mk (x, y, z) [])
            else
              let identifiers := Split prerelease "." in
              if existsb bad_identifier identifiers then None
              else Some (mk (x, y, z) identifiers)
        | _, _, _ => None
        end
    | _ => None
    end.

(** The loop of [compareUpdaterReleasePrerelease]; when one list ends first the
    lengths decide. *)
Fixpoint compare_identifiers (actual required : list string) : Z :=
  match actual, required with
  | a :: actual', r :: required' =>
      if a ==? r then compare_identifiers actual' required'
      else
        let actualNumeric := decimalIdentifier a in
        let requiredNumeric := decimalIdentifier r in
        let by_bytes := if String.ltb r a then 1%Z else (-1)%Z in
        if actualNumeric && requiredNumeric then
          if (len a !=? len r) then (if (len r <? len a)%Z then 1%Z else (-1)%Z)
          else by_bytes
        else if actualNumeric then (-1)%Z
        else if requiredNumeric then 1%Z
        else by_bytes
  | _ :: _, [] => 1
  | [], _ :: _ => -1
  | [], [] => 0
  end.

Definition compareUpdaterReleasePrerelease (actual required : list string) : Z :=
  match actual, required with
  | [], [] => 0
  | [], _ :: _ => 1
  | _ :: _, [] => -1
  | _ :: _, _ :: _ => compare_identifiers actual required
  end.

Definition updaterReleaseSemverAtLeast (current minimum : string) : bool :=
  match parseUpdaterReleaseSemver current, parseUpdaterReleaseSemver minimum with
  | Some actual, Some required =>
      let '(a0, a1, a2) := core actual in
      let '(r0, r1, r2) := core required in
      if negb (a0 =? r0)%Z then (r0 <? a0)%Z
      else if negb (a1 =? r1)%Z then (r1 <? a1)%Z
      else if negb (a2 =? r2)%Z then (r2 <? a2)%Z
      else (0 <=? compareUpdaterReleasePrerelease (prerelease actual) (prerelease required))%Z
  | _, _ => false
  end.

(** ** The reference order

    Semantic Versioning precedence: the core numbers in order; a version without
    pre-release identifiers is above one that has them; identifiers compare from
    the left, numeric ones by value, others in byte order, a numeric identifier
    below any other, and a longer list above its own prefix. *)

Definition identifier_key (identifier : string) : Z + string :=
  if decimalIdentifier identifier then inl (dec_value identifier) else inr identifier.

Definition unit_cmp (x y : unit) : comparison := Eq.

#[global] Instance unit_cmp_order : CmpOrder unit_cmp.
Proof. split; by repeat intros []. Qed.

Definition identifiers_cmp : list (Z + string) -> list (Z + string) -> comparison :=
  list_cmp (sum_cmp Z.compare String.compare).

Definition precedence :
    (Z * Z * Z) * (list (Z + string) + unit) -> (Z * Z * Z) * (list (Z + string) + unit) -> comparison :=
  pair_cmp (pair_cmp (pair_cmp Z.compare Z.compare) Z.compare) (sum_cmp identifiers_cmp unit_cmp).

#[global] Instance precedence_order : CmpOrder precedence.
Proof. unfold precedence, identifiers_cmp. apply _. Qed.

Definition prerelease_key (identifiers : list string) : list (Z + string) + unit :=
  match identifiers with [] => inr tt | _ => inl (map identifier_key identifiers) end.

Definition semver_key (v : updaterReleaseSemver) : (Z * Z * Z) * (list (Z + string) + unit) :=
  (core v, prerelease_key (prerelease v)).

(** ** Decimal strings *)

Lemma digit_value_range c : digit c = true -> (0 <= digit_value c <= 9)%Z.
Proof.
  unfold digit, rng, digit_value. rewrite andb_true_iff, !N.leb_le.
  change (code "0") with 48%N. change (code "9") with 57%N. lia.
Qed.

Lemma dec_from_bounds s acc :
  str_forall digit s = true ->
  (acc * 10 ^ len s <= dec_from acc s < (acc + 1) * 10 ^ len s)%Z.
Proof.
  unfold len. revert acc. induction s as [|c s IH]; intros acc Hs; cbn [dec_from String.length].
  - cbn. lia.
  - cbn in Hs. apply andb_true_iff in Hs as [Hc Hs].
    specialize (IH (10 * acc + digit_value c)%Z Hs). apply digit_value_range in Hc.
    rewrite Nat2Z.inj_succ, Z.pow_succ_r by lia.
    assert (0 < 10 ^ Z.of_nat (String.length s))%Z by (apply Z.pow_pos_nonneg; lia). nia.
Qed.

Lemma digit_compare c d :
  digit c = true -> digit d = true -> Ascii.compare c d = Z.compare (digit_value c) (digit_value d).
Proof.
  intros _ _. unfold Ascii.compare, digit_value, code.
  destruct (N.compare_spec (N_of_ascii c) (N_of_ascii d));
    symmetry; [apply Z.compare_eq_iff|apply Z.compare_lt_iff|apply Z.compare_gt_iff]; lia.
Qed.

(** On digit strings of one length, byte order is numeric order. *)
Lemma dec_from_compare a b x y :
  str_forall digit a = true -> str_forall digit b = true -> String.length a = String.length b ->
  Z.compare (dec_from x a) (dec_from y b) = lex (Z.compare x y) (String.compare a b).
Proof.
  revert b x y. induction a as [|c a IH]; intros [|d b] x y Ha Hb Hl; try discriminate Hl.
  - cbn. by destruct (x ?= y)%Z.
  - cbn in Ha, Hb. apply andb_true_iff in Ha as [Hc Ha]. apply andb_true_iff in Hb as [Hd Hb].
    injection Hl as Hl. cbn [dec_from String.compare]. rewrite (IH b) by done.
    rewrite (digit_compare c d) by done.
    apply digit_value_range in Hc, Hd.
    destruct (Z.compare_spec x y) as [->|Hxy|Hxy]; cbn.
    + destruct (Z.compare_spec (digit_value c) (digit_value d)) as [->|Hcd|Hcd];
        [by rewrite Z.compare_refl|..].
      * rewrite (proj2 (Z.compare_lt_iff _ _)); [done|lia].
      * rewrite (proj2 (Z.compare_gt_iff _ _)); [done|lia].
    + rewrite (proj2 (Z.compare_lt_iff _ _)); [done|lia].
    + rewrite (proj2 (Z.compare_gt_iff _ _)); [done|lia].
Qed.

Definition canonical_number (s : string) : Prop :=
  decimalIdentifier s = true /\ leading_zero s = false.

Lemma decimalIdentifier_digits s : decimalIdentifier s = true -> s <> "" /\ str_forall digit s = true.
Proof. unfold decimalIdentifier. case_bool_decide; done. Qed.

Lemma canonical_lower_bound s :
  canonical_number s -> (1 < len s)%Z -> (10 ^ (len s - 1) <= dec_value s)%Z.
Proof.
  intros [Hd Hz] Hl. apply decimalIdentifier_digits in Hd as [_ Hd].
  destruct s as [|c s]; [done|]. cbn in Hd. apply andb_true_iff in Hd as [Hc Hd].
  assert (1 <= digit_value c)%Z.
  { pose proof (digit_value_range _ Hc). unfold leading_zero in Hz.
    rewrite (proj2 (Z.ltb_lt _ _)) in Hz by done. cbn in Hz.
    destruct (Ascii.eqb_spec c "0") as [|Hne]; [done|].
    assert (digit_value c <> 0)%Z; [|lia]. intros E. apply Hne.
    rewrite <- (ascii_N_embedding c). unfold digit_value, code in E.
    replace (N_of_ascii c) with 48%N by lia. done. }
  unfold dec_value. cbn [dec_from].
  pose proof (dec_from_bounds s (10 * 0 + digit_value c) Hd) as [Hb _].
  replace (len (String c s) - 1)%Z with (len s) by (unfold len; cbn [String.length]; lia).
  assert (0 < 10 ^ len s)%Z by (apply Z.pow_pos_nonneg; unfold len; lia). nia.
Qed.

Lemma canonical_shorter_less a b :
  canonical_number a -> canonical_number b -> (len a < len b)%Z -> (dec_value a < dec_value b)%Z.
Proof.
  intros [Ha _] Hb Hl. apply decimalIdentifier_digits in Ha as [Hne Ha].
  assert (1 <= len a)%Z by (unfold len; destruct a; cbn [String.length]; [done|lia]).
  pose proof (canonical_lower_bound b Hb ltac:(lia)).
  pose proof (dec_from_bounds a 0 Ha) as [_ Hu]. unfold dec_value in *.
  assert (10 ^ len a <= 10 ^ (len b - 1))%Z by (apply Z.pow_le_mono_r; lia). lia.
Qed.

(** Comparing lengths first and bytes second is comparing the numbers. *)
Lemma canonical_compare a b :
  canonical_number a -> canonical_number b ->
  Z.compare (dec_value a) (dec_value b) = lex (Z.compare (len a) (len b)) (String.compare a b).
Proof.
  intros Ha Hb. destruct (Z.compare_spec (len a) (len b)) as [E|E|E]; cbn.
  - destruct Ha as [Ha _], Hb as [Hb _].
    apply decimalIdentifier_digits in Ha as [_ Ha], Hb as [_ Hb].
    unfold dec_value. rewrite dec_from_compare; [done..|unfold len in E; lia].
  - apply Z.compare_lt_iff. by apply canonical_shorter_less.
  - apply Z.compare_gt_iff. by apply canonical_shorter_less.
Qed.

(** ** The comparison is the precedence *)

Definition sign (c : comparison) : Z := match c with Lt => -1 | Eq => 0 | Gt => 1 end.

Definition good_identifier (s : string) : Prop := bad_identifier s = false.

Lemma good_numeric s : good_identifier s -> decimalIdentifier s = true -> canonical_number s.
Proof.
  unfold good_identifier, bad_identifier. intros H Hd. rewrite Hd in H. cbn in H.
  apply orb_false_iff in H as [_ H]. by split.
Qed.

Definition identifier_cmp (a b : string) : comparison :=
  sum_cmp Z.compare String.compare (identifier_key a) (identifier_key b).

Lemma ltb_sign a r :
  a <> r -> (if String.ltb r a then 1%Z else (-1)%Z) = sign (String.compare a r).
Proof.
  intros Hne. unfold String.ltb. rewrite (cmp_opp (cmp := String.compare) a r).
  destruct (String.compare a r) eqn:E; [|done..]. by apply cmp_eq in E.
Qed.

Lemma identifier_step a r :
  good_identifier a -> good_identifier r -> a <> r ->
  (let by_bytes := if String.ltb r a then 1%Z else (-1)%Z in
   if decimalIdentifier a && decimalIdentifier r then
     if (len a !=? len r) then (if (len r <? len a)%Z then 1%Z else (-1)%Z) else by_bytes
   else if decimalIdentifier a then (-1)%Z
   else if decimalIdentifier r then 1%Z else by_bytes) = sign (identifier_cmp a r).
Proof.
  intros Ha Hr Hne. cbn zeta. rewrite ltb_sign by done. unfold identifier_cmp, identifier_key.
  destruct (decimalIdentifier a) eqn:Da, (decimalIdentifier r) eqn:Dr; cbn [andb sum_cmp sign];
    [|done..].
  rewrite canonical_compare by eauto using good_numeric.
  destruct (Z.compare_spec (len a) (len r)) as [E|E|E]; cbn.
  - by rewrite bool_decide_eq_true_2.
  - rewrite bool_decide_eq_false_2 by lia. by rewrite (proj2 (Z.ltb_ge _ _)) by lia.
  - rewrite bool_decide_eq_false_2 by lia. by rewrite (proj2 (Z.ltb_lt _ _)) by lia.
Qed.

Lemma identifier_cmp_eq a r :
  good_identifier a -> good_identifier r -> identifier_cmp a r = Eq -> a = r.
Proof.
  intros Ha Hr E. unfold identifier_cmp in E. apply cmp_eq in E. unfold identifier_key in E.
  destruct (decimalIdentifier a) eqn:Da, (decimalIdentifier r) eqn:Dr; simplify_eq; [|done].
  pose proof (canonical_compare a r ltac:(eauto using good_numeric) ltac:(eauto using good_numeric)) as H.
  rewrite E, Z.compare_refl in H. symmetry in H. apply lex_eq in H as [_ H]. by apply cmp_eq in H.
Qed.

Lemma compare_identifiers_spec actual required :
  Forall good_identifier actual -> Forall good_identifier required ->
  compare_identifiers actual required =
  sign (identifiers_cmp (map identifier_key actual) (map identifier_key required)).
Proof.
  intros Ha. revert required. induction Ha as [|a actual Hga Ha IH]; intros required Hr;
    destruct Hr as [|r required Hgr Hr]; [done..|].
  cbn [compare_identifiers map]. unfold identifiers_cmp in *. cbn [list_cmp].
  fold (identifier_cmp a r). case_bool_decide as E.
  - subst. unfold identifier_cmp. rewrite cmp_refl. cbn [lex]. by apply IH.
  - rewrite identifier_step by done.
    destruct (identifier_cmp a r) eqn:Ec; [|done..]. by apply identifier_cmp_eq in Ec.
Qed.

Lemma compare_prerelease_spec actual required :
  Forall good_identifier actual -> Forall good_identifier required ->
  compareUpdaterReleasePrerelease actual required =
  sign (sum_cmp identifiers_cmp unit_cmp (prerelease_key actual) (prerelease_key required)).
Proof.
  intros Ha Hr. destruct actual as [|a actual], required as [|r required]; [done..|].
  unfold compareUpdaterReleasePrerelease. by rewrite compare_identifiers_spec.
Qed.

(** ** The parser *)

Lemma Split_cons_sep sep s : Split (String sep s) sep = "" :: Split s sep.
Proof. cbn. by rewrite Ascii.eqb_refl. Qed.

Fixpoint Join (l : list string) (sep : ascii) : string :=
  match l with
  | [] => ""
  | [x] => x
  | x :: l' => x +:+ String sep (Join l' sep)
  end.

Lemma Split_not_nil s sep : Split s sep <> [].
Proof.
  destruct s as [|c s]; cbn; [done|]. destruct (Ascii.eqb c sep); [done|]. by destruct (Split s sep).
Qed.

Lemma Join_Split s sep : Join (Split s sep) sep = s.
Proof.
  induction s as [|c s IH]; [done|]. cbn [Split].
  pose proof (Split_not_nil s sep) as Hne.
  destruct (Ascii.eqb_spec c sep) as [->|].
  - destruct (Split s sep) as [|x l]; [done|]. by rewrite <- IH.
  - destruct (Split s sep) as [|x l]; [done|]. rewrite <- IH. by destruct l.
Qed.

Lemma Cut_spec s sep before after found :
  Cut s sep = (before, after, found) ->
  s = if found then before +:+ String sep after else before.
Proof.
  revert before after found. induction s as [|c s IH]; intros before after found; cbn.
  - by intros [= <- <- <-].
  - destruct (Ascii.eqb_spec c sep) as [->|]; [by intros [= <- <- <-]|].
    destruct (Cut s sep) as [[b a] f]. intros [= <- <- <-].
    rewrite (IH b a f eq_refl). by destruct f.
Qed.

Lemma parse_core_part_canonical s x :
  parse_core_part s = Some x -> canonical_number s /\ dec_value s = x.
Proof.
  unfold parse_core_part, ParseUint, canonical_number, decimalIdentifier.
  destruct (leading_zero s); [done|]. case_bool_decide; cbn; [done|].
  destruct (str_forall digit s); [|done]. cbn. destruct (_ <? _)%Z; [|done]. by intros [= <-].
Qed.

Lemma parse_core_part_inj a b x :
  parse_core_part a = Some x -> parse_core_part b = Some x -> a = b.
Proof.
  intros [Ha <-]%parse_core_part_canonical [Hb E]%parse_core_part_canonical.
  pose proof (canonical_compare b a Hb Ha) as H.
  rewrite E, Z.compare_refl in H. symmetry in H. apply lex_eq in H as [_ H].
  symmetry. by apply cmp_eq in H.
Qed.

(** What a successful parse says about the string. *)
Lemma parse_inv value v :
  parseUpdaterReleaseSemver value = Some v ->
  exists a b c x y z,
    parse_core_part a = Some x /\ parse_core_part b = Some y /\ parse_core_part c = Some z /\
    core v = (x, y, z) /\ Forall good_identifier (prerelease v) /\
    value = "v" +:+ Join [a; b; c] "." +:+
      match prerelease v with [] => "" | ids => "-" +:+ Join ids "." end.
Proof.
  unfold parseUpdaterReleaseSemver. destruct (re_match versionPattern value) eqn:Hm; [|done].
  cbn [negb]. destruct (Cut _ _) as [[cr pre] found] eqn:Hcut.
  assert (Hv : value = "v" +:+ if found then cr +:+ String "-" pre else cr).
  { apply Cut_spec in Hcut. rewrite <- Hcut. unfold TrimPrefix.
    apply re_match_spec in Hm. apply matches_lit_cat in Hm as (t & -> & _).
    by rewrite (proj2 (HasPrefix_spec _ _) (ex_intro _ t eq_refl)), str_drop_app. }
  pose proof (Join_Split cr ".") as HJ.
  destruct (Split cr ".") as [|a [|b [|c [|]]]]; try done.
  destruct (parse_core_part a) as [x|] eqn:Ha; [|done].
  destruct (parse_core_part b) as [y|] eqn:Hb; [|done].
  destruct (parse_core_part c) as [z|] eqn:Hc; [|done].
  rewrite <- HJ in Hv. destruct found; cbn [negb].
  - destruct (existsb _ _) eqn:He; [done|]. intros [= <-].
    exists a, b, c, x, y, z. repeat split; auto; cbn [core prerelease].
    + apply Forall_forall. intros i Hi. unfold good_identifier.
      destruct (bad_identifier i) eqn:Hb'; [|done]. rewrite <- He. symmetry.
      apply existsb_exists. exists i. split; [by apply list_elem_of_In|done].
    + pose proof (Split_not_nil pre "."). rewrite Hv, <- (Join_Split pre ".") at 1.
      by destruct (Split pre ".").
  - intros [= <-]. exists a, b, c, x, y, z. repeat split; auto; cbn [core prerelease].
    by rewrite Hv, str_app_nil_r.
Qed.

Lemma identifier_keys_inj l l' :
  Forall good_identifier l -> Forall good_identifier l' ->
  map identifier_key l = map identifier_key l' -> l = l'.
Proof.
  intros H. revert l'. induction H as [|a l Ha H IH]; intros [|b l'] H' E; try done.
  inversion H'; subst. cbn in E. injection E as Ek El. f_equal; [|by apply IH].
  apply identifier_cmp_eq; [done..|]. unfold identifier_cmp. rewrite Ek. apply cmp_refl.
Qed.

(** Two version strings with the same precedence key are the same string. *)
Lemma semver_key_inj a b va vb :
  parseUpdaterReleaseSemver a = Some va -> parseUpdaterReleaseSemver b = Some vb ->
  semver_key va = semver_key vb -> a = b.
Proof.
  intros Ha Hb. apply parse_inv in Ha as (a1 & a2 & a3 & x & y & z & H1 & H2 & H3 & Hc & Hg & ->).
  apply parse_inv in Hb as (b1 & b2 & b3 & x' & y' & z' & H1' & H2' & H3' & Hc' & Hg' & ->).
  unfold semver_key. rewrite Hc, Hc'. intros [= <- <- <- E].
  rewrite (parse_core_part_inj _ _ _ H1 H1'), (parse_core_part_inj _ _ _ H2 H2'),
    (parse_core_part_inj _ _ _ H3 H3').
  assert (prerelease va = prerelease vb) as ->; [|done].
  destruct (prerelease va) as [|i l], (prerelease vb) as [|i' l']; try done.
  injection E as Ek El. apply identifier_keys_inj; [done..|]. cbn. by f_equal.
Qed.

(** ** The theorems *)

Lemma at_least_parsed a b va vb :
  parseUpdaterReleaseSemver a = Some va -> parseUpdaterReleaseSemver b = Some vb ->
  updaterReleaseSemverAtLeast a b = cmp_ge (cmp := precedence) (semver_key va) (semver_key vb).
Proof.
  intros Ha Hb. unfold updaterReleaseSemverAtLeast. rewrite Ha, Hb.
  apply parse_inv in Ha as (? & ? & ? & x & y & z & _ & _ & _ & Hc & Hg & _).
  apply parse_inv in Hb as (? & ? & ? & x' & y' & z' & _ & _ & _ & Hc' & Hg' & _).
  unfold cmp_ge, precedence, pair_cmp, semver_key. rewrite Hc, Hc'. cbn [fst snd].
  rewrite compare_prerelease_spec by done.
  destruct (Z.compare_spec x x') as [->|E|E]; cbn [lex];
    [rewrite Z.eqb_refl | rewrite (proj2 (Z.eqb_neq x x')) by lia..]; cbn [negb]; [|lia..].
  destruct (Z.compare_spec y y') as [->|E|E]; cbn [lex];
    [rewrite Z.eqb_refl | rewrite (proj2 (Z.eqb_neq y y')) by lia..]; cbn [negb]; [|lia..].
  destruct (Z.compare_spec z z') as [->|E|E]; cbn [lex];
    [rewrite Z.eqb_refl | rewrite (proj2 (Z.eqb_neq z z')) by lia..]; cbn [negb]; [|lia..].
  by destruct (sum_cmp _ _ _ _).
Qed.

(** The versions that take part in the comparison. *)
Definition is_release (v : string) : Prop := is_Some (parseUpdaterReleaseSemver v).

(** C1: the hand-written comparison of release versions accepts exactly the pairs
    of well-formed versions in which the current one is at or above the minimum in
    Semantic Versioning precedence, and rejects every malformed version. *)
Theorem semver_at_least_is_precedence (current minimum : string) :
  updaterReleaseSemverAtLeast current minimum =
  match parseUpdaterReleaseSemver current, parseUpdaterReleaseSemver minimum with
  | Some v, Some w => cmp_ge (cmp := precedence) (semver_key v) (semver_key w)
  | _, _ => false
  end.
Proof.
  destruct (parseUpdaterReleaseSemver current) as [v|] eqn:Hv;
    [destruct (parseUpdaterReleaseSemver minimum) as [w|] eqn:Hw|];
    [by apply at_least_parsed|unfold updaterReleaseSemverAtLeast; by rewrite Hv, ?Hw..].
Qed.

(** On well-formed versions the comparison is a total order whose equality is
    equality of the version strings: reflexive, transitive, total, antisymmetric. *)
Theorem semver_at_least_total_order (a b c : string)
    (Ha : is_release a) (Hb : is_release b) (Hc : is_release c) :
  updaterReleaseSemverAtLeast a a = true /\
  (updaterReleaseSemverAtLeast a b = true -> updaterReleaseSemverAtLeast b c = true ->
   updaterReleaseSemverAtLeast a c = true) /\
  (updaterReleaseSemverAtLeast a b = true \/ updaterReleaseSemverAtLeast b a = true) /\
  (updaterReleaseSemverAtLeast a b = true -> updaterReleaseSemverAtLeast b a = true -> a = b).
Proof.
  destruct Ha as [va Ha], Hb as [vb Hb], Hc as [vc Hc].
  rewrite (at_least_parsed a a va va), (at_least_parsed a b va vb), (at_least_parsed b c vb vc),
    (at_least_parsed a c va vc), (at_least_parsed b a vb va) by done.
  split; [apply cmp_ge_refl|]. split; [apply cmp_ge_trans|]. split; [apply cmp_ge_total|].
  intros H1 H2. apply (semver_key_inj a b va vb Ha Hb). by apply (cmp_ge_antisym (cmp := precedence)).
Qed.

Lemma semver_at_least_total_order_witness :
  updaterReleaseSemverAtLeast "v1.10.0" "v1.9.9" = true /\
  updaterReleaseSemverAtLeast "v1.9.9" "v1.9.9-rc.2" = true /\
  updaterReleaseSemverAtLeast "v1.10.0" "v1.9.9-rc.2" = true.
Proof.
  split; [reflexivity|]. split; [reflexivity|].
  apply (semver_at_least_total_order "v1.10.0" "v1.9.9" "v1.9.9-rc.2");
    first [reflexivity | eexists; vm_compute; reflexivity].
Defined.

Example semver_numeric_identifiers :
  updaterReleaseSemverAtLeast "v1.0.0-rc.10" "v1.0.0-rc.9" = true.
Proof. reflexivity. Qed.
End ReleaseVersion.
