(* ===== verification/Effects.v ===== *)
(** Programs that act on the world, and a crash logic for them.

    A Go function that reads files, renames links, restarts services or talks to
    the Panel is a value of [prog Op A]: a tree of operations [Op] of its
    component.  How an operation comes out is not up to the program, so a run
    takes a list of answers, one per operation: each answer says whether the
    operation succeeded, failed before it took effect, failed after it took
    effect, or what the environment returned.  A list that ends early is a crash
    at that point.  Quantifying over all lists of answers covers every failure and
    every crash point, and a concrete list can be evaluated. *)
From Stdlib Require Import Lia.
From stdpp Require Import base list.
From S2P Require Import Prelude.

Inductive prog (Op : Type -> Type) (A : Type) : Type :=
| Ret (a : A)
| Do {X : Type} (op : Op X) (k : X -> prog Op A).
Arguments Ret {Op A} a.
Arguments Do {Op A X} op k.

Definition call {Op : Type -> Type} {X} (op : Op X) : prog Op X := Do op Ret.

Fixpoint bind {Op A B} (p : prog Op A) (f : A -> prog Op B) : prog Op B :=
  match p with
  | Ret a => f a
  | Do op k => Do op (fun x => bind (k x) f)
  end.

(** [let* x := p in q] runs [p], then [q]; [let? x := p in q] also returns early
    with the error of [p], the shape of [if err != nil { return ..., err }]. *)
Notation "'let*' x ':=' p 'in' q" := (bind p (fun x => q))
  (at level 10, x pattern, p at level 100, q at level 200) : go_scope.

Definition bind_ok {Op E A B} (p : prog Op (result E A)) (f : A -> prog Op (result E B)) :
    prog Op (result E B) :=
  bind p (fun r => match r with Ok a => f a | Err e => Ret (Err e) end).

Notation "'let?' x ':=' p 'in' q" := (bind_ok p (fun x => q))
  (at level 10, x pattern, p at level 100, q at level 200) : go_scope.

Definition lift {Op E A} (r : result E A) : prog Op (result E A) := Ret r.

Class Handler (Op : Type -> Type) (W Ans : Type) :=
  handle : forall {X : Type}, Op X -> Ans -> W -> option (X * W).

Section Runs.
Context {Op : Type -> Type} {W Ans : Type} `{H : !Handler Op W Ans}.

(** The world after the run, and its result unless it crashed. *)
Fixpoint run {A} (p : prog Op A) (answers : list Ans) (w : W) : W * option A :=
  match p with
  | Ret a => (w, Some a)
  | Do op k =>
      match answers with
      | [] => (w, None)
      | ans :: rest =>
          match handle op ans w with
          | Some (x, w') => run (k x) rest w'
          | None => (w, None)
          end
      end
  end.

(** [I] holds at every point of the run, and [Q] at its end. *)
Fixpoint wp {A} (I : W -> Prop) (p : prog Op A) (Q : A -> W -> Prop) (w : W) : Prop :=
  I w /\
  match p with
  | Ret a => Q a w
  | Do op k => forall ans x w', handle op ans w = Some (x, w') -> wp I (k x) Q w'
  end.

Lemma wp_sound {A} I (p : prog Op A) Q answers w :
  wp I p Q w ->
  I (run p answers w).1 /\ (forall a, (run p answers w).2 = Some a -> Q a (run p answers w).1).
Proof.
  revert answers w. induction p as [a|X op k IH]; intros answers w [HI Hp]; cbn.
  - split; [done|]. by intros ? [= <-].
  - destruct answers as [|ans rest]; [done|]. destruct (handle op ans w) as [[x w']|] eqn:E; [|done].
    by apply IH, (Hp ans).
Qed.

Lemma wp_inv {A} I (p : prog Op A) Q w : wp I p Q w -> I w.
Proof. destruct p; by intros [? _]. Qed.

Lemma wp_mono {A} (I : W -> Prop) (p : prog Op A) (Q Q' : A -> W -> Prop) w :
  (forall a v, I v -> Q a v -> Q' a v) -> wp I p Q w -> wp I p Q' w.
Proof.
  intros HQ. revert w. induction p as [a|X op k IH]; intros w [HI Hp]; cbn; split; eauto.
Qed.

Lemma wp_weaken {A} (I I' : W -> Prop) (p : prog Op A) Q w :
  (forall v, I v -> I' v) -> wp I p Q w -> wp I' p Q w.
Proof.
  intros HI. revert w. induction p as [a|X op k IH]; intros w [Hw Hp]; cbn; split; eauto.
Qed.

Lemma wp_and {A} (I I' : W -> Prop) (p : prog Op A) (Q Q' : A -> W -> Prop) w :
  wp I p Q w -> wp I' p Q' w -> wp (fun v => I v /\ I' v) p (fun a v => Q a v /\ Q' a v) w.
Proof.
  revert w. induction p as [a|X op k IH]; intros w [Hw Hp] [Hw' Hp']; cbn; split; eauto.
Qed.

Lemma wp_bind {A B} I (p : prog Op A) (f : A -> prog Op B) Q w :
  wp I p (fun a => wp I (f a) Q) w -> wp I (bind p f) Q w.
Proof.
  revert w. induction p as [a|X op k IH]; intros w [HI Hp]; cbn; [done|]. split; eauto.
Qed.

Lemma wp_bind_ok {E A B} I (p : prog Op (result E A)) (f : A -> prog Op (result E B)) Q w :
  wp I p (fun r v => match r with Ok a => wp I (f a) Q v | Err e => Q (Err e) v end) w ->
  wp I (bind_ok p f) Q w.
Proof.
  intros Hp. apply wp_bind. eapply wp_mono; [|exact Hp]. intros [a|e] v HI Hv; [done|].
  split; done.
Qed.

Lemma wp_call {X} (I : W -> Prop) (op : Op X) Q w :
  I w -> (forall ans x w', handle op ans w = Some (x, w') -> I w' /\ Q x w') -> wp I (call op) Q w.
Proof. intros HI Hp. split; [done|]. intros ans x w' E. by apply (Hp ans) in E. Qed.

Lemma wp_ret {A} (I : W -> Prop) (a : A) Q w : I w -> Q a w -> wp I (Ret a) Q w.
Proof. done. Qed.

End Runs.

(** ** Programs made of harmless operations

    [only P p]: every operation [p] may perform satisfies [P].  When those operations
    keep an invariant, so does the program. *)
Section Only.
Context {Op : Type -> Type} (P : forall X, Op X -> Prop).

Fixpoint only {A} (p : prog Op A) : Prop :=
  match p with
  | Ret _ => True
  | Do op k => P _ op /\ forall x, only (k x)
  end.

Lemma only_call {X} (op : Op X) : P _ op -> only (call op).
Proof. by split. Qed.

Lemma only_bind {A B} (p : prog Op A) (f : A -> prog Op B) : only p -> (forall a, only (f a)) -> only (bind p f).
Proof. intros Hp Hf. induction p as [a|X op k IH]; cbn in *; [auto|]. destruct Hp as [Ho Hp]. split; auto. Qed.

Lemma only_bind_ok {E A B} (p : prog Op (result E A)) (f : A -> prog Op (result E B)) :
  only p -> (forall a, only (f a)) -> only (bind_ok p f).
Proof. intros Hp Hf. apply only_bind; [done|]. intros [a|e]; [auto|done]. Qed.

Lemma wp_only {W Ans A} `{H : !Handler Op W Ans} (I : W -> Prop) (p : prog Op A) w :
  (forall X (op : Op X) ans x w w', P _ op -> I w -> handle op ans w = Some (x, w') -> I w') ->
  only p -> I w -> wp I p (fun _ => I) w.
Proof.
  intros HP. revert w. induction p as [a|X op k IH]; intros w Ho Hw; [done|]. cbn in Ho. destruct Ho as [Hop Hk].
  split; [done|]. intros ans x w' E. apply IH; [done|]. by eapply HP.
Qed.
End Only.

(** Walks through the branches of a program. *)
Ltac only_step :=
  match goal with
  | |- only _ (bind_ok _ _) => apply only_bind_ok; [|intros]
  | |- only _ (bind _ _) => apply only_bind; [|intros]
  | |- only _ (Ret _) => exact I
  | |- only _ (lift _) => exact I
  | |- only _ (call _) => apply only_call
  | |- only _ (if ?b then _ else _) => destruct b
  | |- only _ (match ?x with _ => _ end) => destruct x
  | |- only _ (let (_, _) := ?x in _) => destruct x
  end.

(** ** Runs in a cooperative environment

    [exec c p w] runs [p] when every operation is answered with [c]; [twp] is the
    corresponding total triple: the run ends, and its end satisfies [Q]. *)
Section Cooperative.
Context {Op : Type -> Type} {W Ans : Type} `{H : !Handler Op W Ans}.
Context (c : Ans).

Fixpoint exec {A} (p : prog Op A) (w : W) : option (W * A) :=
  match p with
  | Ret a => Some (w, a)
  | Do op k => match handle op c w with Some (x, w') => exec (k x) w' | None => None end
  end.

Definition twp {A} (p : prog Op A) (Q : A -> W -> Prop) (w : W) : Prop :=
  exists v a, exec p w = Some (v, a) /\ Q a v.

Lemma exec_run {A} (p : prog Op A) w v a :
  exec p w = Some (v, a) -> exists n, forall m, n <= m -> run p (repeat c m) w = (v, Some a).
Proof.
  revert w. induction p as [b|X op k IH]; intros w E; cbn in E; [injection E as -> ->; by exists 0|].
  destruct (handle op c w) as [[x w']|] eqn:Eh; [|done]. destruct (IH x w' E) as [n Hn].
  exists (S n). intros [|m] Hm; [lia|]. cbn. rewrite Eh. apply Hn. lia.
Qed.

Lemma twp_ret {A} (a : A) (Q : A -> W -> Prop) w : Q a w -> twp (Ret a) Q w.
Proof. intros HQ. by exists w, a. Qed.

Lemma twp_call {X} (op : Op X) (Q : X -> W -> Prop) w x w' :
  handle op c w = Some (x, w') -> Q x w' -> twp (call op) Q w.
Proof. intros E HQ. exists w', x. cbn. by rewrite E. Qed.

Lemma twp_bind {A B} (p : prog Op A) (f : A -> prog Op B) Q w :
  twp p (fun a => twp (f a) Q) w -> twp (bind p f) Q w.
Proof.
  intros (v & a & E & u & b & E' & HQ). exists u, b. split; [|done]. clear HQ. revert w E.
  induction p as [a'|X op k IH]; intros w E; cbn in *; [by injection E as -> ->|].
  destruct (handle op c w) as [[x w']|]; [|done]. by apply IH.
Qed.

Lemma twp_bind_ok {E A B} (p : prog Op (result E A)) (f : A -> prog Op (result E B)) Q w :
  twp p (fun r v => match r with Ok a => twp (f a) Q v | Err e => Q (Err e) v end) w -> twp (bind_ok p f) Q w.
Proof.
  intros Hp. apply twp_bind. destruct Hp as (v & r & Er & Hr). exists v, r. split; [done|].
  destruct r; [done|]. by apply twp_ret.
Qed.
End Cooperative.

(** ** Sequences of runs

    The process is started again and again; every run may be cut short. *)
Section Histories.
Context {Op : Type -> Type} {W Ans : Type} `{H : !Handler Op W Ans}.
Context {A : Type} (entry : prog Op A -> Prop).

Inductive history : W -> W -> Prop :=
| history_refl w : history w w
| history_run w v p answers :
    history w v -> entry p -> history w (run p answers v).1.

Lemma history_invariant (I : W -> Prop) w v :
  (forall p u, entry p -> I u -> wp I p (fun _ _ => True) u) -> I w -> history w v -> I v.
Proof.
  intros Hp Hw Hh. induction Hh as [|w v p answers _ IH He]; [done|].
  by apply (wp_sound I p (fun _ _ => True)), Hp; [|apply IH].
Qed.
End Histories.

(** Steps through a program with the rules above. *)
Ltac wp_step :=
  match goal with
  | |- wp _ (bind_ok _ _) _ _ => apply wp_bind_ok
  | |- wp _ (bind _ _) _ _ => apply wp_bind
  | |- wp _ (Ret _) _ _ => apply wp_ret
  | |- wp _ (lift _) _ _ => apply wp_ret
  end.
