(* ===== verification/Sha256.v ===== *)
(** SHA-256 and hexadecimal encoding ([crypto/sha256], [encoding/hex]) as
    functions on byte strings, so that the digests the code computes can be
    computed here too. *)
From Stdlib Require Import Ascii String NArith Lia.
From stdpp Require Import base decidable list strings.
From S2P Require Import Prelude Strings Regexp Patterns.

Open Scope string_scope.

Section Words.
Local Open Scope N_scope.

(** 32-bit words. *)
Definition w32 (x : N) : N := N.land x 0xffffffff.
Definition add32 (x y : N) : N := w32 (x + y).
Definition rotr (n x : N) : N := w32 (N.lor (N.shiftr x n) (N.shiftl x (32 - n))).
Definition not32 (x : N) : N := N.lxor x 0xffffffff.
Definition xor3 (x y z : N) : N := N.lxor x (N.lxor y z).

Definition Ch (x y z : N) : N := N.lxor (N.land x y) (N.land (not32 x) z).
Definition Maj (x y z : N) : N := xor3 (N.land x y) (N.land x z) (N.land y z).
Definition Sigma0 (x : N) : N := xor3 (rotr 2 x) (rotr 13 x) (rotr 22 x).
Definition Sigma1 (x : N) : N := xor3 (rotr 6 x) (rotr 11 x) (rotr 25 x).
Definition sigma0 (x : N) : N := xor3 (rotr 7 x) (rotr 18 x) (N.shiftr x 3).
Definition sigma1 (x : N) : N := xor3 (rotr 17 x) (rotr 19 x) (N.shiftr x 10).

(** The constants are the first 32 bits of the fractional parts of the cube
    roots (the rounds) and square roots (the initial value) of the first primes. *)
Definition is_prime (n : nat) : bool := forallb (fun d => negb (n mod d =? 0)%nat) (seq 2 (n - 2)).
Definition primes : list N := map N.of_nat (List.filter is_prime (seq 2 310)).

(** The greatest [r + 2 ^ k' + ...], with bits below [k], whose cube is at most [n]. *)
Fixpoint cube_root (k : nat) (n r : N) : N :=
  match k with
  | O => r
  | S k => let r' := (r + 2 ^ N.of_nat k)%N in
           cube_root k n (if (r' * r' * r' <=? n)%N then r' else r)
  end.

Definition round_constants : list N := Eval vm_compute in
  map (fun p => w32 (cube_root 36 (p * 2 ^ 96) 0)) (firstn 64 primes).

(** The eight chaining words. *)
Record chain := Chain { ca : N; cb : N; cc : N; cd : N; ce : N; cf : N; cg : N; ch : N }.

Definition initial_chain : chain := Eval vm_compute in
  match map (fun p => w32 (N.sqrt (p * 2 ^ 64))) (firstn 8 primes) with
  | [a; b; c; d; e; f; g; h] => Chain a b c d e f g h
  | _ => Chain 0 0 0 0 0 0 0 0
  end.

Definition sha_round (c : chain) (k w : N) : chain :=
  let t1 := add32 (ch c) (add32 (Sigma1 (ce c)) (add32 (Ch (ce c) (cf c) (cg c)) (add32 k w))) in
  let t2 := add32 (Sigma0 (ca c)) (Maj (ca c) (cb c) (cc c)) in
  Chain (add32 t1 t2) (ca c) (cb c) (cc c) (add32 (cd c) t1) (ce c) (cf c) (cg c).

Definition chain_add (x y : chain) : chain :=
  Chain (add32 (ca x) (ca y)) (add32 (cb x) (cb y)) (add32 (cc x) (cc y)) (add32 (cd x) (cd y))
        (add32 (ce x) (ce y)) (add32 (cf x) (cf y)) (add32 (cg x) (cg y)) (add32 (ch x) (ch y)).

(** The rounds of a block; [window] holds the next sixteen schedule words. *)
Fixpoint sha_rounds (ks window : list N) (c : chain) : chain :=
  match ks, window with
  | k :: ks', w :: window' =>
      let next := add32 (sigma1 (nth 13 window' 0)) (add32 (nth 8 window' 0)
                    (add32 (sigma0 (nth 0 window' 0)) w)) in
      sha_rounds ks' (window' ++ [next]) (sha_round c k w)
  | _, _ => c
  end.

Fixpoint words_of_bytes (l : list N) : list N :=
  match l with
  | a :: b :: c :: d :: l' =>
      N.lor (N.shiftl a 24) (N.lor (N.shiftl b 16) (N.lor (N.shiftl c 8) d)) :: words_of_bytes l'
  | _ => []
  end.

Definition word_bytes (w : N) : list N :=
  [N.land (N.shiftr w 24) 255; N.land (N.shiftr w 16) 255; N.land (N.shiftr w 8) 255; N.land w 255].

Fixpoint sha_blocks (n : nat) (words : list N) (c : chain) : chain :=
  match n with
  | O => c
  | S n' =>
      let block := firstn 16 words in
      sha_blocks n' (skipn 16 words) (chain_add c (sha_rounds round_constants block c))
  end.

Definition be64 (x : N) : list N :=
  word_bytes (w32 (N.shiftr x 32)) ++ word_bytes (w32 x).

(** The message, a one bit, zeros to a whole number of blocks, the bit length. *)
Definition sha_pad (l : list N) : list N :=
  let n := List.length l in
  let zeros := Nat.modulo (119 - Nat.modulo n 64) 64 in
  l ++ [128] ++ repeat 0 zeros ++ be64 (8 * N.of_nat n).

Definition chain_bytes (c : chain) : list N :=
  word_bytes (ca c) ++ word_bytes (cb c) ++ word_bytes (cc c) ++ word_bytes (cd c) ++
  word_bytes (ce c) ++ word_bytes (cf c) ++ word_bytes (cg c) ++ word_bytes (ch c).
End Words.

Definition string_bytes (s : string) : list N := map code (String.list_ascii_of_string s).

(** [sha256.Sum256]. *)
Definition Sum256 (s : string) : list N :=
  let padded := sha_pad (string_bytes s) in
  let blocks := Nat.div (List.length padded) 64 in
  chain_bytes (sha_blocks blocks (words_of_bytes padded) initial_chain).

Definition hex_digit (n : N) : ascii :=
  if (n <? 10)%N then byte (48 + n) else byte (87 + n).

(** [hex.EncodeToString]. *)
Fixpoint EncodeToString (l : list N) : string :=
  match l with
  | [] => ""
  | b :: l' => String (hex_digit (N.shiftr b 4)) (String (hex_digit (N.land b 15)) (EncodeToString l'))
  end.

Definition sha256_hex (s : string) : string := EncodeToString (Sum256 s).

(** ** Facts *)

Example sha256_empty :
  sha256_hex "" = "e3b0c44298fc1c149afbf4c8996fb92427ae41e4649b934ca495991b7852b855".
Proof. vm_compute. reflexivity. Qed.

Example sha256_abc :
  sha256_hex "abc" = "ba7816bf8f01cfea414140de5dae2223b00361a396177a9cb410ff61f20015ad".
Proof. vm_compute. reflexivity. Qed.

Example sha256_two_blocks :
  sha256_hex "abcdbcdecdefdefgefghfghighijhijkijkljklmklmnlmnomnopnopq" =
  "248d6a61d20638b8e5c026930c3e6039a33ce45964ff2167f6ecedd419db06c1".
Proof. vm_compute. reflexivity. Qed.

Definition is_byte (n : N) : Prop := (n < 256)%N.

Lemma word_bytes_are_bytes w : Forall is_byte (word_bytes w).
Proof.
  assert (Hland : forall x, is_byte (N.land x 255)).
  { intros x. change 255%N with (N.ones 8). rewrite N.land_ones. by apply N.mod_lt. }
  unfold word_bytes. repeat constructor; auto.
Qed.

Lemma Sum256_bytes s : List.length (Sum256 s) = 32 /\ Forall is_byte (Sum256 s).
Proof.
  unfold Sum256, chain_bytes. split; [by rewrite !length_app|].
  repeat (apply Forall_app; split); apply word_bytes_are_bytes.
Qed.

Lemma hex_digit_hexdigit n : (n < 16)%N -> hexdigit (hex_digit n) = true.
Proof.
  intros Hn.
  assert (Hin : In n (map N.of_nat (seq 0 16))).
  { apply in_map_iff. exists (N.to_nat n). split; [lia|]. apply in_seq. lia. }
  assert (HF : List.Forall (fun n => hexdigit (hex_digit n) = true) (map N.of_nat (seq 0 16)))
    by (cbn; repeat (constructor; [vm_compute; reflexivity|]); constructor).
  by apply (proj1 (List.Forall_forall _ _) HF).
Qed.

Lemma EncodeToString_hex l :
  Forall is_byte l ->
  String.length (EncodeToString l) = 2 * List.length l /\ str_forall hexdigit (EncodeToString l) = true.
Proof.
  induction 1 as [|b l Hb _ [IH1 IH2]]; [done|]. cbn. split; [lia|].
  rewrite IH2, !hex_digit_hexdigit; [done| |].
  - change 15%N with (N.ones 4). rewrite N.land_ones. by apply N.mod_lt.
  - unfold is_byte in Hb. rewrite N.shiftr_div_pow2. apply N.Div0.div_lt_upper_bound. cbn. lia.
Qed.

(** A digest in hexadecimal has the form the plan-hash pattern asks for. *)
Lemma sha256_hex_pattern s : re_match mutationPlanHashPattern (sha256_hex s) = true.
Proof.
  apply re_match_spec, matches_times_class. destruct (Sum256_bytes s) as [Hl Hb].
  destruct (EncodeToString_hex _ Hb) as [Hl' Hx]. unfold sha256_hex. rewrite Hl', Hl. done.
Qed.

(** [shortID]: the first six bytes of the digest, in hexadecimal. *)
Definition shortID (value : string) : string := EncodeToString (firstn 6 (Sum256 value)).
