(* ===== verification/Json.v ===== *)
(** [json.Marshal] as the code uses it: objects with fields in declaration
    order, strings with Go's HTML-safe escaping, integers, booleans and
    timestamps in RFC 3339.  The digests the code computes are digests of these
    encodings, so what matters is that the encoding is injective on the values
    the validators let through. *)
From Stdlib Require Import Ascii String ZArith Lia.
From stdpp Require Import base decidable list strings.
From S2P Require Import Prelude Strings Regexp Patterns Sha256.

Open Scope string_scope.

Inductive json :=
| JStr (s : string)
| JNum (z : Z)
| JBool (b : bool)
| JTime (t : GoTime.t)
| JObj (fields : list (string * json))
| JArr (elements : list json).

(** ** Numbers *)

Definition digit_char (n : Z) : ascii := byte (48 + Z.to_N n).

(** The decimal digits of a natural number below [10 ^ fuel], most significant first. *)
Fixpoint digits (fuel : nat) (n : Z) (acc : string) : string :=
  match fuel with
  | O => acc
  | S fuel' =>
      let acc := String (digit_char (n mod 10)) acc in
      if (n <? 10)%Z then acc else digits fuel' (n / 10) acc
  end.

(** [strconv.FormatInt] in base ten; 64-bit values have at most twenty digits. *)
Definition FormatInt (z : Z) : string :=
  if (z <? 0)%Z then "-" +:+ digits 20 (- z) "" else digits 20 z "".

(** [%0nd] for non-negative numbers that fit. *)
Fixpoint padded (width : nat) (z : Z) (acc : string) : string :=
  match width with
  | O => acc
  | S w => padded w (z / 10) (String (digit_char (z mod 10)) acc)
  end.

(** ** Strings *)

Definition between (lo hi : N) (c : ascii) : bool := ((lo <=? code c) && (code c <=? hi))%N.
Definition continuation (c : ascii) : bool := between 128 191 c.

(** The length of the UTF-8 encoding at the head of the string, as
    [utf8.DecodeRuneInString] accepts it; [None] for an invalid byte. *)
Definition rune_length (s : string) : option nat :=
  match s with
  | "" => None
  | String c r =>
      let n := code c in
      let second lo hi := match r with String d _ => between lo hi d | "" => false end in
      let third := match r with String _ (String d _) => continuation d | _ => false end in
      let fourth := match r with String _ (String _ (String d _)) => continuation d | _ => false end in
      if (n <? 128)%N then Some 1
      else if ((194 <=? n) && (n <=? 223))%N then if second 128%N 191%N then Some 2 else None
      else if (n =? 224)%N then if second 160%N 191%N && third then Some 3 else None
      else if (n =? 237)%N then if second 128%N 159%N && third then Some 3 else None
      else if ((225 <=? n) && (n <=? 239))%N then if second 128%N 191%N && third then Some 3 else None
      else if (n =? 240)%N then if second 144%N 191%N && third && fourth then Some 4 else None
      else if ((241 <=? n) && (n <=? 243))%N then if second 128%N 191%N && third && fourth then Some 4 else None
      else if (n =? 244)%N then if second 128%N 143%N && third && fourth then Some 4 else None
      else None
  end.

Definition hex2 (n : N) : string := EncodeToString [n].

(** The escape of one ASCII byte. *)
Definition escape_ascii (c : ascii) : string :=
  let n := code c in
  if (n =? 34)%N then bytes [92; 34]%N
  else if (n =? 92)%N then bytes [92; 92]%N
  else if (n =? 8)%N then "\b"
  else if (n =? 12)%N then "\f"
  else if (n =? 10)%N then "\n"
  else if (n =? 13)%N then "\r"
  else if (n =? 9)%N then "\t"
  else if ((n <? 32) || (n =? 60) || (n =? 62) || (n =? 38))%N then "\u00" +:+ hex2 n
  else String c "".

Fixpoint str_take (n : nat) (s : string) : string :=
  match n, s with
  | S n', String c r => String c (str_take n' r)
  | _, _ => ""
  end.

(** A rune of several bytes; the line and paragraph separators are escaped. *)
Definition escape_rune (r : string) : string :=
  if r ==? bytes [226; 128; 168]%N then "\u2028"
  else if r ==? bytes [226; 128; 169]%N then "\u2029"
  else r.

(** [skip] bytes belong to the rune already written. *)
Fixpoint escape_from (skip : nat) (s : string) : string :=
  match s with
  | "" => ""
  | String c r =>
      match skip with
      | S k => escape_from k r
      | O =>
          match rune_length s with
          | None => "\ufffd" +:+ escape_from 0 r
          | Some 1 => escape_ascii c +:+ escape_from 0 r
          | Some n => escape_rune (str_take n s) +:+ escape_from (n - 1) r
          end
      end
  end.

Definition escape (s : string) : string := escape_from 0 s.
Definition dquote : ascii := byte 34.
Definition encode_string (s : string) : string := String dquote (escape s +:+ String dquote "").

(** ** Timestamps

    Offsets of locations other than UTC come from the time-zone database. *)
Class TimeZones := zone_offset : Z -> Z.

(** Days since 0001-01-01 to year, month and day, in 400-year eras that start on
    the first of March. *)
Definition civil (day : Z) : Z * Z * Z :=
  (let z := day + 306 in
   let era := z / 146097 in
   let doe := z mod 146097 in
   let yoe := (doe - doe / 1460 + doe / 36524 - doe / 146096) / 365 in
   let doy := doe - (365 * yoe + yoe / 4 - yoe / 100) in
   let mp := (5 * doy + 2) / 153 in
   let d := doy - (153 * mp + 2) / 5 + 1 in
   let m := if mp <? 10 then mp + 3 else mp - 9 in
   let y := yoe + era * 400 + (if m <=? 2 then 1 else 0) in
   (y, m, d))%Z.

(** The fraction of a second without its trailing zeros. *)
Fixpoint drop_zeros (s : string) : string :=
  match s with
  | String "0" r => drop_zeros r
  | _ => s
  end.

Definition fraction (ns : Z) : string :=
  if (ns =? 0)%Z then ""
  else "." +:+ str_rev (drop_zeros (str_rev (padded 9 ns ""))).

Definition offset_suffix (offset : Z) : string :=
  if (offset =? 0)%Z then "Z"
  else (if (offset <? 0)%Z then "-" else "+") +:+ padded 2 (Z.abs offset / 3600) "" +:+ ":" +:+
    padded 2 (Z.abs offset / 60 mod 60) "".

(** [Time.MarshalJSON]: RFC 3339 with nanoseconds, an error outside years 0 to 9999. *)
Definition encode_time `{TimeZones} (t : GoTime.t) : option string :=
  let offset := if GoTime.utc t then 0%Z else zone_offset (GoTime.ns t) in
  let local := (GoTime.ns t + offset * GoTime.Second)%Z in
  let secs := (local / GoTime.Second)%Z in
  let ns := (local mod GoTime.Second)%Z in
  let '(y, m, d) := civil (secs / 86400) in
  let tod := (secs mod 86400)%Z in
  if ((y <? 0) || (9999 <? y))%Z then None
  else Some (String dquote (padded 4 y "" +:+ "-" +:+ padded 2 m "" +:+ "-" +:+ padded 2 d "" +:+ "T" +:+
    padded 2 (tod / 3600) "" +:+ ":" +:+ padded 2 (tod / 60 mod 60) "" +:+ ":" +:+
    padded 2 (tod mod 60) "" +:+ fraction ns +:+ offset_suffix offset +:+ String dquote "")).

(** ** Marshal *)

Section Marshal.
Context `{TimeZones}.

Fixpoint Marshal (v : json) : option string :=
  match v with
  | JStr s => Some (encode_string s)
  | JNum z => Some (FormatInt z)
  | JBool true => Some "true"
  | JBool false => Some "false"
  | JTime t => encode_time t
  | JObj fields =>
      let member := fix member (sep : string) (l : list (string * json)) : option string :=
        match l with
        | [] => Some "}"
        | (k, x) :: l' =>
            match Marshal x, member "," l' with
            | Some e, Some rest => Some (sep +:+ encode_string k +:+ ":" +:+ e +:+ rest)
            | _, _ => None
            end
        end in
      match member "" fields with
      | Some rest => Some ("{" +:+ rest)
      | None => None
      end
  | JArr elements =>
      let element := fix element (sep : string) (l : list json) : option string :=
        match l with
        | [] => Some "]"
        | x :: l' =>
            match Marshal x, element "," l' with
            | Some e, Some rest => Some (sep +:+ e +:+ rest)
            | _, _ => None
            end
        end in
      match element "" elements with
      | Some rest => Some ("[" +:+ rest)
      | None => None
      end
  end.

(** A value has an encoding when its parts do. *)
Definition encodes (v : json) : Prop := is_Some (Marshal v).

Lemma encodes_obj l : encodes (JObj l) <-> Forall (fun f => encodes f.2) l.
Proof.
  unfold encodes. cbn.
  match goal with |- is_Some (match ?f "" l with _ => _ end) <-> _ =>
    assert (Hm : forall sep, is_Some (f sep l) <-> Forall (fun x => is_Some (Marshal x.2)) l) end.
  - induction l as [|[k v] l IH]; intros sep; [split; [constructor|by eexists]|].
    rewrite Forall_cons, <- (IH ","). cbn. destruct (Marshal v); [|split; [intros [? [=]]|intros [[? [=]] _]]].
    match goal with |- context [match ?g with Some _ => _ | None => _ end] => destruct g end;
      split; [split; by eexists|by eexists|intros [? [=]]|intros [_ [? [=]]]].
  - rewrite <- (Hm ""). match goal with |- context [match ?g with Some _ => _ | None => _ end] => destruct g end;
      split; intros [? [=]]; by eexists.
Qed.

Lemma encodes_arr l : encodes (JArr l) <-> Forall encodes l.
Proof.
  unfold encodes. cbn.
  match goal with |- is_Some (match ?f "" l with _ => _ end) <-> _ =>
    assert (Hm : forall sep, is_Some (f sep l) <-> Forall (fun x => is_Some (Marshal x)) l) end.
  - induction l as [|v l IH]; intros sep; [split; [constructor|by eexists]|].
    rewrite Forall_cons, <- (IH ","). destruct (Marshal v); [|split; [intros [? [=]]|intros [[? [=]] _]]].
    match goal with |- context [match ?g with Some _ => _ | None => _ end] => destruct g end;
      split; [split; by eexists|by eexists|intros [? [=]]|intros [_ [? [=]]]].
  - rewrite <- (Hm ""). match goal with |- context [match ?g with Some _ => _ | None => _ end] => destruct g end;
      split; intros [? [=]]; by eexists.
Qed.

(** What follows the opening brace of an object starts with its first key. *)
Lemma Marshal_first_key k v l s :
  Marshal (JObj ((k, v) :: l)) = Some s -> exists rest, s = "{" +:+ encode_string k +:+ ":" +:+ rest.
Proof.
  cbn. destruct (Marshal v) as [e|]; [|done].
  match goal with |- match match ?g with Some _ => _ | None => _ end with _ => _ end = _ -> _ => destruct g end;
    intros [= <-]. by eexists.
Qed.
End Marshal.

(** [omitempty] on a string, an integer and an optional value. *)
Definition omit_str (k s : string) : list (string * json) := if s ==? "" then [] else [(k, JStr s)].
Definition omit_num (k : string) (z : Z) : list (string * json) := if (z =? 0)%Z then [] else [(k, JNum z)].
Definition omit_bool (k : string) (b : bool) : list (string * json) := if b then [(k, JBool true)] else [].
Definition omit_opt {A} (k : string) (f : A -> json) (x : option A) : list (string * json) :=
  match x with Some a => [(k, f a)] | None => [] end.
Definition omit_arr {A} (k : string) (f : A -> json) (l : list A) : list (string * json) :=
  match l with [] => [] | _ => [(k, JArr (map f l))] end.

Section Omitted.
Context `{TimeZones}.

Lemma encodes_str s : encodes (JStr s).
Proof. by eexists. Qed.
Lemma encodes_num z : encodes (JNum z).
Proof. by eexists. Qed.

Lemma encodes_omit_str k s : Forall (fun f => encodes f.2) (omit_str k s).
Proof. unfold omit_str. destruct (s ==? ""); repeat constructor. by eexists. Qed.
Lemma encodes_omit_num k z : Forall (fun f => encodes f.2) (omit_num k z).
Proof. unfold omit_num. destruct (z =? 0)%Z; repeat constructor. by eexists. Qed.
Lemma encodes_omit_arr {A} k (f : A -> json) l :
  Forall (fun x => encodes x.2) (omit_arr k f l) <-> Forall (fun x => encodes (f x)) l.
Proof.
  unfold omit_arr. destruct l as [|x l]; [done|]. rewrite Forall_singleton. cbn [snd].
  rewrite encodes_arr. by rewrite Forall_map.
Qed.
End Omitted.
#[export] Hint Resolve encodes_str encodes_num encodes_omit_str encodes_omit_num : go_db.

Example marshal_example `{TimeZones} :
  Marshal (JObj [("a", JStr "x<y"); ("n", JNum (-42)); ("ok", JBool true)] ) =
  Some ("{" +:+ encode_string "a" +:+ ":" +:+ String dquote "x\u003cy" +:+ String dquote "," +:+
        encode_string "n" +:+ ":-42," +:+ encode_string "ok" +:+ ":true}").
Proof. vm_compute. reflexivity. Qed.

(** 2024-02-29T12:34:56.78Z is 63844806896 seconds after the zero time. *)
Example time_example `{TimeZones} :
  encode_time (GoTime.mk 63844806896780000000 true) =
  Some (String dquote ("2024-02-29T12:34:56.78Z" +:+ String dquote "")).
Proof. vm_compute. reflexivity. Qed.

(** ** The encoding is injective on clean flat objects

    Clean strings are printable ASCII without the characters that are escaped;
    every validated identifier, version and digest is clean. *)

Definition plain (c : ascii) : bool := printable c && negb (one_of "\<>&" c) && negb (Ascii.eqb c dquote).

Lemma plain_escape c : plain c = true -> escape_ascii c = String c "".
Proof.
  destruct c as [[] [] [] [] [] [] [] []]; first [reflexivity | intros H; vm_compute in H; discriminate H].
Qed.

Lemma plain_rune c r : plain c = true -> rune_length (String c r) = Some 1.
Proof.
  intros H. unfold plain in H. bool_to_prop. apply printable_is_ascii in H. unfold is_ascii_byte in H.
  cbn. by rewrite H.
Qed.

Lemma escape_plain s : str_forall plain s = true -> escape s = s.
Proof.
  unfold escape. induction s as [|c s IH]; [done|]. intros H. cbn [str_forall] in H. bool_to_prop.
  cbn [escape_from]. rewrite plain_rune, plain_escape, IH by done. done.
Qed.

(** The longest prefix in a class is determined by what follows it. *)
Lemma class_prefix_inj (P : ascii -> bool) s s' c c' r r' :
  str_forall P s = true -> str_forall P s' = true -> P c = false -> P c' = false ->
  s +:+ String c r = s' +:+ String c' r' -> s = s' /\ String c r = String c' r'.
Proof.
  intros H H' Hc Hc'. revert s' H H'.
  induction s as [|d s IH]; intros [|d' s'] H H' E; simpl in H, H', E; [done|..];
    injection E as Ed E; bool_to_prop; [congruence..|]. subst d'.
  edestruct IH as [-> ->]; done.
Qed.

Lemma quoted_inj s s' r r' :
  str_forall plain s = true -> str_forall plain s' = true ->
  s +:+ String dquote r = s' +:+ String dquote r' -> s = s' /\ r = r'.
Proof.
  intros H H' E. apply (class_prefix_inj plain) in E as [-> E]; [|done..]. by injection E as ->.
Qed.

Fixpoint dec_from (acc : Z) (s : string) : Z :=
  match s with "" => acc | String c r => dec_from (acc * 10 + (Z.of_N (code c) - 48)) r end.

Lemma code_digit_char n : (0 <= n < 10)%Z -> Z.of_N (code (digit_char n)) = (48 + n)%Z.
Proof.
  intros Hn. unfold digit_char, code, byte. rewrite N_ascii_embedding; lia.
Qed.

Lemma digits_value fuel n acc :
  (0 <= n < 10 ^ Z.of_nat fuel)%Z -> dec_from 0 (digits fuel n acc) = dec_from n acc.
Proof.
  revert n acc. induction fuel as [|fuel IH]; intros n acc Hn; [cbn in *; f_equal; lia|].
  cbn [digits]. destruct (Z.ltb_spec n 10).
  - cbn [dec_from]. rewrite Z.mod_small, code_digit_char by lia. f_equal. lia.
  - rewrite IH.
    + cbn [dec_from]. pose proof (Z.mod_pos_bound n 10 ltac:(lia)). rewrite code_digit_char by lia.
      f_equal. pose proof (Z.div_mod n 10 ltac:(lia)). lia.
    + rewrite Nat2Z.inj_succ, Z.pow_succ_r in Hn by lia. split; [apply Z.div_pos; lia|].
      apply Z.div_lt_upper_bound; lia.
Qed.

Lemma digits_digit fuel n acc :
  (0 <= n)%Z -> str_forall digit acc = true -> str_forall digit (digits fuel n acc) = true.
Proof.
  revert n acc. induction fuel as [|fuel IH]; intros n acc Hn Hacc; [done|].
  assert (Hd : str_forall digit (String (digit_char (n mod 10)) acc) = true).
  { cbn [str_forall]. rewrite Hacc, andb_true_r. unfold digit, rng.
    pose proof (Z.mod_pos_bound n 10 ltac:(lia)) as Hm. pose proof (code_digit_char _ Hm).
    change (code "0") with 48%N. change (code "9") with 57%N. rewrite andb_true_iff, !N.leb_le. lia. }
  cbn [digits]. destruct (Z.ltb_spec n 10); [exact Hd|]. apply IH; [by apply Z.div_pos|exact Hd].
Qed.

Definition is_count (z : Z) : Prop := (0 <= z < 10 ^ 20)%Z.

Lemma FormatInt_count z : is_count z -> FormatInt z = digits 20 z "".
Proof. intros [Hz _]. unfold FormatInt. by destruct (Z.ltb_spec z 0); [lia|]. Qed.

Lemma FormatInt_inj z z' c c' r r' :
  is_count z -> is_count z' -> digit c = false -> digit c' = false ->
  FormatInt z +:+ String c r = FormatInt z' +:+ String c' r' -> z = z' /\ String c r = String c' r'.
Proof.
  intros Hz Hz' Hc Hc'. rewrite !FormatInt_count by done. intros E.
  apply (class_prefix_inj digit) in E as [E1 E2]; [|apply digits_digit; [apply Hz|done]|
    apply digits_digit; [apply Hz'|done]|done|done].
  split; [|done]. pose proof (digits_value 20 z "" Hz) as V. rewrite E1 in V.
  rewrite (digits_value 20 z' "" Hz') in V. by cbn in V.
Qed.

Section Flat.
Context `{TimeZones}.

Definition clean_leaf (v : json) : Prop :=
  match v with
  | JStr s => str_forall plain s = true
  | JNum z => is_count z
  | _ => False
  end.

Definition clean_field (f : string * json) : Prop := str_forall plain f.1 = true /\ clean_leaf f.2.

Definition leaf_string (v : json) : string :=
  match v with
  | JStr s => String dquote (s +:+ String dquote "")
  | JNum z => FormatInt z
  | _ => ""
  end.

Fixpoint members (sep : string) (l : list (string * json)) : string :=
  match l with
  | [] => "}"
  | (k, v) :: l' => sep +:+ String dquote (k +:+ String dquote (":" +:+ leaf_string v +:+ members "," l'))
  end.

Lemma Marshal_leaf v : clean_leaf v -> Marshal v = Some (leaf_string v).
Proof.
  destruct v; cbn [clean_leaf]; try done. intros Hs. cbn. unfold encode_string. by rewrite escape_plain.
Qed.

Lemma Marshal_flat l : Forall clean_field l -> Marshal (JObj l) = Some ("{" +:+ members "" l).
Proof.
  intros Hl. cbn.
  match goal with |- match ?f "" l with _ => _ end = _ =>
    assert (Hm : forall sep, f sep l = Some (members sep l)); [|by rewrite Hm] end.
  induction Hl as [|[k v] l [Hk Hv] _ IH]; intros sep; [done|]. rewrite IH, (Marshal_leaf v Hv). cbn in Hk.
  simpl. unfold encode_string. rewrite (escape_plain k Hk). simpl. by rewrite str_app_assoc.
Qed.

Lemma digits_nonempty fuel n acc : exists c r, digits (S fuel) n acc = String c r.
Proof.
  revert n acc. induction fuel as [|fuel IH]; intros n acc.
  - cbn. destruct (n <? 10)%Z; eauto.
  - remember (S fuel) as f. cbn [digits]. destruct (n <? 10)%Z; [by eauto|]. subst f. apply IH.
Qed.

Lemma FormatInt_head z : is_count z -> exists c r, FormatInt z = String c r /\ digit c = true.
Proof.
  intros Hz. rewrite FormatInt_count by done. destruct (digits_nonempty 19 z "") as (c & r & E).
  exists c, r. split; [done|]. pose proof (digits_digit 20 z "" (proj1 Hz) eq_refl) as Hd.
  rewrite E in Hd. cbn in Hd. by bool_to_prop.
Qed.

Lemma leaf_inj v v' c c' r r' :
  clean_leaf v -> clean_leaf v' -> digit c = false -> digit c' = false ->
  leaf_string v +:+ String c r = leaf_string v' +:+ String c' r' ->
  v = v' /\ String c r = String c' r'.
Proof.
  assert (Hq : digit dquote = false) by done.
  destruct v as [s|z| | | |], v' as [s'|z'| | | |]; cbn [clean_leaf]; try done; intros Hv Hv' Hc Hc' E;
    cbn [leaf_string] in E.
  - simpl in E. injection E as E. rewrite !str_app_assoc in E. simpl in E.
    by apply quoted_inj in E as [-> ->].
  - destruct (FormatInt_head z' Hv') as (d & t & Ed & Hd). rewrite Ed in E. simpl in E.
    injection E as <- _. congruence.
  - destruct (FormatInt_head z Hv) as (d & t & Ed & Hd). rewrite Ed in E. simpl in E.
    injection E as -> _. congruence.
  - by apply FormatInt_inj in E as [-> ?].
Qed.

Lemma members_head l : exists c r, members "," l = String c r /\ digit c = false.
Proof. destruct l as [|[k v] l]; simpl; eauto. Qed.

Lemma members_inj l l' sep :
  Forall clean_field l -> Forall clean_field l' -> sep = "" \/ sep = "," ->
  members sep l = members sep l' -> l = l'.
Proof.
  intros Hl. revert l' sep. induction Hl as [|[k v] l [Hk Hv] _ IH]; intros l' sep Hl' Hsep E.
  - destruct l' as [|[k' v'] l']; [done|]. destruct Hsep as [-> | ->]; discriminate E.
  - destruct Hl' as [|[k' v'] l' [Hk' Hv'] Hl']; [destruct Hsep as [-> | ->]; discriminate E|].
    assert (E' : String dquote (k +:+ String dquote (":" +:+ leaf_string v +:+ members "," l)) =
                 String dquote (k' +:+ String dquote (":" +:+ leaf_string v' +:+ members "," l'))).
    { destruct Hsep as [-> | ->]; [exact E|]. simpl in E. injection E as E. simpl. by rewrite E. }
    clear E. injection E' as E. cbn in Hk, Hk', Hv, Hv'.
    apply quoted_inj in E as [-> E]; [|done..]. injection E as E.
    destruct (members_head l) as (c & r & Em & Hc), (members_head l') as (c' & r' & Em' & Hc').
    rewrite Em, Em' in E. apply leaf_inj in E as [-> E]; [|done..].
    rewrite <- Em, <- Em' in E. by rewrite (IH l' "," Hl' (or_intror eq_refl) E).
Qed.

(** Two flat objects with clean keys and values that marshal to the same bytes
    are the same object. *)
Lemma Marshal_flat_inj l l' :
  Forall clean_field l -> Forall clean_field l' -> Marshal (JObj l) = Marshal (JObj l') -> l = l'.
Proof.
  intros Hl Hl'. rewrite !Marshal_flat by done. intros [= E].
  apply (members_inj l l' ""); auto.
Qed.
End Flat.
