(* ===== verification/JsonSize.v ===== *)
(** How long an encoding can be: a bound on the bytes that [json.Marshal] writes for
    an object of strings, numbers and timestamps, from the lengths of its strings.
    The state files have a fixed size limit; this says which values fit. *)
From Stdlib Require Import Ascii String ZArith Lia.
From stdpp Require Import base decidable list strings.
From S2P Require Import Prelude Strings Regexp Patterns Sha256 Json.

Open Scope string_scope.

Lemma str_length_rev s : String.length (str_rev s) = String.length s.
Proof. induction s as [|c s IH]; [done|]. rewrite str_rev_cons, length_str_app, IH. simpl. lia. Qed.

(** ** Numbers and timestamps *)

Lemma length_digits fuel n acc : String.length (digits fuel n acc) <= fuel + String.length acc.
Proof.
  revert n acc. induction fuel as [|fuel IH]; intros n acc; [done|]. cbn [digits].
  destruct (n <? 10)%Z; [simpl; lia|]. etrans; [apply IH|]. simpl. lia.
Qed.

Lemma length_FormatInt z : String.length (FormatInt z) <= 21.
Proof.
  unfold FormatInt. destruct (z <? 0)%Z; [rewrite length_str_app|];
    etrans; [apply Nat.add_le_mono_l, length_digits|simpl; lia|apply length_digits|simpl; lia].
Qed.

Lemma length_padded width z acc : String.length (padded width z acc) = width + String.length acc.
Proof. revert z acc. induction width as [|w IH]; intros z acc; [done|]. cbn [padded]. rewrite IH. simpl. lia. Qed.

Lemma length_drop_zeros s : String.length (drop_zeros s) <= String.length s.
Proof.
  induction s as [|c s IH]; [done|]. cbn [drop_zeros].
  destruct c as [[] [] [] [] [] [] [] []]; try done; simpl in *; lia.
Qed.

Lemma length_fraction ns : String.length (fraction ns) <= 10.
Proof.
  unfold fraction. destruct (ns =? 0)%Z; [simpl; lia|]. rewrite length_str_app, str_length_rev.
  pose proof (length_drop_zeros (str_rev (padded 9 ns ""))) as Hd. rewrite str_length_rev, length_padded in Hd.
  simpl in *. lia.
Qed.

Lemma length_offset offset : String.length (offset_suffix offset) <= 6.
Proof.
  unfold offset_suffix. destruct (offset =? 0)%Z; [simpl; lia|]. rewrite !length_str_app, !length_padded.
  destruct (offset <? 0)%Z; simpl; lia.
Qed.

Lemma length_time `{TimeZones} t s : encode_time t = Some s -> String.length s <= 37.
Proof.
  unfold encode_time. cbn zeta. destruct (civil _) as [[y m] d]. destruct (_ || _)%bool; [done|]. intros [= <-].
  match goal with |- context [fraction ?n +:+ (offset_suffix ?o +:+ _)] =>
    pose proof (length_fraction n) as Hf; pose proof (length_offset o) as Ho;
    generalize dependent (fraction n); generalize dependent (offset_suffix o) end.
  intros o Ho f Hf. cbn [String.length]. rewrite !length_str_app. cbn [String.length]. lia.
Qed.

(** ** Strings *)

Lemma length_escape_ascii c : String.length (escape_ascii c) <= 6.
Proof. destruct c as [[] [] [] [] [] [] [] []]; vm_compute; lia. Qed.

Lemma length_take n s : String.length (str_take n s) <= n.
Proof. revert s. induction n as [|n IH]; intros [|c s]; simpl; try lia. specialize (IH s). lia. Qed.

Lemma length_escape_rune r : String.length r <= 4 -> String.length (escape_rune r) <= 6.
Proof. unfold escape_rune. repeat case_match; simpl; lia. Qed.

Lemma rune_length_le s n : rune_length s = Some n -> n <= 4.
Proof. unfold rune_length. intros E. repeat case_match; simplify_eq; lia. Qed.

Lemma length_escape_from skip s : String.length (escape_from skip s) <= 6 * String.length s.
Proof.
  revert skip. induction s as [|c r IH]; intros skip; [done|]. cbn [escape_from].
  destruct skip as [|k]; [|specialize (IH k); cbn [String.length]; lia].
  destruct (rune_length (String c r)) as [n|] eqn:En.
  - pose proof (rune_length_le _ _ En) as Hn.
    assert (Hr : String.length (escape_rune (str_take n (String c r))) <= 6)
      by (apply length_escape_rune; etrans; [apply length_take|done]).
    pose proof (length_escape_ascii c) as Ha. pose proof (IH 0) as H0. pose proof (IH (n - 1)) as H1.
    destruct n as [|[|n]]; rewrite length_str_app; cbn [String.length] in *; lia.
  - rewrite length_str_app. specialize (IH 0). simpl in *. lia.
Qed.

Lemma length_encode_string s : String.length (encode_string s) <= 6 * String.length s + 2.
Proof.
  unfold encode_string, escape. cbn [String.length]. rewrite length_str_app. pose proof (length_escape_from 0 s).
  cbn [String.length]. lia.
Qed.

(** ** Flat objects *)

(** The longest encoding of a value that is not an object or an array. *)
Definition leaf_size (v : json) : nat :=
  match v with
  | JStr s => 6 * String.length s + 2
  | JNum _ => 21
  | JBool _ => 5
  | JTime _ => 37
  | JObj _ | JArr _ => 0
  end.

Definition is_leaf (v : json) : Prop := match v with JObj _ | JArr _ => False | _ => True end.

Fixpoint fields_size (l : list (string * json)) : nat :=
  match l with
  | [] => 0
  | (k, v) :: l' => 6 * String.length k + 4 + leaf_size v + fields_size l'
  end.

Lemma fields_size_app l l' : fields_size (l ++ l') = fields_size l + fields_size l'.
Proof. induction l as [|[k v] l IH]; cbn [app fields_size]; lia. Qed.

Lemma fields_size_omit k s : fields_size (omit_str k s) <= 6 * String.length k + 6 + 6 * String.length s.
Proof. unfold omit_str. destruct (s ==? ""); cbn [fields_size leaf_size]; lia. Qed.

Section Size.
Context `{TimeZones}.

Lemma length_leaf v s : is_leaf v -> Marshal v = Some s -> String.length s <= leaf_size v.
Proof.
  destruct v as [t|z|b|t| |]; intros Hv E; try done; cbn in E.
  - injection E as <-. apply length_encode_string.
  - injection E as <-. apply length_FormatInt.
  - destruct b; injection E as <-; simpl; lia.
  - by apply length_time in E.
Qed.

Lemma length_object l s :
  Forall (fun f => is_leaf f.2) l -> Marshal (JObj l) = Some s -> String.length s <= fields_size l + 2.
Proof.
  intros Hl. cbn. match goal with |- match ?f "" l with _ => _ end = _ -> _ =>
    assert (Hm : forall sep r, f sep l = Some r -> String.length sep <= 1 ->
      String.length r <= fields_size l + 1); [|destruct (f "" l) as [r|] eqn:Er; [|done]] end.
  - induction Hl as [|[k v] l Hv _ IH]; intros sep r; [by intros [= <-] _; simpl; lia|].
    destruct (Marshal v) as [e|] eqn:Ev; [|done].
    match goal with |- match ?g with _ => _ end = _ -> _ => destruct g as [rest|] eqn:Eg; [|done] end.
    intros [= <-] Hs. apply IH in Eg; [|simpl; lia]. apply length_leaf in Ev; [|done].
    pose proof (length_encode_string k) as Hk. unfold encode_string in Hk. cbn [String.length] in Hk.
    rewrite length_str_app in Hk. rewrite length_str_app. cbn [String.length fields_size] in *.
    rewrite !length_str_app. simpl in *. rewrite ?length_str_app. lia.
  - intros [= <-]. apply Hm in Er; [|simpl; lia]. simpl. lia.
Qed.
End Size.
