(* ===== verification/SelfUpdateState.v ===== *)
(** The A/B self-update state machine of the host runtime
    ([host_self_update_state.go]): the release identity and the request, the
    durable state, and the transitions that stage, activate, reconcile, commit
    and roll back a paired Agent/Executor release. *)
From Stdlib Require Import Ascii String ZArith Lia.
From stdpp Require Import base decidable list strings relations.
From S2P Require Import Prelude Strings Regexp Patterns Compare Semver.
Import ReleaseVersion.

Open Scope string_scope.

Definition HostSelfUpdateSlotA : string := "a".
Definition HostSelfUpdateSlotB : string := "b".

Definition PhaseStable : string := "stable".
Definition PhaseStaged : string := "staged".
Definition PhaseActivating : string := "activating".
Definition PhaseVerifying : string := "verifying".
Definition PhaseRollingBack : string := "rolling_back".

Definition ActionNone : string := "none".
Definition ActionSwitchCurrent : string := "switch_current".
Definition ActionRestartAgent : string := "restart_agent".
Definition ActionAwaitProof : string := "await_proof".
Definition ActionProbeExecutor : string := "probe_executor".
Definition ActionCommit : string := "commit".
Definition ActionRestoreHealthy : string := "restore_healthy".
Definition ActionRestartHealthy : string := "restart_healthy".
Definition ActionRollbackComplete : string := "rollback_complete".

Definition hostSelfUpdateStateSchemaVersion : Z := 2.
Definition HostSelfUpdateRecoveryProtocolVersion : Z := 2.

Module Blockers.
Record t := mk {
  ActiveJob : bool;
  MutationInProgress : bool;
  RecoveryPending : bool;
  TokenRotationPending : bool;
  SelfUpdatePending : bool;
  ConsumedMutationRollbackPending : bool;
}.

Definition mutationBlocked (b : t) : bool :=
  ActiveJob b || MutationInProgress b || RecoveryPending b ||
  TokenRotationPending b || SelfUpdatePending b.
End Blockers.

Module Compatibility.
Record t := mk {
  AgentVersion : string;
  ExecutorVersion : string;
  AgentProtocolVersion : Z;
  ExecutorProtocolVersion : Z;
  MutationProtocolVersion : Z;
  RecoveryProtocolVersion : Z;
}.
End Compatibility.

Module Requirement.
Record t := mk {
  MinimumAgentVersion : string;
  MinimumExecutorVersion : string;
  AgentProtocolVersion : Z;
  ExecutorProtocolVersion : Z;
  MutationProtocolVersion : Z;
  RecoveryProtocolVersion : Z;
}.

Definition validate (r : t) : check :=
  if negb (re_match versionPattern (TrimSpace (MinimumAgentVersion r))) ||
     negb (re_match versionPattern (TrimSpace (MinimumExecutorVersion r))) ||
     (MinimumAgentVersion r !=? TrimSpace (MinimumAgentVersion r)) ||
     (MinimumExecutorVersion r !=? TrimSpace (MinimumExecutorVersion r)) ||
     (AgentProtocolVersion r <? 1)%Z ||
     (ExecutorProtocolVersion r <? 1)%Z ||
     (MutationProtocolVersion r <? 1)%Z ||
     (RecoveryProtocolVersion r !=? HostSelfUpdateRecoveryProtocolVersion)
  then Err "host runtime requirement is invalid" else Ok tt.
End Requirement.

(** The two version messages carry the versions through [fmt.Errorf]. *)
Definition ValidateHostRuntimeCompatibility
    (current : Compatibility.t) (requirement : Requirement.t) : check :=
  let! _ := Requirement.validate requirement in
  if negb (re_match versionPattern (TrimSpace (Compatibility.AgentVersion current))) ||
     negb (re_match versionPattern (TrimSpace (Compatibility.ExecutorVersion current))) ||
     negb (re_match versionPattern (TrimSpace (Requirement.MinimumAgentVersion requirement))) ||
     negb (re_match versionPattern (TrimSpace (Requirement.MinimumExecutorVersion requirement)))
  then Err "host runtime version compatibility is invalid"
  else if negb (updaterReleaseSemverAtLeast
       (Compatibility.AgentVersion current) (Requirement.MinimumAgentVersion requirement))
  then Err ("host agent " +:+ Compatibility.AgentVersion current +:+ " is older than required "
            +:+ Requirement.MinimumAgentVersion requirement)
  else if negb (updaterReleaseSemverAtLeast
       (Compatibility.ExecutorVersion current) (Requirement.MinimumExecutorVersion requirement))
  then Err ("local executor " +:+ Compatibility.ExecutorVersion current +:+ " is older than required "
            +:+ Requirement.MinimumExecutorVersion requirement)
  else if (Requirement.AgentProtocolVersion requirement <? 1)%Z ||
     (Requirement.ExecutorProtocolVersion requirement <? 1)%Z ||
     (Requirement.MutationProtocolVersion requirement <? 1)%Z ||
     (Requirement.RecoveryProtocolVersion requirement !=? HostSelfUpdateRecoveryProtocolVersion) ||
     (Compatibility.AgentProtocolVersion current !=? Requirement.AgentProtocolVersion requirement) ||
     (Compatibility.ExecutorProtocolVersion current !=? Requirement.ExecutorProtocolVersion requirement) ||
     (Compatibility.MutationProtocolVersion current !=? Requirement.MutationProtocolVersion requirement) ||
     (Compatibility.RecoveryProtocolVersion current !=? Requirement.RecoveryProtocolVersion requirement)
  then Err "host runtime protocol compatibility is not satisfied"
  else Ok tt.

Definition hostAgentManifestName : string := "host-agent-manifest.json".
Definition defaultMaxArtifactBytes : Z := 256 * 2 ^ 20.

Definition hostAgentReleaseAssetName (version arch : string) : string :=
  "autostream-host-agent" +:+ "_" +:+ version +:+ "_linux_" +:+ arch +:+ ".tar.gz".

(** [HostSelfUpdateReleaseIdentity]. *)
Module Release.
Record t := mk {
  Tag : string;
  Commit : string;
  PublishedAt : GoTime.t;
  ManifestAssetID : Z;
  ManifestAssetName : string;
  ManifestSHA256 : string;
  ManifestChecksumAssetID : Z;
  ManifestChecksumSHA256 : string;
  ArchiveAssetID : Z;
  ArchiveAssetName : string;
  ArchiveSize : Z;
  ArchiveSHA256 : string;
  ArchiveChecksumAssetID : Z;
  ArchiveChecksumSHA256 : string;
  Arch : string;
  AgentProtocolVersion : Z;
  ExecutorProtocolVersion : Z;
  MutationProtocolVersion : Z;
  RecoveryProtocolVersion : Z;
  MinimumPanelVersion : string;
}.

#[global] Instance eq_dec : EqDecision t.
Proof. solve_decision. Defined.

(** The zero value of the struct. *)
Definition zero : t :=
  mk "" "" GoTime.zero 0 "" "" 0 "" 0 "" 0 "" 0 "" "" 0 0 0 0 "".

(** The loop over the four asset ids with its [seen] set. *)
Fixpoint check_asset_ids (seen ids : list Z) : check :=
  match ids with
  | [] => Ok tt
  | id :: ids' =>
      if (id <? 1)%Z then Err "host self-update release asset identity is invalid"
      else if existsb (Z.eqb id) seen then Err "host self-update release asset identity is duplicated"
      else check_asset_ids (id :: seen) ids'
  end.

Definition validate (r : t) : check :=
  let! _ := check_asset_ids []
    [ManifestAssetID r; ManifestChecksumAssetID r; ArchiveAssetID r; ArchiveChecksumAssetID r] in
  if negb (re_match versionPattern (Tag r)) ||
     negb (re_match updaterReleaseCommitPattern (Commit r)) ||
     GoTime.IsZero (PublishedAt r) ||
     negb (GoTime.IsUTC (PublishedAt r)) ||
     (ManifestAssetName r !=? hostAgentManifestName) ||
     (ArchiveAssetName r !=? hostAgentReleaseAssetName (Tag r) (Arch r)) ||
     negb (re_match mutationPlanHashPattern (ManifestSHA256 r)) ||
     negb (re_match mutationPlanHashPattern (ManifestChecksumSHA256 r)) ||
     (ArchiveSize r <? 1)%Z ||
     (defaultMaxArtifactBytes <? ArchiveSize r)%Z ||
     negb (re_match mutationPlanHashPattern (ArchiveSHA256 r)) ||
     negb (re_match mutationPlanHashPattern (ArchiveChecksumSHA256 r)) ||
     ((Arch r !=? "amd64") && (Arch r !=? "arm64")) ||
     (AgentProtocolVersion r <? 1)%Z ||
     (ExecutorProtocolVersion r <? 1)%Z ||
     (MutationProtocolVersion r <? 1)%Z ||
     (RecoveryProtocolVersion r !=? HostSelfUpdateRecoveryProtocolVersion) ||
     negb (re_match versionPattern (MinimumPanelVersion r))
  then Err "host self-update release identity is invalid"
  else Ok tt.

(** [sameHostSelfUpdateReleaseIdentity]: instants compare with [Time.Equal]. *)
Definition same (left right : t) : bool :=
  (Tag left ==? Tag right) &&
  (Commit left ==? Commit right) &&
  GoTime.Equal (PublishedAt left) (PublishedAt right) &&
  (ManifestAssetID left ==? ManifestAssetID right) &&
  (ManifestAssetName left ==? ManifestAssetName right) &&
  (ManifestSHA256 left ==? ManifestSHA256 right) &&
  (ManifestChecksumAssetID left ==? ManifestChecksumAssetID right) &&
  (ManifestChecksumSHA256 left ==? ManifestChecksumSHA256 right) &&
  (ArchiveAssetID left ==? ArchiveAssetID right) &&
  (ArchiveAssetName left ==? ArchiveAssetName right) &&
  (ArchiveSize left ==? ArchiveSize right) &&
  (ArchiveSHA256 left ==? ArchiveSHA256 right) &&
  (ArchiveChecksumAssetID left ==? ArchiveChecksumAssetID right) &&
  (ArchiveChecksumSHA256 left ==? ArchiveChecksumSHA256 right) &&
  (Arch left ==? Arch right) &&
  (AgentProtocolVersion left ==? AgentProtocolVersion right) &&
  (ExecutorProtocolVersion left ==? ExecutorProtocolVersion right) &&
  (MutationProtocolVersion left ==? MutationProtocolVersion right) &&
  (RecoveryProtocolVersion left ==? RecoveryProtocolVersion right) &&
  (MinimumPanelVersion left ==? MinimumPanelVersion right).
End Release.

(** [HostSelfUpdateRequest]. *)
Module Request.
Record t := mk {
  Generation : string;
  AgentVersion : string;
  ExecutorVersion : string;
  Commit : string;
  ArtifactSHA256 : string;
  AgentProtocolVersion : Z;
  ExecutorProtocolVersion : Z;
  MutationProtocolVersion : Z;
  RecoveryProtocolVersion : Z;
  ReleaseIdentity : Release.t;
}.

#[global] Instance eq_dec : EqDecision t.
Proof. solve_decision. Defined.

(** [HostSelfUpdateReleaseIdentity.matchesRequest]. *)
Definition matchesRequest (r : Release.t) (request : t) : bool :=
  (Release.Tag r ==? AgentVersion request) &&
  (Release.Commit r ==? Commit request) &&
  (Release.ArchiveSHA256 r ==? TrimPrefix (ArtifactSHA256 request) "sha256:") &&
  (Release.AgentProtocolVersion r ==? AgentProtocolVersion request) &&
  (Release.ExecutorProtocolVersion r ==? ExecutorProtocolVersion request) &&
  (Release.MutationProtocolVersion r ==? MutationProtocolVersion request) &&
  (Release.RecoveryProtocolVersion r ==? RecoveryProtocolVersion request).

Definition validate (r : t) : check :=
  if negb (re_match identifierPattern (TrimSpace (Generation r))) ||
     negb (re_match versionPattern (TrimSpace (AgentVersion r))) ||
     negb (re_match versionPattern (TrimSpace (ExecutorVersion r))) ||
     negb (re_match updaterReleaseCommitPattern (TrimSpace (Commit r))) ||
     negb (re_match digestPattern (TrimSpace (ArtifactSHA256 r))) ||
     (AgentProtocolVersion r <? 1)%Z ||
     (ExecutorProtocolVersion r <? 1)%Z ||
     (MutationProtocolVersion r <? 1)%Z ||
     (RecoveryProtocolVersion r !=? HostSelfUpdateRecoveryProtocolVersion) ||
     is_err (Release.validate (ReleaseIdentity r)) ||
     negb (matchesRequest (ReleaseIdentity r) r)
  then Err "host self-update request is invalid"
  else if (Generation r !=? TrimSpace (Generation r)) ||
     (AgentVersion r !=? TrimSpace (AgentVersion r)) ||
     (ExecutorVersion r !=? TrimSpace (ExecutorVersion r)) ||
     (Commit r !=? TrimSpace (Commit r)) ||
     (ArtifactSHA256 r !=? TrimSpace (ArtifactSHA256 r))
  then Err "host self-update request is not canonical"
  else Ok tt.
End Request.

(** [hostSelfUpdateSlotDigests]. *)
Module SlotDigests.
Record t := mk { AgentSHA256 : string; ExecutorSHA256 : string }.

Definition validate (d : t) : check :=
  if negb (isCanonicalBareSHA256 (AgentSHA256 d)) || negb (isCanonicalBareSHA256 (ExecutorSHA256 d))
  then Err "host self-update slot digests are invalid" else Ok tt.
End SlotDigests.

(** [HostSelfUpdateObservation]. *)
Module Observation.
Record t := mk {
  CurrentSlot : string;
  RunningAgentVersion : string;
  PanelHeartbeatVersion : string;
  HeartbeatGeneration : string;
  ExecutorVersion : string;
  ExecutorProtocol : Z;
  ExecutorHealthy : bool;
  ExecutorProbeGeneration : string;
  ExecutorFailureCode : string;
}.
#[global] Instance eta_t : Eta t := fun o =>
  mk (CurrentSlot o) (RunningAgentVersion o) (PanelHeartbeatVersion o) (HeartbeatGeneration o)
     (ExecutorVersion o) (ExecutorProtocol o) (ExecutorHealthy o) (ExecutorProbeGeneration o)
     (ExecutorFailureCode o).
End Observation.

Definition validHostSelfUpdateSlot (slot : string) : bool :=
  (slot ==? HostSelfUpdateSlotA) || (slot ==? HostSelfUpdateSlotB).

Definition otherHostSelfUpdateSlot (slot : string) : string :=
  if slot ==? HostSelfUpdateSlotA then HostSelfUpdateSlotB
  else if slot ==? HostSelfUpdateSlotB then HostSelfUpdateSlotA
  else "".

(** [HostSelfUpdateState], the durable record. *)
Module State.
Record t := mk {
  SchemaVersion : Z;
  RecoveryProtocolVersion : Z;
  Phase : string;
  ActiveSlot : string;
  HealthySlot : string;
  RollbackSlot : string;
  ActiveAgentVersion : string;
  ActiveExecutorVersion : string;
  RollbackAgentVersion : string;
  RollbackExecutorVersion : string;
  FailedGeneration : string;
  PendingSlot : string;
  PendingGeneration : string;
  PendingAgentVersion : string;
  PendingExecutorVersion : string;
  PendingCommit : string;
  PendingArtifactSHA256 : string;
  PendingAgentSHA256 : string;
  PendingExecutorSHA256 : string;
  PendingAgentProtocol : Z;
  PendingExecutorProtocol : Z;
  PendingMutationProtocol : Z;
  PendingRecoveryProtocol : Z;
  PendingRelease : Release.t;
  ActivationStartedAt : GoTime.t;
  ActivationDeadline : GoTime.t;
}.

#[global] Instance eq_dec : EqDecision t.
Proof. solve_decision. Defined.

#[global] Instance eta_t : Eta t := fun s =>
  mk (SchemaVersion s) (RecoveryProtocolVersion s) (Phase s) (ActiveSlot s) (HealthySlot s)
     (RollbackSlot s) (ActiveAgentVersion s) (ActiveExecutorVersion s) (RollbackAgentVersion s)
     (RollbackExecutorVersion s) (FailedGeneration s) (PendingSlot s) (PendingGeneration s)
     (PendingAgentVersion s) (PendingExecutorVersion s) (PendingCommit s)
     (PendingArtifactSHA256 s) (PendingAgentSHA256 s) (PendingExecutorSHA256 s)
     (PendingAgentProtocol s) (PendingExecutorProtocol s) (PendingMutationProtocol s)
     (PendingRecoveryProtocol s) (PendingRelease s) (ActivationStartedAt s) (ActivationDeadline s).

(** The request a state with a pending update stands for; both [validate] and
    [verifyPendingHostSelfUpdateSlot] rebuild it from the pending fields. *)
Definition pending_request (s : t) : Request.t :=
  Request.mk (PendingGeneration s) (PendingAgentVersion s) (PendingExecutorVersion s)
    (PendingCommit s) (PendingArtifactSHA256 s) (PendingAgentProtocol s)
    (PendingExecutorProtocol s) (PendingMutationProtocol s) (PendingRecoveryProtocol s)
    (PendingRelease s).

Definition pending_digests (s : t) : SlotDigests.t :=
  SlotDigests.mk (PendingAgentSHA256 s) (PendingExecutorSHA256 s).

Definition validate (s : t) : check :=
  if (SchemaVersion s !=? hostSelfUpdateStateSchemaVersion) ||
     (RecoveryProtocolVersion s !=? HostSelfUpdateRecoveryProtocolVersion) ||
     negb (validHostSelfUpdateSlot (ActiveSlot s)) ||
     negb (validHostSelfUpdateSlot (HealthySlot s)) ||
     negb (re_match versionPattern (ActiveAgentVersion s)) ||
     negb (re_match versionPattern (ActiveExecutorVersion s))
  then Err "host self-update state is invalid"
  else if (FailedGeneration s !=? "") &&
     (negb (re_match identifierPattern (FailedGeneration s)) ||
      (FailedGeneration s !=? TrimSpace (FailedGeneration s)))
  then Err "host self-update failed generation is invalid"
  else if Phase s ==? PhaseStable then
    if (ActiveSlot s !=? HealthySlot s) || (PendingSlot s !=? "") ||
       (PendingAgentSHA256 s !=? "") || (PendingExecutorSHA256 s !=? "") ||
       negb (GoTime.IsZero (ActivationStartedAt s)) || negb (GoTime.IsZero (ActivationDeadline s))
    then Err "stable host self-update state is inconsistent"
    else Ok tt
  else if (Phase s !=? PhaseStaged) && (Phase s !=? PhaseActivating) &&
     (Phase s !=? PhaseVerifying) && (Phase s !=? PhaseRollingBack)
  then Err "host self-update state phase is invalid"
  else if is_err (Request.validate (pending_request s)) ||
     is_err (SlotDigests.validate (pending_digests s)) ||
     negb (validHostSelfUpdateSlot (PendingSlot s)) ||
     (PendingSlot s ==? HealthySlot s)
  then Err "pending host self-update state is invalid"
  else if Phase s ==? PhaseStaged then
    if negb (GoTime.IsZero (ActivationStartedAt s)) || negb (GoTime.IsZero (ActivationDeadline s))
    then Err "staged host self-update activation clock is inconsistent"
    else Ok tt
  else if GoTime.IsZero (ActivationStartedAt s) || GoTime.IsZero (ActivationDeadline s) ||
     negb (GoTime.IsUTC (ActivationStartedAt s)) || negb (GoTime.IsUTC (ActivationDeadline s)) ||
     negb (GoTime.After (ActivationDeadline s) (ActivationStartedAt s))
  then Err "active host self-update deadline is invalid"
  else
    let verificationTimeout := GoTime.Sub (ActivationDeadline s) (ActivationStartedAt s) in
    if (verificationTimeout <? 30 * GoTime.Second)%Z || (30 * GoTime.Minute <? verificationTimeout)%Z
    then Err "active host self-update deadline is outside the fixed bounds"
    else Ok tt.
End State.

Definition NewHostSelfUpdateState (agentVersion executorVersion : string) : result string State.t :=
  if negb (re_match versionPattern (TrimSpace agentVersion)) ||
     negb (re_match versionPattern (TrimSpace executorVersion))
  then Err "initial host runtime versions are invalid"
  else Ok (State.mk hostSelfUpdateStateSchemaVersion HostSelfUpdateRecoveryProtocolVersion
    PhaseStable HostSelfUpdateSlotA HostSelfUpdateSlotA "" (TrimSpace agentVersion)
    (TrimSpace executorVersion) "" "" "" "" "" "" "" "" "" "" "" 0 0 0 0 Release.zero
    GoTime.zero GoTime.zero).

Definition StageHostSelfUpdate (state : State.t) (request : Request.t) (blockers : Blockers.t)
    (slotDigests : SlotDigests.t) : result string State.t :=
  let! _ := State.validate state in
  if (State.Phase state !=? PhaseStable) || Blockers.mutationBlocked blockers
  then Err "host lifecycle mutation is active"
  else
    let! _ := Request.validate request in
    let! _ := SlotDigests.validate slotDigests in
    if (Request.AgentVersion request ==? State.ActiveAgentVersion state) &&
       (Request.ExecutorVersion request ==? State.ActiveExecutorVersion state)
    then Err "host self-update target is already active"
    else if Request.Generation request ==? State.FailedGeneration state
    then Err "host self-update generation previously failed and cannot be replayed"
    else Ok (state
      <| State.Phase := PhaseStaged |>
      <| State.PendingSlot := otherHostSelfUpdateSlot (State.HealthySlot state) |>
      <| State.PendingGeneration := Request.Generation request |>
      <| State.PendingAgentVersion := Request.AgentVersion request |>
      <| State.PendingExecutorVersion := Request.ExecutorVersion request |>
      <| State.PendingCommit := Request.Commit request |>
      <| State.PendingArtifactSHA256 := Request.ArtifactSHA256 request |>
      <| State.PendingAgentSHA256 := SlotDigests.AgentSHA256 slotDigests |>
      <| State.PendingExecutorSHA256 := SlotDigests.ExecutorSHA256 slotDigests |>
      <| State.PendingAgentProtocol := Request.AgentProtocolVersion request |>
      <| State.PendingExecutorProtocol := Request.ExecutorProtocolVersion request |>
      <| State.PendingMutationProtocol := Request.MutationProtocolVersion request |>
      <| State.PendingRecoveryProtocol := Request.RecoveryProtocolVersion request |>
      <| State.PendingRelease := Request.ReleaseIdentity request |>
      <| State.ActivationStartedAt := GoTime.zero |>
      <| State.ActivationDeadline := GoTime.zero |>).

Definition BeginHostSelfUpdateActivation (state : State.t) (startedAt : GoTime.t)
    (verificationTimeout : Z) : result string State.t :=
  let! _ := State.validate state in
  if State.Phase state !=? PhaseStaged then Err "host self-update is not staged"
  else if GoTime.IsZero startedAt || (verificationTimeout <? 30 * GoTime.Second)%Z ||
    (30 * GoTime.Minute <? verificationTimeout)%Z
  then Err "host self-update activation clock is invalid"
  else Ok (state
    <| State.Phase := PhaseActivating |>
    <| State.ActivationStartedAt := GoTime.UTC startedAt |>
    <| State.ActivationDeadline := GoTime.Add (GoTime.UTC startedAt) verificationTimeout |>).

Definition beginHostSelfUpdateRollback (state : State.t) : State.t :=
  state <| State.Phase := PhaseRollingBack |>
        <| State.FailedGeneration := State.PendingGeneration state |>.

Definition clearPendingHostSelfUpdate (state : State.t) : State.t :=
  state
    <| State.PendingSlot := "" |> <| State.PendingGeneration := "" |>
    <| State.PendingAgentVersion := "" |> <| State.PendingExecutorVersion := "" |>
    <| State.PendingCommit := "" |> <| State.PendingArtifactSHA256 := "" |>
    <| State.PendingAgentSHA256 := "" |> <| State.PendingExecutorSHA256 := "" |>
    <| State.PendingAgentProtocol := 0%Z |> <| State.PendingExecutorProtocol := 0%Z |>
    <| State.PendingMutationProtocol := 0%Z |> <| State.PendingRecoveryProtocol := 0%Z |>
    <| State.PendingRelease := Release.zero |>
    <| State.ActivationStartedAt := GoTime.zero |> <| State.ActivationDeadline := GoTime.zero |>.

Definition commitHostSelfUpdate (state : State.t) : State.t :=
  let previousSlot := State.HealthySlot state in
  let previousAgent := State.ActiveAgentVersion state in
  let previousExecutor := State.ActiveExecutorVersion state in
  clearPendingHostSelfUpdate (state
    <| State.Phase := PhaseStable |>
    <| State.ActiveSlot := State.PendingSlot state |>
    <| State.HealthySlot := State.PendingSlot state |>
    <| State.RollbackSlot := previousSlot |>
    <| State.ActiveAgentVersion := State.PendingAgentVersion state |>
    <| State.ActiveExecutorVersion := State.PendingExecutorVersion state |>
    <| State.RollbackAgentVersion := previousAgent |>
    <| State.RollbackExecutorVersion := previousExecutor |>).

Definition clearRolledBackHostSelfUpdate (state : State.t) : State.t :=
  clearPendingHostSelfUpdate (state
    <| State.FailedGeneration := State.PendingGeneration state |>
    <| State.Phase := PhaseStable |>
    <| State.ActiveSlot := State.HealthySlot state |>
    <| State.RollbackSlot := "" |>
    <| State.RollbackAgentVersion := "" |>
    <| State.RollbackExecutorVersion := "" |>).

(** [heartbeatValid] and [probeValid] of the verification step. *)
Definition heartbeat_valid (state : State.t) (o : Observation.t) : bool :=
  (Observation.HeartbeatGeneration o ==? State.PendingGeneration state) &&
  (Observation.PanelHeartbeatVersion o ==? State.PendingAgentVersion state).

Definition probe_valid (state : State.t) (o : Observation.t) : bool :=
  (Observation.ExecutorProbeGeneration o ==? State.PendingGeneration state) &&
  Observation.ExecutorHealthy o &&
  (Observation.ExecutorVersion o ==? State.PendingExecutorVersion state) &&
  (Observation.ExecutorProtocol o ==? State.PendingExecutorProtocol state).

Definition reconcileHostSelfUpdateVerification (state : State.t) (o : Observation.t) :
    result string (State.t * string) :=
  if Observation.CurrentSlot o !=? State.PendingSlot state
  then Ok (beginHostSelfUpdateRollback state, ActionRestoreHealthy)
  else if (Observation.RunningAgentVersion o !=? "") &&
    (Observation.RunningAgentVersion o !=? State.PendingAgentVersion state)
  then Ok (beginHostSelfUpdateRollback state, ActionRestoreHealthy)
  else
    let heartbeatPresent := (Observation.HeartbeatGeneration o !=? "") ||
                            (Observation.PanelHeartbeatVersion o !=? "") in
    let heartbeatValid := heartbeat_valid state o in
    if heartbeatPresent && negb heartbeatValid
    then Ok (beginHostSelfUpdateRollback state, ActionRestoreHealthy)
    else
      let probePresent := (Observation.ExecutorProbeGeneration o !=? "") ||
                          (Observation.ExecutorFailureCode o !=? "") in
      let probeValid := probe_valid state o in
      if probePresent && negb probeValid
      then Ok (beginHostSelfUpdateRollback state, ActionRestoreHealthy)
      else if negb heartbeatValid then Ok (state, ActionAwaitProof)
      else if negb probeValid then Ok (state, ActionProbeExecutor)
      else Ok (commitHostSelfUpdate state, ActionCommit).

Definition ReconcileHostSelfUpdate (state : State.t) (o : Observation.t) :
    result string (State.t * string) :=
  let! _ := State.validate state in
  if negb (validHostSelfUpdateSlot (Observation.CurrentSlot o))
  then Err "observed current host slot is invalid"
  else
    let phase := State.Phase state in
    if phase ==? PhaseStable then
      if Observation.CurrentSlot o !=? State.ActiveSlot state
      then Ok (state, ActionRestoreHealthy)
      else Ok (state, ActionNone)
    else if phase ==? PhaseStaged then Ok (state, ActionNone)
    else if phase ==? PhaseActivating then
      if Observation.ExecutorFailureCode o !=? "" then
        let state := beginHostSelfUpdateRollback state in
        if Observation.CurrentSlot o ==? State.PendingSlot state
        then Ok (state, ActionRestoreHealthy)
        else if Observation.CurrentSlot o ==? State.HealthySlot state
        then Ok (state, ActionRestartHealthy)
        else Err "current slot is outside the failed activation transition"
      else if Observation.CurrentSlot o ==? State.HealthySlot state
      then Ok (state, ActionSwitchCurrent)
      else if Observation.CurrentSlot o ==? State.PendingSlot state then
        let state := state <| State.Phase := PhaseVerifying |> in
        if Observation.RunningAgentVersion o ==? "" then Ok (state, ActionRestartAgent)
        else reconcileHostSelfUpdateVerification state o
      else Err "current slot is outside the staged A/B transition"
    else if phase ==? PhaseVerifying then reconcileHostSelfUpdateVerification state o
    else if phase ==? PhaseRollingBack then
      if Observation.CurrentSlot o ==? State.PendingSlot state
      then Ok (state, ActionRestoreHealthy)
      else if Observation.CurrentSlot o !=? State.HealthySlot state
      then Err "current slot is outside the rollback transition"
      else if Observation.RunningAgentVersion o ==? "" then Ok (state, ActionRestartHealthy)
      else if (Observation.RunningAgentVersion o !=? State.ActiveAgentVersion state) ||
        negb (Observation.ExecutorHealthy o) ||
        (Observation.ExecutorVersion o !=? State.ActiveExecutorVersion state)
      then Ok (state, ActionRestartHealthy)
      else Ok (clearRolledBackHostSelfUpdate state, ActionRollbackComplete)
    else Err "host self-update phase is invalid".

(** * Well-formed states

    [wf] spells out what [validate] accepts, phase by phase. *)

Definition valid_slot (slot : string) : Prop := slot = HostSelfUpdateSlotA \/ slot = HostSelfUpdateSlotB.

Lemma validHostSelfUpdateSlot_spec slot : validHostSelfUpdateSlot slot = true <-> valid_slot slot.
Proof.
  unfold validHostSelfUpdateSlot, valid_slot. rewrite orb_true_iff, !bool_decide_eq_true. done.
Qed.

Lemma other_slot slot :
  valid_slot slot -> valid_slot (otherHostSelfUpdateSlot slot) /\ otherHostSelfUpdateSlot slot <> slot.
Proof. by intros [-> | ->]; split; [right| |left|]. Qed.

(** With two slots, differing from one valid slot determines the other. *)
Lemma slot_dichotomy a b c : valid_slot a -> valid_slot b -> valid_slot c -> a <> b -> c = a \/ c = b.
Proof. unfold valid_slot. intuition congruence. Qed.

Section WellFormed.
Variable s : State.t.

Definition wf_header : Prop :=
  State.SchemaVersion s = hostSelfUpdateStateSchemaVersion /\
  State.RecoveryProtocolVersion s = HostSelfUpdateRecoveryProtocolVersion /\
  valid_slot (State.ActiveSlot s) /\ valid_slot (State.HealthySlot s) /\
  re_match versionPattern (State.ActiveAgentVersion s) = true /\
  re_match versionPattern (State.ActiveExecutorVersion s) = true.

Definition wf_failed : Prop :=
  State.FailedGeneration s = "" \/ re_match identifierPattern (State.FailedGeneration s) = true.

Definition wf_pending : Prop :=
  Request.validate (State.pending_request s) = Ok tt /\
  SlotDigests.validate (State.pending_digests s) = Ok tt /\
  valid_slot (State.PendingSlot s) /\ State.PendingSlot s <> State.HealthySlot s.

Definition zero_clock : Prop :=
  GoTime.ns (State.ActivationStartedAt s) = 0%Z /\ GoTime.ns (State.ActivationDeadline s) = 0%Z.

Definition running_clock : Prop :=
  GoTime.ns (State.ActivationStartedAt s) <> 0%Z /\ GoTime.ns (State.ActivationDeadline s) <> 0%Z /\
  GoTime.utc (State.ActivationStartedAt s) = true /\ GoTime.utc (State.ActivationDeadline s) = true /\
  (30 * GoTime.Second <=
     GoTime.ns (State.ActivationDeadline s) - GoTime.ns (State.ActivationStartedAt s)
   <= 30 * GoTime.Minute)%Z.

Definition active_phase (phase : string) : Prop :=
  phase = PhaseActivating \/ phase = PhaseVerifying \/ phase = PhaseRollingBack.

Inductive wf_phase : Prop :=
| wf_stable :
    State.Phase s = PhaseStable -> State.ActiveSlot s = State.HealthySlot s ->
    State.PendingSlot s = "" -> State.PendingAgentSHA256 s = "" ->
    State.PendingExecutorSHA256 s = "" -> zero_clock -> wf_phase
| wf_staged : State.Phase s = PhaseStaged -> wf_pending -> zero_clock -> wf_phase
| wf_active : active_phase (State.Phase s) -> wf_pending -> running_clock -> wf_phase.

Definition wf : Prop := wf_header /\ wf_failed /\ wf_phase.
End WellFormed.

Lemma duration_small (x y : Z) :
  (Z.abs (x - y) <= max_int64 -> Z.max min_int64 (Z.min max_int64 (x - y)) = x - y)%Z.
Proof. unfold max_int64, min_int64. lia. Qed.

Lemma running_clock_spec s :
  (GoTime.IsZero (State.ActivationStartedAt s) || GoTime.IsZero (State.ActivationDeadline s) ||
   negb (GoTime.IsUTC (State.ActivationStartedAt s)) || negb (GoTime.IsUTC (State.ActivationDeadline s)) ||
   negb (GoTime.After (State.ActivationDeadline s) (State.ActivationStartedAt s))) = false /\
  ((GoTime.Sub (State.ActivationDeadline s) (State.ActivationStartedAt s) <? 30 * GoTime.Second)%Z ||
   (30 * GoTime.Minute <? GoTime.Sub (State.ActivationDeadline s) (State.ActivationStartedAt s))%Z) = false
  <-> running_clock s.
Proof.
  unfold running_clock, GoTime.IsZero, GoTime.IsUTC, GoTime.After, GoTime.Sub.
  rewrite !orb_false_iff, !negb_false_iff, !Z.eqb_neq, !Z.ltb_ge, Z.ltb_lt.
  unfold GoTime.Minute, GoTime.Second, min_int64, max_int64. intuition lia.
Qed.

Lemma zero_clock_spec s :
  (negb (GoTime.IsZero (State.ActivationStartedAt s)) ||
   negb (GoTime.IsZero (State.ActivationDeadline s))) = false <-> zero_clock s.
Proof.
  unfold zero_clock, GoTime.IsZero. rewrite orb_false_iff, !negb_false_iff, !Z.eqb_eq. done.
Qed.

Lemma check_ok (r : check) : is_err r = false <-> r = Ok tt.
Proof. rewrite is_err_false. apply is_ok_unit. Qed.

Lemma wf_header_spec s :
  ((State.SchemaVersion s !=? hostSelfUpdateStateSchemaVersion) ||
   (State.RecoveryProtocolVersion s !=? HostSelfUpdateRecoveryProtocolVersion) ||
   negb (validHostSelfUpdateSlot (State.ActiveSlot s)) ||
   negb (validHostSelfUpdateSlot (State.HealthySlot s)) ||
   negb (re_match versionPattern (State.ActiveAgentVersion s)) ||
   negb (re_match versionPattern (State.ActiveExecutorVersion s))) = false <-> wf_header s.
Proof.
  unfold wf_header.
  rewrite !orb_false_iff, !negb_false_iff, !bool_decide_eq_true, !validHostSelfUpdateSlot_spec. tauto.
Qed.

Lemma wf_failed_spec s :
  ((State.FailedGeneration s !=? "") &&
   (negb (re_match identifierPattern (State.FailedGeneration s)) ||
    (State.FailedGeneration s !=? TrimSpace (State.FailedGeneration s)))) = false <-> wf_failed s.
Proof.
  unfold wf_failed. rewrite andb_false_iff, orb_false_iff, !negb_false_iff, !bool_decide_eq_true.
  split; [tauto|]. intros [H|H]; [by left|right]. split; [done|].
  symmetry. eauto with go_db.
Qed.

Lemma wf_pending_spec s :
  (is_err (Request.validate (State.pending_request s)) ||
   is_err (SlotDigests.validate (State.pending_digests s)) ||
   negb (validHostSelfUpdateSlot (State.PendingSlot s)) ||
   (State.PendingSlot s ==? State.HealthySlot s)) = false <-> wf_pending s.
Proof.
  unfold wf_pending.
  rewrite !orb_false_iff, !check_ok, negb_false_iff, bool_decide_eq_false, validHostSelfUpdateSlot_spec.
  tauto.
Qed.

Lemma stable_guard_spec s :
  ((State.ActiveSlot s !=? State.HealthySlot s) || (State.PendingSlot s !=? "") ||
   (State.PendingAgentSHA256 s !=? "") || (State.PendingExecutorSHA256 s !=? "") ||
   negb (GoTime.IsZero (State.ActivationStartedAt s)) ||
   negb (GoTime.IsZero (State.ActivationDeadline s))) = false <->
  State.ActiveSlot s = State.HealthySlot s /\ State.PendingSlot s = "" /\
  State.PendingAgentSHA256 s = "" /\ State.PendingExecutorSHA256 s = "" /\ zero_clock s.
Proof.
  rewrite <- zero_clock_spec, !orb_false_iff, !(negb_false_iff (bool_decide _)), !bool_decide_eq_true.
  tauto.
Qed.

Lemma validate_wf s : State.validate s = Ok tt <-> wf s.
Proof.
  unfold State.validate, wf. split.
  - intros H. repeat ok_step H. apply wf_header_spec in E. apply wf_failed_spec in E0.
    split; [done|]. split; [done|].
    case_bool_decide as Hst.
    { ok_inv H. apply stable_guard_spec in E1. destruct_and!. by apply wf_stable. }
    ok_inv H. apply wf_pending_spec in E2. case_bool_decide as Hsg.
    { ok_inv H. apply wf_staged; [done..|]. by apply zero_clock_spec. }
    ok_inv H. apply wf_active; [|done|by apply running_clock_spec].
    unfold active_phase. bool_cases; first [congruence | tauto].
  - intros (Hh & Hf & Hp). apply wf_header_spec in Hh as ->. apply wf_failed_spec in Hf as ->.
    destruct Hp as [Hph Ha Hs Hd1 Hd2 Hz|Hph Hp Hz|Hph Hp Hc].
    + rewrite Hph. change (PhaseStable ==? PhaseStable) with true. cbv iota.
      by rewrite (proj2 (stable_guard_spec s)).
    + rewrite Hph, (proj2 (wf_pending_spec s) Hp), (proj2 (zero_clock_spec s) Hz). done.
    + apply running_clock_spec in Hc as [Hc1 Hc2].
      rewrite (proj2 (wf_pending_spec s) Hp), Hc1, Hc2.
      by destruct Hph as [-> | [-> | ->]].
Qed.

(** * Transitions preserve well-formedness *)

(** Two different phases of one state. *)
Ltac phase_contra :=
  unfold active_phase, PhaseStable, PhaseStaged, PhaseActivating, PhaseVerifying,
    PhaseRollingBack in *; intuition congruence.

Lemma Request_validate_inv r :
  Request.validate r = Ok tt ->
  re_match identifierPattern (Request.Generation r) = true /\
  re_match versionPattern (Request.AgentVersion r) = true /\
  re_match versionPattern (Request.ExecutorVersion r) = true.
Proof.
  unfold Request.validate. intros H. ok_inv H. bool_to_prop.
  repeat match goal with
  | E : ?x = TrimSpace ?x, H : context [TrimSpace ?x] |- _ => rewrite <- E in H; clear E
  end. done.
Qed.

Lemma stage_inv state request blockers digests state' :
  StageHostSelfUpdate state request blockers digests = Ok state' ->
  wf state /\ State.Phase state = PhaseStable /\ Blockers.mutationBlocked blockers = false /\
  Request.validate request = Ok tt /\ SlotDigests.validate digests = Ok tt /\
  ~ (Request.AgentVersion request = State.ActiveAgentVersion state /\
     Request.ExecutorVersion request = State.ActiveExecutorVersion state) /\
  Request.Generation request <> State.FailedGeneration state /\
  State.pending_request state' = request /\ State.pending_digests state' = digests /\
  State.Phase state' = PhaseStaged /\
  State.PendingSlot state' = otherHostSelfUpdateSlot (State.HealthySlot state).
Proof.
  unfold StageHostSelfUpdate. intros H. ok_inv H. injection H as <-.
  apply validate_wf in E.
  apply orb_false_iff in E0 as [E0 ?]. apply negb_false_iff, bool_decide_eq_true in E0.
  apply andb_false_iff in E3. rewrite !bool_decide_eq_false in E3.
  apply bool_decide_eq_false in E4. destruct request, digests. cbn in *.
  split_and!; try done. intros [? ?]. tauto.
Qed.

Lemma stage_wf state request blockers digests state' :
  StageHostSelfUpdate state request blockers digests = Ok state' -> wf state'.
Proof.
  intros H. pose proof (stage_inv _ _ _ _ _ H) as (Hwf & Hst & _ & Hr & Hd & _ & _ & Er & Ed & Hp & Hs).
  unfold StageHostSelfUpdate in H. ok_inv H. injection H as <-.
  destruct Hwf as (Hh & Hf & _). split; [exact Hh|]. split; [exact Hf|].
  apply wf_staged; [done| |done].
  destruct Hh as (_ & _ & _ & Hv & _). destruct (other_slot _ Hv).
  split; [by rewrite Er|]. split; [by rewrite Ed|]. done.
Qed.

Lemma begin_wf state startedAt timeout state' :
  BeginHostSelfUpdateActivation state startedAt timeout = Ok state' ->
  GoTime.IsZero (GoTime.Add startedAt timeout) = false -> wf state'.
Proof.
  unfold BeginHostSelfUpdateActivation. intros H Hz. ok_inv H. injection H as <-.
  apply validate_wf in E as (Hh & Hf & Hp). bool_to_prop.
  split; [exact Hh|]. split; [exact Hf|].
  apply wf_active; [by left| |].
  - destruct Hp as [Hp|_ Hp _|Hp]; [phase_contra|exact Hp|phase_contra].
  - unfold GoTime.IsZero in *. cbn in Hz.
    repeat match goal with E : (_ =? _)%Z = false |- _ => apply Z.eqb_neq in E end.
    unfold running_clock. cbn. repeat split; [done..|lia|lia].
Qed.

Lemma active_wf state phase :
  wf state -> active_phase (State.Phase state) -> active_phase phase ->
  wf (state <| State.Phase := phase |>).
Proof.
  intros (Hh & Hf & Hp) Hs Hph. split; [exact Hh|]. split; [exact Hf|].
  destruct Hp as [Hp|Hp|_ Hp Hc]; [phase_contra..|].
  by apply wf_active.
Qed.

Lemma pending_of_active state : wf state -> active_phase (State.Phase state) -> wf_pending state.
Proof.
  intros (_ & _ & Hp) Hs. destruct Hp as [Hp|_ Hp _|_ Hp _]; [|done..].
  phase_contra.
Qed.

Lemma rollback_wf state :
  wf state -> active_phase (State.Phase state) -> wf (beginHostSelfUpdateRollback state).
Proof.
  intros Hwf Hs. pose proof (pending_of_active _ Hwf Hs) as Hp.
  apply (active_wf _ PhaseRollingBack) in Hwf as (Hh & _ & Hph); [|done|by right; right].
  split; [exact Hh|]. split.
  - right. by apply (Request_validate_inv (State.pending_request state)), Hp.
  - destruct Hph as [Hq|Hq|_ _ Hc]; [discriminate Hq..|]. by apply wf_active; [right; right| |].
Qed.

Lemma commit_wf state :
  wf state -> active_phase (State.Phase state) -> wf (commitHostSelfUpdate state).
Proof.
  intros Hwf Hs. pose proof (pending_of_active _ Hwf Hs) as (Hr & _ & Hv & _).
  apply Request_validate_inv in Hr as (_ & Ha & He).
  destruct Hwf as ((H1 & H2 & _) & Hf & _). split; [done|]. split; [exact Hf|]. by apply wf_stable.
Qed.

Lemma clear_rolled_back_wf state :
  wf state -> State.Phase state <> PhaseStable -> wf (clearRolledBackHostSelfUpdate state).
Proof.
  intros (Hh & _ & Hp) Hs.
  assert (Hpend : wf_pending state) by (by destruct Hp).
  destruct Hpend as (Hr & _). apply Request_validate_inv in Hr as (Hg & _).
  destruct Hh as (H1 & H2 & _ & H4 & H5). split; [done|]. split; [by right|]. by apply wf_stable.
Qed.

(** * The transition system

    The steps the runtime takes on the durable state: staging, beginning an
    activation, reconciling an observation, abandoning a staged slot whose
    verification failed ([failStagedHostSelfUpdate]) or a rollback the watchdog
    finished ([recoverExpiredHostSelfUpdate]), the rollback fence that
    [activate], [reconcile] and the watchdog write, and the failure of a
    generation whose grant was left uncertain ([failClosedUncertainStage],
    [recoverDurableHostSelfUpdateGrant]).  Clocks are after the zero time. *)

Inductive step : State.t -> State.t -> Prop :=
| step_stage s request blockers digests s' :
    StageHostSelfUpdate s request blockers digests = Ok s' -> step s s'
| step_begin s startedAt timeout s' :
    (0 < GoTime.ns startedAt)%Z ->
    BeginHostSelfUpdateActivation s startedAt timeout = Ok s' -> step s s'
| step_reconcile s o s' action :
    ReconcileHostSelfUpdate s o = Ok (s', action) -> step s s'
| step_abandon s :
    State.validate s = Ok tt -> State.Phase s = PhaseStaged \/ State.Phase s = PhaseRollingBack ->
    step s (clearRolledBackHostSelfUpdate s)
| step_fence s :
    State.validate s = Ok tt -> State.Phase s = PhaseActivating \/ State.Phase s = PhaseVerifying ->
    step s (beginHostSelfUpdateRollback s)
| step_uncertain s generation :
    State.validate s = Ok tt -> State.Phase s = PhaseStable ->
    re_match identifierPattern generation = true ->
    step s (s <| State.FailedGeneration := generation |>).

Lemma begin_timeout state startedAt timeout state' :
  BeginHostSelfUpdateActivation state startedAt timeout = Ok state' -> (0 <= timeout)%Z.
Proof.
  unfold BeginHostSelfUpdateActivation. intros H. ok_inv H. bool_to_prop.
  unfold GoTime.Second in *. lia.
Qed.

(** What one verification can do: keep waiting, fence a rollback, or commit. *)
Variant verification (s : State.t) (o : Observation.t) : State.t -> string -> Prop :=
| ver_rollback : verification s o (beginHostSelfUpdateRollback s) ActionRestoreHealthy
| ver_wait action :
    action = ActionAwaitProof \/ action = ActionProbeExecutor -> verification s o s action
| ver_commit :
    Observation.CurrentSlot o = State.PendingSlot s ->
    (Observation.RunningAgentVersion o = "" \/
     Observation.RunningAgentVersion o = State.PendingAgentVersion s) ->
    heartbeat_valid s o = true -> probe_valid s o = true ->
    verification s o (commitHostSelfUpdate s) ActionCommit.

Lemma verification_spec s o :
  exists s' action,
    reconcileHostSelfUpdateVerification s o = Ok (s', action) /\ verification s o s' action.
Proof.
  unfold reconcileHostSelfUpdateVerification. cbv zeta.
  destruct (bool_decide (Observation.CurrentSlot o = _)) eqn:E1; cbn [negb];
    [|do 2 eexists; split; [done|constructor]].
  destruct (_ && _) eqn:E2; [do 2 eexists; split; [done|constructor]|].
  destruct (_ && negb (heartbeat_valid _ _)); [do 2 eexists; split; [done|constructor]|].
  destruct (_ && negb (probe_valid _ _)); [do 2 eexists; split; [done|constructor]|].
  destruct (heartbeat_valid s o) eqn:E3; cbn [negb];
    [|do 2 eexists; split; [done|constructor; auto]].
  destruct (probe_valid s o) eqn:E4; cbn [negb];
    [|do 2 eexists; split; [done|constructor; auto]].
  do 2 eexists. split; [done|]. bool_to_prop. constructor; try done.
  apply andb_false_iff in E2. rewrite !negb_false_iff, !bool_decide_eq_true in E2. done.
Qed.

(** What one reconciliation of a valid state with a valid slot can do. *)
Variant reconciliation (s : State.t) (o : Observation.t) : State.t -> string -> Prop :=
| rec_idle : State.Phase s = PhaseStaged \/
    State.Phase s = PhaseStable /\ Observation.CurrentSlot o = State.ActiveSlot s ->
    reconciliation s o s ActionNone
| rec_repair : State.Phase s = PhaseStable -> Observation.CurrentSlot o <> State.ActiveSlot s ->
    reconciliation s o s ActionRestoreHealthy
| rec_switch : State.Phase s = PhaseActivating -> Observation.ExecutorFailureCode o = "" ->
    Observation.CurrentSlot o = State.HealthySlot s ->
    reconciliation s o s ActionSwitchCurrent
| rec_fail action : State.Phase s = PhaseActivating -> Observation.ExecutorFailureCode o <> "" ->
    action = ActionRestoreHealthy /\ Observation.CurrentSlot o = State.PendingSlot s \/
    action = ActionRestartHealthy /\ Observation.CurrentSlot o = State.HealthySlot s ->
    reconciliation s o (beginHostSelfUpdateRollback s) action
| rec_restart : State.Phase s = PhaseActivating -> Observation.ExecutorFailureCode o = "" ->
    Observation.CurrentSlot o = State.PendingSlot s -> Observation.RunningAgentVersion o = "" ->
    reconciliation s o (s <| State.Phase := PhaseVerifying |>) ActionRestartAgent
| rec_verify s' action :
    State.Phase s = PhaseVerifying \/
    State.Phase s = PhaseActivating /\ Observation.ExecutorFailureCode o = "" /\
      Observation.CurrentSlot o = State.PendingSlot s /\ Observation.RunningAgentVersion o <> "" ->
    verification (s <| State.Phase := PhaseVerifying |>) o s' action ->
    reconciliation s o s' action
| rec_restore : State.Phase s = PhaseRollingBack -> Observation.CurrentSlot o = State.PendingSlot s ->
    reconciliation s o s ActionRestoreHealthy
| rec_restart_healthy : State.Phase s = PhaseRollingBack ->
    Observation.CurrentSlot o = State.HealthySlot s -> reconciliation s o s ActionRestartHealthy
| rec_complete : State.Phase s = PhaseRollingBack ->
    Observation.CurrentSlot o = State.HealthySlot s ->
    Observation.RunningAgentVersion o = State.ActiveAgentVersion s ->
    Observation.ExecutorHealthy o = true ->
    Observation.ExecutorVersion o = State.ActiveExecutorVersion s ->
    reconciliation s o (clearRolledBackHostSelfUpdate s) ActionRollbackComplete.

Lemma phase_verifying_id s : State.Phase s = PhaseVerifying -> s <| State.Phase := PhaseVerifying |> = s.
Proof. intros <-. by destruct s. Qed.

Lemma current_dichotomy s o :
  wf_pending s -> wf_header s -> valid_slot (Observation.CurrentSlot o) ->
  Observation.CurrentSlot o = State.PendingSlot s \/ Observation.CurrentSlot o = State.HealthySlot s.
Proof. intros (_ & _ & Hp & Hne) (_ & _ & _ & Hh & _) Ho. eauto using slot_dichotomy. Qed.

Ltac branch := do 2 eexists; split; [reflexivity|].

Lemma reconcile_activating s o :
  wf s -> valid_slot (Observation.CurrentSlot o) -> State.Phase s = PhaseActivating ->
  exists s' action, ReconcileHostSelfUpdate s o = Ok (s', action) /\ reconciliation s o s' action.
Proof.
  intros Hwf Ho Hp. pose proof (pending_of_active s Hwf ltac:(by left)) as Hpend.
  pose proof (current_dichotomy s o Hpend (proj1 Hwf) Ho) as Hc.
  unfold ReconcileHostSelfUpdate. rewrite (proj2 (validate_wf s) Hwf). cbn [bind_res].
  rewrite (proj2 (validHostSelfUpdateSlot_spec _) Ho), Hp. simpl negb. cbv iota zeta.
  change (PhaseActivating ==? PhaseStable) with false. change (PhaseActivating ==? PhaseStaged) with false.
  change (PhaseActivating ==? PhaseActivating) with true. cbv iota.
  destruct (bool_decide (Observation.ExecutorFailureCode o = "")) eqn:Ef; cbn [negb]; bool_to_prop.
  - destruct Hc as [Hc|Hc]; rewrite Hc.
    + rewrite (bool_decide_eq_false_2 (_ = State.HealthySlot s)) by apply Hpend.
      rewrite bool_decide_eq_true_2 by done.
      destruct (bool_decide (Observation.RunningAgentVersion o = "")) eqn:Er; bool_to_prop.
      * branch. by apply rec_restart.
      * destruct (verification_spec (s <| State.Phase := PhaseVerifying |>) o) as (s' & a & -> & Hv).
        branch. apply rec_verify; [|done]. by right.
    + rewrite bool_decide_eq_true_2 by done. branch. by apply rec_switch.
  - cbn. destruct Hc as [Hc|Hc]; rewrite Hc.
    + rewrite bool_decide_eq_true_2 by done. branch. apply rec_fail; auto.
    + rewrite (bool_decide_eq_false_2 (_ = State.PendingSlot s)) by (intros E; symmetry in E; by apply Hpend in E).
      rewrite bool_decide_eq_true_2 by done. branch. apply rec_fail; auto.
Qed.

Lemma reconcile_rolling_back s o :
  wf s -> valid_slot (Observation.CurrentSlot o) -> State.Phase s = PhaseRollingBack ->
  exists s' action, ReconcileHostSelfUpdate s o = Ok (s', action) /\ reconciliation s o s' action.
Proof.
  intros Hwf Ho Hp. pose proof (pending_of_active s Hwf ltac:(by right; right)) as Hpend.
  pose proof (current_dichotomy s o Hpend (proj1 Hwf) Ho) as Hc.
  unfold ReconcileHostSelfUpdate. rewrite (proj2 (validate_wf s) Hwf). cbn [bind_res].
  rewrite (proj2 (validHostSelfUpdateSlot_spec _) Ho), Hp. simpl negb. cbv iota zeta.
  change (PhaseRollingBack ==? PhaseStable) with false. change (PhaseRollingBack ==? PhaseStaged) with false.
  change (PhaseRollingBack ==? PhaseActivating) with false. change (PhaseRollingBack ==? PhaseVerifying) with false.
  change (PhaseRollingBack ==? PhaseRollingBack) with true. cbv iota.
  destruct Hc as [Hc|Hc]; rewrite Hc.
  - rewrite bool_decide_eq_true_2 by done. branch. by apply rec_restore.
  - rewrite (bool_decide_eq_false_2 (_ = State.PendingSlot s)) by (intros E; symmetry in E; by apply Hpend in E).
    rewrite (bool_decide_eq_true_2 (_ = State.HealthySlot s)) by done. cbn [negb].
    destruct (bool_decide _); [branch; by apply rec_restart_healthy|].
    destruct (_ || _) eqn:E; [branch; by apply rec_restart_healthy|].
    bool_to_prop. branch. by apply rec_complete.
Qed.

Lemma reconcile_spec s o :
  wf s -> valid_slot (Observation.CurrentSlot o) ->
  exists s' action, ReconcileHostSelfUpdate s o = Ok (s', action) /\ reconciliation s o s' action.
Proof.
  intros Hwf Ho.
  assert (Hph : State.Phase s = PhaseStable \/ State.Phase s = PhaseStaged \/ active_phase (State.Phase s))
    by (destruct Hwf as (_ & _ & [?|?|?]); auto).
  destruct Hph as [Hp|[Hp|[Hp|[Hp|Hp]]]];
    [| |by apply reconcile_activating| |by apply reconcile_rolling_back];
    unfold ReconcileHostSelfUpdate; rewrite (proj2 (validate_wf s) Hwf); cbn [bind_res];
    rewrite (proj2 (validHostSelfUpdateSlot_spec _) Ho), Hp; cbv zeta.
  - change (PhaseStable ==? PhaseStable) with true. cbn [negb].
    destruct (bool_decide _) eqn:E; bool_to_prop; branch; [apply rec_idle; auto|by apply rec_repair].
  - branch. apply rec_idle. by left.
  - destruct (verification_spec s o) as (s' & a & E & Hv). exists s', a.
    split; [exact E|]. apply rec_verify; [by left|]. by rewrite phase_verifying_id.
Qed.

Lemma reconcile_inv s o s' action :
  ReconcileHostSelfUpdate s o = Ok (s', action) ->
  wf s /\ valid_slot (Observation.CurrentSlot o) /\ reconciliation s o s' action.
Proof.
  intros H.
  assert (Hs : wf s /\ valid_slot (Observation.CurrentSlot o)).
  { unfold ReconcileHostSelfUpdate in H.
    destruct (State.validate s) as [[]|] eqn:E; [|done]. cbn [bind_res] in H.
    destruct (validHostSelfUpdateSlot _) eqn:E'; [|done].
    by rewrite <- validate_wf, <- validHostSelfUpdateSlot_spec. }
  destruct Hs as [Hwf Ho]. destruct (reconcile_spec s o Hwf Ho) as (t & a & E & Hr).
  rewrite E in H. injection H as -> ->. done.
Qed.

Lemma verification_wf s o s' action :
  wf s -> active_phase (State.Phase s) -> verification s o s' action -> wf s'.
Proof. intros Hwf Hp []; auto using rollback_wf, commit_wf. Qed.

Lemma reconciliation_wf s o s' action : wf s -> reconciliation s o s' action -> wf s'.
Proof.
  intros Hwf [| | |a Hp _ _|Hp|t a Hp Hv| | |Hp]; try done.
  - apply rollback_wf; [done|by left].
  - apply active_wf; [done|by left|by right; left].
  - refine (verification_wf _ _ _ _ _ _ Hv); [|by right; left].
    apply active_wf; [done| |by right; left]. unfold active_phase. tauto.
  - apply clear_rolled_back_wf; [done|]. phase_contra.
Qed.

Lemma mark_failed_wf s generation :
  wf s -> State.Phase s = PhaseStable -> re_match identifierPattern generation = true ->
  wf (s <| State.FailedGeneration := generation |>).
Proof.
  intros (Hh & _ & Hp) Hs Hg. split; [exact Hh|]. split; [by right|].
  destruct Hp as [? ? ? ? ? ?|Hx|Hx]; [by apply wf_stable|phase_contra..].
Qed.

Lemma step_wf s s' : step s s' -> wf s'.
Proof.
  intros [?? ? ? ? H|? ? ? ? Ht H|? ? ? ? H|? Hv Hp|? Hv Hp|? g Hv Hp Hg].
  - by eapply stage_wf.
  - eapply begin_wf; [exact H|]. apply begin_timeout in H. unfold GoTime.IsZero.
    apply Z.eqb_neq. cbn. lia.
  - apply reconcile_inv in H as (Hwf & _ & Hr). by eapply reconciliation_wf.
  - apply clear_rolled_back_wf; [by apply validate_wf|]. phase_contra.
  - apply rollback_wf; [by apply validate_wf|]. unfold active_phase. tauto.
  - apply mark_failed_wf; [by apply validate_wf|done..].
Qed.

(** * Properties *)

(** The states of a runtime installed with the given versions. *)
Definition reachable (s : State.t) : Prop :=
  exists agentVersion executorVersion s0,
    NewHostSelfUpdateState agentVersion executorVersion = Ok s0 /\ rtc step s0 s.

Lemma new_state_wf agentVersion executorVersion s :
  NewHostSelfUpdateState agentVersion executorVersion = Ok s -> wf s.
Proof.
  unfold NewHostSelfUpdateState. intros H. ok_inv H. injection H as <-. bool_to_prop.
  split; [|split; [by left|by apply wf_stable]]. by repeat split; try done; left.
Qed.

Lemma new_state_stable agentVersion executorVersion s :
  NewHostSelfUpdateState agentVersion executorVersion = Ok s -> State.Phase s = PhaseStable.
Proof. unfold NewHostSelfUpdateState. intros H. ok_inv H. by injection H as <-. Qed.

(** Rule induction over the reachable states, with well-formedness at hand. *)
Lemma reachable_ind' (I : State.t -> Prop) :
  (forall s, wf s -> State.Phase s = PhaseStable -> I s) ->
  (forall s s', wf s -> I s -> step s s' -> I s') ->
  forall s, reachable s -> wf s /\ I s.
Proof.
  intros H0 Hstep s (a & e & s0 & Hnew & Hsteps).
  assert (Hinit : wf s0 /\ I s0) by (split; eauto using new_state_wf, new_state_stable).
  clear Hnew. induction Hsteps as [s|x y z Hxy _ IH]; [done|]. apply IH.
  destruct Hinit as [Hwf HI]. split; eauto using step_wf.
Qed.

Lemma reachable_wf s : reachable s -> wf s.
Proof. intros H. by apply (reachable_ind' (fun _ => True)) in H as [? _]. Qed.

(** Which steps touch the slots and the active versions. *)
Lemma step_slots s s' :
  step s s' ->
  (State.HealthySlot s' = State.HealthySlot s /\
   State.ActiveAgentVersion s' = State.ActiveAgentVersion s /\
   State.ActiveExecutorVersion s' = State.ActiveExecutorVersion s) \/
  (exists o, ReconcileHostSelfUpdate s o = Ok (s', ActionCommit)).
Proof.
  intros [?? ? ? ? H|? ? ? ? Ht H|? o ? action H|? Hv Hp|? Hv Hp|]; try (by left).
  - left. unfold StageHostSelfUpdate in H. ok_inv H. by injection H as <-.
  - left. unfold BeginHostSelfUpdateActivation in H. ok_inv H. by injection H as <-.
  - pose proof (reconcile_inv _ _ _ _ H) as (_ & _ & Hr).
    destruct Hr as [| | | | |t a Hp Hv| | |]; try (by left).
    destruct Hv as [|a|]; [by left..|]. right. eauto.
Qed.

Lemma reconcile_commit_inv s o s' :
  ReconcileHostSelfUpdate s o = Ok (s', ActionCommit) ->
  wf s /\ (State.Phase s = PhaseActivating \/ State.Phase s = PhaseVerifying) /\
  Observation.CurrentSlot o = State.PendingSlot s /\
  (Observation.RunningAgentVersion o = "" \/
   Observation.RunningAgentVersion o = State.PendingAgentVersion s) /\
  heartbeat_valid s o = true /\ probe_valid s o = true /\ s' = commitHostSelfUpdate s.
Proof.
  intros H. apply reconcile_inv in H as (Hwf & _ & Hr).
  inversion Hr as [| | |? ? ? Hx| |t a Hp Hv| | |]; subst; [by destruct Hx as [[??]|[??]]|].
  inversion Hv as [|a Ha|H1 H2 H3 H4]; subst; [by destruct Ha|].
  split; [done|]. split; [tauto|]. done.
Qed.

(** C3.  Every state the runtime can reach from installation passes the
    validation every operation starts with: staging, activation, every outcome
    of a reconciliation, failed staging and rollback fences keep the durable
    record well formed. *)
Theorem reachable_states_validate s : reachable s -> State.validate s = Ok tt.
Proof. intros H. apply validate_wf. by apply reachable_wf. Qed.

(** C4.  Reconciliation never gets stuck: on a valid state and an observed slot
    that is one of the two slots it always returns a next state, which is valid
    again, and an action; the three errors for a current slot outside the
    transition and the error for an unknown phase are unreachable. *)
Theorem reconcile_total s o :
  State.validate s = Ok tt -> validHostSelfUpdateSlot (Observation.CurrentSlot o) = true ->
  exists s' action,
    ReconcileHostSelfUpdate s o = Ok (s', action) /\ State.validate s' = Ok tt.
Proof.
  rewrite validate_wf, validHostSelfUpdateSlot_spec. intros Hwf Ho.
  destruct (reconcile_spec s o Hwf Ho) as (s' & a & E & Hr). exists s', a.
  split; [done|]. apply validate_wf. by eapply reconciliation_wf.
Qed.

(** An update is committed only with the whole proof: the current link
    points at the pending slot, the Panel heartbeat carries the pending
    generation and the pending Agent version, the Executor probe is healthy and
    carries the pending generation, version and protocol, and the running Agent,
    if reported, is the pending one.  The committed state is stable on the
    pending slot with the pending versions active, and remembers the previous
    slot and versions as the rollback target. *)
Theorem commit_requires_full_proof s o s' :
  ReconcileHostSelfUpdate s o = Ok (s', ActionCommit) ->
  (State.Phase s = PhaseActivating \/ State.Phase s = PhaseVerifying) /\
  Observation.CurrentSlot o = State.PendingSlot s /\
  (Observation.RunningAgentVersion o = "" \/
   Observation.RunningAgentVersion o = State.PendingAgentVersion s) /\
  Observation.HeartbeatGeneration o = State.PendingGeneration s /\
  Observation.PanelHeartbeatVersion o = State.PendingAgentVersion s /\
  Observation.ExecutorProbeGeneration o = State.PendingGeneration s /\
  Observation.ExecutorHealthy o = true /\
  Observation.ExecutorVersion o = State.PendingExecutorVersion s /\
  Observation.ExecutorProtocol o = State.PendingExecutorProtocol s /\
  State.Phase s' = PhaseStable /\
  State.ActiveSlot s' = State.PendingSlot s /\ State.HealthySlot s' = State.PendingSlot s /\
  State.RollbackSlot s' = State.HealthySlot s /\
  State.ActiveAgentVersion s' = State.PendingAgentVersion s /\
  State.ActiveExecutorVersion s' = State.PendingExecutorVersion s /\
  State.RollbackAgentVersion s' = State.ActiveAgentVersion s /\
  State.RollbackExecutorVersion s' = State.ActiveExecutorVersion s.
Proof.
  intros H. apply reconcile_commit_inv in H as (_ & Hp & Hc & Hv & Hh & Hpr & ->).
  unfold heartbeat_valid, probe_valid in *. bool_to_prop. by repeat split.
Qed.

(** The healthy slot and the versions installed in it change only by a
    commit: no staging, activation, failed verification or rollback moves what
    the host falls back to. *)
Theorem healthy_changes_only_by_commit s s' :
  step s s' ->
  (State.HealthySlot s', State.ActiveAgentVersion s', State.ActiveExecutorVersion s') <>
  (State.HealthySlot s, State.ActiveAgentVersion s, State.ActiveExecutorVersion s) ->
  exists o, ReconcileHostSelfUpdate s o = Ok (s', ActionCommit).
Proof.
  intros H Hne. destruct (step_slots s s' H) as [(E1 & E2 & E3)|Hc]; [|done].
  by rewrite E1, E2, E3 in Hne.
Qed.

(** A rollback that has been fenced is final: the only steps from
    [rolling_back] keep the record as it is or complete the rollback, which
    returns to the healthy slot with its versions unchanged and records the
    generation as failed. *)
Theorem rollback_is_final s s' :
  step s s' -> State.Phase s = PhaseRollingBack ->
  s' = s \/
  (State.Phase s' = PhaseStable /\
   State.ActiveSlot s' = State.HealthySlot s /\ State.HealthySlot s' = State.HealthySlot s /\
   State.ActiveAgentVersion s' = State.ActiveAgentVersion s /\
   State.ActiveExecutorVersion s' = State.ActiveExecutorVersion s /\
   State.FailedGeneration s' = State.PendingGeneration s /\
   State.PendingSlot s' = "" /\ State.PendingGeneration s' = "").
Proof.
  intros H Hp. destruct H as [?? ? ? ? H|? ? ? ? Ht H|? o ? action H|? Hv Hs|? Hv Hs|? g Hv Hs].
  - apply stage_inv in H as (_ & Hs & _). phase_contra.
  - unfold BeginHostSelfUpdateActivation in H. ok_inv H. bool_to_prop. phase_contra.
  - apply reconcile_inv in H as (_ & _ & Hr). destruct Hr; try (by left); phase_contra.
  - by right.
  - phase_contra.
  - phase_contra.
Qed.

(** The generation being tried is not the one that last failed, until it fails. *)
Definition generation_fence (s : State.t) : Prop :=
  (State.Phase s = PhaseStaged \/ State.Phase s = PhaseActivating \/ State.Phase s = PhaseVerifying ->
   State.PendingGeneration s <> State.FailedGeneration s) /\
  (State.Phase s = PhaseRollingBack -> State.FailedGeneration s = State.PendingGeneration s).

Lemma generation_fence_stable s : State.Phase s = PhaseStable -> generation_fence s.
Proof. intros Hp. split; intros H; phase_contra. Qed.

Lemma generation_fence_rolling_back s :
  State.Phase s = PhaseRollingBack -> State.FailedGeneration s = State.PendingGeneration s ->
  generation_fence s.
Proof. intros Hp E. split; intros H; [phase_contra|done]. Qed.

Lemma generation_fence_verifying s :
  State.Phase s = PhaseActivating \/ State.Phase s = PhaseVerifying ->
  generation_fence s -> generation_fence (s <| State.Phase := PhaseVerifying |>).
Proof. intros Hp [H _]. split; [|done]. intros _. apply H. tauto. Qed.

Lemma step_generation_fence s s' : wf s -> generation_fence s -> step s s' -> generation_fence s'.
Proof.
  intros Hwf HI Hs. destruct Hs as [?? ? ? ? H|? ? ? ? Ht H|? o ? action H|? Hv Hp|? Hv Hp|? g Hv Hp].
  - pose proof (stage_inv _ _ _ _ _ H) as (_ & _ & _ & _ & _ & _ & Hg & _ & _ & Hp & _).
    unfold StageHostSelfUpdate in H. ok_inv H. injection H as <-. by split.
  - unfold BeginHostSelfUpdateActivation in H. ok_inv H. injection H as <-. bool_to_prop.
    split; [|done]. intros _. apply HI. tauto.
  - apply reconcile_inv in H as (_ & _ & Hr).
    destruct Hr as [| | | |Hp|t a Hp Hv| | |]; try done.
    + by apply generation_fence_rolling_back.
    + apply generation_fence_verifying; [by left|done].
    + assert (Hver : generation_fence (s <| State.Phase := PhaseVerifying |>))
        by (apply generation_fence_verifying; [tauto|done]).
      destruct Hv; [by apply generation_fence_rolling_back|done|by apply generation_fence_stable].
    + by apply generation_fence_stable.
  - by apply generation_fence_stable.
  - by apply generation_fence_rolling_back.
  - by apply generation_fence_stable.
Qed.

(** A generation that failed is not tried again: in every reachable state
    the generation being staged, activated or verified differs from the recorded
    failed generation, a rollback always has its own generation recorded as
    failed, and staging a request for the recorded generation is refused. *)
Theorem failed_generation_is_fenced s request blockers digests :
  reachable s ->
  (State.Phase s = PhaseStaged \/ State.Phase s = PhaseActivating \/ State.Phase s = PhaseVerifying ->
   State.PendingGeneration s <> State.FailedGeneration s) /\
  (State.Phase s = PhaseRollingBack -> State.FailedGeneration s = State.PendingGeneration s) /\
  (Request.Generation request = State.FailedGeneration s ->
   is_err (StageHostSelfUpdate s request blockers digests) = true).
Proof.
  intros H. apply (reachable_ind' generation_fence) in H as [_ [H1 H2]];
    [|auto using generation_fence_stable|eauto using step_generation_fence].
  split; [done|]. split; [done|]. intros Hg.
  destruct (StageHostSelfUpdate _ _ _ _) as [s'|e] eqn:E; [|done].
  apply stage_inv in E as (_ & _ & _ & _ & _ & _ & Hne & _). by rewrite Hg in Hne.
Qed.

(** ** A concrete update, for the witnesses *)
Module Demo.
Definition hex64 : string := "0123456789abcdef0123456789abcdef0123456789abcdef0123456789abcdef".
Definition release : Release.t :=
  Release.mk "v2.1.0" "0123456789abcdef0123456789abcdef01234567" (GoTime.mk 5 true)
    1 hostAgentManifestName hex64 2 hex64 3 (hostAgentReleaseAssetName "v2.1.0" "amd64") 1000 hex64
    4 hex64 "amd64" 2 2 2 2 "v2.0.0".
Definition request : Request.t :=
  Request.mk "generation-1" "v2.1.0" "v2.1.0" "0123456789abcdef0123456789abcdef01234567"
    ("sha256:" +:+ hex64) 2 2 2 2 release.
Definition no_blockers : Blockers.t := Blockers.mk false false false false false false.
Definition digests : SlotDigests.t := SlotDigests.mk hex64 hex64.
Definition get (r : result string State.t) : State.t :=
  match r with Ok s => s | Err _ => State.mk 0 0 "" "" "" "" "" "" "" "" "" "" "" "" "" "" "" "" "" 0 0 0 0
    Release.zero GoTime.zero GoTime.zero end.
Definition initial : State.t := Eval vm_compute in get (NewHostSelfUpdateState "v2.0.0" "v2.0.0").
Definition staged : State.t := Eval vm_compute in get (StageHostSelfUpdate initial request no_blockers digests).
Definition activating : State.t :=
  Eval vm_compute in get (BeginHostSelfUpdateActivation staged (GoTime.mk 1000 true) (60 * GoTime.Second)).
Definition proof : Observation.t :=
  Observation.mk "b" "v2.1.0" "v2.1.0" "generation-1" "v2.1.0" 2 true "generation-1" "".
Definition timeout : Observation.t :=
  Observation.mk "b" "v2.1.0" "" "" "v2.1.0" 2 false "generation-1" "verification_timeout".
Definition rolling_back : State.t := Eval vm_compute in beginHostSelfUpdateRollback activating.
Definition healthy : Observation.t :=
  Observation.mk "a" "v2.0.0" "" "" "v2.0.0" 2 true "generation-1" "".

Lemma reachable_activating : reachable activating.
Proof.
  exists "v2.0.0", "v2.0.0", initial. split; [vm_compute; reflexivity|].
  eapply rtc_l; [eapply (step_stage initial request no_blockers digests staged); vm_compute; reflexivity|].
  eapply rtc_once, (step_begin staged (GoTime.mk 1000 true) (60 * GoTime.Second) activating);
    vm_compute; reflexivity.
Defined.
End Demo.

Lemma reachable_states_validate_witness : State.validate Demo.activating = Ok tt.
Proof. apply (reachable_states_validate Demo.activating), Demo.reachable_activating. Defined.

Lemma reconcile_total_witness :
  exists s' action, ReconcileHostSelfUpdate Demo.activating Demo.timeout = Ok (s', action) /\
    State.validate s' = Ok tt.
Proof. apply (reconcile_total Demo.activating Demo.timeout); vm_compute; reflexivity. Defined.

Lemma commit_requires_full_proof_witness :
  ReconcileHostSelfUpdate Demo.activating Demo.proof =
    Ok (commitHostSelfUpdate Demo.activating, ActionCommit) /\
  State.HealthySlot (commitHostSelfUpdate Demo.activating) = "b".
Proof.
  assert (E : ReconcileHostSelfUpdate Demo.activating Demo.proof =
    Ok (commitHostSelfUpdate Demo.activating, ActionCommit)) by (vm_compute; reflexivity).
  split; [exact E|].
  exact (eq_trans (proj1 (proj2 (proj2 (proj2 (proj2 (proj2 (proj2 (proj2 (proj2 (proj2 (proj2
    (proj2 (commit_requires_full_proof Demo.activating Demo.proof _ E))))))))))))) eq_refl).
Defined.

Lemma healthy_changes_only_by_commit_witness :
  exists o, ReconcileHostSelfUpdate Demo.activating o =
    Ok (commitHostSelfUpdate Demo.activating, ActionCommit).
Proof.
  apply (healthy_changes_only_by_commit Demo.activating).
  - apply (step_reconcile Demo.activating Demo.proof _ ActionCommit). vm_compute. reflexivity.
  - vm_compute. discriminate.
Defined.

Lemma rollback_is_final_witness :
  step Demo.rolling_back (clearRolledBackHostSelfUpdate Demo.rolling_back) /\
  State.FailedGeneration (clearRolledBackHostSelfUpdate Demo.rolling_back) = "generation-1".
Proof.
  assert (S : step Demo.rolling_back (clearRolledBackHostSelfUpdate Demo.rolling_back)).
  { apply (step_reconcile _ Demo.healthy _ ActionRollbackComplete). vm_compute. reflexivity. }
  split; [exact S|]. apply rollback_is_final in S as [S|S]; [discriminate S|by apply S|reflexivity].
Defined.

Lemma failed_generation_is_fenced_witness :
  State.PendingGeneration Demo.activating <> State.FailedGeneration Demo.activating.
Proof.
  apply (failed_generation_is_fenced Demo.activating Demo.request Demo.no_blockers Demo.digests).
  - exact Demo.reachable_activating.
  - right. left. reflexivity.
Defined.
