(* ===== verification/SelfUpdateGrant.v ===== *)
(** The one-time grants that authorize a host self-update
    ([host_self_update_grant.go], [host_self_update_grant_consume.go],
    [host_self_update_grant_binding.go], [host_self_update_grant_panel.go]): the
    grant binding and its receipt, the durable grant record, the plan digest, and
    the checks that tie a grant to an operation, a policy and a release. *)
From Stdlib Require Import Ascii String ZArith Lia.
From stdpp Require Import base decidable list strings.
From S2P Require Import Prelude Strings Regexp Patterns Semver Sha256 Json SelfUpdateState.

Open Scope string_scope.

Definition GrantPhasePrepared : string := "prepared".
Definition GrantPhaseConsumed : string := "consumed".
Definition GrantPhaseApplied : string := "applied".
Definition GrantPhaseFailed : string := "failed".
Definition hostSelfUpdateGrantStateSchemaVersion : Z := 1.
Definition LocalExecutorMutationProtocolVersion : Z := 2.
Definition LocalExecutorMutationPolicySchemaVersion : Z := 2.

(** [HostSelfUpdateGrantBinding]. *)
Module Binding.
Record t := mk {
  ID : string;
  SelfUpdateID : string;
  AttemptGeneration : string;
  Operation : string;
  ExecutionHostID : string;
  AgentServiceID : string;
  ExpectedSelfUpdateRevision : Z;
  ExpectedOwnershipEpoch : Z;
  ExpectedSourcePolicyRevision : Z;
  ExpectedProjectionRevision : Z;
  ExpectedLocalExecutorPolicyRevision : Z;
  ExpectedLocalExecutorPolicySHA256 : string;
  AgentVersion : string;
  ExecutorVersion : string;
  ReleaseCommit : string;
  ArtifactSHA256 : string;
  AgentProtocolVersion : Z;
  ExecutorProtocolVersion : Z;
  MutationProtocolVersion : Z;
  RecoveryProtocolVersion : Z;
  ReleaseIdentity : Release.t;
  DirectiveIssuedAt : GoTime.t;
  PlanSHA256 : string;
  SessionID : string;
  Revision : Z;
  IssuedAt : GoTime.t;
  ExpiresAt : GoTime.t;
  ConsumedAt : option GoTime.t;
  StageClaimRevision : Z;
  StageClaimedAt : option GoTime.t;
  CreatedAt : GoTime.t;
  UpdatedAt : GoTime.t;
}.

#[global] Instance eq_dec : EqDecision t.
Proof. solve_decision. Defined.

#[global] Instance eta_t : Eta t := fun b =>
  mk (ID b) (SelfUpdateID b) (AttemptGeneration b) (Operation b) (ExecutionHostID b)
     (AgentServiceID b) (ExpectedSelfUpdateRevision b) (ExpectedOwnershipEpoch b)
     (ExpectedSourcePolicyRevision b) (ExpectedProjectionRevision b)
     (ExpectedLocalExecutorPolicyRevision b) (ExpectedLocalExecutorPolicySHA256 b)
     (AgentVersion b) (ExecutorVersion b) (ReleaseCommit b) (ArtifactSHA256 b)
     (AgentProtocolVersion b) (ExecutorProtocolVersion b) (MutationProtocolVersion b)
     (RecoveryProtocolVersion b) (ReleaseIdentity b) (DirectiveIssuedAt b) (PlanSHA256 b)
     (SessionID b) (Revision b) (IssuedAt b) (ExpiresAt b) (ConsumedAt b) (StageClaimRevision b)
     (StageClaimedAt b) (CreatedAt b) (UpdatedAt b).

(** The zero-valued request [validate] builds for [matchesRequest]: the
    generation, the Executor version and the release are left empty. *)
Definition release_request (b : t) : Request.t :=
  Request.mk "" (AgentVersion b) "" (ReleaseCommit b) (ArtifactSHA256 b) (AgentProtocolVersion b)
    (ExecutorProtocolVersion b) (MutationProtocolVersion b) (RecoveryProtocolVersion b) Release.zero.

Definition validate_receipt (b : t) : check :=
  match ConsumedAt b with
  | None => Err "host self-update grant receipt is invalid"
  | Some consumedAt =>
      if GoTime.IsZero consumedAt || negb (GoTime.IsUTC consumedAt) ||
         GoTime.Before consumedAt (IssuedAt b)
      then Err "host self-update grant receipt is invalid"
      else if Operation b ==? "stage" then
        if (StageClaimRevision b !=? i64_succ (ExpectedSelfUpdateRevision b)) ||
           match StageClaimedAt b with
           | None => true
           | Some claimedAt => negb (GoTime.Equal claimedAt consumedAt)
           end
        then Err "host self-update stage claim is invalid"
        else Ok tt
      else if (StageClaimRevision b !=? 0%Z) || match StageClaimedAt b with Some _ => true | None => false end
      then Err "reconcile grant contains a stage claim"
      else Ok tt
  end.

Definition validate (b : t) (expectConsumed : bool) : check :=
  if existsb (fun value => negb (re_match identifierPattern value) || (value !=? TrimSpace value))
       [ID b; SelfUpdateID b; AttemptGeneration b; ExecutionHostID b; AgentServiceID b; SessionID b]
  then Err "host self-update grant identity is invalid"
  else if ((Operation b !=? "stage") && (Operation b !=? "reconcile")) ||
     (ExpectedSelfUpdateRevision b <? 1)%Z || (ExpectedOwnershipEpoch b <? 1)%Z ||
     (ExpectedSourcePolicyRevision b <? 1)%Z || (ExpectedProjectionRevision b <? 1)%Z ||
     (ExpectedLocalExecutorPolicyRevision b <? 1)%Z
  then Err "host self-update grant operation fence is invalid"
  else if negb (re_match digestPattern (ExpectedLocalExecutorPolicySHA256 b)) ||
     negb (re_match versionPattern (AgentVersion b)) ||
     negb (re_match versionPattern (ExecutorVersion b)) ||
     negb (re_match updaterReleaseCommitPattern (ReleaseCommit b)) ||
     negb (re_match digestPattern (ArtifactSHA256 b)) ||
     (AgentProtocolVersion b <? 1)%Z || (ExecutorProtocolVersion b <? 1)%Z ||
     (MutationProtocolVersion b <? 1)%Z ||
     (RecoveryProtocolVersion b !=? HostSelfUpdateRecoveryProtocolVersion)
  then Err "host self-update grant runtime identity is invalid"
  else
    match Release.validate (ReleaseIdentity b) with
    | Err e => Err ("host self-update grant release identity is invalid: " +:+ e)
    | Ok _ =>
        if GoTime.IsZero (DirectiveIssuedAt b) || negb (GoTime.IsUTC (DirectiveIssuedAt b)) ||
           negb (re_match mutationPlanHashPattern (PlanSHA256 b)) || (Revision b <? 1)%Z ||
           GoTime.IsZero (IssuedAt b) || negb (GoTime.IsUTC (IssuedAt b)) ||
           negb (GoTime.IsUTC (ExpiresAt b)) || negb (GoTime.After (ExpiresAt b) (IssuedAt b)) ||
           (5 * GoTime.Minute <? GoTime.Sub (ExpiresAt b) (IssuedAt b))%Z
        then Err "host self-update grant time or plan binding is invalid"
        else if negb (Request.matchesRequest (ReleaseIdentity b) (release_request b))
        then Err "host self-update grant release identity is inconsistent"
        else if expectConsumed then validate_receipt b
        else if match ConsumedAt b with Some _ => true | None => false end ||
           (StageClaimRevision b !=? 0%Z) || match StageClaimedAt b with Some _ => true | None => false end
        then Err "unconsumed host self-update grant contains a receipt"
        else Ok tt
    end.

(** [sameHostSelfUpdateGrantBinding]: everything but the receipt and the audit times. *)
Definition same (left right : t) : bool :=
  (ID left ==? ID right) && (SelfUpdateID left ==? SelfUpdateID right) &&
  (AttemptGeneration left ==? AttemptGeneration right) && (Operation left ==? Operation right) &&
  (ExecutionHostID left ==? ExecutionHostID right) && (AgentServiceID left ==? AgentServiceID right) &&
  (ExpectedSelfUpdateRevision left ==? ExpectedSelfUpdateRevision right) &&
  (ExpectedOwnershipEpoch left ==? ExpectedOwnershipEpoch right) &&
  (ExpectedSourcePolicyRevision left ==? ExpectedSourcePolicyRevision right) &&
  (ExpectedProjectionRevision left ==? ExpectedProjectionRevision right) &&
  (ExpectedLocalExecutorPolicyRevision left ==? ExpectedLocalExecutorPolicyRevision right) &&
  (ExpectedLocalExecutorPolicySHA256 left ==? ExpectedLocalExecutorPolicySHA256 right) &&
  (AgentVersion left ==? AgentVersion right) && (ExecutorVersion left ==? ExecutorVersion right) &&
  (ReleaseCommit left ==? ReleaseCommit right) && (ArtifactSHA256 left ==? ArtifactSHA256 right) &&
  (AgentProtocolVersion left ==? AgentProtocolVersion right) &&
  (ExecutorProtocolVersion left ==? ExecutorProtocolVersion right) &&
  (MutationProtocolVersion left ==? MutationProtocolVersion right) &&
  (RecoveryProtocolVersion left ==? RecoveryProtocolVersion right) &&
  Release.same (ReleaseIdentity left) (ReleaseIdentity right) &&
  GoTime.Equal (DirectiveIssuedAt left) (DirectiveIssuedAt right) &&
  (PlanSHA256 left ==? PlanSHA256 right) && (SessionID left ==? SessionID right) &&
  (Revision left ==? Revision right) && GoTime.Equal (IssuedAt left) (IssuedAt right) &&
  GoTime.Equal (ExpiresAt left) (ExpiresAt right).

(** [hostSelfUpdateRequestForGrantBinding]. *)
Definition request (b : t) : Request.t :=
  Request.mk (AttemptGeneration b) (AgentVersion b) (ExecutorVersion b) (ReleaseCommit b)
    (ArtifactSHA256 b) (AgentProtocolVersion b) (ExecutorProtocolVersion b)
    (MutationProtocolVersion b) (RecoveryProtocolVersion b) (ReleaseIdentity b).
End Binding.

(** [HostSelfUpdateGrantAuthorization]: the token stays outside the binding. *)
Module Authorization.
Record t := mk { binding : Binding.t; Token : string }.

Definition validate (a : t) : check :=
  let! _ := Binding.validate (binding a) false in
  if negb (HasPrefix (Token a) "ast_hsug_") || negb (validBoundedSecret (Token a))
  then Err "host self-update grant token is invalid"
  else Ok tt.

Definition token_sha256 (a : t) : string := "sha256:" +:+ sha256_hex (Token a).
End Authorization.

(** [HostSelfUpdateGrantConsumeResult]. *)
Module ConsumeResult.
Record t := mk { Grant : Binding.t; Consumed : bool }.
End ConsumeResult.

(** [hostSelfUpdateGrantState], the durable record of one grant. *)
Module GrantState.
Record t := mk {
  SchemaVersion : Z;
  Phase : string;
  TokenSHA256 : string;
  binding : Binding.t;
  Receipt : option Binding.t;
}.

#[global] Instance eq_dec : EqDecision t.
Proof. solve_decision. Defined.

#[global] Instance eta_t : Eta t := fun s =>
  mk (SchemaVersion s) (Phase s) (TokenSHA256 s) (binding s) (Receipt s).

Definition validate (s : t) : check :=
  if (SchemaVersion s !=? hostSelfUpdateGrantStateSchemaVersion) ||
     ((Phase s !=? GrantPhasePrepared) && (Phase s !=? GrantPhaseConsumed) &&
      (Phase s !=? GrantPhaseApplied) && (Phase s !=? GrantPhaseFailed)) ||
     negb (re_match digestPattern (TokenSHA256 s)) ||
     is_err (Binding.validate (binding s) false)
  then Err "host self-update grant state is invalid"
  else if (Phase s ==? GrantPhasePrepared) || (Phase s ==? GrantPhaseFailed) then
    match Receipt s with
    | Some _ => Err "receipt-free host self-update grant phase contains a receipt"
    | None => Ok tt
    end
  else
    match Receipt s with
    | None => Err "consumed host self-update grant receipt is invalid"
    | Some receipt =>
        if is_err (Binding.validate receipt true) || negb (Binding.same receipt (binding s))
        then Err "consumed host self-update grant receipt is invalid"
        else Ok tt
    end.

Definition matches (s : t) (a : Authorization.t) : bool :=
  if negb (Binding.same (binding s) (Authorization.binding a)) then false
  else TokenSHA256 s ==? Authorization.token_sha256 a.
End GrantState.

Definition newHostSelfUpdateGrantState (a : Authorization.t) : GrantState.t :=
  GrantState.mk hostSelfUpdateGrantStateSchemaVersion GrantPhasePrepared
    (Authorization.token_sha256 a) (Authorization.binding a) None.

(** [LocalExecutorMutationFence]. *)
Module Fence.
Record t := mk {
  SourcePolicyRevision : Z;
  OwnershipEpoch : Z;
  OwnershipPolicyRevision : Z;
  ExecutorPolicyRevision : Z;
}.
End Fence.

(** [HostSelfUpdateAgentProof]. *)
Module AgentProof.
Record t := mk {
  RunningAgentVersion : string;
  PanelHeartbeatVersion : string;
  HeartbeatGeneration : string;
  FailureCode : string;
}.

#[global] Instance eq_dec : EqDecision t.
Proof. solve_decision. Defined.

Definition zero : t := mk "" "" "" "".

Definition validate (p : t) : check :=
  if (RunningAgentVersion p !=? "") &&
     (negb (re_match versionPattern (RunningAgentVersion p)) ||
      (RunningAgentVersion p !=? TrimSpace (RunningAgentVersion p)))
  then Err "host self-update running agent version is invalid"
  else if (PanelHeartbeatVersion p !=? "") &&
     (negb (re_match versionPattern (PanelHeartbeatVersion p)) ||
      (PanelHeartbeatVersion p !=? TrimSpace (PanelHeartbeatVersion p)))
  then Err "host self-update heartbeat version is invalid"
  else if (HeartbeatGeneration p !=? "") &&
     (negb (re_match identifierPattern (HeartbeatGeneration p)) ||
      (HeartbeatGeneration p !=? TrimSpace (HeartbeatGeneration p)))
  then Err "host self-update heartbeat generation is invalid"
  else if (FailureCode p !=? "") && (FailureCode p !=? "verification_timeout") &&
     (FailureCode p !=? "agent_restart_failed") && (FailureCode p !=? "executor_probe_failed")
  then Err "host self-update failure code is invalid"
  else if negb (Bool.eqb (PanelHeartbeatVersion p ==? "") (HeartbeatGeneration p ==? ""))
  then Err "host self-update heartbeat proof is incomplete"
  else Ok tt.
End AgentProof.

(** ** What the grant code needs of the local executor policy

    The policy is another component; the self-update code reads its identity, its
    revisions and its digest, and relies on nothing else. *)
Class ExecutorPolicy (P : Type) := {
  HostID : P -> string;
  SchemaVersion : P -> Z;
  ProtocolVersion : P -> Z;
  SourcePolicyRevision : P -> Z;
  ProjectionRevision : P -> Z;
  PolicyRevision : P -> Z;
  PanelURL : P -> option string;
  Policy_Validate : P -> check;
  Policy_SHA256 : P -> result string string;
}.

Section Plan.
Context `{TimeZones}.

Definition release_json (r : Release.t) : json := JObj [
  ("tag", JStr (Release.Tag r));
  ("commit", JStr (Release.Commit r));
  ("published_at", JTime (Release.PublishedAt r));
  ("manifest_asset_id", JNum (Release.ManifestAssetID r));
  ("manifest_asset_name", JStr (Release.ManifestAssetName r));
  ("manifest_sha256", JStr (Release.ManifestSHA256 r));
  ("manifest_checksum_asset_id", JNum (Release.ManifestChecksumAssetID r));
  ("manifest_checksum_sha256", JStr (Release.ManifestChecksumSHA256 r));
  ("archive_asset_id", JNum (Release.ArchiveAssetID r));
  ("archive_asset_name", JStr (Release.ArchiveAssetName r));
  ("archive_size", JNum (Release.ArchiveSize r));
  ("archive_sha256", JStr (Release.ArchiveSHA256 r));
  ("archive_checksum_asset_id", JNum (Release.ArchiveChecksumAssetID r));
  ("archive_checksum_sha256", JStr (Release.ArchiveChecksumSHA256 r));
  ("arch", JStr (Release.Arch r));
  ("agent_protocol_version", JNum (Release.AgentProtocolVersion r));
  ("executor_protocol_version", JNum (Release.ExecutorProtocolVersion r));
  ("mutation_protocol_version", JNum (Release.MutationProtocolVersion r));
  ("recovery_protocol_version", JNum (Release.RecoveryProtocolVersion r));
  ("minimum_panel_version", JStr (Release.MinimumPanelVersion r))].

Definition request_json (r : Request.t) : json := JObj [
  ("generation", JStr (Request.Generation r));
  ("agent_version", JStr (Request.AgentVersion r));
  ("executor_version", JStr (Request.ExecutorVersion r));
  ("commit", JStr (Request.Commit r));
  ("artifact_sha256", JStr (Request.ArtifactSHA256 r));
  ("agent_protocol_version", JNum (Request.AgentProtocolVersion r));
  ("executor_protocol_version", JNum (Request.ExecutorProtocolVersion r));
  ("mutation_protocol_version", JNum (Request.MutationProtocolVersion r));
  ("recovery_protocol_version", JNum (Request.RecoveryProtocolVersion r));
  ("release", release_json (Request.ReleaseIdentity r))].

(** The fence has no JSON tags, so its keys are the Go field names. *)
Definition fence_json (f : Fence.t) : json := JObj [
  ("SourcePolicyRevision", JNum (Fence.SourcePolicyRevision f));
  ("OwnershipEpoch", JNum (Fence.OwnershipEpoch f));
  ("OwnershipPolicyRevision", JNum (Fence.OwnershipPolicyRevision f));
  ("ExecutorPolicyRevision", JNum (Fence.ExecutorPolicyRevision f))].

(** The two fields of [HostAgentPolicy] that enter the plan are passed directly. *)
Definition hostSelfUpdateGrantPlanSHA256 (operation selfUpdateID : string) (selfUpdateRevision : Z)
    (request : Request.t) (fence : Fence.t) : result string string :=
  match Marshal (JObj [
    ("operation", JStr operation);
    ("self_update_id", JStr selfUpdateID);
    ("self_update_revision", JNum selfUpdateRevision);
    ("request", request_json request);
    ("fence", fence_json fence)]) with
  | Some payload => Ok (sha256_hex payload)
  | None => Err "encode host self-update grant plan"
  end.

Definition sameHostSelfUpdateRequestIdentity (left right : Request.t) : bool :=
  (Request.Generation left ==? Request.Generation right) &&
  (Request.AgentVersion left ==? Request.AgentVersion right) &&
  (Request.ExecutorVersion left ==? Request.ExecutorVersion right) &&
  (Request.Commit left ==? Request.Commit right) &&
  (Request.ArtifactSHA256 left ==? Request.ArtifactSHA256 right) &&
  (Request.AgentProtocolVersion left ==? Request.AgentProtocolVersion right) &&
  (Request.ExecutorProtocolVersion left ==? Request.ExecutorProtocolVersion right) &&
  (Request.MutationProtocolVersion left ==? Request.MutationProtocolVersion right) &&
  (Request.RecoveryProtocolVersion left ==? Request.RecoveryProtocolVersion right) &&
  Release.same (Request.ReleaseIdentity left) (Request.ReleaseIdentity right).

Definition hostSelfUpdatePendingMatchesGrant (state : State.t) (binding : Binding.t) : bool :=
  (State.PendingGeneration state ==? Binding.AttemptGeneration binding) &&
  (State.PendingAgentVersion state ==? Binding.AgentVersion binding) &&
  (State.PendingExecutorVersion state ==? Binding.ExecutorVersion binding) &&
  (State.PendingCommit state ==? Binding.ReleaseCommit binding) &&
  (State.PendingArtifactSHA256 state ==? Binding.ArtifactSHA256 binding) &&
  (State.PendingAgentProtocol state ==? Binding.AgentProtocolVersion binding) &&
  (State.PendingExecutorProtocol state ==? Binding.ExecutorProtocolVersion binding) &&
  (State.PendingMutationProtocol state ==? Binding.MutationProtocolVersion binding) &&
  (State.PendingRecoveryProtocol state ==? Binding.RecoveryProtocolVersion binding) &&
  Release.same (State.PendingRelease state) (Binding.ReleaseIdentity binding).

Context {P : Type} `{ExecutorPolicy P}.

(** The comparison of a grant with the operation, the policy and the fence that
    both grant checks make. *)
Definition policy_binding_mismatch (policy : P) (fence : Fence.t) (operation : string)
    (binding : Binding.t) : bool :=
  (Binding.Operation binding !=? operation) ||
  (Binding.ExecutionHostID binding !=? HostID policy) ||
  (Binding.ExpectedOwnershipEpoch binding !=? Fence.OwnershipEpoch fence) ||
  (Binding.ExpectedSourcePolicyRevision binding !=? SourcePolicyRevision policy) ||
  (Binding.ExpectedSourcePolicyRevision binding !=? Fence.SourcePolicyRevision fence) ||
  (Binding.ExpectedProjectionRevision binding !=? ProjectionRevision policy) ||
  (Binding.ExpectedProjectionRevision binding !=? Fence.OwnershipPolicyRevision fence) ||
  (Binding.ExpectedLocalExecutorPolicyRevision binding !=? PolicyRevision policy) ||
  (Binding.ExpectedLocalExecutorPolicyRevision binding !=? Fence.ExecutorPolicyRevision fence).

Definition policy_digest_mismatch (policy : P) (binding : Binding.t) : bool :=
  match Policy_SHA256 policy with
  | Err _ => true
  | Ok policySHA256 => Binding.ExpectedLocalExecutorPolicySHA256 binding !=? policySHA256
  end.

Definition plan_mismatch (operation : string) (expected : Request.t) (fence : Fence.t)
    (binding : Binding.t) : bool :=
  match hostSelfUpdateGrantPlanSHA256 operation (Binding.SelfUpdateID binding)
          (Binding.ExpectedSelfUpdateRevision binding) expected fence with
  | Err _ => true
  | Ok expectedPlanSHA256 => Binding.PlanSHA256 binding !=? expectedPlanSHA256
  end.

Definition validateHostSelfUpdateGrantReplayBinding (policy : P) (fence : Fence.t)
    (operation : string) (request : option Request.t) (proof : option AgentProof.t)
    (authorization : Authorization.t) : check :=
  let! _ := Authorization.validate authorization in
  let binding := Authorization.binding authorization in
  if policy_binding_mismatch policy fence operation binding
  then Err "host self-update grant replay policy binding is invalid"
  else if policy_digest_mismatch policy binding
  then Err "host self-update grant replay policy digest is invalid"
  else
    let expected := Binding.request binding in
    if is_err (Request.validate expected)
    then Err "host self-update grant replay release binding is invalid"
    else if plan_mismatch operation expected fence binding
    then Err "host self-update grant replay plan binding is invalid"
    else if operation ==? "stage" then
      match request, proof with
      | Some request, None =>
          if sameHostSelfUpdateRequestIdentity request expected then Ok tt
          else Err "host self-update stage replay binding is invalid"
      | _, _ => Err "host self-update stage replay binding is invalid"
      end
    else if operation ==? "reconcile" then
      match request, proof with
      | None, Some proof =>
          if is_err (AgentProof.validate proof)
          then Err "host self-update reconcile replay binding is invalid"
          else if (AgentProof.HeartbeatGeneration proof !=? "") &&
             (AgentProof.HeartbeatGeneration proof !=? Request.Generation expected)
          then Err "host self-update reconcile generation is invalid"
          else if (AgentProof.PanelHeartbeatVersion proof !=? "") &&
             (AgentProof.PanelHeartbeatVersion proof !=? Request.AgentVersion expected)
          then Err "host self-update reconcile heartbeat version is invalid"
          else if (AgentProof.FailureCode proof ==? "") &&
             (AgentProof.RunningAgentVersion proof !=? "") &&
             (AgentProof.RunningAgentVersion proof !=? Request.AgentVersion expected)
          then Err "host self-update reconcile running version is invalid"
          else Ok tt
      | _, _ => Err "host self-update reconcile replay binding is invalid"
      end
    else Err "host self-update grant replay operation is invalid".

(** The request a grant must be bound to, by operation. *)
Definition expected_request (operation : string) (request : option Request.t) (state : State.t) :
    result string Request.t :=
  if operation ==? "stage" then
    match request with
    | Some request =>
        if (State.Phase state !=? PhaseStable) ||
           (Request.Generation request ==? State.FailedGeneration state)
        then Err "host self-update stage grant state is invalid"
        else Ok request
    | None => Err "host self-update stage grant state is invalid"
    end
  else if operation ==? "reconcile" then
    match request with
    | None =>
        if (State.Phase state ==? PhaseStable) || (State.Phase state ==? PhaseStaged)
        then Err "host self-update reconcile grant state is invalid"
        else Ok (State.pending_request state)
    | Some _ => Err "host self-update reconcile grant state is invalid"
    end
  else Err "host self-update grant operation is invalid".

Definition validateHostSelfUpdateGrantForOperation (policy : P) (fence : Fence.t)
    (operation : string) (request : option Request.t) (state : State.t)
    (authorization : Authorization.t) : check :=
  let! _ := Authorization.validate authorization in
  let binding := Authorization.binding authorization in
  if policy_binding_mismatch policy fence operation binding
  then Err "host self-update grant policy binding is invalid"
  else if policy_digest_mismatch policy binding
  then Err "host self-update grant policy digest is invalid"
  else
    let! expected := expected_request operation request state in
    if is_err (Request.validate expected) ||
       (Binding.AttemptGeneration binding !=? Request.Generation expected) ||
       (Binding.AgentVersion binding !=? Request.AgentVersion expected) ||
       (Binding.ExecutorVersion binding !=? Request.ExecutorVersion expected) ||
       (Binding.ReleaseCommit binding !=? Request.Commit expected) ||
       (Binding.ArtifactSHA256 binding !=? Request.ArtifactSHA256 expected) ||
       (Binding.AgentProtocolVersion binding !=? Request.AgentProtocolVersion expected) ||
       (Binding.ExecutorProtocolVersion binding !=? Request.ExecutorProtocolVersion expected) ||
       (Binding.MutationProtocolVersion binding !=? Request.MutationProtocolVersion expected) ||
       (Binding.RecoveryProtocolVersion binding !=? Request.RecoveryProtocolVersion expected) ||
       negb (Release.same (Binding.ReleaseIdentity binding) (Request.ReleaseIdentity expected))
    then Err "host self-update grant release binding is invalid"
    else if plan_mismatch operation expected fence binding
    then Err "host self-update grant plan binding is invalid"
    else Ok tt.
End Plan.
