(* ===== verification/SelfUpdateRuntime.v ===== *)
(** The privileged self-update runtime of the local executor
    ([host_self_update_executor.go], [host_self_update_activation.go],
    [host_self_update_staging.go], [host_self_update_slot_state.go],
    [host_self_update_grant_authorization.go],
    [host_self_update_grant_recovery.go], [host_self_update_watchdog.go]): status,
    stage, activate, reconcile, the grant journal and the recovery watchdog, as
    programs over the durable state file, the grant file, the [current] link, the
    service manager and the Panel. *)
From Stdlib Require Import Ascii String ZArith Lia.
From stdpp Require Import base decidable list strings relations.
From S2P Require Import Prelude Strings Regexp Patterns Semver Effects Sha256 Json.
From S2P Require Import SelfUpdateState SelfUpdateGrant.
Import ReleaseVersion.

Open Scope string_scope.

(** ** Errors

    The error classes [errors.Is] distinguishes in this component. *)
Inductive err := ErrNotExist | ErrBusy | ErrStage | ErrRollback | ErrPrecondition | ErrUncertain | ErrOther.

#[global] Instance err_eq_dec : EqDecision err.
Proof. solve_decision. Defined.

(** [errors.Join]: the class the handler's switch finds first. *)
Definition join (e1 e2 : err) : err :=
  let has e := (e1 ==? e) || (e2 ==? e) in
  if has ErrBusy then ErrBusy else if has ErrStage then ErrStage
  else if has ErrRollback then ErrRollback else if has ErrPrecondition then ErrPrecondition
  else ErrOther.

(** A plain [errors.New] of a pure check. *)
Definition other {A} (r : result string A) : result err A :=
  match r with Ok a => Ok a | Err _ => Err ErrOther end.

(** [HostSelfUpdateRuntimeStatus]. *)
Module Status.
Record t := mk {
  state : State.t;
  CurrentSlot : string;
  ExecutorVersion : string;
  ExecutorProtocolVersion : Z;
  LastAction : string;
  RollbackRequested : bool;
  RestartRequested : bool;
}.

#[global] Instance eta_t : Eta t := fun s =>
  mk (state s) (CurrentSlot s) (ExecutorVersion s) (ExecutorProtocolVersion s) (LastAction s)
     (RollbackRequested s) (RestartRequested s).

Definition actions : list string :=
  [""; ActionNone; ActionSwitchCurrent; ActionRestartAgent; ActionAwaitProof; ActionProbeExecutor;
   ActionCommit; ActionRestoreHealthy; ActionRestartHealthy; ActionRollbackComplete].

Definition validate (s : t) : check :=
  let! _ := State.validate (state s) in
  if negb (validHostSelfUpdateSlot (CurrentSlot s)) ||
     negb (re_match versionPattern (ExecutorVersion s)) ||
     (ExecutorProtocolVersion s <? 1)%Z
  then Err "host self-update runtime status is invalid"
  else if existsb (String.eqb (LastAction s)) actions then Ok tt
  else Err "host self-update runtime action is invalid".
End Status.

(** [HostAgentRelease], as far as staging reads it. *)
Module AgentRelease.
Record t := mk {
  request : Request.t;
  PublishedAt : GoTime.t;
  MinimumPanelVersion : string;
}.
End AgentRelease.

(** ** The world *)

Record world := World {
  current : option string;         (** the slot the [current] link names *)
  state_file : option State.t;
  grant_file : option GrantState.t;
  sent : list (Authorization.t * option GrantState.t);
    (** every consume request sent to the Panel, with the grant file at that moment *)
  receipts : list Binding.t;       (** the receipts of accepted consume requests *)
}.

#[global] Instance eta_world : Eta world := fun w =>
  World (current w) (state_file w) (grant_file w) (sent w) (receipts w).

Inductive op : Type -> Type :=
| ReadLink : op (result err string)
| ReadState : op (result err State.t)
| HasBinding (slot : string) : op (result err bool)
| WriteState (s : State.t) : op (result err unit)
| ReplaceLink (slot : string) (replaceMalformed : bool) : op (result err unit)
| ValidateTree (slot : string) : op (result err unit)
| VerifySlot (slot : string) (request : Request.t) (digests : SlotDigests.t) : op (result err unit)
| MarkerDigests (slot : string) : op (result err SlotDigests.t)
| RestartAgent : op (result err unit)
| RestartExecutor : op (result err unit)
| VerifyExecutor (slot : string) (s : State.t) : op (result err unit)
| Now : op GoTime.t
| PrepareRoots : op (result err unit)
| Download (request : Request.t) : op (result err AgentRelease.t)
| BinaryDigests : op (result err SlotDigests.t)
| StageSlot (slot : string) (request : Request.t) (digests : SlotDigests.t) : op (result err unit)
| RecoverArtifacts : op (result err unit)
| ReadGrant : op (result err (option GrantState.t))
| WriteGrant (g : GrantState.t) : op (result err unit)
| RemoveGrant : op (result err unit)
| Consume (url : string) (a : Authorization.t) : op (result err ConsumeResult.t)
| ContextDone : op bool.

(** How the environment answers.  A write that fails may have happened: the file
    or link is replaced by a rename, and the directory is synced and the result
    inspected afterwards. *)
Inductive answer :=
| Succeeds
| FailsBefore
| FailsAfter
| SaysBool (b : bool)
| SaysTime (t : GoTime.t)
| SaysDigests (d : SlotDigests.t)
| SaysRelease (r : AgentRelease.t)
| SaysReceipt (r : ConsumeResult.t).

Definition effect {A} (a : A) (ans : answer) (after before : world) : option (result err A * world) :=
  match ans with
  | Succeeds => Some (Ok a, after)
  | FailsBefore => Some (Err ErrOther, before)
  | FailsAfter => Some (Err ErrOther, after)
  | _ => None
  end.

Definition observe {A} (r : result err A) (ans : answer) (w : world) : option (result err A * world) :=
  match ans with
  | Succeeds => Some (r, w)
  | FailsBefore => Some (Err ErrOther, w)
  | _ => None
  end.

#[global] Instance op_handler : Handler op world answer := fun X o ans w =>
  match o in op X return option (X * world) with
  | ReadLink => observe (match current w with Some s => Ok s | None => Err ErrOther end) ans w
  | ReadState => observe (match state_file w with Some s => Ok s | None => Err ErrNotExist end) ans w
  | HasBinding _ => match ans with
      | SaysBool b => Some (Ok b, w) | FailsBefore => Some (Err ErrOther, w) | _ => None end
  | WriteState s => effect tt ans (w <| state_file := Some s |>) w
  | ReplaceLink slot _ => effect tt ans (w <| current := Some slot |>) w
  | ValidateTree _ => observe (Ok tt) ans w
  | VerifySlot _ _ _ => observe (Ok tt) ans w
  | MarkerDigests _ => match ans with
      | SaysDigests d => Some (Ok d, w) | FailsBefore => Some (Err ErrOther, w) | _ => None end
  | RestartAgent => observe (Ok tt) ans w
  | RestartExecutor => observe (Ok tt) ans w
  | VerifyExecutor _ _ => observe (Ok tt) ans w
  | Now => match ans with SaysTime t => Some (t, w) | _ => None end
  | PrepareRoots => observe (Ok tt) ans w
  | Download _ => match ans with
      | SaysRelease r => Some (Ok r, w) | FailsBefore => Some (Err ErrOther, w) | _ => None end
  | BinaryDigests => match ans with
      | SaysDigests d => Some (Ok d, w) | FailsBefore => Some (Err ErrOther, w) | _ => None end
  | StageSlot _ _ _ => observe (Ok tt) ans w
  | RecoverArtifacts => observe (Ok tt) ans w
  | ReadGrant => observe (Ok (grant_file w)) ans w
  | WriteGrant g => effect tt ans (w <| grant_file := Some g |>) w
  | RemoveGrant => effect tt ans (w <| grant_file := None |>) w
  | Consume _ a =>
      let w := w <| sent := (sent w ++ [(a, grant_file w)])%list |> in
      match ans with
      | SaysReceipt r => Some (Ok r, w <| receipts := (receipts w ++ [ConsumeResult.Grant r])%list |>)
      | FailsBefore => Some (Err ErrOther, w)
      | _ => None
      end
  | ContextDone => match ans with SaysBool b => Some (b, w) | _ => None end
  end.

Abbreviation io A := (prog op (result err A)).

(** A failing step turned into another error class. *)
Definition or_fail {A} (p : io A) (e : err) : io A :=
  bind p (fun r => Ret (match r with Ok a => Ok a | Err _ => Err e end)).

Section Runtime.
Context `{TimeZones} {P : Type} `{ExecutorPolicy P}.

(** The configured identity of the running executor; the paths are fixed. *)
Variable executorVersion : string.
Variable verificationTimeout : Z.

(** ** Durable state and the [current] link *)

Definition saveState (state : State.t) : io unit :=
  let? _ := lift (other (State.validate state)) in call (WriteState state).

Definition loadPersistedState : io State.t :=
  let? state := call ReadState in
  let? _ := lift (other (State.validate state)) in
  Ret (Ok state).

Definition replaceCurrent (slot : string) (replaceMalformed : bool) : io unit :=
  if negb (validHostSelfUpdateSlot slot) then Ret (Err ErrOther)
  else let? _ := call (ValidateTree slot) in call (ReplaceLink slot replaceMalformed).

Definition switchCurrent (slot : string) : io unit := replaceCurrent slot false.
Definition reconstructCurrent (slot : string) : io unit := replaceCurrent slot true.

(** The link names one of the two slot directories, or reading it fails. *)
Definition readCurrentSlot : io string :=
  let? slot := call ReadLink in
  if validHostSelfUpdateSlot slot then Ret (Ok slot) else Ret (Err ErrOther).

Definition loadState (currentSlot : string) : io State.t :=
  let* loaded := loadPersistedState in
  match loaded with
  | Ok state => Ret (Ok state)
  | Err e =>
      if e !=? ErrNotExist then Ret (Err e)
      else if currentSlot !=? HostSelfUpdateSlotA then Ret (Err ErrOther)
      else
        let? hasBinding := call (HasBinding currentSlot) in
        if hasBinding : bool then Ret (Err ErrOther)
        else
          let? state := lift (other (NewHostSelfUpdateState executorVersion executorVersion)) in
          let state := state <| State.ActiveSlot := currentSlot |>
                             <| State.HealthySlot := currentSlot |> in
          let? _ := saveState state in
          Ret (Ok state)
  end.

(** ** The grant journal *)

Definition loadHostSelfUpdateGrantState : io (option GrantState.t) :=
  let? grant := call ReadGrant in
  match grant with
  | None => Ret (Ok None)
  | Some g => let? _ := lift (other (GrantState.validate g)) in Ret (Ok (Some g))
  end.

Definition saveHostSelfUpdateGrantState (g : GrantState.t) : io unit :=
  let? _ := lift (other (GrantState.validate g)) in call (WriteGrant g).

(** [hostSelfUpdateStateEffectMatchesGrant] *)
Definition hostSelfUpdateStateEffectMatchesGrant (state : State.t) (binding : Binding.t) : prog op bool :=
  if (State.Phase state ==? PhaseStable) &&
     (State.FailedGeneration state ==? Binding.AttemptGeneration binding)
  then Ret true
  else
    let request := Binding.request binding in
    if is_err (Request.validate request) then Ret false
    else
      let verify slot digests :=
        bind (call (VerifySlot slot request digests)) (fun r => Ret (is_ok r)) in
      if State.Phase state ==? PhaseStable then
        let* current := readCurrentSlot in
        match current with
        | Err _ => Ret false
        | Ok current =>
            if (current !=? State.ActiveSlot state) ||
               (State.ActiveSlot state !=? State.HealthySlot state) ||
               (State.ActiveAgentVersion state !=? Binding.AgentVersion binding) ||
               (State.ActiveExecutorVersion state !=? Binding.ExecutorVersion binding)
            then Ret false
            else
              let* digests := call (MarkerDigests (State.ActiveSlot state)) in
              match digests with
              | Err _ => Ret false
              | Ok digests =>
                  if is_err (SlotDigests.validate digests) then Ret false
                  else verify (State.ActiveSlot state) digests
              end
        end
      else if negb (hostSelfUpdatePendingMatchesGrant state binding) then Ret false
      else verify (State.PendingSlot state) (State.pending_digests state).

Definition failedHostSelfUpdateStateMatchesStageGrant (state : State.t) (grant : GrantState.t) : bool :=
  (State.Phase state ==? PhaseStable) &&
  (State.FailedGeneration state !=? "") &&
  (Binding.Operation (GrantState.binding grant) ==? "stage") &&
  (Binding.AttemptGeneration (GrantState.binding grant) ==? State.FailedGeneration state) &&
  ((GrantState.Phase grant ==? GrantPhasePrepared) || (GrantState.Phase grant ==? GrantPhaseConsumed) ||
   (GrantState.Phase grant ==? GrantPhaseApplied) || (GrantState.Phase grant ==? GrantPhaseFailed)).

Definition cleanFailedHostSelfUpdateGrant (state : State.t) : io unit :=
  if (State.Phase state !=? PhaseStable) || (State.FailedGeneration state ==? "") then Ret (Ok tt)
  else
    let? grant := loadHostSelfUpdateGrantState in
    match grant with
    | None => Ret (Ok tt)
    | Some grant =>
        if negb (failedHostSelfUpdateStateMatchesStageGrant state grant) then Ret (Ok tt)
        else if GrantState.Phase grant ==? GrantPhaseFailed then Ret (Ok tt)
        else saveHostSelfUpdateGrantState
               (grant <| GrantState.Phase := GrantPhaseFailed |> <| GrantState.Receipt := None |>)
    end.

Definition markDurableHostSelfUpdateGrantApplied (grant : GrantState.t) : io unit :=
  if (GrantState.Phase grant !=? GrantPhaseConsumed) ||
     match GrantState.Receipt grant with None => true | Some _ => false end
  then Ret (Err ErrOther)
  else saveHostSelfUpdateGrantState (grant <| GrantState.Phase := GrantPhaseApplied |>).

Definition recoverDurableHostSelfUpdateGrant (state : State.t) : io State.t :=
  let? loaded := loadHostSelfUpdateGrantState in
  match loaded with
  | None => Ret (Ok state)
  | Some grant =>
      let binding := GrantState.binding grant in
      let consumed := GrantState.Phase grant ==? GrantPhaseConsumed in
      let apply_consumed :=
        let? _ := markDurableHostSelfUpdateGrantApplied grant in Ret (Ok state) in
      if failedHostSelfUpdateStateMatchesStageGrant state grant then
        let? _ := cleanFailedHostSelfUpdateGrant state in Ret (Ok state)
      else if GrantState.Phase grant ==? GrantPhaseApplied then
        let* matches := hostSelfUpdateStateEffectMatchesGrant state binding in
        if matches : bool then Ret (Ok state) else Ret (Err ErrOther)
      else if Binding.Operation binding ==? "stage" then
        let* matches := if consumed then hostSelfUpdateStateEffectMatchesGrant state binding
                        else Ret false in
        if consumed && matches then apply_consumed
        else if State.Phase state ==? PhaseStable then
          let failed := state <| State.FailedGeneration := Binding.AttemptGeneration binding |> in
          let? _ := (if State.FailedGeneration state !=? Binding.AttemptGeneration binding
                     then saveState failed else Ret (Ok tt)) in
          let? _ := cleanFailedHostSelfUpdateGrant failed in
          Ret (Ok failed)
        else Ret (Err ErrOther)
      else if Binding.Operation binding ==? "reconcile" then
        if GrantState.Phase grant ==? GrantPhasePrepared then
          let? _ := call RemoveGrant in Ret (Ok state)
        else
          let* matches := if consumed then hostSelfUpdateStateEffectMatchesGrant state binding
                          else Ret false in
          if consumed && matches then apply_consumed else Ret (Err ErrOther)
      else Ret (Err ErrOther)
  end.

(** ** Status and staging *)

Definition statusWithGrantRecovery (recoverGrant : bool) : io Status.t :=
  let? currentSlot := readCurrentSlot in
  let? state := loadState currentSlot in
  let? state := (if recoverGrant then recoverDurableHostSelfUpdateGrant state else Ret (Ok state)) in
  let status := Status.mk state currentSlot executorVersion LocalExecutorMutationProtocolVersion
                  ActionNone false false in
  let? _ := lift (other (Status.validate status)) in
  Ret (Ok status).

Definition status : io Status.t := statusWithGrantRecovery true.
Definition mutationStatus : io Status.t := statusWithGrantRecovery false.

Definition hostSelfUpdateReleaseMatchesRequest (release : AgentRelease.t) (request : Request.t) : bool :=
  is_ok (Request.validate (AgentRelease.request release)) &&
  is_ok (Request.validate request) &&
  (Request.AgentVersion (AgentRelease.request release) ==? Request.AgentVersion request) &&
  (Request.ExecutorVersion (AgentRelease.request release) ==? Request.ExecutorVersion request) &&
  (Request.Commit (AgentRelease.request release) ==? Request.Commit request) &&
  (Request.ArtifactSHA256 (AgentRelease.request release) ==? Request.ArtifactSHA256 request) &&
  (Request.AgentProtocolVersion (AgentRelease.request release) ==? Request.AgentProtocolVersion request) &&
  (Request.ExecutorProtocolVersion (AgentRelease.request release) ==? Request.ExecutorProtocolVersion request) &&
  (Request.MutationProtocolVersion (AgentRelease.request release) ==? Request.MutationProtocolVersion request) &&
  (Request.RecoveryProtocolVersion (AgentRelease.request release) ==? Request.RecoveryProtocolVersion request) &&
  Release.same (Request.ReleaseIdentity (AgentRelease.request release)) (Request.ReleaseIdentity request) &&
  GoTime.Equal (AgentRelease.PublishedAt release) (Release.PublishedAt (Request.ReleaseIdentity request)) &&
  (AgentRelease.MinimumPanelVersion release ==? Release.MinimumPanelVersion (Request.ReleaseIdentity request)).

Definition no_blockers : Blockers.t := Blockers.mk false false false false false false.

(** The download directory is cleared and created as part of [Download]. *)
Definition stage (request : Request.t) : io Status.t :=
  let? current := mutationStatus in
  let state := Status.state current in
  if State.Phase state !=? PhaseStable then Ret (Err ErrBusy)
  else if (Status.CurrentSlot current !=? State.ActiveSlot state) ||
     (Status.CurrentSlot current !=? State.HealthySlot state)
  then Ret (Err ErrPrecondition)
  else if Request.Generation request ==? State.FailedGeneration state then Ret (Err ErrPrecondition)
  else if negb (updaterReleaseSemverAtLeast (Request.AgentVersion request) (State.ActiveAgentVersion state)) ||
     negb (updaterReleaseSemverAtLeast (Request.ExecutorVersion request) (State.ActiveExecutorVersion state))
  then Ret (Err ErrPrecondition)
  else
    let? release := or_fail (call (Download request)) ErrStage in
    if negb (hostSelfUpdateReleaseMatchesRequest release request) then Ret (Err ErrPrecondition)
    else
      let? slotDigests := or_fail (call BinaryDigests) ErrStage in
      let? next := or_fail (lift (other (StageHostSelfUpdate state request no_blockers slotDigests)))
                     ErrPrecondition in
      let? _ := or_fail (call (StageSlot (State.PendingSlot next) request slotDigests)) ErrStage in
      let? _ := saveState next in
      let? _ := call RecoverArtifacts in
      Ret (Ok (current <| Status.state := next |> <| Status.LastAction := ActionNone |>)).

(** ** Activation and reconciliation *)

Definition verifyPendingHostSelfUpdateSlot (state : State.t) : io unit :=
  if is_err (State.validate state) || (State.Phase state ==? PhaseStable) then Ret (Err ErrOther)
  else call (VerifySlot (State.PendingSlot state) (State.pending_request state) (State.pending_digests state)).

Definition failStagedHostSelfUpdate (state : State.t) : io State.t :=
  if is_err (State.validate state) || (State.Phase state !=? PhaseStaged) then Ret (Err ErrOther)
  else
    let failed := clearRolledBackHostSelfUpdate state in
    let? _ := saveState failed in
    let? _ := cleanFailedHostSelfUpdateGrant failed in
    Ret (Ok failed).

(** [if err := rt.switchCurrent(next.PendingSlot)] with the rollback fence that
    [activate] and [reconcile] write when the switch fails. *)
Definition switch_or_fence (next : State.t) (k : io Status.t) : io Status.t :=
  let* switched := switchCurrent (State.PendingSlot next) in
  match switched with
  | Ok _ => k
  | Err _ =>
      let? _ := or_fail (saveState (beginHostSelfUpdateRollback next)) ErrRollback in
      Ret (Err ErrRollback)
  end.

Definition activate (generation : string) : io Status.t :=
  let? st := status in
  let state := Status.state st in
  if (State.Phase state !=? PhaseStaged) || (State.PendingGeneration state !=? generation)
  then Ret (Err ErrPrecondition)
  else if Status.CurrentSlot st !=? State.HealthySlot state then Ret (Err ErrPrecondition)
  else
    let? _ := or_fail (call (ValidateTree (State.HealthySlot state))) ErrPrecondition in
    let* verified := verifyPendingHostSelfUpdateSlot state in
    match verified with
    | Err _ =>
        let? _ := or_fail (failStagedHostSelfUpdate state) ErrOther in
        Ret (Err ErrPrecondition)
    | Ok _ =>
        let* now := call Now in
        let? next := lift (other (BeginHostSelfUpdateActivation state (GoTime.UTC now) verificationTimeout)) in
        let? _ := saveState next in
        switch_or_fence next
          (let? _ := call RestartAgent in
           Ret (Ok (st <| Status.state := next |> <| Status.CurrentSlot := State.PendingSlot next |>
                       <| Status.LastAction := ActionSwitchCurrent |> <| Status.RestartRequested := true |>)))
    end.

(** The observation [reconcile] builds from the status and the Agent's proof. *)
Definition observation (st : Status.t) (proof : AgentProof.t) : Observation.t :=
  let state := Status.state st in
  let o := Observation.mk (Status.CurrentSlot st) (AgentProof.RunningAgentVersion proof)
    (AgentProof.PanelHeartbeatVersion proof) (AgentProof.HeartbeatGeneration proof)
    executorVersion LocalExecutorMutationProtocolVersion false "" "" in
  let o :=
    if (State.Phase state !=? PhaseStable) &&
       ((State.Phase state ==? PhaseRollingBack) || (Status.CurrentSlot st ==? State.PendingSlot state))
    then
      let expectedExecutor := if State.Phase state ==? PhaseRollingBack
        then State.ActiveExecutorVersion state else State.PendingExecutorVersion state in
      let healthy := executorVersion ==? expectedExecutor in
      let o := o <| Observation.ExecutorProbeGeneration := State.PendingGeneration state |>
                 <| Observation.ExecutorHealthy := healthy |> in
      if healthy then o else o <| Observation.ExecutorFailureCode := "executor_probe_failed" |>
    else o in
  if AgentProof.FailureCode proof !=? ""
  then o <| Observation.ExecutorHealthy := false |>
         <| Observation.ExecutorFailureCode := AgentProof.FailureCode proof |>
  else o.

(** The deadline check reads the clock only in the two phases that have one. *)
Definition apply_deadline (state : State.t) (o : Observation.t) : prog op Observation.t :=
  if (State.Phase state ==? PhaseActivating) || (State.Phase state ==? PhaseVerifying) then
    let* now := call Now in
    Ret (if negb (GoTime.Before (GoTime.UTC now) (State.ActivationDeadline state))
         then o <| Observation.ExecutorHealthy := false |>
                <| Observation.ExecutorFailureCode := "verification_timeout" |>
         else o)
  else Ret o.

Definition reconcile (proof : AgentProof.t) : io Status.t :=
  let? st := mutationStatus in
  let* o := apply_deadline (Status.state st) (observation st proof) in
  let? outcome := lift (other (ReconcileHostSelfUpdate (Status.state st) o)) in
  let '(next, action) := outcome in
  let st := st <| Status.state := next |> <| Status.LastAction := action |> in
  let verify_or_fence (k : io Status.t) : io Status.t :=
    let* verified := verifyPendingHostSelfUpdateSlot next in
    match verified with
    | Ok _ => k
    | Err _ =>
        let? _ := or_fail (saveState (beginHostSelfUpdateRollback next)) ErrRollback in
        Ret (Err ErrRollback)
    end in
  if action ==? ActionSwitchCurrent then
    verify_or_fence
      (let? _ := saveState next in
       switch_or_fence next
         (let? _ := call RestartAgent in
          Ret (Ok (st <| Status.CurrentSlot := State.PendingSlot next |> <| Status.RestartRequested := true |>))))
  else if action ==? ActionRestoreHealthy then
    let? _ := saveState next in
    let? _ := or_fail (switchCurrent (State.HealthySlot next)) ErrRollback in
    let? _ := or_fail (call RestartAgent) ErrRollback in
    Ret (Ok (st <| Status.CurrentSlot := State.HealthySlot next |> <| Status.RollbackRequested := true |>
                <| Status.RestartRequested := true |>))
  else if action ==? ActionRestartAgent then
    verify_or_fence
      (let? _ := saveState next in
       let? _ := call RestartAgent in
       Ret (Ok (st <| Status.RestartRequested := true |>)))
  else if action ==? ActionRestartHealthy then
    let? _ := saveState next in
    let? _ := call RestartAgent in
    Ret (Ok (st <| Status.RestartRequested := true |>))
  else
    let? _ := saveState next in
    Ret (Ok st).

(** ** Consuming a grant *)

Definition authorizeHostSelfUpdate (panelURL : string) (authorization : Authorization.t) : io unit :=
  let? existing := loadHostSelfUpdateGrantState in
  let consume_from (next : GrantState.t) : io unit :=
    let? _ := saveHostSelfUpdateGrantState next in
    let* first := call (Consume panelURL authorization) in
    let? result := match first with
      | Ok result => Ret (Ok result)
      | Err _ =>
          let* cancelled := call ContextDone in
          if cancelled : bool then Ret (Err ErrUncertain)
          else or_fail (call (Consume panelURL authorization)) ErrUncertain
      end in
    let receipt := ConsumeResult.Grant result in
    if is_err (Binding.validate receipt true) ||
       negb (Binding.same receipt (Authorization.binding authorization))
    then Ret (Err ErrOther)
    else saveHostSelfUpdateGrantState
           (next <| GrantState.Phase := GrantPhaseConsumed |> <| GrantState.Receipt := Some receipt |>) in
  match existing with
  | None => consume_from (newHostSelfUpdateGrantState authorization)
  | Some existing =>
      if GrantState.matches existing authorization then
        if (GrantState.Phase existing ==? GrantPhaseConsumed) ||
           (GrantState.Phase existing ==? GrantPhaseApplied) ||
           (GrantState.Phase existing ==? GrantPhaseFailed)
        then Ret (Ok tt)
        else consume_from existing
      else
        let* blocked :=
          if GrantState.Phase existing ==? GrantPhasePrepared then
            let* now := call Now in
            Ret (GoTime.Before (GoTime.UTC now) (Binding.ExpiresAt (GrantState.binding existing)))
          else Ret false in
        if (blocked : bool) then Ret (Err ErrOther)
        else if GrantState.Phase existing ==? GrantPhaseConsumed then Ret (Err ErrOther)
        else consume_from (newHostSelfUpdateGrantState authorization)
  end.

Definition markHostSelfUpdateGrantApplied (authorization : Authorization.t) : io unit :=
  let? state := loadHostSelfUpdateGrantState in
  match state with
  | None => Ret (Err ErrOther)
  | Some g =>
      if negb (GrantState.matches g authorization) then Ret (Err ErrOther)
      else if GrantState.Phase g ==? GrantPhaseApplied then Ret (Ok tt)
      else if GrantState.Phase g !=? GrantPhaseConsumed then Ret (Err ErrOther)
      else saveHostSelfUpdateGrantState (g <| GrantState.Phase := GrantPhaseApplied |>)
  end.

(** The phase of the grant record that matches, [None] when there is none. *)
Definition hostSelfUpdateGrantPhase (authorization : Authorization.t) : io (option string) :=
  let? state := loadHostSelfUpdateGrantState in
  Ret (Ok (match state with
           | Some g => if GrantState.matches g authorization then Some (GrantState.Phase g) else None
           | None => None
           end)).

Definition hostSelfUpdateGrantApplied (authorization : Authorization.t) : io bool :=
  let? phase := hostSelfUpdateGrantPhase authorization in
  Ret (Ok (phase ==? Some GrantPhaseApplied)).

Definition failClosedUncertainStage (st : Status.t) (request : Request.t)
    (authorization : Authorization.t) : io Status.t :=
  let state := Status.state st in
  let binding := Authorization.binding authorization in
  if is_err (Status.validate st) ||
     (State.Phase state !=? PhaseStable) ||
     (Status.CurrentSlot st !=? State.ActiveSlot state) ||
     (State.ActiveSlot state !=? State.HealthySlot state) ||
     is_err (Request.validate request) ||
     is_err (Authorization.validate authorization) ||
     (Binding.Operation binding !=? "stage") ||
     (Binding.AttemptGeneration binding !=? Request.Generation request) ||
     (Binding.AgentVersion binding !=? Request.AgentVersion request) ||
     (Binding.ExecutorVersion binding !=? Request.ExecutorVersion request) ||
     (Binding.ReleaseCommit binding !=? Request.Commit request) ||
     (Binding.ArtifactSHA256 binding !=? Request.ArtifactSHA256 request) ||
     (Binding.AgentProtocolVersion binding !=? Request.AgentProtocolVersion request) ||
     (Binding.ExecutorProtocolVersion binding !=? Request.ExecutorProtocolVersion request) ||
     (Binding.MutationProtocolVersion binding !=? Request.MutationProtocolVersion request) ||
     (Binding.RecoveryProtocolVersion binding !=? Request.RecoveryProtocolVersion request) ||
     negb (Release.same (Binding.ReleaseIdentity binding) (Request.ReleaseIdentity request))
  then Ret (Err ErrOther)
  else
    let? grant := loadHostSelfUpdateGrantState in
    match grant with
    | None => Ret (Err ErrOther)
    | Some grant =>
        if (GrantState.Phase grant !=? GrantPhasePrepared) ||
           negb (GrantState.matches grant authorization)
        then Ret (Err ErrOther)
        else
          let failed := state <| State.FailedGeneration := Request.Generation request |> in
          let? _ := saveState failed in
          let? _ := cleanFailedHostSelfUpdateGrant failed in
          Ret (Ok (st <| Status.state := failed |> <| Status.LastAction := ActionNone |>))
    end.

(** [prepare] past its defaults and its checks of the built-in paths and
    architecture, which are constants of the binary: the timeout and the version,
    [ensureRoots], and the recovery of interrupted slot artifacts. *)
Definition prepare : io unit :=
  if (verificationTimeout <? 30 * GoTime.Second)%Z || (30 * GoTime.Minute <? verificationTimeout)%Z
  then Ret (Err ErrOther)
  else if negb (re_match versionPattern executorVersion) then Ret (Err ErrOther)
  else let? _ := call PrepareRoots in call RecoverArtifacts.

Definition convergeHostSelfUpdateStageAfterError (request : Request.t)
    (authorization : Authorization.t) : io (Status.t * bool) :=
  let? _ := prepare in
  let? st := status in
  let? phase := hostSelfUpdateGrantPhase authorization in
  let* applied :=
    if phase ==? Some GrantPhaseApplied
    then hostSelfUpdateStateEffectMatchesGrant (Status.state st) (Authorization.binding authorization)
    else Ret false in
  if (applied : bool) then Ret (Ok (st, true))
  else if (phase ==? Some GrantPhaseFailed) &&
     (State.Phase (Status.state st) ==? PhaseStable) &&
     (State.FailedGeneration (Status.state st) ==? Request.Generation request)
  then Ret (Ok (st, false))
  else Ret (Err ErrOther).

(** ** The request handler *)

(** [LocalExecutorRequest], as far as self-update reads it; [Foreign] stands for
    the payload fields of the other operations, which must all be absent. *)
Record request := MkRequest {
  Version : Z;
  Operation : string;
  ServiceID : string;
  HostSelfUpdate : option Request.t;
  HostSelfUpdateProof : option AgentProof.t;
  HostSelfUpdateGeneration : string;
  HostSelfUpdateGrant : option Authorization.t;
  Foreign : bool;
  RequestFence : Fence.t;
}.

Definition is_none {A} (x : option A) : bool := match x with None => true | Some _ => false end.

Definition operation_prefix : string := "host_self_update_".

Definition watchdogOperation : string := "host_self_update_watchdog_status".
Definition watchdogServiceID : string := "host-self-update-watchdog".

(** The self-update branches of [LocalExecutorRequest.Validate], the watchdog's
    status request included. *)
Definition validate_request (r : request) : check :=
  if (ServiceID r !=? TrimSpace (ServiceID r)) || negb (re_match identifierPattern (ServiceID r))
  then Err "local executor service_id is invalid"
  else if Operation r ==? watchdogOperation then
    if (Version r !=? LocalExecutorMutationProtocolVersion) || (ServiceID r !=? watchdogServiceID) ||
       Foreign r || negb (is_none (HostSelfUpdate r)) || negb (is_none (HostSelfUpdateProof r)) ||
       (HostSelfUpdateGeneration r !=? "") || negb (is_none (HostSelfUpdateGrant r)) ||
       (Fence.SourcePolicyRevision (RequestFence r) !=? 0)%Z ||
       (Fence.OwnershipEpoch (RequestFence r) !=? 0)%Z ||
       (Fence.OwnershipPolicyRevision (RequestFence r) !=? 0)%Z ||
       (Fence.ExecutorPolicyRevision (RequestFence r) !=? 0)%Z
    then Err "local executor host self-update watchdog status request is invalid" else Ok tt
  else if negb (existsb (String.eqb (Operation r))
      ["host_self_update_status"; "host_self_update_stage";
       "host_self_update_activate"; "host_self_update_reconcile"])
  then Err "unsupported local executor operation"
  else if (Version r !=? LocalExecutorMutationProtocolVersion) || Foreign r ||
     (Fence.SourcePolicyRevision (RequestFence r) <? 1)%Z ||
     (Fence.OwnershipEpoch (RequestFence r) <? 1)%Z ||
     (Fence.OwnershipPolicyRevision (RequestFence r) <? 1)%Z ||
     (Fence.ExecutorPolicyRevision (RequestFence r) <? 1)%Z
  then Err "local executor host self-update binding is invalid"
  else if Operation r ==? "host_self_update_status" then
    if negb (is_none (HostSelfUpdate r)) || negb (is_none (HostSelfUpdateProof r)) ||
       (HostSelfUpdateGeneration r !=? "") || negb (is_none (HostSelfUpdateGrant r))
    then Err "local executor host self-update status request is invalid" else Ok tt
  else if Operation r ==? "host_self_update_stage" then
    match HostSelfUpdate r, HostSelfUpdateGrant r with
    | Some update, Some grant =>
        if negb (is_none (HostSelfUpdateProof r)) || (HostSelfUpdateGeneration r !=? "")
        then Err "local executor host self-update stage request is invalid"
        else
          let! _ := Request.validate update in
          if is_err (Authorization.validate grant) ||
             (Binding.Operation (Authorization.binding grant) !=? "stage")
          then Err "local executor host self-update stage grant is invalid" else Ok tt
    | _, _ => Err "local executor host self-update stage request is invalid"
    end
  else if Operation r ==? "host_self_update_activate" then
    if negb (is_none (HostSelfUpdate r)) || negb (is_none (HostSelfUpdateProof r)) ||
       negb (is_none (HostSelfUpdateGrant r)) ||
       negb (re_match identifierPattern (HostSelfUpdateGeneration r)) ||
       (HostSelfUpdateGeneration r !=? TrimSpace (HostSelfUpdateGeneration r))
    then Err "local executor host self-update activation request is invalid" else Ok tt
  else
    match HostSelfUpdateProof r with
    | None => Err "local executor host self-update reconcile request is invalid"
    | Some proof =>
        if negb (is_none (HostSelfUpdate r)) || (HostSelfUpdateGeneration r !=? "")
        then Err "local executor host self-update reconcile request is invalid"
        else
          let! _ := AgentProof.validate proof in
          match HostSelfUpdateGrant r with
          | None => if proof !=? AgentProof.zero
                    then Err "local executor host self-update reconcile grant is required" else Ok tt
          | Some grant =>
              if is_err (Authorization.validate grant) ||
                 (Binding.Operation (Authorization.binding grant) !=? "reconcile")
              then Err "local executor host self-update reconcile grant is invalid" else Ok tt
          end
    end.

(** The response: a failure code or the status. *)
Inductive response := Failure (code : string) | Success (s : Status.t).

(** The end of a handler branch: an early failure code, or a status or error. *)
Definition outcome : Type := string + result err Status.t.

Definition failure_code (e : err) : string :=
  match e with
  | ErrBusy => "target_busy"
  | ErrStage => "stage_failed"
  | ErrRollback => "rollback_failed"
  | ErrPrecondition => "mutation_precondition_failed"
  | _ => "state_invalid"
  end.

Definition respond (o : outcome) : response :=
  match o with
  | inl code => Failure code
  | inr (Err e) => Failure (failure_code e)
  | inr (Ok st) => if is_err (Status.validate st) then Failure "internal_error" else Success st
  end.

Definition finish (p : io Status.t) : prog op outcome := bind p (fun r => Ret (inr r)).

(** A step of a handler branch whose error ends the branch. *)
Definition or_stop {A} (p : io A) (k : A -> prog op outcome) : prog op outcome :=
  bind p (fun r => match r with Ok a => k a | Err e => Ret (inr (Err e)) end).

(** [markHostSelfUpdateGrantApplied] at the end of a branch. *)
Definition mark_applied (st : Status.t) (authorization : Authorization.t) : prog op outcome :=
  finish (let? _ := markHostSelfUpdateGrantApplied authorization in Ret (Ok st)).

(** An applied grant must agree with the runtime state. *)
Definition replay_applied (st : Status.t) (authorization : Authorization.t) : prog op outcome :=
  let* matches := hostSelfUpdateStateEffectMatchesGrant (Status.state st) (Authorization.binding authorization) in
  Ret (inr (if matches : bool then Ok st else Err ErrOther)).

Definition handle_stage (policy : P) (panelURL : string) (fence : Fence.t) (update : Request.t)
    (authorization : Authorization.t) : prog op outcome :=
  let binding := Authorization.binding authorization in
  or_stop status (fun st =>
  if is_err (validateHostSelfUpdateGrantReplayBinding policy fence "stage" (Some update) None authorization)
  then Ret (inl "authorization_failed")
  else
  or_stop (hostSelfUpdateGrantPhase authorization) (fun phase =>
  if phase ==? Some GrantPhaseApplied then replay_applied st authorization
  else if phase ==? Some GrantPhaseFailed then
    Ret (inr (if (State.Phase (Status.state st) !=? PhaseStable) ||
                 (State.FailedGeneration (Status.state st) !=? Binding.AttemptGeneration binding)
              then Err ErrOther else Ok st))
  else
  let* already :=
    (if (phase ==? Some GrantPhaseConsumed) && (State.Phase (Status.state st) ==? PhaseStaged)
     then hostSelfUpdateStateEffectMatchesGrant (Status.state st) binding else Ret false) in
  if (already : bool) then mark_applied st authorization
  else if is_err (validateHostSelfUpdateGrantForOperation policy fence "stage" (Some update)
                    (Status.state st) authorization)
  then Ret (inl "authorization_failed")
  else
  let* authorized := authorizeHostSelfUpdate panelURL authorization in
  match authorized with
  | Err ErrUncertain => finish (failClosedUncertainStage st update authorization)
  | Err _ => Ret (inl "authorization_failed")
  | Ok _ =>
      or_stop (hostSelfUpdateGrantApplied authorization) (fun applied =>
      if (applied : bool) then replay_applied st authorization
      else
        let* staged := stage update in
        match staged with
        | Ok st => mark_applied st authorization
        | Err stageErr =>
            let* converged := convergeHostSelfUpdateStageAfterError update authorization in
            Ret (inr (match converged with
                      | Err convergenceErr => Err (join stageErr convergenceErr)
                      | Ok (st, true) => Ok st
                      | Ok (_, false) => Err stageErr
                      end))
        end)
  end)).

Definition handle_reconcile (policy : P) (panelURL : string) (fence : Fence.t) (proof : AgentProof.t)
    (grant : option Authorization.t) : prog op outcome :=
  or_stop status (fun st =>
  match grant with
  | None =>
      if (State.Phase (Status.state st) !=? PhaseStable) ||
         (Status.CurrentSlot st ==? State.ActiveSlot (Status.state st)) ||
         (proof !=? AgentProof.zero)
      then Ret (inl "authorization_failed")
      else finish (reconcile proof)
  | Some authorization =>
      let binding := Authorization.binding authorization in
      if is_err (validateHostSelfUpdateGrantReplayBinding policy fence "reconcile" None (Some proof) authorization)
      then Ret (inl "authorization_failed")
      else
      or_stop (hostSelfUpdateGrantPhase authorization) (fun phase =>
      if phase ==? Some GrantPhaseApplied then replay_applied st authorization
      else
      let* already :=
        (if (phase ==? Some GrantPhaseConsumed) && (State.Phase (Status.state st) ==? PhaseStable)
         then hostSelfUpdateStateEffectMatchesGrant (Status.state st) binding else Ret false) in
      if (already : bool) then mark_applied st authorization
      else if is_err (validateHostSelfUpdateGrantForOperation policy fence "reconcile" None
                        (Status.state st) authorization)
      then Ret (inl "authorization_failed")
      else
      let* authorized := authorizeHostSelfUpdate panelURL authorization in
      match authorized with
      | Err ErrUncertain => Ret (inl "authorization_uncertain")
      | Err _ => Ret (inl "authorization_failed")
      | Ok _ =>
          or_stop (hostSelfUpdateGrantApplied authorization) (fun applied =>
          if (applied : bool) then replay_applied st authorization
          else or_stop (reconcile proof) (fun st => mark_applied st authorization))
      end)
  end).

Definition handleLocalExecutorHostSelfUpdate (policy : P) (r : request) : prog op response :=
  if is_err (validate_request r) || negb (HasPrefix (Operation r) operation_prefix)
  then Ret (Failure "invalid_request")
  else
    match PanelURL policy with
    | None => Ret (Failure "policy_invalid")
    | Some panelURL =>
        if is_err (Policy_Validate policy) ||
           (SchemaVersion policy !=? LocalExecutorMutationPolicySchemaVersion) ||
           (ProtocolVersion policy !=? LocalExecutorMutationProtocolVersion)
        then Ret (Failure "policy_invalid")
        else if (ServiceID r !=? HostID policy) ||
           (Fence.SourcePolicyRevision (RequestFence r) !=? SourcePolicyRevision policy) ||
           (Fence.OwnershipPolicyRevision (RequestFence r) !=? ProjectionRevision policy) ||
           (Fence.ExecutorPolicyRevision (RequestFence r) !=? PolicyRevision policy)
        then Ret (Failure "config_mismatch")
        else
          let* prepared := prepare in
          match prepared with
          | Err _ => Ret (Failure "state_unavailable")
          | Ok _ =>
              let* o :=
                if Operation r ==? "host_self_update_status" then finish status
                else if Operation r ==? "host_self_update_stage" then
                  match HostSelfUpdate r, HostSelfUpdateGrant r with
                  | Some update, Some grant => handle_stage policy panelURL (RequestFence r) update grant
                  | _, _ => Ret (inl "invalid_request")
                  end
                else if Operation r ==? "host_self_update_activate" then
                  finish (activate (HostSelfUpdateGeneration r))
                else if Operation r ==? "host_self_update_reconcile" then
                  match HostSelfUpdateProof r with
                  | Some proof => handle_reconcile policy panelURL (RequestFence r) proof (HostSelfUpdateGrant r)
                  | None => Ret (inl "invalid_request")
                  end
                else Ret (inl "invalid_request") in
              Ret (respond o)
          end
    end.

(** ** The recovery watchdog *)

Definition watchdog_restore (st : Status.t) : io Status.t :=
  let healthy := State.HealthySlot (Status.state st) in
  let? _ := or_fail (reconstructCurrent healthy) ErrRollback in
  let? _ := or_fail (call RestartExecutor) ErrRollback in
  let? _ := or_fail (call (VerifyExecutor healthy (Status.state st))) ErrRollback in
  let? _ := or_fail (call RestartAgent) ErrRollback in
  let cleared := clearRolledBackHostSelfUpdate (Status.state st) in
  let? _ := saveState cleared in
  Ret (Ok (st <| Status.state := cleared |> <| Status.CurrentSlot := healthy |>
              <| Status.LastAction := ActionRollbackComplete |>
              <| Status.RollbackRequested := true |> <| Status.RestartRequested := true |>)).

Definition recoverExpiredHostSelfUpdate (recoverySlot : string) : io Status.t :=
  if negb (validHostSelfUpdateSlot recoverySlot) then Ret (Err ErrOther)
  else
    let? state := or_fail loadPersistedState ErrOther in
    if (State.ActiveSlot state !=? State.HealthySlot state) ||
       ((State.Phase state !=? PhaseStable) &&
        (State.PendingSlot state !=? otherHostSelfUpdateSlot (State.HealthySlot state)))
    then Ret (Err ErrOther)
    else
      let st := Status.mk state (State.HealthySlot state) executorVersion
                  LocalExecutorMutationProtocolVersion ActionNone false false in
      if recoverySlot !=? State.HealthySlot state then Ret (Ok st)
      else if (executorVersion !=? State.ActiveExecutorVersion state) ||
         (State.RecoveryProtocolVersion state !=? HostSelfUpdateRecoveryProtocolVersion)
      then Ret (Err ErrOther)
      else
        let? _ := prepare in
        let? preparedState := or_fail loadPersistedState ErrOther in
        if preparedState !=? state then Ret (Err ErrOther)
        else if (State.Phase state ==? PhaseStable) || (State.Phase state ==? PhaseStaged)
        then Ret (Ok st)
        else if (State.Phase state ==? PhaseActivating) || (State.Phase state ==? PhaseVerifying) then
          let* now := call Now in
          if GoTime.Before (GoTime.UTC now) (State.ActivationDeadline state) then Ret (Ok st)
          else
            let rollback := beginHostSelfUpdateRollback state in
            let? _ := saveState rollback in
            watchdog_restore (st <| Status.state := rollback |>)
        else if State.Phase state ==? PhaseRollingBack then watchdog_restore st
        else Ret (Err ErrOther).
End Runtime.
