(* ===== verification/SelfUpdateSafety.v ===== *)
(** Crash safety, authorization and recovery of the self-update runtime.

    Every entry point of the privileged runtime (the request handler with any
    request and policy, and the watchdog of either slot) keeps an invariant on the
    durable world at every point of its run, whatever fails and wherever it stops.
    The invariant is carried through histories of runs, so it also holds after any
    number of crashes and restarts.  Runs do not overlap: both entry points hold
    the host lifecycle lock. *)
From Stdlib Require Import Ascii String ZArith Lia.
From stdpp Require Import base decidable list strings relations.
From S2P Require Import Prelude Strings Regexp Patterns Semver Effects Sha256 Json.
From S2P Require Import SelfUpdateState SelfUpdateGrant SelfUpdateRuntime.

Open Scope string_scope.

(** ** Frames: programs that leave a part of the world alone *)

Section Frames.
Context {B : Type} (f : world -> B).

Definition keeps {A} (p : prog op A) : Prop := forall w, wp (fun v => f v = f w) p (fun _ _ => True) w.

Definition keeps_op {X} (o : op X) : Prop :=
  forall ans w x w', handle o ans w = Some (x, w') -> f w' = f w.

Lemma keeps_ret {A} (a : A) : keeps (Ret a).
Proof. by intros w. Qed.

Lemma wp_shift {A} (p : prog op A) w v u :
  f v = f w -> wp (fun u => f u = f v) p (fun _ _ => True) u -> wp (fun u => f u = f w) p (fun _ _ => True) u.
Proof.
  intros E. revert u. induction p as [a|X o k IH]; intros u [Hu Hp]; cbn in *.
  - split; [congruence|done].
  - split; [congruence|]. intros ans x w' Hh. apply IH; eauto.
Qed.

Lemma keeps_bind {A C} (p : prog op A) (k : A -> prog op C) :
  keeps p -> (forall a, keeps (k a)) -> keeps (bind p k).
Proof.
  intros Hp Hk w. apply wp_bind. eapply wp_mono; [|apply Hp]. intros a v Hv _.
  apply (wp_shift _ w v); [exact Hv|apply Hk].
Qed.

Lemma keeps_bind_ok {E A C} (p : prog op (result E A)) (k : A -> prog op (result E C)) :
  keeps p -> (forall a, keeps (k a)) -> keeps (bind_ok p k).
Proof. intros Hp Hk. apply keeps_bind; [done|]. intros [a|e]; [apply Hk|apply keeps_ret]. Qed.

Lemma keeps_call {X} (o : op X) : keeps_op o -> keeps (call o).
Proof. intros Ho w. apply wp_call; [done|]. intros ans x w' E. split; [by eapply Ho|done]. Qed.

Lemma keeps_or_fail {A} (p : io A) e : keeps p -> keeps (or_fail p e).
Proof. intros Hp. apply keeps_bind; [done|]. intros r. apply keeps_ret. Qed.

Lemma keeps_or_stop {A} (p : io A) (k : A -> prog op outcome) :
  keeps p -> (forall a, keeps (k a)) -> keeps (or_stop p k).
Proof. intros Hp Hk. apply keeps_bind; [done|]. intros [a|e]; [apply Hk|apply keeps_ret]. Qed.

Lemma keeps_finish (p : io Status.t) : keeps p -> keeps (finish p).
Proof. intros Hp. apply keeps_bind; [done|]. intros r. apply keeps_ret. Qed.

(** What a frame gives the crash logic: the invariant and the postcondition need
    only be known up to the kept part. *)
Lemma wp_keeps {A} (I : world -> Prop) (p : prog op A) (Q : A -> world -> Prop) w :
  keeps p -> (forall v, f v = f w -> I v) -> (forall a v, f v = f w -> Q a v) -> wp I p Q w.
Proof.
  intros Hp HI HQ. specialize (Hp w).
  assert (Hgen : forall u, wp (fun v => f v = f w) p (fun _ _ => True) u -> wp I p Q u).
  { clear Hp. induction p as [a|X o k IH]; intros u [Hu Hp]; cbn; split; eauto. }
  auto.
Qed.
End Frames.

Ltac keeps_op_tac :=
  let ans := fresh "ans" in
  intros ans ? ? ? ?; destruct ans; cbn in *; simplify_eq; done.

Ltac keeps_step :=
  match goal with
  | |- keeps _ (Ret _) => apply keeps_ret
  | |- keeps _ (lift _) => apply keeps_ret
  | |- keeps _ (bind_ok _ _) => apply keeps_bind_ok; [|intros ?]
  | |- keeps _ (bind _ _) => apply keeps_bind; [|intros ?]
  | |- keeps _ (or_fail _ _) => apply keeps_or_fail
  | |- keeps _ (or_stop _ _) => apply keeps_or_stop; [|intros ?]
  | |- keeps _ (finish _) => apply keeps_finish
  | |- keeps _ (call _) => apply keeps_call; keeps_op_tac
  | |- keeps _ (if ?b then _ else _) => destruct b
  | |- keeps _ (match ?x with _ => _ end) => destruct x
  | |- keeps _ (let _ := _ in _) => cbv zeta
  end.

Create HintDb keeps_db.
Ltac solve_keeps := cbv zeta; repeat (first [solve [eauto with keeps_db] | keeps_step]).

(** ** Reading and writing the durable world *)

(** Read-only programs: they keep the whole world. *)
Definition reads {A} (p : prog op A) : Prop := keeps (fun w : world => w) p.

Lemma wp_reads {A} (I : world -> Prop) (p : prog op A) (Q : A -> world -> Prop) w :
  reads p -> I w -> (forall a, Q a w) -> wp I p Q w.
Proof. intros Hp HI HQ. apply (wp_keeps (fun w => w)); [done| |]; intros; subst; auto. Qed.

Section Basic.
Context (I : world -> Prop).

Ltac op_cases :=
  apply wp_call; [assumption|];
  let ans := fresh "ans" in let E := fresh "E" in
  intros ans ? ? E; destruct ans; cbn in E; try discriminate E; injection E as <- <-; split; eauto.

Lemma wp_readLink Q w :
  I w -> (forall slot, current w = Some slot -> Q (Ok slot) w) -> Q (Err ErrOther) w ->
  wp I (call ReadLink) Q w.
Proof. intros. op_cases. destruct (current w) eqn:E; cbn; eauto. Qed.

Lemma wp_readCurrentSlot Q w :
  I w -> (forall slot, current w = Some slot -> valid_slot slot -> Q (Ok slot) w) ->
  Q (Err ErrOther) w -> wp I readCurrentSlot Q w.
Proof.
  intros HI H1 H2. apply wp_bind_ok, wp_readLink; [done| |done]. intros slot E.
  destruct (validHostSelfUpdateSlot slot) eqn:Hv; apply wp_ret; auto.
  apply H1; [done|]. by apply validHostSelfUpdateSlot_spec.
Qed.

Lemma wp_loadPersistedState Q w :
  I w ->
  (forall s, state_file w = Some s -> wf s -> Q (Ok s) w) ->
  (forall e, (e = ErrNotExist -> state_file w = None) -> Q (Err e) w) ->
  wp I loadPersistedState Q w.
Proof.
  intros HI H1 H2. apply wp_bind_ok. op_cases; [|by apply H2].
  destruct (state_file w) as [s|] eqn:E; cbv beta iota; [|auto].
  apply wp_bind_ok, wp_ret; [done|]. destruct (State.validate s) as [[]|] eqn:Hv; cbn [other]; [|by apply H2].
  apply wp_ret; [done|]. apply H1; [done|]. by apply validate_wf.
Qed.

Lemma wp_loadGrant Q w :
  I w -> (grant_file w = None -> Q (Ok None) w) ->
  (forall g, grant_file w = Some g -> GrantState.validate g = Ok tt -> Q (Ok (Some g)) w) ->
  Q (Err ErrOther) w -> wp I loadHostSelfUpdateGrantState Q w.
Proof.
  intros HI H1 H2 H3. apply wp_bind_ok. op_cases.
  destruct (grant_file w) as [g|] eqn:E; [|by apply wp_ret; auto].
  apply wp_bind_ok, wp_ret; [done|]. destruct (GrantState.validate g) as [[]|] eqn:Hv; cbn [other]; [|done].
  apply wp_ret; auto.
Qed.

(** A write either did not happen, or happened and may still be reported failed. *)
Lemma wp_saveState s Q w :
  I w -> Q (Err ErrOther) w ->
  (wf s -> I (w <| state_file := Some s |>) /\
           Q (Err ErrOther) (w <| state_file := Some s |>) /\ Q (Ok tt) (w <| state_file := Some s |>)) ->
  wp I (saveState s) Q w.
Proof.
  intros HI H1 H2. apply wp_bind_ok, wp_ret; [done|].
  destruct (State.validate s) as [[]|] eqn:Hv; cbn [other]; [|done].
  apply validate_wf in Hv. destruct (H2 Hv) as (? & ? & ?). op_cases.
Qed.

Lemma wp_saveGrant g Q w :
  I w -> Q (Err ErrOther) w ->
  (GrantState.validate g = Ok tt ->
   I (w <| grant_file := Some g |>) /\
   Q (Err ErrOther) (w <| grant_file := Some g |>) /\ Q (Ok tt) (w <| grant_file := Some g |>)) ->
  wp I (saveHostSelfUpdateGrantState g) Q w.
Proof.
  intros HI H1 H2. apply wp_bind_ok, wp_ret; [done|].
  destruct (GrantState.validate g) as [[]|] eqn:Hv; cbn [other]; [|done].
  destruct (H2 eq_refl) as (? & ? & ?). op_cases.
Qed.

Lemma wp_replaceCurrent slot force Q w :
  I w -> Q (Err ErrOther) w ->
  (valid_slot slot ->
   I (w <| current := Some slot |>) /\
   Q (Err ErrOther) (w <| current := Some slot |>) /\ Q (Ok tt) (w <| current := Some slot |>)) ->
  wp I (replaceCurrent slot force) Q w.
Proof.
  intros HI H1 H2. unfold replaceCurrent.
  destruct (validHostSelfUpdateSlot slot) eqn:Hv; [|by apply wp_ret]. cbn [negb].
  apply validHostSelfUpdateSlot_spec in Hv. destruct (H2 Hv) as (? & ? & ?).
  apply wp_bind_ok. op_cases. op_cases.
Qed.

Lemma wp_observation {A} (o : op (result err A)) Q w :
  keeps_op (fun w => w) o -> I w -> (forall r, Q r w) -> wp I (call o) Q w.
Proof. intros Ho HI HQ. apply wp_call; [done|]. intros ans x w' E. apply Ho in E as ->. auto. Qed.

Lemma wp_or_fail {A} (p : io A) e Q w :
  wp I p (fun r v => match r with Ok a => Q (Ok a) v | Err _ => Q (Err e) v end) w ->
  wp I (or_fail p e) Q w.
Proof.
  intros Hp. apply wp_bind. eapply wp_mono; [|exact Hp]. by intros [a|e'] v HI Hv; apply wp_ret.
Qed.
End Basic.

(** ** The invariant *)

(** The durable record is well formed and its link is the healthy slot, or the
    slot being tried while the transition that guards it is in progress. *)
Definition slots_ok (link : option string) (s : State.t) : Prop :=
  wf s /\ State.ActiveSlot s = State.HealthySlot s /\
  (link = Some (State.HealthySlot s) \/
   active_phase (State.Phase s) /\ link = Some (State.PendingSlot s)).

(** A Panel receipt for staging exactly this request. *)
Definition stage_receipt (request : Request.t) (b : Binding.t) : Prop :=
  Binding.Operation b = "stage" /\
  sameHostSelfUpdateRequestIdentity request (Binding.request b) = true.

Definition licensed (rs : list Binding.t) (s : State.t) : Prop :=
  State.Phase s <> PhaseStable -> exists b, b ∈ rs /\ stage_receipt (State.pending_request s) b.

(** A grant recorded as consumed or applied has its receipt from the Panel. *)
Definition receipted (rs : list Binding.t) (g : GrantState.t) : Prop :=
  GrantState.Phase g = GrantPhaseConsumed \/ GrantState.Phase g = GrantPhaseApplied ->
  exists b, GrantState.Receipt g = Some b /\ b ∈ rs.

(** A consume request leaves the host only after the matching prepared record is durable. *)
Definition fenced (e : Authorization.t * option GrantState.t) : Prop :=
  exists g, e.2 = Some g /\ GrantState.matches g e.1 = true /\ GrantState.Phase g = GrantPhasePrepared.

Record inv (w : world) : Prop := Inv {
  inv_slots : match state_file w with
              | Some s => slots_ok (current w) s
              | None => current w = Some HostSelfUpdateSlotA
              end;
  inv_licensed : forall s, state_file w = Some s -> licensed (receipts w) s;
  inv_receipted : forall g, grant_file w = Some g -> receipted (receipts w) g;
  inv_fenced : Forall fenced (sent w);
}.

Lemma inv_write_state w s :
  inv w -> slots_ok (current w) s -> licensed (receipts w) s -> inv (w <| state_file := Some s |>).
Proof. intros [? ? ? ?] Hs Hl. constructor; cbn; try done. by intros ? [= <-]. Qed.

Lemma inv_write_link w s slot :
  inv w -> state_file w = Some s -> slots_ok (Some slot) s -> inv (w <| current := Some slot |>).
Proof. intros [? ? ? ?] E Hs. constructor; cbn; try done. by rewrite E. Qed.

Lemma inv_write_grant w g :
  inv w -> receipted (receipts w) g -> inv (w <| grant_file := Some g |>).
Proof. intros [? ? ? ?] Hg. constructor; cbn; try done. by intros ? [= <-]. Qed.

Lemma inv_remove_grant w : inv w -> inv (w <| grant_file := None |>).
Proof. intros [? ? ? ?]. constructor; cbn; done. Qed.

Lemma inv_state w s : inv w -> state_file w = Some s -> slots_ok (current w) s /\ licensed (receipts w) s.
Proof. intros [Hs Hl _ _] E. rewrite E in Hs. auto. Qed.

(** *** How the transitions move the slots *)

Lemma slots_ok_rollback link s :
  slots_ok link s -> active_phase (State.Phase s) -> slots_ok link (beginHostSelfUpdateRollback s).
Proof.
  intros (Hwf & Ha & Hl) Hp. split; [by apply rollback_wf|]. split; [exact Ha|].
  destruct Hl as [Hl|[_ Hl]]; [by left|right]. split; [by right; right|exact Hl].
Qed.

Lemma slots_ok_clear s :
  wf s -> State.Phase s <> PhaseStable ->
  slots_ok (Some (State.HealthySlot s)) (clearRolledBackHostSelfUpdate s).
Proof. intros Hwf Hp. split; [by apply clear_rolled_back_wf|]. split; [done|by left]. Qed.

Lemma slots_ok_healthy link s : slots_ok link s -> slots_ok (Some (State.HealthySlot s)) s.
Proof. intros (? & ? & _). split; [done|]. split; [done|by left]. Qed.

Lemma slots_ok_pending link s :
  slots_ok link s -> active_phase (State.Phase s) -> slots_ok (Some (State.PendingSlot s)) s.
Proof. intros (? & ? & _) ?. split; [done|]. split; [done|by right]. Qed.

Lemma slots_ok_verification link s o s' action :
  slots_ok link s -> active_phase (State.Phase s) -> link = Some (Observation.CurrentSlot o) ->
  verification s o s' action -> slots_ok link s'.
Proof.
  intros Hs Hp Hl []; [by apply slots_ok_rollback|done|].
  destruct Hs as (Hwf & _). split; [by apply commit_wf|]. split; [done|]. left. cbn. congruence.
Qed.

Lemma slots_ok_verifying link s :
  slots_ok link s -> State.Phase s = PhaseActivating \/ State.Phase s = PhaseVerifying ->
  slots_ok link (s <| State.Phase := PhaseVerifying |>).
Proof.
  intros (Hwf & Ha & Hl) Hp. assert (Hact : active_phase (State.Phase s)) by (unfold active_phase; tauto).
  split; [apply active_wf; [done|done|by right; left]|]. split; [exact Ha|].
  destruct Hl as [Hl|[_ Hl]]; [by left|right]. split; [by right; left|exact Hl].
Qed.

Lemma slots_ok_reconcile link s o s' action :
  slots_ok link s -> link = Some (Observation.CurrentSlot o) -> reconciliation s o s' action ->
  slots_ok link s'.
Proof.
  intros Hs Hl Hr. destruct Hr as [| | |a Hp _ _|Hp|t a Hp Hv| | |Hp Hc]; try done.
  - apply slots_ok_rollback; [done|by left].
  - apply slots_ok_verifying; tauto.
  - eapply slots_ok_verification; [apply slots_ok_verifying; [done|tauto]|by right; left|done|done].
  - rewrite Hl, Hc. apply slots_ok_clear; [apply Hs|phase_contra].
Qed.

(** What a transition does to the license: it stays, or nothing is pending any more. *)
Definition same_license (s s' : State.t) : Prop :=
  State.Phase s' = PhaseStable \/
  State.Phase s <> PhaseStable /\ State.pending_request s' = State.pending_request s.

Lemma licensed_mono rs s s' : licensed rs s -> same_license s s' -> licensed rs s'.
Proof. intros Hl [Hs|[Hs E]] Hp; [done|]. rewrite E. auto. Qed.

Lemma same_license_refl s : State.Phase s <> PhaseStable -> same_license s s.
Proof. by right. Qed.

Lemma same_license_rollback s : State.Phase s <> PhaseStable -> same_license s (beginHostSelfUpdateRollback s).
Proof. by right. Qed.

Lemma active_not_stable s : active_phase (State.Phase s) -> State.Phase s <> PhaseStable.
Proof. intros H. phase_contra. Qed.

Lemma licensed_reconcile rs s o s' action :
  licensed rs s -> reconciliation s o s' action -> licensed rs s'.
Proof.
  intros Hl Hr. destruct Hr as [| | |a Hp _ _|Hp|t a Hp Hv| | |Hp Hc]; try done.
  - eapply licensed_mono; [exact Hl|]. apply same_license_rollback. phase_contra.
  - eapply licensed_mono; [exact Hl|]. right. split; [phase_contra|done].
  - eapply licensed_mono; [exact Hl|].
    assert (State.Phase s <> PhaseStable) by phase_contra.
    destruct Hv; [by right|by right|by left].
  - eapply licensed_mono; [exact Hl|by left].
Qed.

(** ** The programs keep the invariant *)

Lemma reads_effect s b : reads (hostSelfUpdateStateEffectMatchesGrant s b).
Proof.
  unfold reads, hostSelfUpdateStateEffectMatchesGrant, readCurrentSlot. solve_keeps.
Qed.

(** The effect of a grant is checked only under a condition. *)
Lemma wp_effect_if (I : world -> Prop) (c : bool) s b (Q : bool -> world -> Prop) w :
  I w -> (forall m, Q (c && m) w) ->
  wp I (if c then hostSelfUpdateStateEffectMatchesGrant s b else Ret false) Q w.
Proof.
  intros HI HQ. destruct c; [|by apply wp_ret; [|apply (HQ true)]].
  apply wp_reads; [apply reads_effect|done|]. intros m. apply (HQ m).
Qed.

Ltac wp_step' :=
  match goal with
  | |- wp _ (if ?c then hostSelfUpdateStateEffectMatchesGrant _ _ else Ret false) _ _ =>
      apply wp_effect_if; [assumption|intros ?]
  | |- wp _ (hostSelfUpdateStateEffectMatchesGrant _ _) _ _ =>
      apply wp_reads; [apply reads_effect|assumption|intros ?]
  | |- wp _ (bind_ok _ _) _ _ => apply wp_bind_ok
  | |- wp _ (bind _ _) _ _ => apply wp_bind
  | |- wp _ (or_fail _ _) _ _ => apply wp_or_fail
  | |- wp _ (lift _) _ _ => apply wp_ret; [assumption|]
  | |- wp _ (if ?b then _ else _) _ _ => let E := fresh "E" in destruct b eqn:E
  | |- wp _ (let _ := _ in _) _ _ => cbv zeta
  end.

Lemma wp_conseq {A} (I : world -> Prop) (p : prog op A) (Q Q' : A -> world -> Prop) w :
  wp I p Q w -> (forall a v, I v -> Q a v -> Q' a v) -> wp I p Q' w.
Proof. intros Hp HQ. by eapply wp_mono. Qed.

(** Uses a specification and continues with the invariant and its postcondition. *)
Tactic Notation "wp_use" uconstr(spec) "as" simple_intropattern(r) ident(v) ident(Hinv) simple_intropattern(H) :=
  eapply wp_conseq; [eapply spec; try eassumption; try done | intros r v Hinv H].

Section Specs.
Context `{TimeZones} {P : Type} `{ExecutorPolicy P}.
Variable executorVersion : string.
Variable verificationTimeout : Z.

(** The link, the state and the receipts are as before. *)
Definition grant_only (w w' : world) : Prop :=
  current w' = current w /\ state_file w' = state_file w /\ receipts w' = receipts w.

Lemma grant_only_refl w : grant_only w w.
Proof. done. Qed.

(** The state and what was read agree with the world. *)
Definition sees (w : world) (r : result err Status.t) (w' : world) : Prop :=
  receipts w' = receipts w /\
  match r with
  | Ok st => state_file w' = Some (Status.state st) /\ current w' = Some (Status.CurrentSlot st)
  | Err _ => True
  end.

Lemma cleanFailed_spec s w :
  inv w -> wp inv (cleanFailedHostSelfUpdateGrant s) (fun _ w' => grant_only w w') w.
Proof.
  intros Hw. unfold cleanFailedHostSelfUpdateGrant. repeat wp_step'; [by apply wp_ret|].
  apply wp_loadGrant; [done| | |done]; [intros _; by apply wp_ret|]. intros g _ _.
  repeat wp_step'; [by apply wp_ret..|].
  apply wp_saveGrant; [done|done|]. intros _. split; [|done].
  apply inv_write_grant; [done|]. intros [Hx|Hx]; discriminate Hx.
Qed.

Lemma receipted_applied rs g :
  receipted rs g -> GrantState.Phase g = GrantPhaseConsumed ->
  receipted rs (g <| GrantState.Phase := GrantPhaseApplied |>).
Proof. intros Hg Hp _. apply Hg. by left. Qed.

Lemma markDurable_spec g w :
  inv w -> receipted (receipts w) g ->
  wp inv (markDurableHostSelfUpdateGrantApplied g) (fun _ w' => grant_only w w') w.
Proof.
  intros Hw Hg. unfold markDurableHostSelfUpdateGrantApplied. wp_step'; [by apply wp_ret|].
  bool_to_prop. apply wp_saveGrant; [done|done|]. intros _. split; [|done].
  apply inv_write_grant; [done|]. by apply receipted_applied.
Qed.

Lemma grant_generation g :
  GrantState.validate g = Ok tt ->
  re_match identifierPattern (Binding.AttemptGeneration (GrantState.binding g)) = true.
Proof.
  unfold GrantState.validate. intros Hv. destruct (_ || _) eqn:E in Hv; [done|]. clear Hv.
  apply orb_false_iff in E as [_ E]. apply check_ok in E.
  unfold Binding.validate in E. destruct (existsb _ _) eqn:Ex in E; [done|]. clear E.
  cbn in Ex. bool_to_prop. done.
Qed.

Lemma mark_failed_slots link s g :
  slots_ok link s -> State.Phase s = PhaseStable -> re_match identifierPattern g = true ->
  slots_ok link (s <| State.FailedGeneration := g |>).
Proof.
  intros (Hwf & Ha & Hl) Hp Hg. split; [by apply mark_failed_wf|]. split; [exact Ha|].
  destruct Hl as [Hl|[Hx _]]; [by left|]. phase_contra.
Qed.

Lemma inv_mark_failed w s g :
  inv w -> state_file w = Some s -> State.Phase s = PhaseStable ->
  wf (s <| State.FailedGeneration := g |>) ->
  inv (w <| state_file := Some (s <| State.FailedGeneration := g |>) |>).
Proof.
  intros Hw Es Hp Hwf. destruct (inv_state _ _ Hw Es) as [(_ & Ha & Hl) _].
  apply inv_write_state; [done| |by intros Hx; destruct Hx].
  split; [done|]. split; [exact Ha|]. destruct Hl as [Hl|[Hx _]]; [by left|]. phase_contra.
Qed.

Definition state_spec (w : world) (r : result err State.t) (w' : world) : Prop :=
  current w' = current w /\ receipts w' = receipts w /\
  match r with Ok s => state_file w' = Some s | Err _ => True end.

Lemma apply_consumed_spec s g w :
  inv w -> state_file w = Some s -> receipted (receipts w) g ->
  wp inv (markDurableHostSelfUpdateGrantApplied g)
    (fun r v => match r with
                | Ok _ => wp inv (Ret (Ok s)) (state_spec w) v
                | Err e => state_spec w (Err e) v
                end) w.
Proof.
  intros Hw Es Hg. wp_use markDurable_spec as [[]|e] v Hv (H1 & H2 & H3).
  - apply wp_ret; [done|]. by repeat split; congruence.
  - by repeat split.
Qed.

(** The generation is recorded as failed; what is left is the grant record. *)
Lemma mark_failed_tail failed w v :
  inv v -> state_file v = Some failed -> current v = current w -> receipts v = receipts w ->
  wp inv (let? _ := cleanFailedHostSelfUpdateGrant failed in Ret (Ok failed)) (state_spec w) v.
Proof.
  intros Hv Es H1 H2. wp_step'. wp_use cleanFailed_spec as [[]|e] u Hu (K1 & K2 & K3).
  - apply wp_ret; [done|]. by repeat split; congruence.
  - by repeat split; congruence.
Qed.

Lemma recoverDurable_spec s w :
  inv w -> state_file w = Some s ->
  wp inv (recoverDurableHostSelfUpdateGrant s) (state_spec w) w.
Proof.
  intros Hw Es. unfold recoverDurableHostSelfUpdateGrant. wp_step'.
  apply wp_loadGrant; [done|intros _; by apply wp_ret| |done]. intros g Eg Hval.
  pose proof (inv_receipted _ Hw _ Eg) as Hrec. repeat wp_step'.
  - wp_use cleanFailed_spec as [[]|e] v Hv (H1 & H2 & H3).
    + apply wp_ret; [done|]. by repeat split; congruence.
    + by repeat split.
  - by apply wp_ret.
  - by apply wp_ret.
  - by apply apply_consumed_spec.
  - bool_to_prop. apply wp_saveState; [done|done|]. intros Hwf.
    split; [by apply inv_mark_failed|]. split; [done|]. by apply mark_failed_tail; [apply inv_mark_failed|done|done|done].
  - apply wp_ret; [done|]. bool_to_prop. apply mark_failed_tail; [done| |done|done]. rewrite Es. f_equal.
    destruct s. cbn in *. congruence.
  - by apply wp_ret.
  - apply wp_call; [done|]. intros ans r w' E'. destruct ans; cbn in E'; try discriminate E';
      injection E' as <- <-; (split; [by first [assumption|apply inv_remove_grant]|]);
      [apply wp_ret; [by apply inv_remove_grant|done]|done|done].
  - by apply apply_consumed_spec.
  - by apply wp_ret.
  - by apply wp_ret.
Qed.

Lemma loadState_spec slot w :
  inv w -> current w = Some slot ->
  wp inv (loadState executorVersion slot) (state_spec w) w.
Proof.
  intros Hw Ec. unfold loadState. wp_step'. apply wp_loadPersistedState; [done| |].
  { intros s Es _. by apply wp_ret. }
  intros e He. repeat wp_step'; [by apply wp_ret..|]. bool_to_prop. subst.
  apply wp_call; [done|]. intros ans r v E. destruct ans; cbn in E; try discriminate E;
    injection E as <- <-; (split; [done|]); [done|]. repeat wp_step'; [by apply wp_ret|].
  destruct (NewHostSelfUpdateState executorVersion executorVersion) as [s|] eqn:En; cbn [other]; [|done].
  repeat wp_step'. pose proof (new_state_stable _ _ _ En) as Hp.
  apply wp_saveState; [done|done|]. intros Hwf.
  assert (Hinv : inv (w <| state_file := Some (s <| State.ActiveSlot := HostSelfUpdateSlotA |>
                        <| State.HealthySlot := HostSelfUpdateSlotA |>) |>)).
  { apply inv_write_state; [done| |by intros Hx; destruct Hx].
    split; [done|]. split; [done|]. left. exact Ec. }
  split; [done|]. split; [done|]. by apply wp_ret.
Qed.

Lemma status_spec recover w :
  inv w -> wp inv (statusWithGrantRecovery executorVersion recover) (sees w) w.
Proof.
  intros Hw. unfold statusWithGrantRecovery. wp_step'. apply wp_readCurrentSlot; [done| |done].
  intros slot Ec _. wp_step'. wp_use loadState_spec as [s|e] v Hv (H1 & H2 & H3); [|done].
  wp_step'. eapply wp_conseq with (Q := state_spec v).
  { destruct recover; [by apply recoverDurable_spec|by apply wp_ret]. }
  intros [t|e] u Hu (K1 & K2 & K3); [|by split; [congruence|]].
  repeat wp_step'. cbn [Status.validate other].
  destruct (Status.validate _) as [[]|]; cbn [other]; [|by split; [congruence|]].
  apply wp_ret; [done|]. split; [congruence|]. cbn. split; congruence.
Qed.

Lemma failStaged_spec s w :
  inv w -> state_file w = Some s ->
  wp inv (failStagedHostSelfUpdate s) (fun _ _ => True) w.
Proof.
  intros Hw Es. unfold failStagedHostSelfUpdate. repeat wp_step'; [by apply wp_ret|].
  bool_to_prop. destruct (inv_state _ _ Hw Es) as [(Hwf & Ha & Hl) _].
  assert (Hinv : inv (w <| state_file := Some (clearRolledBackHostSelfUpdate s) |>)).
  { apply inv_write_state; [done| |by intros Hx; destruct Hx].
    destruct Hl as [-> | [Hx _]]; [apply slots_ok_clear; [done|]|]; phase_contra. }
  apply wp_saveState; [done|done|]. intros _. split; [done|]. split; [done|].
  wp_step'. wp_use cleanFailed_spec as [[]|e] v Hv _; [by apply wp_ret|done].
Qed.

Lemma same_identity_refl r : sameHostSelfUpdateRequestIdentity r r = true.
Proof.
  unfold sameHostSelfUpdateRequestIdentity, Release.same, GoTime.Equal.
  rewrite Z.eqb_refl. by repeat (rewrite bool_decide_eq_true_2 by done).
Qed.

(** Staging needs the receipt of this very request. *)
Lemma stage_spec request w :
  inv w -> (exists b, b ∈ receipts w /\ stage_receipt request b) ->
  wp inv (stage executorVersion request) (fun _ _ => True) w.
Proof.
  intros Hw Hlic. unfold stage, mutationStatus. wp_step'.
  wp_use status_spec as [st|e] v Hv [Hr Hst]; [|done]. destruct Hst as [Es Ec].
  repeat wp_step'; try (by apply wp_ret).
  apply wp_call; [done|]. intros ans r u E'. destruct ans; cbn in E'; try discriminate E';
    injection E' as <- <-; (split; [done|]); [done|].
  repeat wp_step'; [by apply wp_ret|].
  apply wp_call; [done|]. intros ans dig u E'. destruct ans; cbn in E'; try discriminate E';
    injection E' as <- <-; (split; [done|]); [done|].
  repeat wp_step'.
  destruct (StageHostSelfUpdate _ _ _ _) as [next|] eqn:En; cbn [other]; [|done].
  repeat wp_step'. apply wp_observation; [keeps_op_tac|done|]. intros [[]|e]; [|done].
  wp_step'. bool_to_prop. pose proof (stage_inv _ _ _ _ _ En) as
    (_ & _ & _ & _ & _ & _ & _ & Hreq & _ & Hph & _).
  assert (Hinv : inv (v <| state_file := Some next |>)).
  { apply inv_write_state; [done| |].
    - split; [by eapply stage_wf|]. unfold StageHostSelfUpdate in En. ok_inv En. injection En as <-.
      cbn. split; [congruence|]. left. congruence.
    - intros _. rewrite Hreq, Hr. exact Hlic. }
  apply wp_saveState; [done|done|]. intros _. split; [done|]. split; [done|].
  repeat wp_step'. apply wp_observation; [keeps_op_tac|done|]. intros [[]|e]; [|done]. by apply wp_ret.
Qed.

Lemma verifyPending_reads s : reads (verifyPendingHostSelfUpdateSlot s).
Proof. unfold reads, verifyPendingHostSelfUpdateSlot. solve_keeps. Qed.

(** Writing the rollback fence of an active transition is always safe. *)
Lemma fence_spec s e w :
  inv w -> slots_ok (current w) s -> licensed (receipts w) s -> active_phase (State.Phase s) ->
  wp inv (or_fail (saveState (beginHostSelfUpdateRollback s)) e) (fun _ _ => True) w.
Proof.
  intros Hw Hs Hl Hp. wp_step'. apply wp_saveState; [done|done|]. intros _. split; [|done].
  apply inv_write_state; [done|by apply slots_ok_rollback|].
  eapply licensed_mono; [exact Hl|]. by apply same_license_rollback, active_not_stable.
Qed.

Lemma inv_link_pending w s :
  inv w -> state_file w = Some s -> active_phase (State.Phase s) ->
  inv (w <| current := Some (State.PendingSlot s) |>).
Proof.
  intros Hw Es Hp. destruct (inv_state _ _ Hw Es) as [Hs _]. eapply inv_write_link; [done|done|].
  by eapply slots_ok_pending.
Qed.

Lemma inv_link_healthy w s :
  inv w -> state_file w = Some s -> inv (w <| current := Some (State.HealthySlot s) |>).
Proof.
  intros Hw Es. destruct (inv_state _ _ Hw Es) as [Hs _]. eapply inv_write_link; [done|done|].
  by eapply slots_ok_healthy.
Qed.

Lemma switch_or_fence_spec s k w :
  inv w -> state_file w = Some s -> active_phase (State.Phase s) ->
  (forall v, inv v -> wp inv k (fun _ _ => True) v) ->
  wp inv (switch_or_fence s k) (fun _ _ => True) w.
Proof.
  intros Hw Es Hp Hk. unfold switch_or_fence.
  assert (Hfence : forall v, inv v -> state_file v = Some s ->
    wp inv (let? _ := or_fail (saveState (beginHostSelfUpdateRollback s)) ErrRollback in
            Ret (Err (A := Status.t) ErrRollback)) (fun _ _ => True) v).
  { intros v Hv Ev. destruct (inv_state _ _ Hv Ev) as [Hs Hl]. wp_step'.
    wp_use fence_spec as [[]|e] u Hu _; [by apply wp_ret|done]. }
  pose proof (inv_link_pending _ _ Hw Es Hp).
  wp_step'. apply wp_replaceCurrent; [done|by apply Hfence|]. intros _.
  split; [done|]. split; [by apply Hfence|by apply Hk].
Qed.

Lemma restart_then {A} (a : A) w : inv w -> wp inv (let? _ := call RestartAgent in Ret (Ok a)) (fun _ _ => True) w.
Proof.
  intros Hw. wp_step'. apply wp_observation; [keeps_op_tac|done|]. intros [[]|e]; [by apply wp_ret|done].
Qed.

Lemma activate_spec generation w :
  inv w -> wp inv (activate executorVersion verificationTimeout generation) (fun _ _ => True) w.
Proof.
  intros Hw. unfold activate, status. wp_step'.
  wp_use status_spec as [st|e] v Hv [Hr Hst]; [|done]. destruct Hst as [Es Ec].
  repeat wp_step'; [by apply wp_ret..|]. bool_to_prop.
  apply wp_observation; [keeps_op_tac|done|]. intros [[]|e]; [|done]. wp_step'.
  apply wp_reads; [apply verifyPending_reads|done|]. intros [[]|e].
  2:{ repeat wp_step'. wp_use failStaged_spec as [t|e'] u Hu _; [by apply wp_ret|done]. }
  wp_step'. apply wp_call; [done|]. intros ans now u E'. destruct ans; cbn in E'; try discriminate E'.
  injection E' as <- <-. split; [done|]. repeat wp_step'.
  destruct (BeginHostSelfUpdateActivation _ _ _) as [next|] eqn:En; cbn [other]; [|done]. wp_step'.
  destruct (inv_state _ _ Hv Es) as [(Hwf & Ha & _) Hl].
  unfold BeginHostSelfUpdateActivation in En. ok_inv En. injection En as <-.
  apply wp_saveState; [done|done|]. intros Hwf'.
  match goal with |- inv (_ <| state_file := Some ?s |>) /\ _ =>
    assert (Hinv : inv (v <| state_file := Some s |>)) end.
  { apply inv_write_state; [done| |].
    - split; [done|]. split; [exact Ha|]. left. cbn. congruence.
    - eapply licensed_mono; [exact Hl|]. right. split; [phase_contra|done]. }
  split; [done|]. split; [done|].
  apply switch_or_fence_spec; [done|done|by left|]. intros. by apply restart_then.
Qed.

Lemma apply_deadline_reads s o : reads (apply_deadline s o).
Proof. unfold reads, apply_deadline. solve_keeps. Qed.

Lemma apply_deadline_slot (I : world -> Prop) s o w :
  I w -> wp I (apply_deadline s o)
    (fun o' v => v = w /\ Observation.CurrentSlot o' = Observation.CurrentSlot o) w.
Proof.
  intros HI. unfold apply_deadline. repeat wp_step'; [|by apply wp_ret].
  apply wp_call; [done|]. intros ans now u E'. destruct ans; cbn in E'; try discriminate E'.
  injection E' as <- <-. split; [done|]. apply wp_ret; [done|]. by destruct (negb _).
Qed.

Lemma observation_slot st proof : Observation.CurrentSlot (observation executorVersion st proof) = Status.CurrentSlot st.
Proof.
  unfold observation. cbv zeta.
  destruct (_ && _) eqn:E1; [destruct (bool_decide (executorVersion = _)) eqn:E2|];
    destruct (negb (bool_decide (AgentProof.FailureCode proof = ""))); done.
Qed.

Lemma verify_or_fence_spec s k w :
  inv w -> slots_ok (current w) s -> licensed (receipts w) s -> active_phase (State.Phase s) ->
  wp inv k (fun _ _ => True) w ->
  wp inv (let* verified := verifyPendingHostSelfUpdateSlot s in
          match verified with
          | Ok _ => k
          | Err _ => let? _ := or_fail (saveState (beginHostSelfUpdateRollback s)) ErrRollback in
                     Ret (Err (A := Status.t) ErrRollback)
          end) (fun _ _ => True) w.
Proof.
  intros Hw Hs Hl Hp Hk. wp_step'. apply wp_reads; [apply verifyPending_reads|done|].
  intros [[]|e]; [done|]. wp_step'. wp_use fence_spec as [[]|e'] x Hx _; [by apply wp_ret|done].
Qed.

Lemma save_then_spec s (k : io Status.t) w :
  inv w -> slots_ok (current w) s -> licensed (receipts w) s ->
  wp inv k (fun _ _ => True) (w <| state_file := Some s |>) ->
  wp inv (let? _ := saveState s in k) (fun _ _ => True) w.
Proof.
  intros Hw Hs Hl Hk. wp_step'. apply wp_saveState; [done|done|]. intros _.
  split; [by apply inv_write_state|done].
Qed.

(** The two actions that touch the pending slot come with an active transition. *)
Lemma action_active s o s' action :
  reconciliation s o s' action -> action = ActionSwitchCurrent \/ action = ActionRestartAgent ->
  active_phase (State.Phase s').
Proof.
  intros Hr Ha. destruct Hr as [| |Hp|a ? ? Hx|Hp|t a Hp Hv| | |];
    try (destruct Ha as [Ha|Ha]; discriminate Ha).
  - by left.
  - by right; right.
  - by right; left.
  - destruct Hv as [|a Hx|]; try (destruct Ha as [Ha|Ha]; discriminate Ha). by right; left.
Qed.

(** The actions that follow a reconciliation. *)
Lemma reconcile_spec_rt proof w :
  inv w -> wp inv (reconcile executorVersion proof) (fun _ _ => True) w.
Proof.
  intros Hw. unfold reconcile, mutationStatus. wp_step'.
  wp_use status_spec as [st|e] v Hv [Hr Hst]; [|done]. destruct Hst as [Es Ec]. wp_step'.
  wp_use apply_deadline_slot as o u Hu [-> Ho]. rewrite observation_slot in Ho.
  do 2 wp_step'. destruct (ReconcileHostSelfUpdate _ _) as [[next action]|] eqn:En; cbn [other]; [|done].
  apply reconcile_inv in En as (_ & _ & Hrec).
  destruct (inv_state _ _ Hv Es) as [Hs Hl].
  assert (Hs' : slots_ok (current v) next) by (eapply slots_ok_reconcile; [done| |done]; congruence).
  assert (Hl' : licensed (receipts v) next) by (by eapply licensed_reconcile).
  pose proof (inv_write_state _ _ Hv Hs' Hl') as Hinv.
  pose proof (action_active _ _ _ _ Hrec) as Hact. cbv zeta.
  repeat match goal with |- wp _ (if ?b then _ else _) _ _ => destruct b eqn:?; bool_to_prop end.
  - apply verify_or_fence_spec; auto. apply save_then_spec; [done..|].
    apply switch_or_fence_spec; [done|done|auto|]. intros. by apply restart_then.
  - apply save_then_spec; [done..|]. repeat wp_step'. apply wp_replaceCurrent; [done|done|]. intros _.
    pose proof (inv_link_healthy _ next Hinv eq_refl). split; [done|]. split; [done|].
    repeat wp_step'. apply wp_observation; [keeps_op_tac|done|]. intros [[]|e]; [by apply wp_ret|done].
  - apply verify_or_fence_spec; auto. apply save_then_spec; [done..|]. by apply restart_then.
  - apply save_then_spec; [done..|]. by apply restart_then.
  - apply save_then_spec; [done..|]. by apply wp_ret.
Qed.

(** *** Grants *)

Ltac split_same :=
  repeat match goal with
  | H : _ && _ = true |- _ => apply andb_true_iff in H; destruct H
  | H : bool_decide _ = true |- _ => apply bool_decide_eq_true in H
  | H : (_ =? _)%Z = true |- _ => apply Z.eqb_eq in H
  end.

Ltac join_same :=
  repeat match goal with |- _ && _ = true => apply andb_true_iff; split end;
  first [apply bool_decide_eq_true; congruence | apply Z.eqb_eq; congruence | idtac].

Lemma release_same_trans a b c : Release.same a b = true -> Release.same b c = true -> Release.same a c = true.
Proof. unfold Release.same, GoTime.Equal. intros H1 H2. split_same. join_same. Qed.

Lemma release_same_sym a b : Release.same a b = true -> Release.same b a = true.
Proof. unfold Release.same, GoTime.Equal. intros H1. split_same. join_same. Qed.

Lemma binding_same_trans a b c : Binding.same a b = true -> Binding.same b c = true -> Binding.same a c = true.
Proof.
  unfold Binding.same, GoTime.Equal. intros H1 H2. split_same. join_same. eauto using release_same_trans.
Qed.

Lemma release_same_refl a : Release.same a a = true.
Proof. unfold Release.same, GoTime.Equal. join_same. Qed.

Lemma binding_same_refl a : Binding.same a a = true.
Proof. unfold Binding.same, GoTime.Equal. join_same. apply release_same_refl. Qed.

Lemma matches_new a : GrantState.matches (newHostSelfUpdateGrantState a) a = true.
Proof.
  unfold GrantState.matches. cbn. rewrite binding_same_refl. by apply bool_decide_eq_true.
Qed.

Lemma matches_same g a : GrantState.matches g a = true -> Binding.same (GrantState.binding g) (Authorization.binding a) = true.
Proof. unfold GrantState.matches. by destruct (Binding.same _ _). Qed.

Lemma grant_receipt g b :
  GrantState.validate g = Ok tt ->
  GrantState.Phase g = GrantPhaseConsumed \/ GrantState.Phase g = GrantPhaseApplied ->
  GrantState.Receipt g = Some b -> Binding.same b (GrantState.binding g) = true.
Proof.
  unfold GrantState.validate. intros Hv Hp Hb. rewrite Hb in Hv.
  destruct (_ || _) eqn:E in Hv; [done|]. clear E. destruct Hp as [Hp|Hp]; rewrite Hp in Hv; cbn in Hv;
  (destruct (Binding.validate b true); cbn in Hv; [|done]);
  by destruct (Binding.same b (GrantState.binding g)).
Qed.

Lemma grant_phase_cases g :
  GrantState.validate g = Ok tt ->
  GrantState.Phase g = GrantPhasePrepared \/ GrantState.Phase g = GrantPhaseConsumed \/
  GrantState.Phase g = GrantPhaseApplied \/ GrantState.Phase g = GrantPhaseFailed.
Proof.
  unfold GrantState.validate. intros Hv. destruct (_ || _) eqn:E in Hv; [done|]. clear Hv.
  bool_cases; tauto.
Qed.

(** The receipt of a grant that authorizes [a]. *)
Definition receipt_for (w : world) (a : Authorization.t) : Prop :=
  exists b, b ∈ receipts w /\ Binding.same b (Authorization.binding a) = true.

Definition failed_record (w : world) (a : Authorization.t) : Prop :=
  exists g, grant_file w = Some g /\ GrantState.matches g a = true /\ GrantState.Phase g = GrantPhaseFailed.

(** Authorizing keeps the link and the state; when it succeeds the Panel has
    confirmed this grant, unless its record says it failed. *)
Definition authorize_post (a : Authorization.t) (w : world) (r : result err unit) (w' : world) : Prop :=
  current w' = current w /\ state_file w' = state_file w /\
  (r = Ok tt -> receipt_for w' a \/ failed_record w a).

Lemma authorize_post_err a w e v :
  current v = current w -> state_file v = state_file w -> authorize_post a w (Err e) v.
Proof. intros H1 H2. split; [exact H1|]. split; [exact H2|]. intros Hx. discriminate Hx. Qed.

Lemma inv_consume w a :
  inv w -> fenced (a, grant_file w) -> inv (w <| sent := (sent w ++ [(a, grant_file w)])%list |>).
Proof.
  intros [? ? ? ?] Hf. constructor; cbn; try done. apply Forall_app. by repeat constructor.
Qed.

Lemma elem_of_snoc {A} (x y : A) l : x ∈ l -> x ∈ (l ++ [y])%list.
Proof. intros. apply elem_of_app. by left. Qed.

Lemma inv_receipt w b : inv w -> inv (w <| receipts := (receipts w ++ [b])%list |>).
Proof.
  intros [? Hl Hr ?]. constructor; cbn; try done.
  - intros s E Hp. destruct (Hl s E Hp) as (b' & Hb & Hs). eauto using elem_of_snoc.
  - intros g E Hp. destruct (Hr g E Hp) as (b' & Hb & Hs). eauto using elem_of_snoc.
Qed.

(** One consume request, sent while the prepared record [g] is durable. *)
Lemma consume_spec url a g w :
  inv w -> grant_file w = Some g -> GrantState.matches g a = true -> GrantState.Phase g = GrantPhasePrepared ->
  wp inv (call (Consume url a))
    (fun r v => current v = current w /\ state_file v = state_file w /\ grant_file v = Some g /\
                forall res, r = Ok res -> ConsumeResult.Grant res ∈ receipts v) w.
Proof.
  intros Hw Eg Hm Hp.
  assert (Hinv : inv (w <| sent := (sent w ++ [(a, grant_file w)])%list |>)) by (apply inv_consume; [done|by exists g]).
  apply wp_call; [done|]. intros ans r v E. destruct ans as [| | | | | | |r0]; cbn in E; try discriminate E; injection E as <- <-.
  - split; [done|]. by repeat split.
  - split; [exact (inv_receipt _ (ConsumeResult.Grant r0) Hinv)|]. repeat split; [done|]. intros ? [= <-]. apply elem_of_app. right. by constructor.
Qed.

(** Recording the receipt. *)
Lemma record_receipt_spec a g res w v :
  inv v -> current v = current w -> state_file v = state_file w -> ConsumeResult.Grant res ∈ receipts v ->
  wp inv (if is_err (Binding.validate (ConsumeResult.Grant res) true) ||
             negb (Binding.same (ConsumeResult.Grant res) (Authorization.binding a))
          then Ret (Err ErrOther)
          else saveHostSelfUpdateGrantState (g <| GrantState.Phase := GrantPhaseConsumed |>
                 <| GrantState.Receipt := Some (ConsumeResult.Grant res) |>))
    (authorize_post a w) v.
Proof.
  intros Hv H1 H2 Hin. wp_step'; [apply wp_ret; [done|by apply authorize_post_err]|]. bool_to_prop.
  apply wp_saveGrant; [done|by apply authorize_post_err|]. intros _.
  split; [|split; [by apply authorize_post_err|]].
  - apply inv_write_grant; [done|]. intros _. by eauto.
  - split; [done|]. split; [done|]. intros _. left. by exists (ConsumeResult.Grant res).
Qed.

Lemma consume_from_spec url a g w :
  inv w -> GrantState.matches g a = true -> GrantState.Phase g = GrantPhasePrepared ->
  wp inv
    (let? _ := saveHostSelfUpdateGrantState g in
     let* first := call (Consume url a) in
     let? result := match first with
       | Ok result => Ret (Ok result)
       | Err _ =>
           let* cancelled := call ContextDone in
           if cancelled : bool then Ret (Err ErrUncertain)
           else or_fail (call (Consume url a)) ErrUncertain
       end in
     let receipt := ConsumeResult.Grant result in
     if is_err (Binding.validate receipt true) || negb (Binding.same receipt (Authorization.binding a))
     then Ret (Err ErrOther)
     else saveHostSelfUpdateGrantState
            (g <| GrantState.Phase := GrantPhaseConsumed |> <| GrantState.Receipt := Some receipt |>))
    (authorize_post a w) w.
Proof.
  intros Hw Hm Hp.
  assert (Hinv : inv (w <| grant_file := Some g |>)).
  { apply inv_write_grant; [done|]. intros [Hx|Hx]; rewrite Hp in Hx; discriminate Hx. }
  wp_step'. apply wp_saveGrant; [done|done|]. intros _. split; [done|]. split; [done|].
  wp_step'. wp_use consume_spec as [res|e] v Hv (H1 & H2 & H3 & H4); cbn in H1, H2.
  - wp_step'. apply wp_ret; [done|]. cbv zeta. apply record_receipt_spec; auto.
  - do 2 wp_step'. apply wp_call; [done|]. intros ans r u E. destruct ans; cbn in E; try discriminate E.
    injection E as <- <-. split; [done|]. destruct b; [by apply wp_ret|]. wp_step'.
    wp_use consume_spec as [res|e'] u Hu (K1 & K2 & K3 & K4).
    + cbv zeta. apply record_receipt_spec; auto; congruence.
    + apply authorize_post_err; congruence.
Qed.

Lemma authorize_spec url a w :
  inv w -> wp inv (authorizeHostSelfUpdate url a) (authorize_post a w) w.
Proof.
  intros Hw. unfold authorizeHostSelfUpdate. wp_step'.
  apply wp_loadGrant; [done| | |done].
  { intros _. apply consume_from_spec; [done|apply matches_new|done]. }
  intros g Eg Hv. cbv zeta. destruct (GrantState.matches g a) eqn:Hm.
  - wp_step'.
    + apply wp_ret; [done|]. split; [done|]. split; [done|]. intros _.
      assert (Hc : (GrantState.Phase g = GrantPhaseConsumed \/ GrantState.Phase g = GrantPhaseApplied) \/
                   GrantState.Phase g = GrantPhaseFailed).
      { apply orb_true_iff in E as [E|E]; [apply orb_true_iff in E as [E|E]|]; bool_to_prop; tauto. }
      destruct Hc as [Hc|Hc]; [left|right; by exists g].
      destruct (inv_receipted _ Hw _ Eg Hc) as (b & Hb & Hin). exists b. split; [done|].
      eapply binding_same_trans; [by eapply grant_receipt|]. by apply matches_same.
    + bool_to_prop. apply consume_from_spec; [done|done|].
      destruct (grant_phase_cases g Hv) as [?|[?|[?|?]]]; congruence.
  - wp_step'. apply wp_reads; [unfold reads; solve_keeps|done|]. intros blocked.
    do 2 (wp_step'; [by apply wp_ret|]). apply consume_from_spec; [done|apply matches_new|done].
Qed.

Lemma markApplied_spec a w :
  inv w -> wp inv (markHostSelfUpdateGrantApplied a) (fun _ _ => True) w.
Proof.
  intros Hw. unfold markHostSelfUpdateGrantApplied. wp_step'.
  apply wp_loadGrant; [done|intros _; by apply wp_ret| |done]. intros g Eg Hv.
  do 3 (wp_step'; [by apply wp_ret|]). bool_to_prop.
  apply wp_saveGrant; [done|done|]. intros _. split; [|done].
  apply inv_write_grant; [done|]. apply receipted_applied; [|done]. by apply (inv_receipted w).
Qed.

Lemma mark_applied_spec st a w : inv w -> wp inv (mark_applied st a) (fun _ _ => True) w.
Proof.
  intros Hw. unfold mark_applied, finish. do 2 wp_step'.
  wp_use markApplied_spec as [[]|e] v Hv _; [|by apply wp_ret].
  apply wp_ret; [done|]. by apply wp_ret.
Qed.

Lemma replay_applied_spec st a w : inv w -> wp inv (replay_applied st a) (fun _ _ => True) w.
Proof. intros Hw. unfold replay_applied. do 2 wp_step'. by apply wp_ret. Qed.

Lemma grantPhase_reads a : reads (hostSelfUpdateGrantPhase a).
Proof. unfold reads, hostSelfUpdateGrantPhase, loadHostSelfUpdateGrantState. solve_keeps. Qed.

Lemma grantApplied_reads a : reads (hostSelfUpdateGrantApplied a).
Proof.
  unfold reads, hostSelfUpdateGrantApplied. apply keeps_bind_ok; [apply grantPhase_reads|]. intros. solve_keeps.
Qed.

Lemma grantPhase_spec (I : world -> Prop) a Q w :
  I w ->
  (forall phase, (failed_record w a -> phase = Some GrantPhaseFailed) -> Q (Ok phase) w) ->
  Q (Err ErrOther) w -> wp I (hostSelfUpdateGrantPhase a) Q w.
Proof.
  intros HI HQ HE. unfold hostSelfUpdateGrantPhase. wp_step'.
  apply wp_loadGrant; [done| | |done].
  - intros Eg. apply wp_ret; [done|]. apply HQ. intros (g & Eg' & _). congruence.
  - intros g Eg _. apply wp_ret; [done|]. apply HQ. intros (g' & Eg' & Hm & Hp).
    rewrite Eg in Eg'. injection Eg' as <-. by rewrite Hm, Hp.
Qed.

Lemma prepare_reads : reads (prepare executorVersion verificationTimeout).
Proof. unfold reads, prepare. solve_keeps. Qed.

Lemma failClosed_spec st request a w :
  inv w -> state_file w = Some (Status.state st) ->
  wp inv (failClosedUncertainStage st request a) (fun _ _ => True) w.
Proof.
  intros Hw Es. unfold failClosedUncertainStage. cbv zeta. wp_step'; [by apply wp_ret|].
  assert (Hp : State.Phase (Status.state st) = PhaseStable) by (bool_to_prop; done).
  wp_step'. apply wp_loadGrant; [done|intros _; by apply wp_ret| |done]. intros g Eg Hv.
  wp_step'; [by apply wp_ret|]. wp_step'. apply wp_saveState; [done|done|]. intros Hwf.
  pose proof (inv_mark_failed _ _ _ Hw Es Hp Hwf). split; [done|]. split; [done|].
  wp_step'. wp_use cleanFailed_spec as [[]|e] v Hv' _; [by apply wp_ret|done].
Qed.

Lemma converge_spec request a w :
  inv w ->
  wp inv (convergeHostSelfUpdateStageAfterError executorVersion verificationTimeout request a)
    (fun _ _ => True) w.
Proof.
  intros Hw. unfold convergeHostSelfUpdateStageAfterError, status. wp_step'.
  apply wp_reads; [apply prepare_reads|done|]. intros [[]|e]; [|done]. wp_step'.
  wp_use status_spec as [st|e] v Hv _; [|done]. wp_step'.
  apply wp_reads; [apply grantPhase_reads|done|]. intros [phase|e]; [|done].
  do 2 wp_step'. repeat wp_step'; by apply wp_ret.
Qed.

(** A grant validated for staging a request is a license for that request. *)
Lemma validated_license policy fence request s a b :
  validateHostSelfUpdateGrantForOperation policy fence "stage" (Some request) s a = Ok tt ->
  Binding.same b (Authorization.binding a) = true -> stage_receipt request b.
Proof.
  unfold validateHostSelfUpdateGrantForOperation. intros Hv Hs. ok_step Hv. cbv zeta in Hv.
  do 2 ok_step Hv. ok_step Hv. ok_step Hv. clear Hv. unfold expected_request in E2.
  change ("stage" ==? "stage") with true in E2. cbv iota in E2. ok_step E2. injection E2 as <-.
  unfold policy_binding_mismatch in E0. bool_to_prop.
  unfold Binding.same in Hs. split_same. split; [congruence|].
  unfold sameHostSelfUpdateRequestIdentity. cbn. join_same.
  apply release_same_sym. eapply release_same_trans; [eassumption|done].
Qed.

Lemma or_stop_conseq {A} (p : io A) k w Q :
  wp inv p (fun r v => match r with Ok a => wp inv (k a) (fun _ _ => True) v | Err _ => Q v end) w ->
  wp inv (or_stop p k) (fun _ _ => True) w.
Proof.
  intros Hp. unfold or_stop. apply wp_bind. eapply wp_mono; [|exact Hp].
  intros [a|e] v Hv Hx; [done|]. by apply wp_ret.
Qed.

Lemma finish_spec p w : wp inv p (fun _ _ => True) w -> wp inv (finish p) (fun _ _ => True) w.
Proof. intros Hp. apply wp_bind. eapply wp_mono; [|exact Hp]. intros. by apply wp_ret. Qed.

Lemma handle_stage_spec policy url fence update a w :
  inv w ->
  wp inv (handle_stage executorVersion verificationTimeout policy url fence update a) (fun _ _ => True) w.
Proof.
  intros Hw. unfold handle_stage, status. cbv zeta. apply (or_stop_conseq _ _ _ (fun _ => True)).
  wp_use status_spec as [st|e] v Hv [Hr Hst]; [|done]. destruct Hst as [Es Ec].
  wp_step'; [by apply wp_ret|]. apply (or_stop_conseq _ _ _ (fun _ => True)).
  apply grantPhase_spec; [done| |done]. intros phase Hphase.
  wp_step'; [by apply replay_applied_spec|]. wp_step'; [by apply wp_ret|].
  assert (Hnf : ~ failed_record v a) by (intros Hf; apply Hphase in Hf; bool_to_prop; congruence).
  do 2 wp_step'. wp_step'; [by apply mark_applied_spec|]. wp_step'; [by apply wp_ret|].
  apply check_ok in E3. wp_step'. wp_use authorize_spec as [[]|e] u Hu (H1 & H2 & H3).
  2:{ destruct e; first [by apply wp_ret | apply finish_spec, failClosed_spec; [done|congruence]]. }
  destruct (H3 eq_refl) as [(b & Hb & Hs)|]; [|done].
  apply (or_stop_conseq _ _ _ (fun _ => True)). apply wp_reads; [apply grantApplied_reads|done|].
  intros [[]|e]; [by apply replay_applied_spec| |done].
  wp_step'. eapply wp_conseq; [apply stage_spec; [done|]; exists b; split; [done|by eapply validated_license]|].
  intros [st'|e] x Hx _; [by apply mark_applied_spec|].
  wp_step'. wp_use converge_spec as r y Hy _. by apply wp_ret.
Qed.

Lemma handle_reconcile_spec policy url fence proof grant w :
  inv w ->
  wp inv (handle_reconcile executorVersion policy url fence proof grant) (fun _ _ => True) w.
Proof.
  intros Hw. unfold handle_reconcile, status. apply (or_stop_conseq _ _ _ (fun _ => True)).
  wp_use status_spec as [st|e] v Hv [Hr Hst]; [|done]. destruct Hst as [Es Ec].
  destruct grant as [a|].
  2:{ wp_step'; [by apply wp_ret|]. by apply finish_spec, reconcile_spec_rt. }
  cbv zeta. wp_step'; [by apply wp_ret|]. apply (or_stop_conseq _ _ _ (fun _ => True)).
  apply grantPhase_spec; [done| |done]. intros phase _.
  wp_step'; [by apply replay_applied_spec|].
  do 2 wp_step'. wp_step'; [by apply mark_applied_spec|]. wp_step'; [by apply wp_ret|].
  wp_step'. wp_use authorize_spec as [[]|e] u Hu _; [|by destruct e; apply wp_ret].
  apply (or_stop_conseq _ _ _ (fun _ => True)). apply wp_reads; [apply grantApplied_reads|done|].
  intros [[]|e]; [by apply replay_applied_spec| |done].
  apply (or_stop_conseq _ _ _ (fun _ => True)).
  wp_use reconcile_spec_rt as [st'|e] x Hx _; [by apply mark_applied_spec|done].
Qed.

Lemma handler_spec policy r w :
  inv w ->
  wp inv (handleLocalExecutorHostSelfUpdate executorVersion verificationTimeout policy r) (fun _ _ => True) w.
Proof.
  intros Hw. unfold handleLocalExecutorHostSelfUpdate. wp_step'; [by apply wp_ret|].
  destruct (PanelURL policy) as [url|]; [|by apply wp_ret].
  do 2 (wp_step'; [by apply wp_ret|]). wp_step'.
  apply wp_reads; [apply prepare_reads|done|]. intros [[]|e]; [|by apply wp_ret]. wp_step'.
  eapply wp_conseq with (Q := fun _ _ => True); [|intros; by apply wp_ret].
  repeat match goal with |- wp _ (if ?b then _ else _) _ _ => destruct b end.
  - apply finish_spec. eapply wp_conseq; [by apply status_spec|done].
  - destruct (HostSelfUpdate r), (HostSelfUpdateGrant r); try (by apply wp_ret). by apply handle_stage_spec.
  - by apply finish_spec, activate_spec.
  - destruct (HostSelfUpdateProof r); [by apply handle_reconcile_spec|by apply wp_ret].
  - by apply wp_ret.
Qed.

Lemma watchdog_restore_spec st w :
  inv w -> state_file w = Some (Status.state st) -> State.Phase (Status.state st) = PhaseRollingBack ->
  wp inv (watchdog_restore st) (fun _ _ => True) w.
Proof.
  intros Hw Es Hp. unfold watchdog_restore, reconstructCurrent. cbv zeta. do 2 wp_step'.
  pose proof (inv_link_healthy _ _ Hw Es) as Hinv.
  apply wp_replaceCurrent; [done|done|]. intros _. split; [done|]. split; [done|].
  do 3 (do 2 wp_step'; apply wp_observation; [keeps_op_tac|done|]; intros [[]|]; [|done]).
  wp_step'. apply wp_saveState; [done|done|]. intros Hwf.
  match goal with |- inv ?v /\ _ => assert (Hinv' : inv v) end.
  { apply inv_write_state; [done| |by intros Hx; destruct Hx].
    destruct (inv_state _ _ Hw Es) as [(Hwf' & _) _]. apply slots_ok_clear; [done|phase_contra]. }
  split; [done|]. split; [done|]. by apply wp_ret.
Qed.

Lemma watchdog_spec slot w :
  inv w -> wp inv (recoverExpiredHostSelfUpdate executorVersion verificationTimeout slot) (fun _ _ => True) w.
Proof.
  intros Hw. unfold recoverExpiredHostSelfUpdate. wp_step'; [by apply wp_ret|]. do 2 wp_step'.
  apply wp_loadPersistedState; [done| |done]. intros s Es _. cbv zeta.
  do 3 (wp_step'; [by apply wp_ret|]). wp_step'.
  apply wp_reads; [apply prepare_reads|done|]. intros [[]|e]; [|done]. do 2 wp_step'.
  apply wp_loadPersistedState; [done| |done]. intros s' Es' _.
  destruct (inv_state _ _ Hw Es) as [Hs Hl].
  do 2 (wp_step'; [by apply wp_ret|]). wp_step'.
  - wp_step'. apply wp_call; [done|]. intros ans now u E'. destruct ans; cbn in E'; try discriminate E'.
    injection E' as <- <-. split; [done|]. wp_step'; [by apply wp_ret|]. wp_step'.
    assert (Hp : active_phase (State.Phase s)) by (unfold active_phase; bool_cases; tauto).
    assert (Hinv : inv (w <| state_file := Some (beginHostSelfUpdateRollback s) |>)).
    { apply inv_write_state; [done|by apply slots_ok_rollback|].
      eapply licensed_mono; [exact Hl|]. by apply same_license_rollback, active_not_stable. }
    apply wp_saveState; [done|done|]. intros _. split; [done|]. split; [done|].
    by apply watchdog_restore_spec.
  - wp_step'; [|by apply wp_ret]. bool_to_prop. by apply watchdog_restore_spec.
Qed.
End Specs.

(** ** Histories *)

Definition ignore {A} (p : prog op A) : prog op unit := bind p (fun _ => Ret tt).

Lemma ignore_spec {A} (p : prog op A) w : wp inv p (fun _ _ => True) w -> wp inv (ignore p) (fun _ _ => True) w.
Proof. intros Hp. apply wp_bind. eapply wp_mono; [|exact Hp]. intros. by apply wp_ret. Qed.

(** The entry points, for any running executor, policy, request and slot: the
    version that runs changes with every update. *)
Inductive entry `{TimeZones} {P : Type} `{ExecutorPolicy P} : prog op unit -> Prop :=
| entry_request version timeout policy r :
    entry (ignore (handleLocalExecutorHostSelfUpdate version timeout policy r))
| entry_watchdog version timeout slot :
    entry (ignore (recoverExpiredHostSelfUpdate version timeout slot)).

(** A freshly installed host: the link names slot a, nothing else exists. *)
Definition installed : world := World (Some HostSelfUpdateSlotA) None None [] [].

Lemma installed_inv : inv installed.
Proof. constructor; cbn; done. Qed.

Lemma history_inv `{TimeZones} {P : Type} `{ExecutorPolicy P} w :
  history (entry (P := P)) installed w -> inv w.
Proof.
  intros Hh. eapply (history_invariant entry inv); [|exact installed_inv|exact Hh].
  intros p u [] Hu; apply ignore_spec; [by apply handler_spec|by apply watchdog_spec].
Qed.

Section Theorems.
Context `{TimeZones} {P : Type} `{ExecutorPolicy P}.

(** C9.  Crash safety of the A/B switch.  After any sequence of executor
    requests and watchdog runs, with any failures and with crashes at any point,
    the durable record is valid and the [current] link names the healthy slot, or
    the pending slot while the record says that this slot is being activated,
    verified or rolled back. *)
Theorem current_link_always_guarded w :
  history (entry (P := P)) installed w ->
  match state_file w with
  | None => current w = Some HostSelfUpdateSlotA
  | Some s =>
      State.validate s = Ok tt /\ State.ActiveSlot s = State.HealthySlot s /\
      (current w = Some (State.HealthySlot s) \/
       (State.Phase s = PhaseActivating \/ State.Phase s = PhaseVerifying \/
        State.Phase s = PhaseRollingBack) /\ current w = Some (State.PendingSlot s))
  end.
Proof.
  intros Hh. destruct (history_inv w Hh) as [Hs _ _ _].
  destruct (state_file w) as [s|]; [|done]. destruct Hs as (Hwf & Ha & Hl).
  split; [by apply validate_wf|]. done.
Qed.

(** C10.  No update without the Panel's consent.  In every world the runtime can
    reach, an update that is staged, activated, verified or rolled back was
    authorized by a stage grant whose consumption the Panel confirmed, for the
    same generation, versions, commit, artifact digest, protocols and release. *)
Theorem pending_update_is_licensed w s :
  history (entry (P := P)) installed w -> state_file w = Some s -> State.Phase s <> PhaseStable ->
  exists b, b ∈ receipts w /\ Binding.Operation b = "stage" /\
    sameHostSelfUpdateRequestIdentity (State.pending_request s) (Binding.request b) = true.
Proof.
  intros Hh Es Hp. destruct (history_inv w Hh) as [_ Hl _ _].
  destruct (Hl s Es Hp) as (b & Hb & Ho & Hi). eauto.
Qed.

(** The consume request is fenced by the grant journal: whenever the
    runtime sends a grant token to the Panel, the record of that grant is already
    durable in phase [prepared], so a crash before the answer is recorded leaves
    the uncertain grant visible to the next run. *)
Theorem consume_is_write_ahead w a g :
  history (entry (P := P)) installed w -> (a, g) ∈ sent w ->
  exists record, g = Some record /\ GrantState.matches record a = true /\
    GrantState.Phase record = GrantPhasePrepared.
Proof.
  intros Hh Hin. destruct (history_inv w Hh) as [_ _ _ Hf].
  rewrite Forall_forall in Hf. by apply (Hf (a, g)).
Qed.

(** Step lemmas for runs that go through. *)
Lemma run_ok_step {A B} (o : op (result err A)) (k : A -> io B) a rest w w' :
  handle o Succeeds w = Some (Ok a, w') -> run (bind_ok (call o) k) (Succeeds :: rest) w = run (k a) rest w'.
Proof. intros E. cbn. by rewrite E. Qed.

Lemma run_or_fail_step {A B} (o : op (result err A)) e (k : A -> io B) a rest w w' :
  handle o Succeeds w = Some (Ok a, w') ->
  run (bind_ok (or_fail (call o) e) k) (Succeeds :: rest) w = run (k a) rest w'.
Proof. intros E. cbn. by rewrite E. Qed.

Lemma run_save {B} s (k : unit -> io B) rest w :
  State.validate s = Ok tt ->
  run (bind_ok (saveState s) k) (Succeeds :: rest) w = run (k tt) rest (w <| state_file := Some s |>).
Proof. intros E. unfold saveState. by rewrite E. Qed.

Lemma run_load {B} s e (k : State.t -> io B) rest w :
  state_file w = Some s -> State.validate s = Ok tt ->
  run (bind_ok (or_fail loadPersistedState e) k) (Succeeds :: rest) w = run (k s) rest w.
Proof. intros Es E. cbn. rewrite Es. cbn. by rewrite E. Qed.

Lemma run_replace {B} slot force e (k : unit -> io B) rest w :
  validHostSelfUpdateSlot slot = true ->
  run (bind_ok (or_fail (replaceCurrent slot force) e) k) (Succeeds :: Succeeds :: rest) w =
  run (k tt) rest (w <| current := Some slot |>).
Proof. intros E. unfold replaceCurrent. by rewrite E. Qed.

Lemma run_watchdog_restore st w :
  let s := Status.state st in
  wf s -> State.Phase s <> PhaseStable ->
  exists st',
    run (watchdog_restore st) (replicate 6 Succeeds) w =
    (w <| current := Some (State.HealthySlot s) |>
       <| state_file := Some (clearRolledBackHostSelfUpdate s) |>, Some (Ok st')).
Proof.
  intros s Hwf Hp. unfold watchdog_restore, reconstructCurrent. cbn [replicate].
  assert (Hslot : validHostSelfUpdateSlot (State.HealthySlot s) = true)
    by (apply validHostSelfUpdateSlot_spec, Hwf).
  rewrite run_replace by done.
  do 3 (erewrite run_or_fail_step; [|reflexivity]).
  rewrite run_save; [by eexists|]. by apply validate_wf, clear_rolled_back_wf.
Qed.

Lemma run_prepare {B} version timeout (k : unit -> io B) rest w :
  re_match versionPattern version = true ->
  (30 * GoTime.Second <= timeout <= 30 * GoTime.Minute)%Z ->
  run (bind_ok (prepare version timeout) k) (Succeeds :: Succeeds :: rest) w = run (k tt) rest w.
Proof.
  intros Hver Ht. unfold prepare.
  replace ((timeout <? 30 * GoTime.Second)%Z || (30 * GoTime.Minute <? timeout)%Z) with false
    by (symmetry; apply orb_false_iff; rewrite !Z.ltb_ge; lia).
  by rewrite Hver.
Qed.

(** The part of the watchdog before the restore. *)
Lemma run_watchdog_enter version timeout s rest w :
  state_file w = Some s -> wf s -> State.ActiveSlot s = State.HealthySlot s -> active_phase (State.Phase s) ->
  version = State.ActiveExecutorVersion s ->
  (30 * GoTime.Second <= timeout <= 30 * GoTime.Minute)%Z ->
  run (recoverExpiredHostSelfUpdate version timeout (State.HealthySlot s)) (replicate 4 Succeeds ++ rest)%list w =
  run (let st := Status.mk s (State.HealthySlot s) version LocalExecutorMutationProtocolVersion
                   ActionNone false false in
       if (State.Phase s ==? PhaseActivating) || (State.Phase s ==? PhaseVerifying) then
          let* now := call Now in
          if GoTime.Before (GoTime.UTC now) (State.ActivationDeadline s) then Ret (Ok st)
          else
            let rollback := beginHostSelfUpdateRollback s in
            let? _ := saveState rollback in
            watchdog_restore (st <| Status.state := rollback |>)
        else if State.Phase s ==? PhaseRollingBack then watchdog_restore st
        else Ret (Err ErrOther)) rest w.
Proof.
  intros Es Hwf Ha Hp -> Ht. pose proof (proj2 (validate_wf s) Hwf) as Hv.
  pose proof (pending_of_active s Hwf Hp) as (_ & _ & Hps & Hne).
  destruct Hwf as ((_ & Hrp & _ & Hh & _ & Hver) & _).
  unfold recoverExpiredHostSelfUpdate. cbn [replicate app].
  rewrite (proj2 (validHostSelfUpdateSlot_spec _) Hh). cbn [negb].
  rewrite run_load with (s := s) by done. rewrite Ha, bool_decide_eq_true_2 by done.
  assert (Hpend : State.PendingSlot s = otherHostSelfUpdateSlot (State.HealthySlot s)).
  { destruct (other_slot _ Hh). destruct (slot_dichotomy (State.HealthySlot s)
      (otherHostSelfUpdateSlot (State.HealthySlot s)) (State.PendingSlot s)); congruence. }
  rewrite (bool_decide_eq_true_2 _ Hpend), andb_false_r. cbn [negb orb].
  rewrite (bool_decide_eq_true_2 (State.ActiveExecutorVersion s = _)) by done.
  rewrite (bool_decide_eq_true_2 _ Hrp). cbn [negb orb].
  rewrite run_prepare by done. rewrite run_load with (s := s) by done.
  rewrite (bool_decide_eq_true_2 (s = s)) by done. cbn [negb].
  replace ((State.Phase s ==? PhaseStable) || (State.Phase s ==? PhaseStaged)) with false; [done|].
  symmetry. apply orb_false_iff. rewrite !bool_decide_eq_false. split; phase_contra.
Qed.

(** C12.  The watchdog of the healthy slot recovers an update that got stuck:
    once a rollback is recorded, or the activation deadline has passed, one run in
    which no operation fails, read at time [now], ends with the link back on the healthy slot, a stable
    record on that slot with its versions, and the generation marked as failed. *)
Theorem watchdog_recovers_expired_update version timeout now w s :
  history (entry (P := P)) installed w ->
  state_file w = Some s ->
  State.Phase s = PhaseRollingBack \/
    ((State.Phase s = PhaseActivating \/ State.Phase s = PhaseVerifying) /\
     (GoTime.ns (State.ActivationDeadline s) <= GoTime.ns now)%Z) ->
  version = State.ActiveExecutorVersion s ->
  (30 * GoTime.Second <= timeout <= 30 * GoTime.Minute)%Z ->
  exists answers w' st s',
    Forall (fun a => a = Succeeds \/ a = SaysTime now) answers /\
    run (recoverExpiredHostSelfUpdate version timeout (State.HealthySlot s)) answers w = (w', Some (Ok st)) /\
    current w' = Some (State.HealthySlot s) /\ state_file w' = Some s' /\
    State.Phase s' = PhaseStable /\ State.HealthySlot s' = State.HealthySlot s /\
    State.ActiveAgentVersion s' = State.ActiveAgentVersion s /\
    State.FailedGeneration s' = State.PendingGeneration s.
Proof.
  intros Hh Es Hp Hver Ht. pose proof (history_inv w Hh) as Hinv.
  destruct (inv_state _ _ Hinv Es) as [(Hwf & Ha & _) _].
  assert (Hact : active_phase (State.Phase s)) by (unfold active_phase; tauto).
  destruct Hp as [Hp|[Hp Hnow]].
  - destruct (run_watchdog_restore (Status.mk s (State.HealthySlot s) version
      LocalExecutorMutationProtocolVersion ActionNone false false) w Hwf) as [st E]; [cbn; phase_contra|].
    exists (replicate 4 Succeeds ++ replicate 6 Succeeds)%list,
      (w <| current := Some (State.HealthySlot s) |>
         <| state_file := Some (clearRolledBackHostSelfUpdate s) |>), st, (clearRolledBackHostSelfUpdate s).
    split; [cbn; repeat apply Forall_cons_2; auto using Forall_nil_2|]. split; [|by repeat split].
    rewrite (run_watchdog_enter _ _ s) by done. cbv zeta. rewrite Hp. exact E.
  - assert (Hwf' : wf (beginHostSelfUpdateRollback s)) by (by apply rollback_wf).
    destruct (run_watchdog_restore (Status.mk (beginHostSelfUpdateRollback s) (State.HealthySlot s) version
      LocalExecutorMutationProtocolVersion ActionNone false false)
      (w <| state_file := Some (beginHostSelfUpdateRollback s) |>) Hwf') as [st E]; [intros Hx; discriminate Hx|].
    exists (replicate 4 Succeeds ++ SaysTime now :: Succeeds :: replicate 6 Succeeds)%list,
      (w <| current := Some (State.HealthySlot s) |> <| state_file :=
         Some (clearRolledBackHostSelfUpdate (beginHostSelfUpdateRollback s)) |>), st,
      (clearRolledBackHostSelfUpdate (beginHostSelfUpdateRollback s)).
    split; [cbn; repeat apply Forall_cons_2; auto using Forall_nil_2|]. split; [|by repeat split].
    rewrite (run_watchdog_enter _ _ s) by done. cbv zeta.
    replace ((State.Phase s ==? PhaseActivating) || (State.Phase s ==? PhaseVerifying)) with true
      by (symmetry; apply orb_true_iff; rewrite !bool_decide_eq_true; tauto).
    cbn [run bind call handle op_handler]. unfold GoTime.Before, GoTime.UTC. cbn [GoTime.ns].
    destruct (Z.ltb_spec (GoTime.ns now) (GoTime.ns (State.ActivationDeadline s))); [lia|].
    rewrite run_save by (by apply validate_wf). exact E.
Qed.
End Theorems.

(** ** A concrete host, for the witnesses *)
Module DemoHost.
#[local] Instance utc_only : TimeZones := fun _ => 0%Z.

Definition policy_digest : string := "sha256:" +:+ Demo.hex64.
#[global] Instance policy : ExecutorPolicy unit := {|
  HostID := fun _ => "host-1"; SchemaVersion := fun _ => 2%Z; ProtocolVersion := fun _ => 2%Z;
  SourcePolicyRevision := fun _ => 3%Z; ProjectionRevision := fun _ => 4%Z; PolicyRevision := fun _ => 5%Z;
  PanelURL := fun _ => Some "https://panel.example"; Policy_Validate := fun _ => Ok tt;
  Policy_SHA256 := fun _ => Ok policy_digest |}.

Definition fence : Fence.t := Fence.mk 3 7 4 5.
Definition plan_sha256 : string := Eval vm_compute in
  match hostSelfUpdateGrantPlanSHA256 "stage" "update-1" 9 Demo.request fence with Ok h => h | Err _ => "" end.
Definition grant : Binding.t :=
  Binding.mk "grant-1" "update-1" "generation-1" "stage" "host-1" "agent-1" 9 7 3 4 5 policy_digest
    "v2.1.0" "v2.1.0" "0123456789abcdef0123456789abcdef01234567" ("sha256:" +:+ Demo.hex64) 2 2 2 2
    Demo.release (GoTime.mk 10 true) plan_sha256 "session-1" 1 (GoTime.mk 11 true) (GoTime.mk 12 true)
    None 0 None GoTime.zero GoTime.zero.
Definition authorization : Authorization.t := Authorization.mk grant "ast_hsug_0123456789".
Definition receipt : Binding.t :=
  grant <| Binding.ConsumedAt := Some (GoTime.mk 11 true) |> <| Binding.StageClaimRevision := 10%Z |>
        <| Binding.StageClaimedAt := Some (GoTime.mk 11 true) |>.
Definition release : AgentRelease.t := AgentRelease.mk Demo.request (GoTime.mk 5 true) "v2.0.0".

Definition stage_request : request :=
  MkRequest 2 "host_self_update_stage" "host-1" (Some Demo.request) None "" (Some authorization) false fence.
Definition activate_request : request :=
  MkRequest 2 "host_self_update_activate" "host-1" None None "generation-1" None false fence.

Definition timeout : Z := 5 * GoTime.Minute.
Definition stage_run := handleLocalExecutorHostSelfUpdate "v2.0.0" timeout tt stage_request.
Definition stage_answers : list answer :=
  [Succeeds; Succeeds; Succeeds; Succeeds; SaysBool false; Succeeds; Succeeds; Succeeds; Succeeds; Succeeds;
   SaysReceipt (ConsumeResult.mk receipt true); Succeeds; Succeeds; Succeeds; Succeeds;
   SaysRelease release; SaysDigests Demo.digests; Succeeds; Succeeds; Succeeds; Succeeds; Succeeds].
Definition activate_run := handleLocalExecutorHostSelfUpdate "v2.0.0" timeout tt activate_request.
Definition activate_answers : list answer :=
  [Succeeds; Succeeds; Succeeds; Succeeds; Succeeds; Succeeds; Succeeds; Succeeds; SaysTime (GoTime.mk 1000 true);
   Succeeds; Succeeds; Succeeds; Succeeds].

Definition staged : world := Eval vm_compute in (run (ignore stage_run) stage_answers installed).1.
Definition activating : world := Eval vm_compute in (run (ignore activate_run) activate_answers staged).1.

(** Both runs go through. *)
Example stage_succeeds :
  match (run stage_run stage_answers installed).2 with Some (Success _) => true | _ => false end = true.
Proof. vm_compute. reflexivity. Qed.
Example activate_succeeds :
  match (run activate_run activate_answers staged).2 with Some (Success _) => true | _ => false end = true.
Proof. vm_compute. reflexivity. Qed.

Lemma history_activating : history (entry (P := unit)) installed activating.
Proof.
  change activating with ((activating, tt).1).
  replace (activating, tt).1 with (run (ignore activate_run) activate_answers staged).1
    by (vm_compute; reflexivity).
  apply history_run; [|constructor].
  replace staged with (run (ignore stage_run) stage_answers installed).1 by (vm_compute; reflexivity).
  apply history_run; [constructor|constructor].
Defined.
End DemoHost.

Lemma current_link_always_guarded_witness :
  exists s, state_file DemoHost.activating = Some s /\ State.validate s = Ok tt /\
    State.ActiveSlot s = State.HealthySlot s /\ current DemoHost.activating = Some (State.PendingSlot s).
Proof.
  pose proof (current_link_always_guarded DemoHost.activating DemoHost.history_activating) as H.
  eexists. split; [reflexivity|]. split; [apply H|]. split; [apply H|reflexivity].
Defined.

Lemma pending_update_is_licensed_witness :
  exists b, b ∈ receipts DemoHost.activating /\ Binding.Operation b = "stage".
Proof.
  destruct (state_file DemoHost.activating) as [s|] eqn:E; [|discriminate E].
  destruct (pending_update_is_licensed DemoHost.activating s DemoHost.history_activating E)
    as (b & Hb & Ho & _); [injection E as <-; discriminate|eauto].
Defined.

Lemma consume_is_write_ahead_witness :
  exists record, GrantState.matches record DemoHost.authorization = true /\
    GrantState.Phase record = GrantPhasePrepared.
Proof.
  destruct (sent DemoHost.activating) as [|[a g] l] eqn:E; [discriminate E|].
  assert (Ea : a = DemoHost.authorization) by (injection E as <- _ _; reflexivity). subst a.
  destruct (consume_is_write_ahead DemoHost.activating DemoHost.authorization g DemoHost.history_activating)
    as (record & _ & Hm & Hp); [rewrite E; left|eauto].
Defined.

Lemma watchdog_recovers_expired_update_witness :
  exists answers w' st s',
    run (recoverExpiredHostSelfUpdate "v2.0.0" DemoHost.timeout "a") answers DemoHost.activating =
      (w', Some (Ok st)) /\ current w' = Some "a" /\ state_file w' = Some s' /\
    State.FailedGeneration s' = "generation-1".
Proof.
  destruct (state_file DemoHost.activating) as [s|] eqn:E; [|discriminate E].
  assert (Es : State.HealthySlot s = "a" /\ State.PendingGeneration s = "generation-1" /\
    State.Phase s = PhaseActivating /\ State.ActiveExecutorVersion s = "v2.0.0" /\
    (GoTime.ns (State.ActivationDeadline s) <= 10 ^ 15)%Z)
    by (injection E as <-; vm_compute; repeat split; discriminate).
  destruct Es as (E1 & E2 & E3 & E4 & E5).
  destruct (watchdog_recovers_expired_update "v2.0.0" DemoHost.timeout (GoTime.mk (10 ^ 15) true)
    DemoHost.activating s DemoHost.history_activating E) as (l & w' & st & s' & _ & H1 & H2 & H3 & _ & _ & _ & H4).
  - right. split; [by left|exact E5].
  - by rewrite E4.
  - vm_compute. split; discriminate.
  - rewrite E1 in H1, H2. rewrite E2 in H4. by exists l, w', st, s'.
Defined.
