(* ===== verification/PlanDigest.v ===== *)
(** The immutable mutation plan and its digest ([mutation_protocol.go],
    [plan_digest.go], [helper.go], [digest.go]): what a Control Panel grant is
    bound to, and the shapes of stage results and outcomes. *)
From Stdlib Require Import Ascii String ZArith Lia.
From stdpp Require Import base decidable list strings.
From S2P Require Import Prelude Strings Regexp Patterns Sha256 Json.

Open Scope string_scope.

Definition mutationPlanSchemaVersion : Z := 2.

(** [ApplyPlan]. *)
Module ApplyPlan.
Record t := mk {
  JobID : string;
  HostID : string;
  TargetID : string;
  ServiceType : string;
  DeploymentMode : string;
  TargetVersion : string;
  CurrentVersion : string;
  ConfigSHA256 : string;
  LeaseToken : string;
  LeaseGeneration : Z;
  StageDir : string;
  ArtifactDigest : string;
  ExpectedVersion : string;
  ExpectedImageDigest : string;
  ExpectedPlatformDigest : string;
}.

#[global] Instance eq_dec : EqDecision t.
Proof. solve_decision. Defined.

#[global] Instance eta_t : Eta t := fun p =>
  mk (JobID p) (HostID p) (TargetID p) (ServiceType p) (DeploymentMode p) (TargetVersion p)
     (CurrentVersion p) (ConfigSHA256 p) (LeaseToken p) (LeaseGeneration p) (StageDir p)
     (ArtifactDigest p) (ExpectedVersion p) (ExpectedImageDigest p) (ExpectedPlatformDigest p).
End ApplyPlan.

(** [ApplyResult]. *)
Module ApplyResult.
Record t := mk {
  Status : string;
  ArtifactDigest : string;
  PreviousDigest : string;
  RolledBack : bool;
  Message : string;
}.

#[global] Instance eq_dec : EqDecision t.
Proof. solve_decision. Defined.

#[global] Instance eta_t : Eta t := fun r =>
  mk (Status r) (ArtifactDigest r) (PreviousDigest r) (RolledBack r) (Message r).
End ApplyResult.

Definition validExecutorFailureCode (code : string) : bool :=
  existsb (String.eqb code)
    ["invalid_request"; "target_mismatch"; "target_unavailable"; "target_busy";
     "config_mismatch"; "state_unavailable"; "state_invalid"; "stage_failed"; "stage_required";
     "stage_invalid"; "plan_conflict"; "reconcile_required"; "already_terminal";
     "mutation_precondition_failed"; "launcher_unavailable"; "operation_continues";
     "internal_error"].

Section Digest.
Context `{UnicodeTables} `{TimeZones}.

(** The payload of [MutationPlanSHA256], in the order of its fields. *)
Definition plan_payload (plan : ApplyPlan.t) : list (string * json) :=
  [("schema_version", JNum mutationPlanSchemaVersion);
   ("job_id", JStr (TrimSpace (ApplyPlan.JobID plan)));
   ("host_id", JStr (TrimSpace (ApplyPlan.HostID plan)));
   ("target_id", JStr (TrimSpace (ApplyPlan.TargetID plan)));
   ("service_type", JStr (TrimSpace (ApplyPlan.ServiceType plan)));
   ("deployment_mode", JStr (TrimSpace (ApplyPlan.DeploymentMode plan)));
   ("target_version", JStr (TrimSpace (ApplyPlan.TargetVersion plan)));
   ("current_version", JStr (TrimSpace (ApplyPlan.CurrentVersion plan)));
   ("config_sha256", JStr (TrimSpace (ToLower (ApplyPlan.ConfigSHA256 plan))));
   ("lease_generation", JNum (ApplyPlan.LeaseGeneration plan))] ++
  omit_str "artifact_digest" (normalizeDigest (ApplyPlan.ArtifactDigest plan)) ++
  omit_str "expected_version" (TrimSpace (ApplyPlan.ExpectedVersion plan)) ++
  omit_str "expected_image_digest" (normalizeDigest (ApplyPlan.ExpectedImageDigest plan)) ++
  omit_str "expected_platform_digest" (normalizeDigest (ApplyPlan.ExpectedPlatformDigest plan)).

Definition MutationPlanSHA256 (plan : ApplyPlan.t) : result string string :=
  let currentVersion := TrimSpace (ApplyPlan.CurrentVersion plan) in
  let configSHA256 := TrimSpace (ToLower (ApplyPlan.ConfigSHA256 plan)) in
  if negb (re_match identifierPattern (TrimSpace (ApplyPlan.JobID plan))) ||
     negb (re_match identifierPattern (TrimSpace (ApplyPlan.HostID plan))) ||
     negb (re_match identifierPattern (TrimSpace (ApplyPlan.TargetID plan))) ||
     negb (re_match versionPattern (TrimSpace (ApplyPlan.TargetVersion plan))) ||
     negb (re_match versionPattern currentVersion) || (currentVersion !=? ApplyPlan.CurrentVersion plan) ||
     negb (re_match digestPattern configSHA256) || (configSHA256 !=? ApplyPlan.ConfigSHA256 plan) ||
     ((ApplyPlan.DeploymentMode plan !=? ModeSystemd) && (ApplyPlan.DeploymentMode plan !=? ModeDocker)) ||
     (ApplyPlan.LeaseGeneration plan =? 0)%Z
  then Err "mutation plan identity is incomplete"
  else match Marshal (JObj (plan_payload plan)) with
       | Some encoded => Ok (sha256_hex encoded)
       | None => Err "json: unsupported value"
       end.
End Digest.

(** [MutationPlan]. *)
Module MutationPlan.
Record t := mk {
  JobID : string;
  HostID : string;
  TargetID : string;
  ServiceType : string;
  DeploymentMode : string;
  CurrentVersion : string;
  ConfigSHA256 : string;
  TargetVersion : string;
  LeaseGeneration : Z;
  ArtifactDigest : string;
  ExpectedVersion : string;
  ExpectedImageDigest : string;
  ExpectedPlatformDigest : string;
  SessionID : string;
  PlanSHA256 : string;
}.

#[global] Instance eq_dec : EqDecision t.
Proof. solve_decision. Defined.

#[global] Instance eta_t : Eta t := fun p =>
  mk (JobID p) (HostID p) (TargetID p) (ServiceType p) (DeploymentMode p) (CurrentVersion p)
     (ConfigSHA256 p) (TargetVersion p) (LeaseGeneration p) (ArtifactDigest p) (ExpectedVersion p)
     (ExpectedImageDigest p) (ExpectedPlatformDigest p) (SessionID p) (PlanSHA256 p).

(** [MutationPlan.ApplyPlan]: no lease token and no staging directory. *)
Definition apply_plan (p : t) : ApplyPlan.t :=
  ApplyPlan.mk (JobID p) (HostID p) (TargetID p) (ServiceType p) (DeploymentMode p) (TargetVersion p)
    (CurrentVersion p) (ConfigSHA256 p) "" (LeaseGeneration p) "" (ArtifactDigest p) (ExpectedVersion p)
    (ExpectedImageDigest p) (ExpectedPlatformDigest p).

Definition service_types : list string :=
  ["control_panel"; "worker"; "encoder_recorder"; "discord_bot"; "observability"].

Section Plan.
Context `{UnicodeTables} `{TimeZones}.

Definition ComputePlanSHA256 (p : t) : result string string := MutationPlanSHA256 (apply_plan p).

Definition ResultArtifactDigest (p : t) : string :=
  if DeploymentMode p ==? ModeDocker then normalizeDigest (ExpectedImageDigest p)
  else normalizeDigest (ArtifactDigest p).

(** The release binding of each deployment mode. *)
Definition validate_release (p : t) : check :=
  if DeploymentMode p ==? ModeSystemd then
    if negb (re_match mutationPlanHashPattern (ArtifactDigest p)) ||
       (ExpectedVersion p !=? TargetVersion p) || (ExpectedImageDigest p !=? "") ||
       (ExpectedPlatformDigest p !=? "")
    then Err "remote systemd plan release binding is invalid" else Ok tt
  else
    if negb (re_match mutationPlanHashPattern (ArtifactDigest p)) ||
       negb (re_match versionPattern (ExpectedVersion p)) ||
       negb (re_match digestPattern (ExpectedImageDigest p)) ||
       negb (re_match digestPattern (ExpectedPlatformDigest p))
    then Err "remote Docker plan release binding is invalid" else Ok tt.

Definition Validate (p : t) : check :=
  if negb (re_match identifierPattern (JobID p)) || negb (re_match identifierPattern (HostID p)) ||
     negb (re_match identifierPattern (TargetID p))
  then Err "remote plan contains an invalid identity"
  else if negb (existsb (String.eqb (ServiceType p)) service_types)
  then Err "remote plan contains an unsupported service type"
  else if (DeploymentMode p !=? ModeSystemd) && (DeploymentMode p !=? ModeDocker)
  then Err "remote plan contains an unsupported deployment mode"
  else if negb (re_match versionPattern (TrimSpace (TargetVersion p)))
  then Err "remote plan contains an invalid target version"
  else
    let current := TrimSpace (CurrentVersion p) in
    if negb (re_match versionPattern current) || (current !=? CurrentVersion p)
    then Err "remote plan contains an invalid current version"
    else
      let configSHA256 := TrimSpace (ToLower (ConfigSHA256 p)) in
      if negb (re_match digestPattern configSHA256) || (configSHA256 !=? ConfigSHA256 p)
      then Err "remote plan contains an invalid helper config digest"
      else if (LeaseGeneration p =? 0)%Z then Err "remote plan is missing its lease generation"
      else if negb (re_match mutationSessionPattern (SessionID p)) ||
         negb (re_match mutationPlanHashPattern (PlanSHA256 p))
      then Err "remote plan authorization binding is invalid"
      else
        let! _ := validate_release p in
        match ComputePlanSHA256 p with
        | Err _ => Err "remote plan digest does not match its immutable fields"
        | Ok computed =>
            if computed !=? PlanSHA256 p then Err "remote plan digest does not match its immutable fields"
            else Ok tt
        end.
End Plan.
End MutationPlan.

(** [MutationStageResult]. *)
Module StageResult.
Record t := mk { Status : string; SessionID : string; PlanSHA256 : string; ArtifactDigest : string }.

Definition Validate (r : t) : check :=
  if (Status r !=? "staged") || negb (re_match mutationSessionPattern (SessionID r)) ||
     negb (re_match mutationPlanHashPattern (PlanSHA256 r)) ||
     negb (re_match mutationPlanHashPattern (ArtifactDigest r))
  then Err "remote stage result is invalid" else Ok tt.
End StageResult.

(** [executorMutationFailure] and [executorMutationOutcome]. *)
Module Outcome.
Record failure := mk_failure { Code : string; FailureMessage : string }.
Record t := mk {
  Stage : option StageResult.t;
  Result : option ApplyResult.t;
  SessionID : string;
  PlanSHA256 : string;
  Error : option failure;
}.

Section Valid.
Context `{UnicodeTables}.

Definition result_digest_invalid (digest : string) : bool :=
  (digest !=? "") && negb (re_match digestPattern (normalizeDigest digest)).

Definition validate_stage (r : t) : result string Z :=
  match Stage r with
  | None => Ok 0%Z
  | Some stage => let! _ := StageResult.Validate stage in Ok 1%Z
  end.

Definition validate_result (r : t) : result string Z :=
  match Result r with
  | None => Ok 0%Z
  | Some result =>
      if negb (re_match mutationSessionPattern (SessionID r)) ||
         negb (re_match mutationPlanHashPattern (PlanSHA256 r))
      then Err "executor mutation result binding is invalid"
      else if (ApplyResult.Status result !=? "succeeded") && (ApplyResult.Status result !=? "rolled_back")
      then Err "executor mutation result status is invalid"
      else if result_digest_invalid (ApplyResult.ArtifactDigest result) ||
         result_digest_invalid (ApplyResult.PreviousDigest result) ||
         ((ApplyResult.Message result !=? "") && negb (safeExecutorMessage (ApplyResult.Message result)))
      then Err "executor mutation result is invalid"
      else Ok 1%Z
  end.

Definition validate_error (r : t) : result string Z :=
  match Error r with
  | None => Ok 0%Z
  | Some e =>
      if negb (validExecutorFailureCode (Code e)) || negb (safeExecutorMessage (FailureMessage e))
      then Err "executor mutation failure is invalid"
      else Ok 1%Z
  end.

Definition Validate (r : t) : check :=
  let! stage := validate_stage r in
  let! res := validate_result r in
  let! failed := validate_error r in
  if match Result r with None => (SessionID r !=? "") || (PlanSHA256 r !=? "") | Some _ => false end
  then Err "executor mutation result binding is unexpected"
  else if ((stage + res + failed) !=? 1)%Z
  then Err "executor mutation must contain exactly one outcome"
  else Ok tt.
End Valid.
End Outcome.

(** * What a valid plan pins down *)

Section Binding.
Context `{UnicodeTables} `{TimeZones}.

Lemma plain_of_identifier s : re_match identifierPattern s = true -> str_forall plain s = true.
Proof. intros. pattern_within. Qed.
Lemma plain_of_version s : re_match versionPattern s = true -> str_forall plain s = true.
Proof. intros. pattern_within. Qed.
Lemma plain_of_digest s : re_match digestPattern s = true -> str_forall plain s = true.
Proof. intros. pattern_within. Qed.

Lemma plain_of_service s : existsb (String.eqb s) MutationPlan.service_types = true -> str_forall plain s = true.
Proof.
  intros Hs. apply existsb_exists in Hs as (x & Hx & E). apply String.eqb_eq in E as ->.
  cbn in Hx. by repeat destruct Hx as [<-|Hx].
Qed.

Lemma service_trim s : existsb (String.eqb s) MutationPlan.service_types = true -> TrimSpace s = s.
Proof.
  intros Hs. apply existsb_exists in Hs as (x & Hx & E). apply String.eqb_eq in E as ->.
  cbn in Hx. by repeat destruct Hx as [<-|Hx].
Qed.

(** The digest fields in the form the payload has them. *)
Definition release_digests (p : MutationPlan.t) : string * string * string :=
  (normalizeDigest (MutationPlan.ArtifactDigest p), normalizeDigest (MutationPlan.ExpectedImageDigest p),
   normalizeDigest (MutationPlan.ExpectedPlatformDigest p)).

Record valid_plan (p : MutationPlan.t) : Prop := {
  vp_job : re_match identifierPattern (MutationPlan.JobID p) = true;
  vp_host : re_match identifierPattern (MutationPlan.HostID p) = true;
  vp_target : re_match identifierPattern (MutationPlan.TargetID p) = true;
  vp_service : existsb (String.eqb (MutationPlan.ServiceType p)) MutationPlan.service_types = true;
  vp_mode : MutationPlan.DeploymentMode p = ModeSystemd \/ MutationPlan.DeploymentMode p = ModeDocker;
  vp_version : re_match versionPattern (TrimSpace (MutationPlan.TargetVersion p)) = true;
  vp_current : re_match versionPattern (MutationPlan.CurrentVersion p) = true;
  vp_config : re_match digestPattern (MutationPlan.ConfigSHA256 p) = true;
  vp_lease : MutationPlan.LeaseGeneration p <> 0%Z;
  vp_artifact : re_match mutationPlanHashPattern (MutationPlan.ArtifactDigest p) = true;
  vp_expected : re_match versionPattern (TrimSpace (MutationPlan.ExpectedVersion p)) = true;
  vp_images :
    MutationPlan.DeploymentMode p = ModeSystemd /\ MutationPlan.ExpectedImageDigest p = "" /\
      MutationPlan.ExpectedPlatformDigest p = "" \/
    MutationPlan.DeploymentMode p = ModeDocker /\
      re_match digestPattern (MutationPlan.ExpectedImageDigest p) = true /\
      re_match digestPattern (MutationPlan.ExpectedPlatformDigest p) = true;
  vp_digest : MutationPlan.ComputePlanSHA256 p = Ok (MutationPlan.PlanSHA256 p);
}.

Lemma validate_release_inv p :
  MutationPlan.DeploymentMode p = ModeSystemd \/ MutationPlan.DeploymentMode p = ModeDocker ->
  re_match versionPattern (TrimSpace (MutationPlan.TargetVersion p)) = true ->
  MutationPlan.validate_release p = Ok tt ->
  re_match mutationPlanHashPattern (MutationPlan.ArtifactDigest p) = true /\
  re_match versionPattern (TrimSpace (MutationPlan.ExpectedVersion p)) = true /\
  (MutationPlan.DeploymentMode p = ModeSystemd /\ MutationPlan.ExpectedImageDigest p = "" /\
     MutationPlan.ExpectedPlatformDigest p = "" \/
   MutationPlan.DeploymentMode p = ModeDocker /\
     re_match digestPattern (MutationPlan.ExpectedImageDigest p) = true /\
     re_match digestPattern (MutationPlan.ExpectedPlatformDigest p) = true).
Proof.
  unfold MutationPlan.validate_release. intros [Hm|Hm] Hv; rewrite Hm;
    [change (ModeSystemd ==? ModeSystemd) with true|change (ModeDocker ==? ModeSystemd) with false];
    cbv iota; intros E; ok_inv E; bool_to_prop.
  - split; [done|]. split; [congruence|]. by left.
  - split; [done|]. split; [|by right]. rewrite TrimSpace_printable; eauto with go_db.
Qed.

Lemma Validate_valid p : MutationPlan.Validate p = Ok tt -> valid_plan p.
Proof.
  unfold MutationPlan.Validate. intros Hv. ok_inv Hv.
  destruct (MutationPlan.ComputePlanSHA256 p) as [h|] eqn:Eh; [|done]. ok_inv Hv.
  bool_to_prop. subst h.
  repeat match goal with
  | E : TrimSpace ?x = ?x, Hx : context [TrimSpace ?x] |- _ => rewrite E in Hx; clear E
  | E : ?y = MutationPlan.ConfigSHA256 p |- _ => rewrite E in *; clear E
  end.
  assert (Hmode : MutationPlan.DeploymentMode p = ModeSystemd \/ MutationPlan.DeploymentMode p = ModeDocker)
    by (bool_cases; tauto).
  destruct (validate_release_inv p) as (Ha & He & Hi); [done..|].
  constructor; try done. by apply Z.eqb_neq.
Qed.

Lemma identifier_trim s : re_match identifierPattern s = true -> TrimSpace s = s.
Proof. eauto with go_db. Qed.
Lemma version_trim s : re_match versionPattern s = true -> TrimSpace s = s.
Proof. eauto with go_db. Qed.

Lemma config_canonical s : re_match digestPattern s = true -> TrimSpace (ToLower s) = s.
Proof. intros Hs. rewrite ToLower_not_upper; eauto with go_db. Qed.

Lemma mode_trim p : valid_plan p -> TrimSpace (MutationPlan.DeploymentMode p) = MutationPlan.DeploymentMode p.
Proof. intros Hp. by destruct (vp_mode p Hp) as [-> | ->]. Qed.

Lemma normalize_empty : normalizeDigest "" = "".
Proof. unfold normalizeDigest. by rewrite ToLower_not_upper. Qed.

Lemma digest_field_plain s :
  s = "" \/ re_match digestPattern s = true -> str_forall plain (normalizeDigest s) = true.
Proof.
  intros [-> | Hs]; [by rewrite normalize_empty|].
  rewrite normalizeDigest_digest by done. by apply plain_of_digest.
Qed.

Lemma image_fields p : valid_plan p ->
  (MutationPlan.ExpectedImageDigest p = "" \/ re_match digestPattern (MutationPlan.ExpectedImageDigest p) = true) /\
  (MutationPlan.ExpectedPlatformDigest p = "" \/ re_match digestPattern (MutationPlan.ExpectedPlatformDigest p) = true).
Proof. intros Hp. destruct (vp_images p Hp); tauto. Qed.

Lemma clean_omit k s : str_forall plain k = true -> str_forall plain s = true -> Forall clean_field (omit_str k s).
Proof. intros Hk Hs. unfold omit_str. case_bool_decide; by repeat constructor. Qed.

Ltac open_payload :=
  unfold plan_payload, MutationPlan.apply_plan in *;
  cbn [ApplyPlan.JobID ApplyPlan.HostID ApplyPlan.TargetID ApplyPlan.ServiceType ApplyPlan.DeploymentMode
    ApplyPlan.TargetVersion ApplyPlan.CurrentVersion ApplyPlan.ConfigSHA256 ApplyPlan.LeaseGeneration
    ApplyPlan.ArtifactDigest ApplyPlan.ExpectedVersion ApplyPlan.ExpectedImageDigest
    ApplyPlan.ExpectedPlatformDigest app] in *.

(** On a valid plan the trims and case mappings of the payload do nothing. *)
Lemma trims p : valid_plan p ->
  TrimSpace (MutationPlan.JobID p) = MutationPlan.JobID p /\
  TrimSpace (MutationPlan.HostID p) = MutationPlan.HostID p /\
  TrimSpace (MutationPlan.TargetID p) = MutationPlan.TargetID p /\
  TrimSpace (MutationPlan.ServiceType p) = MutationPlan.ServiceType p /\
  TrimSpace (MutationPlan.DeploymentMode p) = MutationPlan.DeploymentMode p /\
  TrimSpace (MutationPlan.CurrentVersion p) = MutationPlan.CurrentVersion p /\
  TrimSpace (ToLower (MutationPlan.ConfigSHA256 p)) = MutationPlan.ConfigSHA256 p.
Proof.
  intros Hp. split_and!; auto using mode_trim.
  - apply identifier_trim, Hp.
  - apply identifier_trim, Hp.
  - apply identifier_trim, Hp.
  - apply service_trim, Hp.
  - apply version_trim, Hp.
  - apply config_canonical, Hp.
Qed.

Lemma payload_clean p :
  valid_plan p -> is_u64 (MutationPlan.LeaseGeneration p) ->
  Forall clean_field (plan_payload (MutationPlan.apply_plan p)).
Proof.
  intros Hp [Hl1 Hl2]. pose proof (image_fields p Hp) as [Hi1 Hi2]. open_payload.
  destruct (trims p Hp) as (-> & -> & -> & -> & -> & -> & ->).
  repeat (apply Forall_cons; split; [split; [reflexivity|cbn [snd clean_leaf]]|]).
  - by vm_compute.
  - apply plain_of_identifier, Hp.
  - apply plain_of_identifier, Hp.
  - apply plain_of_identifier, Hp.
  - apply plain_of_service, Hp.
  - by destruct (vp_mode p Hp) as [-> | ->].
  - apply plain_of_version, Hp.
  - apply plain_of_version, Hp.
  - apply plain_of_digest, Hp.
  - unfold is_count, u64_modulus in *. lia.
  - repeat (apply Forall_app; split); apply clean_omit; try reflexivity.
    + rewrite normalizeDigest_plan_hash by apply Hp. apply plain_of_digest.
      rewrite digest_of_plan_hash. apply Hp.
    + apply plain_of_version, Hp.
    + by apply digest_field_plain.
    + by apply digest_field_plain.
Qed.

(** The next field of the payload has another key. *)
Ltac no_head := intros ?; unfold omit_str; repeat case_bool_decide; discriminate.

(** The encodings of these two plans are different and collide under SHA-256. *)
Definition plans_collide (p p' : MutationPlan.t) : Prop :=
  exists e e', Marshal (JObj (plan_payload (MutationPlan.apply_plan p))) = Some e /\
    Marshal (JObj (plan_payload (MutationPlan.apply_plan p'))) = Some e' /\
    e <> e' /\ sha256_hex e = sha256_hex e'.

Lemma compute_digest p : valid_plan p ->
  exists encoded, Marshal (JObj (plan_payload (MutationPlan.apply_plan p))) = Some encoded /\
    MutationPlan.PlanSHA256 p = sha256_hex encoded.
Proof.
  intros Hp. pose proof (vp_digest p Hp) as Hd. unfold MutationPlan.ComputePlanSHA256, MutationPlanSHA256 in Hd.
  cbv zeta in Hd. ok_step Hd. destruct (Marshal _) as [encoded|]; [|done]. injection Hd as <-. eauto.
Qed.

Lemma normalize_field_inj s s' :
  s = "" \/ re_match digestPattern s = true -> s' = "" \/ re_match digestPattern s' = true ->
  normalizeDigest s = normalizeDigest s' -> s = s'.
Proof.
  intros [-> | Hs] [-> | Hs']; rewrite ?normalize_empty, ?normalizeDigest_digest by done; done.
Qed.

Lemma omit_inj k s s' l l' :
  (forall v, head l <> Some (k, v)) -> (forall v, head l' <> Some (k, v)) ->
  (omit_str k s ++ l = omit_str k s' ++ l')%list -> s = s' /\ l = l'.
Proof.
  intros Hl Hl'. unfold omit_str. do 2 case_bool_decide; subst; cbn; intros E.
  - done.
  - subst l. by destruct (Hl (JStr s')).
  - subst l'. by destruct (Hl' (JStr s)).
  - by injection E as -> ->.
Qed.

(** C13.  The plan digest binds the whole update intent: two valid plans with the
    same digest describe the same job, host, target, service, deployment mode,
    versions, configuration, lease generation and release digests, unless their own
    two encodings are a SHA-256 collision.  The two version strings that the plan only validates
    after trimming are bound up to surrounding white space. *)
Theorem plan_digest_binds_intent p p' :
  MutationPlan.Validate p = Ok tt -> MutationPlan.Validate p' = Ok tt ->
  is_u64 (MutationPlan.LeaseGeneration p) -> is_u64 (MutationPlan.LeaseGeneration p') ->
  MutationPlan.PlanSHA256 p = MutationPlan.PlanSHA256 p' ->
  (MutationPlan.JobID p = MutationPlan.JobID p' /\
   MutationPlan.HostID p = MutationPlan.HostID p' /\
   MutationPlan.TargetID p = MutationPlan.TargetID p' /\
   MutationPlan.ServiceType p = MutationPlan.ServiceType p' /\
   MutationPlan.DeploymentMode p = MutationPlan.DeploymentMode p' /\
   TrimSpace (MutationPlan.TargetVersion p) = TrimSpace (MutationPlan.TargetVersion p') /\
   MutationPlan.CurrentVersion p = MutationPlan.CurrentVersion p' /\
   MutationPlan.ConfigSHA256 p = MutationPlan.ConfigSHA256 p' /\
   MutationPlan.LeaseGeneration p = MutationPlan.LeaseGeneration p' /\
   MutationPlan.ArtifactDigest p = MutationPlan.ArtifactDigest p' /\
   TrimSpace (MutationPlan.ExpectedVersion p) = TrimSpace (MutationPlan.ExpectedVersion p') /\
   MutationPlan.ExpectedImageDigest p = MutationPlan.ExpectedImageDigest p' /\
   MutationPlan.ExpectedPlatformDigest p = MutationPlan.ExpectedPlatformDigest p') \/
  plans_collide p p'.
Proof.
  intros Hv Hv' Hl Hl' Eh. apply Validate_valid in Hv, Hv'.
  destruct (compute_digest p Hv) as (e & Ee & Ed), (compute_digest p' Hv') as (e' & Ee' & Ed').
  destruct (decide (e = e')) as [<-|Hne]; [left|right; exists e, e'; split_and!; congruence].
  assert (E : plan_payload (MutationPlan.apply_plan p) = plan_payload (MutationPlan.apply_plan p'))
    by (apply Marshal_flat_inj; [by apply payload_clean..|congruence]).
  open_payload. destruct (trims p Hv) as (T1 & T2 & T3 & T4 & T5 & T6 & T7).
  destruct (trims p' Hv') as (T1' & T2' & T3' & T4' & T5' & T6' & T7').
  rewrite T1, T2, T3, T4, T5, T6, T7, T1', T2', T3', T4', T5', T6', T7' in E.
  injection E as E1 E2 E3 E4 E5 E6 E7 E8 E9 E.
  rewrite (normalizeDigest_plan_hash _ (vp_artifact p Hv)), (normalizeDigest_plan_hash _ (vp_artifact p' Hv')) in E.
  apply omit_inj in E as [Ea E]; [|no_head..]. apply omit_inj in E as [Ev E]; [|no_head..].
  rewrite <- (app_nil_r (omit_str "expected_platform_digest" _)) in E.
  rewrite <- (app_nil_r (omit_str "expected_platform_digest" (normalizeDigest (MutationPlan.ExpectedPlatformDigest p')))) in E.
  apply omit_inj in E as [Ei E]; [|no_head..]. apply omit_inj in E as [Ep _]; [|done..].
  destruct (image_fields p Hv), (image_fields p' Hv').
  split_and!; try done; try (by apply normalize_field_inj). simpl in Ea. by injection Ea.
Qed.
End Binding.

(** ** A concrete plan *)
Module DemoPlan.
#[global] Instance ascii_only : UnicodeTables := {| map_to_lower := fun s => s; fold_equal := String.eqb |}.
#[global] Instance utc_only : TimeZones := fun _ => 0%Z.
Definition hex64 : string := "0123456789abcdef0123456789abcdef0123456789abcdef0123456789abcdef".
Definition unsigned : MutationPlan.t :=
  MutationPlan.mk "job-1" "host-1" "worker-1" "worker" "systemd" "v1.0.0" ("sha256:" +:+ hex64) "v1.1.0" 3
    hex64 "v1.1.0" "" "" "session-0123456789" "".
Definition plan : MutationPlan.t := Eval vm_compute in
  unsigned <| MutationPlan.PlanSHA256 :=
    match MutationPlan.ComputePlanSHA256 unsigned with Ok h => h | Err _ => "" end |>.

Example plan_valid : MutationPlan.Validate plan = Ok tt.
Proof. vm_compute. reflexivity. Qed.
End DemoPlan.

(** The same intent under another session: the session is not part of the digest. *)
Definition other_session : MutationPlan.t := DemoPlan.plan <| MutationPlan.SessionID := "session-9876543210" |>.

Lemma plan_digest_binds_intent_witness :
  MutationPlan.JobID DemoPlan.plan = MutationPlan.JobID other_session \/ plans_collide DemoPlan.plan other_session.
Proof.
  assert (V : MutationPlan.Validate DemoPlan.plan = Ok tt) by (vm_compute; reflexivity).
  assert (V' : MutationPlan.Validate other_session = Ok tt) by (vm_compute; reflexivity).
  assert (L : is_u64 (MutationPlan.LeaseGeneration DemoPlan.plan)) by (vm_compute; split; congruence).
  destruct (plan_digest_binds_intent DemoPlan.plan other_session V V' L L eq_refl) as [(E & _)|?];
    [left; exact E|by right].
Defined.
