(* ===== verification/Paths.v ===== *)
(** Package [path/filepath] on Unix, as far as the code uses it, and
    [pathWithin] ([artifact.go]): what it takes for a path to be inside a
    directory. *)
From Stdlib Require Import Ascii String ZArith Lia.
From stdpp Require Import base decidable list strings.
From S2P Require Import Prelude Strings.

Open Scope string_scope.

Definition IsAbs (p : string) : bool := HasPrefix p "/".

Fixpoint join_with (sep : string) (l : list string) : string :=
  match l with
  | [] => ""
  | [x] => x
  | x :: r => x +:+ sep +:+ join_with sep r
  end.

(** The components of a path: empty ones and [.] go away. *)
Definition components (p : string) : list string :=
  filter (fun c => c <> "" /\ c <> ".") (Split p "/").

(** [..] removes the component before it; at the root it goes away, and in front
    of a relative path it stays.  [stack] is the path so far, last component
    first. *)
Definition push_component (rooted : bool) (stack : list string) (c : string) : list string :=
  if c ==? ".." then
    match stack with
    | [] => if rooted then [] else [".."]
    | top :: rest => if top ==? ".." then ".." :: stack else rest
    end
  else c :: stack.

Definition clean_components (p : string) : list string :=
  rev (fold_left (push_component (IsAbs p)) (components p) []).

Definition render (rooted : bool) (cs : list string) : string :=
  if rooted then "/" +:+ join_with "/" cs
  else match cs with [] => "." | _ => join_with "/" cs end.

Definition Clean (p : string) : string := render (IsAbs p) (clean_components p).

(** [filepath.Join] ignores empty elements and cleans the rest. *)
Definition Join (elems : list string) : string :=
  match filter (fun e => e <> "") elems with
  | [] => ""
  | l => Clean (join_with "/" l)
  end.

Definition Dir (p : string) : string :=
  render (IsAbs p) (rev (tail (rev (clean_components p)))).

(** Drops the common prefix of two lists of components. *)
Fixpoint drop_common (a b : list string) : list string * list string :=
  match a, b with
  | x :: a', y :: b' => if x ==? y then drop_common a' b' else (a, b)
  | _, _ => (a, b)
  end.

(** The components of [filepath.Rel(base, target)]; none when there is no such
    relative path. *)
Definition Rel (base target : string) : option (list string) :=
  if IsAbs base !=? IsAbs target then None
  else
    let '(b, t) := drop_common (clean_components base) (clean_components target) in
    if existsb (fun c => c ==? "..") b then None
    else Some (map (fun _ => "..") b ++ t)%list.

(** The result is [..] itself or starts with [../]. *)
Definition pathWithin (root candidate : string) : bool :=
  match Rel root candidate with
  | None => false
  | Some rel => match rel with c :: _ => c !=? ".." | [] => true end
  end.

(** * Containment *)

Lemma push_component_no_dots stack c :
  Forall (fun x => x <> "..") stack -> Forall (fun x => x <> "..") (push_component true stack c).
Proof.
  intros Hs. unfold push_component. case_bool_decide; [|by constructor].
  destruct stack as [|top rest]; [done|]. inversion_clear Hs. by rewrite bool_decide_eq_false_2.
Qed.

Lemma clean_abs_no_dots p : IsAbs p = true -> Forall (fun x => x <> "..") (clean_components p).
Proof.
  intros Ha. unfold clean_components. rewrite Ha. apply Forall_rev.
  assert (G : forall l stack, Forall (fun x => x <> "..") stack ->
    Forall (fun x => x <> "..") (fold_left (push_component true) l stack)).
  { induction l as [|c l IH]; intros stack Hs; [done|]. by apply IH, push_component_no_dots. }
  by apply G.
Qed.

Lemma drop_common_prefix a b rest : drop_common a b = ([], rest) <-> b = (a ++ rest)%list.
Proof.
  revert b. induction a as [|x a IH]; intros b; cbn; [destruct b; split; congruence|].
  destruct b as [|y b]; [split; [done|discriminate]|].
  case_bool_decide as E; [rewrite IH; subst; split; [by intros ->|congruence]|].
  split; [done|congruence].
Qed.

(** [pathWithin] on absolute paths: the components of the root are a prefix of
    those of the candidate. *)
Lemma pathWithin_abs root candidate :
  IsAbs root = true -> IsAbs candidate = true ->
  pathWithin root candidate = true <->
  exists rest, clean_components candidate = (clean_components root ++ rest)%list.
Proof.
  intros Hr Hc. pose proof (clean_abs_no_dots _ Hr) as Dr. pose proof (clean_abs_no_dots _ Hc) as Dc.
  unfold pathWithin, Rel. rewrite Hr, Hc, bool_decide_eq_true_2 by done. cbn [negb].
  destruct (drop_common _ _) as [b t] eqn:E. destruct b as [|x b].
  - cbn. apply drop_common_prefix in E. rewrite E in *. apply Forall_app in Dc as [_ Dt].
    split; [eauto|]. intros _. destruct Dt; [done|]. by rewrite bool_decide_eq_false_2.
  - split.
    + destruct (existsb _ _); [done|]. cbn. by rewrite bool_decide_eq_true_2.
    + intros [rest Hrest]. apply drop_common_prefix in Hrest. congruence.
Qed.

Lemma pathWithin_trans a b c :
  IsAbs a = true -> IsAbs b = true -> IsAbs c = true ->
  pathWithin a b = true -> pathWithin b c = true -> pathWithin a c = true.
Proof.
  intros Ha Hb Hc. rewrite !pathWithin_abs by done. intros [r ->] [r' ->]. exists (r ++ r')%list.
  by rewrite app_assoc.
Qed.

Example clean_1 : Clean "/a/./b//../c/" = "/a/c". Proof. reflexivity. Qed.
Example clean_2 : Clean "a/../.." = "..". Proof. reflexivity. Qed.
Example clean_3 : Clean "" = ".". Proof. reflexivity. Qed.
Example join_1 : Join ["/var/lib"; ""; "stages"; "x"] = "/var/lib/stages/x". Proof. reflexivity. Qed.
Example within_1 : pathWithin "/srv/releases" "/srv/releases/../x" = false. Proof. reflexivity. Qed.
Example within_2 : pathWithin "/srv/releases" "/srv/releases/..x" = true. Proof. reflexivity. Qed.
