(* ===== verification/DockerPin.v ===== *)
(** The version pin of a Docker target: one assignment in an environment file that an
    operator also edits ([docker_release_identity.go]). *)
From Stdlib Require Import Ascii String ZArith Lia.
From stdpp Require Import base decidable list strings.
From S2P Require Import Prelude Strings Regexp Patterns.

Open Scope string_scope.

Definition nl : ascii := "010".
Definition cr : ascii := "013".

(** [strings.ReplaceAll(s, "\r\n", "\n")]. *)
Fixpoint unix_lines (s : string) : string :=
  match s with
  | "" => ""
  | String c r =>
      if Ascii.eqb c cr then
        match r with
        | String d r' => if Ascii.eqb d nl then String nl (unix_lines r') else String c (unix_lines r)
        | "" => String c ""
        end
      else String c (unix_lines r)
  end.

(** [strings.Join(lines, "\n")] and [strings.TrimRight(s, "\n")]. *)
Fixpoint join_lines (lines : list string) : string :=
  match lines with
  | [] => ""
  | [l] => l
  | l :: rest => l +:+ String nl (join_lines rest)
  end.

Fixpoint trim_newlines (s : string) : string :=
  match s with
  | "" => ""
  | String c r => match trim_newlines r with
                  | "" => if Ascii.eqb c nl then "" else String c ""
                  | r' => String c r'
                  end
  end.

Definition env_lines (s : string) : list string := Split (unix_lines s) nl.

Definition imageVariable : string := "AUTOSTREAM_DOCKER_VERSION".

Definition assigns (name line : string) : bool := HasPrefix (TrimSpace line) (name +:+ "=").

Definition canonical_pin (value : string) : option (string * string) :=
  match Split value "@" with
  | [version; digest] =>
      if re_match versionPattern version && re_match digestPattern digest then Some (version, digest) else None
  | _ => None
  end.

Definition updateVersionEnv (original name value : string) : result string string :=
  if (name !=? imageVariable) || bool_decide (canonical_pin value = None) then Err "version env update is invalid"
  else
    let lines := env_lines original in
    let found := length (filter (fun l => assigns name l = true) lines) in
    let pin := name +:+ "=" +:+ value in
    let lines' := map (fun l => if assigns name l then pin else l) lines in
    if (1 <? found)%nat then Err "version_env_file contains duplicate version assignments"
    else
      let lines' := if (found =? 0)%nat then
                      ((if bool_decide (lines' = [""]) then [] else lines') ++ [pin])%list
                    else lines' in
      Ok (trim_newlines (join_lines lines') +:+ String nl "").

(** The loop of [parseVersionEnvPin]: the last value found so far. *)
Fixpoint find_pin (name : string) (lines : list string) (found : string) : result string string :=
  match lines with
  | [] => Ok found
  | l :: rest =>
      let line := TrimSpace l in
      if HasPrefix line (name +:+ "=") then
        if found !=? "" then Err "version_env_file contains duplicate version assignments"
        else find_pin name rest (TrimPrefix line (name +:+ "="))
      else find_pin name rest found
  end.

Definition parseVersionEnvPin (data name : string) : result string (string * string) :=
  let! found := find_pin name (env_lines data) "" in
  match canonical_pin found with
  | Some pin => Ok pin
  | None => Err "version_env_file must contain a canonical bundle@sha256 pin"
  end.

(** * Lines *)

(** A line as it is read, up to the blanks around it. *)
Definition trimmed (s : string) : list string := map TrimSpace (env_lines s).

Lemma HasPrefix_app s t e : HasPrefix s e = true -> HasPrefix (s +:+ t) e = true.
Proof. rewrite !HasPrefix_spec. intros [u ->]. exists (u +:+ t). apply str_app_assoc. Qed.

(** Encodings other than the carriage return do not contain it. *)
Definition lacks_cr (e : string) : bool := str_forall (fun c => negb (Ascii.eqb c cr)) e.

Lemma HasPrefix_cr s e :
  lacks_cr e = true -> HasPrefix (s +:+ String cr "") e = HasPrefix s e.
Proof.
  revert s. induction e as [|c e IH]; intros s; [by destruct s|]. cbn -[Ascii.eqb]. intros [Hc He]%andb_true_iff.
  destruct s as [|d s]; cbn -[Ascii.eqb].
  - apply negb_true_iff in Hc. rewrite Ascii.eqb_sym, Hc. done.
  - by rewrite IH.
Qed.

(** The only encoding that starts with the carriage return is the carriage return. *)
Definition cr_alone (encs : list string) : bool :=
  forallb (fun e => bool_decide (e = String cr "") || (lacks_cr e && negb (bool_decide (e = "")))) encs.

Lemma find_cr encs t :
  cr_alone encs = true -> String cr "" ∈ encs -> find (fun e => HasPrefix (String cr t) e) encs = Some (String cr "").
Proof.
  intros Hc Hin. induction encs as [|e encs IH]; [by apply not_elem_of_nil in Hin|]. cbn -[HasPrefix] in *.
  apply andb_true_iff in Hc as [He Hc]. destruct (decide (e = String cr "")) as [->|Hne]; [by destruct t|].
  rewrite bool_decide_false in He by done. cbn in He. apply andb_true_iff in He as [Hl Hnil].
  assert (HasPrefix (String cr t) e = false) as ->.
  { destruct e as [|c e]; [done|]. cbn -[Ascii.eqb] in Hl |- *. apply andb_true_iff in Hl as [Hx _]. apply negb_true_iff in Hx.
    by rewrite Ascii.eqb_sym, Hx. }
  apply IH; [done|]. apply elem_of_cons in Hin as [Hin|Hin]; [congruence|done].
Qed.

Lemma find_ext_in {A} (f g : A -> bool) l : (forall x, x ∈ l -> f x = g x) -> find f l = find g l.
Proof.
  intros H. induction l as [|x l IH]; [done|]. cbn. rewrite (H x) by left. destruct (g x); [done|].
  apply IH. intros y Hy. apply H. by right.
Qed.

Lemma cr_alone_elem encs e : cr_alone encs = true -> e ∈ encs -> e = String cr "" \/ lacks_cr e = true /\ e <> "".
Proof.
  unfold cr_alone. rewrite forallb_forall. intros Hc Hin. specialize (Hc e (proj1 (list_elem_of_In _ _) Hin)).
  apply orb_true_iff in Hc as [Hc|Hc]; bool_to_prop; auto.
Qed.

Lemma trim_leading_empty encs fuel : cr_alone encs = true -> trim_leading encs fuel "" = "".
Proof.
  intros Hc. destruct fuel as [|fuel]; [done|]. cbn -[HasPrefix]. destruct (find _ encs) as [e|] eqn:E; [|done].
  apply find_some in E as [Hin Hp]. apply list_elem_of_In in Hin. destruct e; [|done].
  destruct (cr_alone_elem encs "" Hc Hin) as [?|[_ ?]]; done.
Qed.

Lemma str_drop_prefix e s t : HasPrefix s e = true -> str_drop (String.length e) (s +:+ t) = str_drop (String.length e) s +:+ t.
Proof. intros [u ->]%HasPrefix_spec. by rewrite str_app_assoc, !str_drop_app. Qed.

Lemma trim_leading_cr encs fuel s :
  cr_alone encs = true -> String cr "" ∈ encs -> String.length s <= fuel ->
  trim_leading encs (S fuel) (s +:+ String cr "") =
    match trim_leading encs fuel s with "" => "" | r => r +:+ String cr "" end.
Proof.
  intros Hc Hin. revert s. induction fuel as [|fuel IH]; intros s Hs.
  { destruct s; cbn in Hs; [|lia]. cbn -[HasPrefix find]. by rewrite (find_cr encs "" Hc Hin). }
  destruct s as [|c s].
  { rewrite (trim_leading_empty encs (S fuel) Hc). change ("" +:+ String cr "") with (String cr "").
    cbn -[HasPrefix find trim_leading]. change (trim_leading encs (S (S fuel)) (String cr "")) with
      (match find (fun e => HasPrefix (String cr "") e) encs with
       | Some e => trim_leading encs (S fuel) (str_drop (String.length e) (String cr "")) | None => String cr "" end).
    rewrite (find_cr encs "" Hc Hin). by apply trim_leading_empty. }
  set (s' := String c s) in *.
  change (trim_leading encs (S (S fuel)) (s' +:+ String cr "")) with
    (match find (fun e => HasPrefix (s' +:+ String cr "") e) encs with
     | Some e => trim_leading encs (S fuel) (str_drop (String.length e) (s' +:+ String cr "")) | None => s' +:+ String cr "" end).
  change (trim_leading encs (S fuel) s') with
    (match find (fun e => HasPrefix s' e) encs with
     | Some e => trim_leading encs fuel (str_drop (String.length e) s') | None => s' end).
  rewrite (find_ext_in _ (fun e => HasPrefix s' e)).
  - destruct (find _ encs) as [e|] eqn:E; [|done]. apply find_some in E as [Hine Hp]. apply list_elem_of_In in Hine.
    rewrite str_drop_prefix by done. apply IH. apply HasPrefix_spec in Hp as [u Hu]. rewrite Hu, str_drop_app.
    assert (0 < String.length e).
    { destruct e; [|cbn; lia]. destruct (cr_alone_elem encs "" Hc Hine) as [?|[_ ?]]; done. }
    apply (f_equal String.length) in Hu. rewrite length_str_app in Hu. lia.
  - intros e He. destruct (cr_alone_elem encs e Hc He) as [->|[Hl _]]; [|by apply HasPrefix_cr].
    cbn -[Ascii.eqb]. by destruct s.
Qed.

(** A carriage return at the end of a line does not matter. *)
Lemma TrimSpace_cr s : TrimSpace (s +:+ String cr "") = TrimSpace s.
Proof.
  assert (Hl : TrimLeftSpace (s +:+ String cr "") = match TrimLeftSpace s with "" => "" | r => r +:+ String cr "" end).
  { unfold TrimLeftSpace. rewrite length_str_app, Nat.add_comm. apply trim_leading_cr; [done| |done].
    apply list_elem_of_In. vm_compute. tauto. }
  unfold TrimSpace. rewrite Hl. destruct (TrimLeftSpace s) as [|c r] eqn:E; [done|].
  unfold TrimRightSpace. rewrite str_rev_app, length_str_app, Nat.add_comm. f_equal.
  set (encs := map str_rev space_encodings). generalize (str_rev (String c r)), (String.length (String c r)). intros x n.
  change (trim_leading encs (S n) (String cr x) = trim_leading encs n x). cbn [trim_leading].
  rewrite find_cr; [done|done|]. apply list_elem_of_In. vm_compute. tauto.
Qed.

Lemma Split_nonempty s sep : Split s sep <> [].
Proof. destruct s as [|c s]; [done|]. cbn. destruct (Ascii.eqb c sep); [done|]. by destruct (Split s sep). Qed.

Lemma Split_app s t sep : Split (s +:+ String sep t) sep = (Split s sep ++ Split t sep)%list.
Proof.
  induction s as [|c s IH]; cbn -[Ascii.eqb].
  - by rewrite Ascii.eqb_refl.
  - rewrite IH. destruct (Ascii.eqb c sep); [done|]. pose proof (Split_nonempty s sep). by destruct (Split s sep).
Qed.

Definition no_byte (b : ascii) (s : string) : bool := str_forall (fun c => negb (Ascii.eqb c b)) s.

Lemma Split_single s sep : no_byte sep s = true -> Split s sep = [s].
Proof.
  induction s as [|c s IH]; [done|]. unfold no_byte. cbn -[Ascii.eqb]. intros [Hc Hs]%andb_true_iff.
  apply negb_true_iff in Hc. by rewrite Hc, IH.
Qed.

Lemma Split_pieces s sep : Forall (fun l => no_byte sep l = true) (Split s sep).
Proof.
  induction s as [|c s IH]; cbn -[Ascii.eqb]; [by repeat constructor|].
  destruct (Ascii.eqb c sep) eqn:Ec; [by constructor|]. destruct (Split s sep) as [|h t].
  - constructor; [|constructor]. unfold no_byte. cbn -[Ascii.eqb]. by rewrite Ec.
  - apply Forall_cons in IH as [Hh Ht]. constructor; [|done]. unfold no_byte in *. cbn -[Ascii.eqb]. by rewrite Ec.
Qed.

Lemma Split_one s sep b : Split s sep = [b] -> s = b.
Proof.
  revert b. induction s as [|d s IH]; intros b; cbn -[Ascii.eqb]; [congruence|]. destruct (Ascii.eqb d sep).
  - intros [= _ Es]. by destruct (Split_nonempty s sep).
  - destruct (Split s sep) as [|h t] eqn:Eh; [by destruct (Split_nonempty s sep)|]. intros [= <- ->]. f_equal. by apply IH.
Qed.

Lemma Split_pair s sep a b : Split s sep = [a; b] -> s = a +:+ String sep b.
Proof.
  revert a b. induction s as [|c s IH]; intros a b; cbn -[Ascii.eqb]; [done|].
  destruct (Ascii.eqb c sep) eqn:Ec.
  - apply Ascii.eqb_eq in Ec as ->. intros [= <- Es]. cbn. f_equal. by eapply Split_one.
  - destruct (Split s sep) as [|h t] eqn:Eh; [by destruct (Split_nonempty s sep)|]. intros [= <- ->].
    cbn. f_equal. by apply IH.
Qed.

Lemma Split_join_lines ls : ls <> [] -> Forall (fun l => no_byte nl l = true) ls -> Split (join_lines ls) nl = ls.
Proof.
  induction ls as [|l ls IH]; [done|]. intros _ [Hl Hls]%Forall_cons. destruct ls as [|m ls].
  - by apply Split_single.
  - change (join_lines (l :: m :: ls)) with (l +:+ String nl (join_lines (m :: ls))).
    rewrite Split_app, (Split_single l) by done. by rewrite IH.
Qed.

Lemma env_lines_cr s :
  Forall2 (fun a b => b = a \/ b = a +:+ String cr "") (env_lines s) (Split s nl).
Proof.
  unfold env_lines. remember (String.length s) as n eqn:En. revert s En.
  induction n as [n IH] using lt_wf_ind. intros s ->.
  destruct s as [|c s]; [by repeat constructor; left|].
  assert (Hc : forall r, r = s -> Forall2 (fun a b => b = a \/ b = a +:+ String cr "")
    (Split (String c (unix_lines r)) nl) (Split (String c s) nl)).
  { intros r ->. assert (Hs := IH (String.length s) ltac:(cbn; lia) s eq_refl). cbn -[Ascii.eqb].
    destruct (Ascii.eqb c nl); [constructor; [by left|done]|].
    destruct Hs as [|a b la lb Hab Hs]; [constructor; [by left|done]|]. constructor; [|done].
    destruct Hab as [-> | ->]; [by left|by right]. }
  cbn -[Ascii.eqb Split]. destruct (Ascii.eqb c cr) eqn:Ec; [|by apply Hc].
  destruct s as [|d s]; [by apply (Hc "")|]. destruct (Ascii.eqb d nl) eqn:Ed; [|by apply Hc].
  apply Ascii.eqb_eq in Ec as ->, Ed as ->.
  change (Split (String nl (unix_lines s)) nl) with ("" :: Split (unix_lines s) nl).
  change (Split (String cr (String nl s)) nl) with (String cr "" :: Split s nl).
  constructor; [by right|]. by apply (IH (String.length s)); [cbn; lia|].
Qed.

Lemma trimmed_split s : trimmed s = map TrimSpace (Split s nl).
Proof.
  unfold trimmed. induction (env_lines_cr s) as [|a b la lb Hab _ IH]; [done|]. cbn. rewrite IH. f_equal.
  destruct Hab as [-> | ->]; [done|]. by rewrite TrimSpace_cr.
Qed.

(** The lines that say something. *)
Definition content (s : string) : list string := filter (fun l => l <> "") (trimmed s).

Lemma content_newline s t : content (s +:+ String nl t) = (content s ++ content t)%list.
Proof. unfold content. by rewrite !trimmed_split, Split_app, map_app, filter_app. Qed.

Lemma content_trim s : content (trim_newlines s) = content s.
Proof.
  assert (Hs : exists n, s = trim_newlines s +:+ foldr (fun _ r => String nl r) "" (seq 0 n)).
  { induction s as [|c s [n Hn]]; [by exists 0|]. cbn -[Ascii.eqb]. destruct (trim_newlines s) as [|d r] eqn:Et.
    - destruct (Ascii.eqb c nl) eqn:Ec.
      + apply Ascii.eqb_eq in Ec as ->. exists (S n). cbn. f_equal. rewrite Hn at 1. cbn.
        clear. generalize 0 at 1 as a, 1 as b. induction n as [|n IH]; intros a b; [done|]. cbn. f_equal. apply IH.
      + exists n. cbn. by rewrite Hn at 1.
    - exists n. cbn. by rewrite Hn at 1. }
  destruct Hs as [n Hs]. rewrite Hs at 2. generalize (trim_newlines s) as r. generalize (seq 0 n) as k. clear.
  induction k as [|x k IH]; intros r; cbn [foldr]; [by rewrite str_app_nil_r|].
  pose proof (IH "") as E. cbn [String.append] in E. by rewrite content_newline, <- E, app_nil_r.
Qed.

Lemma content_lines ls :
  Forall (fun l => no_byte nl l = true) ls -> content (join_lines ls) = filter (fun l => l <> "") (map TrimSpace ls).
Proof.
  intros Hl. unfold content. rewrite trimmed_split. destruct ls as [|l ls]; [done|]. by rewrite Split_join_lines.
Qed.

(** * The round trip *)

Definition is_pin (name line : string) : bool := HasPrefix line (name +:+ "=").

(** The lines beside the pin. *)
Definition others (name s : string) : list string := filter (fun l => is_pin name l = false) (content s).

Lemma find_pin_skip name lines found :
  find_pin name lines found = find_pin name (filter (fun l => TrimSpace l <> "") lines) found.
Proof.
  revert found. induction lines as [|l lines IH]; intros found; [done|]. rewrite filter_cons. cbn [find_pin].
  destruct (decide (TrimSpace l <> "")) as [Hl|Hl]; cbn [find_pin].
  - destruct (HasPrefix _ _); [|apply IH]. destruct (found !=? ""); [done|apply IH].
  - apply dec_stable in Hl. rewrite Hl.
    replace (HasPrefix "" (name +:+ "=")) with false by (by destruct name). apply IH.
Qed.

(** [parseVersionEnvPin] reads the trimmed lines, one of them as a pin. *)
Fixpoint find_in (name : string) (lines : list string) (found : string) : result string string :=
  match lines with
  | [] => Ok found
  | l :: rest =>
      if is_pin name l then
        if found !=? "" then Err "version_env_file contains duplicate version assignments"
        else find_in name rest (TrimPrefix l (name +:+ "="))
      else find_in name rest found
  end.

Lemma find_pin_content name s found : find_pin name (env_lines s) found = find_in name (content s) found.
Proof.
  rewrite find_pin_skip. unfold content, trimmed. generalize (env_lines s) as ls. intros ls.
  revert found. induction ls as [|l ls IH]; intros found; [done|]. cbn [map]. rewrite !filter_cons.
  destruct (decide (TrimSpace l <> "")) as [Hl|Hl]; [|apply IH]. cbn [find_pin find_in]. unfold is_pin.
  destruct (HasPrefix _ _); [|apply IH]. destruct (found !=? ""); [done|apply IH].
Qed.

Lemma find_in_none name ls found : Forall (fun l => is_pin name l = false) ls -> find_in name ls found = Ok found.
Proof. induction 1 as [|l ls Hl _ IH]; [done|]. cbn. by rewrite Hl. Qed.

Lemma find_in_app name l1 l2 :
  Forall (fun l => is_pin name l = false) l1 -> find_in name (l1 ++ l2) "" = find_in name l2 "".
Proof. induction 1 as [|l ls Hl _ IH]; [done|]. cbn. by rewrite Hl. Qed.

Lemma pin_printable value pin : canonical_pin value = Some pin -> str_forall printable value = true /\ value <> "".
Proof.
  unfold canonical_pin. destruct (Split value "@") as [|v [|d [|? ?]]] eqn:E; try done.
  destruct (_ && _) eqn:Eb; [|done]. bool_to_prop. intros _. apply Split_pair in E as ->. split; [|by destruct v].
  rewrite str_forall_app. cbn. rewrite version_printable, digest_printable by done. done.
Qed.

Lemma printable_no_nl s : str_forall printable s = true -> no_byte nl s = true.
Proof.
  apply str_forall_impl. intros c Hc. apply negb_true_iff, Ascii.eqb_neq. intros ->. by vm_compute in Hc.
Qed.

(** At most one line assigns the pin; where it is, or at the end, the new pin goes. *)
Lemma pin_position name (pin : string) lines :
  length (filter (fun l => assigns name l = true) lines) <= 1 ->
  exists l1 l2, Forall (fun l => assigns name l = false) (l1 ++ l2) /\
    filter (fun l => assigns name l = false) lines = (l1 ++ l2)%list /\
    (if (length (filter (fun l => assigns name l = true) lines) =? 0)%nat then lines = l1 /\ l2 = []
     else map (fun l => if assigns name l then pin else l) lines = (l1 ++ pin :: l2)%list).
Proof.
  assert (Hnone : forall ls, length (filter (fun l => assigns name l = true) ls) = 0 ->
    Forall (fun l => assigns name l = false) ls /\ filter (fun l => assigns name l = false) ls = ls /\
    map (fun l => if assigns name l then pin else l) ls = ls).
  { intros ls. induction ls as [|l ls IH]; [by repeat constructor|]. rewrite !filter_cons. cbn [map].
    destruct (assigns name l) eqn:Ea.
    - rewrite decide_True by done. done.
    - rewrite decide_False, decide_True by done. intros E. destruct (IH E) as (Hf & Hg & Hm). rewrite Hg, Hm.
      split_and!; [by constructor|done|done]. }
  induction lines as [|l ls IH]; intros Hn; [exists [], []; by repeat constructor|].
  rewrite !filter_cons in *. destruct (assigns name l) eqn:Ea.
  - rewrite decide_True in * by done. rewrite decide_False by done. cbn [length] in *.
    destruct (Hnone ls) as (Hf & Hg & Hm); [lia|]. exists [], ls. cbn. rewrite Ea, Hm. by split_and!.
  - rewrite (decide_False (P := false = true)) in * by done. rewrite (decide_True (P := false = false)) by done.
    destruct (IH Hn) as (l1 & l2 & Hf & Hg & Hm). exists (l :: l1), l2. cbn [app]. rewrite Hg.
    split_and!; [by constructor|done|]. destruct (_ =? 0)%nat; [destruct Hm as [-> ->]; done|].
    cbn [map]. rewrite Ea, Hm. done.
Qed.

Definition said (ls : list string) : list string := filter (fun l => l <> "") (map TrimSpace ls).

Lemma said_app l1 l2 : said (l1 ++ l2) = (said l1 ++ said l2)%list.
Proof. unfold said. by rewrite map_app, filter_app. Qed.

Lemma said_others name ls :
  Forall (fun l => assigns name l = false) ls -> Forall (fun l => is_pin name l = false) (said ls).
Proof.
  induction 1 as [|l ls Hl _ IH]; [constructor|]. unfold said. cbn [map]. rewrite filter_cons.
  destruct (decide _); [by constructor|done].
Qed.

Lemma others_said name ls :
  filter (fun l => is_pin name l = false) (said ls) = said (filter (fun l => assigns name l = false) ls).
Proof.
  induction ls as [|l ls IH]; [done|]. unfold said in *. cbn [map]. rewrite !filter_cons.
  change (assigns name l) with (is_pin name (TrimSpace l)).
  destruct (decide (TrimSpace l <> "")) as [Hl|Hl]; [rewrite filter_cons|];
    destruct (decide (is_pin name (TrimSpace l) = false)) as [Hp|Hp]; cbn [map]; rewrite ?filter_cons, ?IH; try done.
  - by rewrite decide_True.
  - by rewrite decide_False.
Qed.

Lemma filter_all {A} (Q : A -> Prop) `{!forall x, Decision (Q x)} l : Forall Q l -> filter Q l = l.
Proof. induction 1 as [|x l Hx _ IH]; [done|]. rewrite filter_cons, decide_True by done. by rewrite IH. Qed.

(** What [updateVersionEnv] writes: the pin among the other lines. *)
Lemma update_lines original value pin new :
  canonical_pin value = Some pin -> updateVersionEnv original imageVariable value = Ok new ->
  exists l1 l2, Forall (fun l => is_pin imageVariable l = false) (l1 ++ l2) /\
    others imageVariable original = (l1 ++ l2)%list /\
    content new = (l1 ++ (imageVariable +:+ "=" +:+ value) :: l2)%list.
Proof.
  intros Hv. destruct (pin_printable _ _ Hv) as [Hp _]. unfold updateVersionEnv. rewrite Hv.
  rewrite (bool_decide_true (imageVariable = imageVariable)), bool_decide_false by done. cbn [negb orb].
  set (assignment := imageVariable +:+ "=" +:+ value).
  assert (Hpr : str_forall printable assignment = true).
  { unfold assignment. rewrite !str_forall_app, Hp. reflexivity. }
  destruct (1 <? _)%nat eqn:En; [done|]. apply Nat.ltb_ge in En.
  destruct (pin_position imageVariable assignment (env_lines original) En) as (l1 & l2 & Hf & Ho & Hm).
  assert (Hlines : forall ls, Forall (fun l => no_byte nl l = true) ls ->
    content (trim_newlines (join_lines ls) +:+ String nl "") = said ls).
  { intros ls Hls. rewrite content_newline, content_trim, content_lines by done. by rewrite app_nil_r. }
  assert (Hsaid : said [assignment] = [assignment]).
  { unfold said. cbn [map]. rewrite TrimSpace_printable by done. reflexivity. }
  assert (Hno : Forall (fun l => no_byte nl l = true) (env_lines original)) by apply Split_pieces.
  assert (Hnopin : no_byte nl assignment = true) by (by apply printable_no_nl).
  intros [= <-]. exists (said l1), (said l2). rewrite <- said_app. split_and!.
  - by apply said_others.
  - unfold others. change (content original) with (said (env_lines original)). by rewrite others_said, Ho.
  - destruct (_ =? 0)%nat eqn:E0.
    + destruct Hm as [Hm ->]. rewrite app_nil_r in *.
      assert (Hmap : map (fun l => if assigns imageVariable l then assignment else l) (env_lines original) = env_lines original).
      { rewrite Hm. clear -Hf. induction Hf as [|l ls Hl _ IH]; [done|]. cbn [map]. rewrite Hl. by f_equal. }
      rewrite Hmap, Hlines.
      * rewrite said_app, Hsaid. f_equal. rewrite Hm. by case_bool_decide as Hb; [rewrite Hb|].
      * apply Forall_app. split; [|by repeat constructor]. case_bool_decide; [constructor|done].
    + rewrite Hlines.
      * rewrite Hm. change (l1 ++ assignment :: l2)%list with (l1 ++ [assignment] ++ l2)%list. by rewrite !said_app, Hsaid.
      * apply Forall_map. eapply Forall_impl; [exact Hno|]. intros l Hl. cbn. by destruct (assigns _ _).
Qed.

(** What is read back, and what survives. *)
Lemma pin_read_back original value pin new :
  canonical_pin value = Some pin -> updateVersionEnv original imageVariable value = Ok new ->
  parseVersionEnvPin new imageVariable = Ok pin /\ others imageVariable new = others imageVariable original.
Proof.
  intros Hv Hn. destruct (update_lines _ _ _ _ Hv Hn) as (l1 & l2 & Hf & Ho & Hc).
  destruct (pin_printable _ _ Hv) as [_ Hne]. apply Forall_app in Hf as [Hf1 Hf2].
  assert (Hp : is_pin imageVariable (imageVariable +:+ "=" +:+ value) = true).
  { apply HasPrefix_spec. exists value. by rewrite str_app_assoc. }
  split.
  - unfold parseVersionEnvPin. rewrite find_pin_content, Hc, find_in_app by done. cbn [find_in]. rewrite Hp.
    rewrite (bool_decide_true ("" = "")) by done. cbn [negb].
    rewrite <- str_app_assoc, TrimPrefix_app, find_in_none by done. cbn. by rewrite Hv.
  - unfold others at 1. rewrite Hc, filter_app, filter_cons, Hp, decide_False by done.
    rewrite !filter_all by done. by rewrite Ho.
Qed.

Lemma update_succeeds original value pin :
  canonical_pin value = Some pin ->
  length (filter (fun l => assigns imageVariable l = true) (env_lines original)) <= 1 <->
  exists new, updateVersionEnv original imageVariable value = Ok new.
Proof.
  intros Hv. unfold updateVersionEnv. rewrite Hv, (bool_decide_true (imageVariable = imageVariable)), bool_decide_false by done.
  cbn [negb orb]. destruct (1 <? _)%nat eqn:En; [apply Nat.ltb_lt in En|apply Nat.ltb_ge in En]; split;
    [lia|intros [? [=]]|intros _; eauto|done].
Qed.

(** [bundle + "@" + digest]. *)
Definition pin_value (version digest : string) : string := version +:+ "@" +:+ digest.

Lemma canonical_pin_value version digest pin : canonical_pin (pin_value version digest) = Some pin -> pin = (version, digest).
Proof.
  unfold canonical_pin, pin_value. change ("@" +:+ digest) with (String "@" digest). rewrite Split_app.
  pose proof (Split_nonempty version "@"). pose proof (Split_nonempty digest "@").
  destruct (Split version "@") as [|v [|? l]] eqn:Ev, (Split digest "@") as [|d [|? ?]] eqn:Ed; try done;
    try (by destruct l).
  cbn. apply Split_one in Ev, Ed. subst. case_match; congruence.
Qed.

Lemma pin_value_canonical version digest :
  re_match versionPattern version = true -> re_match digestPattern digest = true ->
  canonical_pin (pin_value version digest) = Some (version, digest).
Proof.
  intros Hv Hd. unfold canonical_pin, pin_value. change ("@" +:+ digest) with (String "@" digest). rewrite Split_app.
  assert (no_byte "@" version = true) by (unfold no_byte; pattern_within).
  assert (no_byte "@" digest = true) by (unfold no_byte; pattern_within).
  rewrite !Split_single by done. cbn. by rewrite Hv, Hd.
Qed.

(** A successful update pins what it was given. *)
Lemma update_pins original name version digest new :
  updateVersionEnv original name (pin_value version digest) = Ok new ->
  name = imageVariable /\ canonical_pin (pin_value version digest) = Some (version, digest) /\
  parseVersionEnvPin new name = Ok (version, digest).
Proof.
  intros Hu. pose proof Hu as Hg. unfold updateVersionEnv in Hg.
  destruct ((name !=? imageVariable) || _) eqn:Eg; [done|]. bool_to_prop. subst name.
  destruct (canonical_pin (pin_value version digest)) as [pin|] eqn:Ep; [|done].
  apply canonical_pin_value in Ep as Epin. subst pin. split_and!; [done..|]. by eapply pin_read_back.
Qed.

(** C37: a pin that is written into the environment file of a Docker target is the pin
    that is read back, whatever else the operator keeps in the file, and every other line
    survives, up to blanks around it and empty lines.  Writing fails only when the file
    assigns the pin twice. *)
Theorem version_pin_round_trip original value pin :
  canonical_pin value = Some pin ->
  (length (filter (fun l => assigns imageVariable l = true) (env_lines original)) <= 1 <->
   exists new, updateVersionEnv original imageVariable value = Ok new) /\
  forall new, updateVersionEnv original imageVariable value = Ok new ->
    parseVersionEnvPin new imageVariable = Ok pin /\ others imageVariable new = others imageVariable original.
Proof. intros Hv. split; [by eapply update_succeeds|]. intros new. by apply pin_read_back. Qed.

(** A file with a comment, a value and the pin of the previous release, with both kinds of
    line ends. *)
Definition demo_env : string :=
  "# managed by the operator" +:+ String cr (String nl "TZ=UTC") +:+ String nl
  ("AUTOSTREAM_DOCKER_VERSION=v1.0.0@sha256:0123456789abcdef0123456789abcdef0123456789abcdef0123456789abcdef" +:+ String nl "").

Definition demo_pin : string := "v1.1.0@sha256:fedcba9876543210fedcba9876543210fedcba9876543210fedcba9876543210".

Lemma version_pin_round_trip_witness : exists new,
  updateVersionEnv demo_env imageVariable demo_pin = Ok new /\
  parseVersionEnvPin new imageVariable =
    Ok ("v1.1.0", "sha256:fedcba9876543210fedcba9876543210fedcba9876543210fedcba9876543210") /\
  others imageVariable new = ["# managed by the operator"; "TZ=UTC"].
Proof.
  destruct (version_pin_round_trip demo_env demo_pin
    ("v1.1.0", "sha256:fedcba9876543210fedcba9876543210fedcba9876543210fedcba9876543210") eq_refl) as [Hex Hrt].
  destruct (proj1 Hex) as [new Hnew]; [apply Nat.leb_le; vm_compute; reflexivity|]. exists new.
  destruct (Hrt new Hnew) as [Hparse Hother]. split; [exact Hnew|]. split; [exact Hparse|]. rewrite Hother.
  vm_compute. reflexivity.
Defined.
