(* ===== verification/MutationLedger.v ===== *)
(** The durable replay fence of a target ([executor_mutation_ledger.go]), the
    checks an operation passes against it ([executor_mutation_result.go],
    [executor_mutation.go], [executor_stage_request.go]) and the outcomes it is
    answered with. *)
From Stdlib Require Import Ascii String ZArith Lia.
From stdpp Require Import base decidable list strings.
From S2P Require Import Prelude Strings Regexp Patterns Sha256 Json Paths PlanDigest.

Open Scope string_scope.

Definition remoteLedgerSchemaVersion : Z := 1.
Definition remoteLedgerStaged : string := "staged".
Definition remoteLedgerGrantConsuming : string := "grant_consuming".
Definition remoteLedgerGrantConsumed : string := "consumed_before_mutation".
Definition remoteLedgerMutating : string := "mutating".
Definition remoteLedgerAmbiguous : string := "ambiguous".
Definition remoteLedgerTerminal : string := "terminal".
Definition remoteLegacyStageGenerationScanLimit : Z := 256.

(** [dockerMutationBaseline]. *)
Module Baseline.
Record t := mk {
  VersionEnvSHA256 : string;
  VersionEnvMode : Z;
  VersionEnvExisted : bool;
  BundleVersion : string;
  ManifestDigest : string;
  SourceVersion : string;
  ContainerID : string;
  ImageID : string;
  RepositoryDigest : string;
}.

#[global] Instance eq_dec : EqDecision t.
Proof. solve_decision. Defined.

Definition separators : list ascii := [" "; "009"; "013"; "010"; "000"]%char.

Definition validate (b : t) : check :=
  if negb (re_match digestPattern (VersionEnvSHA256 b)) || (511 <? VersionEnvMode b)%Z ||
     negb (re_match versionPattern (BundleVersion b)) || negb (re_match digestPattern (ManifestDigest b)) ||
     negb (re_match versionPattern (SourceVersion b)) || (ContainerID b ==? "") ||
     (128 <? len (ContainerID b))%Z || existsb (ContainsByte (ContainerID b)) separators ||
     negb (re_match digestPattern (ImageID b)) || negb (re_match digestPattern (RepositoryDigest b))
  then Err "Docker rollback baseline is invalid" else Ok tt.

Definition matches (b actual : t) : bool := b ==? actual.
End Baseline.

(** [remoteStage]. *)
Module Stage.
Record t := mk {
  RootDir : string;
  ArtifactDigest : string;
  ExpectedVersion : string;
  ExpectedImageDigest : string;
  ExpectedPlatformDigest : string;
  ImageID : string;
  NewRelease : string;
  PreviousRelease : string;
  PreviousDigest : string;
  PreviousVersion : string;
  DockerBaseline : option Baseline.t;
}.

#[global] Instance eq_dec : EqDecision t.
Proof. solve_decision. Defined.
End Stage.

(** [remoteMutationIntent]: what the plan wants, without its lease. *)
Module Intent.
Record t := mk {
  HostID : string;
  TargetID : string;
  ServiceType : string;
  DeploymentMode : string;
  CurrentVersion : string;
  ConfigSHA256 : string;
  TargetVersion : string;
  ArtifactDigest : string;
  ExpectedVersion : string;
  ExpectedImageDigest : string;
  ExpectedPlatformDigest : string;
}.

#[global] Instance eq_dec : EqDecision t.
Proof. solve_decision. Defined.
End Intent.

(** [executorMutationLedger]. *)
Module Ledger.
Record t := mk {
  SchemaVersion : Z;
  JobID : string;
  TargetID : string;
  PlanSHA256 : string;
  SessionID : string;
  LeaseGeneration : Z;
  Intent : Intent.t;
  Operation : string;
  State : string;
  UpdatedAt : GoTime.t;
  Stage : option Stage.t;
  Result : option ApplyResult.t;
}.

#[global] Instance eq_dec : EqDecision t.
Proof. solve_decision. Defined.

#[global] Instance eta_t : Eta t := fun l =>
  mk (SchemaVersion l) (JobID l) (TargetID l) (PlanSHA256 l) (SessionID l) (LeaseGeneration l) (Intent l)
     (Operation l) (State l) (UpdatedAt l) (Stage l) (Result l).
End Ledger.

(** The part of [HelperConfig] the mutation path reads. *)
Module Config.
Record t := mk { StateDir : string; PanelURL : string }.
End Config.

Section Ledgers.
Context `{UnicodeTables} `{TimeZones}.

Definition newRemoteMutationIntent (plan : MutationPlan.t) : Intent.t :=
  Intent.mk (MutationPlan.HostID plan) (MutationPlan.TargetID plan) (MutationPlan.ServiceType plan)
    (MutationPlan.DeploymentMode plan) (MutationPlan.CurrentVersion plan) (MutationPlan.ConfigSHA256 plan)
    (MutationPlan.TargetVersion plan) (normalizeDigest (MutationPlan.ArtifactDigest plan))
    (MutationPlan.ExpectedVersion plan) (normalizeDigest (MutationPlan.ExpectedImageDigest plan))
    (normalizeDigest (MutationPlan.ExpectedPlatformDigest plan)).

Definition intent_matches (i : Intent.t) (plan : MutationPlan.t) : bool := i ==? newRemoteMutationIntent plan.

(** ** [executorMutationLedger.validate] *)

Definition ledger_identity_invalid (l : Ledger.t) (targetID : string) : bool :=
  (Ledger.SchemaVersion l !=? remoteLedgerSchemaVersion) || (Ledger.TargetID l !=? targetID) ||
  negb (re_match identifierPattern (Ledger.JobID l)) || negb (re_match identifierPattern (Ledger.TargetID l)) ||
  negb (re_match mutationPlanHashPattern (Ledger.PlanSHA256 l)) ||
  negb (re_match mutationSessionPattern (Ledger.SessionID l)) || (Ledger.LeaseGeneration l =? 0)%Z ||
  (Intent.TargetID (Ledger.Intent l) !=? Ledger.TargetID l) ||
  negb (re_match versionPattern (Intent.CurrentVersion (Ledger.Intent l))) ||
  negb (re_match digestPattern (Intent.ConfigSHA256 (Ledger.Intent l))) ||
  (normalizeDigest (Intent.ConfigSHA256 (Ledger.Intent l)) !=? Intent.ConfigSHA256 (Ledger.Intent l)) ||
  negb (re_match digestPattern (Intent.ArtifactDigest (Ledger.Intent l))).

Definition result_final (r : ApplyResult.t) : bool :=
  (ApplyResult.Status r ==? "succeeded") || (ApplyResult.Status r ==? "rolled_back").

Definition validate_ledger_state (l : Ledger.t) : check :=
  let state := Ledger.State l in
  if state ==? remoteLedgerStaged then
    match Ledger.Stage l, Ledger.Result l with
    | Some _, None => if Ledger.Operation l !=? "stage" then Err "staged remote mutation ledger is invalid" else Ok tt
    | _, _ => Err "staged remote mutation ledger is invalid"
    end
  else if (state ==? remoteLedgerGrantConsuming) || (state ==? remoteLedgerGrantConsumed) ||
     (state ==? remoteLedgerMutating) || (state ==? remoteLedgerAmbiguous) then
    match Ledger.Result l with
    | Some _ => Err "non-terminal remote mutation ledger contains a result"
    | None => Ok tt
    end
  else if state ==? remoteLedgerTerminal then
    match Ledger.Result l with
    | Some r => if result_final r then Ok tt else Err "terminal remote mutation ledger result is invalid"
    | None => Err "terminal remote mutation ledger result is invalid"
    end
  else Err "remote mutation ledger state is invalid".

Definition validate_ledger_stage (l : Ledger.t) : check :=
  match Ledger.Stage l with
  | None =>
      if Ledger.State l !=? remoteLedgerStaged then Err "remote mutation ledger is missing its staged release"
      else Ok tt
  | Some stage =>
      if negb (IsAbs (Stage.RootDir stage)) ||
         negb (re_match digestPattern (normalizeDigest (Stage.ArtifactDigest stage)))
      then Err "remote mutation ledger stage binding is invalid"
      else match Stage.DockerBaseline stage with
           | Some b =>
               if is_err (Baseline.validate b) then Err "remote mutation ledger Docker baseline is invalid"
               else if Intent.DeploymentMode (Ledger.Intent l) ==? ModeSystemd
               then Err "remote systemd mutation ledger contains a Docker baseline" else Ok tt
           | None =>
               if Intent.DeploymentMode (Ledger.Intent l) ==? ModeDocker
               then Err "remote Docker mutation ledger is missing its rollback baseline" else Ok tt
           end
  end.

Definition validate_ledger (l : Ledger.t) (targetID : string) : check :=
  if ledger_identity_invalid l targetID then Err "remote mutation ledger identity is invalid"
  else if negb (existsb (String.eqb (Ledger.Operation l)) ["stage"; "apply"; "reconcile"])
  then Err "remote mutation ledger operation is invalid"
  else
    let! _ := validate_ledger_state l in
    validate_ledger_stage l.

(** The record that [saveExecutorMutationLedger] writes, or why it refuses to. *)
Definition prepare_ledger (l : Ledger.t) (now : GoTime.t) : result string Ledger.t :=
  let l := l <| Ledger.SchemaVersion := remoteLedgerSchemaVersion |> in
  let l := l <| Ledger.UpdatedAt := GoTime.UTC now |> in
  let! _ := validate_ledger l (Ledger.TargetID l) in
  Ok l.

(** ** Requests against the ledger *)

Definition remoteLedgerRequestFailure (ledger : Ledger.t) (plan : MutationPlan.t) (operation : string) : string :=
  if Ledger.JobID ledger !=? MutationPlan.JobID plan then
    if Ledger.State ledger !=? remoteLedgerTerminal then "reconcile_required" else "stage_required"
  else if negb (intent_matches (Ledger.Intent ledger) plan) then "plan_conflict"
  else if operation ==? "apply" then
    if (Ledger.PlanSHA256 ledger !=? MutationPlan.PlanSHA256 plan) ||
       (Ledger.SessionID ledger !=? MutationPlan.SessionID plan) ||
       (Ledger.LeaseGeneration ledger !=? MutationPlan.LeaseGeneration plan)
    then "plan_conflict" else ""
  else if operation ==? "reconcile" then
    if (MutationPlan.LeaseGeneration plan <? Ledger.LeaseGeneration ledger)%Z then "plan_conflict" else ""
  else "invalid_request".

Definition sanitizeRemoteApplyResult (r : ApplyResult.t) : ApplyResult.t :=
  ApplyResult.mk (ApplyResult.Status r) (normalizeDigest (ApplyResult.ArtifactDigest r))
    (normalizeDigest (ApplyResult.PreviousDigest r)) (ApplyResult.RolledBack r)
    (if ApplyResult.Status r ==? "succeeded" then "target update completed and was verified"
     else if ApplyResult.Status r ==? "rolled_back" then "previous target state was restored and verified"
     else "").

Definition bindRemoteApplyResult (plan : MutationPlan.t) (r : ApplyResult.t) : ApplyResult.t * bool :=
  let expected := normalizeDigest (MutationPlan.ResultArtifactDigest plan) in
  if (expected ==? "") ||
     ((ApplyResult.ArtifactDigest r !=? "") && (normalizeDigest (ApplyResult.ArtifactDigest r) !=? expected))
  then (ApplyResult.mk "" "" "" false "", false)
  else (sanitizeRemoteApplyResult (r <| ApplyResult.ArtifactDigest := expected |>), true).

(** ** Failures *)

Definition failure_messages : list (string * string) :=
  [("invalid_request", "remote request was rejected");
   ("target_mismatch", "request does not match this host target");
   ("config_mismatch", "request does not match the current helper policy");
   ("target_unavailable", "configured target is unavailable");
   ("target_busy", "another target operation is active");
   ("state_unavailable", "durable host state is unavailable");
   ("state_invalid", "durable host state requires operator review");
   ("stage_failed", "release staging failed");
   ("stage_required", "no durable mutation ledger or apply-authorized state exists for the immutable release plan");
   ("stage_invalid", "the staged release no longer matches the plan");
   ("plan_conflict", "job identity was reused with a different plan");
   ("reconcile_required", "host state is ambiguous and requires reconcile");
   ("already_terminal", "the update plan is already terminal");
   ("mutation_precondition_failed", "target precondition validation failed");
   ("launcher_unavailable", "detached host execution is unavailable");
   ("operation_continues", "host operation continues and must be recovered by status or reconcile")].

Definition failed_with (code message : string) : Outcome.t :=
  Outcome.mk None None "" "" (Some (Outcome.mk_failure code message)).

Definition executorFailure (code : string) : Outcome.t :=
  match find (fun e => String.eqb e.1 code) failure_messages with
  | Some (_, message) => failed_with code message
  | None => failed_with "internal_error" "local executor could not complete the request"
  end.

Definition executorFailureWithMessage (code message : string) : Outcome.t :=
  let response := executorFailure code in
  match Outcome.Error response with
  | Some e => if safeExecutorMessage message then failed_with (Outcome.Code e) message else response
  | None => response
  end.

Definition stage_failure_messages : list (string * string) :=
  [("systemd release digest mismatch", "release artifact digest mismatch");
   ("staged systemd artifact path is invalid", "staged release path validation failed");
   ("staged systemd artifact checksum verification failed", "staged release checksum verification failed");
   ("staged systemd artifact is incomplete", "staged release is incomplete");
   ("staged systemd binary smoke execution failed", "candidate binary smoke execution failed");
   ("staged systemd binary version output mismatch", "candidate binary version output mismatch");
   ("staged systemd binary smoke check failed", "candidate binary smoke check failed");
   ("managed systemd release bootstrap is required", "managed current release is unavailable");
   ("managed target current version does not match the immutable plan", "current version does not match the update plan");
   ("backup configured systemd target", "configured target backup failed");
   ("previous systemd release is not rollback-safe", "current release rollback check failed");
   ("previous systemd release is incomplete", "current release is incomplete");
   ("previous systemd release is not healthy", "current service health or process verification failed");
   ("systemd release path is invalid", "new release path validation failed")].

Definition remoteStageFailureMessage (err : string) : string :=
  match find (fun e => Contains err e.1) stage_failure_messages with
  | Some (_, message) => message
  | None => "release staging failed"
  end.

Definition requirePlannedCurrentVersion (planned actual : string) : check :=
  let planned := TrimSpace planned in
  if planned ==? "" then Ok tt
  else if negb (re_match versionPattern planned) || negb (re_match versionPattern (TrimSpace actual)) ||
     (TrimSpace actual !=? planned)
  then Err "managed target current version does not match the immutable plan"
  else Ok tt.

Definition versionsEqual (a b : string) : bool :=
  TrimPrefix (TrimSpace a) "v" ==? TrimPrefix (TrimSpace b) "v".

(** ** Stages *)

Definition stages_dir (cfg : Config.t) : string := Join [Config.StateDir cfg; "stages"].

Definition remoteStableKey (values : list string) : string :=
  sha256_hex (foldr (fun v acc => v +:+ String "000"%char acc) "" values).

Definition remoteLedgerPath (cfg : Config.t) (targetID : string) : string :=
  Join [Config.StateDir cfg; "ledger"; "target-" +:+ remoteStableKey [targetID] +:+ ".json"].

(** The stage directory does not depend on the lease generation. *)
Definition remoteStageRoot (cfg : Config.t) (plan : MutationPlan.t) : result string string :=
  let! digest := MutationPlanSHA256 ((MutationPlan.apply_plan plan) <| ApplyPlan.LeaseGeneration := 1%Z |>) in
  Ok (Join [Config.StateDir cfg; "stages"; remoteStableKey [MutationPlan.JobID plan; digest]]).

(** The generations that [remoteOrphanStageRoots] visits, newest first: the
    loop stops at the oldest before its counter could wrap below zero. *)
Definition oldest_generation (generation : Z) : Z :=
  if (remoteLegacyStageGenerationScanLimit <? generation)%Z
  then generation - remoteLegacyStageGenerationScanLimit + 1 else 1.

Fixpoint orphan_roots_from (fuel : nat) (cfg : Config.t) (plan : MutationPlan.t) (generation oldest : Z)
    (roots : list string) : result string (list string) :=
  match fuel with
  | O => Ok roots
  | S fuel' =>
      if (generation <? oldest)%Z then Ok roots
      else match MutationPlanSHA256
                  ((MutationPlan.apply_plan plan) <| ApplyPlan.LeaseGeneration := generation |>) with
           | Err _ => Err "derive legacy remote stage path"
           | Ok digest =>
               let root := Join [Config.StateDir cfg; "stages"; remoteStableKey [MutationPlan.JobID plan; digest]] in
               let roots := if existsb (String.eqb root) roots then roots else (roots ++ [root])%list in
               if (generation =? oldest)%Z then Ok roots
               else orphan_roots_from fuel' cfg plan (generation - 1) oldest roots
           end
  end.

(** At most 256 generations are visited. *)
Definition remoteOrphanStageRoots (cfg : Config.t) (plan : MutationPlan.t) : result string (list string) :=
  match remoteStageRoot cfg plan with
  | Err _ => Err "derive stable remote stage path"
  | Ok stable =>
      let generation := MutationPlan.LeaseGeneration plan in
      orphan_roots_from (Z.to_nat remoteLegacyStageGenerationScanLimit) cfg plan generation
        (oldest_generation generation) [stable]
  end.

Definition remoteStageResult (plan : MutationPlan.t) (stage : Stage.t) : StageResult.t :=
  StageResult.mk "staged" (MutationPlan.SessionID plan) (MutationPlan.PlanSHA256 plan)
    (TrimPrefix (normalizeDigest (Stage.ArtifactDigest stage)) "sha256:").

(** [validateExecutorStage], in two parts around the [Lstat] of the stage
    directory. *)
Definition stage_binding_invalid (cfg : Config.t) (plan : MutationPlan.t) (stage : Stage.t) : bool :=
  negb (IsAbs (Stage.RootDir stage)) || negb (pathWithin (stages_dir cfg) (Stage.RootDir stage)) ||
  (normalizeDigest (Stage.ArtifactDigest stage) !=? normalizeDigest (MutationPlan.ArtifactDigest plan)).

Definition stage_release_invalid (mode : string) (plan : MutationPlan.t) (stage : Stage.t) : bool :=
  if mode ==? ModeDocker then
    (Stage.ExpectedVersion stage !=? MutationPlan.ExpectedVersion plan) ||
    (normalizeDigest (Stage.ExpectedImageDigest stage) !=? normalizeDigest (MutationPlan.ExpectedImageDigest plan)) ||
    (normalizeDigest (Stage.ExpectedPlatformDigest stage) !=?
       normalizeDigest (MutationPlan.ExpectedPlatformDigest plan)) ||
    negb (re_match digestPattern (Stage.ImageID stage)) ||
    match Stage.DockerBaseline stage with
    | None => true
    | Some b =>
        is_err (Baseline.validate b) ||
        is_err (requirePlannedCurrentVersion (MutationPlan.CurrentVersion plan) (Baseline.BundleVersion b))
    end
  else if mode ==? ModeSystemd then
    (Stage.ExpectedVersion stage !=? MutationPlan.ExpectedVersion plan) ||
    negb (IsAbs (Stage.NewRelease stage)) || negb (IsAbs (Stage.PreviousRelease stage)) ||
    negb (re_match digestPattern (normalizeDigest (Stage.PreviousDigest stage))) ||
    negb (re_match versionPattern (Stage.PreviousVersion stage)) ||
    is_err (requirePlannedCurrentVersion (MutationPlan.CurrentVersion plan) (Stage.PreviousVersion stage))
  else false.

End Ledgers.
