(* ===== verification/MutationExec.v ===== *)
(** The root-side mutation executor as programs: the request dispatcher with its
    one-shot grant gate ([executor_mutation_dispatch.go]), staging requests
    ([executor_stage_request.go]), the durable cutover checkpoint
    ([checkpoint.go]) and the systemd target: apply, rollback and reconcile
    ([executor_systemd_staging.go], [systemd_release_state.go],
    [release_reconciliation.go]).

    The variables that the gate closure captures ([gateCalled] and [working]) are
    cells of the process memory, part of the world: the target code that receives
    the closure changes them by calling it. *)
From Stdlib Require Import Ascii String ZArith Lia.
From stdpp Require Import base decidable list strings gmap.
From S2P Require Import Prelude Strings Regexp Patterns Effects Sha256 Json Paths PlanDigest MutationLedger DockerPin.

Open Scope string_scope.

(** The fields of [Target], [SystemdTarget] and [DockerTarget] that the control flow
    reads; the others are arguments of external commands.  A validated target has the
    part of its deployment mode. *)
Module DockerTarget.
Record t := mk { Service : string; ImageRepo : string; ImageVariable : string; CurrentVersion : string }.
End DockerTarget.

Module Target.
Record t := mk { TargetID : string; DeploymentMode : string; ReleaseRoot : string; Docker : DockerTarget.t }.
End Target.

(** [updateCheckpoint]. *)
Module Checkpoint.
Record t := mk {
  SchemaVersion : Z;
  JobID : string;
  TargetID : string;
  DeploymentMode : string;
  Phase : string;
  TargetVersion : string;
  TargetDigest : string;
  TargetPlatform : string;
  TargetSourceVersion : string;
  NewRelease : string;
  PreviousRelease : string;
  PreviousDigest : string;
  PreviousVersion : string;
  PreviousImageID : string;
  PreviousRepoDigest : string;
  PreviousBundleVersion : string;
  PreviousManifestDigest : string;
  VersionEnvExisted : bool;
  VersionEnvMode : Z;
  PreviousVersionEnv : string;
}.

#[global] Instance eq_dec : EqDecision t.
Proof. solve_decision. Defined.

#[global] Instance eta_t : Eta t := fun c =>
  mk (SchemaVersion c) (JobID c) (TargetID c) (DeploymentMode c) (Phase c) (TargetVersion c) (TargetDigest c)
     (TargetPlatform c) (TargetSourceVersion c) (NewRelease c) (PreviousRelease c) (PreviousDigest c)
     (PreviousVersion c) (PreviousImageID c) (PreviousRepoDigest c) (PreviousBundleVersion c)
     (PreviousManifestDigest c) (VersionEnvExisted c) (VersionEnvMode c) (PreviousVersionEnv c).

Definition checkpointSchemaVersion : Z := 1.

(** What [loadCheckpoint] demands of the decoded record. *)
Definition invalid (target : Target.t) (c : t) : bool :=
  (SchemaVersion c !=? checkpointSchemaVersion) || negb (re_match identifierPattern (JobID c)) ||
  (TargetID c !=? Target.TargetID target) || (DeploymentMode c !=? Target.DeploymentMode target) ||
  negb (re_match versionPattern (TargetVersion c)).

Definition terminal (c : t) : bool := (Phase c ==? "succeeded") || (Phase c ==? "rolled_back").
End Checkpoint.

(** [MutationGrantBinding]. *)
Module GrantBinding.
Record t := mk {
  LeaseGeneration : Z;
  HostID : string;
  TargetID : string;
  TransportMode : string;
  ServiceType : string;
  TargetVersion : string;
  DeploymentMode : string;
  Operation : string;
  PlanSHA256 : string;
  SessionID : string;
  OwnershipEpoch : Z;
  PolicyRevision : Z;
}.
End GrantBinding.

(** The part of [executorMutationRuntime] that grant consumption reads. *)
Module Runtime.
Record t := mk {
  transportMode : string;
  ownershipEpoch : Z;
  policyRevision : Z;
  has_v2_binding : bool;
  has_v2_consumer : bool;
  has_consumer : bool;
  has_clock : bool;
}.
End Runtime.

(** * The world *)

(** What the executor did to the world outside its own state directory, each
    event with the ledger that was durable at that moment. *)
Inductive event : Type :=
| EGrant (operation jobID planSHA256 sessionID : string)
| EMutation (what : string)
| EStageRemoved (root : string).

(** The captured variables of the gate closure. *)
Record vars := mk_vars { gateCalled : bool; working : Ledger.t }.
#[global] Instance eta_vars : Eta vars := fun v => mk_vars (gateCalled v) (working v).

(** What a Docker target consists of, besides the checkpoint. *)
Module DockerHost.
Record t := mk {
  version_env : option (Z * string);            (* mode and content of version_env_file *)
  containers : list (string * string);          (* running containers of the service: id and image *)
  images : gmap string (list string * string);  (* image to its RepoDigests and the version it reports *)
  models : gmap string string;                  (* frozen compose model to the image of the service *)
}.
#[global] Instance eta_t : Eta t := fun h => mk (version_env h) (containers h) (images h) (models h).

Definition none : t := mk None [] ∅ ∅.

(** The image that an image id or a repository digest names. *)
Definition image_of (h : t) (ref : string) : option string :=
  if bool_decide (is_Some (images h !! ref)) then Some ref
  else fst <$> find (fun kv : string * (list string * string) => bool_decide (ref ∈ kv.2.1)) (map_to_list (images h)).

Definition container_image (h : t) (id : string) : option string :=
  snd <$> find (fun c => bool_decide (c.1 = id)) (containers h).

(** A command prints a line. *)
Definition line (s : string) : string := s +:+ String nl "".
End DockerHost.

Record world := mk_world {
  ledger : option Ledger.t;
  checkpoint : option Checkpoint.t;
  current : option string;                      (* the resolved current_link *)
  releases : gmap string (string * string);     (* release directory to digest and version markers *)
  running : option string;                      (* release the service's main process executes *)
  clock : Z;
  memory : vars;
  events : list (event * option Ledger.t);
  dhost : DockerHost.t;
}.
#[global] Instance eta_world : Eta world := fun w =>
  mk_world (ledger w) (checkpoint w) (current w) (releases w) (running w) (clock w) (memory w) (events w) (dhost w).

Inductive op : Type -> Type :=
| LoadLedger (targetID : string) : op (result string (option Ledger.t))
| SaveLedger (l : Ledger.t) : op check
| Now : op Z
| GetVars : op vars
| PutVars (v : vars) : op unit
| PresentGrant (panelURL operation : string) (plan : MutationPlan.t) (binding : option GrantBinding.t) : op check
| LstatStage (dir : string) : op check
| PrepareStage (plan : MutationPlan.t) : op (result string Stage.t)
| RemoveStage (root : string) : op check
| LoadCheckpoint (target : Target.t) : op (result string (option Checkpoint.t))
| SaveCheckpoint (c : Checkpoint.t) : op check
| ClearCheckpoint : op check
| ReadCurrentLink : op (result string (option string))
| ReadMarkers (dir : string) : op (option (string * string))
| VerifyManagedChecksums (dir : string) : op check
| VerifyProcess (dir : string) : op check
| VerifyTarget (version : string) : op check
| HealthyVersion : op (result string string)
| VerifyStagedArtifact (stage : Stage.t) : op check
| InstallReleaseTree (source dest digest version : string) : op check
| RequiredPathsPresent (dir : string) : op check
| SystemctlStop : op check
| SystemctlStart : op check
| SwitchSymlink (dest jobID : string) : op check
| ReadVersionEnv : op (result string (string * Z * bool))
| WriteVersionEnv (data : string) (mode : Z) : op check
| RemoveVersionEnv : op check
| ListContainers : op (result string string)
| InspectContainer (id : string) : op (result string string)
| InspectImage (ref : string) : op (result string string)
| InspectRepoDigests (ref : string) : op (result string (option (list string)))
| WriteOverride (path service image : string) : op check
| ValidateFrozenCompose (path image : string) : op check
| PreflightPorts (path containerID : string) : op check
| FreezeListener (path : string) : op (result string string)
| ValidateFrozen (path : string) : op check
| VerifyComposeModel : op check
| VerifyComposeConfig (image path : string) : op check
| ComposeUp (path : string) : op check.

(** [Done]: as intended.  [Failed]: an error and no effect.  [Lost]: an error
    although the effect took place.  [Says]: the environment's own reply.
    [Elapsed]: the time that has passed.  [Gives]: a prepared stage.  [Halfway]: an
    error after the old container is gone and before the new one runs. *)
Inductive answer : Type :=
| Done | Failed | Lost | Says (s : string) | Elapsed (d : Z) | Gives (s : Stage.t) | Halfway.

Section Handler.
Context `{UnicodeTables}.

Definition failed {A} : result string A := Err "operation failed".

(** An operation with an effect that can fail before or after it. *)
Definition effectful (ans : answer) (w w' : world) : option (check * world) :=
  match ans with
  | Done => Some (Ok tt, w')
  | Failed => Some (failed, w)
  | Lost => Some (failed, w')
  | _ => None
  end.

(** An observation that the environment can only make fail. *)
Definition observed {A} (ans : answer) (r : result string A) (w : world) : option (result string A * world) :=
  match ans with
  | Done => Some (r, w)
  | Failed => Some (failed, w)
  | _ => None
  end.

Definition log (e : event) (w : world) : world := w <| events := (events w ++ [(e, ledger w)])%list |>.

Definition running_version (w : world) : option string :=
  match running w with
  | Some dir => snd <$> (releases w !! dir)
  | None =>
      match DockerHost.containers (dhost w) with
      | [(_, image)] => snd <$> (DockerHost.images (dhost w) !! image)
      | _ => None
      end
  end.

(** [readVersionEnv]: content, mode, and whether the file exists. *)
Definition readVersionEnv (h : DockerHost.t) : result string (string * Z * bool) :=
  match DockerHost.version_env h with
  | None => Ok ("", 384%Z, false)
  | Some (mode, data) =>
      if (65536 <? len data)%Z then Err "version_env_file must be a small regular file" else Ok (data, mode, true)
  end.

Definition set_env (w : world) (env : option (Z * string)) : world :=
  w <| dhost := (dhost w) <| DockerHost.version_env := env |> |>.

Definition set_containers (w : world) (cs : list (string * string)) : world :=
  w <| dhost := (dhost w) <| DockerHost.containers := cs |> |>.

Definition freeze_model (w : world) (path image : string) : world :=
  w <| dhost := (dhost w) <| DockerHost.models := <[path := image]> (DockerHost.models (dhost w)) |> |>.

(** [docker compose up -d --pull never]: a container of the image that the frozen model
    names, unless the one container already is of that image.  Docker chooses the id of a
    new container. *)
Definition compose_up (w : world) (id image : string) : world :=
  match DockerHost.containers (dhost w) with
  | [(_, running)] => if running ==? image then w else set_containers w [(id, image)]
  | _ => set_containers w [(id, image)]
  end.

Definition new_container : string := "0123456789ab".

Definition install (w : world) (dest digest version : string) : world :=
  w <| releases := <[dest := (digest, version)]> (releases w) |>.

Definition write_ledger (ans : answer) (w : world) (l : Ledger.t) : option (check * world) :=
  match prepare_ledger l (GoTime.mk (clock w) true) with
  | Err e => Some (Err e, w)
  | Ok l' => effectful ans w (w <| ledger := Some l' |>)
  end.

Definition load_ledger (w : world) (targetID : string) : result string (option Ledger.t) :=
  match ledger w with
  | None => Ok None
  | Some l => let! _ := validate_ledger l targetID in Ok (Some l)
  end.

Definition load_checkpoint (w : world) (target : Target.t) : result string (option Checkpoint.t) :=
  match checkpoint w with
  | None => Ok None
  | Some c => if Checkpoint.invalid target c then Err "update checkpoint is invalid" else Ok (Some c)
  end.

Definition from_bool (b : bool) : check := if b then Ok tt else failed.

Definition op_handler : forall {X}, op X -> answer -> world -> option (X * world) :=
  fun X o ans w =>
  match o in op X return option (X * world) with
  | LoadLedger targetID => observed ans (load_ledger w targetID) w
  | SaveLedger l => write_ledger ans w l
  | Now =>
      match ans with
      | Done => Some (clock w, w)
      | Elapsed d => let t := (clock w + Z.max 0 d)%Z in Some (t, w <| clock := t |>)
      | _ => None
      end
  | GetVars => Some (memory w, w)
  | PutVars v => Some (tt, w <| memory := v |>)
  | PresentGrant _ operation plan _ =>
      let w' := log (EGrant operation (MutationPlan.JobID plan) (MutationPlan.PlanSHA256 plan)
                       (MutationPlan.SessionID plan)) w in
      match ans with
      | Done => Some (Ok tt, w')
      | Failed | Lost => Some (Err "mutation grant rejected", w')
      | _ => None
      end
  | LstatStage _ => observed ans (Ok tt) w
  | PrepareStage _ =>
      match ans with
      | Gives s => Some (Ok s, w)
      | Says e => Some (Err e, w)
      | _ => None
      end
  | RemoveStage root => let w' := log (EStageRemoved root) w in effectful ans w w'
  | LoadCheckpoint target => observed ans (load_checkpoint w target) w
  | SaveCheckpoint c =>
      let w' := log (EMutation "checkpoint") w in
      effectful ans w' (w' <| checkpoint := Some (c <| Checkpoint.SchemaVersion := Checkpoint.checkpointSchemaVersion |>) |>)
  | ClearCheckpoint =>
      let w' := log (EMutation "checkpoint") w in effectful ans w' (w' <| checkpoint := None |>)
  | ReadCurrentLink => observed ans (Ok (current w)) w
  | ReadMarkers dir =>
      match ans with
      | Done => Some (releases w !! dir, w)
      | Failed => Some (None, w)
      | _ => None
      end
  | VerifyManagedChecksums dir => observed ans (from_bool (bool_decide (is_Some (releases w !! dir)))) w
  | VerifyProcess dir =>
      observed ans (from_bool (match running w with Some r => Clean r ==? Clean dir | None => false end)) w
  | VerifyTarget version =>
      match ans with
      | Says reported => Some (from_bool (versionsEqual reported version), w)
      | _ => observed ans (from_bool match running_version w with
                                     | Some v => versionsEqual v version | None => false end) w
      end
  | HealthyVersion =>
      match ans with
      | Says reported => Some (Ok reported, w)
      | _ => observed ans match running_version w with Some v => Ok v | None => failed end w
      end
  | VerifyStagedArtifact _ => observed ans (Ok tt) w
  | InstallReleaseTree _ dest digest version =>
      let w' := log (EMutation "release") w in
      match releases w !! dest with
      | Some (digest', version') =>
          observed ans (from_bool ((TrimSpace digest' ==? ToLower digest) && (TrimSpace version' ==? version))) w'
      | None => effectful ans w' (install w' dest (ToLower digest) version)
      end
  | RequiredPathsPresent dir => observed ans (from_bool (bool_decide (is_Some (releases w !! dir)))) w
  | SystemctlStop =>
      let w' := log (EMutation "service") w in effectful ans w' (w' <| running := None |>)
  | SystemctlStart =>
      let w' := log (EMutation "service") w in
      effectful ans w' (w' <| running := match running w with Some r => Some r | None => current w end |>)
  | SwitchSymlink dest _ =>
      let w' := log (EMutation "current_link") w in effectful ans w' (w' <| current := Some dest |>)
  | ReadVersionEnv => observed ans (readVersionEnv (dhost w)) w
  | WriteVersionEnv data mode =>
      let w' := log (EMutation "version_env") w in effectful ans w' (set_env w' (Some (mode, data)))
  | RemoveVersionEnv =>
      let w' := log (EMutation "version_env") w in effectful ans w' (set_env w' None)
  | ListContainers =>
      observed ans (Ok (String.concat "" (map (fun c => DockerHost.line c.1) (DockerHost.containers (dhost w))))) w
  | InspectContainer id =>
      observed ans match DockerHost.container_image (dhost w) id with
                   | Some image => Ok (DockerHost.line image) | None => failed end w
  | InspectImage ref =>
      observed ans match DockerHost.image_of (dhost w) ref with
                   | Some image => Ok (DockerHost.line image) | None => failed end w
  | InspectRepoDigests ref =>
      observed ans match DockerHost.image_of (dhost w) ref with
                   | Some image => Ok (fst <$> (DockerHost.images (dhost w) !! image)) | None => failed end w
  | WriteOverride _ _ _ => observed ans (Ok tt) w
  | ValidateFrozenCompose path image =>
      observed ans (from_bool (bool_decide (DockerHost.models (dhost w) !! path = Some image))) w
  | PreflightPorts _ _ => observed ans (Ok tt) w
  (* the execution model is the canonical one, or is written to a path of its own; the
     service has the same image in both *)
  | FreezeListener path =>
      let w' := log (EMutation "listener") w in
      match DockerHost.models (dhost w) !! path, ans with
      | Some image, Done => Some (Ok path, w')
      | Some image, Says derived => Some (Ok derived, freeze_model w' derived image)
      | _, Failed => Some (failed, w')
      | None, Done => Some (failed, w')
      | _, _ => None
      end
  | ValidateFrozen path => observed ans (from_bool (bool_decide (is_Some (DockerHost.models (dhost w) !! path)))) w
  | VerifyComposeModel => observed ans (Ok tt) w
  | VerifyComposeConfig image path =>
      let w' := log (EMutation "compose_model") w in effectful ans w' (freeze_model w' path image)
  | ComposeUp path =>
      let w' := log (EMutation "container") w in
      match DockerHost.models (dhost w) !! path ≫= DockerHost.image_of (dhost w) with
      | None => observed ans failed w'
      | Some image =>
          match ans with
          | Says id => Some (Ok tt, compose_up w' id image)
          | Halfway => Some (failed, set_containers w' [])
          | _ => effectful ans w' (compose_up w' new_container image)
          end
      end
  end.

#[global] Instance mutation_handler : Handler op world answer := @op_handler.
End Handler.

Section Programs.
Context `{UnicodeTables} `{TimeZones}.

Abbreviation mprog := (prog op).
Abbreviation gate_prog := (prog op check).

(** * The systemd target *)

(** [currentRelease]: [None] is the case of an absent link, which returns empty
    strings and no error. *)
Definition currentRelease (releaseRoot : string) : mprog (result string (option (string * string * string))) :=
  let* link := call ReadCurrentLink in
  match link with
  | Err _ => Ret (Err "current_link must be a symlink managed by autostream-updater")
  | Ok None => Ret (Ok None)
  | Ok (Some target) =>
      if negb (pathWithin releaseRoot target) then Ret (Err "current_link target is outside release_root")
      else
        let* markers := call (ReadMarkers target) in
        match markers with
        | None => Ret (Err "current release markers are invalid")
        | Some (digestText, versionText) =>
            let digest := ToLower (TrimSpace digestText) in
            let version := TrimSpace versionText in
            if negb (len digest =? 64)%Z || negb (re_match versionPattern version)
            then Ret (Err "current release markers are invalid")
            else if negb (str_forall hexdigit digest) then Ret (Err "current release digest marker is invalid")
            else Ret (Ok (Some (Clean target, digest, version)))
        end
  end.

Definition rollbackSystemd (previous previousVersion jobID : string) : mprog check :=
  if (previous ==? "") || negb (re_match versionPattern previousVersion)
  then Ret (Err "no valid previous managed release is available")
  else
    let? _ := call SystemctlStop in
    let? _ := call (SwitchSymlink previous (jobID +:+ "-rollback")) in
    let? _ := call SystemctlStart in
    let* process := call (VerifyProcess previous) in
    let* target := call (VerifyTarget previousVersion) in
    Ret (firstError [process; target]).

Definition verifyRemoteHealthyVersionExact (expected : string) : mprog check :=
  let* actual := call HealthyVersion in
  match actual with
  | Ok v => Ret (if TrimSpace v ==? expected then Ok tt
                 else Err "managed target health version does not exactly match its release marker")
  | Err _ => Ret (Err "managed target health version does not exactly match its release marker")
  end.

Definition verifyRemoteSystemdBaseline (target : Target.t) (stage : Stage.t) : mprog check :=
  let* staged := call (VerifyStagedArtifact stage) in
  if is_err staged then Ret (Err "staged systemd artifact changed after staging")
  else
    let* release := currentRelease (Target.ReleaseRoot target) in
    match release with
    | Ok (Some (current, digest, version)) =>
        if (current !=? Clean (Stage.PreviousRelease stage)) ||
           (normalizeDigest digest !=? normalizeDigest (Stage.PreviousDigest stage)) ||
           (version !=? Stage.PreviousVersion stage)
        then Ret (Err "systemd target changed after staging")
        else
          let* checksums := call (VerifyManagedChecksums current) in
          let* process := call (VerifyProcess current) in
          let* healthy := verifyRemoteHealthyVersionExact version in
          if is_err (firstError [checksums; process; healthy])
          then Ret (Err "staged systemd rollback baseline is no longer healthy and exact")
          else Ret (Ok tt)
    | _ => Ret (Err "systemd target changed after staging")
    end.

Definition new_checkpoint (target : Target.t) (plan : ApplyPlan.t) (stage : Stage.t) : Checkpoint.t :=
  Checkpoint.mk 0 (ApplyPlan.JobID plan) (Target.TargetID target) ModeSystemd "prepared"
    (ApplyPlan.TargetVersion plan) (normalizeDigest (ApplyPlan.ArtifactDigest plan)) "" ""
    (Stage.NewRelease stage) (Stage.PreviousRelease stage) (normalizeDigest (Stage.PreviousDigest stage))
    (Stage.PreviousVersion stage) "" "" "" "" false 0 "".

Definition apply_result (plan : ApplyPlan.t) (stage : Stage.t) (status : string) (rolledBack : bool) (message : string) :
    ApplyResult.t :=
  ApplyResult.mk status (normalizeDigest (ApplyPlan.ArtifactDigest plan))
    (normalizeDigest (Stage.PreviousDigest stage)) rolledBack message.

(** The end of [commitRemoteSystemdMutation]: back to the previous release. *)
Definition commit_rollback (plan : ApplyPlan.t) (stage : Stage.t) (cp : Checkpoint.t) :
    mprog (result string ApplyResult.t) :=
  let* rolled := rollbackSystemd (Stage.PreviousRelease stage) (Stage.PreviousVersion stage) (ApplyPlan.JobID plan) in
  if is_err rolled then Ret (Err "systemd update and rollback failed")
  else
    let* saved := call (SaveCheckpoint (cp <| Checkpoint.Phase := "rolled_back" |>)) in
    if is_err saved then Ret (Err "persist rolled-back systemd checkpoint")
    else Ret (Ok (apply_result plan stage "rolled_back" true "systemd update was rolled back")).

(** [commitRemoteSystemdMutation] from the start of the switched service on. *)
Definition commit_start (plan : ApplyPlan.t) (stage : Stage.t) (cp : Checkpoint.t) :
    mprog (result string ApplyResult.t) :=
  let* started := call SystemctlStart in
  let cp := cp <| Checkpoint.Phase := "started" |> in
  let* saved := call (SaveCheckpoint cp) in
  let* verified :=
    match started with
    | Ok _ =>
        let* process := call (VerifyProcess (Stage.NewRelease stage)) in
        let* healthy := call (VerifyTarget (ApplyPlan.TargetVersion plan)) in
        Ret (firstError [saved; process; healthy])
    | Err _ => Ret (Ok tt)
    end in
  if is_ok started && is_ok verified then
    let cp := cp <| Checkpoint.Phase := "succeeded" |> in
    let* final := call (SaveCheckpoint cp) in
    if is_err final then Ret (Err "persist terminal systemd checkpoint")
    else Ret (Ok (apply_result plan stage "succeeded" false ""))
  else commit_rollback plan stage cp.

Definition commitRemoteSystemdMutation (target : Target.t) (plan : ApplyPlan.t) (stage : Stage.t) :
    mprog (result string ApplyResult.t) :=
  let cp := new_checkpoint target plan stage in
  let* saved := call (SaveCheckpoint cp) in
  if is_err saved then Ret (Err "persist systemd update checkpoint")
  else
    let? _ := call SystemctlStop in
    let cp := cp <| Checkpoint.Phase := "stopped" |> in
    let* saved := call (SaveCheckpoint cp) in
    if is_err saved then
      let* _ := call SystemctlStart in Ret (Err "persist stopped systemd checkpoint")
    else
      let* switched := call (SwitchSymlink (Stage.NewRelease stage) (ApplyPlan.JobID plan)) in
      match switched with
      | Err e => let* _ := call SystemctlStart in Ret (Err e)
      | Ok _ =>
          let cp := cp <| Checkpoint.Phase := "switched" |> in
          let* saved := call (SaveCheckpoint cp) in
          if is_err saved then Ret (Err "persist switched systemd checkpoint")
          else commit_start plan stage cp
      end.

(** The second half of [applyRemoteStagedSystemdWithVerifier]: everything after
    the post-grant checks. *)
Definition install_and_commit (target : Target.t) (plan : ApplyPlan.t) (stage : Stage.t) :
    mprog (result string ApplyResult.t) :=
  let? _ := call (InstallReleaseTree (ApplyPlan.StageDir plan) (Stage.NewRelease stage)
                    (ApplyPlan.ArtifactDigest plan) (ApplyPlan.TargetVersion plan)) in
  let* intact := call (VerifyManagedChecksums (Stage.NewRelease stage)) in
  if is_err intact then Ret (Err "installed systemd release integrity check failed")
  else
    let* complete := call (RequiredPathsPresent (Stage.NewRelease stage)) in
    if is_err complete then Ret (Err "installed systemd release is incomplete")
    else
      let* before := call (LoadCheckpoint target) in
      if negb (before ==? Ok None) then Ret (Err "systemd checkpoint changed before service mutation")
      else
        let* baseline := verifyRemoteSystemdBaseline target stage in
        if is_err baseline then Ret (Err "systemd target changed before service mutation")
        else
          let* after := call (LoadCheckpoint target) in
          if negb (after ==? Ok None) then Ret (Err "systemd checkpoint changed during final baseline verification")
          else commitRemoteSystemdMutation target plan stage.

Definition applyRemoteStagedSystemd (target : Target.t) (plan : ApplyPlan.t) (stage : Stage.t) (gate : gate_prog) :
    mprog (result string ApplyResult.t) :=
  if (ApplyPlan.StageDir plan ==? "") || negb (IsAbs (ApplyPlan.StageDir plan)) ||
     (Clean (ApplyPlan.StageDir plan) !=? Clean (Stage.RootDir stage)) ||
     negb (len (ApplyPlan.ArtifactDigest plan) =? 64)%Z
  then Ret (Err "remote systemd stage is incomplete")
  else match requirePlannedCurrentVersion (ApplyPlan.CurrentVersion plan) (Stage.PreviousVersion stage) with
  | Err e => Ret (Err e)
  | Ok _ =>
    let? _ := verifyRemoteSystemdBaseline target stage in
    let? cp := call (LoadCheckpoint target) in
    if match cp with Some c => negb (Checkpoint.terminal c) | None => false end
    then Ret (Err "an interrupted systemd checkpoint requires reconcile")
    else
      let? _ := gate in
      let* afterGrant := call (LoadCheckpoint target) in
      if negb (afterGrant ==? Ok cp) then Ret (Err "systemd checkpoint changed while consuming the mutation grant")
      else
        let* baseline := verifyRemoteSystemdBaseline target stage in
        if is_err baseline then Ret (Err "systemd target changed while consuming the mutation grant")
        else
          let* afterVerify := call (LoadCheckpoint target) in
          if negb (afterVerify ==? Ok cp)
          then Ret (Err "systemd checkpoint changed while verifying the mutation baseline")
          else
            let? _ := match cp with Some _ => call ClearCheckpoint | None => Ret (Ok tt) end in
            install_and_commit target plan stage
  end.

(** [reconcileSystemdWithGate] with the nil gate that the executor passes: it has
    consumed its own grant before. *)

Definition systemdRequestedReleaseDigestMatches (cp : option Checkpoint.t) (actual planned : string) : bool :=
  match cp with Some _ => true | None => normalizeDigest actual ==? normalizeDigest planned end.

Definition checkpoint_mismatch (plan : ApplyPlan.t) (c : Checkpoint.t) : bool :=
  (Checkpoint.JobID c !=? ApplyPlan.JobID plan) || (Checkpoint.TargetVersion c !=? ApplyPlan.TargetVersion plan) ||
  (Checkpoint.NewRelease c ==? "") || (Checkpoint.PreviousRelease c ==? "") ||
  is_err (requirePlannedCurrentVersion (ApplyPlan.CurrentVersion plan) (Checkpoint.PreviousVersion c)).

(** The rollback at the end of [reconcileSystemdWithGate]. *)
Definition reconcile_rollback (target : Target.t) (plan : ApplyPlan.t) (cp : option Checkpoint.t) :
    mprog (result string ApplyResult.t) :=
  match cp with
  | None => Ret (Err "interrupted systemd update has no trustworthy rollback checkpoint")
  | Some c =>
      if negb (pathWithin (Target.ReleaseRoot target) (Checkpoint.PreviousRelease c)) ||
         (Checkpoint.PreviousDigest c ==? "") || negb (re_match versionPattern (Checkpoint.PreviousVersion c))
      then Ret (Err "interrupted systemd update has no trustworthy rollback checkpoint")
      else
        let* intact := call (VerifyManagedChecksums (Checkpoint.PreviousRelease c)) in
        if is_err intact then Ret (Err "checkpoint rollback release failed integrity validation")
        else
          let? _ := rollbackSystemd (Checkpoint.PreviousRelease c) (Checkpoint.PreviousVersion c) (ApplyPlan.JobID plan) in
          let? _ := call ClearCheckpoint in
          Ret (Ok (ApplyResult.mk "rolled_back" (Checkpoint.TargetDigest c) (Checkpoint.PreviousDigest c) true
                     "interrupted systemd cutover was rolled back from its durable checkpoint"))
  end.

(** A healthy current release: the requested one, or the one from before. *)
Definition reconcile_healthy (target : Target.t) (plan : ApplyPlan.t) (cp : option Checkpoint.t)
    (current digest version : string) : mprog (result string ApplyResult.t) :=
  if versionsEqual version (ApplyPlan.TargetVersion plan) &&
     systemdRequestedReleaseDigestMatches cp digest (ApplyPlan.ArtifactDigest plan) then
    let succeeded := Ok (ApplyResult.mk "succeeded" (normalizeDigest digest) "" false
                           "interrupted update is running the requested release") in
    match cp with
    | None => Ret succeeded
    | Some c =>
        if (current !=? Clean (Checkpoint.NewRelease c)) || (normalizeDigest digest !=? Checkpoint.TargetDigest c)
        then Ret (Err "running target release does not match the durable checkpoint")
        else let? _ := call ClearCheckpoint in Ret succeeded
    end
  else
    let planned := TrimSpace (ApplyPlan.CurrentVersion plan) in
    match cp with
    | None =>
        if re_match versionPattern planned && (version ==? planned)
        then Ret (Ok (ApplyResult.mk "rolled_back" "" (normalizeDigest digest) true
                        "apply had not changed the verified previous managed release"))
        else reconcile_rollback target plan cp
    | Some c =>
        if (current ==? Clean (Checkpoint.PreviousRelease c)) && (normalizeDigest digest ==? Checkpoint.PreviousDigest c) &&
           versionsEqual version (Checkpoint.PreviousVersion c)
        then
          let? _ := call ClearCheckpoint in
          Ret (Ok (ApplyResult.mk "rolled_back" "" (normalizeDigest digest) true "previous managed release is healthy"))
        else reconcile_rollback target plan cp
    end.

Definition reconcileSystemd (target : Target.t) (plan : ApplyPlan.t) : mprog (result string ApplyResult.t) :=
  let? cp := call (LoadCheckpoint target) in
  if match cp with Some c => checkpoint_mismatch plan c | None => false end
  then Ret (Err "systemd checkpoint does not match the recovered job")
  else
    let* release := currentRelease (Target.ReleaseRoot target) in
    match release with
    | Ok (Some (current, digest, version)) =>
        let* checksums := call (VerifyManagedChecksums current) in
        let* process := call (VerifyProcess current) in
        let* healthy := call (VerifyTarget version) in
        if is_ok (firstError [checksums; process; healthy])
        then reconcile_healthy target plan cp current digest version
        else reconcile_rollback target plan cp
    | _ => reconcile_rollback target plan cp
    end.

(** * The request dispatcher *)

(** What the dispatcher calls on a target. *)
Record Backend := {
  bk_apply : Target.t -> ApplyPlan.t -> Stage.t -> gate_prog -> mprog (result string ApplyResult.t);
  bk_reconcile : Target.t -> ApplyPlan.t -> mprog (result string ApplyResult.t);
}.

Definition systemd_backend : Backend :=
  {| bk_apply := applyRemoteStagedSystemd; bk_reconcile := reconcileSystemd |}.

(** The dispatcher is written against the backend of the other deployment mode,
    Docker. *)
Variable docker_backend : Backend.

Definition backend_of (target : Target.t) : Backend :=
  if Target.DeploymentMode target ==? ModeSystemd then systemd_backend else docker_backend.

(** [cleanupRemoteOrphanStage]. *)
Fixpoint remove_orphans (cfg : Config.t) (roots : list string) : mprog check :=
  match roots with
  | [] => Ret (Ok tt)
  | root :: rest =>
      if (Dir root !=? stages_dir cfg) || negb (pathWithin (stages_dir cfg) root)
      then Ret (Err "orphan remote stage path escaped state directory")
      else
        let* removed := call (RemoveStage root) in
        if is_err removed then Ret (Err "remove orphan remote stage") else remove_orphans cfg rest
  end.

Definition cleanupRemoteOrphanStage (cfg : Config.t) (plan : MutationPlan.t) : mprog check :=
  match remoteOrphanStageRoots cfg plan with
  | Err e => Ret (Err e)
  | Ok roots => remove_orphans cfg roots
  end.

Definition validateExecutorStage (cfg : Config.t) (target : Target.t) (plan : MutationPlan.t)
    (stage : option Stage.t) : mprog check :=
  match stage with
  | None => Ret (Err "staged release binding is invalid")
  | Some stage =>
      if stage_binding_invalid cfg plan stage then Ret (Err "staged release binding is invalid")
      else
        let* present := call (LstatStage (Stage.RootDir stage)) in
        if is_err present then Ret (Err "staged release is unavailable")
        else if stage_release_invalid (Target.DeploymentMode target) plan stage
        then Ret (Err "staged release binding of the deployment mode is invalid")
        else Ret (Ok tt)
  end.

Definition consumeExecutorMutationGrant (panelURL : string) (plan : MutationPlan.t) (operation : string)
    (rt : Runtime.t) : mprog check :=
  if Runtime.has_v2_binding rt then
    if negb (Runtime.has_v2_consumer rt) || negb (Runtime.has_clock rt)
    then Ret (Err "v2 mutation grant consumer is unavailable")
    else
      let* _ := call Now in
      let* consumed := call (PresentGrant panelURL operation plan None) in
      if is_err consumed then Ret (Err "mutation grant rejected") else Ret (Ok tt)
  else
    let binding := GrantBinding.mk (MutationPlan.LeaseGeneration plan) (MutationPlan.HostID plan)
      (MutationPlan.TargetID plan) (Runtime.transportMode rt) (MutationPlan.ServiceType plan)
      (MutationPlan.TargetVersion plan) (MutationPlan.DeploymentMode plan) operation
      (MutationPlan.PlanSHA256 plan) (MutationPlan.SessionID plan) (Runtime.ownershipEpoch rt)
      (Runtime.policyRevision rt) in
    if negb (Runtime.has_consumer rt) then Ret (Err "mutation grant rejected")
    else
      let* consumed := call (PresentGrant panelURL operation plan (Some binding)) in
      if is_err consumed then Ret (Err "mutation grant rejected") else Ret (Ok tt).

(** [working.State = s; working.Result = r; saveExecutorMutationLedger(working)]. *)
Definition save_working (s : string) (r : option ApplyResult.t) : mprog check :=
  let* v := call GetVars in
  let next := (working v) <| Ledger.State := s |> <| Ledger.Result := r |> in
  let* _ := call (PutVars (v <| working := next |>)) in
  call (SaveLedger next).

(** The closure [gate] of [executorMutationRequest]. *)
Definition gate (cfg : Config.t) (plan : MutationPlan.t) (operation : string) (rt : Runtime.t) (deadline : Z) :
    gate_prog :=
  let* v := call GetVars in
  if gateCalled v then Ret (Err "mutation gate was invoked more than once")
  else
    let* now := call Now in
    if (deadline - now <=? 0)%Z then Ret (Err "mutation grant preflight deadline exceeded")
    else
      let* _ := call (PutVars (v <| gateCalled := true |>)) in
      let* saved := save_working remoteLedgerGrantConsuming None in
      if is_err saved then Ret (Err "persist grant consumption fence")
      else
        let? _ := consumeExecutorMutationGrant (Config.PanelURL cfg) plan operation rt in
        let* saved := save_working remoteLedgerGrantConsumed None in
        if is_err saved then Ret (Err "persist consumed mutation grant")
        else
          let* saved := save_working remoteLedgerMutating None in
          if is_err saved then Ret (Err "persist mutation fence") else Ret (Ok tt).

Definition finished (plan : MutationPlan.t) (r : ApplyResult.t) : Outcome.t :=
  Outcome.mk None (Some r) (MutationPlan.SessionID plan) (MutationPlan.PlanSHA256 plan) None.

(** The failure paths after the target code has run: the ledger becomes ambiguous
    if the gate was called, whether or not that can be saved. *)
Definition fail_ambiguous : mprog unit :=
  let* v := call GetVars in
  if gateCalled v then let* _ := save_working remoteLedgerAmbiguous None in Ret tt else Ret tt.

(** The end of [executorMutationRequest], from the target's answer on. *)
Definition settle (plan : MutationPlan.t) (answer : result string ApplyResult.t) : mprog Outcome.t :=
  match answer with
  | Err _ =>
      let* v := call GetVars in
      if gateCalled v then let* _ := fail_ambiguous in Ret (executorFailure "reconcile_required")
      else Ret (executorFailure "mutation_precondition_failed")
  | Ok r =>
      let '(bound, ok) := bindRemoteApplyResult plan r in
      if negb ok || negb (result_final bound) then
        let* _ := fail_ambiguous in Ret (executorFailure "reconcile_required")
      else
        let* saved := save_working remoteLedgerTerminal (Some bound) in
        if is_err saved then Ret (executorFailure "reconcile_required") else Ret (finished plan bound)
  end.

(** The body of [executorMutationRequest] once the ledger admits the request. *)
Definition run_mutation (cfg : Config.t) (target : Target.t) (plan : MutationPlan.t) (operation : string)
    (rt : Runtime.t) (l : Ledger.t) (stage : Stage.t) : mprog Outcome.t :=
  let prepared := l <| Ledger.Operation := operation |> <| Ledger.SessionID := MutationPlan.SessionID plan |>
    <| Ledger.PlanSHA256 := MutationPlan.PlanSHA256 plan |>
    <| Ledger.LeaseGeneration := MutationPlan.LeaseGeneration plan |> in
  let* _ := call (PutVars (mk_vars false prepared)) in
  let* start := call Now in
  let pass := gate cfg plan operation rt (start + 30 * GoTime.Second) in
  let applyPlan := (MutationPlan.apply_plan plan) <| ApplyPlan.StageDir := Stage.RootDir stage |>
    <| ApplyPlan.ArtifactDigest := TrimPrefix (normalizeDigest (Stage.ArtifactDigest stage)) "sha256:" |> in
  let* answer :=
    if operation ==? "apply" then bk_apply (backend_of target) target applyPlan stage pass
    else
      let? _ := pass in bk_reconcile (backend_of target) target applyPlan in
  settle plan answer.

(** A reconcile of a release that was staged and never applied. *)
Definition abandon_staged (plan : MutationPlan.t) (operation : string) (l : Ledger.t) : mprog Outcome.t :=
  let r := (bindRemoteApplyResult plan
              (ApplyResult.mk "rolled_back" "" "" true "staged release was not applied")).1 in
  let terminal := l <| Ledger.Operation := operation |> <| Ledger.SessionID := MutationPlan.SessionID plan |>
    <| Ledger.State := remoteLedgerTerminal |> <| Ledger.Result := Some r |>
    <| Ledger.PlanSHA256 := MutationPlan.PlanSHA256 plan |>
    <| Ledger.LeaseGeneration := MutationPlan.LeaseGeneration plan |> in
  let* saved := call (SaveLedger terminal) in
  if is_err saved then Ret (executorFailure "state_unavailable") else Ret (finished plan r).

Definition refuse_after_cleanup (cfg : Config.t) (plan : MutationPlan.t) (code : string) : mprog Outcome.t :=
  let* cleaned := cleanupRemoteOrphanStage cfg plan in
  if is_err cleaned then Ret (executorFailure "state_unavailable") else Ret (executorFailure code).

Definition executorMutationRequest (cfg : Config.t) (target : Target.t) (plan : MutationPlan.t) (operation : string)
    (rt : Runtime.t) (l : option Ledger.t) : mprog Outcome.t :=
  match l with
  | None =>
      if operation ==? "reconcile" then refuse_after_cleanup cfg plan "stage_required"
      else Ret (executorFailure "stage_required")
  | Some l =>
      let failure := remoteLedgerRequestFailure l plan operation in
      if failure !=? "" then
        if (failure ==? "stage_required") && (operation ==? "reconcile") &&
           (Ledger.State l ==? remoteLedgerTerminal) && (Ledger.JobID l !=? MutationPlan.JobID plan)
        then refuse_after_cleanup cfg plan failure
        else Ret (executorFailure failure)
      else if Ledger.State l ==? remoteLedgerTerminal then
        match Ledger.Result l with
        | Some r =>
            let '(bound, ok) := bindRemoteApplyResult plan r in
            if ok then Ret (finished plan bound) else Ret (executorFailure "state_invalid")
        | None => Ret (executorFailure "state_invalid")
        end
      else
        let* valid := validateExecutorStage cfg target plan (Ledger.Stage l) in
        match valid, Ledger.Stage l with
        | Ok _, Some stage =>
            if (operation ==? "apply") && (Ledger.State l !=? remoteLedgerStaged)
            then Ret (executorFailure "reconcile_required")
            else if (operation ==? "reconcile") && (Ledger.State l ==? remoteLedgerStaged)
            then abandon_staged plan operation l
            else run_mutation cfg target plan operation rt l stage
        | _, _ => Ret (executorFailure "stage_invalid")
        end
  end.

(** * Staging *)

(** [verifyMutationPlanCurrentVersion]. *)
Definition managedRemoteCurrentVersion (target : Target.t) : mprog (result string string) :=
  if Target.DeploymentMode target ==? ModeSystemd then
    let* release := currentRelease (Target.ReleaseRoot target) in
    match release with
    | Ok (Some (current, _, version)) =>
        if (current ==? "") || negb (re_match versionPattern version)
        then Ret (Err "managed systemd current release is unavailable") else Ret (Ok version)
    | _ => Ret (Err "managed systemd current release is unavailable")
    end
  else if Target.DeploymentMode target ==? ModeDocker then
    let* env := call ReadVersionEnv in
    match env with
    | Err _ => Ret (Err "read Docker version pin")
    | Ok (data, _, true) =>
        match parseVersionEnvPin data (DockerTarget.ImageVariable (Target.Docker target)) with
        | Err _ => Ret (Err "Docker version pin is invalid")
        | Ok (version, _) => Ret (Ok version)
        end
    | Ok (_, _, false) =>
        let version := TrimSpace (DockerTarget.CurrentVersion (Target.Docker target)) in
        if negb (re_match versionPattern version) then Ret (Err "Docker current version is unavailable")
        else Ret (Ok version)
    end
  else Ret (Err "unsupported deployment mode").

Definition verifyMutationPlanCurrentVersion (target : Target.t) (plan : MutationPlan.t) : mprog check :=
  let planned := TrimSpace (MutationPlan.CurrentVersion plan) in
  if planned ==? "" then Ret (Err "remote plan is missing its current version baseline")
  else
    let* actual := managedRemoteCurrentVersion target in
    match actual with
    | Err _ => Ret (Err "could not verify the planned current version")
    | Ok actual => Ret (requirePlannedCurrentVersion planned actual)
    end.

(** The stage directory that [cleanupRemoteTerminalStage] removes, if any. *)
Definition terminal_stage_root (cfg : Config.t) (old : option Stage.t) (currentRoot : string) : option string :=
  match old with
  | None => None
  | Some old =>
      if (Stage.RootDir old ==? "") || (Stage.RootDir old ==? currentRoot) then None
      else match Rel (stages_dir cfg) (Stage.RootDir old) with
           | Some (component :: _) =>
               let oldRoot := Join [stages_dir cfg; component] in
               if re_match mutationPlanHashPattern component && pathWithin (stages_dir cfg) oldRoot &&
                  negb (pathWithin oldRoot currentRoot)
               then Some oldRoot else None
           | _ => None
           end
  end.

Definition cleanupRemoteTerminalStage (cfg : Config.t) (old : option Stage.t) (currentRoot : string) : mprog unit :=
  match terminal_stage_root cfg old currentRoot with
  | Some root => let* _ := call (RemoveStage root) in Ret tt
  | None => Ret tt
  end.

Definition staged_record (plan : MutationPlan.t) (stage : Stage.t) : Ledger.t :=
  Ledger.mk remoteLedgerSchemaVersion (MutationPlan.JobID plan) (MutationPlan.TargetID plan)
    (MutationPlan.PlanSHA256 plan) (MutationPlan.SessionID plan) (MutationPlan.LeaseGeneration plan)
    (newRemoteMutationIntent plan) "stage" remoteLedgerStaged GoTime.zero (Some stage) None.

Definition staged_outcome (plan : MutationPlan.t) (stage : Stage.t) : Outcome.t :=
  Outcome.mk (Some (remoteStageResult plan stage)) None "" "" None.

(** [executorStageRequest] once the previous record, if any, is terminal. *)
Definition stage_fresh (cfg : Config.t) (plan : MutationPlan.t) (previous : option Stage.t) : mprog Outcome.t :=
  let* prepared := call (PrepareStage plan) in
  match prepared with
  | Err e => Ret (executorFailureWithMessage "stage_failed" (remoteStageFailureMessage e))
  | Ok stage =>
      let* saved := call (SaveLedger (staged_record plan stage)) in
      if is_err saved then Ret (executorFailure "state_unavailable")
      else
        let* _ := cleanupRemoteTerminalStage cfg previous (Stage.RootDir stage) in
        Ret (staged_outcome plan stage)
  end.

Definition executorStageRequest (cfg : Config.t) (target : Target.t) (plan : MutationPlan.t) (l : option Ledger.t) :
    mprog Outcome.t :=
  match l with
  | None => stage_fresh cfg plan None
  | Some l =>
      if Ledger.JobID l ==? MutationPlan.JobID plan then
        if Ledger.PlanSHA256 l !=? MutationPlan.PlanSHA256 plan then Ret (executorFailure "plan_conflict")
        else
          let* valid :=
            if Ledger.State l ==? remoteLedgerStaged then validateExecutorStage cfg target plan (Ledger.Stage l)
            else Ret (Err "not staged") in
          match valid, Ledger.Stage l with
          | Ok _, Some stage =>
              let* unchanged := verifyMutationPlanCurrentVersion target plan in
              match unchanged with
              | Err e => Ret (executorFailureWithMessage "stage_failed" (remoteStageFailureMessage e))
              | Ok _ => Ret (staged_outcome plan stage)
              end
          | _, _ =>
              if Ledger.State l ==? remoteLedgerTerminal then Ret (executorFailure "already_terminal")
              else Ret (executorFailure "reconcile_required")
          end
      else if Ledger.State l !=? remoteLedgerTerminal then Ret (executorFailure "reconcile_required")
      else stage_fresh cfg plan (Ledger.Stage l)
  end.

(** The tail of [handleLocalExecutorMutation]: load the ledger, dispatch on the
    operation. *)
Definition handle_mutation (cfg : Config.t) (target : Target.t) (plan : MutationPlan.t) (operation : string)
    (rt : Runtime.t) : mprog Outcome.t :=
  let* loaded := call (LoadLedger (MutationPlan.TargetID plan)) in
  match loaded with
  | Err _ => Ret (executorFailure "state_invalid")
  | Ok l =>
      if operation ==? "stage" then executorStageRequest cfg target plan l
      else if (operation ==? "apply") || (operation ==? "reconcile")
      then executorMutationRequest cfg target plan operation rt l
      else Ret (executorFailure "invalid_request")
  end.
End Programs.
