(* ===== verification/MutationSafety.v ===== *)
(** What the mutation executor guarantees: the order of ledger writes, grant
    presentation and target mutation at every crash point, replay protection, the
    meaning of outcomes, and the cutover of a systemd target. *)
From Stdlib Require Import Ascii String ZArith Lia.
From stdpp Require Import base decidable list strings gmap.
From S2P Require Import Prelude Strings Regexp Patterns Effects Sha256 Json Paths PlanDigest MutationLedger MutationExec.

Open Scope string_scope.

(** * Target operations *)

(** The operations that target code may use: all but those on the ledger, the
    grant, the stages and the captured variables. *)
Definition target_op {X} (o : op X) : bool :=
  match o with
  | LoadLedger _ | SaveLedger _ | GetVars | PutVars _ | PresentGrant _ _ _ _ | PrepareStage _ | RemoveStage _ => false
  | _ => true
  end.

(** The next branch of the program. *)
Ltac branch := match goal with |- wp _ (match ?b with _ => _ end) _ _ => destruct b end.

Section Safety.
Context `{UnicodeTables} `{TimeZones}.

(** A predicate that target code cannot invalidate. *)
Definition target_closed (F : world -> Prop) : Prop :=
  forall X (o : op X) ans x w w', target_op o = true -> F w -> handle o ans w = Some (x, w') -> F w'.

(** What the dispatcher needs of a target: until the gate has let it pass, apply
    only observes; a result means that the gate has let it pass; and reconcile
    stays within the target. *)
Class GatedBackend (b : Backend) : Prop := {
  gated_apply : forall (I F : world -> Prop) target plan stage g w,
    target_closed F -> (forall v, F v -> I v) ->
    wp I g (fun r v => r = Ok tt -> F v) w ->
    wp I (bk_apply b target plan stage g) (fun r v => is_ok r = true -> F v) w;
  gated_reconcile : forall (F : world -> Prop) target plan w,
    target_closed F -> F w -> wp F (bk_reconcile b target plan) (fun _ v => F v) w;
}.

(** Observations leave the world as it is. *)
Definition observation {X} (o : op X) : bool :=
  match o with
  | LoadLedger _ | GetVars | LstatStage _ | PrepareStage _ | LoadCheckpoint _ | ReadCurrentLink
  | ReadMarkers _ | VerifyManagedChecksums _ | VerifyProcess _ | VerifyTarget _ | HealthyVersion
  | VerifyStagedArtifact _ | RequiredPathsPresent _ | ReadVersionEnv | ListContainers | InspectContainer _
  | InspectImage _ | InspectRepoDigests _ | WriteOverride _ _ _ | ValidateFrozenCompose _ _ | PreflightPorts _ _
  | ValidateFrozen _ | VerifyComposeModel => true
  | _ => false
  end.

Lemma observed_same {A} ans (r : result string A) w x w' : observed ans r w = Some (x, w') -> w' = w.
Proof. destruct ans; cbn; congruence. Qed.

Lemma observation_same X (o : op X) ans x w w' : observation o = true -> handle o ans w = Some (x, w') -> w' = w.
Proof.
  unfold handle, mutation_handler. destruct o; cbn [observation]; intros Ho E; try discriminate Ho; cbn in E;
    try (by eapply observed_same); try (destruct ans; cbn in E; congruence).
Qed.

Lemma wp_observe {X} (I : world -> Prop) (o : op X) Q w :
  observation o = true -> I w -> (forall x, Q x w) -> wp I (call o) Q w.
Proof.
  intros Ho HI HQ. apply wp_call; [done|]. intros ans x w' E. apply observation_same in E as ->; [|done]. auto.
Qed.

Lemma wp_target {X} (I F : world -> Prop) (o : op X) Q w :
  target_op o = true -> target_closed F -> (forall v, F v -> I v) -> F w -> (forall x v, F v -> Q x v) ->
  wp I (call o) Q w.
Proof.
  intros Ho HF HI Hw HQ. apply wp_call; [auto|]. intros ans x w' E. specialize (HF _ _ _ _ _ _ Ho Hw E). auto.
Qed.

(** ** The systemd target is gated *)

(** Code that only observes. *)
Ltac observe := apply wp_observe; [reflexivity|assumption|intros ?].

Lemma currentRelease_observes (I : world -> Prop) root Q w :
  I w -> (forall r, Q r w) -> wp I (currentRelease root) Q w.
Proof.
  intros HI HQ. apply wp_bind. observe. destruct x as [[target|]|]; [|by apply wp_ret..].
  destruct (pathWithin root target); cbn [negb]; [|by apply wp_ret].
  apply wp_bind. observe. destruct x as [[d v]|]; [|by apply wp_ret]. cbv zeta.
  repeat case_match; by apply wp_ret.
Qed.

Lemma baseline_observes (I : world -> Prop) target stage Q w :
  I w -> (forall r, Q r w) -> wp I (verifyRemoteSystemdBaseline target stage) Q w.
Proof.
  intros HI HQ. unfold verifyRemoteSystemdBaseline. apply wp_bind. observe.
  destruct x; cbn [is_err is_ok negb]; [|by apply wp_ret].
  apply wp_bind, currentRelease_observes; [done|]. intros [[[[c d] v]|]|]; try by apply wp_ret.
  case_match; [by apply wp_ret|]. do 2 (apply wp_bind; observe).
  apply wp_bind, wp_bind. observe. destruct x1; apply wp_ret; try done; case_match; by apply wp_ret.
Qed.

Lemma apply_observes (I F : world -> Prop) target plan stage g w :
  I w -> target_closed F -> (forall v, F v -> I v) ->
  wp I g (fun r v => r = Ok tt -> F v) w ->
  (forall v, F v -> wp I (install_and_commit target plan stage) (fun r v => is_ok r = true -> F v) v) ->
  wp I (applyRemoteStagedSystemd target plan stage g) (fun r v => is_ok r = true -> F v) w.
Proof.
  intros HI HF HFI Hg Hrest. unfold applyRemoteStagedSystemd.
  branch; [by apply wp_ret|]. branch; [|by apply wp_ret].
  apply wp_bind_ok, baseline_observes; [done|]. intros [[]|e]; [|done].
  apply wp_bind_ok. observe. destruct x as [cp|e]; [|done]. branch; [by apply wp_ret|].
  apply wp_bind_ok. eapply wp_mono; [|exact Hg]. intros [[]|e] v Hv Hr; [|done]. specialize (Hr eq_refl).
  apply wp_bind. observe. branch; [by apply wp_ret|].
  apply wp_bind, baseline_observes; [done|]. intros r. branch; [by apply wp_ret|].
  apply wp_bind. observe. branch; [by apply wp_ret|].
  apply wp_bind_ok. destruct cp.
  - apply (wp_target I F); [done..|]. intros [[]|e] u Hu; [by apply Hrest|done].
  - apply wp_ret; auto.
Qed.

(** From the first mutation on, everything preserves a closed predicate. *)
Ltac mutate HF := (eapply wp_target; [reflexivity|exact HF|auto|assumption|intros ? ? ?]).

Ltac stay HF :=
  repeat first
    [ progress intros
    | match goal with |- wp _ (bind_ok _ _) _ _ => apply wp_bind_ok end
    | match goal with |- wp _ (bind _ _) _ _ => apply wp_bind end
    | match goal with |- wp _ (call _) _ _ => mutate HF end
    | match goal with |- wp _ (Ret _) _ _ => apply wp_ret; [by auto|] end
    | match goal with |- wp _ (match ?b with _ => _ end) _ _ => destruct b end
    | match goal with |- match ?b with _ => _ end => destruct b end
    | by auto ].

Lemma rollback_stays (I F : world -> Prop) prev ver job w :
  target_closed F -> (forall v, F v -> I v) -> F w ->
  wp I (rollbackSystemd prev ver job) (fun _ v => F v) w.
Proof. intros HF HI Hw. unfold rollbackSystemd. stay HF. Qed.

Lemma commit_stays (I F : world -> Prop) target plan stage w :
  target_closed F -> (forall v, F v -> I v) -> F w ->
  wp I (commitRemoteSystemdMutation target plan stage) (fun _ v => F v) w.
Proof.
  intros HF HI Hw. unfold commitRemoteSystemdMutation, commit_start, commit_rollback. cbv zeta. stay HF.
  all: try (eapply wp_mono; [|apply (rollback_stays I F); auto]; intros; cbn beta in *; stay HF).
Qed.

Lemma install_stays (I F : world -> Prop) target plan stage w :
  target_closed F -> (forall v, F v -> I v) -> F w ->
  wp I (install_and_commit target plan stage) (fun _ v => F v) w.
Proof.
  intros HF HI Hw. unfold install_and_commit. apply wp_bind_ok. mutate HF. destruct x; [|done].
  do 2 (apply wp_bind; mutate HF; branch; [by apply wp_ret; auto|]).
  apply wp_bind. mutate HF. branch; [by apply wp_ret; auto|].
  apply wp_bind, baseline_observes; [auto|]. intros r. branch; [by apply wp_ret; auto|].
  apply wp_bind. mutate HF. branch; [by apply wp_ret; auto|]. by apply commit_stays.
Qed.

Lemma reconcile_rollback_stays (I F : world -> Prop) target plan cp w :
  target_closed F -> (forall v, F v -> I v) -> F w ->
  wp I (reconcile_rollback target plan cp) (fun _ v => F v) w.
Proof.
  intros HF HI Hw. unfold reconcile_rollback. stay HF.
  eapply wp_mono; [|apply (rollback_stays I F); auto]; intros; cbn beta in *; stay HF.
Qed.

#[export] Instance systemd_gated : GatedBackend systemd_backend.
Proof.
  split; cbn [bk_apply bk_reconcile systemd_backend].
  - intros I F target plan stage g w HF HFI Hg. apply apply_observes; auto; [by eapply wp_inv|].
    intros v Hv. eapply wp_mono; [|by apply install_stays]. auto.
  - intros F target plan w HF Hw. unfold reconcileSystemd, reconcile_healthy.
    apply wp_bind_ok. mutate HF. destruct x as [cp|]; [|done]. branch; [by apply wp_ret|].
    apply wp_bind, currentRelease_observes; [done|].
    assert (G : forall v, F v -> wp F (reconcile_rollback target plan cp) (fun _ v => F v) v)
      by (intros; by apply reconcile_rollback_stays).
    intros [[[[c d] ver]|]|]; auto. stay HF; auto.
Qed.

(** * The progress of one request

    The record a request works on, [base], is only ever saved with another state
    and result. *)
Definition rec_of (base : Ledger.t) (s : string) (r : option ApplyResult.t) (l : Ledger.t) : Prop :=
  exists t, l = base <| Ledger.State := s |> <| Ledger.Result := r |>
    <| Ledger.SchemaVersion := remoteLedgerSchemaVersion |> <| Ledger.UpdatedAt := t |>.

Definition based (base : Ledger.t) (v : vars) : Prop :=
  exists s r, working v = base <| Ledger.State := s |> <| Ledger.Result := r |>.

Definition mutation_of (l : Ledger.t) (e : event * option Ledger.t) : Prop :=
  exists what, e = (EMutation what, Some l).

Section Request.
Variables (base : Ledger.t) (plan : MutationPlan.t) (operation : string).
Variables (L0 : option Ledger.t) (E0 : list (event * option Ledger.t)).

Definition the_grant : event :=
  EGrant operation (MutationPlan.JobID plan) (MutationPlan.PlanSHA256 plan) (MutationPlan.SessionID plan).

(** The durable ledger and the events at a point of the request, given those at
    its start.  This is the order the code promises: fence, present the grant,
    record its consumption, fence the mutation, mutate, settle. *)
Inductive progress : option Ledger.t -> list (event * option Ledger.t) -> Prop :=
| p_idle : progress L0 E0
| p_fenced l : rec_of base remoteLedgerGrantConsuming None l -> progress (Some l) E0
| p_presented l :
    rec_of base remoteLedgerGrantConsuming None l -> progress (Some l) (E0 ++ [(the_grant, Some l)])
| p_consumed l l1 :
    rec_of base remoteLedgerGrantConsuming None l1 -> rec_of base remoteLedgerGrantConsumed None l ->
    progress (Some l) (E0 ++ [(the_grant, Some l1)])
| p_mutating l l1 mutations :
    rec_of base remoteLedgerGrantConsuming None l1 -> rec_of base remoteLedgerMutating None l ->
    Forall (mutation_of l) mutations ->
    progress (Some l) (E0 ++ (the_grant, Some l1) :: mutations)
| p_ambiguous l l' evs :
    progress l evs -> rec_of base remoteLedgerAmbiguous None l' -> progress (Some l') evs
| p_terminal l l1 l' mutations r :
    rec_of base remoteLedgerGrantConsuming None l1 -> rec_of base remoteLedgerMutating None l ->
    Forall (mutation_of l) mutations -> result_final r = true ->
    rec_of base remoteLedgerTerminal (Some r) l' ->
    progress (Some l') (E0 ++ (the_grant, Some l1) :: mutations).

Definition underway (w : world) : Prop := progress (ledger w) (events w).

(** The gate has let the request pass. *)
Definition passed (w : world) : Prop :=
  gateCalled (memory w) = true /\ based base (memory w) /\
  exists l l1 mutations, ledger w = Some l /\ events w = (E0 ++ (the_grant, Some l1) :: mutations)%list /\
    rec_of base remoteLedgerGrantConsuming None l1 /\ rec_of base remoteLedgerMutating None l /\
    Forall (mutation_of l) mutations.

Lemma passed_underway w : passed w -> underway w.
Proof. intros (_ & _ & l & l1 & ms & El & Ee & H1 & H2 & H3). unfold underway. rewrite El, Ee. by eapply p_mutating. Qed.

Lemma compose_up_effect w id image : exists cs, compose_up w id image = set_containers w cs.
Proof.
  unfold compose_up. repeat case_match; eauto. eexists (DockerHost.containers (dhost w)).
  by destruct w as [? ? ? ? ? ? ? ? []].
Qed.

(** What any target operation does to the ledger, the variables and the events. *)
Lemma target_op_effect X (o : op X) ans x w w' :
  target_op o = true -> handle o ans w = Some (x, w') ->
  ledger w' = ledger w /\ memory w' = memory w /\
  (events w' = events w \/ exists what, events w' = (events w ++ [(EMutation what, ledger w)])%list).
Proof.
  unfold handle, mutation_handler. destruct o; cbn [target_op]; intros Ho E; try discriminate Ho; cbn in E;
    unfold observed, effectful in E; repeat case_match; simplify_eq;
    repeat match goal with |- context [compose_up ?u ?i ?m] =>
      let cs := fresh in let E' := fresh in destruct (compose_up_effect u i m) as [cs E']; rewrite E' end; cbn; eauto 6.
Qed.

Lemma passed_closed : target_closed passed.
Proof.
  intros X o ans x w w' Ho (Hg & Hb & l & l1 & ms & El & Ee & H1 & H2 & H3) E.
  apply target_op_effect in E as (El' & Em' & He'); [|done].
  split; [by rewrite Em'|]. split; [by rewrite Em'|].
  destruct He' as [He'|[what He']].
  - exists l, l1, ms. by rewrite El', He'.
  - exists l, l1, (ms ++ [(EMutation what, Some l)])%list. rewrite El', He', Ee, El, <- app_assoc. split_and!; try done.
    apply Forall_app. split; [done|]. repeat constructor. by exists what.
Qed.

(** Saving the ledger. *)
Lemma save_effect l ans x w w' :
  handle (SaveLedger l) ans w = Some (x, w') ->
  (is_err x = true /\ w' = w) \/
  exists t, w' = w <| ledger := Some (l <| Ledger.SchemaVersion := remoteLedgerSchemaVersion |>
                                       <| Ledger.UpdatedAt := t |>) |>.
Proof.
  unfold handle, mutation_handler, op_handler, write_ledger, prepare_ledger. cbv zeta.
  destruct (validate_ledger _ _); cbn [bind_res]; [|intros [= <- <-]; by left].
  unfold effectful. destruct ans; intros [= <- <-]; eauto.
Qed.

Definition set_working (s : string) (r : option ApplyResult.t) (v : vars) : vars :=
  v <| working := (working v) <| Ledger.State := s |> <| Ledger.Result := r |> |>.

Lemma based_set s r v : based base v -> based base (set_working s r v).
Proof. intros (s' & r' & E). exists s, r. cbn. by rewrite E. Qed.

Lemma wp_put (I : world -> Prop) v Q w :
  I w -> I (w <| memory := v |>) -> Q tt (w <| memory := v |>) -> wp I (call (PutVars v)) Q w.
Proof. intros HI HI' HQ. apply wp_call; [done|]. intros ans x w' [= <- <-]. done. Qed.

Lemma wp_get (I : world -> Prop) Q w : I w -> Q (memory w) w -> wp I (call GetVars) Q w.
Proof. intros HI HQ. apply wp_call; [done|]. intros ans x w' [= <- <-]. done. Qed.

(** Working saves: failed, or durable as a record of [base]. *)
Lemma save_working_spec (I : world -> Prop) s r Q w :
  based base (memory w) ->
  I w -> I (w <| memory := set_working s r (memory w) |>) ->
  (forall l, rec_of base s r l -> I (w <| memory := set_working s r (memory w) |> <| ledger := Some l |>)) ->
  (forall x, is_err x = true -> Q x (w <| memory := set_working s r (memory w) |>)) ->
  (forall x l, rec_of base s r l -> Q x (w <| memory := set_working s r (memory w) |> <| ledger := Some l |>)) ->
  wp I (save_working s r) Q w.
Proof.
  intros (s' & r' & E) HI HI1 HI2 HQ1 HQ2. unfold save_working.
  apply wp_bind, wp_get; [done|]. apply wp_bind, wp_put; [done..|].
  assert (Hrec : forall t, rec_of base s r
    ((working (memory w)) <| Ledger.State := s |> <| Ledger.Result := r |>
      <| Ledger.SchemaVersion := remoteLedgerSchemaVersion |> <| Ledger.UpdatedAt := t |>))
    by (intros t; exists t; by rewrite E).
  apply wp_call; [done|]. intros ans x w' [[Hx ->]|[t ->]]%save_effect; split; auto.
Qed.

(** Presenting the grant. *)
Lemma wp_consume (I : world -> Prop) url rt Q w :
  I w -> (forall t, I (w <| clock := t |>)) ->
  (forall t, I (log the_grant (w <| clock := t |>))) ->
  (forall x, is_err x = true -> Q x w) ->
  (forall x t, Q x (log the_grant (w <| clock := t |>))) ->
  wp I (consumeExecutorMutationGrant url plan operation rt) Q w.
Proof.
  intros HI Ht Hg HQ HQ'. unfold consumeExecutorMutationGrant.
  assert (P : forall b t, wp I (let* consumed := call (PresentGrant url operation plan b) in
       if is_err consumed then Ret (Err "mutation grant rejected") else Ret (Ok tt)) Q (w <| clock := t |>)).
  { intros b t. apply wp_bind, wp_call; [done|]. intros ans x w' E. cbn in E.
    destruct ans; simplify_eq; (split; [apply Hg|]); cbn; split; try apply Hg; apply HQ'. }
  destruct (Runtime.has_v2_binding rt).
  - branch; [by apply wp_ret; auto|]. apply wp_bind, wp_call; [done|].
    intros ans x w' E. cbn in E. destruct ans; try discriminate E; injection E as <- <-; (split; [first [done|apply Ht]|]).
    + specialize (P None (clock w)). by destruct w.
    + exact (P None (clock w + 0 `max` d)%Z).
  - cbv zeta. branch; [by apply wp_ret; auto|]. specialize (P (Some (GrantBinding.mk
      (MutationPlan.LeaseGeneration plan) (MutationPlan.HostID plan)
      (MutationPlan.TargetID plan) (Runtime.transportMode rt) (MutationPlan.ServiceType plan)
      (MutationPlan.TargetVersion plan) (MutationPlan.DeploymentMode plan) operation
      (MutationPlan.PlanSHA256 plan) (MutationPlan.SessionID plan) (Runtime.ownershipEpoch rt)
      (Runtime.policyRevision rt))) (clock w)). by destruct w.
Qed.

(** Between the start of the request and its end. *)
Definition at_work (w : world) : Prop :=
  underway w /\ based base (memory w) /\
  (gateCalled (memory w) = false -> ledger w = L0 /\ events w = E0).

Lemma passed_at_work w : passed w -> at_work w.
Proof.
  intros Hp. split; [by apply passed_underway|]. destruct Hp as (Hg & Hb & _). split; [done|]. by rewrite Hg.
Qed.

(** A point after the gate was called. *)
Record called (w : world) (l : option Ledger.t) (evs : list (event * option Ledger.t)) : Prop := {
  cl_gate : gateCalled (memory w) = true;
  cl_based : based base (memory w);
  cl_ledger : ledger w = l;
  cl_events : events w = evs;
  cl_progress : progress l evs;
}.

Lemma called_at_work w l evs : called w l evs -> at_work w.
Proof. intros [Hg Hb <- <- Hp]. split_and!; [done..|]. by rewrite Hg. Qed.

Lemma called_clock w l evs t : called w l evs -> called (w <| clock := t |>) l evs.
Proof. by intros []. Qed.

(** A working save after the gate was called: on success the new record is
    durable, on failure it may or may not be. *)
Lemma save_step s r l evs Q w :
  called w l evs ->
  (forall l', rec_of base s r l' -> progress (Some l') evs) ->
  (forall x v, is_err x = true -> at_work v -> Q x v) ->
  (forall v l', rec_of base s r l' -> called v (Some l') evs -> Q (Ok tt) v) ->
  wp at_work (save_working s r) Q w.
Proof.
  intros Hc Hs HE HO. pose proof Hc as [Hg Hb Hl He Hp].
  assert (H1 : at_work (w <| memory := set_working s r (memory w) |>)).
  { apply (called_at_work _ l evs). split; cbn; auto using based_set. }
  assert (H2 : forall l', rec_of base s r l' ->
    called (w <| memory := set_working s r (memory w) |> <| ledger := Some l' |>) (Some l') evs)
    by (intros l' Hl'; split; cbn; auto using based_set).
  apply save_working_spec; auto; eauto using called_at_work.
  intros [[]|e] l' Hl'; eauto using called_at_work.
Qed.

Lemma start_at_work w : based base (memory w) -> ledger w = L0 -> events w = E0 -> at_work w.
Proof. intros Hb Hl He. split_and!; [unfold underway; rewrite Hl, He; apply p_idle|done..]. Qed.

Lemma consume_step url rt l Q w :
  called w (Some l) E0 -> rec_of base remoteLedgerGrantConsuming None l ->
  (forall x v, is_err x = true -> at_work v -> Q x v) ->
  (forall v, called v (Some l) (E0 ++ [(the_grant, Some l)]) -> Q (Ok tt) v) ->
  wp at_work (consumeExecutorMutationGrant url plan operation rt) Q w.
Proof.
  intros Hc Hl HE HO.
  assert (H1 : forall t, called (log the_grant (w <| clock := t |>)) (Some l) (E0 ++ [(the_grant, Some l)])).
  { intros t. destruct Hc as [Hg Hb El Ee Hp]. split; cbn; try done; [by rewrite El, Ee|by apply p_presented]. }
  apply wp_consume; eauto using called_at_work, called_clock.
  intros [[]|e] t; eauto using called_at_work.
Qed.

(** The gate. *)
Lemma gate_spec cfg rt deadline w :
  based base (memory w) -> ledger w = L0 -> events w = E0 ->
  wp at_work (gate cfg plan operation rt deadline) (fun r v => r = Ok tt -> passed v) w.
Proof.
  intros Hb Hl He. unfold gate. assert (Hw : at_work w) by by apply start_at_work.
  apply wp_bind, wp_get; [done|]. branch; [by apply wp_ret|].
  apply wp_bind, wp_call; [done|]. intros ans now w1 E1.
  assert (exists t, w1 = w <| clock := t |>) as [t ->].
  { cbn in E1. destruct ans; try discriminate E1; injection E1 as <- <-; [exists (clock w); by destruct w|eauto]. }
  split; [by apply start_at_work|]. branch; [by apply wp_ret; [apply start_at_work|]|].
  apply wp_bind, wp_put; [by apply start_at_work..|].
  apply wp_bind, (save_step _ _ L0 E0); [by split; try done; apply p_idle|by apply p_fenced|by intros [] v ??|].
  intros v l Hlr Hc. cbn [is_err is_ok negb].
  apply wp_bind_ok, (consume_step _ _ l); [done..|by intros [[]|] u ??|]. intros u Hu.
  apply wp_bind, (save_step _ _ _ _ _ _ Hu); [by intros; eapply p_consumed|by intros [] ? ??|].
  intros v2 l2 Hl2 Hc2. cbn [is_err is_ok negb].
  apply wp_bind, (save_step _ _ _ _ _ _ Hc2); [by intros; eapply (p_mutating _ _ [])|by intros [] ? ??|].
  intros v3 l3 Hl3 Hc3. cbn [is_err is_ok negb].
  assert (passed v3) by (destruct Hc3; split_and!; try done; by exists l3, l, []).
  apply wp_ret; [by apply passed_at_work|done].
Qed.

Lemma at_work_called w : at_work w -> gateCalled (memory w) = true -> called w (ledger w) (events w).
Proof. intros (Hp & Hb & _) Hg. by split. Qed.

Lemma fail_ambiguous_spec w : at_work w -> wp at_work fail_ambiguous (fun _ v => at_work v) w.
Proof.
  intros Hw. unfold fail_ambiguous. apply wp_bind, wp_get; [done|].
  destruct (gateCalled (memory w)) eqn:Hg; [|by apply wp_ret].
  apply wp_bind, (save_step _ _ _ _ _ _ (at_work_called w Hw Hg)).
  - intros l' Hl'. eapply p_ambiguous; [apply Hw|done].
  - intros x v _ Hv. by apply wp_ret.
  - intros v l' _ Hv. by apply wp_ret; eapply called_at_work.
Qed.

(** What the outcome of a request says about the host. *)
Definition settled (o : Outcome.t) (w : world) : Prop :=
  (forall r, Outcome.Result o = Some r ->
     o = finished plan r /\ result_final r = true /\
     (exists l, ledger w = Some l /\ rec_of base remoteLedgerTerminal (Some r) l) /\
     exists raw, bindRemoteApplyResult plan raw = (r, true)) /\
  (o = executorFailure "mutation_precondition_failed" -> ledger w = L0 /\ events w = E0).

Lemma settled_failure o w :
  Outcome.Result o = None -> o <> executorFailure "mutation_precondition_failed" -> settled o w.
Proof. intros Hr Hn. split; [by rewrite Hr|done]. Qed.

Lemma settle_spec ans w :
  at_work w -> (is_ok ans = true -> passed w) -> wp at_work (settle plan ans) settled w.
Proof.
  intros Hw Hok. unfold settle. destruct ans as [raw|e].
  - destruct (bindRemoteApplyResult plan raw) as [bound ok] eqn:Eb.
    destruct (negb ok || negb (result_final bound)) eqn:Ef.
    + apply wp_bind. eapply wp_mono; [|by apply fail_ambiguous_spec]. intros [] v _ Hv.
      apply wp_ret; [done|]. by apply settled_failure.
    + bool_to_prop. subst ok. specialize (Hok eq_refl). pose proof Hok as (Hg & _ & l & l1 & ms & El & Ee & R1 & R2 & R3).
      apply wp_bind, (save_step _ _ _ _ _ _ (at_work_called w Hw Hg)).
      * intros l' Hl'. rewrite Ee. by eapply p_terminal.
      * intros x v Hx Hv. rewrite Hx. apply wp_ret; [done|]. by apply settled_failure.
      * intros v l' Hl' Hv. cbn [is_err is_ok negb]. apply wp_ret; [by eapply called_at_work|].
        split; [|by vm_compute]. intros r [= <-]. destruct Hv. split_and!; eauto.
  - apply wp_bind, wp_get; [done|]. destruct (gateCalled (memory w)) eqn:Hg.
    + apply wp_bind. eapply wp_mono; [|by apply fail_ambiguous_spec]. intros [] v _ Hv.
      apply wp_ret; [done|]. by apply settled_failure.
    + apply wp_ret; [done|]. split; [done|]. intros _. by apply Hw.
Qed.
End Request.

(** The record that a request works on. *)
Definition claimed (l : Ledger.t) (plan : MutationPlan.t) (operation : string) : Ledger.t :=
  l <| Ledger.Operation := operation |> <| Ledger.SessionID := MutationPlan.SessionID plan |>
    <| Ledger.PlanSHA256 := MutationPlan.PlanSHA256 plan |>
    <| Ledger.LeaseGeneration := MutationPlan.LeaseGeneration plan |>.

Section Dispatch.
Context (docker : Backend) `{!GatedBackend docker}.

#[export] Instance backend_gated target : GatedBackend (backend_of docker target).
Proof. unfold backend_of. destruct (_ ==? _); apply _. Qed.

Lemma run_mutation_spec cfg target plan operation rt l stage w :
  ledger w = Some l ->
  wp (fun v => progress (claimed l plan operation) plan operation (Some l) (events w) (ledger v) (events v))
     (run_mutation docker cfg target plan operation rt l stage)
     (settled (claimed l plan operation) plan (Some l) (events w)) w.
Proof.
  intros Hl. set (base := claimed l plan operation). set (E0 := events w). set (L0 := Some l).
  set (I := fun v => progress base plan operation L0 E0 (ledger v) (events v)).
  assert (Hidle : forall m, I (w <| memory := m |>)) by (intros m; unfold I; cbn; rewrite Hl; apply p_idle).
  unfold run_mutation. cbv zeta. fold (claimed l plan operation) base.
  apply wp_bind, wp_put; [specialize (Hidle (memory w)); by destruct w|done|].
  apply (wp_weaken (at_work base plan operation L0 E0)); [by intros v []|].
  assert (Hb : based base (mk_vars false base)).
  { exists (Ledger.State base), (Ledger.Result base). by destruct l. }
  apply wp_bind, wp_call; [by apply start_at_work|]. intros ans now w1 E1.
  assert (exists t, w1 = w <| memory := mk_vars false base |> <| clock := t |>) as [t ->].
  { cbn in E1. destruct ans; try discriminate E1; injection E1 as <- <-; [by exists (clock w)|eauto]. }
  assert (Hs : at_work base plan operation L0 E0 (w <| memory := mk_vars false base |> <| clock := t |>))
    by by apply start_at_work.
  split; [done|]. apply wp_bind.
  eapply wp_mono; [intros ans' v Hv Hp; apply settle_spec; [exact Hv|exact Hp]|]. branch.
  - apply gated_apply; [apply passed_closed|apply passed_at_work|by apply gate_spec].
  - apply wp_bind_ok. eapply wp_mono; [|by apply gate_spec]. intros [[]|e] v Hv Hr; [|done].
    specialize (Hr eq_refl). eapply wp_weaken; [apply passed_at_work|].
    eapply wp_mono; [|apply gated_reconcile; [apply passed_closed|exact Hr]]. done.
Qed.

(** ** Loading and refusing *)

(** The ledger that a request is checked against is the durable one. *)
Lemma load_spec (I : world -> Prop) targetID Q w :
  I w -> (forall e, Q (Err e) w) ->
  (ledger w = None -> Q (Ok None) w) ->
  (forall l, ledger w = Some l -> validate_ledger l targetID = Ok tt -> Q (Ok (Some l)) w) ->
  wp I (call (LoadLedger targetID)) Q w.
Proof.
  intros HI HE HN HS. apply wp_call; [done|]. intros ans x w' E. cbn in E. unfold observed in E.
  assert (w' = w /\ (x = load_ledger w targetID \/ x = failed)) as [-> Hx] by (destruct ans; by simplify_eq; auto).
  split; [done|]. destruct Hx as [-> | ->]; [|apply HE]. unfold load_ledger.
  destruct (ledger w) as [l|] eqn:El; [|auto].
  destruct (validate_ledger l targetID) as [[]|] eqn:Ev; cbn; auto.
Qed.

Lemma validate_stage_observes (I : world -> Prop) cfg target plan stage Q w :
  I w -> (forall r, Q r w) -> wp I (validateExecutorStage cfg target plan stage) Q w.
Proof.
  intros HI HQ. unfold validateExecutorStage. destruct stage; [|by apply wp_ret].
  branch; [by apply wp_ret|]. apply wp_bind. observe. branch; [by apply wp_ret|]. branch; by apply wp_ret.
Qed.

Lemma managed_version_observes (I : world -> Prop) target Q w :
  I w -> (forall r, Q r w) -> wp I (managedRemoteCurrentVersion target) Q w.
Proof.
  intros HI HQ. unfold managedRemoteCurrentVersion. branch.
  - apply wp_bind, currentRelease_observes; [done|]. intros [[[[c d] v]|]|]; repeat branch; by apply wp_ret.
  - branch; [|by apply wp_ret]. apply wp_bind. observe. destruct x as [[[data m] []]|]; cbv zeta; repeat case_match; by apply wp_ret.
Qed.

Lemma current_version_observes (I : world -> Prop) target plan Q w :
  I w -> (forall r, Q r w) -> wp I (verifyMutationPlanCurrentVersion target plan) Q w.
Proof.
  intros HI HQ. unfold verifyMutationPlanCurrentVersion. branch; [by apply wp_ret|].
  apply wp_bind, managed_version_observes; [done|]. intros []; by apply wp_ret.
Qed.

(** A request that the ledger refuses cleans up, at most, stages that no live
    record refers to. *)
Lemma cleanup_spec (I : world -> Prop) cfg plan Q w :
  (forall v, I v -> forall root, I (log (EStageRemoved root) v)) -> I w ->
  (forall r v, I v -> Q r v) -> wp I (cleanupRemoteOrphanStage cfg plan) Q w.
Proof.
  intros Hlog HI HQ. unfold cleanupRemoteOrphanStage. destruct (remoteOrphanStageRoots cfg plan) as [roots|e];
    [|by apply wp_ret; auto].
  revert w HI. induction roots as [|root roots IH]; intros w HI; cbn [remove_orphans]; [by apply wp_ret; auto|].
  branch; [by apply wp_ret; auto|]. apply wp_bind, wp_call; [done|]. intros ans x w' E. cbn in E.
  assert (I w') by (unfold effectful in E; destruct ans; simplify_eq; auto).
  split; [done|]. branch; [by apply wp_ret; auto|]. by apply IH.
Qed.
End Dispatch.
End Safety.

(** * Write-ahead order *)

Definition event_ok (e : event * option Ledger.t) : Prop :=
  match e with
  | (EGrant operation jobID planSHA256 sessionID, Some l) =>
      Ledger.State l = remoteLedgerGrantConsuming /\ Ledger.Operation l = operation /\
      Ledger.JobID l = jobID /\ Ledger.PlanSHA256 l = planSHA256 /\ Ledger.SessionID l = sessionID
  | (EMutation _, Some l) => Ledger.State l = remoteLedgerMutating
  | (EStageRemoved root, Some l) =>
      Ledger.State l = remoteLedgerTerminal \/
      exists stage, Ledger.Stage l = Some stage /\ pathWithin root (Stage.RootDir stage) = false
  | (EStageRemoved _, None) => True
  | (_, None) => False
  end.

Section Order.
Context `{UnicodeTables} `{TimeZones}.
Context (docker : Backend) `{!GatedBackend docker}.

Definition ordered (w : world) : Prop := Forall event_ok (events w).

Lemma grant_ok base l plan operation :
  rec_of base remoteLedgerGrantConsuming None l -> Ledger.JobID base = MutationPlan.JobID plan ->
  Ledger.Operation base = operation -> Ledger.PlanSHA256 base = MutationPlan.PlanSHA256 plan ->
  Ledger.SessionID base = MutationPlan.SessionID plan -> event_ok (the_grant plan operation, Some l).
Proof. intros [t ->] **. done. Qed.

Lemma mutation_ok base l e : rec_of base remoteLedgerMutating None l -> mutation_of l e -> event_ok e.
Proof. by intros [t ->] [what ->]. Qed.

Lemma progress_ordered l0 plan operation L0 E0 L E :
  Ledger.JobID l0 = MutationPlan.JobID plan -> Forall event_ok E0 ->
  progress (claimed l0 plan operation) plan operation L0 E0 L E -> Forall event_ok E.
Proof.
  intros Hj HE Hp. induction Hp; try done; apply Forall_app; (split; [done|]); constructor; try done;
    try (by eapply grant_ok); (eapply Forall_impl; [eassumption|]); intros; by eapply mutation_ok.
Qed.

Lemma request_admitted l plan operation :
  remoteLedgerRequestFailure l plan operation = "" -> Ledger.JobID l = MutationPlan.JobID plan.
Proof. unfold remoteLedgerRequestFailure. case_bool_decide; [done|]. cbn. by case_match. Qed.

(** Saving a record changes no event. *)
Lemma ordered_save l Q w :
  ordered w -> (forall x v, ordered v -> Q x v) -> wp ordered (call (SaveLedger l)) Q w.
Proof.
  intros Ho HQ. apply wp_call; [done|]. intros ans x w' [[_ ->]|[t ->]]%save_effect; by split; [|apply HQ].
Qed.

Lemma stage_fresh_ordered cfg plan previous w :
  ordered w -> wp ordered (stage_fresh cfg plan previous) (fun _ _ => True) w.
Proof.
  intros Ho. unfold stage_fresh. apply wp_bind, wp_observe; [done..|]. intros [stage|e]; [|by apply wp_ret].
  apply wp_bind, wp_call; [done|]. intros ans x w' E. apply save_effect in E as [[Hx ->]|[t ->]].
  - rewrite Hx. by split.
  - split; [done|]. branch; [by apply wp_ret|]. apply wp_bind. unfold cleanupRemoteTerminalStage.
    destruct (terminal_stage_root cfg previous (Stage.RootDir stage)) as [root|] eqn:Er; [|by apply wp_ret].
    assert (Hout : pathWithin root (Stage.RootDir stage) = false).
    { unfold terminal_stage_root in Er. repeat case_match; simplify_eq; by bool_to_prop. }
    apply wp_bind, wp_call; [done|]. intros ans' x' w' E. cbn in E.
    assert (ordered w').
    { unfold effectful in E. destruct ans'; simplify_eq; try exact Ho;
        (apply Forall_app; split; [exact Ho|]; apply Forall_singleton; right; by exists stage). }
    split; [done|]. by apply wp_ret; [|apply wp_ret].
Qed.

Lemma stage_request_ordered cfg target plan w :
  ordered w -> wp ordered (executorStageRequest cfg target plan (ledger w)) (fun _ _ => True) w.
Proof.
  intros Ho. unfold executorStageRequest. destruct (ledger w) as [l|]; [|by apply stage_fresh_ordered].
  branch.
  - branch; [by apply wp_ret|]. apply wp_bind.
    assert (G : forall valid : check, wp ordered match valid, Ledger.Stage l with
      | Ok _, Some stage =>
          let* unchanged := verifyMutationPlanCurrentVersion target plan in
          match unchanged with
          | Ok _ => Ret (staged_outcome plan stage)
          | Err e => Ret (executorFailureWithMessage "stage_failed" (remoteStageFailureMessage e))
          end
      | _, _ => if Ledger.State l ==? remoteLedgerTerminal then Ret (executorFailure "already_terminal")
                else Ret (executorFailure "reconcile_required")
      end (fun _ _ => True) w).
    { intros valid. destruct valid as [[]|], (Ledger.Stage l); try (branch; by apply wp_ret).
      apply wp_bind, current_version_observes; [done|]. intros []; by apply wp_ret. }
    branch; [by apply validate_stage_observes|apply wp_ret; [done|exact (G (Err "not staged"))]].
  - branch; [by apply wp_ret|]. by apply stage_fresh_ordered.
Qed.

Lemma refuse_ordered cfg plan code w :
  match ledger w with Some l => Ledger.State l = remoteLedgerTerminal | None => True end ->
  ordered w -> wp ordered (refuse_after_cleanup cfg plan code) (fun _ _ => True) w.
Proof.
  intros Hl Ho. unfold refuse_after_cleanup.
  apply (wp_weaken (fun v => ordered v /\ ledger v = ledger w)); [by intros v []|].
  apply wp_bind, cleanup_spec; [|done|].
  - intros v [Hv El] root. split; [|done]. apply Forall_app. split; [done|]. apply Forall_singleton. cbn. rewrite El.
    destruct (ledger w); [by left|done].
  - intros r v Hv. branch; by apply wp_ret.
Qed.

Lemma mutation_request_ordered cfg target plan operation rt w :
  ordered w ->
  wp ordered (executorMutationRequest docker cfg target plan operation rt (ledger w)) (fun _ _ => True) w.
Proof.
  intros Ho. unfold executorMutationRequest. destruct (ledger w) as [l|] eqn:El.
  2:{ branch; [|by apply wp_ret]. apply refuse_ordered; [by rewrite El|done]. }
  cbv zeta. destruct (remoteLedgerRequestFailure l plan operation !=? "") eqn:Ef.
  { destruct (_ && _) eqn:Ec; [|by apply wp_ret]. apply refuse_ordered; [|done]. rewrite El. by bool_to_prop. }
  destruct (Ledger.State l ==? remoteLedgerTerminal).
  { destruct (Ledger.Result l) as [r|]; [|by apply wp_ret].
    destruct (bindRemoteApplyResult plan r). branch; by apply wp_ret. }
  bool_to_prop. apply request_admitted in Ef.
  apply wp_bind, validate_stage_observes; [done|]. intros [[]|]; [|by apply wp_ret].
  destruct (Ledger.Stage l) as [stage|]; [|by apply wp_ret].
  branch; [by apply wp_ret|]. branch.
  - unfold abandon_staged. cbv zeta. apply wp_bind, ordered_save; [done|]. intros x v Hv. branch; by apply wp_ret.
  - eapply wp_mono; [|eapply wp_weaken; [|by apply run_mutation_spec]]; [done|].
    intros v Hv. eapply progress_ordered; [exact Ef|exact Ho|exact Hv].
Qed.

(** Every entry point of the executor for one target. *)
Inductive mutation_entry : prog op Outcome.t -> Prop :=
| entry cfg target plan operation rt :
    mutation_entry (handle_mutation docker cfg target plan operation rt).

Lemma handle_ordered p w : mutation_entry p -> ordered w -> wp ordered p (fun _ _ => True) w.
Proof.
  intros [cfg target plan operation rt] Ho. unfold handle_mutation.
  assert (G : forall l, ledger w = l -> wp ordered (if operation ==? "stage" then executorStageRequest cfg target plan l
    else if (operation ==? "apply") || (operation ==? "reconcile")
         then executorMutationRequest docker cfg target plan operation rt l
         else Ret (executorFailure "invalid_request")) (fun _ _ => True) w).
  { intros l <-. branch; [by apply stage_request_ordered|]. branch; [by apply mutation_request_ordered|by apply wp_ret]. }
  apply wp_bind, load_spec; [done|by intros; apply wp_ret|intros E; by apply G|intros l E _; by apply G].
Qed.

(** C14.  Write-ahead order, at every crash point of every sequence of stage, apply
    and reconcile requests: a grant is presented to the Panel only while the durable
    ledger says [grant_consuming] for exactly that job, plan, session and operation;
    the target is touched only while the durable ledger says [mutating]; and a stage
    directory is removed only if no unsettled record refers to it.  This holds for
    any backend of the other deployment mode that waits for the gate. *)
Theorem mutation_is_write_ahead w v :
  events w = [] -> history mutation_entry w v -> Forall event_ok (events v).
Proof.
  intros He Hh. apply (history_invariant mutation_entry ordered w v); [|unfold ordered; by rewrite He|done].
  intros p u Hp Hu. by apply handle_ordered.
Qed.
End Order.

(** * Replay protection *)

Definition is_apply_grant (e : event * option Ledger.t) : bool :=
  match e.1 with EGrant operation _ _ _ => operation ==? "apply" | _ => false end.

Definition apply_grants (w : world) : nat := length (List.filter is_apply_grant (events w)).

Section Replay.
Context `{UnicodeTables} `{TimeZones}.
Context (docker : Backend) `{!GatedBackend docker}.

(** The release is still staged and its grant unused, or it is not staged any
    more and its grant was presented at most once. *)
Definition one_shot (w : world) : Prop :=
  exists l, ledger w = Some l /\
    if Ledger.State l ==? remoteLedgerStaged then apply_grants w = 0 else apply_grants w <= 1.

Definition count (evs : list (event * option Ledger.t)) : nat := length (List.filter is_apply_grant evs).

Lemma count_app a b : count (a ++ b) = count a + count b.
Proof. unfold count. by rewrite List.filter_app, length_app. Qed.

Lemma count_mutations l ms : Forall (mutation_of l) ms -> count ms = 0.
Proof. induction 1 as [|x ms [what ->] _ IH]; [done|exact IH]. Qed.

Lemma progress_one_shot l plan operation E0 L E :
  (operation = "apply" -> count E0 = 0) -> count E0 <= 1 ->
  progress (claimed l plan operation) plan operation (Some l) E0 L E ->
  (L = Some l /\ E = E0) \/
  exists l', L = Some l' /\ Ledger.State l' <> remoteLedgerStaged /\ count E <= 1.
Proof.
  intros Ha Hle Hp.
  assert (Hg : forall x, count [(the_grant plan operation, x)] + count E0 <= 1).
  { intros x. unfold count at 1. cbn. case_bool_decide as Eo; cbn; [|done]. by rewrite Ha. }
  assert (Hm : forall l1 l2 ms, Forall (mutation_of l2) ms -> count (E0 ++ (the_grant plan operation, Some l1) :: ms) <= 1).
  { intros l1 l2 ms Hms. rewrite (cons_middle _ _ ms), !count_app, (count_mutations l2 ms Hms). specialize (Hg (Some l1)). lia. }
  assert (Hn : forall s' r' l', s' <> remoteLedgerStaged -> rec_of (claimed l plan operation) s' r' l' ->
    Ledger.State l' <> remoteLedgerStaged) by by intros s' r' l' ? [t ->].
  induction Hp as [|l1 R1|l1 R1|l2 l1 R1 R2|l2 l1 ms R1 R2 Hms|l2 l3 evs _ IH R3|l2 l1 l3 ms r R1 R2 Hms Hr R3];
    [by left|right; eexists; (split; [done|]); (split; [eapply Hn; [|eassumption]; done|])..].
  - done.
  - by apply (Hm l1 l1 []).
  - by apply (Hm l1 l1 []).
  - by eapply Hm.
  - by destruct IH as [[_ ->]|(? & _ & _ & ?)].
  - by eapply Hm.
Qed.

Lemma one_shot_le w : one_shot w -> apply_grants w <= 1.
Proof. intros (l & _ & Hc). destruct (_ ==? _); lia. Qed.

Lemma one_shot_used w l :
  ledger w = Some l -> Ledger.State l <> remoteLedgerStaged -> apply_grants w <= 1 -> one_shot w.
Proof. intros El Hs Hc. exists l. split; [done|]. by rewrite bool_decide_eq_false_2. Qed.

Lemma one_shot_request cfg target plan operation rt l w :
  ledger w = Some l -> one_shot w ->
  wp one_shot (executorMutationRequest docker cfg target plan operation rt (Some l)) (fun _ _ => True) w.
Proof.
  intros El Ho. unfold executorMutationRequest. cbv zeta. destruct (_ !=? "") eqn:Ef.
  { branch; [|by apply wp_ret]. unfold refuse_after_cleanup. apply wp_bind, cleanup_spec; [|done|].
    - intros v (l' & Hl' & Hv) root. exists l'. split; [done|]. unfold apply_grants, log in *. cbn.
      by rewrite List.filter_app, length_app, Nat.add_0_r.
    - intros r v Hv. branch; by apply wp_ret. }
  destruct (Ledger.State l ==? remoteLedgerTerminal).
  { destruct (Ledger.Result l) as [r|]; [|by apply wp_ret]. destruct (bindRemoteApplyResult plan r).
    branch; by apply wp_ret. }
  apply wp_bind, validate_stage_observes; [done|]. intros [[]|]; [|by apply wp_ret].
  destruct (Ledger.Stage l) as [stage|]; [|by apply wp_ret].
  destruct (_ && (Ledger.State l !=? remoteLedgerStaged)) eqn:Ea; [by apply wp_ret|].
  pose proof (one_shot_le w Ho) as Hle. branch.
  - unfold abandon_staged. cbv zeta. apply wp_bind, wp_call; [done|].
    intros ans x w' E. assert (Hw' : one_shot w').
    { apply save_effect in E as [[_ ->]|[t ->]]; [done|]. by eapply one_shot_used. }
    split; [done|]. branch; by apply wp_ret.
  - eapply wp_mono; [|eapply wp_weaken; [|by apply run_mutation_spec]]; [done|].
    intros v Hv. apply progress_one_shot in Hv as [[Hl He]|(l' & Hl & Hs & He)].
    + destruct Ho as (l' & El' & Hc). exists l. split; [done|]. unfold apply_grants in *. rewrite He.
      by simplify_eq.
    + by eapply one_shot_used.
    + intros ->. destruct Ho as (l' & El' & Hc). simplify_eq. cbn in Ea. apply negb_false_iff in Ea. by rewrite Ea in Hc.
    + exact Hle.
Qed.

(** The requests that do not stage. *)
Inductive settle_entry : prog op Outcome.t -> Prop :=
| settle_with cfg target plan operation rt :
    operation <> "stage" -> settle_entry (handle_mutation docker cfg target plan operation rt).

(** C15.  An apply grant is used at most once: from a freshly staged release on, no
    sequence of apply and reconcile requests, crashes, failed saves and restarts
    included, presents an apply grant to the Panel twice. *)
Theorem apply_grant_presented_at_most_once w v l :
  ledger w = Some l -> Ledger.State l = remoteLedgerStaged -> events w = [] ->
  history settle_entry w v -> apply_grants v <= 1.
Proof.
  intros El Es He Hh.
  apply one_shot_le, (history_invariant settle_entry one_shot w v); [|exists l; split; [done|]|done].
  2:{ unfold apply_grants. rewrite He. destruct (_ ==? _); cbn; lia. }
  intros p u [cfg target plan operation rt Hop] Hu. unfold handle_mutation.
  apply wp_bind, load_spec; [done|by intros; apply wp_ret| |].
  - destruct Hu as (l' & El' & _). by rewrite El'.
  - intros l' El' _. rewrite (bool_decide_eq_false_2 (operation = "stage")) by done.
    branch; [by apply one_shot_request|by apply wp_ret].
Qed.

(** An unsettled update admits nothing but reconcile: while the ledger is
    neither staged nor terminal, stage and apply requests, for whatever plan, leave
    the whole host as it is and are refused. *)
Theorem unsettled_update_only_reconciles cfg target plan operation rt answers w l :
  ledger w = Some l -> Ledger.State l <> remoteLedgerStaged -> Ledger.State l <> remoteLedgerTerminal ->
  operation = "stage" \/ operation = "apply" ->
  let (v, outcome) := run (handle_mutation docker cfg target plan operation rt) answers w in
  v = w /\ forall o, outcome = Some o -> exists code, o = executorFailure code.
Proof.
  intros El Hs Ht Hop.
  assert (G : wp (fun v => v = w) (handle_mutation docker cfg target plan operation rt)
                (fun o _ => exists code, o = executorFailure code) w).
  { unfold handle_mutation. apply wp_bind, load_spec; [done|intros; apply wp_ret; eauto|congruence|].
    intros l' El' _. assert (l' = l) as -> by congruence. destruct Hop as [-> | ->].
    - change ("stage" ==? "stage") with true. cbv iota. unfold executorStageRequest. branch.
      + branch; [apply wp_ret; eauto|]. apply wp_bind.
        rewrite (bool_decide_eq_false_2 (Ledger.State l = remoteLedgerStaged)) by done.
        rewrite (bool_decide_eq_false_2 (Ledger.State l = remoteLedgerTerminal)) by done.
        apply wp_ret; [done|]. apply wp_ret; eauto.
      + rewrite (bool_decide_eq_false_2 (Ledger.State l = remoteLedgerTerminal)) by done. apply wp_ret; eauto.
    - change ("apply" ==? "stage") with false. change ("apply" ==? "apply") with true. cbn [orb]. cbv iota.
      unfold executorMutationRequest. cbv zeta.
      rewrite (bool_decide_eq_false_2 (Ledger.State l = remoteLedgerTerminal)) by done.
      rewrite (bool_decide_eq_false_2 (Ledger.State l = remoteLedgerStaged)) by done.
      branch; [rewrite andb_false_r; cbn [andb]; apply wp_ret; eauto|].
      apply wp_bind, validate_stage_observes; [done|]. intros [[]|]; destruct (Ledger.Stage l); apply wp_ret; eauto. }
  apply (wp_sound _ _ _ answers) in G as [G1 G2]. destruct (run _ answers w) as [v o]. split; [done|]. intros o' ->. eauto.
Qed.
End Replay.

(** * Outcomes *)

Section Outcomes.
Context `{UnicodeTables} `{TimeZones}.
Context (docker : Backend) `{!GatedBackend docker}.

(** The result is recorded in the durable terminal ledger of this job and names
    the digest of this plan. *)
Definition on_record (plan : MutationPlan.t) (o : Outcome.t) (w : world) : Prop :=
  forall r, Outcome.Result o = Some r ->
  o = finished plan r /\ result_final r = true /\
  ApplyResult.ArtifactDigest r = normalizeDigest (normalizeDigest (MutationPlan.ResultArtifactDigest plan)) /\
  exists l recorded, ledger w = Some l /\ Ledger.State l = remoteLedgerTerminal /\
    Ledger.JobID l = MutationPlan.JobID plan /\ Ledger.Result l = Some recorded /\
    (recorded = r \/ bindRemoteApplyResult plan recorded = (r, true)).

Lemma failure_on_record plan code w : on_record plan (executorFailure code) w.
Proof. intros r. unfold executorFailure. by repeat case_match. Qed.

Lemma failure_message_on_record plan code message w : on_record plan (executorFailureWithMessage code message) w.
Proof.
  intros r Hr. exfalso. revert Hr. unfold executorFailureWithMessage. cbv zeta.
  pose proof (failure_on_record plan code w) as Hf. unfold executorFailure in *. by repeat case_match.
Qed.

Lemma bind_digest plan raw r : bindRemoteApplyResult plan raw = (r, true) ->
  ApplyResult.ArtifactDigest r = normalizeDigest (normalizeDigest (MutationPlan.ResultArtifactDigest plan)) /\
  ApplyResult.Status r = ApplyResult.Status raw.
Proof. unfold bindRemoteApplyResult. cbv zeta. case_match; [done|]. by intros [= <-]. Qed.

Lemma validate_terminal l targetID : validate_ledger l targetID = Ok tt -> Ledger.State l = remoteLedgerTerminal ->
  exists r, Ledger.Result l = Some r /\ result_final r = true.
Proof.
  unfold validate_ledger, validate_ledger_state. cbv zeta. intros Hv Hs. do 2 (ok_step Hv). ok_step Hv.
  rewrite Hs in E1. cbn in E1. destruct (Ledger.Result l) as [r|]; [|done]. destruct (result_final r) eqn:Ef; [eauto|done].
Qed.

Lemma save_ok l ans w w' : handle (SaveLedger l) ans w = Some (Ok tt, w') ->
  exists t, w' = w <| ledger := Some (l <| Ledger.SchemaVersion := remoteLedgerSchemaVersion |> <| Ledger.UpdatedAt := t |>) |> /\
    (Ledger.State l = remoteLedgerTerminal -> exists r, Ledger.Result l = Some r /\ result_final r = true).
Proof.
  unfold handle, mutation_handler, op_handler, write_ledger, prepare_ledger. cbv zeta.
  destruct (validate_ledger _ _) as [[]|] eqn:Ev; cbn [bind_res]; [|done].
  intros E. eexists. unfold effectful in E. destruct ans; try done. injection E as <-. split; [done|].
  apply (validate_terminal _ _ Ev).
Qed.

Abbreviation recorded plan p w := (wp (fun _ => True) p (on_record plan) w).

Lemma abandon_recorded plan operation l w :
  Ledger.JobID l = MutationPlan.JobID plan -> recorded plan (abandon_staged plan operation l) w.
Proof.
  intros Hj. unfold abandon_staged. cbv zeta. apply wp_bind, wp_call; [done|]. intros ans x w' E. split; [done|].
  destruct x as [[]|]; cbn [is_err is_ok negb]; apply wp_ret; try done.
  apply save_ok in E as (t & -> & Hr). destruct (Hr eq_refl) as (r & Er & Hf). cbn in Er. injection Er as <-.
  intros r [= <-]. split; [done|]. split; [done|].
  set (raw := ApplyResult.mk "rolled_back" "" "" true "staged release was not applied") in *.
  destruct (bindRemoteApplyResult plan raw) as [r ok] eqn:Eb. cbn [fst] in *.
  assert (ok = true) as -> by (unfold bindRemoteApplyResult in Eb; cbv zeta in Eb; case_match; by simplify_eq).
  split; [by apply (bind_digest _ raw)|]. do 2 eexists. split; [reflexivity|]. by split_and!; [..|left].
Qed.

Lemma request_recorded cfg target plan operation rt l w :
  ledger w = Some l -> validate_ledger l (MutationPlan.TargetID plan) = Ok tt ->
  recorded plan (executorMutationRequest docker cfg target plan operation rt (Some l)) w.
Proof.
  intros El Hv. unfold executorMutationRequest. cbv zeta. pose proof (failure_on_record plan) as HF.
  destruct (_ !=? "") eqn:Ef.
  { branch; [|by apply wp_ret]. unfold refuse_after_cleanup. apply wp_bind, cleanup_spec; [done..|].
    intros r v _. branch; by apply wp_ret. }
  bool_to_prop. apply request_admitted in Ef.
  destruct (Ledger.State l ==? remoteLedgerTerminal) eqn:Et.
  { bool_to_prop. destruct (validate_terminal _ _ Hv Et) as (r & Er & Hf). rewrite Er.
    destruct (bindRemoteApplyResult plan r) as [bound []] eqn:Eb; [|by apply wp_ret]. apply wp_ret; [done|].
    intros r' [= <-]. destruct (bind_digest _ _ _ Eb) as [Ed Es]. unfold result_final in *. rewrite Es.
    split_and!; [done..|]. exists l, r. split_and!; auto. }
  apply wp_bind, validate_stage_observes; [done|]. intros [[]|]; [|by apply wp_ret].
  destruct (Ledger.Stage l) as [stage|]; [|by apply wp_ret].
  branch; [by apply wp_ret|]. branch; [by apply abandon_recorded|].
  eapply wp_mono; [|eapply wp_weaken; [|by apply run_mutation_spec]]; [|done].
  intros o v _ [Ho _] r Hr. destruct (Ho r Hr) as (-> & Hf & (l' & El' & t & ->) & raw & Eb).
  split_and!; [done|done|by apply (bind_digest _ raw)|]. do 2 eexists. split; [exact El'|]. by split_and!; [..|left].
Qed.

Lemma stage_recorded cfg target plan l w : recorded plan (executorStageRequest cfg target plan l) w.
Proof.
  pose proof (failure_on_record plan) as HF. pose proof (failure_message_on_record plan) as HM.
  assert (Hfresh : forall previous, recorded plan (stage_fresh cfg plan previous) w).
  { intros previous. unfold stage_fresh. apply wp_bind, wp_observe; [done..|]. intros [stage|e]; [|by apply wp_ret].
    apply wp_bind, wp_call; [done|]. intros ans x v _. split; [done|]. branch; [by apply wp_ret|]. apply wp_bind.
    unfold cleanupRemoteTerminalStage. branch; [|by apply wp_ret; [|apply wp_ret]].
    apply wp_bind, wp_call; [done|]. intros. split; [done|]. by apply wp_ret; [|apply wp_ret]. }
  unfold executorStageRequest. destruct l as [l|]; [|done]. branch; [|branch; [by apply wp_ret|done]].
  branch; [by apply wp_ret|]. apply wp_bind. branch; [apply validate_stage_observes; [done|]; intros valid|apply wp_ret; [done|]].
  - destruct valid, (Ledger.Stage l); try (branch; by apply wp_ret).
    apply wp_bind, current_version_observes; [done|]. intros []; by apply wp_ret.
  - branch; by apply wp_ret.
Qed.

(** A reported result is durable and bound to the plan: whenever a request
    answers with a result, that result is final, names the artifact digest of the
    plan, echoes its session and plan digest, and is the one recorded in the terminal
    ledger of this job on disk; so a retry after a lost answer reports the same. *)
Theorem reported_results_are_durable cfg target plan operation rt answers w v o r :
  run (handle_mutation docker cfg target plan operation rt) answers w = (v, Some o) ->
  Outcome.Result o = Some r ->
  o = finished plan r /\ result_final r = true /\
  ApplyResult.ArtifactDigest r = normalizeDigest (normalizeDigest (MutationPlan.ResultArtifactDigest plan)) /\
  exists l recorded, ledger v = Some l /\ Ledger.State l = remoteLedgerTerminal /\
    Ledger.JobID l = MutationPlan.JobID plan /\ Ledger.Result l = Some recorded /\
    (recorded = r \/ bindRemoteApplyResult plan recorded = (r, true)).
Proof.
  intros Hrun Hr.
  assert (G : recorded plan (handle_mutation docker cfg target plan operation rt) w).
  { unfold handle_mutation. pose proof (failure_on_record plan) as HF.
    apply wp_bind, load_spec; [done|by intros; apply wp_ret| |].
    - intros El. branch; [apply stage_recorded|]. branch; [|by apply wp_ret]. unfold executorMutationRequest.
      branch; [|by apply wp_ret]. unfold refuse_after_cleanup. apply wp_bind, cleanup_spec; [done..|].
      intros r' v' _. branch; by apply wp_ret.
    - intros l El Hv. branch; [apply stage_recorded|]. branch; [by apply request_recorded|by apply wp_ret]. }
  apply (wp_sound _ _ _ answers) in G as [_ G]. rewrite Hrun in G. by apply (G o eq_refl).
Qed.
End Outcomes.
