(* ===== verification/SystemdCutover.v ===== *)
(** The cutover of a systemd target under the mutation executor: what the host
    looks like at every crash point, what a result says about it, how an
    interrupted cutover is recovered, and the one checkpoint that recovery cannot
    get past. *)
From Stdlib Require Import Ascii String ZArith Lia.
From stdpp Require Import base decidable list strings gmap.
From S2P Require Import Prelude Strings Regexp Patterns Effects Sha256 Json Paths PlanDigest MutationLedger MutationExec MutationSafety.

Open Scope string_scope.

(** * Framing the executor

    The executor itself only touches the ledger, the captured variables, the clock
    and the log of events; [frame] lists what a predicate must put up with. *)
Section Frames.
Context `{UnicodeTables} `{TimeZones}.
Context (base : Ledger.t) (plan : MutationPlan.t) (operation : string).

Record frame (I : world -> Prop) (saves : string -> option ApplyResult.t -> Prop) : Prop := {
  fr_memory : forall v m, I v -> I (v <| memory := m |>);
  fr_clock : forall v t, I v -> I (v <| clock := t |>);
  fr_log : forall v e, I v -> I (log e v);
  fr_save : forall v s r l, saves s r -> rec_of base s r l -> I v -> I (v <| ledger := Some l |>);
}.

(** The saves of the gate and of a failed request. *)
Definition unfinished (s : string) (r : option ApplyResult.t) : Prop :=
  r = None /\ s <> remoteLedgerStaged /\ s <> remoteLedgerTerminal.

Lemma now_frame (I : world -> Prop) Q w :
  (forall v t, I v -> I (v <| clock := t |>)) -> I w ->
  (forall x v, I v -> memory v = memory w -> Q x v) -> wp I (call Now) Q w.
Proof.
  intros Hc HI HQ. apply wp_call; [done|]. intros ans x w' E. cbn in E.
  destruct ans; try discriminate E; injection E as <- <-.
  - split; [done|]. by apply HQ.
  - split; [by apply (Hc w)|]. apply HQ; [by apply (Hc w)|done].
Qed.

Lemma save_frame I saves s r Q w :
  frame I saves -> saves s r -> based base (memory w) -> I w ->
  (forall x v, I v -> based base (memory v) -> Q x v) -> wp I (save_working s r) Q w.
Proof.
  intros Hf Hs Hb HI HQ.
  assert (I (w <| memory := set_working s r (memory w) |>)) by by apply (fr_memory _ _ Hf).
  apply (save_working_spec base); auto.
  - intros l Hl. by eapply (fr_save _ _ Hf).
  - intros x _. apply HQ; [done|by apply based_set].
  - intros x l Hl. apply HQ; [by eapply (fr_save _ _ Hf)|by apply based_set].
Qed.

Lemma gate_frame I saves cfg rt deadline w :
  frame I saves -> (forall s r, unfinished s r -> saves s r) -> based base (memory w) -> I w ->
  wp I (gate cfg plan operation rt deadline) (fun _ v => I v /\ based base (memory v)) w.
Proof.
  intros Hf Hu Hb HI. unfold gate. apply wp_bind, wp_get; [done|]. branch; [by apply wp_ret|].
  apply wp_bind, now_frame; [apply Hf|done|]. intros now v1 H1 Em1. branch; [apply wp_ret; rewrite ?Em1; done|].
  rewrite <- Em1. rewrite <- Em1 in Hb. apply wp_bind, wp_put; [done|by apply Hf..|].
  apply wp_bind. eapply save_frame; [done|by apply Hu|done|by apply Hf|]. intros x v2 H2 B2.
  branch; [by apply wp_ret|]. apply wp_bind_ok, wp_consume; [done| | | |].
  - intros t. by apply Hf.
  - intros t. by do 2 apply Hf.
  - by intros [[]|].
  - intros [[]|] t; [|split; [by do 2 apply Hf|done]].
    apply wp_bind. eapply save_frame; [done|by apply Hu|done|by do 2 apply Hf|]. intros y v3 H3 B3.
    branch; [by apply wp_ret|].
    apply wp_bind. eapply save_frame; [done|by apply Hu|done|done|]. intros z v4 H4 B4.
    branch; by apply wp_ret.
Qed.

Lemma settle_frame I saves ans w :
  frame I saves -> (forall s r, unfinished s r -> saves s r) ->
  (forall raw r, ans = Ok raw -> bindRemoteApplyResult plan raw = (r, true) -> result_final r = true ->
     saves remoteLedgerTerminal (Some r)) ->
  based base (memory w) -> I w ->
  wp I (settle plan ans)
    (fun o v => I v /\ forall r, Outcome.Result o = Some r ->
       exists raw, ans = Ok raw /\ bindRemoteApplyResult plan raw = (r, true)) w.
Proof.
  intros Hf Hu Ht Hb HI.
  assert (Hamb : wp I fail_ambiguous (fun _ v => I v) w).
  { unfold fail_ambiguous. apply wp_bind, wp_get; [done|]. branch; [|by apply wp_ret].
    apply wp_bind. eapply save_frame; [done|by apply Hu|done..|]. intros. by apply wp_ret. }
  unfold settle. destruct ans as [raw|e].
  - destruct (bindRemoteApplyResult plan raw) as [bound ok] eqn:Eb.
    destruct (negb ok || negb (result_final bound)) eqn:Ef.
    + apply wp_bind. eapply wp_mono; [|exact Hamb]. intros [] v _ Hv. by apply wp_ret.
    + bool_to_prop. subst ok. apply wp_bind. eapply save_frame; [done|by eapply Ht|done..|].
      intros x v Hv _. branch; apply wp_ret; try done. split; [done|]. intros r [= <-]. eauto.
  - apply wp_bind, wp_get; [done|]. branch; [|by apply wp_ret].
    apply wp_bind. eapply wp_mono; [|exact Hamb]. intros [] v _ Hv. by apply wp_ret.
Qed.
End Frames.

(** * The checkpoint of another job *)

(** A target whose reconcile refuses the checkpoint of another job, whatever its phase. *)
Class JobBound `{UnicodeTables} (b : Backend) : Prop :=
  bound_reconcile : forall (I : world -> Prop) cp target plan w,
    I w -> checkpoint w = Some cp -> Checkpoint.JobID cp <> ApplyPlan.JobID plan ->
    wp I (bk_reconcile b target plan) (fun r v => is_err r = true /\ v = w) w.

Section Wedged.
Context `{UnicodeTables} `{TimeZones}.
Context (docker : Backend) `{!JobBound docker}.

(** An unsettled update of [jobID] on a target whose checkpoint belongs to another
    job, for instance to the last successful one. *)
Definition wedged (cp : Checkpoint.t) (jobID : string) (w : world) : Prop :=
  checkpoint w = Some cp /\
  exists l, ledger w = Some l /\ Ledger.JobID l = jobID /\ Ledger.State l <> remoteLedgerStaged /\
    Ledger.State l <> remoteLedgerTerminal.

Lemma wedged_frame cp l plan operation :
  frame (claimed l plan operation) (wedged cp (Ledger.JobID l)) unfinished.
Proof.
  split; intros v *; [done..|]. intros (-> & Hs & Ht) [t ->] [Hc _]. split; [done|]. eexists. by split_and!.
Qed.

Lemma load_mismatch (I : world -> Prop) cp target Q w :
  I w -> checkpoint w = Some cp -> (forall e, Q (Err e) w) -> Q (Ok (Some cp)) w -> wp I (call (LoadCheckpoint target)) Q w.
Proof.
  intros HI Hc HE HQ. apply wp_call; [done|]. intros ans x w' E. cbn in E.
  pose proof (observed_same _ _ _ _ _ E) as ->. split; [done|]. unfold observed in E. destruct ans; try discriminate E.
  - injection E as E. unfold load_checkpoint in E. rewrite Hc in E. destruct (Checkpoint.invalid target cp); by subst.
  - injection E as <-. apply HE.
Qed.

#[export] Instance systemd_job_bound : JobBound systemd_backend.
Proof.
  intros I cp target plan w HI Hc Hj. cbn [bk_reconcile systemd_backend]. unfold reconcileSystemd.
  apply wp_bind_ok. eapply load_mismatch; [done|done|done|]. unfold checkpoint_mismatch.
  rewrite bool_decide_eq_false_2 by done. by apply wp_ret.
Qed.

#[local] Instance mode_bound target : JobBound (backend_of docker target).
Proof. unfold backend_of. case_match; apply _. Qed.

Lemma wedged_run cp cfg target plan operation rt l stage w :
  operation <> "apply" ->
  Checkpoint.JobID cp <> MutationPlan.JobID plan -> Ledger.JobID l = MutationPlan.JobID plan ->
  wedged cp (Ledger.JobID l) w ->
  wp (wedged cp (Ledger.JobID l)) (run_mutation docker cfg target plan operation rt l stage) (fun _ _ => True) w.
Proof.
  intros Ho Hj El Hw. pose proof (wedged_frame cp l plan operation) as Hf.
  unfold run_mutation. cbv zeta. fold (claimed l plan operation).
  apply wp_bind, wp_put; [done..|]. apply wp_bind, now_frame; [done..|]. intros now v Hv Em.
  assert (Hb : based (claimed l plan operation) (memory v)).
  { rewrite Em. exists (Ledger.State l), (Ledger.Result l). by destruct l. }
  rewrite (bool_decide_eq_false_2 (operation = "apply")) by done. apply wp_bind, wp_bind_ok.
  assert (Hsettle : forall r u, is_err r = true -> wedged cp (Ledger.JobID l) u ->
    based (claimed l plan operation) (memory u) ->
    wp (wedged cp (Ledger.JobID l)) (settle plan r) (fun _ _ => True) u).
  { intros r u Hr Hu Bu. eapply wp_mono; [|eapply settle_frame; try done]; [done|]. by intros raw r' ->. }
  eapply wp_mono; [|by eapply gate_frame]. intros [[]|e] u _ [Hu Bu]; [|by apply Hsettle].
  eapply wp_mono; [|eapply (bound_reconcile _ cp); [done|apply Hu|done]].
  intros r v' _ [Hr ->]. by apply Hsettle.
Qed.

(** C18.  The checkpoint of an earlier job wedges a target.  A successful update
    leaves its checkpoint behind; if the next update then stops after its gate was
    called and before that checkpoint was replaced (the Panel rejected or did not
    answer the grant, say), reconcile refuses the checkpoint because of its job id,
    every time, on a systemd and on a Docker target: whatever requests follow, and whatever the environment does, the
    update stays unsettled and the stale checkpoint stays in place. *)
Theorem stale_checkpoint_wedges_target cp jobID w v :
  Checkpoint.JobID cp <> jobID -> wedged cp jobID w -> history (mutation_entry docker) w v -> wedged cp jobID v.
Proof.
  intros Hj Hw Hh. apply (history_invariant (mutation_entry docker) (wedged cp jobID) w v); [|done..].
  intros p u [cfg target plan operation rt] (Hc & l & El & <- & Hs & Ht).
  assert (Hu : wedged cp (Ledger.JobID l) u) by (split; [done|]; by exists l).
  unfold handle_mutation. apply wp_bind, load_spec; [done|by intros; apply wp_ret|congruence|].
  intros l' El' _. assert (l' = l) as -> by congruence. branch.
  - unfold executorStageRequest. rewrite (bool_decide_eq_false_2 (Ledger.State l = remoteLedgerTerminal)) by done.
    rewrite (bool_decide_eq_false_2 (Ledger.State l = remoteLedgerStaged)) by done.
    branch; [|by apply wp_ret]. branch; [by apply wp_ret|]. apply wp_bind, wp_ret; [done|]. by apply wp_ret.
  - branch; [|by apply wp_ret]. unfold executorMutationRequest. cbv zeta.
    rewrite (bool_decide_eq_false_2 (Ledger.State l = remoteLedgerTerminal)) by done.
    rewrite (bool_decide_eq_false_2 (Ledger.State l = remoteLedgerStaged)) by done.
    destruct (remoteLedgerRequestFailure l plan operation !=? "") eqn:Ef.
    { rewrite andb_false_r. cbn [andb]. by apply wp_ret. }
    bool_to_prop. apply request_admitted in Ef.
    apply wp_bind, validate_stage_observes; [done|]. intros [[]|]; [|by apply wp_ret].
    destruct (Ledger.Stage l) as [stage|]; [|by apply wp_ret].
    rewrite andb_false_r. cbn [negb]. rewrite andb_true_r.
    destruct (operation ==? "apply") eqn:Eo; [by apply wp_ret|]. bool_to_prop.
    apply wedged_run; try done. congruence.
Qed.
End Wedged.

(** * An apply request

    Around the target, an apply request only frames: what the target guarantees of its own
    state is what the request guarantees. *)
Section ApplyRequest.
Context `{UnicodeTables} `{TimeZones}.
Context (docker : Backend) `{!GatedBackend docker}.

(** The plan that the dispatcher passes to the target. *)
Definition plan_on_stage (plan : MutationPlan.t) (stage : Stage.t) : ApplyPlan.t :=
  (MutationPlan.apply_plan plan) <| ApplyPlan.StageDir := Stage.RootDir stage |>
    <| ApplyPlan.ArtifactDigest := TrimPrefix (normalizeDigest (Stage.ArtifactDigest stage)) "sha256:" |>.

Lemma bound_status plan raw r : bindRemoteApplyResult plan raw = (r, true) -> ApplyResult.Status r = ApplyResult.Status raw.
Proof. unfold bindRemoteApplyResult. cbv zeta. case_match; [done|]. by intros [= <-]. Qed.

(** [U] is the target before its change, [I] the target at every point, and [V] what a
    status says about it. *)
Lemma run_apply_framed (U I : world -> Prop) (V : string -> world -> Prop) cfg target plan rt l stage w :
  let base := claimed l plan "apply" in
  ledger w = Some l -> U w -> (forall v, U v -> I v) ->
  frame base U (fun _ _ => True) -> frame base I (fun _ _ => True) ->
  (forall s, frame base (V s) (fun _ _ => True)) ->
  (forall g v, U v -> wp I g (fun r u => r = Ok tt -> U u) v ->
     wp I (bk_apply (backend_of docker target) target (plan_on_stage plan stage) stage g)
       (fun r u => forall raw, r = Ok raw -> V (ApplyResult.Status raw) u) v) ->
  wp I (run_mutation docker cfg target plan "apply" rt l stage)
    (fun o v => forall r, Outcome.Result o = Some r -> V (ApplyResult.Status r) v) w.
Proof.
  intros base El Hw HI FU FI FV Happly. set (J := at_work base plan "apply" (Some l) (events w)).
  assert (Hb : based base (mk_vars false base)) by (exists (Ledger.State base), (Ledger.Result base); by destruct l).
  unfold run_mutation. cbv zeta. fold (claimed l plan "apply") base (plan_on_stage plan stage).
  assert (U1 : U (w <| memory := mk_vars false base |>)) by by apply FU.
  apply wp_bind, wp_put; [by apply HI..|]. apply wp_bind, wp_call; [by apply HI|]. intros ans now v E.
  assert (exists t, v = w <| memory := mk_vars false base |> <| clock := t |>) as [t ->].
  { cbn in E. destruct ans; try discriminate E; injection E as <- <-; [by exists (clock w)|eauto]. }
  clear E. assert (U2 : U (w <| memory := mk_vars false base |> <| clock := t |>)) by by apply (fr_clock _ _ _ FU).
  split; [by apply HI|]. change ("apply" ==? "apply") with true. cbv iota.
  apply wp_bind. apply (wp_weaken (fun v => I v /\ J v)); [by intros ? []|].
  eapply wp_mono; [|apply wp_and; [apply Happly; [exact U2|]|]].
  2:{ eapply wp_weaken; [exact HI|].
      eapply wp_mono; [|eapply gate_frame; [exact FU|done|done|done]]. by intros r u _ [Hu' _] _. }
  2:{ eapply (gated_apply (b := backend_of docker target)); [apply passed_closed|apply passed_at_work|by apply gate_spec]. }
  intros r u [Hi (_ & Bu & _)] [Hs _]. cbn beta.
  set (K := fun v => I v /\ forall raw, r = Ok raw -> V (ApplyResult.Status raw) v).
  assert (Hf : frame base K (fun _ _ => True)).
  { split; intros v *.
    - intros [? Hv]. split; [by apply FI|]. intros raw Hr. by apply (FV _), Hv.
    - intros [? Hv]. split; [by apply FI|]. intros raw Hr. by apply (FV _), Hv.
    - intros [? Hv]. split; [by apply FI|]. intros raw Hr. by apply (FV _), Hv.
    - intros ? Hl [? Hv]. split; [by eapply FI|]. intros raw Hr. by eapply (FV _), Hv. }
  apply (wp_weaken K); [by intros ? []|].
  eapply wp_mono; [|eapply settle_frame; [exact Hf|done|done|exact Bu|by split]].
  intros o v' _ [[_ Hv] Ho] res Hres. destruct (Ho res Hres) as (raw & Er & Eb).
  rewrite (bound_status _ _ _ Eb). by apply Hv.
Qed.

Lemma failure_no_result code r : Outcome.Result (executorFailure code) = Some r -> False.
Proof. unfold executorFailure. by repeat case_match. Qed.

(** An apply of a staged ledger runs, or fails without touching anything. *)
Lemma apply_admitted (I : world -> Prop) (V : string -> world -> Prop) cfg target plan rt l stage w :
  ledger w = Some l -> Ledger.State l = remoteLedgerStaged -> Ledger.Stage l = Some stage -> I w ->
  let Q := fun (o : Outcome.t) v => forall r, Outcome.Result o = Some r -> V (ApplyResult.Status r) v in
  wp I (run_mutation docker cfg target plan "apply" rt l stage) Q w ->
  wp I (handle_mutation docker cfg target plan "apply" rt) Q w.
Proof.
  intros El Es Est Hw Q Hrun. assert (HF : forall code, Q (executorFailure code) w) by (by intros code r ?%failure_no_result).
  unfold handle_mutation. apply wp_bind, load_spec; [done|intros; by apply wp_ret|congruence|].
  intros l' El' _. assert (l' = l) as -> by congruence.
  change ("apply" ==? "stage") with false. change ("apply" ==? "apply") with true. cbn [orb]. cbv iota.
  unfold executorMutationRequest. cbv zeta. change ("apply" ==? "reconcile") with false. rewrite Es, Est, andb_false_r.
  cbn [andb]. branch; [by apply wp_ret|]. cbn [bool_decide].
  change (remoteLedgerStaged ==? remoteLedgerTerminal) with false. cbv iota.
  apply wp_bind, validate_stage_observes; [done|]. intros [[]|]; [|by apply wp_ret].
  change ("apply" ==? "apply") with true. change (remoteLedgerStaged ==? remoteLedgerStaged) with true. by cbn [negb andb].
Qed.
End ApplyRequest.

(** * Crash points of a cutover *)

(** The main process of the service executes the release. *)
Definition runs (dir : string) (w : world) : Prop := exists x, running w = Some x /\ Clean x = Clean dir.

Section Cutover.
Context `{UnicodeTables} `{TimeZones}.
Context (target : Target.t) (plan : ApplyPlan.t) (stage : Stage.t).
Context (c0 : option string) (k0 : option Checkpoint.t).

Definition stamped (phase : string) : Checkpoint.t :=
  (new_checkpoint target plan stage) <| Checkpoint.Phase := phase |>
    <| Checkpoint.SchemaVersion := Checkpoint.checkpointSchemaVersion |>.

(** The link as the request found it, or one of the two releases that the
    checkpoint names. *)
Definition link_ok (w : world) : Prop :=
  current w = c0 \/ current w = Some (Stage.NewRelease stage) \/ current w = Some (Stage.PreviousRelease stage).

Definition guarded (w : world) : Prop := exists phase, checkpoint w = Some (stamped phase) /\ link_ok w.
Definition untouched (w : world) : Prop := current w = c0 /\ (checkpoint w = k0 \/ checkpoint w = None).
Definition cutover (w : world) : Prop := untouched w \/ guarded w.

(** What a result says about the target. *)
Definition verdict (status : string) (w : world) : Prop :=
  (status = "succeeded" -> current w = Some (Stage.NewRelease stage) /\ runs (Stage.NewRelease stage) w /\
     checkpoint w = Some (stamped "succeeded")) /\
  (status = "rolled_back" -> current w = Some (Stage.PreviousRelease stage) /\ runs (Stage.PreviousRelease stage) w /\
     checkpoint w = Some (stamped "rolled_back")).

(** The operations of the cutover, by what they do to link, checkpoint and service. *)
Ltac effects := intros HI HQ; apply wp_call; [done|]; intros ans x w' E; cbn in E; unfold effectful in E;
  destruct ans; try discriminate E; injection E as <- <-; apply HQ; cbn; auto; done.

Lemma wp_service (I : world -> Prop) (o : op check) Q w :
  o = SystemctlStop \/ o = SystemctlStart ->
  I w -> (forall x v, current v = current w -> checkpoint v = checkpoint w -> I v /\ Q x v) -> wp I (call o) Q w.
Proof. intros [-> | ->]; effects. Qed.

Lemma wp_switch (I : world -> Prop) dir job Q w :
  I w ->
  (forall x v, checkpoint v = checkpoint w -> current v = current w \/ current v = Some dir ->
     (x = Ok tt -> current v = Some dir) -> I v /\ Q x v) ->
  wp I (call (SwitchSymlink dir job)) Q w.
Proof. effects. Qed.

Lemma wp_checkpoint (I : world -> Prop) c Q w :
  let c' := c <| Checkpoint.SchemaVersion := Checkpoint.checkpointSchemaVersion |> in
  I w ->
  (forall x v, current v = current w -> running v = running w -> checkpoint v = checkpoint w \/ checkpoint v = Some c' ->
     (x = Ok tt -> checkpoint v = Some c') -> I v /\ Q x v) ->
  wp I (call (SaveCheckpoint c)) Q w.
Proof. intros c'. effects. Qed.

Lemma wp_verify_process (I : world -> Prop) dir Q w :
  I w -> (forall x, (x = Ok tt -> runs dir w) -> Q x w) -> wp I (call (VerifyProcess dir)) Q w.
Proof.
  intros HI HQ. apply wp_call; [done|]. intros ans x w' E. cbn in E.
  pose proof (observed_same _ _ _ _ _ E) as ->. split; [done|]. apply HQ. intros ->. unfold observed in E.
  destruct ans; try discriminate E. destruct (running w) as [r|] eqn:Er; [|done].
  exists r. split; [done|]. case_bool_decide; done.
Qed.

(** Rolling back keeps the checkpoint and ends on the previous release. *)
Lemma rollback_spec job w :
  guarded w ->
  wp guarded (rollbackSystemd (Stage.PreviousRelease stage) (Stage.PreviousVersion stage) job)
    (fun r v => guarded v /\ (r = Ok tt -> current v = Some (Stage.PreviousRelease stage) /\
                                 runs (Stage.PreviousRelease stage) v)) w.
Proof.
  intros Hg. unfold rollbackSystemd. branch; [by apply wp_ret|]. destruct Hg as (ph & Hc & Hl).
  assert (Hsame : forall v u, checkpoint u = Some (stamped ph) -> link_ok u -> checkpoint v = checkpoint u ->
    current v = current u -> guarded v)
    by (intros v u Hk Hu Ev Ec; exists ph; split; [congruence|]; unfold link_ok; by rewrite Ec).
  apply wp_bind_ok, wp_service; [by left|by eapply Hsame|]. intros x1 v1 C1 K1.
  assert (G1 : guarded v1) by by eapply Hsame. split; [done|]. destruct x1 as [[]|]; [|done].
  apply wp_bind_ok, wp_switch; [done|]. intros x2 v2 K2 C2 O2.
  assert (L2 : link_ok v2) by (destruct C2 as [C2|C2]; [unfold link_ok; by rewrite C2, C1|by right; right]).
  assert (E2 : checkpoint v2 = Some (stamped ph)) by congruence.
  assert (G2 : guarded v2) by by exists ph. split; [done|]. destruct x2 as [[]|]; [|done]. specialize (O2 eq_refl).
  apply wp_bind_ok, wp_service; [by right|done|]. intros x3 v3 C3 K3.
  assert (G3 : guarded v3) by by apply (Hsame v3 v2). split; [done|]. destruct x3 as [[]|]; [|done].
  apply wp_bind, wp_verify_process; [done|]. intros x4 O4. apply wp_bind, wp_observe; [done..|]. intros x5.
  apply wp_ret; [done|]. split; [done|]. intros Hf. apply firstError_ok in Hf. inversion_clear Hf.
  split; [congruence|auto].
Qed.

Lemma guarded_cutover w : guarded w -> cutover w.
Proof. by right. Qed.

(** [cp] is the checkpoint of this cutover, in some phase. *)
Definition ours (cp : Checkpoint.t) : Prop :=
  forall phase, cp <| Checkpoint.Phase := phase |>
    <| Checkpoint.SchemaVersion := Checkpoint.checkpointSchemaVersion |> = stamped phase.

Lemma guarded_same v u :
  guarded u -> current v = current u ->
  checkpoint v = checkpoint u \/ (exists ph, checkpoint v = Some (stamped ph)) -> guarded v.
Proof.
  intros (ph & Hk & Hl) Ec [Ek|[ph' Ek]]; [exists ph|exists ph']; (split; [congruence|]); unfold link_ok; by rewrite Ec.
Qed.

Definition sound (r : result string ApplyResult.t) (w : world) : Prop :=
  forall res, r = Ok res -> verdict (ApplyResult.Status res) w.

(** The last save of a cutover. *)
Lemma save_final cp phase status message rolledBack dir msg w :
  ours cp -> guarded w -> current w = Some dir -> runs dir w ->
  (forall v, current v = Some dir -> runs dir v -> checkpoint v = Some (stamped phase) -> verdict status v) ->
  wp guarded
    (let* final := call (SaveCheckpoint (cp <| Checkpoint.Phase := phase |>)) in
     if is_err final then Ret (Err msg) else Ret (Ok (apply_result plan stage status rolledBack message))) sound w.
Proof.
  intros Ho Hg Hc (y & Ey & Hy) Hv. apply wp_bind, wp_checkpoint; [done|]. intros x v C R K O. rewrite (Ho phase) in K, O.
  assert (G : guarded v) by (eapply guarded_same; [exact Hg|done|]; destruct K; eauto). split; [done|].
  destruct x as [[]|]; cbn [is_err is_ok negb]; apply wp_ret; try done. intros res [= <-].
  apply Hv; [congruence|exists y; split; congruence|auto].
Qed.

Lemma commit_rollback_spec cp w : ours cp -> guarded w -> wp guarded (commit_rollback plan stage cp) sound w.
Proof.
  intros Ho Hg. unfold commit_rollback. apply wp_bind. eapply wp_mono; [|by apply rollback_spec].
  intros r v _ [Gv Ov]. destruct r as [[]|]; cbn [is_err is_ok negb]; [|by apply wp_ret].
  destruct (Ov eq_refl). by eapply save_final.
Qed.

(** From the start of the switched service on. *)
Lemma commit_start_spec cp w :
  ours cp -> guarded w -> current w = Some (Stage.NewRelease stage) -> wp guarded (commit_start plan stage cp) sound w.
Proof.
  intros Ho Hg Hcur. unfold commit_start. assert (Ho' : ours (cp <| Checkpoint.Phase := "started" |>)) by done.
  apply wp_bind, wp_service; [by right|done|]. intros x1 v1 C1 K1.
  assert (G1 : guarded v1) by (eapply guarded_same; eauto). split; [done|].
  apply wp_bind, wp_checkpoint; [done|]. intros x2 v2 C2 R2 K2 _. rewrite (Ho "started") in K2.
  assert (G2 : guarded v2) by (eapply guarded_same; [exact G1|done|]; destruct K2; eauto). split; [done|].
  apply wp_bind. destruct x1 as [[]|e]; [|by apply wp_ret; [|apply commit_rollback_spec]].
  apply wp_bind, wp_verify_process; [done|]. intros x3 O3. apply wp_bind, wp_observe; [done..|]. intros x4.
  apply wp_ret; [done|]. destruct (firstError [x2; x3; x4]) as [[]|] eqn:Ef; [|by apply commit_rollback_spec].
  apply firstError_ok in Ef. inversion_clear Ef as [|? ? _ Ef']. inversion_clear Ef'.
  apply (save_final _ _ _ _ _ (Stage.NewRelease stage)); [exact Ho'|exact G2|congruence|auto|done].
Qed.

Lemma cutover_first_save v w :
  untouched w -> current v = current w ->
  checkpoint v = checkpoint w \/ checkpoint v = Some (stamped "prepared") -> cutover v.
Proof.
  intros [Hc Hk] Ec [Ek|Ek]; [left; split; congruence|].
  right. exists "prepared". split; [done|]. left. congruence.
Qed.

Lemma restart_and_fail w e : guarded w -> wp guarded (let* _ := call SystemctlStart in Ret (Err e)) sound w.
Proof.
  intros Hw. apply wp_bind, wp_service; [by right|done|]. intros x u Cu Ku.
  assert (guarded u) by (eapply guarded_same; eauto). split; [done|]. by apply wp_ret.
Qed.

Lemma commit_spec w :
  untouched w -> wp cutover (commitRemoteSystemdMutation target plan stage) sound w.
Proof.
  intros Hu. unfold commitRemoteSystemdMutation. cbv zeta. set (cp := new_checkpoint target plan stage).
  assert (Ho : ours cp) by done.
  apply wp_bind, wp_checkpoint; [by left|]. intros x1 v1 C1 R1 K1 O1. change (cp <| _ := _ |>) with (stamped "prepared") in K1, O1.
  split; [by eapply cutover_first_save|].
  destruct x1 as [[]|]; cbn [is_err is_ok negb]; [|apply wp_ret; [by eapply cutover_first_save|done]].
  assert (G1 : guarded v1) by (exists "prepared"; split; [auto|]; left; rewrite C1; apply Hu).
  apply (wp_weaken guarded); [apply guarded_cutover|].
  apply wp_bind_ok, wp_service; [by left|done|]. intros x2 v2 C2 K2.
  assert (G2 : guarded v2) by (eapply guarded_same; eauto). split; [done|]. destruct x2; [|done].
  apply wp_bind, wp_checkpoint; [done|]. intros x3 v3 C3 R3 K3 _. rewrite (Ho "stopped") in K3.
  assert (G3 : guarded v3) by (eapply guarded_same; [exact G2|done|]; destruct K3; eauto). split; [done|].
  branch; [by apply restart_and_fail|].
  apply wp_bind, wp_switch; [done|]. intros x4 v4 K4 C4 O4.
  assert (G4 : guarded v4).
  { destruct G3 as (ph & Hk & Hl3). exists ph. split; [congruence|]. destruct C4 as [C4|C4]; [|by right; left].
    unfold link_ok. by rewrite C4. }
  split; [done|]. destruct x4 as [[]|]; [|by apply restart_and_fail]. specialize (O4 eq_refl).
  apply wp_bind, wp_checkpoint; [done|]. intros x5 v5 C5 R5 K5 _. 
  change (checkpoint v5 = checkpoint v4 \/ checkpoint v5 = Some (stamped "switched")) in K5.
  assert (G5 : guarded v5) by (eapply guarded_same; [exact G4|done|]; destruct K5; eauto). split; [done|].
  branch; [by apply wp_ret|]. apply commit_start_spec; [done|done|congruence].
Qed.

(** Before the commit nothing but the release store and an old checkpoint is
    touched. *)
Lemma install_spec w : untouched w -> wp cutover (install_and_commit target plan stage) sound w.
Proof.
  intros Hu. unfold install_and_commit. apply wp_bind_ok, wp_call; [by left|]. intros ans x w' E.
  assert (Hu' : untouched w').
  { cbn in E. unfold observed, effectful in E. repeat case_match; by simplify_eq. }
  split; [by left|]. destruct x; [|done].
  do 2 (apply wp_bind, wp_observe; [done|by left|]; intros ?; branch; [apply wp_ret; [by left|done]|]).
  apply wp_bind, wp_observe; [done|by left|]. intros ?. branch; [apply wp_ret; [by left|done]|].
  apply wp_bind, baseline_observes; [by left|]. intros ?. branch; [apply wp_ret; [by left|done]|].
  apply wp_bind, wp_observe; [done|by left|]. intros ?. branch; [apply wp_ret; [by left|done]|].
  by apply commit_spec.
Qed.

Lemma apply_spec g w :
  untouched w -> wp cutover g (fun r v => r = Ok tt -> untouched v) w ->
  wp cutover (applyRemoteStagedSystemd target plan stage g) sound w.
Proof.
  intros Hu Hg. unfold applyRemoteStagedSystemd. assert (Hc : cutover w) by by left.
  branch; [by apply wp_ret|]. branch; [|by apply wp_ret].
  apply wp_bind_ok, baseline_observes; [done|]. intros [[]|e]; [|done].
  apply wp_bind_ok, wp_observe; [done..|]. intros [cp|e]; [|done].
  destruct (match cp with Some c => _ | None => false end); [by apply wp_ret|].
  apply wp_bind_ok. eapply wp_mono; [|exact Hg]. intros [[]|e] v Hv Hr; [|done]. specialize (Hr eq_refl).
  apply wp_bind, wp_observe; [done..|]. intros ?. branch; [by apply wp_ret|].
  apply wp_bind, baseline_observes; [done|]. intros ?. branch; [by apply wp_ret|].
  apply wp_bind, wp_observe; [done..|]. intros ?. branch; [by apply wp_ret|].
  apply wp_bind_ok. destruct cp; [|apply wp_ret; [done|by apply install_spec]].
  apply wp_call; [done|]. intros ans y w' E.
  assert (untouched w').
  { cbn in E. unfold effectful in E. destruct Hr. destruct ans; simplify_eq; split; auto. }
  split; [by left|]. destruct y; [by apply install_spec|done].
Qed.
End Cutover.

Section CrashSafety.
Context `{UnicodeTables} `{TimeZones}.
Context (docker : Backend) `{!GatedBackend docker}.

Lemma cutover_frame base target plan stage c0 k0 :
  frame base (cutover target plan stage c0 k0) (fun _ _ => True).
Proof. by split. Qed.

Lemma untouched_frame base c0 k0 : frame base (untouched c0 k0) (fun _ _ => True).
Proof. by split. Qed.

Lemma verdict_frame base target plan stage s : frame base (verdict target plan stage s) (fun _ _ => True).
Proof. by split. Qed.

(** C19.  A systemd cutover is safe to interrupt and honest about its end.  At every
    crash point of an apply, the current link either still names what it named
    before, or names the new or the previous release while the durable checkpoint of
    this very job names both, with the version to go back to.  And a result says what
    the target runs: [succeeded] means that the link names the new release and the
    main process executes it; [rolled_back] the same of the previous release. *)
Theorem cutover_is_crash_safe cfg target plan rt answers w l stage :
  Target.DeploymentMode target = ModeSystemd ->
  ledger w = Some l -> Ledger.State l = remoteLedgerStaged -> Ledger.Stage l = Some stage ->
  let (v, outcome) := run (handle_mutation docker cfg target plan "apply" rt) answers w in
  let new := Stage.NewRelease stage in
  let previous := Stage.PreviousRelease stage in
  (current v = current w \/
   (current v = Some new \/ current v = Some previous) /\
   exists cp, checkpoint v = Some cp /\ Checkpoint.JobID cp = MutationPlan.JobID plan /\
     Checkpoint.NewRelease cp = new /\ Checkpoint.PreviousRelease cp = previous /\
     Checkpoint.PreviousVersion cp = Stage.PreviousVersion stage) /\
  (forall o r, outcome = Some o -> Outcome.Result o = Some r ->
     (ApplyResult.Status r = "succeeded" -> current v = Some new /\ runs new v) /\
     (ApplyResult.Status r = "rolled_back" -> current v = Some previous /\ runs previous v)).
Proof.
  intros Hm El Es Est.
  assert (G : wp (cutover target (plan_on_stage plan stage) stage (current w) (checkpoint w))
    (handle_mutation docker cfg target plan "apply" rt)
    (fun o v => forall r, Outcome.Result o = Some r -> verdict target (plan_on_stage plan stage) stage (ApplyResult.Status r) v) w).
  { assert (Hw : untouched (current w) (checkpoint w) w) by (split; auto).
    apply (apply_admitted docker _ (verdict target (plan_on_stage plan stage) stage) cfg target plan rt l stage); [done..|by left|].
    apply (run_apply_framed docker (untouched (current w) (checkpoint w))); [done|done|by left| | | |].
    - apply untouched_frame.
    - apply cutover_frame.
    - apply verdict_frame.
    - intros g v Hv Hg. unfold backend_of. rewrite Hm, bool_decide_eq_true_2 by done. cbn [bk_apply systemd_backend].
      eapply wp_mono; [|by apply apply_spec]. intros r u _ Hs. exact Hs. }
  apply (wp_sound _ _ _ answers) in G as [G1 G2]. destruct (run _ answers w) as [v o]. cbn [fst snd] in *. split.
  - destruct G1 as [[E _]|(ph & Ek & [E|E])]; [by left..|].
    right. split; [done|]. by exists (stamped target (plan_on_stage plan stage) stage ph).
  - intros o' r -> Hr. destruct (G2 o' eq_refl r Hr) as [V1 V2]. split; intros Hs.
    + by destruct (V1 Hs) as (? & ? & _).
    + by destruct (V2 Hs) as (? & ? & _).
Qed.
End CrashSafety.
