(* ===== verification/SystemdRecovery.v ===== *)
(** Recovery of an interrupted systemd cutover: in a cooperative environment a
    reconcile settles it, from every point at which an apply can have stopped
    after its commit began, and from before the commit when no checkpoint is in
    the way. *)
From Stdlib Require Import Ascii String ZArith Lia.
From stdpp Require Import base decidable list strings gmap.
From S2P Require Import Prelude Strings Regexp Patterns Effects Sha256 Json Paths PlanDigest MutationLedger MutationExec MutationSafety SystemdCutover.

Open Scope string_scope.

(** The target fields of the world. *)
Record stand (w v : world) : Prop := {
  st_current : current v = current w;
  st_running : running v = running w;
  st_checkpoint : checkpoint v = checkpoint w;
  st_releases : releases v = releases w;
  st_docker : dhost v = dhost w;
}.

Lemma stand_refl w : stand w w.
Proof. done. Qed.

Lemma stand_trans w v u : stand w v -> stand v u -> stand w u.
Proof. intros [] []. split; congruence. Qed.

#[export] Hint Resolve stand_refl stand_trans : go_db.

Section Ledgers.
Context `{UnicodeTables} `{TimeZones}.

(** What a save of [base] in another state writes. *)
Definition resaved (base : Ledger.t) (s : string) (r : option ApplyResult.t) (t : GoTime.t) : Ledger.t :=
  base <| Ledger.State := s |> <| Ledger.Result := r |>
    <| Ledger.SchemaVersion := remoteLedgerSchemaVersion |> <| Ledger.UpdatedAt := t |>.

Definition savable (base : Ledger.t) (s : string) (r : option ApplyResult.t) : Prop :=
  forall t, validate_ledger (resaved base s r t) (Ledger.TargetID base) = Ok tt.

Definition can_consume (rt : Runtime.t) : bool :=
  if Runtime.has_v2_binding rt then Runtime.has_v2_consumer rt && Runtime.has_clock rt else Runtime.has_consumer rt.

(** The states that a request saves, with the result that goes with each. *)
Definition saved_state (s : string) (r : option ApplyResult.t) : Prop :=
  (r = None /\ existsb (String.eqb s) [remoteLedgerGrantConsuming; remoteLedgerGrantConsumed; remoteLedgerMutating;
                                        remoteLedgerAmbiguous] = true) \/
  (s = remoteLedgerTerminal /\ exists res, r = Some res /\ result_final res = true).

Lemma saved_state_valid base s r t : saved_state s r -> validate_ledger_state (resaved base s r t) = Ok tt.
Proof.
  unfold validate_ledger_state, resaved. cbn. intros [[-> Hs]|[-> (res & -> & Hf)]].
  - apply existsb_exists in Hs as (x & Hx & E). apply String.eqb_eq in E as ->. cbn in Hx.
    by repeat destruct Hx as [<-|Hx].
  - cbn. by rewrite Hf.
Qed.

Lemma claimed_identity l plan operation targetID s r t :
  ledger_identity_invalid l targetID = false -> MutationPlan.Validate plan = Ok tt ->
  ledger_identity_invalid (resaved (claimed l plan operation) s r t) (Ledger.TargetID l) = false.
Proof.
  intros Hi Hp. pose proof (vp_lease plan (Validate_valid plan Hp)) as Hl.
  assert (re_match mutationSessionPattern (MutationPlan.SessionID plan) = true /\
          re_match mutationPlanHashPattern (MutationPlan.PlanSHA256 plan) = true) as [Hs1 Hs2].
  { unfold MutationPlan.Validate in Hp. ok_inv Hp. by bool_to_prop. }
  unfold ledger_identity_invalid, resaved in *. cbn. rewrite Hs1, Hs2. bool_to_prop.
  repeat match goal with
  | E : re_match _ _ = true |- _ => rewrite E; clear E
  | E : ?a = ?b |- context [bool_decide (?a = ?b)] => rewrite (bool_decide_eq_true_2 (a = b) E)
  end. rewrite !(bool_decide_eq_true_2 (?[x] = ?x)) by done. cbn. rewrite !orb_false_r. by apply Z.eqb_neq.
Qed.

(** The claimed record of a valid ledger can be saved in every later state. *)
Lemma claimed_savable l plan operation targetID s r :
  validate_ledger l targetID = Ok tt -> MutationPlan.Validate plan = Ok tt ->
  operation = "apply" \/ operation = "reconcile" -> Ledger.Stage l <> None ->
  saved_state s r -> savable (claimed l plan operation) s r.
Proof.
  intros Hv Hp Hop Hst Hs t. unfold validate_ledger in *. ok_step Hv. ok_step Hv. ok_step Hv.
  change (Ledger.TargetID (claimed l plan operation)) with (Ledger.TargetID l).
  rewrite (claimed_identity l plan operation targetID), saved_state_valid by done. cbv iota.
  change (Ledger.Operation (resaved _ _ _ _)) with operation.
  destruct Hop as [-> | ->]; cbn [existsb negb orb String.eqb bind_res]; unfold validate_ledger_stage in *; cbn in *;
    by destruct (Ledger.Stage l).
Qed.
End Ledgers.

Section Cooperation.
Context `{UnicodeTables} `{TimeZones}.


(** ** The executor *)

(** The captured variables belong to this request. *)
Record owned (base : Ledger.t) (called : bool) (w : world) : Prop := {
  ow_based : based base (memory w);
  ow_called : gateCalled (memory w) = called;
}.

Lemma save_ledger_done base s r w :
  savable base s r ->
  exists t, handle (SaveLedger (base <| Ledger.State := s |> <| Ledger.Result := r |>)) Done w =
    Some (Ok tt, w <| ledger := Some (resaved base s r t) |>).
Proof.
  intros Hs. exists (GoTime.UTC (GoTime.mk (clock w) true)).
  unfold handle, mutation_handler, op_handler, write_ledger, prepare_ledger. cbv zeta.
  specialize (Hs (GoTime.UTC (GoTime.mk (clock w) true))). unfold resaved in Hs.
  match goal with |- context [validate_ledger ?x ?y] => change (validate_ledger x y) with
    (validate_ledger (base <| Ledger.State := s |> <| Ledger.Result := r |>
      <| Ledger.SchemaVersion := remoteLedgerSchemaVersion |>
      <| Ledger.UpdatedAt := GoTime.UTC (GoTime.mk (clock w) true) |>) (Ledger.TargetID base)) end.
  by rewrite Hs.
Qed.

Lemma save_done base called s r Q w :
  savable base s r -> owned base called w ->
  (forall v, stand w v -> clock v = clock w -> owned base called v -> (exists l, ledger v = Some l /\ rec_of base s r l) ->
     Q (Ok tt) v) ->
  twp Done (save_working s r) Q w.
Proof.
  intros Hs [Hb Hc] HQ. unfold save_working. pose proof Hb as (s' & r' & Eb).
  apply twp_bind. eapply twp_call; [reflexivity|]. cbv zeta.
  assert (En : (working (memory w)) <| Ledger.State := s |> <| Ledger.Result := r |> =
               base <| Ledger.State := s |> <| Ledger.Result := r |>) by by rewrite Eb.
  rewrite En. apply twp_bind. eapply twp_call; [reflexivity|].
  set (w1 := w <| memory := _ |>). destruct (save_ledger_done base s r w1 Hs) as [t Et].
  eapply twp_call; [exact Et|]. apply HQ; [done|done| |by eexists; split; [|by exists t]].
  split; [|done]. by exists s, r.
Qed.

Lemma consume_done url plan operation rt Q w :
  can_consume rt = true -> (forall v, stand w v -> clock v = clock w -> memory v = memory w -> Q (Ok tt) v) ->
  twp Done (consumeExecutorMutationGrant url plan operation rt) Q w.
Proof.
  intros Hc HQ. unfold consumeExecutorMutationGrant, can_consume in *. destruct (Runtime.has_v2_binding rt).
  - apply andb_true_iff in Hc as [-> ->]. cbn [negb orb]. apply twp_bind. eapply twp_call; [reflexivity|].
    apply twp_bind. eapply twp_call; [reflexivity|]. by apply twp_ret, HQ.
  - rewrite Hc. cbn [negb]. apply twp_bind. eapply twp_call; [reflexivity|]. by apply twp_ret, HQ.
Qed.

Lemma gate_done base cfg plan operation rt deadline Q w :
  (forall s r, saved_state s r -> savable base s r) -> can_consume rt = true -> (clock w < deadline)%Z ->
  owned base false w -> (forall v, stand w v -> owned base true v -> Q (Ok tt) v) ->
  twp Done (gate cfg plan operation rt deadline) Q w.
Proof.
  intros Hs Hc Hd Hw HQ. unfold gate. pose proof Hw as [Hb Hg].
  apply twp_bind. eapply twp_call; [reflexivity|]. rewrite Hg.
  apply twp_bind. eapply twp_call; [reflexivity|].
  destruct (deadline - clock w <=? 0)%Z eqn:Ed; [apply Z.leb_le in Ed; lia|].
  apply twp_bind. eapply twp_call; [reflexivity|].
  apply twp_bind, (save_done base true); [by apply Hs; left|by split|]. intros v1 S1 C1 O1 _.
  cbn [is_err is_ok negb]. apply twp_bind_ok, consume_done; [done|]. intros v2 S2 C2 M2.
  assert (O2 : owned base true v2) by (destruct O1; split; congruence).
  apply twp_bind, (save_done base true); [by apply Hs; left|done|]. intros v3 S3 C3 O3 _. cbn [is_err is_ok negb].
  apply twp_bind, (save_done base true); [by apply Hs; left|done|]. intros v4 S4 C4 O4 _. cbn [is_err is_ok negb].
  apply twp_ret, HQ; [|done]. eapply stand_trans; [|exact S4]. eapply stand_trans; [|exact S3].
  eapply stand_trans; [|exact S2]. eapply stand_trans; [|exact S1]. done.
Qed.

Lemma settle_done base plan raw bound w :
  (forall s r, saved_state s r -> savable base s r) -> owned base true w ->
  bindRemoteApplyResult plan raw = (bound, true) -> result_final bound = true ->
  twp Done (settle plan (Ok raw))
    (fun o v => o = finished plan bound /\ stand w v /\ exists l, ledger v = Some l /\ rec_of base remoteLedgerTerminal (Some bound) l) w.
Proof.
  intros Hs Ho Eb Hf. unfold settle. rewrite Eb, Hf. cbn [negb orb].
  apply twp_bind, (save_done base true); [apply Hs; right; eauto|done|]. intros v S _ _ Hl. cbn [is_err is_ok negb].
  by apply twp_ret.
Qed.
End Cooperation.

(** * A reconcile request

    In a cooperative environment, a reconcile of an unsettled ledger settles with what the
    target's own reconcile achieves. *)
Section Reconcile.
Context `{UnicodeTables} `{TimeZones}.
Context (docker : Backend) (cfg : Config.t) (target : Target.t) (plan : MutationPlan.t) (rt : Runtime.t).
Context (l : Ledger.t) (stage : Stage.t) (w : world).

(** The ledger is unsettled, and the plan and the stage are the ones it waits for. *)
Record awaiting : Prop := {
  aw_plan : MutationPlan.Validate plan = Ok tt;
  aw_release : stage_release_invalid (Target.DeploymentMode target) plan stage = false;
  aw_ledger : ledger w = Some l;
  aw_valid : validate_ledger l (MutationPlan.TargetID plan) = Ok tt;
  aw_request : remoteLedgerRequestFailure l plan "reconcile" = "";
  aw_unstaged : Ledger.State l <> remoteLedgerStaged;
  aw_open : Ledger.State l <> remoteLedgerTerminal;
  aw_stage : Ledger.Stage l = Some stage;
  aw_binding : stage_binding_invalid cfg plan stage = false;
  aw_grant : can_consume rt = true;
}.

Hypothesis wait : awaiting.

Lemma claimed_saves s r : saved_state s r -> savable (claimed l plan "reconcile") s r.
Proof. intros Hsr. eapply claimed_savable; [apply wait|apply wait|by right|by rewrite (aw_stage wait)|done]. Qed.

Lemma reconcile_admitted Q :
  twp Done (run_mutation docker cfg target plan "reconcile" rt l stage) Q w ->
  twp Done (handle_mutation docker cfg target plan "reconcile" rt) Q w.
Proof.
  intros Hrun. destruct wait as [Hp Hrel El Hv Hreq Hs Ht Hst Hbind _].
  unfold handle_mutation. apply twp_bind. eapply twp_call; [cbn; unfold load_ledger; rewrite El, Hv; reflexivity|]. cbn [bind_res].
  cbv beta iota. change ("reconcile" ==? "stage") with false. change ("reconcile" ==? "apply") with false.
  change ("reconcile" ==? "reconcile") with true. cbn [orb]. cbv iota.
  unfold executorMutationRequest. cbv beta iota zeta.
  rewrite Hreq, (bool_decide_eq_false_2 (Ledger.State l = remoteLedgerTerminal)) by done.
  change ("" !=? "") with false. cbv iota. rewrite Hst.
  apply twp_bind. unfold validateExecutorStage. rewrite Hbind.
  apply twp_bind. eapply twp_call; [reflexivity|]. cbn [is_err is_ok negb]. rewrite Hrel. apply twp_ret.
  change ("reconcile" ==? "apply") with false. rewrite (bool_decide_eq_false_2 (Ledger.State l = remoteLedgerStaged)) by done.
  by rewrite andb_false_r.
Qed.

(** The request is admitted and its grant consumed; then the target's own reconcile runs. *)
Lemma reconcile_runs Q :
  (forall v, stand w v -> owned (claimed l plan "reconcile") true v ->
     twp Done (bk_reconcile (backend_of docker target) target (plan_on_stage plan stage)) (fun r => twp Done (settle plan r) Q) v) ->
  twp Done (handle_mutation docker cfg target plan "reconcile" rt) Q w.
Proof.
  intros Hrec. set (base := claimed l plan "reconcile") in *.
  apply reconcile_admitted. unfold run_mutation. cbv zeta.
  fold (claimed l plan "reconcile") base (plan_on_stage plan stage).
  apply twp_bind. eapply twp_call; [reflexivity|]. apply twp_bind. eapply twp_call; [reflexivity|].
  change ("reconcile" ==? "apply") with false. cbv iota. apply twp_bind, twp_bind_ok.
  eapply gate_done; [apply claimed_saves|apply wait|cbn; unfold GoTime.Second; lia| |].
  { split; [|done]. exists (Ledger.State base), (Ledger.Result base). by destruct l. }
  intros v1 S1 O1. apply Hrec; [by destruct S1|done].
Qed.

Lemma reconcile_recovers (P : string -> world -> Prop) :
  (forall s v u, stand v u -> P s v -> P s u) ->
  (forall v, stand w v ->
     twp Done (bk_reconcile (backend_of docker target) target (plan_on_stage plan stage))
       (fun r u => memory u = memory v /\ exists raw bound, r = Ok raw /\ bindRemoteApplyResult plan raw = (bound, true) /\
          result_final bound = true /\ P (ApplyResult.Status bound) u) v) ->
  exists n v r, forall m, n <= m ->
    run (handle_mutation docker cfg target plan "reconcile" rt) (repeat Done m) w = (v, Some (finished plan r)) /\
    (exists l', ledger v = Some l' /\ Ledger.State l' = remoteLedgerTerminal /\ Ledger.Result l' = Some r) /\
    P (ApplyResult.Status r) v.
Proof.
  intros HP Hrec. set (base := claimed l plan "reconcile").
  assert (G : twp Done (handle_mutation docker cfg target plan "reconcile" rt) (fun o v => exists r, o = finished plan r /\
    (exists l', ledger v = Some l' /\ Ledger.State l' = remoteLedgerTerminal /\ Ledger.Result l' = Some r) /\
    P (ApplyResult.Status r) v) w); cycle 1.
  { destruct G as (v & o & Ex & r & -> & Hl & Hr). destruct (exec_run _ _ _ _ _ Ex) as [n Hn]. exists n, v, r. intros m Hm.
    by rewrite Hn. }
  apply reconcile_runs. intros v1 S1 O1.
  destruct (Hrec v1 S1) as (v2 & r & Ex & Em & raw & bound & -> & Eb & Hf & Hp).
  exists v2, (Ok raw). split; [exact Ex|].
  destruct (settle_done base plan raw bound v2) as (v3 & o & Ex' & -> & S3 & l' & El' & t & ->); [apply claimed_saves| |done..|].
  { destruct O1. split; by rewrite Em. }
  exists v3, (finished plan bound). split; [exact Ex'|]. exists bound. split; [done|]. split; [by eexists|]. by eapply HP.
Qed.

(** A target whose own reconcile fails leaves the ledger ambiguous. *)
Lemma reconcile_refused (P : world -> Prop) :
  (forall v u, stand v u -> P v -> P u) ->
  (forall v, stand w v ->
     twp Done (bk_reconcile (backend_of docker target) target (plan_on_stage plan stage))
       (fun r u => memory u = memory v /\ is_err r = true /\ P u) v) ->
  exists n v, forall m, n <= m ->
    run (handle_mutation docker cfg target plan "reconcile" rt) (repeat Done m) w = (v, Some (executorFailure "reconcile_required")) /\
    (exists l', ledger v = Some l' /\ Ledger.State l' = remoteLedgerAmbiguous) /\ P v.
Proof.
  intros HP Hrec. set (base := claimed l plan "reconcile").
  assert (G : twp Done (handle_mutation docker cfg target plan "reconcile" rt) (fun o v => o = executorFailure "reconcile_required" /\
    (exists l', ledger v = Some l' /\ Ledger.State l' = remoteLedgerAmbiguous) /\ P v) w); cycle 1.
  { destruct G as (v & o & Ex & -> & Hl & Hr). destruct (exec_run _ _ _ _ _ Ex) as [n Hn]. exists n, v. intros m Hm.
    by rewrite Hn. }
  apply reconcile_runs. intros v1 S1 O1. destruct (Hrec v1 S1) as (v2 & r & Ex & Em & He & Hp).
  exists v2, r. split; [exact Ex|]. destruct r as [raw|e]; [done|]. unfold settle.
  assert (O2 : owned base true v2) by (destruct O1; split; by rewrite Em).
  apply twp_bind. eapply twp_call; [reflexivity|]. rewrite (ow_called _ _ _ O2).
  apply twp_bind. unfold fail_ambiguous. apply twp_bind. eapply twp_call; [reflexivity|]. rewrite (ow_called _ _ _ O2).
  apply twp_bind, (save_done base true); [by apply claimed_saves; left|done|]. intros v3 S3 _ _ (l' & El' & t & ->).
  apply twp_ret, twp_ret. split; [done|]. split; [by eexists|by eapply HP].
Qed.
End Reconcile.

(** ** The target *)

(** A release on disk with well-formed markers. *)
Record installed (root : string) (w : world) (dir digest version : string) : Prop := {
  il_markers : releases w !! dir = Some (digest, version);
  il_digest : re_match mutationPlanHashPattern digest = true;
  il_version : re_match versionPattern version = true;
  il_within : pathWithin root dir = true;
  il_clean : Clean dir = dir;
}.

(** Everything but link, service and checkpoint is as it was. *)
Definition kept (w v : world) : Prop := releases v = releases w /\ memory v = memory w.

Section Targets.
Context `{UnicodeTables} `{TimeZones}.

Lemma plan_hash_hex s : re_match mutationPlanHashPattern s = true -> str_forall hexdigit s = true.
Proof. intros. pattern_within. Qed.

Lemma current_done root dir digest version Q w :
  current w = Some dir -> installed root w dir digest version -> Q (Ok (Some (dir, digest, version))) w ->
  twp Done (currentRelease root) Q w.
Proof.
  intros Hc [Hm Hd Hv Hp Hcl] HQ. unfold currentRelease.
  apply twp_bind. eapply twp_call; [reflexivity|]. rewrite Hc, Hp. cbn [negb].
  apply twp_bind. eapply twp_call; [reflexivity|]. rewrite Hm. cbv zeta.
  rewrite (TrimSpace_printable digest), (ToLower_not_upper digest), (TrimSpace_printable version) by eauto with go_db.
  rewrite (plan_hash_length _ Hd), Hv, (plan_hash_hex _ Hd), Hcl. by apply twp_ret.
Qed.

Lemma rollback_done root previous digest version job Q w :
  previous <> "" -> installed root w previous digest version ->
  (forall v, kept w v -> checkpoint v = checkpoint w -> current v = Some previous -> running v = Some previous -> Q (Ok tt) v) ->
  twp Done (rollbackSystemd previous version job) Q w.
Proof.
  intros Hne [Hm Hd Hv Hp Hcl] HQ. unfold rollbackSystemd.
  rewrite bool_decide_eq_false_2, Hv by done. cbn [orb negb].
  do 3 (apply twp_bind_ok; eapply twp_call; [reflexivity|]).
  apply twp_bind. eapply twp_call; [reflexivity|]. apply twp_bind. eapply twp_call; [reflexivity|].
  apply twp_ret. cbn. unfold running_version. cbn. rewrite Hm, !bool_decide_eq_true_2 by done. cbn.
  unfold versionsEqual. rewrite bool_decide_eq_true_2 by done. by apply HQ.
Qed.

Context (target : Target.t) (plan : MutationPlan.t) (stage : Stage.t).
#[local] Abbreviation new := (Stage.NewRelease stage).
#[local] Abbreviation previous := (Stage.PreviousRelease stage).
#[local] Abbreviation root := (Target.ReleaseRoot target).
#[local] Abbreviation ap := (plan_on_stage plan stage).

(** The points at which an apply of [plan] can have stopped: before its commit, with
    the previous release in service, or after it, under its own checkpoint, with the
    link on either release and the service stopped or running either. *)
Record interrupted (w : world) : Prop := {
  in_previous : exists digest, installed root w previous digest (Stage.PreviousVersion stage) /\
    normalizeDigest (Stage.PreviousDigest stage) = "sha256:" +:+ digest;
  in_new : current w = Some new \/ running w = Some new ->
    installed root w new (MutationPlan.ArtifactDigest plan) (MutationPlan.TargetVersion plan);
  in_state :
    (checkpoint w = None /\ current w = Some previous /\ running w = Some previous) \/
    ((exists phase, checkpoint w = Some (stamped target ap stage phase)) /\
     (current w = Some previous \/ current w = Some new) /\
     (running w = None \/ running w = Some previous \/ running w = Some new));
}.

(** The plan and the stage fit together, and the plan changes the version or the digest. *)
Record fitting : Prop := {
  ft_valid : MutationPlan.Validate plan = Ok tt;
  ft_mode : MutationPlan.DeploymentMode plan = ModeSystemd;
  ft_target : Target.DeploymentMode target = ModeSystemd;
  ft_version : re_match versionPattern (MutationPlan.TargetVersion plan) = true;
  ft_digest : normalizeDigest (Stage.ArtifactDigest stage) = normalizeDigest (MutationPlan.ArtifactDigest plan);
  ft_stage : stage_release_invalid ModeSystemd plan stage = false;
  ft_change : versionsEqual (Stage.PreviousVersion stage) (MutationPlan.TargetVersion plan) = false \/
    normalizeDigest (Stage.PreviousDigest stage) <> "sha256:" +:+ MutationPlan.ArtifactDigest plan;
}.

(** The plan deploys another build of the version in service, its checkpoint is durable,
    and the previous release is still, or again, linked and running. *)
Record redeploying (w : world) : Prop := {
  rd_version : versionsEqual (Stage.PreviousVersion stage) (MutationPlan.TargetVersion plan) = true;
  rd_checkpoint : checkpoint w <> None;
  rd_current : current w = Some previous;
  rd_running : running w = Some previous;
}.


Lemma interrupted_stand w v : stand w v -> interrupted w -> interrupted v.
Proof.
  intros [E1 E2 E3 E4] [(d & Hp & Hd) Hn Hs].
  assert (forall d x y, installed root w d x y -> installed root v d x y) as Hi by (intros ? ? ? []; split; congruence).
  split; rewrite ?E1, ?E2, ?E3; eauto.
Qed.

Hypothesis fit : fitting.

Lemma fit_stage :
  IsAbs new = true /\ IsAbs previous = true /\ re_match versionPattern (Stage.PreviousVersion stage) = true /\
  requirePlannedCurrentVersion (MutationPlan.CurrentVersion plan) (Stage.PreviousVersion stage) = Ok tt /\
  MutationPlan.CurrentVersion plan = Stage.PreviousVersion stage.
Proof.
  pose proof (ft_stage fit) as Hs. unfold stage_release_invalid in Hs.
  change (ModeSystemd ==? ModeDocker) with false in Hs. change (ModeSystemd ==? ModeSystemd) with true in Hs. cbv iota in Hs.
  bool_to_prop. rewrite is_err_false in H2. apply is_ok_unit in H2. split_and!; try done.
  pose proof (vp_current plan (Validate_valid plan (ft_valid fit))) as Hc.
  unfold requirePlannedCurrentVersion in H2. cbv zeta in H2.
  rewrite (version_trim _ Hc), (version_trim (Stage.PreviousVersion stage)) in H2 by done.
  rewrite bool_decide_eq_false_2 in H2 by by apply version_nonempty. ok_inv H2. by bool_to_prop.
Qed.

Lemma fit_digest : ApplyPlan.ArtifactDigest ap = MutationPlan.ArtifactDigest plan /\
  re_match mutationPlanHashPattern (MutationPlan.ArtifactDigest plan) = true.
Proof.
  pose proof (vp_artifact plan (Validate_valid plan (ft_valid fit))) as Ha. split; [|done]. cbn.
  rewrite (ft_digest fit), normalizeDigest_plan_hash by done. apply TrimPrefix_app.
Qed.

Lemma stamped_loads phase w :
  checkpoint w = Some (stamped target ap stage phase) ->
  load_checkpoint w target = Ok (Some (stamped target ap stage phase)) /\
  checkpoint_mismatch ap (stamped target ap stage phase) = false.
Proof.
  intros Hc. destruct fit_stage as (Hn & Hp & Hv & Hr & _).
  pose proof (vp_job plan (Validate_valid plan (ft_valid fit))) as Hj. split.
  - unfold load_checkpoint. rewrite Hc. unfold Checkpoint.invalid. cbn. rewrite Hj, (ft_version fit), (ft_target fit).
    by rewrite !bool_decide_eq_true_2.
  - unfold checkpoint_mismatch. cbn. rewrite Hr, !bool_decide_eq_true_2 by done. cbn.
    rewrite !bool_decide_eq_false_2; [done|by intros E; rewrite E in *..].
Qed.

(** A result that the dispatcher can bind to the plan, and what it says. *)
Definition settles (w : world) (r : result string ApplyResult.t) (v : world) : Prop :=
  kept w v /\ exists res, r = Ok res /\
  (ApplyResult.ArtifactDigest res = "" \/
   normalizeDigest (ApplyResult.ArtifactDigest res) = "sha256:" +:+ MutationPlan.ArtifactDigest plan) /\
  ((ApplyResult.Status res = "succeeded" /\ current v = Some new /\ running v = Some new) \/
   (ApplyResult.Status res = "rolled_back" /\ current v = Some previous /\ running v = Some previous)).

Lemma target_digest phase : Checkpoint.TargetDigest (stamped target ap stage phase) = "sha256:" +:+ MutationPlan.ArtifactDigest plan.
Proof.
  destruct fit_digest as [Ed Hd]. cbn -[plan_on_stage normalizeDigest].
  by rewrite Ed, normalizeDigest_plan_hash.
Qed.

Lemma digest_normal digest : re_match mutationPlanHashPattern digest = true ->
  normalizeDigest ("sha256:" +:+ digest) = "sha256:" +:+ digest.
Proof. intros Hd. apply normalizeDigest_digest. by rewrite digest_of_plan_hash. Qed.

Lemma rollback_settles phase digest w :
  installed root w previous digest (Stage.PreviousVersion stage) ->
  normalizeDigest (Stage.PreviousDigest stage) = "sha256:" +:+ digest ->
  twp Done (reconcile_rollback target ap (Some (stamped target ap stage phase))) (settles w) w.
Proof.
  intros Hi Hd. unfold reconcile_rollback. destruct fit_stage as (_ & Hp & Hv & _). pose proof Hi as [Hm Hh _ Hw _].
  change (Checkpoint.PreviousRelease (stamped target ap stage phase)) with previous.
  change (Checkpoint.PreviousVersion (stamped target ap stage phase)) with (Stage.PreviousVersion stage).
  change (Checkpoint.PreviousDigest (stamped target ap stage phase)) with (normalizeDigest (Stage.PreviousDigest stage)).
  rewrite Hw, Hv, Hd, bool_decide_eq_false_2 by done. cbn [negb orb].
  apply twp_bind. eapply twp_call; [reflexivity|]. rewrite Hm, bool_decide_eq_true_2 by done. cbn [from_bool is_err is_ok negb].
  apply twp_bind_ok. eapply rollback_done; [by intros E; rewrite E in Hp|exact Hi|]. intros v Hk _ Hc Hr.
  apply twp_bind_ok. eapply twp_call; [reflexivity|]. apply twp_ret. split; [done|]. eexists. split; [done|].
  split; [|by right]. right. cbn [ApplyResult.ArtifactDigest]. rewrite target_digest. apply digest_normal, fit_digest.
Qed.

Lemma healthy_previous_settles cp digest w :
  (versionsEqual (Stage.PreviousVersion stage) (MutationPlan.TargetVersion plan) = false \/ cp = None) ->
  (checkpoint w = None /\ cp = None) \/ (exists phase, cp = Some (stamped target ap stage phase)) ->
  current w = Some previous -> running w = Some previous ->
  installed root w previous digest (Stage.PreviousVersion stage) ->
  normalizeDigest (Stage.PreviousDigest stage) = "sha256:" +:+ digest ->
  twp Done (reconcile_healthy target ap cp previous digest (Stage.PreviousVersion stage)) (settles w) w.
Proof.
  intros Hnew Hcp Hc Hr [Hm Hh Hv Hw Hcl] Hd. unfold reconcile_healthy. cbv zeta.
  change (ApplyPlan.TargetVersion ap) with (MutationPlan.TargetVersion plan).
  assert (versionsEqual (Stage.PreviousVersion stage) (MutationPlan.TargetVersion plan) &&
          systemdRequestedReleaseDigestMatches cp digest (ApplyPlan.ArtifactDigest ap) = false) as ->.
  { destruct (versionsEqual _ _) eqn:Ev; [|done]. destruct Hnew as [? | ->]; [done|]. destruct fit_digest as [-> Hp]. cbn.
    destruct (ft_change fit) as [?|Hn]; [congruence|]. rewrite !normalizeDigest_plan_hash by done.
    apply bool_decide_eq_false. congruence. }
  destruct fit_stage as (_ & _ & _ & _ & Ev).
  change (ApplyPlan.CurrentVersion ap) with (MutationPlan.CurrentVersion plan). rewrite Ev, (version_trim _ Hv), Hv.
  destruct Hcp as [[_ ->]|[phase ->]].
  - rewrite bool_decide_eq_true_2 by done. apply twp_ret. split; [done|]. eexists. split; [done|]. split; [by left|by right].
  - change (Checkpoint.PreviousRelease (stamped target ap stage phase)) with previous.
    change (Checkpoint.PreviousVersion (stamped target ap stage phase)) with (Stage.PreviousVersion stage).
    change (Checkpoint.PreviousDigest (stamped target ap stage phase)) with (normalizeDigest (Stage.PreviousDigest stage)).
    unfold versionsEqual. rewrite Hcl, Hd, normalizeDigest_plan_hash, !bool_decide_eq_true_2 by done. cbn [andb].
    apply twp_bind_ok. eapply twp_call; [reflexivity|]. apply twp_ret. split; [done|]. eexists. split; [done|].
    split; [by left|by right].
Qed.

Lemma healthy_new_settles phase w :
  current w = Some new -> running w = Some new ->
  installed root w new (MutationPlan.ArtifactDigest plan) (MutationPlan.TargetVersion plan) ->
  twp Done (reconcile_healthy target ap (Some (stamped target ap stage phase)) new (MutationPlan.ArtifactDigest plan)
              (MutationPlan.TargetVersion plan)) (settles w) w.
Proof.
  intros Hc Hr [Hm Hh Hv Hw Hcl]. unfold reconcile_healthy, versionsEqual. cbv zeta.
  change (ApplyPlan.TargetVersion ap) with (MutationPlan.TargetVersion plan).
  rewrite (bool_decide_eq_true_2 (TrimPrefix _ _ = _)) by done. cbn [andb systemdRequestedReleaseDigestMatches].
  change (Checkpoint.NewRelease (stamped target ap stage phase)) with new.
  rewrite target_digest, Hcl, normalizeDigest_plan_hash, !bool_decide_eq_true_2 by done. cbn [negb orb].
  apply twp_bind_ok. eapply twp_call; [reflexivity|]. apply twp_ret. split; [done|]. eexists. split; [done|].
  split; [|by left]. right. by apply digest_normal.
Qed.

(** The three verifications of the current release, with what follows them. *)
Lemma verified {A} dir digest version (k : check -> prog op A) Q w :
  installed root w dir digest version -> current w = Some dir ->
  (forall x, running w = Some x -> Clean x = x) ->
  (running w = Some dir -> twp Done (k (Ok tt)) Q w) ->
  (forall e, running w <> Some dir -> twp Done (k (Err e)) Q w) ->
  twp Done (let* checksums := call (VerifyManagedChecksums dir) in
            let* process := call (VerifyProcess dir) in
            let* healthy := call (VerifyTarget version) in
            k (firstError [checksums; process; healthy])) Q w.
Proof.
  intros [Hm Hh Hv Hw Hcl] Hc Hx HO HE.
  do 3 (apply twp_bind; eapply twp_call; [reflexivity|]).
  unfold running_version. rewrite Hm, (bool_decide_eq_true_2 (is_Some _)) by done. cbn [from_bool].
  destruct (running w) as [x|] eqn:Ex; [|by apply HE].
  rewrite (Hx x eq_refl), Hcl. destruct (decide (x = dir)) as [->|Ec].
  - rewrite Hm. cbn. unfold versionsEqual. rewrite !bool_decide_eq_true_2 by done. by apply HO.
  - rewrite (bool_decide_eq_false_2 (x = _)) by done. cbn. apply HE. congruence.
Qed.

Lemma reconcile_settles w : interrupted w -> ~ redeploying w -> twp Done (reconcileSystemd target ap) (settles w) w.
Proof.
  intros [(digest & Hp & Hd) Hn Hs] Hre. unfold reconcileSystemd.
  assert (Hclean : forall x, running w = Some x -> Clean x = x).
  { intros x Ex. destruct Hs as [(_ & _ & Er)|(_ & _ & [Er|[Er|Er]])]; try congruence.
    - assert (x = previous) as -> by congruence. apply Hp.
    - assert (x = previous) as -> by congruence. apply Hp.
    - assert (x = new) as -> by congruence. apply Hn. auto. }
  destruct Hs as [(Hk & Hc & Hr)|([phase Hk] & Hc & Hr)].
  - apply twp_bind_ok. eapply twp_call; [cbn; unfold load_checkpoint; by rewrite Hk|].
    apply twp_bind. eapply current_done; [exact Hc|exact Hp|].
    apply (verified previous digest (Stage.PreviousVersion stage)
      (fun r => if is_ok r then _ else _)); [done..| |by intros e ?].
    intros _. cbn [is_ok]. by apply healthy_previous_settles; [right|left|..].
  - destruct (stamped_loads phase w Hk) as [El Em].
    apply twp_bind_ok. eapply twp_call; [cbn; by rewrite El|]. cbv beta iota. rewrite Em.
    assert (Hback : twp Done (reconcile_rollback target ap (Some (stamped target ap stage phase))) (settles w) w)
      by by eapply rollback_settles.
    apply twp_bind. destruct Hc as [Hc|Hc].
    + eapply current_done; [exact Hc|exact Hp|].
      apply (verified previous digest (Stage.PreviousVersion stage) (fun r => if is_ok r then _ else _)); [done..| |done].
      intros Er. cbn [is_ok]. apply healthy_previous_settles; eauto. left. apply not_true_is_false. intros Ev. apply Hre.
      by split; rewrite ?Hk.
    + specialize (Hn (or_introl Hc)). eapply current_done; [exact Hc|exact Hn|].
      apply (verified new (MutationPlan.ArtifactDigest plan) (MutationPlan.TargetVersion plan)
        (fun r => if is_ok r then _ else _)); [done..| |done].
      intros Er. cbn [is_ok]. by apply healthy_new_settles.
Qed.

(** A redeployment of the version in service: the release that runs has the version of the
    plan, and it is not the one of the checkpoint. *)
Lemma redeploying_refused w : interrupted w -> redeploying w ->
  twp Done (reconcileSystemd target ap) (fun r u => is_err r = true /\ u = w) w.
Proof.
  intros [(digest & Hp & Hd) _ Hs] [Ev Hk Hc Hr]. unfold reconcileSystemd. destruct Hs as [(? & _)|([phase Ek] & _)]; [done|].
  destruct (stamped_loads phase w Ek) as [El Em].
  apply twp_bind_ok. eapply twp_call; [cbn; by rewrite El|]. cbv beta iota. rewrite Em.
  apply twp_bind. eapply current_done; [exact Hc|exact Hp|].
  apply (verified previous digest (Stage.PreviousVersion stage) (fun r => if is_ok r then _ else _)); [done|done| | |done].
  { intros x Ex. assert (x = previous) as -> by congruence. apply Hp. }
  intros _. cbn [is_ok]. unfold reconcile_healthy. cbv zeta.
  change (ApplyPlan.TargetVersion ap) with (MutationPlan.TargetVersion plan). rewrite Ev. cbn [andb systemdRequestedReleaseDigestMatches].
  destruct (ft_change fit) as [?|Hn]; [congruence|].
  rewrite target_digest, (normalizeDigest_plan_hash digest), (bool_decide_eq_false_2 (_ = "sha256:" +:+ MutationPlan.ArtifactDigest plan))
    by (first [apply Hp|congruence]).
  cbn [negb]. rewrite orb_true_r. by apply twp_ret.
Qed.

(** ** The request *)

(** Every result that settles is bound to the plan. *)
Lemma settles_binds w r v :
  settles w r v -> exists raw bound, r = Ok raw /\ bindRemoteApplyResult plan raw = (bound, true) /\
    result_final bound = true /\ ApplyResult.Status bound = ApplyResult.Status raw.
Proof.
  intros (_ & raw & -> & Hd & Hs). destruct fit_digest as [_ Hh].
  assert (Ee : normalizeDigest (MutationPlan.ResultArtifactDigest plan) = "sha256:" +:+ MutationPlan.ArtifactDigest plan).
  { unfold MutationPlan.ResultArtifactDigest. rewrite (ft_mode fit). change (ModeSystemd ==? ModeDocker) with false.
    cbv iota. by rewrite (normalizeDigest_plan_hash _ Hh), digest_normal. }
  exists raw. eexists. split; [done|]. unfold bindRemoteApplyResult. rewrite Ee. cbv zeta.
  rewrite (bool_decide_eq_false_2 (_ = "")) by done. cbn [orb].
  assert ((ApplyResult.ArtifactDigest raw !=? "") && (normalizeDigest (ApplyResult.ArtifactDigest raw) !=?
    "sha256:" +:+ MutationPlan.ArtifactDigest plan) = false) as ->.
  { destruct Hd as [-> | ->]; [done|].
    rewrite (bool_decide_eq_true_2 ("sha256:" +:+ MutationPlan.ArtifactDigest plan = _)) by done. apply andb_false_r. }
  split; [done|]. split; [|done]. unfold result_final. cbn. by destruct Hs as [(-> & _)|(-> & _)].
Qed.
End Targets.

(** C20.  From which points an interrupted systemd update can be settled.  The plan
    changes the version or the digest of the release, the ledger of the job is unsettled,
    and the environment cooperates: nothing else fails, the Panel accepts the recovery
    grant, and the service reports the version of the release it runs.  From every point
    of [interrupted] but one a reconcile with a valid plan then ends with a durable final
    result, and the target runs, and its link names, the new release if the result says
    [succeeded], the previous one if [rolled_back].  The exception is a plan that deploys
    another build of the version in service, at a point where its checkpoint is durable
    and the previous release is linked and running ([redeploying]): there every reconcile
    is answered with reconcile_required, changes nothing but the ledger, which becomes
    ambiguous, and leaves the target at the same point. *)
Theorem interrupted_cutover_recovers `{UnicodeTables} `{TimeZones} docker cfg target plan rt l stage w :
  fitting target plan stage -> interrupted target plan stage w ->
  ledger w = Some l -> validate_ledger l (MutationPlan.TargetID plan) = Ok tt ->
  remoteLedgerRequestFailure l plan "reconcile" = "" ->
  Ledger.State l <> remoteLedgerStaged -> Ledger.State l <> remoteLedgerTerminal ->
  Ledger.Stage l = Some stage -> stage_binding_invalid cfg plan stage = false -> can_consume rt = true ->
  (~ redeploying plan stage w -> exists n v r, forall m, n <= m ->
    run (handle_mutation docker cfg target plan "reconcile" rt) (repeat Done m) w = (v, Some (finished plan r)) /\
    (exists l', ledger v = Some l' /\ Ledger.State l' = remoteLedgerTerminal /\ Ledger.Result l' = Some r) /\
    ((ApplyResult.Status r = "succeeded" /\ current v = Some (Stage.NewRelease stage) /\
        running v = Some (Stage.NewRelease stage)) \/
     (ApplyResult.Status r = "rolled_back" /\ current v = Some (Stage.PreviousRelease stage) /\
        running v = Some (Stage.PreviousRelease stage)))) /\
  (redeploying plan stage w -> exists n v, forall m, n <= m ->
    run (handle_mutation docker cfg target plan "reconcile" rt) (repeat Done m) w =
      (v, Some (executorFailure "reconcile_required")) /\
    (exists l', ledger v = Some l' /\ Ledger.State l' = remoteLedgerAmbiguous) /\
    interrupted target plan stage v /\ redeploying plan stage v).
Proof.
  intros Hfit Hint El Hv Hreq Hs Ht Hst Hbind Hcan.
  assert (Hwait : awaiting cfg target plan rt l stage w).
  { split; try done; [apply Hfit|]. rewrite (ft_target _ _ _ Hfit). apply Hfit. }
  assert (Hre : forall v u, stand v u -> redeploying plan stage v <-> redeploying plan stage u).
  { intros v u [E1 E2 E3 E4]. split; intros []; split; congruence. }
  split; intros Hno.
  2: { apply (reconcile_refused docker cfg target plan rt l stage w Hwait (fun v => interrupted target plan stage v /\ redeploying plan stage v)).
       { intros v u S [Hi Hr]. split; [by eapply interrupted_stand|by apply (Hre v)]. }
       intros v Sv. unfold backend_of. rewrite (ft_target _ _ _ Hfit), bool_decide_eq_true_2 by done.
       assert (interrupted target plan stage v /\ redeploying plan stage v) as [Hi Hr]
         by (split; [by eapply interrupted_stand|by apply (Hre w)]).
       destruct (redeploying_refused target plan stage Hfit v Hi Hr) as (u & r & Ex & He & ->). by exists v, r. }
  apply (reconcile_recovers docker cfg target plan rt l stage w Hwait (fun s v =>
    (s = "succeeded" /\ current v = Some (Stage.NewRelease stage) /\ running v = Some (Stage.NewRelease stage)) \/
    (s = "rolled_back" /\ current v = Some (Stage.PreviousRelease stage) /\ running v = Some (Stage.PreviousRelease stage)))).
  { intros s v u [-> -> _ _ _]. done. }
  intros v Sv. unfold backend_of. rewrite (ft_target _ _ _ Hfit), bool_decide_eq_true_2 by done.
  destruct (reconcile_settles target plan stage Hfit v) as (v2 & r & Ex & Hset); [by eapply interrupted_stand|by rewrite <- (Hre w)|].
  exists v2, r. split; [exact Ex|].
  destruct (settles_binds target plan stage Hfit v r v2 Hset) as (raw & bound & -> & Eb & Hf & Es).
  destruct Hset as ((_ & Em) & res & [= <-] & _ & Hend). split; [done|]. exists raw, bound. by rewrite Es.
Qed.
