(* ===== verification/MutationDemo.v ===== *)
(** A concrete host under the mutation executor: a staged release that is applied,
    an apply that crashes after the link was switched, and the next job, whose grant
    the Panel rejects.  The properties of the executor are evaluated on it. *)
From Stdlib Require Import Ascii String ZArith Lia.
From stdpp Require Import base decidable list strings gmap.
From S2P Require Import Prelude Strings Regexp Patterns Effects Sha256 Json Paths PlanDigest MutationLedger MutationExec MutationSafety SystemdCutover SystemdRecovery.

Open Scope string_scope.
Module DemoMutation.
Import DemoPlan.

(** A host without Docker targets. *)
Definition no_docker : Backend :=
  {| bk_apply := fun _ _ _ _ => Ret (Err "Docker target is unavailable");
     bk_reconcile := fun _ _ => Ret (Err "Docker target is unavailable") |}.

#[global] Instance no_docker_gated : GatedBackend no_docker.
Proof. split; cbn; intros; [split; [by eapply wp_inv|done]|done]. Qed.

#[global] Instance no_docker_bound : JobBound no_docker.
Proof. by intros I cp target plan w HI _ _. Qed.

Definition cfg : Config.t := Config.mk "/var/lib/updater" "https://panel.example".
Definition target : Target.t := Target.mk "worker-1" "systemd" "/srv/worker/releases" (DockerTarget.mk "" "" "" "").
Definition rt : Runtime.t := Runtime.mk "pull_v2" 1 1 false false true true.
Definition old_release : string := "/srv/worker/releases/v1.0.0-aaaaaaaaaaaa".
Definition new_release : string := "/srv/worker/releases/v1.1.0-0123456789ab".
Definition old_digest : string := "aaaaaaaaaaaaaaaaaaaaaaaaaaaaaaaaaaaaaaaaaaaaaaaaaaaaaaaaaaaaaaaa".
Definition stage : Stage.t :=
  Stage.mk "/var/lib/updater/stages/s1/artifact" hex64 "v1.1.0" "" "" "" new_release old_release old_digest "v1.0.0" None.
Definition fresh : world :=
  mk_world None None (Some old_release) {[ old_release := (old_digest, "v1.0.0") ]} (Some old_release) 5
    (mk_vars false (staged_record plan stage)) [] DockerHost.none.

Definition request (operation : string) : prog op Outcome.t := handle_mutation no_docker cfg target plan operation rt.
Definition staged : world := (run (request "stage") [Done; Gives stage; Done] fresh).1.
Definition applied : world * option Outcome.t := run (request "apply") (repeat Done 80) staged.

(** The next job on the same target. *)
Definition unsigned2 : MutationPlan.t :=
  MutationPlan.mk "job-2" "host-1" "worker-1" "worker" "systemd" "v1.1.0" ("sha256:" +:+ hex64) "v1.2.0" 1
    old_digest "v1.2.0" "" "" "session-9876543210" "".
Definition plan2 : MutationPlan.t := Eval vm_compute in
  unsigned2 <| MutationPlan.PlanSHA256 :=
    match MutationPlan.ComputePlanSHA256 unsigned2 with Ok h => h | Err _ => "" end |>.
Definition stage2 : Stage.t :=
  Stage.mk "/var/lib/updater/stages/s2/artifact" old_digest "v1.2.0" "" "" ""
    "/srv/worker/releases/v1.2.0-aaaaaaaaaaaa" new_release hex64 "v1.1.0" None.
Definition request2 (operation : string) : prog op Outcome.t := handle_mutation no_docker cfg target plan2 operation rt.
Definition rejected : world :=
  (run (request2 "apply") (repeat Done 17 ++ [Failed] ++ repeat Done 10)
     (run (request2 "stage") [Done; Gives stage2; Done; Done] applied.1).1).1.
Definition crashed_after (n : nat) : world := (run (request "apply") (repeat Done n) staged).1.

(** Another build of the version in service, interrupted when its checkpoint is durable. *)
Definition unsigned3 : MutationPlan.t :=
  MutationPlan.mk "job-1" "host-1" "worker-1" "worker" "systemd" "v1.0.0" ("sha256:" +:+ hex64) "v1.0.0" 3
    hex64 "v1.0.0" "" "" "session-0123456789" "".
Definition rebuild : MutationPlan.t := Eval vm_compute in
  unsigned3 <| MutationPlan.PlanSHA256 :=
    match MutationPlan.ComputePlanSHA256 unsigned3 with Ok h => h | Err _ => "" end |>.
Definition stage3 : Stage.t :=
  Stage.mk "/var/lib/updater/stages/s1/artifact" hex64 "v1.0.0" "" "" "" "/srv/worker/releases/v1.0.0-0123456789ab"
    old_release old_digest "v1.0.0" None.
Definition request3 (operation : string) : prog op Outcome.t := handle_mutation no_docker cfg target rebuild operation rt.
Definition rebuilding (n : nat) : world :=
  (run (request3 "apply") (repeat Done n) (run (request3 "stage") [Done; Gives stage3; Done] fresh).1).1.
End DemoMutation.
Import DemoMutation.

(** The update runs to its end. *)
Example applied_succeeds :
  (ApplyResult.Status <$> (applied.2 ≫= Outcome.Result)) = Some "succeeded" /\
  current applied.1 = Some new_release /\ running applied.1 = Some new_release.
Proof. vm_compute. done. Qed.

(** The rejected grant of the next job leaves the wedged state of C18. *)
Example rejected_is_wedged :
  (Ledger.State <$> ledger rejected) = Some remoteLedgerAmbiguous /\ (Ledger.JobID <$> ledger rejected) = Some "job-2" /\
  (Checkpoint.JobID <$> checkpoint rejected) = Some "job-1" /\
  (Outcome.Error <$> (run (request2 "reconcile") (repeat Done 100) rejected).2) =
    Some (Outcome.Error (executorFailure "reconcile_required")).
Proof. vm_compute. done. Qed.

Definition job1_history : history (mutation_entry no_docker) fresh applied.1 :=
  history_run _ _ _ (request "apply") _
    (history_run _ _ _ (request "stage") [Done; Gives stage; Done] (history_refl _ _) (entry _ _ _ _ _ _)) (entry _ _ _ _ _ _).

Lemma mutation_is_write_ahead_witness : Forall event_ok (events applied.1) /\ length (events applied.1) = 10.
Proof.
  split; [|vm_compute; reflexivity].
  exact (mutation_is_write_ahead no_docker fresh applied.1 eq_refl job1_history).
Defined.

(** Apply, apply again after a crash, reconcile. *)
Definition retried : world :=
  (run (request "reconcile") (repeat Done 100) (run (request "apply") (repeat Done 100) (crashed_after 48)).1).1.

Lemma apply_grant_presented_at_most_once_witness : apply_grants retried <= 1 /\ apply_grants retried = 1.
Proof.
  split; [|vm_compute; reflexivity].
  assert (E : exists l, ledger staged = Some l /\ Ledger.State l = remoteLedgerStaged)
    by (vm_compute; eexists; split; reflexivity).
  destruct E as (l & El & Es).
  refine (apply_grant_presented_at_most_once no_docker staged retried l El Es _ _); [vm_compute; reflexivity|].
  refine (history_run _ _ _ (request "reconcile") _ (history_run _ _ _ (request "apply") _
    (history_run _ _ _ (request "apply") _ (history_refl _ _) _) _) _); constructor; discriminate.
Defined.

Lemma unsettled_update_only_reconciles_witness :
  (run (request "apply") (repeat Done 100) (crashed_after 48)).1 = crashed_after 48.
Proof.
  assert (E : exists l, ledger (crashed_after 48) = Some l /\ Ledger.State l = remoteLedgerMutating)
    by (vm_compute; eexists; split; reflexivity).
  destruct E as (l & El & Es).
  pose proof (unsettled_update_only_reconciles no_docker cfg target DemoPlan.plan "apply" rt (repeat Done 100) (crashed_after 48) l El
    ltac:(rewrite Es; discriminate) ltac:(rewrite Es; discriminate) (or_intror eq_refl)) as P.
  change (handle_mutation no_docker cfg target DemoPlan.plan "apply" rt) with (request "apply") in P.
  destruct (run (request "apply") (repeat Done 100) (crashed_after 48)). exact (proj1 P).
Defined.

Lemma reported_results_are_durable_witness :
  exists r l, Ledger.State l = remoteLedgerTerminal /\ ledger applied.1 = Some l /\
    ApplyResult.ArtifactDigest r = "sha256:" +:+ DemoPlan.hex64 /\ applied.2 = Some (finished DemoPlan.plan r).
Proof.
  assert (E : exists o r, applied.2 = Some o /\ Outcome.Result o = Some r) by (vm_compute; do 2 eexists; split; reflexivity).
  destruct E as (o & r & Eo & Er).
  destruct (reported_results_are_durable no_docker cfg target DemoPlan.plan "apply" rt (repeat Done 80) staged applied.1 o r)
    as (-> & _ & Ed & l & recorded & El & Es & _).
  - unfold applied, request in *. rewrite <- Eo. by destruct (run _ _ _).
  - exact Er.
  - exists r, l. split_and!; [exact Es|exact El| |exact Eo]. rewrite Ed. vm_compute. reflexivity.
Defined.

Lemma stale_checkpoint_wedges_target_witness :
  exists cp, Checkpoint.JobID cp = "job-1" /\ wedged cp "job-2" (run (request2 "reconcile") (repeat Done 100) rejected).1.
Proof.
  assert (E : exists cp, Checkpoint.JobID cp = "job-1" /\ wedged cp "job-2" rejected).
  { assert (C : exists cp, checkpoint rejected = Some cp /\ Checkpoint.JobID cp = "job-1")
      by (eexists; split; [vm_compute; reflexivity|reflexivity]).
    assert (L : exists l, ledger rejected = Some l /\ Ledger.JobID l = "job-2" /\ Ledger.State l = remoteLedgerAmbiguous)
      by (eexists; split; [vm_compute; reflexivity|split; reflexivity]).
    destruct C as (cp & Ec & Ej), L as (l & El & Elj & Els). exists cp. split; [exact Ej|]. split; [exact Ec|].
    exists l. rewrite Els. split_and!; [exact El|exact Elj|discriminate|discriminate]. }
  destruct E as (cp & Ej & Hw). exists cp. split; [exact Ej|].
  apply (stale_checkpoint_wedges_target no_docker cp "job-2" rejected); [rewrite Ej; discriminate|exact Hw|].
  refine (history_run _ _ _ (request2 "reconcile") _ (history_refl _ _) _). constructor.
Defined.

Lemma cutover_is_crash_safe_witness :
  current (crashed_after 48) <> current staged /\
  (current (crashed_after 48) = current staged \/
   (current (crashed_after 48) = Some new_release \/ current (crashed_after 48) = Some old_release) /\
   exists cp, checkpoint (crashed_after 48) = Some cp /\ Checkpoint.PreviousRelease cp = old_release).
Proof.
  split; [vm_compute; discriminate|].
  assert (E : exists l, ledger staged = Some l /\ Ledger.State l = remoteLedgerStaged /\ Ledger.Stage l = Some stage)
    by (vm_compute; eexists; split_and!; reflexivity).
  destruct E as (l & El & Es & Est).
  pose proof (cutover_is_crash_safe no_docker cfg target DemoPlan.plan rt (repeat Done 48) staged l stage eq_refl El Es Est) as P.
  unfold crashed_after, request. destruct (run _ (repeat Done 48) staged).
  destruct P as [[E|(E & cp & Ec & _ & _ & Ep & _)] _]; [left; exact E|right; split; [exact E|exists cp; split; [exact Ec|exact Ep]]].
Defined.

(** What the theorem needs of the ledger of an interrupted apply. *)
Definition apply_ledger (p : MutationPlan.t) (st : Stage.t) (w : world) (l : Ledger.t) : Prop :=
  ledger w = Some l /\ validate_ledger l "worker-1" = Ok tt /\ remoteLedgerRequestFailure l p "reconcile" = "" /\
  Ledger.State l = remoteLedgerMutating /\ Ledger.Stage l = Some st.

Lemma crashed_ledger : exists l, apply_ledger DemoPlan.plan stage (crashed_after 48) l.
Proof. eexists. split; [vm_compute; reflexivity|split_and!; vm_compute; reflexivity]. Qed.

Lemma rebuilding_ledger : exists l, apply_ledger rebuild stage3 (rebuilding 44) l.
Proof. eexists. split; [vm_compute; reflexivity|split_and!; vm_compute; reflexivity]. Qed.

Lemma crashed_interrupted : interrupted target DemoPlan.plan stage (crashed_after 48).
Proof.
  split.
  - exists old_digest. split; [split; vm_compute; reflexivity|vm_compute; reflexivity].
  - intros _. split; vm_compute; reflexivity.
  - right. split; [exists "switched"; vm_compute; reflexivity|]. split; [right|left]; vm_compute; reflexivity.
Qed.

Lemma rebuilding_interrupted : interrupted target rebuild stage3 (rebuilding 44).
Proof.
  split.
  - exists old_digest. split; [split; vm_compute; reflexivity|vm_compute; reflexivity].
  - intros [E|E]; vm_compute in E; discriminate E.
  - right. split; [exists "prepared"; vm_compute; reflexivity|]. split; [left|right; left]; vm_compute; reflexivity.
Qed.

Lemma rebuilding_redeploying : redeploying rebuild stage3 (rebuilding 44).
Proof. split; [vm_compute; reflexivity|vm_compute; discriminate|vm_compute; reflexivity|vm_compute; reflexivity]. Qed.

(** The interrupted update settles; the interrupted rebuild does not. *)
Lemma interrupted_cutover_recovers_witness :
  (exists n v r, forall m, n <= m ->
    run (request "reconcile") (repeat Done m) (crashed_after 48) = (v, Some (finished DemoPlan.plan r)) /\
    (exists l', ledger v = Some l' /\ Ledger.State l' = remoteLedgerTerminal /\ Ledger.Result l' = Some r) /\
    ((ApplyResult.Status r = "succeeded" /\ current v = Some new_release /\ running v = Some new_release) \/
     (ApplyResult.Status r = "rolled_back" /\ current v = Some old_release /\ running v = Some old_release))) /\
  (exists n v, forall m, n <= m ->
    run (request3 "reconcile") (repeat Done m) (rebuilding 44) = (v, Some (executorFailure "reconcile_required")) /\
    (exists l', ledger v = Some l' /\ Ledger.State l' = remoteLedgerAmbiguous) /\
    interrupted target rebuild stage3 v /\ redeploying rebuild stage3 v).
Proof.
  split.
  - destruct crashed_ledger as (l & El & Ev & Er & Es & Est).
    assert (F : fitting target DemoPlan.plan stage) by (split; try left; vm_compute; reflexivity).
    assert (R : ~ redeploying DemoPlan.plan stage (crashed_after 48)) by (intros [Hv _ _ _]; vm_compute in Hv; discriminate).
    assert (NS : Ledger.State l <> remoteLedgerStaged) by (rewrite Es; discriminate).
    assert (NT : Ledger.State l <> remoteLedgerTerminal) by (rewrite Es; discriminate).
    exact (proj1 (interrupted_cutover_recovers no_docker cfg target DemoPlan.plan rt l stage (crashed_after 48)
      F crashed_interrupted El Ev Er NS NT Est eq_refl eq_refl) R).
  - destruct rebuilding_ledger as (l & El & Ev & Er & Es & Est).
    assert (F : fitting target rebuild stage3).
    { split; try (vm_compute; reflexivity). right. vm_compute. discriminate. }
    assert (NS : Ledger.State l <> remoteLedgerStaged) by (rewrite Es; discriminate).
    assert (NT : Ledger.State l <> remoteLedgerTerminal) by (rewrite Es; discriminate).
    exact (proj2 (interrupted_cutover_recovers no_docker cfg target rebuild rt l stage3 (rebuilding 44)
      F rebuilding_interrupted El Ev Er NS NT Est eq_refl eq_refl) rebuilding_redeploying).
Defined.
