(* ===== verification/DockerRelease.v ===== *)
(** The Docker target of the mutation executor: the rollback baseline, apply with its
    deferred restoration of the version pin, rollback and reconcile
    ([docker_release_identity.go], [docker_compose_verification.go],
    [docker_release_apply.go], [release_reconciliation.go]).

    The executor always applies a pre-staged image through its gate; the other half of
    [applyDockerWithListenerStore], which pulls the image itself, has no caller.  What
    the code demands of a compose model is part of the operations that check one. *)
From Stdlib Require Import Ascii String ZArith Lia.
From stdpp Require Import base decidable list strings gmap.
From S2P Require Import Prelude Strings Regexp Patterns Effects Sha256 Json Paths PlanDigest MutationLedger DockerPin MutationExec.

Open Scope string_scope.

Section Docker.
Context `{UnicodeTables} `{TimeZones}.

Abbreviation mprog := (prog op).
Abbreviation gate_prog := (prog op check).

(** * What runs *)

(** The argument is the decoded output of [docker image inspect], [None] if it is no list
    of strings. *)
Definition repo_digest_parts (value : string) : list string := Split (ToLower (TrimSpace value)) "@".

Definition repositoryDigest (values : option (list string)) (imageRepo : string) : result string string :=
  match values with
  | None => Err "image RepoDigests output is invalid"
  | Some values =>
      let named v := match repo_digest_parts v with
                     | [repo; digest] => EqualFold repo imageRepo && re_match digestPattern digest
                     | _ => false
                     end in
      match find named values with
      | Some v => Ok (nth 1 (repo_digest_parts v) "")
      | None => Err "current image does not have a digest for the fixed image repository"
      end
  end.

Definition repositoryHasDigest (values : option (list string)) (imageRepo expectedDigest : string) : bool :=
  let wantDigest := ToLower (TrimSpace expectedDigest) in
  let wantRepo := ToLower (TrimSpace imageRepo) in
  re_match digestPattern wantDigest &&
  match values with
  | None => false
  | Some values => existsb (fun v => bool_decide (repo_digest_parts v = [wantRepo; wantDigest])) values
  end.

Definition managedContainerID : mprog (result string string) :=
  let* out := call ListContainers in
  match out with
  | Ok out => match Fields out with
              | [id] => Ret (Ok id)
              | _ => Ret (Err "expected exactly one managed Docker container")
              end
  | Err _ => Ret (Err "expected exactly one managed Docker container")
  end.

(** The image id that an inspection prints. *)
Definition image_id (out : string) : string := ToLower (TrimSpace out).

(** ** The rollback baseline *)

Definition version_pin (d : DockerTarget.t) (env : string) (existed : bool) : result string (string * string) :=
  if existed then parseVersionEnvPin env (DockerTarget.ImageVariable d)
  else Ok (TrimSpace (DockerTarget.CurrentVersion d), "").

Definition unstable_id (id : string) : bool :=
  (128 <? len id)%Z || existsb (ContainsByte id) Baseline.separators.

(** [observeDockerMutationBaseline]: the baseline, the environment file and its mode. *)
Definition observeDockerMutationBaseline (target : Target.t) : mprog (result string (Baseline.t * string * Z)) :=
  let d := Target.Docker target in
  let? (env, mode, existed) := call ReadVersionEnv in
  let? (bundle, manifest) := Ret (version_pin d env existed) in
  if negb (re_match versionPattern bundle) then Ret (Err "current Docker bundle version is unavailable")
  else
    let* source := call HealthyVersion in
    match source with
    | Err _ => Ret (Err "current Docker target is not healthy enough for rollback")
    | Ok source =>
        if negb (re_match versionPattern (TrimSpace source))
        then Ret (Err "current Docker target is not healthy enough for rollback")
        else
          let* cid := managedContainerID in
          match cid with
          | Err _ => Ret (Err "managed compose service has no stable running container")
          | Ok cid =>
              if unstable_id cid then Ret (Err "managed compose service has no stable running container")
              else
                let* out := call (InspectContainer cid) in
                match out with
                | Err _ => Ret (Err "current container image ID is not a canonical SHA256 digest")
                | Ok out =>
                    let image := image_id out in
                    if negb (re_match digestPattern image)
                    then Ret (Err "current container image ID is not a canonical SHA256 digest")
                    else
                      let* repo := call (InspectRepoDigests image) in
                      match repo with
                      | Err _ => Ret (Err "could not resolve the current image repository digest")
                      | Ok repo =>
                          match repositoryDigest repo (DockerTarget.ImageRepo d) with
                          | Err e => Ret (Err e)
                          | Ok repoDigest =>
                              let manifest := if existed then manifest else repoDigest in
                              let baseline := Baseline.mk ("sha256:" +:+ sha256_hex env) (Z.land mode 511) existed bundle
                                (ToLower manifest) (TrimSpace source) cid image (ToLower repoDigest) in
                              match Baseline.validate baseline with
                              | Err e => Ret (Err e)
                              | Ok _ => Ret (Ok (baseline, env, mode))
                              end
                          end
                      end
                end
          end
    end.

(** * Files *)

Definition writeDockerOverride (path service image : string) : mprog check :=
  if negb (re_match identifierPattern service) ||
     negb (re_match digestPattern image || Contains image "@sha256:")
  then Ret (Err "Docker override identity is invalid")
  else call (WriteOverride path service image).

Definition restoreVersionEnv (original : string) (mode : Z) (existed : bool) : mprog check :=
  if existed then call (WriteVersionEnv original mode) else call RemoveVersionEnv.

(** [verifyTrustedStagedDockerInputsWithOwnerCheck]: the id of the staged image. *)
Definition verifyTrustedStagedDockerInputs (d : DockerTarget.t) (frozenPath digestRef platformDigest : string) :
    mprog (result string string) :=
  let? _ := call (ValidateFrozenCompose frozenPath digestRef) in
  let* out := call (InspectImage digestRef) in
  match out with
  | Err _ => Ret (Err "staged Docker image ID is not a canonical SHA256 digest")
  | Ok out =>
      if negb (re_match digestPattern (image_id out))
      then Ret (Err "staged Docker image ID is not a canonical SHA256 digest")
      else
        let* repo := call (InspectRepoDigests digestRef) in
        match repo with
        | Err _ => Ret (Err "staged Docker image RepoDigest does not match trusted release manifest")
        | Ok repo =>
            if repositoryHasDigest repo (DockerTarget.ImageRepo d) platformDigest then Ret (Ok (image_id out))
            else Ret (Err "staged Docker image RepoDigest does not match trusted release manifest")
        end
  end.

(** * Apply *)

(** The local variables of [applyDockerWithListenerStore] at its checkpoint. *)
Record change := mk_change {
  ch_target : Target.t;
  ch_plan : ApplyPlan.t;
  ch_baseline : Baseline.t;
  originalEnv : string;
  envMode : Z;
  newEnv : string;
  newID : string;
  execution : string;
}.

Definition docker_checkpoint (c : change) : Checkpoint.t :=
  let plan := ch_plan c in
  let b := ch_baseline c in
  Checkpoint.mk 0 (ApplyPlan.JobID plan) (Target.TargetID (ch_target c)) ModeDocker "prepared" (ApplyPlan.TargetVersion plan)
    (ApplyPlan.ExpectedImageDigest plan) (ApplyPlan.ExpectedPlatformDigest plan) (ApplyPlan.ExpectedVersion plan) "" ""
    (Baseline.ImageID b) (Baseline.SourceVersion b) (Baseline.ImageID b) (Baseline.RepositoryDigest b)
    (Baseline.BundleVersion b) (Baseline.ManifestDigest b) (Baseline.VersionEnvExisted b) (envMode c) (originalEnv c).

Definition docker_result (c : change) (status : string) (rolledBack : bool) (message : string) : ApplyResult.t :=
  ApplyResult.mk status (normalizeDigest (ApplyPlan.ExpectedImageDigest (ch_plan c)))
    (normalizeDigest (Baseline.ImageID (ch_baseline c))) rolledBack message.

(** What the body hands to the deferred function: its result, [envCommitted] and
    [serviceMayHaveMutated]. *)
Definition ending : Type := result string ApplyResult.t * bool * bool.

Definition deferred_restore (c : change) (e : ending) : mprog (result string ApplyResult.t) :=
  let '(r, envCommitted, serviceMayHaveMutated) := e in
  if envCommitted : bool then Ret r
  else
    let* restored := restoreVersionEnv (originalEnv c) (envMode c) (Baseline.VersionEnvExisted (ch_baseline c)) in
    if is_ok restored && negb serviceMayHaveMutated then let* _ := call ClearCheckpoint in Ret r
    else Ret r.

(** The environment file under which the previous image is started again. *)
Definition rollback_env (d : DockerTarget.t) (existed : bool) (original bundle manifest : string) : string :=
  if existed then original
  else match updateVersionEnv "" (DockerTarget.ImageVariable d) (pin_value bundle manifest) with
       | Ok env => env
       | Err _ => ""
       end.

(** A container of the image runs and reports the version. *)
Definition verify_rolled (image version : string) : mprog check :=
  let? cid := managedContainerID in
  let* out := call (InspectContainer cid) in
  match out with
  | Ok out => if image_id out ==? image then call (VerifyTarget version)
              else Ret (Err "rollback container is not running the preserved image ID")
  | Err _ => Ret (Err "rollback container is not running the preserved image ID")
  end.

(** The rollback of an apply up to its checkpoint. *)
Definition roll_back (c : change) : mprog check :=
  let d := Target.Docker (ch_target c) in
  let b := ch_baseline c in
  let stageDir := ApplyPlan.StageDir (ch_plan c) in
  let frozenRollback := Join [stageDir; "compose-frozen-rollback.json"] in
  let* restored := call (WriteVersionEnv (rollback_env d (Baseline.VersionEnvExisted b) (originalEnv c)
                           (Baseline.BundleVersion b) (Baseline.ManifestDigest b)) (envMode c)) in
  let* overridden := writeDockerOverride (Join [stageDir; "compose-override.json"]) (DockerTarget.Service d)
                       (Baseline.ImageID b) in
  let? _ := Ret (firstError [restored; overridden]) in
  let? _ := call (VerifyComposeConfig (Baseline.ImageID b) frozenRollback) in
  let? path := call (FreezeListener frozenRollback) in
  let? _ := call (ValidateFrozen path) in
  let? _ := call (ComposeUp path) in
  verify_rolled (Baseline.ImageID b) (Baseline.SourceVersion b).

Definition docker_rollback (c : change) (cause : string) : mprog ending :=
  let* rolled := roll_back c in
  match rolled with
  | Err _ => Ret (Err "new image failed; rollback failed", false, true)
  | Ok _ =>
      let* saved := call (SaveCheckpoint ((docker_checkpoint c) <| Checkpoint.Phase := "rolled_back" |>)) in
      if is_err saved then Ret (Err "rollback succeeded but terminal checkpoint failed", false, true)
      else Ret (Ok (docker_result c "rolled_back" true cause), false, true)
  end.

(** What must hold of the target once [docker compose up] has succeeded. *)
Definition verify_started (c : change) : mprog check :=
  let* saved := call (SaveCheckpoint ((docker_checkpoint c) <| Checkpoint.Phase := "started" |>)) in
  let* cid := managedContainerID in
  match saved, cid with
  | Err e, _ => Ret (Err e)
  | Ok _, Err _ => Ret (Err "updated compose service has no running container")
  | Ok _, Ok cid =>
      let* out := call (InspectContainer cid) in
      match out with
      | Ok out => if TrimSpace out ==? newID c then call (VerifyTarget (ApplyPlan.ExpectedVersion (ch_plan c)))
                  else Ret (Err "updated container is not running the trusted image ID")
      | Err _ => Ret (Err "updated container is not running the trusted image ID")
      end
  end.

Definition docker_start (c : change) : mprog ending :=
  let* up := call (ComposeUp (execution c)) in
  let* verified := match up with Ok _ => verify_started c | Err _ => Ret (Ok tt) end in
  match firstError [up; verified] with
  | Ok _ =>
      let* saved := call (SaveCheckpoint ((docker_checkpoint c) <| Checkpoint.Phase := "succeeded" |>)) in
      if is_err saved then Ret (Err "updated Docker target is healthy but terminal checkpoint failed", false, true)
      else Ret (Ok (docker_result c "succeeded" false ""), true, true)
  | Err cause => docker_rollback c cause
  end.

(** An early return before the service is touched. *)
Definition abandon (e : string) : mprog ending := Ret (Err e, false, false).

Definition docker_starting (c : change) : mprog ending :=
  let* saved := call (SaveCheckpoint ((docker_checkpoint c) <| Checkpoint.Phase := "starting" |>)) in
  if is_err saved then abandon "persist Docker starting checkpoint"
  else
    let* valid := call (ValidateFrozen (execution c)) in
    match valid with
    | Err e => abandon e
    | Ok _ => docker_start c
    end.

Definition docker_cutover (c : change) : mprog ending :=
  let* wrote := call (WriteVersionEnv (newEnv c) (envMode c)) in
  match wrote with
  | Err e => abandon e
  | Ok _ =>
      let* saved := call (SaveCheckpoint ((docker_checkpoint c) <| Checkpoint.Phase := "env_written" |>)) in
      if is_err saved then abandon "persist Docker env checkpoint" else docker_starting c
  end.

Definition docker_commit (c : change) : mprog (result string ApplyResult.t) :=
  let* saved := call (SaveCheckpoint (docker_checkpoint c)) in
  if is_err saved then Ret (Err "persist Docker update checkpoint")
  else
    let* e := docker_cutover c in
    deferred_restore c e.

Definition digest_ref (target : Target.t) (plan : ApplyPlan.t) : string :=
  DockerTarget.ImageRepo (Target.Docker target) +:+ "@" +:+ ApplyPlan.ExpectedPlatformDigest plan.

(** The checks between the gate and the first change, and the change. *)
Definition apply_granted (target : Target.t) (plan : ApplyPlan.t) (stage : Stage.t)
    (baseline : Baseline.t) (original : string) (mode : Z) (env newID : string) : mprog (result string ApplyResult.t) :=
  let frozenPath := Join [ApplyPlan.StageDir plan; "compose-frozen.json"] in
  let* afterGrant := observeDockerMutationBaseline target in
  if match afterGrant with Ok (b, _, _) => negb (Baseline.matches baseline b) | Err _ => true end
  then Ret (Err "Docker target changed while consuming the mutation grant")
  else
    let* afterGrantID := verifyTrustedStagedDockerInputs (Target.Docker target) frozenPath (digest_ref target plan)
                           (ApplyPlan.ExpectedPlatformDigest plan) in
    if match afterGrantID with
       | Ok id => (id !=? newID) || (id !=? normalizeDigest (Stage.ImageID stage))
       | Err _ => true
       end
    then Ret (Err "staged Docker inputs changed while consuming the mutation grant")
    else
      let? _ := call (PreflightPorts frozenPath (Baseline.ContainerID baseline)) in
      let? execution := call (FreezeListener frozenPath) in
      docker_commit (mk_change target plan baseline original mode env newID execution).

Definition baseline_changed (staged : option Baseline.t) (actual : Baseline.t) : bool :=
  match staged with
  | Some b => is_err (Baseline.validate b) || negb (Baseline.matches b actual)
  | None => false
  end.

(** [if planned := ...; planned != ""] at the start of an apply. *)
Definition verify_planned_version (target : Target.t) (plan : ApplyPlan.t) : mprog check :=
  let planned := TrimSpace (ApplyPlan.CurrentVersion plan) in
  if planned ==? "" then Ret (Ok tt)
  else
    let* current := managedRemoteCurrentVersion target in
    match current with
    | Err _ => Ret (Err "could not verify the planned current version")
    | Ok current => Ret (requirePlannedCurrentVersion planned current)
    end.

Definition applyDocker (target : Target.t) (plan : ApplyPlan.t) (stage : Stage.t) (gate : gate_prog) :
    mprog (result string ApplyResult.t) :=
  let d := Target.Docker target in
  if negb (re_match versionPattern (ApplyPlan.ExpectedVersion plan)) ||
     negb (re_match digestPattern (ApplyPlan.ExpectedImageDigest plan)) ||
     negb (re_match digestPattern (ApplyPlan.ExpectedPlatformDigest plan))
  then Ret (Err "trusted Docker release metadata is missing")
  else if (ApplyPlan.StageDir plan ==? "") || negb (IsAbs (ApplyPlan.StageDir plan))
  then Ret (Err "trusted Docker working directory is missing")
  else
    let? _ := verify_planned_version target plan in
    let? (baseline, original, mode) := observeDockerMutationBaseline target in
    if baseline_changed (Stage.DockerBaseline stage) baseline then Ret (Err "Docker target changed after staging")
    else
      let? _ := Ret (requirePlannedCurrentVersion (ApplyPlan.CurrentVersion plan) (Baseline.BundleVersion baseline)) in
      let? _ := writeDockerOverride (Join [ApplyPlan.StageDir plan; "compose-override.json"]) (DockerTarget.Service d)
                  (digest_ref target plan) in
      let? env := Ret (updateVersionEnv original (DockerTarget.ImageVariable d)
                    (pin_value (ApplyPlan.TargetVersion plan) (ApplyPlan.ExpectedImageDigest plan))) in
      if negb (re_match digestPattern (Stage.ImageID stage)) then Ret (Err "staged Docker image binding is missing")
      else
        let? newID := verifyTrustedStagedDockerInputs d (Join [ApplyPlan.StageDir plan; "compose-frozen.json"])
                        (digest_ref target plan) (ApplyPlan.ExpectedPlatformDigest plan) in
        if newID !=? normalizeDigest (Stage.ImageID stage) then Ret (Err "staged Docker image ID changed after staging")
        else
          let? _ := gate in
          apply_granted target plan stage baseline original mode env newID.

(** * Reconcile

    [reconcileDockerWithListenerStore] with the nil gate that the executor passes. *)

Definition docker_mismatch (plan : ApplyPlan.t) (c : Checkpoint.t) : bool :=
  (Checkpoint.JobID c !=? ApplyPlan.JobID plan) || (Checkpoint.TargetVersion c !=? ApplyPlan.TargetVersion plan) ||
  (Checkpoint.TargetDigest c !=? ApplyPlan.ExpectedImageDigest plan) ||
  (Checkpoint.TargetPlatform c !=? ApplyPlan.ExpectedPlatformDigest plan) ||
  (Checkpoint.TargetSourceVersion c !=? ApplyPlan.ExpectedVersion plan) ||
  negb (re_match versionPattern (Checkpoint.TargetSourceVersion c)) ||
  negb (re_match digestPattern (Checkpoint.PreviousImageID c)) ||
  negb (re_match versionPattern (Checkpoint.PreviousBundleVersion c)) ||
  negb (re_match digestPattern (Checkpoint.PreviousManifestDigest c)) ||
  is_err (requirePlannedCurrentVersion (ApplyPlan.CurrentVersion plan) (Checkpoint.PreviousBundleVersion c)).

(** The image of the one container, empty if there is none. *)
Definition running_image : mprog string :=
  let* cid := managedContainerID in
  match cid with
  | Err _ => Ret ""
  | Ok cid =>
      let* out := call (InspectContainer cid) in
      match out with
      | Ok out => Ret (if re_match digestPattern (image_id out) then image_id out else "")
      | Err _ => Ret ""
      end
  end.

Definition checkpointMode (c : Checkpoint.t) : Z :=
  if (Checkpoint.VersionEnvMode c =? 0)%Z then 384%Z else Checkpoint.VersionEnvMode c.

(** The requested image runs and is healthy. *)
Definition reconcile_requested (target : Target.t) (plan : ApplyPlan.t) (cp : option Checkpoint.t) (imageID : string) :
    mprog (result string ApplyResult.t) :=
  let? (env, mode) :=
    match cp with
    | Some c => Ret (Ok (Checkpoint.PreviousVersionEnv c, checkpointMode c))
    | None => let? (env, mode, _) := call ReadVersionEnv in Ret (Ok (env, mode))
    end in
  match updateVersionEnv env (DockerTarget.ImageVariable (Target.Docker target))
          (pin_value (ApplyPlan.TargetVersion plan) (ApplyPlan.ExpectedImageDigest plan)) with
  | Err _ => Ret (Err "requested image is running but its durable version pin could not be restored")
  | Ok pinned =>
      let* wrote := call (WriteVersionEnv pinned mode) in
      if is_err wrote then Ret (Err "requested image is running but its durable version pin could not be restored")
      else
        let? _ := match cp with Some _ => call ClearCheckpoint | None => Ret (Ok tt) end in
        Ret (Ok (ApplyResult.mk "succeeded" (normalizeDigest (ApplyPlan.ExpectedImageDigest plan))
                   (normalizeDigest imageID) false "interrupted update is running the requested image"))
  end.

(** No checkpoint: the apply had not begun its change, if the target shows it. *)
Definition reconcile_unmarked (target : Target.t) (plan : ApplyPlan.t) (imageID : string)
    (digests : result string (option (list string))) : mprog (result string ApplyResult.t) :=
  let d := Target.Docker target in
  let* env := call ReadVersionEnv in
  let* health := call HealthyVersion in
  let planned := TrimSpace (ApplyPlan.CurrentVersion plan) in
  let untouched :=
    match env, digests with
    | Ok (data, _, existed), Ok repo =>
        existed && is_ok (repositoryDigest repo (DockerTarget.ImageRepo d)) &&
        match parseVersionEnvPin data (DockerTarget.ImageVariable d) with
        | Ok (bundle, _) => bundle ==? planned
        | Err _ => false
        end
    | _, _ => false
    end in
  if (imageID !=? "") && untouched && re_match versionPattern planned && is_ok health
  then Ret (Ok (ApplyResult.mk "rolled_back" "" (normalizeDigest imageID) true
                  "apply had not changed the verified previous Docker target"))
  else Ret (Err "interrupted Docker update has no trustworthy rollback checkpoint").

(** Back to the image of the checkpoint. *)
Definition reconcile_roll_back (target : Target.t) (plan : ApplyPlan.t) (c : Checkpoint.t) :
    mprog (result string ApplyResult.t) :=
  let d := Target.Docker target in
  let previous := Checkpoint.PreviousImageID c in
  let frozenPath := Join [ApplyPlan.StageDir plan; "compose-reconcile-frozen.json"] in
  let* wrote := call (WriteVersionEnv (rollback_env d (Checkpoint.VersionEnvExisted c) (Checkpoint.PreviousVersionEnv c)
                        (Checkpoint.PreviousBundleVersion c) (Checkpoint.PreviousManifestDigest c))
                        (Checkpoint.VersionEnvMode c)) in
  let* overridden := writeDockerOverride (Join [ApplyPlan.StageDir plan; "compose-reconcile-rollback.json"])
                       (DockerTarget.Service d) previous in
  let? _ := Ret (firstError [wrote; overridden]) in
  let? _ := call VerifyComposeModel in
  let? _ := call (VerifyComposeConfig previous frozenPath) in
  let? path := call (FreezeListener frozenPath) in
  let? _ := call (ValidateFrozen path) in
  let? _ := call (ComposeUp path) in
  let? _ := verify_rolled previous (Checkpoint.PreviousVersion c) in
  let? _ := if Checkpoint.VersionEnvExisted c then Ret (Ok tt)
            else restoreVersionEnv "" (Checkpoint.VersionEnvMode c) false in
  let? _ := call ClearCheckpoint in
  Ret (Ok (ApplyResult.mk "rolled_back" (ApplyPlan.ExpectedImageDigest plan) previous true
             "interrupted Docker cutover was rolled back from its durable checkpoint")).

Definition reconcile_marked (target : Target.t) (plan : ApplyPlan.t) (c : Checkpoint.t) (imageID : string) :
    mprog (result string ApplyResult.t) :=
  let* version := call HealthyVersion in
  if (imageID ==? Checkpoint.PreviousImageID c) &&
     match version with Ok v => versionsEqual v (Checkpoint.PreviousVersion c) | Err _ => false end
  then
    let? _ := restoreVersionEnv (Checkpoint.PreviousVersionEnv c) (Checkpoint.VersionEnvMode c)
                (Checkpoint.VersionEnvExisted c) in
    let? _ := call ClearCheckpoint in
    Ret (Ok (ApplyResult.mk "rolled_back" "" (normalizeDigest imageID) true "previous Docker image is healthy"))
  else reconcile_roll_back target plan c.

Definition reconcileDocker (target : Target.t) (plan : ApplyPlan.t) : mprog (result string ApplyResult.t) :=
  let d := Target.Docker target in
  let? cp := call (LoadCheckpoint target) in
  if match cp with Some c => docker_mismatch plan c | None => false end
  then Ret (Err "Docker checkpoint does not match the recovered job")
  else
    let* imageID := running_image in
    let* digests := if imageID !=? "" then call (InspectRepoDigests imageID) else Ret (Ok None) in
    let trusted := match digests with
                   | Ok repo => repositoryHasDigest repo (DockerTarget.ImageRepo d) (ApplyPlan.ExpectedPlatformDigest plan)
                   | Err _ => false
                   end in
    let* healthy := if (imageID !=? "") && trusted then call (VerifyTarget (ApplyPlan.ExpectedVersion plan))
                    else Ret (Err "the requested image does not run") in
    match healthy, cp with
    | Ok _, _ => reconcile_requested target plan cp imageID
    | Err _, None => reconcile_unmarked target plan imageID digests
    | Err _, Some c => reconcile_marked target plan c imageID
    end.

Definition docker_backend : Backend := {| bk_apply := applyDocker; bk_reconcile := reconcileDocker |}.
End Docker.
