(* ===== verification/DockerCutover.v ===== *)
(** The cutover of a Docker target under the mutation executor: the target is gated, and
    what the host looks like at every crash point of an apply and under every result. *)
From Stdlib Require Import Ascii String ZArith Lia.
From stdpp Require Import base decidable list strings gmap.
From S2P Require Import Prelude Strings Regexp Patterns Effects Sha256 Json Paths PlanDigest MutationLedger DockerPin MutationExec MutationSafety SystemdCutover DockerRelease.

Open Scope string_scope.

(** A running container of the service has the image, as the code reads image ids. *)
Definition hosts `{UnicodeTables} (image : string) (h : DockerHost.t) : Prop :=
  exists id raw, (id, raw) ∈ DockerHost.containers h /\ image_id (DockerHost.line raw) = image.

(** The environment file that a baseline describes. *)
Definition env_file (existed : bool) (mode : Z) (data : string) : option (Z * string) :=
  if existed then Some (mode, data) else None.

(** What a baseline says about the target. *)
Record describes `{UnicodeTables} (d : DockerTarget.t) (h : DockerHost.t) (b : Baseline.t) (env : string) (mode : Z) : Prop := {
  ds_env : DockerHost.version_env h = env_file (Baseline.VersionEnvExisted b) mode env;
  ds_hosts : hosts (Baseline.ImageID b) h;
  ds_size : (len env <= 65536)%Z;
  ds_valid : Baseline.validate b = Ok tt;
  ds_pin : exists manifest, version_pin d env (Baseline.VersionEnvExisted b) = Ok (Baseline.BundleVersion b, manifest);
}.

(** * The Docker target is gated *)

Section Gated.
Context `{UnicodeTables} `{TimeZones}.

Definition observing (X : Type) (o : op X) : Prop := observation o = true.
Definition targeting (X : Type) (o : op X) : Prop := target_op o = true.

Lemma wp_observes {A} (I : world -> Prop) (p : prog op A) Q w :
  only observing p -> I w -> (forall r, Q r w) -> wp I p Q w.
Proof.
  intros Ho HI HQ. induction p as [a|X o k IH]; [by apply wp_ret|]. destruct Ho as [Ho Hk].
  split; [done|]. intros ans x w' E. apply observation_same in E as ->; [|done]. by apply IH.
Qed.

Lemma wp_stays {A} (I F : world -> Prop) (p : prog op A) Q w :
  target_closed F -> (forall v, F v -> I v) -> only targeting p -> F w -> (forall r v, F v -> Q r v) -> wp I p Q w.
Proof.
  intros HF HI Ho Hw HQ. apply (wp_weaken F); [done|]. eapply wp_mono; [intros a v _ Hv; exact (HQ a v Hv)|].
  apply (wp_only targeting); [|done..]. intros X o ans x u v. apply HF.
Qed.

(** An observation tells the truth or fails. *)
Lemma wp_reads_host {A} (I : world -> Prop) (o : op (result string A)) (r : result string A) Q w :
  (forall ans, handle o ans w = observed ans r w) -> I w -> (forall x, (forall a, x = Ok a -> r = Ok a) -> Q x w) ->
  wp I (call o) Q w.
Proof.
  intros Ho HI HQ. apply wp_call; [done|]. intros ans x w' E. rewrite Ho in E.
  pose proof (observed_same _ _ _ _ _ E) as ->. split; [done|]. apply HQ. intros a ->.
  unfold observed in E. destruct ans; try discriminate E. by injection E.
Qed.

Lemma inspect_spec (I : world -> Prop) id Q w :
  I w -> (forall x, (forall out, x = Ok out -> hosts (image_id out) (dhost w)) -> Q x w) ->
  wp I (call (InspectContainer id)) Q w.
Proof.
  intros HI HQ. eapply wp_reads_host; [intros ans; reflexivity|done|]. intros x Hx. apply HQ. intros out ->.
  specialize (Hx out eq_refl). unfold DockerHost.container_image in Hx.
  destruct (find _ _) as [[id' raw]|] eqn:Ef; [|done]. apply find_some in Ef as [Hin _].
  cbn in Hx. injection Hx as <-. exists id', raw. split; [by apply list_elem_of_In|done].
Qed.

(** Every operation of the program passes the test. *)
Ltac all_ops := repeat first [only_step | progress cbv zeta | reflexivity].

Lemma managedContainerID_only : only observing managedContainerID.
Proof. unfold managedContainerID. all_ops. Qed.

Lemma baseline_only target : only observing (observeDockerMutationBaseline target).
Proof. unfold observeDockerMutationBaseline, managedContainerID. all_ops. Qed.

Lemma baseline_spec (I : world -> Prop) target Q w :
  I w -> (forall r, (forall b env mode, r = Ok (b, env, mode) -> describes (Target.Docker target) (dhost w) b env mode) -> Q r w) ->
  wp I (observeDockerMutationBaseline target) Q w.
Proof.
  intros HI HQ. assert (HE : forall e, Q (Err e) w) by (intros; by apply HQ).
  unfold observeDockerMutationBaseline. cbv zeta.
  apply wp_bind_ok. eapply wp_reads_host; [intros ans; reflexivity|done|]. intros [[[env mode] existed]|] Henv; [|done].
  specialize (Henv _ eq_refl). apply wp_bind_ok, wp_ret; [done|].
  destruct (version_pin _ _ _) as [[bundle manifest]|] eqn:Ev; [|done]. branch; [by apply wp_ret|].
  apply wp_bind, wp_observe; [done..|]. intros [source|]; [|by apply wp_ret]. branch; [by apply wp_ret|].
  apply wp_bind, wp_observes; [apply managedContainerID_only|done|]. intros [cid|]; [|by apply wp_ret].
  branch; [by apply wp_ret|]. apply wp_bind, inspect_spec; [done|]. intros [out|] Hout; [|by apply wp_ret].
  specialize (Hout _ eq_refl). branch; [by apply wp_ret|].
  apply wp_bind, wp_observe; [done..|]. intros [repo|]; [|by apply wp_ret].
  destruct (repositoryDigest _ _); [|by apply wp_ret]. destruct (Baseline.validate _) as [[]|] eqn:Eb; [|by apply wp_ret].
  apply wp_ret; [done|]. apply HQ. intros b env' mode' [= <- <- <-].
  assert (Hf : DockerHost.version_env (dhost w) = env_file existed mode env /\ (len env <= 65536)%Z).
  { unfold readVersionEnv in Henv. destruct (DockerHost.version_env (dhost w)) as [[m data]|].
    - destruct (65536 <? len data)%Z eqn:El; [done|]. apply Z.ltb_ge in El. injection Henv as <- <- <-. by split; [|exact El].
    - injection Henv as <- <- <-. split; [done|]. unfold len. cbn. lia. }
  split; [apply Hf|exact Hout|apply Hf|exact Eb|by exists manifest].
Qed.

Lemma staged_only d path ref digest : only observing (verifyTrustedStagedDockerInputs d path ref digest).
Proof. unfold verifyTrustedStagedDockerInputs. all_ops. Qed.

Lemma staged_spec (I : world -> Prop) d path ref digest Q w :
  I w -> (forall r, (is_ok r = true -> DockerHost.models (dhost w) !! path = Some ref) -> Q r w) ->
  wp I (verifyTrustedStagedDockerInputs d path ref digest) Q w.
Proof.
  intros HI HQ. unfold verifyTrustedStagedDockerInputs. apply wp_bind_ok.
  eapply wp_reads_host; [intros ans; reflexivity|done|]. intros [[]|] Hx; [|by apply HQ].
  specialize (Hx _ eq_refl). case_bool_decide as Em; [|done].
  apply wp_observes; [|done|by intros r; apply HQ]. all_ops.
Qed.

Lemma planned_only target plan : only observing (verify_planned_version target plan).
Proof. unfold verify_planned_version, managedRemoteCurrentVersion, currentRelease. all_ops. Qed.

Lemma override_only path service image : only observing (writeDockerOverride path service image).
Proof. unfold writeDockerOverride. all_ops. Qed.

Lemma commit_only c : only targeting (docker_commit c).
Proof.
  unfold docker_commit, docker_cutover, docker_starting, abandon, docker_start, docker_rollback, roll_back, verify_started, verify_rolled,
    managedContainerID, writeDockerOverride, deferred_restore, restoreVersionEnv. all_ops.
Qed.

Lemma granted_only target plan stage b original mode env id :
  only targeting (apply_granted target plan stage b original mode env id).
Proof.
  unfold apply_granted, observeDockerMutationBaseline, managedContainerID, verifyTrustedStagedDockerInputs.
  all_ops; apply commit_only.
Qed.

Lemma reconcile_only target plan : only targeting (reconcileDocker target plan).
Proof.
  unfold reconcileDocker, running_image, reconcile_requested, reconcile_unmarked, reconcile_marked, reconcile_roll_back,
    verify_rolled, managedContainerID, writeDockerOverride, restoreVersionEnv. all_ops.
Qed.
(** Up to the gate apply observes; what follows the gate starts in a world that the gate
    has let pass, with what was observed before. *)
Lemma apply_until_gate (I : world -> Prop) target plan stage g (Q : result string ApplyResult.t -> world -> Prop) w :
  (forall e, Q (Err e) w) -> I w ->
  (forall b original mode env,
     describes (Target.Docker target) (dhost w) b original mode -> re_match digestPattern (Stage.ImageID stage) = true ->
     requirePlannedCurrentVersion (ApplyPlan.CurrentVersion plan) (Baseline.BundleVersion b) = Ok tt ->
     updateVersionEnv original (DockerTarget.ImageVariable (Target.Docker target))
       (pin_value (ApplyPlan.TargetVersion plan) (ApplyPlan.ExpectedImageDigest plan)) = Ok env ->
     wp I g (fun r v => match r with
                        | Ok _ => wp I (apply_granted target plan stage b original mode env
                                          (normalizeDigest (Stage.ImageID stage))) Q v
                        | Err e => Q (Err e) v
                        end) w) ->
  wp I (applyDocker target plan stage g) Q w.
Proof.
  intros HE HI Hg. unfold applyDocker. cbv zeta. branch; [by apply wp_ret; auto|]. branch; [by apply wp_ret; auto|].
  apply wp_bind_ok, wp_observes; [apply planned_only|done|]. intros [[]|]; [|by auto].
  apply wp_bind_ok, baseline_spec; [done|]. intros [[[b original] mode]|] Hb; [|by auto]. specialize (Hb _ _ _ eq_refl).
  branch; [by apply wp_ret; auto|]. apply wp_bind_ok, wp_ret; [done|].
  destruct (requirePlannedCurrentVersion _ _) as [[]|] eqn:Er; [|by auto].
  apply wp_bind_ok, wp_observes; [apply override_only|done|]. intros [[]|]; [|by auto].
  apply wp_bind_ok, wp_ret; [done|]. destruct (updateVersionEnv _ _ _) as [env|] eqn:Eu; [|by auto].
  destruct (re_match digestPattern (Stage.ImageID stage)) eqn:Ed; cbn [negb]; [|by apply wp_ret; auto].
  apply wp_bind_ok, wp_observes; [apply staged_only|done|]. intros [id|]; [|by auto].
  destruct (id !=? _) eqn:Ei; [by apply wp_ret; auto|]. bool_to_prop. subst id. apply wp_bind_ok. by apply Hg.
Qed.

#[export] Instance docker_gated : GatedBackend docker_backend.
Proof.
  split; cbn [bk_apply bk_reconcile docker_backend].
  - intros I F target plan stage g w HF HFI Hg. apply apply_until_gate; [done|by eapply wp_inv|].
    intros. eapply wp_mono; [|exact Hg]. intros [[]|] v _ Hr; [|done].
    apply (wp_stays I F); [done|done|apply granted_only|auto|auto].
  - intros F target plan w HF Hw. apply (wp_stays F F); [done|done|apply reconcile_only|auto|auto].
Qed.

#[export] Instance docker_job_bound : JobBound docker_backend.
Proof.
  intros I cp target plan w HI Hc Hj. cbn [bk_reconcile docker_backend]. unfold reconcileDocker. cbv zeta.
  apply wp_bind_ok. eapply load_mismatch; [done|done|done|]. unfold docker_mismatch.
  rewrite (bool_decide_eq_false_2 (Checkpoint.JobID cp = _)) by done. by apply wp_ret.
Qed.
End Gated.

(** * Crash points of a cutover *)

Section Operations.
Context `{UnicodeTables}.

(** An operation with one effect on the Docker host. *)
Lemma wp_changes (I : world -> Prop) (o : op check) e h' Q w :
  (forall ans, handle o ans w = effectful ans (log e w) ((log e w) <| dhost := h' |>)) -> I w ->
  (forall x v, checkpoint v = checkpoint w -> dhost v = dhost w \/ dhost v = h' -> (x = Ok tt -> dhost v = h') ->
     I v /\ Q x v) ->
  wp I (call o) Q w.
Proof.
  intros Ho HI HQ. apply wp_call; [done|]. intros ans x w' E. rewrite Ho in E. unfold effectful in E.
  destruct ans; try discriminate E; injection E as <- <-; apply HQ; cbn; auto; done.
Qed.

Lemma wp_save_checkpoint (I : world -> Prop) c Q w :
  let c' := c <| Checkpoint.SchemaVersion := Checkpoint.checkpointSchemaVersion |> in
  I w ->
  (forall x v, dhost v = dhost w -> checkpoint v = checkpoint w \/ checkpoint v = Some c' ->
     (x = Ok tt -> checkpoint v = Some c') -> I v /\ Q x v) ->
  wp I (call (SaveCheckpoint c)) Q w.
Proof.
  intros c' HI HQ. apply wp_call; [done|]. intros ans x w' E. cbn in E. unfold effectful in E.
  destruct ans; try discriminate E; injection E as <- <-; apply HQ; auto; done.
Qed.

Lemma wp_clear_checkpoint (I : world -> Prop) Q w :
  I w -> (forall x v, dhost v = dhost w -> checkpoint v = checkpoint w \/ checkpoint v = None -> I v /\ Q x v) ->
  wp I (call ClearCheckpoint) Q w.
Proof.
  intros HI HQ. apply wp_call; [done|]. intros ans x w' E. cbn in E. unfold effectful in E.
  destruct ans; try discriminate E; injection E as <- <-; apply HQ; cbn; auto; done.
Qed.

(** Environment file, containers and images stay. *)
Record steady (h h' : DockerHost.t) : Prop := {
  sd_env : DockerHost.version_env h' = DockerHost.version_env h;
  sd_containers : DockerHost.containers h' = DockerHost.containers h;
  sd_images : DockerHost.images h' = DockerHost.images h;
}.

Lemma wp_freeze (I : world -> Prop) path Q w :
  I w ->
  (forall x v, checkpoint v = checkpoint w -> steady (dhost w) (dhost v) ->
     (forall p, x = Ok p -> DockerHost.models (dhost v) !! p = DockerHost.models (dhost w) !! path) -> I v /\ Q x v) ->
  wp I (call (FreezeListener path)) Q w.
Proof.
  intros HI HQ. apply wp_call; [done|]. intros ans x w' E. cbn in E.
  destruct (DockerHost.models (dhost w) !! path) as [image|] eqn:Em; destruct ans; try discriminate E;
    injection E as <- <-; apply HQ; try done.
  - by intros p [= <-].
  - intros p [= <-]. cbn. apply lookup_insert_eq.
Qed.

(** What [docker compose up] may leave running, given the image that it starts. *)
Inductive rolled (h : DockerHost.t) (ref : option string) : list (string * string) -> Prop :=
| rolled_same : rolled h ref (DockerHost.containers h)
| rolled_down : rolled h ref []
| rolled_up id image : ref ≫= DockerHost.image_of h = Some image -> rolled h ref [(id, image)].

Lemma compose_up_rolled h w id image ref :
  DockerHost.containers h = DockerHost.containers (dhost w) -> ref ≫= DockerHost.image_of h = Some image ->
  exists cs, compose_up w id image = set_containers w cs /\ rolled h ref cs.
Proof.
  intros Hc Hr. unfold compose_up.
  destruct (DockerHost.containers (dhost w)) as [|[a b] [|]] eqn:Ec;
    try (eexists; split; [reflexivity|by constructor]).
  destruct (b ==? image); [|eexists; split; [reflexivity|by constructor]].
  exists (DockerHost.containers (dhost w)). split; [by destruct w as [? ? ? ? ? ? ? ? []]|].
  rewrite Ec, <- Hc. constructor.
Qed.

Lemma wp_up (I : world -> Prop) path Q w :
  I w ->
  (forall x v cs, checkpoint v = checkpoint w -> dhost v = (dhost w) <| DockerHost.containers := cs |> ->
     rolled (dhost w) (DockerHost.models (dhost w) !! path) cs -> I v /\ Q x v) ->
  wp I (call (ComposeUp path)) Q w.
Proof.
  intros HI HQ. apply wp_call; [done|]. intros ans x w' E. cbn in E.
  assert (Hsame : forall y, I (log (EMutation "container") w) /\ Q y (log (EMutation "container") w)).
  { intros y. eapply (HQ y _ (DockerHost.containers (dhost w))); [done| |constructor]. by destruct w as [? ? ? ? ? ? ? ? []]. }
  destruct (DockerHost.models (dhost w) !! path ≫= DockerHost.image_of (dhost w)) as [image|] eqn:Er.
  - assert (Hup : forall y id, I (compose_up (log (EMutation "container") w) id image) /\
                               Q y (compose_up (log (EMutation "container") w) id image)).
    { intros y id. destruct (compose_up_rolled (dhost w) (log (EMutation "container") w) id image _ eq_refl Er) as (cs & -> & Hcs).
      by apply (HQ y _ cs). }
    destruct ans; cbn in E; try discriminate E; injection E as <- <-; auto.
    eapply (HQ _ _ []); [done|done|constructor].
  - destruct ans; cbn in E; try discriminate E; injection E as <- <-; auto.
Qed.
End Operations.

Section Cutover.
Context `{UnicodeTables} `{TimeZones}.
Context (target : Target.t) (plan : ApplyPlan.t) (stage : Stage.t) (h0 : DockerHost.t).

Abbreviation env w := (DockerHost.version_env (dhost w)).
Abbreviation containers w := (DockerHost.containers (dhost w)).

(** The change that an apply of the plan makes, starting from the host [h0]. *)
Record faithful (c : change) : Prop := {
  so_target : ch_target c = target;
  so_plan : ch_plan c = plan;
  so_describes : describes (Target.Docker target) h0 (ch_baseline c) (originalEnv c) (envMode c);
  so_env : updateVersionEnv (originalEnv c) (DockerTarget.ImageVariable (Target.Docker target))
    (pin_value (ApplyPlan.TargetVersion plan) (ApplyPlan.ExpectedImageDigest plan)) = Ok (newEnv c);
  so_id : newID c = Stage.ImageID stage;
  so_digest : re_match digestPattern (newID c) = true;
  so_current : requirePlannedCurrentVersion (ApplyPlan.CurrentVersion plan) (Baseline.BundleVersion (ch_baseline c)) = Ok tt;
}.

Definition docker_stamped (c : change) (phase : string) : Checkpoint.t :=
  (docker_checkpoint c) <| Checkpoint.Phase := phase |> <| Checkpoint.SchemaVersion := Checkpoint.checkpointSchemaVersion |>.

(** The environment file for the previous image. *)
Definition back_env (c : change) : string :=
  let b := ch_baseline c in
  rollback_env (Target.Docker target) (Baseline.VersionEnvExisted b) (originalEnv c) (Baseline.BundleVersion b)
    (Baseline.ManifestDigest b).

(** The environment file as found, with the new pin, or with the previous one; the
    containers as found, none, or one of the new or the previous image. *)
Definition env_between (c : change) (e : option (Z * string)) : Prop :=
  e = DockerHost.version_env h0 \/ e = Some (envMode c, newEnv c) \/ e = Some (envMode c, back_env c).

Definition fleet_between (c : change) (cs : list (string * string)) : Prop :=
  rolled h0 (Some (digest_ref target plan)) cs \/ rolled h0 (Some (Baseline.ImageID (ch_baseline c))) cs.

Record covered (c : change) (w : world) : Prop := {
  gd_checkpoint : exists phase, checkpoint w = Some (docker_stamped c phase);
  gd_env : env_between c (env w);
  gd_fleet : fleet_between c (containers w);
  gd_images : DockerHost.images (dhost w) = DockerHost.images h0;
}.

Lemma covered_steady c w v : checkpoint v = checkpoint w -> steady (dhost w) (dhost v) -> covered c w -> covered c v.
Proof. intros Hk [E1 E2 E3] [G1 G2 G3 G4]. split; by rewrite ?Hk, ?E1, ?E2, ?E3. Qed.

Lemma covered_same c w v : checkpoint v = checkpoint w -> dhost v = dhost w -> covered c w -> covered c v.
Proof. intros Hk Hd. by apply covered_steady; [|rewrite Hd]. Qed.

Lemma covered_env c w v e :
  checkpoint v = checkpoint w -> dhost v = dhost w \/ dhost v = (dhost w) <| DockerHost.version_env := e |> ->
  env_between c e -> covered c w -> covered c v.
Proof.
  intros Hk [Hd|Hd] He G; [by eapply covered_same|]. destruct G as [G1 G2 G3 G4]. split; rewrite ?Hk, ?Hd; done.
Qed.

Lemma covered_model c w v path image :
  checkpoint v = checkpoint w ->
  dhost v = dhost w \/ dhost v = (dhost w) <| DockerHost.models := <[path := image]> (DockerHost.models (dhost w)) |> ->
  covered c w -> covered c v.
Proof. intros Hk Hd G. eapply covered_steady; [exact Hk| |exact G]. by destruct Hd as [-> | ->]. Qed.

Lemma image_of_images h h' ref : DockerHost.images h = DockerHost.images h' -> DockerHost.image_of h ref = DockerHost.image_of h' ref.
Proof. unfold DockerHost.image_of. by intros ->. Qed.

Lemma covered_up c w v ref cs :
  checkpoint v = checkpoint w -> dhost v = (dhost w) <| DockerHost.containers := cs |> ->
  rolled (dhost w) (Some ref) cs -> ref = digest_ref target plan \/ ref = Baseline.ImageID (ch_baseline c) ->
  covered c w -> covered c v.
Proof.
  intros Hk Hd Hcs Href [G1 G2 G3 G4]. split; rewrite ?Hk, ?Hd; try done. cbn.
  destruct Hcs as [| |id image Hi]; [done|left; constructor|]. cbn in Hi. rewrite (image_of_images _ h0) in Hi by done.
  destruct Href as [-> | ->]; [left|right]; by constructor.
Qed.

Lemma verify_rolled_spec (I : world -> Prop) image version Q w :
  I w -> (forall r, (r = Ok tt -> hosts image (dhost w)) -> Q r w) -> wp I (verify_rolled image version) Q w.
Proof.
  intros HI HQ. assert (HE : forall e, Q (Err e) w) by (intros; by apply HQ). unfold verify_rolled.
  apply wp_bind_ok, wp_observes; [apply managedContainerID_only|done|]. intros [cid|]; [|done].
  apply wp_bind, inspect_spec; [done|]. intros [out|] Hout; [|by apply wp_ret]. specialize (Hout _ eq_refl).
  destruct (image_id out ==? image) eqn:Ei; [|by apply wp_ret]. bool_to_prop. subst image.
  apply wp_observe; [done..|]. intros x. by apply HQ.
Qed.

Section Change.
Context (c : change) (Hc : faithful c).

(** Rolling back keeps the checkpoint and ends on the previous image, under its
    environment file. *)
Lemma roll_back_spec w :
  covered c w ->
  wp (covered c) (roll_back c)
    (fun r v => covered c v /\ (r = Ok tt -> env v = Some (envMode c, back_env c) /\
                                  hosts (Baseline.ImageID (ch_baseline c)) (dhost v))) w.
Proof.
  intros G0. unfold roll_back. cbv zeta. rewrite (so_target _ Hc). fold (back_env c).
  apply wp_bind. eapply wp_changes; [intros ans; reflexivity|done|]. intros restored v1 K1 D1 O1.
  assert (G1 : covered c v1) by (eapply covered_env; [exact K1|exact D1|by right; right|done]). split; [done|].
  apply wp_bind, wp_observes; [apply override_only|done|]. intros overridden.
  apply wp_bind_ok, wp_ret; [done|]. destruct (firstError _) as [[]|] eqn:Ef; [|done].
  apply firstError_ok, Forall_cons in Ef as [-> _]. specialize (O1 eq_refl).
  assert (E1 : env v1 = Some (envMode c, back_env c)) by by rewrite O1.
  apply wp_bind_ok. eapply wp_changes; [intros ans; reflexivity|done|]. intros config v2 K2 D2 O2.
  assert (G2 : covered c v2) by by eapply covered_model. split; [done|]. destruct config as [[]|]; [|done].
  specialize (O2 eq_refl).
  apply wp_bind_ok, wp_freeze; [done|]. intros frozen v3 K3 S3 O3.
  assert (G3 : covered c v3) by by eapply covered_steady. split; [done|]. destruct frozen as [path|]; [|done].
  specialize (O3 _ eq_refl). rewrite O2 in O3. cbn in O3. rewrite lookup_insert_eq in O3.
  apply wp_bind_ok, wp_observe; [done..|]. intros [[]|]; [|done].
  apply wp_bind_ok, wp_up; [done|]. intros up v4 cs K4 D4 R4. rewrite O3 in R4.
  assert (G4 : covered c v4) by (eapply covered_up; [exact K4|exact D4|exact R4|by right|done]).
  split; [done|]. destruct up as [[]|]; [|done].
  apply verify_rolled_spec; [done|]. intros r Hr. split; [done|]. intros ->. split; [|by apply Hr].
  rewrite D4. cbn. rewrite (sd_env _ _ S3), O2. done.
Qed.
Lemma verify_started_spec w :
  covered c w ->
  wp (covered c) (verify_started c)
    (fun r v => covered c v /\ dhost v = dhost w /\ (r = Ok tt -> hosts (newID c) (dhost v))) w.
Proof.
  intros G0. unfold verify_started. apply wp_bind, wp_save_checkpoint; [done|]. intros saved v1 D1 K1 _.
  assert (G1 : covered c v1).
  { destruct K1 as [K1|K1]; [by eapply covered_same|]. destruct G0. split; rewrite ?D1; try done. eauto. }
  split; [done|]. apply wp_bind, wp_observes; [apply managedContainerID_only|done|]. intros cid.
  destruct saved; [|by apply wp_ret]. destruct cid as [cid|]; [|by apply wp_ret].
  apply wp_bind, inspect_spec; [done|]. intros [out|] Hout; [|by apply wp_ret]. specialize (Hout _ eq_refl).
  destruct (TrimSpace out ==? newID c) eqn:Ei; [|by apply wp_ret]. bool_to_prop.
  apply wp_observe; [done..|]. intros x. split; [done|]. split; [done|]. intros _.
  replace (newID c) with (image_id out); [done|]. unfold image_id. rewrite Ei.
  apply ToLower_not_upper, digest_not_upper, (so_digest _ Hc).
Qed.

(** What the deferred function finds. *)
Definition ended (e : ending) (v : world) : Prop :=
  let '(r, committed, mutated) := e in
  (mutated = false -> containers v = DockerHost.containers h0) /\
  forall res, r = Ok res ->
    (ApplyResult.Status res = "succeeded" /\ committed = true /\ env v = Some (envMode c, newEnv c) /\
       hosts (newID c) (dhost v)) \/
    (ApplyResult.Status res = "rolled_back" /\ committed = false /\ mutated = true /\
       env v = Some (envMode c, back_env c) /\ hosts (Baseline.ImageID (ch_baseline c)) (dhost v)).

Lemma covered_saved phase w v x :
  dhost v = dhost w -> checkpoint v = checkpoint w \/ checkpoint v = Some x -> x = docker_stamped c phase ->
  covered c w -> covered c v.
Proof. intros D [K|K] -> G; [by eapply covered_same|]. destruct G. split; rewrite ?D; eauto. Qed.

Lemma docker_rollback_spec cause w :
  covered c w -> wp (covered c) (docker_rollback c cause) (fun e v => covered c v /\ ended e v) w.
Proof.
  intros G0. unfold docker_rollback. apply wp_bind. eapply wp_mono; [|by apply roll_back_spec].
  intros [[]|] v1 _ [G1 O1]; [|by apply wp_ret]. destruct (O1 eq_refl) as [E1 H1].
  apply wp_bind, wp_save_checkpoint; [done|]. intros saved v2 D2 K2 _.
  assert (G2 : covered c v2) by (eapply covered_saved; [exact D2|exact K2|reflexivity|done]). split; [done|].
  branch; apply wp_ret; try done. split; [done|]. split; [done|]. intros res [= <-]. right. by rewrite D2.
Qed.

Lemma docker_start_spec w :
  covered c w -> env w = Some (envMode c, newEnv c) ->
  DockerHost.models (dhost w) !! execution c = Some (digest_ref target plan) ->
  wp (covered c) (docker_start c) (fun e v => covered c v /\ ended e v) w.
Proof.
  intros G0 E0 M0. unfold docker_start. apply wp_bind, wp_up; [done|]. intros up v1 cs K1 D1 R1. rewrite M0 in R1.
  assert (G1 : covered c v1) by (eapply covered_up; [exact K1|exact D1|exact R1|by left|done]). split; [done|].
  apply wp_bind. eapply (wp_mono _ _ (fun r v => covered c v /\ dhost v = dhost v1 /\
    (up = Ok tt -> r = Ok tt -> hosts (newID c) (dhost v)))).
  2:{ destruct up as [[]|]; [|by apply wp_ret]. eapply wp_mono; [|by apply verify_started_spec]. by intros r v _ (? & ? & ?). }
  intros verified v2 _ (G2 & D2 & H2). destruct (firstError _) as [[]|] eqn:Ef; [|by apply docker_rollback_spec].
  apply firstError_ok, Forall_cons in Ef as [-> [-> _]%Forall_cons]. specialize (H2 eq_refl eq_refl).
  apply wp_bind, wp_save_checkpoint; [done|]. intros saved v3 D3 K3 _.
  assert (G3 : covered c v3) by (eapply covered_saved; [exact D3|exact K3|reflexivity|done]). split; [done|].
  branch; apply wp_ret; try done. split; [done|]. split; [done|]. intros res [= <-]. left. split_and!; [done..|by rewrite D3, D2, D1|by rewrite D3].
Qed.

Lemma docker_cutover_spec w :
  covered c w -> containers w = DockerHost.containers h0 ->
  DockerHost.models (dhost w) !! execution c = Some (digest_ref target plan) ->
  wp (covered c) (docker_cutover c) (fun e v => covered c v /\ ended e v) w.
Proof.
  intros G0 C0 M0. unfold docker_cutover, docker_starting, abandon.
  apply wp_bind. eapply wp_changes; [intros ans; reflexivity|done|]. intros wrote v1 K1 D1 O1.
  assert (G1 : covered c v1) by (eapply covered_env; [exact K1|exact D1|by right; left|done]). split; [done|].
  assert (C1 : containers v1 = DockerHost.containers h0) by (destruct D1 as [-> | ->]; done).
  assert (Hab : forall e v, covered c v -> containers v = DockerHost.containers h0 -> covered c v /\ ended (Err e, false, false) v) by done.
  destruct wrote as [[]|]; [|by apply wp_ret; auto]. specialize (O1 eq_refl).
  apply wp_bind, wp_save_checkpoint; [done|]. intros s2 v2 D2 K2 _.
  assert (G2 : covered c v2) by (eapply covered_saved; [exact D2|exact K2|reflexivity|done]). split; [done|].
  branch; [apply wp_ret; [done|]; apply Hab; [done|by rewrite D2]|].
  apply wp_bind, wp_save_checkpoint; [done|]. intros s3 v3 D3 K3 _.
  assert (G3 : covered c v3) by (eapply covered_saved; [exact D3|exact K3|reflexivity|done]). split; [done|].
  assert (C3 : containers v3 = DockerHost.containers h0) by by rewrite D3, D2.
  branch; [apply wp_ret; [done|]; by apply Hab|].
  apply wp_bind, wp_observe; [done..|]. intros [[]|]; [|by apply wp_ret; auto].
  apply docker_start_spec; [done|by rewrite D3, D2, O1|by rewrite D3, D2, O1].
Qed.

Definition unchanged (v : world) : Prop :=
  env v = DockerHost.version_env h0 /\ containers v = DockerHost.containers h0.

Definition between (v : world) : Prop := unchanged v \/ exists c, faithful c /\ covered c v.

(** What a result says about the target. *)
Definition docker_verdict (status : string) (v : world) : Prop :=
  (status = "succeeded" -> exists c, faithful c /\ env v = Some (envMode c, newEnv c) /\ hosts (newID c) (dhost v)) /\
  (status = "rolled_back" -> exists c, faithful c /\ hosts (Baseline.ImageID (ch_baseline c)) (dhost v) /\
     (env v = DockerHost.version_env h0 \/ DockerHost.version_env h0 = None /\ env v = Some (envMode c, back_env c))).

Definition truthful (r : result string ApplyResult.t) (v : world) : Prop :=
  forall res, r = Ok res -> docker_verdict (ApplyResult.Status res) v.

Lemma restore_spec (I : world -> Prop) Q w :
  I w ->
  (forall x v, checkpoint v = checkpoint w ->
     dhost v = dhost w \/ dhost v = (dhost w) <| DockerHost.version_env := DockerHost.version_env h0 |> ->
     (x = Ok tt -> env v = DockerHost.version_env h0) -> I v /\ Q x v) ->
  wp I (restoreVersionEnv (originalEnv c) (envMode c) (Baseline.VersionEnvExisted (ch_baseline c))) Q w.
Proof.
  intros HI HQ. pose proof (ds_env _ _ _ _ _ (so_describes _ Hc)) as He. unfold restoreVersionEnv, env_file in *. rewrite He in HQ.
  branch; (eapply wp_changes; [intros ans; reflexivity|done|]); intros x v K D O; (apply HQ; [done|done|]);
    intros Hx; by rewrite (O Hx).
Qed.

Lemma deferred_restore_spec e w :
  covered c w -> ended e w -> wp between (deferred_restore c e) truthful w.
Proof.
  intros G0 He. destruct e as [[r committed] mutated]. destruct He as [Hm Hr]. unfold deferred_restore.
  assert (HB : forall v, covered c v -> between v) by (intros; right; eauto).
  destruct committed.
  { apply wp_ret; [auto|]. intros res ->. destruct (Hr res eq_refl) as [(Es & _ & E & Hh)|(_ & [=] & _)].
    rewrite Es. split; [|done]. intros _. by exists c. }
  apply wp_bind, restore_spec; [auto|]. intros restored v1 K1 D1 O1.
  assert (G1 : covered c v1) by (eapply covered_env; [exact K1|exact D1|by left|done]). split; [auto|].
  assert (Hv : forall v, dhost v = dhost v1 -> truthful r v).
  { intros v Dv res ->. destruct (Hr res eq_refl) as [(_ & [=] & _)|(Es & _ & _ & E & Hh)]. rewrite Es.
    split; [done|]. intros _. exists c. split; [done|]. rewrite Dv. split; [by destruct D1 as [-> | ->]|].
    destruct D1 as [D1|D1]; [|left; by rewrite D1]. rewrite D1, E. rewrite (ds_env _ _ _ _ _ (so_describes _ Hc)).
    unfold env_file, back_env, rollback_env. destruct (Baseline.VersionEnvExisted _); auto. }
  destruct (is_ok restored && negb mutated) eqn:Eb; [|by apply wp_ret; auto]. bool_to_prop.
  assert (U1 : unchanged v1).
  { split; [apply O1; by destruct restored as [[]|]|]. destruct D1 as [-> | ->]; by apply Hm. }
  apply wp_bind, wp_clear_checkpoint; [by left|]. intros x v2 D2 _.
  assert (U2 : unchanged v2) by (unfold unchanged; by rewrite D2). split; [by left|]. apply wp_ret; [by left|auto].
Qed.

Lemma docker_commit_spec w :
  env w = DockerHost.version_env h0 -> containers w = DockerHost.containers h0 ->
  DockerHost.images (dhost w) = DockerHost.images h0 ->
  DockerHost.models (dhost w) !! execution c = Some (digest_ref target plan) ->
  wp between (docker_commit c) truthful w.
Proof.
  intros E0 C0 I0 M0. unfold docker_commit. assert (U0 : unchanged w) by done.
  apply wp_bind, wp_save_checkpoint; [by left|]. intros saved v1 D1 K1 O1.
  assert (U1 : unchanged v1) by (unfold unchanged; by rewrite D1). split; [by left|].
  destruct saved as [[]|]; cbn [is_err is_ok negb]; [|apply wp_ret; [by left|done]]. specialize (O1 eq_refl).
  assert (G1 : covered c v1).
  { split; rewrite ?D1, ?E0, ?C0, ?O1; [by exists "prepared"|by left|left; constructor|done]. }
  apply wp_bind. eapply wp_mono; [|apply (wp_weaken (covered c)); [intros v ?; right; eauto|
    apply docker_cutover_spec; [done|by rewrite D1|by rewrite D1]]].
  intros e v _ [Gv Ev]. by apply deferred_restore_spec.
Qed.
End Change.

(** From the gate on. *)
Lemma apply_granted_spec b original mode newenv w :
  dhost w = h0 -> describes (Target.Docker target) h0 b original mode -> re_match digestPattern (Stage.ImageID stage) = true ->
  requirePlannedCurrentVersion (ApplyPlan.CurrentVersion plan) (Baseline.BundleVersion b) = Ok tt ->
  updateVersionEnv original (DockerTarget.ImageVariable (Target.Docker target))
    (pin_value (ApplyPlan.TargetVersion plan) (ApplyPlan.ExpectedImageDigest plan)) = Ok newenv ->
  wp between (apply_granted target plan stage b original mode newenv (Stage.ImageID stage)) truthful w.
Proof.
  intros Hw Hb Hid Hr Hu. unfold apply_granted. cbv zeta. assert (Bw : between w) by (left; unfold unchanged; by rewrite Hw).
  apply wp_bind, wp_observes; [apply baseline_only|done|]. intros after. branch; [by apply wp_ret|].
  apply wp_bind, staged_spec; [done|]. intros id Hm.
  destruct (match id with Ok _ => _ | Err _ => _ end) eqn:Ei; [by apply wp_ret|].
  destruct id as [id|]; [|done]. specialize (Hm eq_refl). apply wp_bind_ok, wp_observe; [done..|]. intros [[]|]; [|done].
  apply wp_bind_ok, wp_freeze; [done|]. intros frozen v K [S1 S2 S3] O. rewrite Hw in *.
  split; [by left|]. destruct frozen as [path|]; [|done]. specialize (O path eq_refl). rewrite Hm in O.
  apply docker_commit_spec; done.
Qed.

Lemma applyDocker_spec g w :
  dhost w = h0 -> wp between g (fun r v => r = Ok tt -> dhost v = h0) w ->
  wp between (applyDocker target plan stage g) truthful w.
Proof.
  intros Hw Hg. assert (Bw : between w) by (left; unfold unchanged; by rewrite Hw).
  apply apply_until_gate; [done|done|]. intros b original mode newenv Hb Hid Hr Hu.
  rewrite normalizeDigest_digest by done. eapply wp_mono; [|exact Hg]. intros [[]|] v _ Hv; [|done].
  apply apply_granted_spec; [by apply Hv|by rewrite <- Hw|done..].
Qed.
End Cutover.

(** * The request *)

Section CrashSafety.
Context `{UnicodeTables} `{TimeZones}.

(** The checkpoint holds what it takes to bring the host back. *)
Definition restores (cp : Checkpoint.t) (h : DockerHost.t) : Prop :=
  DockerHost.version_env h =
    env_file (Checkpoint.VersionEnvExisted cp) (Checkpoint.VersionEnvMode cp) (Checkpoint.PreviousVersionEnv cp) /\
  hosts (Checkpoint.PreviousImageID cp) h.

(** The environment file pins the release. *)
Definition pins (d : DockerTarget.t) (version digest : string) (h : DockerHost.t) : Prop :=
  exists mode data, DockerHost.version_env h = Some (mode, data) /\
    parseVersionEnvPin data (DockerTarget.ImageVariable d) = Ok (version, digest).

Lemma baseline_canonical b : Baseline.validate b = Ok tt ->
  re_match versionPattern (Baseline.BundleVersion b) = true /\ re_match digestPattern (Baseline.ManifestDigest b) = true.
Proof. unfold Baseline.validate. destruct (_ || _) eqn:E; [done|]. intros _. by bool_to_prop. Qed.

Section Facts.
Context (target : Target.t) (plan : ApplyPlan.t) (stage : Stage.t) (h0 : DockerHost.t) (c : change).
Context (Hc : faithful target plan stage h0 c).

Lemma faithful_restores phase : restores (docker_stamped c phase) h0.
Proof. destruct (so_describes _ _ _ _ _ Hc). split; [done|]. done. Qed.

Lemma faithful_pins h : DockerHost.version_env h = Some (envMode c, newEnv c) ->
  pins (Target.Docker target) (ApplyPlan.TargetVersion plan) (ApplyPlan.ExpectedImageDigest plan) h.
Proof.
  intros E. exists (envMode c), (newEnv c). split; [done|]. by apply (update_pins _ _ _ _ _ (so_env _ _ _ _ _ Hc)).
Qed.

(** The environment file of the rollback is the one that was found, or pins what ran
    without one. *)
Lemma faithful_back h : DockerHost.version_env h = Some (envMode c, back_env target c) ->
  DockerHost.version_env h = DockerHost.version_env h0 \/
  DockerHost.version_env h0 = None /\
    pins (Target.Docker target) (TrimSpace (DockerTarget.CurrentVersion (Target.Docker target)))
      (Baseline.ManifestDigest (ch_baseline c)) h.
Proof.
  intros E. destruct (so_describes _ _ _ _ _ Hc) as [He _ _ Hv [m Hp]].
  rewrite He. unfold back_env, rollback_env, env_file in *. destruct (Baseline.VersionEnvExisted _); [by left|].
  right. split; [done|]. cbn in Hp. injection Hp as Hb _. destruct (baseline_canonical _ Hv) as [Hver Hdig].
  destruct (update_pins _ _ _ _ _ (so_env _ _ _ _ _ Hc)) as (Hn & _).
  pose proof (pin_value_canonical _ _ Hver Hdig) as Hcan.
  destruct (proj1 (update_succeeds "" _ _ Hcan)) as [new Hnew]; [vm_compute; lia|].
  rewrite Hn, Hnew in E. exists (envMode c), new. split; [done|]. rewrite Hn, Hb. by eapply pin_read_back.
Qed.
End Facts.

Lemma unchanged_frame base h0 : frame base (fun v => dhost v = h0) (fun _ _ => True).
Proof. by split. Qed.

Lemma between_frame base target plan stage h0 : frame base (between target plan stage h0) (fun _ _ => True).
Proof.
  split; intros v; intros *; (intros [?|(c & ? & [])] || intros ? ? [?|(c & ? & [])]); try (by left);
    right; exists c; (split; [done|]); by split.
Qed.

Lemma docker_verdict_frame base target plan stage h0 s : frame base (docker_verdict target plan stage h0 s) (fun _ _ => True).
Proof. by split. Qed.

(** C38.  A Docker cutover is safe to interrupt and honest about its end.  At every crash
    point of an apply, either the environment file and the containers are as they were, or
    the durable checkpoint of this very job holds the environment file that was found, its
    mode, and the image that ran; the environment file is then the one that was found, or
    pins the new release, or, where none was found, the release that ran; and the service
    runs what it ran, nothing, or one container of the new or the previous image.  And a
    result says what the target runs: [succeeded] means that a container has the staged
    image and the environment file pins the planned release; [rolled_back] that a container
    has an image that ran before, under the environment file that was found, or, where
    removing it again failed, one that pins the release that ran. *)
Theorem docker_cutover_is_crash_safe cfg target plan rt answers w l stage :
  Target.DeploymentMode target <> ModeSystemd ->
  ledger w = Some l -> Ledger.State l = remoteLedgerStaged -> Ledger.Stage l = Some stage ->
  let (v, outcome) := run (handle_mutation docker_backend cfg target plan "apply" rt) answers w in
  let before := dhost w in
  let now := dhost v in
  let d := Target.Docker target in
  (DockerHost.version_env now = DockerHost.version_env before /\ DockerHost.containers now = DockerHost.containers before \/
   exists cp, checkpoint v = Some cp /\ Checkpoint.JobID cp = MutationPlan.JobID plan /\ restores cp before /\
     (DockerHost.version_env now = DockerHost.version_env before \/
      pins d (MutationPlan.TargetVersion plan) (MutationPlan.ExpectedImageDigest plan) now \/
      DockerHost.version_env before = None /\
        pins d (TrimSpace (DockerTarget.CurrentVersion d)) (Checkpoint.PreviousManifestDigest cp) now) /\
     (rolled before (Some (digest_ref target (MutationPlan.apply_plan plan))) (DockerHost.containers now) \/
      rolled before (Some (Checkpoint.PreviousImageID cp)) (DockerHost.containers now))) /\
  (forall o r, outcome = Some o -> Outcome.Result o = Some r ->
     (ApplyResult.Status r = "succeeded" ->
        hosts (Stage.ImageID stage) now /\ pins d (MutationPlan.TargetVersion plan) (MutationPlan.ExpectedImageDigest plan) now) /\
     (ApplyResult.Status r = "rolled_back" ->
        (exists image, hosts image before /\ hosts image now) /\
        (DockerHost.version_env now = DockerHost.version_env before \/
         DockerHost.version_env before = None /\
           exists digest, pins d (TrimSpace (DockerTarget.CurrentVersion d)) digest now))).
Proof.
  intros Hm El Es Est. set (h0 := dhost w). set (ap := plan_on_stage plan stage).
  assert (G : wp (between target ap stage h0) (handle_mutation docker_backend cfg target plan "apply" rt)
    (fun o v => forall r, Outcome.Result o = Some r -> docker_verdict target ap stage h0 (ApplyResult.Status r) v) w).
  { apply (apply_admitted docker_backend _ (docker_verdict target ap stage h0) cfg target plan rt l stage); [done..|by left|].
    apply (run_apply_framed docker_backend (fun v => dhost v = h0)); [done|done| | | | |].
    - intros v Hv. left. unfold unchanged. by rewrite Hv.
    - apply unchanged_frame.
    - apply between_frame.
    - apply docker_verdict_frame.
    - intros g v Hv Hg. unfold backend_of. rewrite bool_decide_eq_false_2 by done. by apply applyDocker_spec. }
  apply (wp_sound _ _ _ answers) in G as [G1 G2]. destruct (run _ answers w) as [v o]. cbn [fst snd] in *. split.
  - destruct G1 as [[E1 E2]|(c & Hc & [[ph Ek] Ge Gf _])]; [by left|]. right. exists (docker_stamped c ph).
    split; [done|]. split; [by cbn; rewrite (so_plan _ _ _ _ _ Hc)|]. split; [by eapply faithful_restores|]. split; [|done].
    destruct Ge as [Ge|[Ge|Ge]]; [by left|right; left; exact (faithful_pins target ap stage h0 c Hc _ Ge)|].
    apply (faithful_back target ap stage h0 c Hc) in Ge as [Ge|Ge]; [by left|by right; right].
  - intros o' r -> Hr. destruct (G2 o' eq_refl r Hr) as [V1 V2]. split; intros Hs.
    + destruct (V1 Hs) as (c & Hc & E & Hh). rewrite (so_id _ _ _ _ _ Hc) in Hh. split; [done|]. exact (faithful_pins target ap stage h0 c Hc _ E).
    + destruct (V2 Hs) as (c & Hc & Hh & E). split; [exists (Baseline.ImageID (ch_baseline c)); split; [apply (so_describes _ _ _ _ _ Hc)|done]|].
      destruct E as [E|[E0 E]]; [by left|]. apply (faithful_back target ap stage h0 c Hc) in E as [E|[_ E]]; [by left|right; eauto].
Qed.
End CrashSafety.
