(* ===== verification/DockerRecovery.v ===== *)
(** Recovery of an interrupted Docker cutover: in a cooperative environment a reconcile
    settles it from every crash point under its own checkpoint, and before the checkpoint
    when there is an environment file; without one it never does. *)
From Stdlib Require Import Ascii String ZArith Lia.
From stdpp Require Import base decidable list strings gmap.
From S2P Require Import Prelude Strings Regexp Patterns Effects Sha256 Json Paths PlanDigest MutationLedger DockerPin MutationExec MutationSafety SystemdCutover SystemdRecovery DockerRelease DockerCutover.

Open Scope string_scope.

(** A container id or an image id as Docker prints it: a word. *)
Definition word (s : string) : Prop := str_forall printable s = true /\ s <> "".

Lemma digest_word s : re_match digestPattern s = true -> word s.
Proof. intros Hd. split; [by apply digest_printable|]. intros ->. by vm_compute in Hd. Qed.

Section Reads.
Context `{UnicodeTables} `{TimeZones}.

Lemma image_id_line s : re_match digestPattern s = true -> image_id (DockerHost.line s) = s.
Proof.
  intros Hd. destruct (digest_word s Hd). unfold image_id, DockerHost.line.
  rewrite TrimSpace_word by done. by apply ToLower_not_upper, digest_not_upper.
Qed.

(** ** What the code reads of an orderly host *)

Lemma managed_done id image Q w :
  DockerHost.containers (dhost w) = [(id, image)] -> word id -> Q (Ok id) w -> twp Done managedContainerID Q w.
Proof.
  intros Hc [Hp Hne] HQ. unfold managedContainerID. apply twp_bind. eapply twp_call; [reflexivity|]. rewrite Hc.
  cbn [map String.concat fst]. change (String.concat "" [DockerHost.line id]) with (DockerHost.line id).
  unfold DockerHost.line, nl. rewrite Fields_word by done. by apply twp_ret.
Qed.

Lemma managed_none Q w :
  DockerHost.containers (dhost w) = [] -> (forall e, Q (Err e) w) -> twp Done managedContainerID Q w.
Proof.
  intros Hc HQ. unfold managedContainerID. apply twp_bind. eapply twp_call; [reflexivity|]. rewrite Hc. by apply twp_ret.
Qed.

Lemma inspect_done id image w :
  DockerHost.containers (dhost w) = [(id, image)] -> handle (InspectContainer id) Done w = Some (Ok (DockerHost.line image), w).
Proof. intros Hc. cbn. unfold DockerHost.container_image. rewrite Hc. cbn. by rewrite bool_decide_true. Qed.

Lemma image_of_id h image entry : DockerHost.images h !! image = Some entry -> DockerHost.image_of h image = Some image.
Proof. intros Hi. unfold DockerHost.image_of. by rewrite Hi, bool_decide_true by eauto. Qed.

Lemma version_done id image digests version w :
  running w = None -> DockerHost.containers (dhost w) = [(id, image)] ->
  DockerHost.images (dhost w) !! image = Some (digests, version) -> running_version w = Some version.
Proof. intros Hr Hc Hi. unfold running_version. by rewrite Hr, Hc, Hi. Qed.

Lemma freeze_done path image w :
  DockerHost.models (dhost w) !! path = Some image ->
  handle (FreezeListener path) Done w = Some (Ok path, log (EMutation "listener") w).
Proof. intros Hm. cbn. by rewrite Hm. Qed.

Lemma frozen_done path image w :
  DockerHost.models (dhost w) !! path = Some image -> handle (ValidateFrozen path) Done w = Some (Ok tt, w).
Proof. intros Hm. cbn. by rewrite Hm, bool_decide_true by eauto. Qed.

Lemma up_done path image entry w :
  DockerHost.models (dhost w) !! path = Some image -> DockerHost.images (dhost w) !! image = Some entry ->
  DockerHost.containers (dhost w) = [] ->
  handle (ComposeUp path) Done w = Some (Ok tt, set_containers (log (EMutation "container") w) [(new_container, image)]).
Proof. intros Hm Hi Hc. cbn. rewrite Hm. cbn. rewrite (image_of_id _ _ _ Hi). cbn. unfold compose_up. cbn. by rewrite Hc. Qed.

Lemma running_image_done id image Q w :
  DockerHost.containers (dhost w) = [(id, image)] -> word id -> re_match digestPattern image = true -> Q image w ->
  twp Done running_image Q w.
Proof.
  intros Hc Hid Hd HQ. unfold running_image. apply twp_bind. eapply managed_done; [done..|].
  apply twp_bind. eapply twp_call; [by apply inspect_done|]. cbv beta iota. rewrite image_id_line, Hd by done. by apply twp_ret.
Qed.

Lemma verify_rolled_done id image digests version Q w :
  running w = None -> DockerHost.containers (dhost w) = [(id, image)] -> word id -> re_match digestPattern image = true ->
  DockerHost.images (dhost w) !! image = Some (digests, version) -> Q (Ok tt) w ->
  twp Done (verify_rolled image version) Q w.
Proof.
  intros Hr Hc Hid Hd Hi HQ. unfold verify_rolled. apply twp_bind_ok. eapply managed_done; [done..|].
  apply twp_bind. eapply twp_call; [by apply inspect_done|]. cbv beta iota. rewrite image_id_line, bool_decide_true by done.
  eapply twp_call; [|exact HQ]. cbn. rewrite (version_done id image digests version) by done.
  unfold versionsEqual. by rewrite bool_decide_eq_true_2.
Qed.
End Reads.

Section Recovery.
Context `{UnicodeTables} `{TimeZones}.
Context (target : Target.t) (plan : MutationPlan.t) (stage : Stage.t) (h0 : DockerHost.t) (c : change).
#[local] Abbreviation ap := (plan_on_stage plan stage).
#[local] Abbreviation d := (Target.Docker target).
#[local] Abbreviation previous := (Baseline.ImageID (ch_baseline c)).
#[local] Abbreviation new := (Stage.ImageID stage).
#[local] Abbreviation requested digests :=
  (repositoryHasDigest (Some digests) (DockerTarget.ImageRepo d) (MutationPlan.ExpectedPlatformDigest plan)).

(** The host [h0] before the update: one container, of an image that is not the requested
    one and reports the version of the baseline; the requested image is present and reports
    the planned version. *)
Record orderly : Prop := {
  od_plan : MutationPlan.Validate plan = Ok tt;
  od_mode : MutationPlan.DeploymentMode plan = ModeDocker;
  od_target : Target.DeploymentMode target = ModeDocker;
  od_service : re_match identifierPattern (DockerTarget.Service d) = true;
  od_container : exists id, DockerHost.containers h0 = [(id, previous)];
  od_previous : exists digests, DockerHost.images h0 !! previous = Some (digests, Baseline.SourceVersion (ch_baseline c)) /\
    requested digests = false /\ is_ok (repositoryDigest (Some digests) (DockerTarget.ImageRepo d)) = true;
  od_ref : DockerHost.image_of h0 (digest_ref target ap) = Some new;
  od_new : exists digests, DockerHost.images h0 !! new = Some (digests, MutationPlan.ExpectedVersion plan) /\
    requested digests = true;
}.

(** Where an apply can have stopped: at a point of its cutover, or before it on a host with
    an environment file. *)
Record stopped (w : world) : Prop := {
  sp_service : running w = None;
  sp_words : Forall (fun k => word k.1) (DockerHost.containers (dhost w));
  sp_images : DockerHost.images (dhost w) = DockerHost.images h0;
  sp_point : covered target ap h0 c w \/
    (checkpoint w = None /\ unchanged h0 w /\ Baseline.VersionEnvExisted (ch_baseline c) = true);
}.

(** The checkpoint is gone, and the status says what the host is. *)
Definition recovered (status : string) (v : world) : Prop :=
  checkpoint v = None /\
  ((status = "succeeded" /\ (exists id, DockerHost.containers (dhost v) = [(id, new)]) /\
      pins d (MutationPlan.TargetVersion plan) (MutationPlan.ExpectedImageDigest plan) (dhost v)) \/
   (status = "rolled_back" /\ (exists id, DockerHost.containers (dhost v) = [(id, previous)]) /\
      DockerHost.version_env (dhost v) = DockerHost.version_env h0)).

Definition settling (w : world) (r : result string ApplyResult.t) (v : world) : Prop :=
  memory v = memory w /\ exists raw bound, r = Ok raw /\ bindRemoteApplyResult plan raw = (bound, true) /\
    result_final bound = true /\ recovered (ApplyResult.Status bound) v.

Hypothesis order : orderly.
Hypothesis faith : faithful target ap stage h0 c.

Lemma expected_digest : re_match digestPattern (MutationPlan.ExpectedImageDigest plan) = true /\
  re_match versionPattern (MutationPlan.ExpectedVersion plan) = true.
Proof.
  pose proof (od_plan order) as Hp. unfold MutationPlan.Validate in Hp. ok_inv Hp.
  unfold MutationPlan.validate_release in *. rewrite (od_mode order) in *.
  repeat case_match; simplify_eq; by bool_to_prop.
Qed.

Lemma settling_result w v raw :
  memory v = memory w -> ApplyResult.Status raw = "succeeded" \/ ApplyResult.Status raw = "rolled_back" ->
  ApplyResult.ArtifactDigest raw = "" \/ normalizeDigest (ApplyResult.ArtifactDigest raw) = MutationPlan.ExpectedImageDigest plan ->
  recovered (ApplyResult.Status raw) v -> settling w (Ok raw) v.
Proof.
  intros Hm Hs Hd Hr. split; [done|]. destruct expected_digest as [He _].
  assert (Ee : normalizeDigest (MutationPlan.ResultArtifactDigest plan) = MutationPlan.ExpectedImageDigest plan).
  { unfold MutationPlan.ResultArtifactDigest. rewrite (od_mode order), bool_decide_true by done. rewrite (normalizeDigest_digest _ He). by apply normalizeDigest_digest. }
  exists raw. eexists. split; [done|]. unfold bindRemoteApplyResult. rewrite Ee. cbv zeta.
  assert (MutationPlan.ExpectedImageDigest plan <> "") by by apply digest_word.
  rewrite (bool_decide_eq_false_2 (_ = "")) by done. cbn [orb].
  assert ((ApplyResult.ArtifactDigest raw !=? "") && (normalizeDigest (ApplyResult.ArtifactDigest raw) !=?
    MutationPlan.ExpectedImageDigest plan) = false) as ->.
  { destruct Hd as [-> | ->]; [done|]. rewrite (bool_decide_eq_true_2 (MutationPlan.ExpectedImageDigest plan = _)) by done.
    apply andb_false_r. }
  split; [done|]. split; [|done]. unfold result_final. cbn. by destruct Hs as [-> | ->].
Qed.
Lemma baseline_facts :
  re_match versionPattern (Baseline.BundleVersion (ch_baseline c)) = true /\
  re_match digestPattern (Baseline.ManifestDigest (ch_baseline c)) = true /\ re_match digestPattern previous = true.
Proof.
  pose proof (ds_valid _ _ _ _ _ (so_describes _ _ _ _ _ faith)) as Hv. unfold Baseline.validate in Hv.
  destruct (_ || _) eqn:E; [done|]. by bool_to_prop.
Qed.

Lemma new_digest : re_match digestPattern new = true.
Proof. rewrite <- (so_id _ _ _ _ _ faith). apply (so_digest _ _ _ _ _ faith). Qed.

Lemma stamped_loads_docker phase w :
  checkpoint w = Some (docker_stamped c phase) ->
  load_checkpoint w target = Ok (Some (docker_stamped c phase)) /\ docker_mismatch ap (docker_stamped c phase) = false.
Proof.
  intros Hk. destruct baseline_facts as (Hb & Hm & Hi). destruct expected_digest as [_ He].
  pose proof (vp_job plan (Validate_valid plan (od_plan order))) as Hj.
  destruct (update_pins _ _ _ _ _ (so_env _ _ _ _ _ faith)) as (_ & Hcan & _).
  assert (Hv : re_match versionPattern (MutationPlan.TargetVersion plan) = true).
  { unfold canonical_pin in Hcan. repeat case_match; simplify_eq. by bool_to_prop. }
  pose proof (so_current _ _ _ _ _ faith) as Hr. destruct faith as [Ht Hp _ _ _ _ _]. split.
  - unfold load_checkpoint. rewrite Hk. unfold Checkpoint.invalid. cbn. rewrite Ht, Hp. cbn.
    rewrite Hj, Hv, (od_target order), !bool_decide_eq_true_2 by done. done.
  - unfold docker_mismatch. cbn. rewrite Hp. cbn in *. rewrite He, Hi, Hb, Hm, Hr, !bool_decide_eq_true_2 by done. done.
Qed.

(** The requested image runs: its pin is made durable. *)
Lemma requested_settles phase id w :
  checkpoint w = Some (docker_stamped c phase) -> DockerHost.containers (dhost w) = [(id, new)] ->
  twp Done (reconcile_requested target ap (Some (docker_stamped c phase)) new) (settling w) w.
Proof.
  intros Hk Hc. unfold reconcile_requested. apply twp_bind_ok, twp_ret.
  change (Checkpoint.PreviousVersionEnv (docker_stamped c phase)) with (originalEnv c).
  rewrite (so_env _ _ _ _ _ faith).
  apply twp_bind. eapply twp_call; [reflexivity|]. cbn [is_err is_ok negb].
  apply twp_bind_ok. eapply twp_call; [reflexivity|]. apply twp_ret. destruct expected_digest as [He _].
  apply settling_result; [done|by left|right; cbn; by rewrite !(normalizeDigest_digest _ He)|].
  split; [done|]. left. split; [done|]. split; [by exists id|].
  do 2 eexists. split; [reflexivity|]. by apply (update_pins _ _ _ _ _ (so_env _ _ _ _ _ faith)).
Qed.

(** The previous image runs: its environment file is restored. *)
Lemma previous_settles phase id w :
  running w = None -> checkpoint w = Some (docker_stamped c phase) ->
  DockerHost.containers (dhost w) = [(id, previous)] -> DockerHost.images (dhost w) = DockerHost.images h0 ->
  twp Done (reconcile_marked target ap (docker_stamped c phase) previous) (settling w) w.
Proof.
  intros Hr Hk Hc Hi. destruct (od_previous order) as (digests & Hp & _). unfold reconcile_marked.
  apply twp_bind. eapply twp_call; [cbn; by rewrite (version_done id previous digests (Baseline.SourceVersion (ch_baseline c))) by congruence|].
  cbv beta iota. change (Checkpoint.PreviousImageID (docker_stamped c phase)) with previous.
  change (Checkpoint.PreviousVersion (docker_stamped c phase)) with (Baseline.SourceVersion (ch_baseline c)).
  unfold versionsEqual. rewrite !bool_decide_eq_true_2 by done. cbn [andb]. cbv iota.
  change (Checkpoint.VersionEnvExisted (docker_stamped c phase)) with (Baseline.VersionEnvExisted (ch_baseline c)).
  pose proof (ds_env _ _ _ _ _ (so_describes _ _ _ _ _ faith)) as He. unfold env_file in He.
  apply twp_bind_ok. unfold restoreVersionEnv. destruct (Baseline.VersionEnvExisted _);
    (eapply twp_call; [reflexivity|]; apply twp_bind_ok; eapply twp_call; [reflexivity|]; apply twp_ret;
     apply settling_result; [done|by right|by left|]; split; [done|]; right; split; [done|]; split; [by exists id|done]).
Qed.

(** Nothing runs: the previous image is started again. *)
Lemma nothing_settles phase w :
  running w = None -> checkpoint w = Some (docker_stamped c phase) ->
  DockerHost.containers (dhost w) = [] -> DockerHost.images (dhost w) = DockerHost.images h0 ->
  twp Done (reconcile_marked target ap (docker_stamped c phase) "") (settling w) w.
Proof.
  intros Hr Hk Hc Hi. destruct (od_previous order) as (digests & Hp & _). destruct baseline_facts as (_ & _ & Hdig).
  destruct (digest_word _ Hdig) as [_ Hne]. destruct expected_digest as [He _]. unfold reconcile_marked.
  apply twp_bind. eapply twp_call; [reflexivity|]. rewrite (bool_decide_eq_false_2 ("" = _)) by done. cbn [andb].
  unfold reconcile_roll_back. cbv zeta. cbn [Checkpoint.PreviousImageID docker_stamped docker_checkpoint].
  apply twp_bind. eapply twp_call; [reflexivity|]. apply twp_bind. unfold writeDockerOverride.
  change (Checkpoint.PreviousImageID (docker_stamped c phase)) with previous.
  rewrite (od_service order), Hdig. cbn [negb orb]. eapply twp_call; [reflexivity|].
  apply twp_bind_ok, twp_ret. cbn [firstError find is_err is_ok negb].
  do 2 (apply twp_bind_ok; eapply twp_call; [reflexivity|]). set (path := Join _).
  match goal with |- context [twp _ _ _ ?u] => set (w1 := u) end.
  assert (M1 : DockerHost.models (dhost w1) !! path = Some previous) by apply lookup_insert_eq.
  apply twp_bind_ok. eapply twp_call; [by eapply freeze_done|].
  apply twp_bind_ok. eapply twp_call; [by eapply frozen_done|].
  apply twp_bind_ok. eapply twp_call; [by eapply up_done; [exact M1|exact (eq_trans (f_equal (lookup _) Hi) Hp)|]|].
  match goal with |- context [twp _ _ _ ?u] => set (w2 := u) end.
  apply twp_bind_ok. eapply (verify_rolled_done new_container previous); [done|done|by vm_compute|done| |].
  { exact (eq_trans (f_equal (lookup _) Hi) Hp). }
  pose proof (ds_env _ _ _ _ _ (so_describes _ _ _ _ _ faith)) as Henv. unfold env_file in Henv.
  assert (Hset : forall v, memory v = memory w -> checkpoint v = None ->
    DockerHost.containers (dhost v) = [(new_container, previous)] -> DockerHost.version_env (dhost v) = DockerHost.version_env h0 ->
    settling w (Ok (ApplyResult.mk "rolled_back" (ApplyPlan.ExpectedImageDigest ap) previous true
      "interrupted Docker cutover was rolled back from its durable checkpoint")) v).
  { intros v Mv Kv Cv Ev. apply settling_result; [done|by right|right; by apply (normalizeDigest_digest _ He)|].
    split; [done|]. right. split; [done|]. split; [by eexists|done]. }
  apply twp_bind_ok. change (Checkpoint.VersionEnvExisted (docker_stamped c phase)) with (Baseline.VersionEnvExisted (ch_baseline c)).
  destruct (Baseline.VersionEnvExisted _) eqn:Ex.
  - apply twp_ret. apply twp_bind_ok. eapply twp_call; [reflexivity|]. apply twp_ret, Hset; [done..|].
    rewrite Henv. cbn. unfold rollback_env. cbn. by rewrite Ex.
  - unfold restoreVersionEnv. eapply twp_call; [reflexivity|]. apply twp_bind_ok. eapply twp_call; [reflexivity|].
    by apply twp_ret, Hset.
Qed.
(** The version of the pin is the planned one. *)
Lemma planned_bundle :
  TrimSpace (MutationPlan.CurrentVersion plan) = Baseline.BundleVersion (ch_baseline c) /\
  re_match versionPattern (TrimSpace (MutationPlan.CurrentVersion plan)) = true.
Proof.
  pose proof (so_current _ _ _ _ _ faith) as Hr. destruct baseline_facts as (Hb & _).
  pose proof (vp_current plan (Validate_valid plan (od_plan order))) as Hv.
  unfold requirePlannedCurrentVersion in Hr. cbv zeta in Hr.
  change (ApplyPlan.CurrentVersion ap) with (MutationPlan.CurrentVersion plan) in Hr.
  rewrite (version_trim _ Hv), (version_trim _ Hb) in Hr. rewrite (version_trim _ Hv).
  rewrite bool_decide_eq_false_2 in Hr by by apply version_nonempty. ok_inv Hr. by bool_to_prop.
Qed.

(** The apply had not begun its change, and the environment file shows it. *)
Lemma unmarked_settles id digests w :
  running w = None -> checkpoint w = None -> unchanged h0 w -> DockerHost.images (dhost w) = DockerHost.images h0 ->
  Baseline.VersionEnvExisted (ch_baseline c) = true -> DockerHost.containers (dhost w) = [(id, previous)] ->
  DockerHost.images h0 !! previous = Some (digests, Baseline.SourceVersion (ch_baseline c)) ->
  is_ok (repositoryDigest (Some digests) (DockerTarget.ImageRepo d)) = true ->
  twp Done (reconcile_unmarked target ap previous (Ok (Some digests))) (settling w) w.
Proof.
  intros Hr Hk [Ue Uc] Hi Hex Hc Hp Hrepo. unfold reconcile_unmarked. cbv zeta.
  destruct (so_describes _ _ _ _ _ faith) as [He _ Hs _ [m Hpin]]. destruct baseline_facts as (_ & _ & Hdig).
  destruct (digest_word _ Hdig) as [_ Hne]. destruct planned_bundle as [Eb Hv].
  unfold env_file in He. rewrite Hex in *. rewrite He in Ue. cbn in Hpin.
  apply twp_bind. eapply twp_call; [cbn; unfold readVersionEnv; rewrite Ue, (proj2 (Z.ltb_ge _ _) Hs); reflexivity|].
  apply twp_bind. eapply twp_call; [cbn; by rewrite (version_done id previous digests (Baseline.SourceVersion (ch_baseline c))) by congruence|].
  cbv beta iota. change (ApplyPlan.CurrentVersion ap) with (MutationPlan.CurrentVersion plan).
  rewrite Hpin, Hrepo, Hv. rewrite (bool_decide_eq_false_2 (_ = "")), (bool_decide_eq_true_2 (_ = TrimSpace _)) by done.
  cbn [negb andb is_ok]. apply twp_ret.
  apply settling_result; [done|by right|by left|]. split; [done|]. right. split; [done|]. split; [by exists id|by rewrite He].
Qed.

Lemma stopped_containers w : stopped w ->
  (exists phase, checkpoint w = Some (docker_stamped c phase)) /\
    (DockerHost.containers (dhost w) = [] \/
     exists id, word id /\ (DockerHost.containers (dhost w) = [(id, previous)] \/ DockerHost.containers (dhost w) = [(id, new)])) \/
  checkpoint w = None /\ unchanged h0 w /\ Baseline.VersionEnvExisted (ch_baseline c) = true /\
    exists id, word id /\ DockerHost.containers (dhost w) = [(id, previous)].
Proof.
  intros [_ Hw Hi Hp]. destruct (od_container order) as [id0 Hid]. destruct (od_previous order) as (digests & Hprev & _).
  destruct Hp as [[Hk _ Hf _]|(Hk & Hu & Hex)]; [left; split; [done|]|right; split_and!; try done].
  - destruct Hf as [Hf|Hf]; inversion Hf as [Ec|Ec|id image Ei Ec]; rewrite <- Ec in *; try (by left); right;
      rewrite ?Hid in *; apply Forall_cons in Hw as [Hw _]; eexists; (split; [exact Hw|]); cbn in *; auto.
    + rewrite (od_ref order) in Ei. injection Ei as <-. auto.
    + rewrite (image_of_id _ _ _ Hprev) in Ei. injection Ei as <-. auto.
  - destruct Hu as [_ Uc]. rewrite Uc, Hid in *. apply Forall_cons in Hw as [Hw _]. eauto.
Qed.

(** Any point settles. *)
Lemma docker_reconcile_settles w : stopped w -> twp Done (reconcileDocker target ap) (settling w) w.
Proof.
  intros Hs. pose proof Hs as [Hr _ Hi _]. destruct (od_previous order) as (digests & Hp & Hno & Hrepo).
  destruct (od_new order) as (digests' & Hn & Hyes). destruct baseline_facts as (_ & _ & Hdig).
  destruct (digest_word _ Hdig) as [_ Hne]. destruct (digest_word _ new_digest) as [_ Hne'].
  assert (Hprev : forall id cp (k : result string ApplyResult.t -> world -> Prop), word id ->
    DockerHost.containers (dhost w) = [(id, previous)] ->
    twp Done (match cp with
              | Some x => reconcile_marked target ap x previous
              | None => reconcile_unmarked target ap previous (Ok (Some digests))
              end) k w ->
    load_checkpoint w target = Ok cp -> match cp with Some x => docker_mismatch ap x | None => false end = false ->
    twp Done (reconcileDocker target ap) k w).
  { intros id cp k Hid Hc Hk Hl Hm. unfold reconcileDocker. apply twp_bind_ok.
    eapply twp_call; [cbn; by rewrite Hl|]. cbv beta iota. rewrite Hm.
    apply twp_bind. eapply running_image_done; [done..|]. rewrite (bool_decide_eq_false_2 (previous = "")) by done. cbn [negb].
    apply twp_bind. eapply twp_call; [cbn; rewrite (image_of_id _ _ (digests, Baseline.SourceVersion (ch_baseline c))) by congruence;
      cbn; by rewrite Hi, Hp|]. cbn [fmap option_fmap option_map fst]. 
    change (ApplyPlan.ExpectedPlatformDigest ap) with (MutationPlan.ExpectedPlatformDigest plan). rewrite Hno. cbn [andb].
    apply twp_bind, twp_ret. by destruct cp. }
  destruct (stopped_containers w Hs) as [([phase Hk] & Hc)|(Hk & Hu & Hex & id & Hid & Hc)].
  - destruct (stamped_loads_docker phase w Hk) as [Hl Hm]. destruct Hc as [Hc|(id & Hid & [Hc|Hc])].
    + unfold reconcileDocker. apply twp_bind_ok. eapply twp_call; [cbn; by rewrite Hl|]. cbv beta iota. rewrite Hm.
      apply twp_bind. unfold running_image. apply twp_bind, managed_none; [done|]. intros e. apply twp_ret.
      apply twp_bind, twp_ret, twp_bind, twp_ret. by apply nothing_settles.
    + eapply (Hprev id (Some _)); [done|done| |exact Hl|exact Hm]. by eapply previous_settles.
    + unfold reconcileDocker. apply twp_bind_ok. eapply twp_call; [cbn; by rewrite Hl|]. cbv beta iota. rewrite Hm.
      apply twp_bind. eapply running_image_done; [done|done|apply new_digest|].
      rewrite (bool_decide_eq_false_2 (new = "")) by done. cbn [negb].
      apply twp_bind. eapply twp_call; [cbn; rewrite (image_of_id _ _ (digests', MutationPlan.ExpectedVersion plan)) by congruence;
        cbn; by rewrite Hi, Hn|]. cbn [fmap option_fmap option_map fst].
      change (ApplyPlan.ExpectedPlatformDigest ap) with (MutationPlan.ExpectedPlatformDigest plan). rewrite Hyes. cbn [andb].
      apply twp_bind. eapply twp_call.
      { cbn. rewrite (version_done id new digests' (MutationPlan.ExpectedVersion plan)) by congruence. unfold versionsEqual.
        rewrite bool_decide_eq_true_2 by done. reflexivity. }
      by eapply requested_settles.
  - eapply (Hprev id None); [done|done| | |done]; [by eapply unmarked_settles|]. unfold load_checkpoint. by rewrite Hk.
Qed.
End Recovery.

Section Settled.
Context `{UnicodeTables} `{TimeZones}.

Lemma stopped_stand target plan stage h0 c w v :
  stand w v -> stopped target plan stage h0 c w -> stopped target plan stage h0 c v.
Proof.
  intros [_ Hr Hk _ Hd] [S1 S2 S3 S4]. split; rewrite ?Hr, ?Hd; try done.
  destruct S4 as [S4|(K & U & X)]; [left; by eapply covered_same|right]. split_and!; [congruence| |done].
  unfold unchanged. by rewrite Hd.
Qed.

(** C39.  An interrupted Docker update can be settled.  From every point of its cutover,
    and from before it on a host with an environment file, a reconcile with a valid plan
    ends with a durable final result when the environment cooperates: nothing else fails,
    the Panel accepts the recovery grant, and the service reports the version of the image
    it runs.  The checkpoint is then gone; the one container has the staged image and the
    environment file pins the planned release if the result says [succeeded]; the container
    has the previous image and the environment file is the one from before the update if it
    says [rolled_back]. *)
Theorem interrupted_docker_cutover_recovers cfg target plan rt l stage h0 c w :
  orderly target plan stage h0 c -> faithful target (plan_on_stage plan stage) stage h0 c ->
  stopped target plan stage h0 c w -> awaiting cfg target plan rt l stage w ->
  exists n v r, forall m, n <= m ->
    run (handle_mutation docker_backend cfg target plan "reconcile" rt) (repeat Done m) w = (v, Some (finished plan r)) /\
    (exists l', ledger v = Some l' /\ Ledger.State l' = remoteLedgerTerminal /\ Ledger.Result l' = Some r) /\
    recovered target plan stage h0 c (ApplyResult.Status r) v.
Proof.
  intros Ho Hf Hs Hw. apply (reconcile_recovers docker_backend cfg target plan rt l stage w Hw (recovered target plan stage h0 c)).
  - intros s v u [_ _ Ek _ Ed] [Hk Hr]. split; [congruence|]. by rewrite Ed.
  - intros v Sv. unfold backend_of. rewrite (od_target _ _ _ _ _ Ho), bool_decide_eq_false_2 by done.
    apply docker_reconcile_settles; [done..|]. by eapply stopped_stand.
Qed.

(** * Without an environment file *)

(** An unsettled update of a target that has neither a checkpoint nor an environment file
    and does not run the requested image. *)
Record stranded (d : DockerTarget.t) (h : DockerHost.t) (jobID : string) (intent : Intent.t) (w : world) : Prop := {
  sr_host : dhost w = h;
  sr_checkpoint : checkpoint w = None;
  sr_env : DockerHost.version_env h = None;
  sr_image : forall image raw digests version, hosts image h -> DockerHost.image_of h image = Some raw ->
    DockerHost.images h !! raw = Some (digests, version) ->
    repositoryHasDigest (Some digests) (DockerTarget.ImageRepo d) (Intent.ExpectedPlatformDigest intent) = false;
  sr_ledger : exists l, ledger w = Some l /\ Ledger.JobID l = jobID /\ Ledger.Intent l = intent /\
    Ledger.State l <> remoteLedgerStaged /\ Ledger.State l <> remoteLedgerTerminal;
}.

Lemma stranded_frame d h l plan operation :
  frame (claimed l plan operation) (stranded d h (Ledger.JobID l) (Ledger.Intent l)) unfinished.
Proof.
  split; intros v *; [intros []; by split..|]. intros (-> & Hs & Ht) [t ->] []. split; try done. eexists. by split_and!.
Qed.

Lemma running_image_spec (I : world -> Prop) Q w :
  I w -> (forall image, (image <> "" -> hosts image (dhost w)) -> Q image w) -> wp I running_image Q w.
Proof.
  intros HI HQ. assert (HE : Q "" w) by by apply HQ.
  unfold running_image. apply wp_bind, wp_observes; [apply managedContainerID_only|done|].
  intros [cid|]; [|by apply wp_ret]. apply wp_bind, inspect_spec; [done|].
  intros [out|] Hout; [|by apply wp_ret]. apply wp_ret; [done|]. apply HQ. specialize (Hout _ eq_refl). by case_match.
Qed.

Lemma stranded_reconcile (I : world -> Prop) target plan h jobID intent w :
  I w -> stranded (Target.Docker target) h jobID intent w ->
  ApplyPlan.ExpectedPlatformDigest plan = Intent.ExpectedPlatformDigest intent ->
  wp I (reconcileDocker target plan) (fun r v => is_err r = true /\ v = w) w.
Proof.
  intros HI [Hh Hk He Him _] Hp. unfold reconcileDocker. cbv zeta. rewrite Hp.
  apply wp_bind_ok. eapply wp_reads_host; [intros ans; reflexivity|done|]. intros [cp|] Hcp; [|done].
  specialize (Hcp _ eq_refl). unfold load_checkpoint in Hcp. rewrite Hk in Hcp. injection Hcp as <-.
  apply wp_bind, running_image_spec; [done|]. intros image Himg. rewrite Hh in Himg.
  apply wp_bind. eapply (wp_mono _ _ (fun digests v => v = w /\
    (image <> "" -> match digests with
     | Ok repo => repositoryHasDigest repo (DockerTarget.ImageRepo (Target.Docker target)) (Intent.ExpectedPlatformDigest intent)
     | Err _ => false end = false))).
  2:{ destruct (image !=? "") eqn:Ei; [|apply wp_ret; [done|]; split; [done|]; intros; by bool_to_prop]. bool_to_prop.
      eapply wp_reads_host; [intros ans; reflexivity|done|]. intros [repo|] Hr; (split; [done|]); [|done]. intros _.
      specialize (Hr _ eq_refl). rewrite Hh in Hr. destruct (DockerHost.image_of h image) as [raw|] eqn:Er; [|done].
      injection Hr as <-. destruct (DockerHost.images h !! raw) as [[digests version]|] eqn:Eg; cbn.
      - by eapply Him; eauto.
      - unfold repositoryHasDigest. apply andb_false_r. }
  intros digests v _ [-> Hd]. apply wp_bind.
  assert (Hno : (image !=? "") && match digests with
     | Ok repo => repositoryHasDigest repo (DockerTarget.ImageRepo (Target.Docker target)) (Intent.ExpectedPlatformDigest intent)
     | Err _ => false end = false).
  { destruct (image !=? "") eqn:Ei; [|done]. bool_to_prop. by apply Hd. }
  rewrite Hno. apply wp_ret; [done|]. unfold reconcile_unmarked. cbv zeta.
  apply wp_bind. eapply wp_reads_host; [intros ans; reflexivity|done|]. intros env Henv.
  apply wp_bind, wp_observe; [done..|]. intros health. unfold readVersionEnv in Henv. rewrite Hh, He in Henv.
  destruct env as [[[data mode] existed]|]; [specialize (Henv _ eq_refl); injection Henv as <- <- <-|];
    destruct digests; rewrite ?andb_false_r; cbn [andb]; by apply wp_ret.
Qed.

(** The requests on one Docker target; the executor validates their plans first. *)
Inductive docker_entry (target : Target.t) : prog op Outcome.t -> Prop :=
| on_docker cfg plan operation rt :
    MutationPlan.Validate plan = Ok tt -> docker_entry target (handle_mutation docker_backend cfg target plan operation rt).

Lemma stranded_run cfg target plan operation rt h l stage w :
  Target.DeploymentMode target <> ModeSystemd -> operation <> "apply" ->
  MutationPlan.ExpectedPlatformDigest plan = Intent.ExpectedPlatformDigest (Ledger.Intent l) ->
  let S := stranded (Target.Docker target) h (Ledger.JobID l) (Ledger.Intent l) in
  S w -> wp S (run_mutation docker_backend cfg target plan operation rt l stage) (fun _ _ => True) w.
Proof.
  intros Hm Ho Hp S Hw. pose proof (stranded_frame (Target.Docker target) h l plan operation) as Hf. fold S in Hf.
  unfold run_mutation. cbv zeta. fold (claimed l plan operation).
  apply wp_bind, wp_put; [done|by apply Hf..|]. apply wp_bind, now_frame; [apply Hf|by apply Hf|]. intros now v Hv Em.
  assert (Hb : based (claimed l plan operation) (memory v)).
  { rewrite Em. exists (Ledger.State l), (Ledger.Result l). by destruct l. }
  rewrite (bool_decide_eq_false_2 (operation = "apply")) by done. apply wp_bind, wp_bind_ok.
  assert (Hsettle : forall r u, is_err r = true -> S u -> based (claimed l plan operation) (memory u) ->
    wp S (settle plan r) (fun _ _ => True) u).
  { intros r u Hr Hu Bu. eapply wp_mono; [|eapply settle_frame; try done]; [done|]. by intros raw r' ->. }
  eapply wp_mono; [|by eapply gate_frame]. intros [[]|e] u _ [Hu Bu]; [|by apply Hsettle].
  unfold backend_of. rewrite bool_decide_eq_false_2 by done.
  eapply wp_mono; [|eapply stranded_reconcile; [exact Hu|exact Hu|done]].
  intros r v' _ [Hr ->]. by apply Hsettle.
Qed.

Lemma valid_platform plan : MutationPlan.Validate plan = Ok tt ->
  normalizeDigest (MutationPlan.ExpectedPlatformDigest plan) = MutationPlan.ExpectedPlatformDigest plan.
Proof.
  intros Hv. destruct (vp_images plan (Validate_valid plan Hv)) as [(_ & _ & ->)|(_ & _ & Hp)]; [done|].
  by apply normalizeDigest_digest.
Qed.

(** C40.  A Docker target without an environment file is stranded by an update that stops
    between its grant and its checkpoint (the Panel rejected the grant, say).  Apply takes
    such a target, reading its version from the configuration, but reconcile accepts the
    absence of a checkpoint only together with an environment file: whatever requests
    follow, and whatever the environment does, the update stays unsettled, the host stays
    as it is, and no other update is admitted. *)
Theorem docker_target_without_env_is_stranded target h jobID intent w v :
  Target.DeploymentMode target <> ModeSystemd ->
  stranded (Target.Docker target) h jobID intent w -> history (docker_entry target) w v ->
  stranded (Target.Docker target) h jobID intent v.
Proof.
  intros Hm Hw Hh. apply (history_invariant (docker_entry target) (stranded (Target.Docker target) h jobID intent) w v); [|done..].
  intros p u [cfg plan operation rt Hval] Hu. destruct (sr_ledger _ _ _ _ _ Hu) as (l & El & <- & <- & Hs & Ht).
  unfold handle_mutation. apply wp_bind, load_spec; [done|by intros; apply wp_ret|congruence|].
  intros l' El' _. assert (l' = l) as -> by congruence. branch.
  - unfold executorStageRequest. rewrite (bool_decide_eq_false_2 (Ledger.State l = remoteLedgerTerminal)) by done.
    rewrite (bool_decide_eq_false_2 (Ledger.State l = remoteLedgerStaged)) by done.
    branch; [|by apply wp_ret]. branch; [by apply wp_ret|]. apply wp_bind, wp_ret; [done|]. by apply wp_ret.
  - branch; [|by apply wp_ret]. unfold executorMutationRequest. cbv zeta.
    rewrite (bool_decide_eq_false_2 (Ledger.State l = remoteLedgerTerminal)) by done.
    rewrite (bool_decide_eq_false_2 (Ledger.State l = remoteLedgerStaged)) by done.
    destruct (remoteLedgerRequestFailure l plan operation !=? "") eqn:Ef.
    { rewrite andb_false_r. cbn [andb]. by apply wp_ret. }
    assert (Hi : Ledger.Intent l = newRemoteMutationIntent plan).
    { bool_to_prop. unfold remoteLedgerRequestFailure, intent_matches in Ef. repeat case_match; try done; by bool_to_prop. }
    apply wp_bind, validate_stage_observes; [done|]. intros [[]|]; [|by apply wp_ret].
    destruct (Ledger.Stage l) as [stage|]; [|by apply wp_ret].
    rewrite andb_false_r. cbn [negb]. rewrite andb_true_r.
    destruct (operation ==? "apply") eqn:Eo; [by apply wp_ret|]. bool_to_prop.
    apply stranded_run; try done. rewrite Hi. cbn. by rewrite valid_platform.
Qed.
End Settled.
