(* ===== verification/DockerDemo.v ===== *)
(** A concrete Docker target under the mutation executor: an update that succeeds, one
    that is interrupted after the new container was started, one whose new container does
    not come up, and a target without an environment file whose grant the Panel rejects. *)
From Stdlib Require Import Ascii String ZArith Lia.
From stdpp Require Import base decidable list strings gmap.
From S2P Require Import Prelude Strings Regexp Patterns Effects Sha256 Json Paths PlanDigest MutationLedger DockerPin MutationExec MutationSafety SystemdCutover SystemdRecovery DockerRelease DockerCutover DockerRecovery.

Open Scope string_scope.
Module DemoDocker.
Import DemoPlan.

Definition digest_of (d : ascii) : string := "sha256:" +:+ string_of_list_ascii (repeat d 64).
Definition repo : string := "ghcr.io/kome-lab/autostream-docker/worker".
Definition old_image : string := Eval vm_compute in digest_of "a".
Definition new_image : string := Eval vm_compute in digest_of "b".
Definition old_platform : string := Eval vm_compute in digest_of "c".
Definition new_platform : string := Eval vm_compute in digest_of "d".
Definition old_manifest : string := Eval vm_compute in digest_of "e".
Definition new_manifest : string := Eval vm_compute in digest_of "f".

Definition cfg : Config.t := Config.mk "/var/lib/updater" "https://panel.example".
Definition target : Target.t :=
  Target.mk "worker-1" "docker" "" (DockerTarget.mk "worker" repo imageVariable "v1.0.0").
Definition rt : Runtime.t := Runtime.mk "pull_v2" 1 1 false false true true.

Definition unsigned : MutationPlan.t :=
  MutationPlan.mk "job-1" "host-1" "worker-1" "worker" "docker" "v1.0.0" ("sha256:" +:+ hex64) "v1.1.0" 3
    hex64 "v2.1.0" new_manifest new_platform "session-0123456789" "".
Definition plan : MutationPlan.t := Eval vm_compute in
  unsigned <| MutationPlan.PlanSHA256 :=
    match MutationPlan.ComputePlanSHA256 unsigned with Ok h => h | Err _ => "" end |>.

Definition env : string := Eval vm_compute in
  "TZ=UTC" +:+ String nl (imageVariable +:+ "=v1.0.0@" +:+ old_manifest +:+ String nl "").
Definition root : string := "/var/lib/updater/stages/s1/docker".

(** The host before the update, with its environment file or without. *)
Definition host (env : option (Z * string)) : DockerHost.t :=
  DockerHost.mk env [("aaaaaaaaaaaa", old_image)]
    {[ old_image := ([repo +:+ "@" +:+ old_platform], "v2.0.0"); new_image := ([repo +:+ "@" +:+ new_platform], "v2.1.0") ]}
    {[ root +:+ "/compose-frozen.json" := repo +:+ "@" +:+ new_platform ]}.

Definition with_env : DockerHost.t := host (Some (384%Z, env)).
Definition without_env : DockerHost.t := host None.

Definition baseline : Baseline.t := Eval vm_compute in
  Baseline.mk ("sha256:" +:+ sha256_hex env) 384 true "v1.0.0" old_manifest "v2.0.0" "aaaaaaaaaaaa" old_image old_platform.
Definition baseline0 : Baseline.t := Eval vm_compute in
  Baseline.mk ("sha256:" +:+ sha256_hex "") 384 false "v1.0.0" old_platform "v2.0.0" "aaaaaaaaaaaa" old_image old_platform.

Definition stage (b : Baseline.t) : Stage.t :=
  Stage.mk root hex64 "v2.1.0" new_manifest new_platform new_image "" "" "" "" (Some b).

Definition ledger_in (s : string) (b : Baseline.t) : Ledger.t :=
  (staged_record plan (stage b)) <| Ledger.State := s |> <| Ledger.UpdatedAt := GoTime.UTC (GoTime.mk 5 true) |>.

(** The target with an unsettled or staged update. *)
Definition at_state (s : string) (b : Baseline.t) (cp : option Checkpoint.t) (h : DockerHost.t) : world :=
  mk_world (Some (ledger_in s b)) cp None ∅ None 5 (mk_vars false (ledger_in s b)) [] h.

Definition staged : world := at_state remoteLedgerStaged baseline None with_env.

Definition request (operation : string) : prog op Outcome.t := handle_mutation docker_backend cfg target plan operation rt.

(** The change of this update, and the host when it stopped after its container had been
    started. *)
Definition pinned_env : string := Eval vm_compute in
  "TZ=UTC" +:+ String nl (imageVariable +:+ "=v1.1.0@" +:+ new_manifest +:+ String nl "").
Definition the_change : change :=
  mk_change target (plan_on_stage plan (stage baseline)) baseline env 384 pinned_env new_image
    (root +:+ "/compose-frozen.json").
Definition stopped_host : DockerHost.t :=
  with_env <| DockerHost.version_env := Some (384%Z, pinned_env) |> <| DockerHost.containers := [(new_container, new_image)] |>.
Definition stopped_world : world :=
  at_state remoteLedgerMutating baseline (Some (docker_stamped the_change "starting")) stopped_host.

(** The target without an environment file, after a rejected grant. *)
Definition rejected : world := at_state remoteLedgerAmbiguous baseline0 None without_env.
End DemoDocker.
Import DemoDocker.

(** The update succeeds when nothing fails; when the new container does not come up, it is
    rolled back. *)
Definition status_of (o : option Outcome.t) : option string := ApplyResult.Status <$> (o ≫= Outcome.Result).

Example docker_apply_succeeds :
  let (v, o) := run (request "apply") (repeat Done 80) staged in
  status_of o = Some "succeeded" /\ DockerHost.version_env (dhost v) = Some (384%Z, pinned_env) /\
  DockerHost.containers (dhost v) = [(new_container, new_image)].
Proof. vm_compute. done. Qed.

Lemma docker_cutover_is_crash_safe_witness :
  let (v, o) := run (request "apply") (repeat Done 45) staged in
  DockerHost.version_env (dhost v) = Some (384%Z, env) /\ DockerHost.containers (dhost v) = [("aaaaaaaaaaaa", old_image)] \/
  exists cp, checkpoint v = Some cp /\ Checkpoint.JobID cp = "job-1" /\ restores cp with_env.
Proof.
  pose proof (docker_cutover_is_crash_safe cfg target plan rt (repeat Done 45) staged (ledger_in remoteLedgerStaged baseline)
    (stage baseline) ltac:(discriminate) eq_refl eq_refl eq_refl) as P.
  change (handle_mutation docker_backend cfg target plan "apply" rt) with (request "apply") in P.
  destruct (run (request "apply") (repeat Done 45) staged) as [v o].
  destruct P as [[[E1 E2]|(cp & Hk & Hj & Hr & _)] _]; [left; split; [exact E1|exact E2]|right].
  exists cp. split; [exact Hk|]. split; [exact Hj|exact Hr].
Defined.

(** ** The stopped update *)

Lemma demo_describes : describes (Target.Docker target) with_env baseline env 384.
Proof.
  split; [reflexivity| |vm_compute; discriminate|vm_compute; reflexivity|by exists old_manifest; vm_compute].
  exists "aaaaaaaaaaaa", old_image. split; [by left|vm_compute; reflexivity].
Qed.

Lemma demo_faithful : faithful target (plan_on_stage plan (stage baseline)) (stage baseline) with_env the_change.
Proof. split; try done; [exact demo_describes|vm_compute; reflexivity..]. Qed.

Lemma demo_orderly : orderly target plan (stage baseline) with_env the_change.
Proof.
  split; try (vm_compute; reflexivity).
  - by exists "aaaaaaaaaaaa".
  - exists [repo +:+ "@" +:+ old_platform]. vm_compute. done.
  - exists [repo +:+ "@" +:+ new_platform]. vm_compute. done.
Qed.

Lemma demo_stopped : stopped target plan (stage baseline) with_env the_change stopped_world.
Proof.
  split; [done| |done|].
  - repeat constructor; try (vm_compute; reflexivity). discriminate.
  - left. split; [by eexists|right; by left| |done]. left. apply rolled_up. vm_compute. reflexivity.
Qed.

Lemma demo_awaiting : awaiting cfg target plan rt (ledger_in remoteLedgerMutating baseline) (stage baseline) stopped_world.
Proof. split; try discriminate; vm_compute; reflexivity. Qed.

Lemma interrupted_docker_cutover_recovers_witness : exists n v r, forall m, n <= m ->
  run (request "reconcile") (repeat Done m) stopped_world = (v, Some (finished plan r)) /\
  recovered target plan (stage baseline) with_env the_change (ApplyResult.Status r) v.
Proof.
  destruct (interrupted_docker_cutover_recovers cfg target plan rt (ledger_in remoteLedgerMutating baseline) (stage baseline)
    with_env the_change stopped_world demo_orderly demo_faithful demo_stopped demo_awaiting) as (n & v & r & Hr).
  exists n, v, r. intros m Hm. destruct (Hr m Hm) as (Hrun & _ & Hrec). split; [exact Hrun|exact Hrec].
Defined.

(** ** The stranded target *)

Lemma demo_stranded :
  stranded (Target.Docker target) without_env "job-1" (newRemoteMutationIntent plan) rejected.
Proof.
  split; [done..| |].
  - intros image raw digests version (id & x & Hin & <-) Hof Hi. apply list_elem_of_singleton in Hin. injection Hin as -> ->.
    assert (E : raw = old_image) by (vm_compute in Hof; injection Hof as <-; reflexivity). subst raw. clear Hof.
    assert (E : digests = [repo +:+ "@" +:+ old_platform]) by (vm_compute in Hi; injection Hi as <- _; vm_compute; reflexivity). subst digests.
    vm_compute. reflexivity.
  - eexists. split; [reflexivity|]. split_and!; try done; vm_compute; discriminate.
Qed.

Lemma docker_target_without_env_is_stranded_witness :
  stranded (Target.Docker target) without_env "job-1" (newRemoteMutationIntent plan)
    (run (request "reconcile") (repeat Done 100) rejected).1.
Proof.
  refine (docker_target_without_env_is_stranded target without_env "job-1" (newRemoteMutationIntent plan) rejected _
    ltac:(discriminate) demo_stranded _).
  refine (history_run _ _ _ (request "reconcile") _ (history_refl _ _) (on_docker target cfg plan "reconcile" rt _)).
  vm_compute. reflexivity.
Defined.
