(* ===== verification/FileTree.v ===== *)
(** The directory tree as the release code sees it: plain files, directories and
    whatever else may be there, with the system calls of package [os] that
    [artifact.go] makes.

    A path is the list of its components, last one first, so that the parent of a path
    is its tail and the root directory is the empty list.  The tree maps paths to nodes.
    No call is followed through a symbolic link: a call on a path that leads through
    one gets no answer in this model, and the code under study creates no link. *)
From Stdlib Require Import Ascii String ZArith Lia.
From stdpp Require Import base decidable list strings gmap sorting.
From S2P Require Import Prelude Compare Strings Paths Effects.

Open Scope string_scope.

Abbreviation path := (list string).

(** File modes in octal. *)
Definition octal (a b c : Z) : Z := (64 * a + 8 * b + c)%Z.
Definition o111 : Z := octal 1 1 1.
Definition o600 : Z := octal 6 0 0.
Definition o644 : Z := octal 6 4 4.
Definition o700 : Z := octal 7 0 0.
Definition o755 : Z := octal 7 5 5.
Definition o777 : Z := octal 7 7 7.

Module Node.
Inductive t : Type :=
| Directory (mode : Z)
| File (mode : Z) (data : string)
| Symlink
| Special.

#[global] Instance t_eq_dec : EqDecision t.
Proof. solve_decision. Defined.

Definition IsDir (n : t) : bool := match n with Directory _ => true | _ => false end.
Definition IsRegular (n : t) : bool := match n with File _ _ => true | _ => false end.
Definition IsSymlink (n : t) : bool := match n with Symlink => true | _ => false end.

(** A directory or a plain file. *)
Definition plain (n : t) : Prop := match n with Directory _ | File _ _ => True | _ => False end.

(** The bytes a node takes, and whether it counts as a file. *)
Definition bytes_of (n : t) : Z := match n with File _ data => len data | _ => 0 end.
Definition files_of (n : t) : Z := match n with File _ _ => 1 | _ => 0 end.

Definition set_mode (mode : Z) (n : t) : option t :=
  match n with
  | Directory _ => Some (Directory mode)
  | File _ data => Some (File mode data)
  | _ => None
  end.
End Node.

Abbreviation tree := (gmap path Node.t).

(** The node of an absolute path. *)
Definition locate (p : string) : path := rev (clean_components p).

Definition dir_at (fs : tree) (k : path) : bool :=
  match fs !! k with Some n => Node.IsDir n | None => false end.

(** Some directory on the way is a symbolic link. *)
Fixpoint linked (fs : tree) (k : path) : bool :=
  match k with
  | [] => false
  | _ :: parent => match fs !! parent with Some n => Node.IsSymlink n | None => false end || linked fs parent
  end.

(** A request that is on its way: where to, and the credential it carries. *)
Record Request := { URL : string; Authorization : string }.

(** The next hop, or the final answer: status, announced length (negative when not
    announced), the bytes of the body and whether reading them ended without error. *)
Inductive Response :=
| Redirect (location : string)
| Final (status contentLength : Z) (body : string) (complete : bool).

(** The tree, the process's umask, and what went over the network. *)
Record world := { fs : tree; umask : Z; traffic : list (Request * Response) }.
#[global] Instance eta_world : Eta world := fun w => {| fs := fs w; umask := umask w; traffic := traffic w |}.

Definition put (k : path) (n : Node.t) (w : world) : world := w <| fs := <[k := n]> (fs w) |>.

(** A new entry can be made at [k]. *)
Definition vacant (fs : tree) (k : path) : bool :=
  match k with
  | [] => false
  | _ :: parent => dir_at fs parent && match fs !! k with None => true | Some _ => false end
  end.

Definition masked (mode : Z) (w : world) : Z := Z.ldiff mode (umask w).

(** The prefix of a string. *)
Fixpoint take_bytes (n : nat) (s : string) : string :=
  match n, s with
  | S n', String c r => String c (take_bytes n' r)
  | _, _ => ""
  end.

(** Everything at or below a path, in the order of a walk: a directory before what is in
    it, and the entries of a directory by name. *)
Definition walk_cmp : path -> path -> comparison := fun a b => list_cmp String.compare (rev a) (rev b).

Definition walk_order (e e' : path * Node.t) : Prop := walk_cmp e.1 e'.1 <> Gt.

#[global] Instance walk_order_dec : RelDecision walk_order.
Proof. intros e e'. unfold walk_order. destruct (walk_cmp e.1 e'.1); [left|left|right]; congruence. Defined.

Definition subtree (fs : tree) (k : path) : list (path * Node.t) :=
  merge_sort walk_order (filter (fun e => k `suffix_of` e.1) (map_to_list fs)).

Lemma elem_of_subtree fs k e : e ∈ subtree fs k <-> k `suffix_of` e.1 /\ fs !! e.1 = Some e.2.
Proof.
  unfold subtree. rewrite (merge_sort_Permutation walk_order). rewrite list_elem_of_filter. destruct e as [p n].
  by rewrite elem_of_map_to_list.
Qed.

(** Without everything at or below a path; and with one directory moved, its new place
    cleared before. *)
Definition remove_tree (k : path) (fs : tree) : tree := filter (fun e => ~ k `suffix_of` e.1) fs.

Definition rebase (from to k : path) : path := (take (List.length k - List.length from) k ++ to)%list.

Definition move_tree (from to : path) (fs : tree) : tree :=
  list_to_map (map (fun e => (rebase from to e.1, e.2)) (subtree fs from)) ∪ remove_tree from (remove_tree to fs).

(** A directory can take the place [to]: nothing is there, or an empty directory. *)
Definition replaceable (fs : tree) (to : path) : bool :=
  match to with
  | [] => false
  | _ :: parent => dir_at fs parent && forallb (fun e => bool_decide (e.1 = to) && Node.IsDir e.2) (subtree fs to)
  end.

(** * Well-formed trees and what is stored in them *)

(** The parent of a node is a directory. *)
Definition closed (fs : tree) : Prop := forall c p n, fs !! (c :: p) = Some n -> dir_at fs p = true.

Definition total (f : Node.t -> Z) (fs : tree) : Z := map_fold (fun _ n acc => (f n + acc)%Z) 0%Z fs.

Abbreviation stored := (total Node.bytes_of).
Abbreviation files := (total Node.files_of).

Definition cost (f : Node.t -> Z) (o : option Node.t) : Z := match o with Some n => f n | None => 0 end.

Lemma total_delete f fs k n : fs !! k = Some n -> total f fs = (f n + total f (delete k fs))%Z.
Proof. intros E. apply (map_fold_delete_L (fun _ n acc => (f n + acc)%Z)); [|done]. intros. lia. Qed.

Lemma total_insert f fs k n : total f (<[k := n]> fs) = (total f fs + f n - cost f (fs !! k))%Z.
Proof.
  rewrite (total_delete f _ k n) by apply lookup_insert_eq. rewrite delete_insert_eq.
  destruct (fs !! k) as [m|] eqn:E; cbn; [rewrite (total_delete f fs k m E)|rewrite (delete_id _ _ E)]; lia.
Qed.

Lemma closed_ancestor fs k p : closed fs -> p `suffix_of` k -> p <> k -> is_Some (fs !! k) -> dir_at fs p = true.
Proof.
  intros Hc [r ->]. induction r as [|c r IH]; [done|]. intros Hne [n Hn]. cbn in *.
  pose proof (Hc _ _ _ Hn) as Hd. destruct r as [|c' r]; [done|].
  apply IH; [|unfold dir_at in Hd; destruct (fs !! _); [eauto|done]].
  intros E. apply (f_equal List.length) in E. rewrite length_app in E. cbn in E. lia.
Qed.

Lemma closed_insert fs k n :
  closed fs -> vacant fs k = true \/ (exists m, fs !! k = Some m /\ Node.IsDir m = Node.IsDir n) -> closed (<[k := n]> fs).
Proof.
  intros Hc Hv c p m Hm. unfold dir_at. destruct (decide (k = p)) as [->|Hkp].
  - rewrite lookup_insert_eq. destruct (decide (p = c :: p)) as [Ecyc|Hne].
    { apply (f_equal List.length) in Ecyc. cbn in Ecyc. lia. }
    rewrite lookup_insert_ne in Hm by done. apply Hc in Hm. unfold dir_at in Hm. destruct Hv as [Hv|(m' & E & Hd)].
    + destruct p as [|c' p]; [done|]. cbn in Hv. destruct (fs !! (c' :: p)); [|done]. by destruct (dir_at fs p).
    + rewrite E in Hm. congruence.
  - rewrite lookup_insert_ne by done. fold (dir_at fs p). destruct (decide (k = c :: p)) as [->|Hkc].
    + destruct Hv as [Hv|(m' & E & _)]; [cbn in Hv; by apply andb_true_iff in Hv as [Hv _]|by eapply Hc].
    + rewrite lookup_insert_ne in Hm by done. by eapply Hc.
Qed.

(** * Removed and moved trees *)

Lemma lookup_remove_tree k fs p : remove_tree k fs !! p = if decide (k `suffix_of` p) then None else fs !! p.
Proof.
  unfold remove_tree. case_decide as Hp.
  - apply map_lookup_filter_None. right. intros n _ Hn. by apply Hn.
  - destruct (fs !! p) as [n|] eqn:E; [apply map_lookup_filter_Some; by split|].
    apply map_lookup_filter_None. by left.
Qed.

Lemma closed_remove_tree k fs : closed fs -> closed (remove_tree k fs).
Proof.
  intros Hc c p n. unfold dir_at. rewrite !lookup_remove_tree. case_decide as Hcp; [done|]. intros Hn.
  rewrite decide_False; [by eapply Hc|]. intros Hp. apply Hcp. by apply suffix_cons_r.
Qed.

Lemma closed_remove_trees ps fs : closed fs -> closed (foldr remove_tree fs ps).
Proof. intros Hc. induction ps; cbn; [done|]. by apply closed_remove_tree. Qed.

Lemma lookup_remove_trees ps fs p :
  foldr remove_tree fs ps !! p = if decide (Exists (fun k => k `suffix_of` p) ps) then None else fs !! p.
Proof.
  induction ps as [|k ps IH]; cbn [foldr].
  - rewrite decide_False; [done|]. intros He. inversion He.
  - rewrite lookup_remove_tree, IH. destruct (decide (Exists _ (k :: ps))) as [He|He]; rewrite Exists_cons in He; repeat case_decide; tauto.
Qed.

Lemma rebase_app from to (r : path) : rebase from to (r ++ from) = (r ++ to)%list.
Proof. unfold rebase. rewrite length_app, Nat.add_sub, take_app_length. done. Qed.

Lemma move_keys_NoDup from to fs :
  NoDup (map (fun e => (rebase from to e.1, e.2)) (subtree fs from)).*1.
Proof.
  rewrite <- list_fmap_compose. apply NoDup_fmap_2_strong.
  - intros [k n] [k' n'] Hk Hk' E. apply elem_of_subtree in Hk as [[r Er] Hn], Hk' as [[r' Er'] Hn'].
    cbn [fst snd] in *. subst k k'. unfold compose in E. cbn [fst snd] in E.
    rewrite !rebase_app in E. apply app_inv_tail in E as ->. congruence.
  - unfold subtree. rewrite merge_sort_Permutation. apply NoDup_filter, NoDup_map_to_list.
Qed.

Lemma lookup_moved from to fs (r : path) :
  ~ to `suffix_of` from -> ~ from `suffix_of` to ->
  move_tree from to fs !! (r ++ to)%list = fs !! (r ++ from)%list.
Proof.
  intros Hn1 Hn2. unfold move_tree. destruct (fs !! (r ++ from)%list) as [n|] eqn:E.
  - apply lookup_union_Some_l, elem_of_list_to_map; [apply move_keys_NoDup|]. apply list_elem_of_fmap.
    exists ((r ++ from)%list, n). cbn [fst snd]. rewrite rebase_app. split; [done|]. apply elem_of_subtree. split; [by exists r|done].
  - rewrite lookup_union_r.
    + rewrite lookup_remove_tree. case_decide; [done|]. rewrite lookup_remove_tree, decide_True; [done|]. by exists r.
    + apply not_elem_of_list_to_map. intros Hin. apply list_elem_of_fmap in Hin as ([k n] & Ek & Hin).
      apply list_elem_of_fmap in Hin as ([k' n'] & Ek' & Hin). apply elem_of_subtree in Hin as [[r' Er] Hn]. cbn [fst snd] in *. subst k'.
      injection Ek' as -> ->. cbn [fst snd] in Ek. rewrite rebase_app in Ek. apply app_inv_tail in Ek as ->. congruence.
Qed.

Lemma lookup_unmoved from to fs p :
  ~ to `suffix_of` p -> move_tree from to fs !! p = if decide (from `suffix_of` p) then None else fs !! p.
Proof.
  intros Hp. unfold move_tree. rewrite lookup_union_r.
  - rewrite !lookup_remove_tree. by rewrite (decide_False (P := to `suffix_of` p)).
  - apply not_elem_of_list_to_map. intros Hin. apply list_elem_of_fmap in Hin as ([k n] & Ek & Hin).
    apply list_elem_of_fmap in Hin as ([k' n'] & Ek' & Hin). apply elem_of_subtree in Hin as [[r' Er] Hn]. cbn [fst snd] in *. subst k'.
    injection Ek' as -> ->. cbn [fst snd] in Ek. rewrite rebase_app in Ek. apply Hp. by exists r'.
Qed.

Lemma replaceable_apart fs from to :
  replaceable fs to = true -> dir_at fs from = true -> ~ from `suffix_of` to -> ~ to `suffix_of` from.
Proof.
  intros Hr Hd Hn Hs. destruct to as [|x p]; [done|]. cbn in Hr. apply andb_true_iff in Hr as [_ Hr]. rewrite forallb_forall in Hr.
  unfold dir_at in Hd. destruct (fs !! from) as [n|] eqn:E; [|done].
  assert (Hin : In (from, n) (subtree fs (x :: p))) by by apply list_elem_of_In, elem_of_subtree.
  apply Hr in Hin. cbn in Hin. apply andb_true_iff in Hin as [Hin _]. apply bool_decide_eq_true in Hin as ->. by apply Hn.
Qed.

Lemma closed_move from to fs :
  closed fs -> dir_at fs from = true -> replaceable fs to = true -> ~ from `suffix_of` to -> closed (move_tree from to fs).
Proof.
  intros Hc Hd Hr Hn. pose proof (replaceable_apart _ _ _ Hr Hd Hn) as Hn'. intros c p n Hm. unfold dir_at.
  destruct (decide (to `suffix_of` c :: p)) as [[r E]|Ht].
  - destruct r as [|c' r]; cbn in E.
    + subst to. cbn in Hr. apply andb_true_iff in Hr as [Hp _]. rewrite lookup_unmoved.
      * rewrite decide_False; [done|]. intros Hs. apply Hn. by apply suffix_cons_r.
      * intros Hs%suffix_length. cbn in Hs. lia.
    + injection E as -> ->. change (c' :: r ++ to)%list with ((c' :: r) ++ to)%list in Hm. rewrite lookup_moved in Hm by done.
      rewrite lookup_moved by done. by eapply Hc.
  - rewrite lookup_unmoved in Hm by done. case_decide as Hf; [done|]. rewrite lookup_unmoved, decide_False.
    + by eapply Hc.
    + intros Hs. apply Hf. by apply suffix_cons_r.
    + intros Hs. apply Ht. by apply suffix_cons_r.
Qed.
