(* ===== verification/Artifact.v ===== *)
(** Release artifacts on disk ([artifact.go]): unpacking an archive below a fresh
    directory, reading the checksum files, and verifying an unpacked release against the
    checksums it carries.

    What [gzip] and [tar] make of the bytes of an archive is the class [ArchiveFormat];
    what the code does with the entries they yield is all here. *)
From Stdlib Require Import Ascii String ZArith Lia.
From stdpp Require Import base decidable list strings gmap.
From S2P Require Import Prelude Strings Regexp Patterns Sha256 Paths Effects FileTree.

Open Scope string_scope.

Definition TrimSuffix (s suffix : string) : string :=
  if HasPrefix (str_rev s) (str_rev suffix) then take_bytes (String.length s - String.length suffix) s else s.

(** * Operations *)

Inductive op : Type -> Type :=
| Mkdir (k : path) (mode : Z) : op check
| Chmod (k : path) (mode : Z) : op check
| Stat (k : path) : op (result string Node.t)
| Lstat (k : path) : op (result string Node.t)
| Create (k : path) (mode : Z) : op check
| Write (k : path) (data : string) : op check
| Sync (k : path) : op check
| Close (k : path) : op check
| Rename (from to : path) : op check
| Remove (k : path) : op unit
| Probe (k : path) : op (result string (option Node.t))
| IsRootOwner (k : path) : op bool
| RemoveAll (k : path) : op check
| Move (from to : path) : op check
| ReadFile (k : path) : op (result string string)
| Walk (k : path) : op (result string (list (path * Node.t)))
| RoundTrip (req : Request) : op (result string Response).

(** [Rename] is the rename of a file, [Move] that of a directory; [Probe] is [os.Lstat]
    with [os.ErrNotExist] told apart from other errors. *)

(** [Done]: the call has its effect, or fails for a reason the tree shows.  [Failed]: it
    fails without effect.  [Partly n]: a write stops after [n] bytes.  [Cleared ps]: a
    removal stops after it removed these subtrees.  [Answered]: what the network
    returned. *)
Inductive answer :=
| Done
| Failed
| Partly (n : nat)
| Cleared (ps : list path)
| Answered (resp : Response).

Definition failed : string := "operation failed".

Definition info (o : option Node.t) : result string Node.t :=
  match o with Some n => Ok n | None => Err failed end.

Definition append_to (k : path) (data : string) (w : world) : option world :=
  match fs w !! k with
  | Some (Node.File mode old) => Some (put k (Node.File mode (old +:+ data)) w)
  | _ => None
  end.

Definition handle_op {X} (o : op X) (ans : answer) (w : world) : option (X * world) :=
  match o in op X return option (X * world) with
  | Mkdir k mode =>
      if linked (fs w) k then None else
      match ans with
      | Done => Some (if vacant (fs w) k then (Ok tt, put k (Node.Directory (masked mode w)) w) else (Err failed, w))
      | Failed => Some (Err failed, w)
      | _ => None
      end
  | Chmod k mode =>
      if linked (fs w) k then None else
      match ans with
      | Done =>
          match fs w !! k with
          | None => Some (Err failed, w)
          | Some n => match Node.set_mode mode n with Some n' => Some (Ok tt, put k n' w) | None => None end
          end
      | Failed => Some (Err failed, w)
      | _ => None
      end
  | Stat k =>
      if linked (fs w) k then None else
      match ans with
      | Done => match fs w !! k with Some Node.Symlink => None | o => Some (info o, w) end
      | Failed => Some (Err failed, w)
      | _ => None
      end
  | Lstat k =>
      if linked (fs w) k then None else
      match ans with
      | Done => Some (info (fs w !! k), w)
      | Failed => Some (Err failed, w)
      | _ => None
      end
  | Create k mode =>
      if linked (fs w) k then None else
      match ans with
      | Done => Some (if vacant (fs w) k then (Ok tt, put k (Node.File (masked mode w) "") w) else (Err failed, w))
      | Failed => Some (Err failed, w)
      | _ => None
      end
  | Write k data =>
      match ans with
      | Done => match append_to k data w with Some w' => Some (Ok tt, w') | None => None end
      | Partly n => match append_to k (take_bytes n data) w with Some w' => Some (Err failed, w') | None => None end
      | Failed => Some (Err failed, w)
      | _ => None
      end
  | Sync _ | Close _ =>
      match ans with
      | Done => Some (Ok tt, w)
      | Failed => Some (Err failed, w)
      | _ => None
      end
  | Rename from to =>
      if linked (fs w) from || linked (fs w) to then None else
      match ans with
      | Done =>
          match fs w !! from with
          | Some (Node.File mode data) =>
              if dir_at (fs w) to || negb (dir_at (fs w) (tail to)) then Some (Err failed, w)
              else Some (Ok tt, put to (Node.File mode data) (w <| fs := delete from (fs w) |>))
          | _ => Some (Err failed, w)
          end
      | Failed => Some (Err failed, w)
      | _ => None
      end
  | Remove k =>
      if linked (fs w) k then None else
      match ans with
      | Done =>
          match fs w !! k with
          | Some (Node.Directory _) => None
          | _ => Some (tt, w <| fs := delete k (fs w) |>)
          end
      | Failed => Some (tt, w)
      | _ => None
      end
  | Probe k =>
      if linked (fs w) k then None else
      match ans with
      | Done => Some (Ok (fs w !! k), w)
      | Failed => Some (Err failed, w)
      | _ => None
      end
  | IsRootOwner _ =>
      match ans with
      | Done => Some (true, w)
      | Failed => Some (false, w)
      | _ => None
      end
  | RemoveAll k =>
      if linked (fs w) k then None else
      match ans with
      | Done => Some (Ok tt, w <| fs := remove_tree k (fs w) |>)
      | Cleared ps => Some (Err failed, w <| fs := foldr remove_tree (fs w) (filter (fun p => k `suffix_of` p) ps) |>)
      | Failed => Some (Err failed, w)
      | _ => None
      end
  | Move from to =>
      if linked (fs w) from || linked (fs w) to then None else
      match ans with
      | Done =>
          if dir_at (fs w) from && replaceable (fs w) to && negb (bool_decide (from `suffix_of` to))
          then Some (Ok tt, w <| fs := move_tree from to (fs w) |>) else Some (Err failed, w)
      | Failed => Some (Err failed, w)
      | _ => None
      end
  | ReadFile k =>
      if linked (fs w) k then None else
      match ans with
      | Done =>
          match fs w !! k with
          | Some (Node.File _ data) => Some (Ok data, w)
          | Some Node.Symlink => None
          | _ => Some (Err failed, w)
          end
      | Failed => Some (Err failed, w)
      | _ => None
      end
  | Walk k =>
      if linked (fs w) k then None else
      match ans with
      | Done => Some (if bool_decide (is_Some (fs w !! k)) then Ok (subtree (fs w) k) else Err failed, w)
      | Failed => Some (Err failed, w)
      | _ => None
      end
  | RoundTrip req =>
      match ans with
      | Answered resp => Some (Ok resp, w <| traffic := (req, resp) :: traffic w |>)
      | Failed => Some (Err failed, w)
      | _ => None
      end
  end.

#[global] Instance artifact_handler : Handler op world answer := @handle_op.

(** * Paths inside an archive *)

(** [filepath.FromSlash] and [ToSlash] are the identity on Linux. *)
Definition safeArchivePath (name : string) : bool :=
  if (name ==? "") || HasPrefix name "/" || ContainsByte name "\" || ContainsByte name "000" then false
  else
    let clean := Clean name in
    (clean ==? name) && (clean !=? ".") && (clean !=? "..") && negb (HasPrefix clean "../").

(** * Unpacking *)

Record Header := { Name : string; Mode : Z; Size : Z; Typeflag : ascii }.

Definition TypeDir : ascii := "5".
Definition TypeReg : ascii := "0".
Definition TypeRegA : ascii := "000".

(** What the tar reader yields: the entries one after the other, each with the bytes its
    body gives and whether reading them ends without error, and in the end either the
    end of the archive or an error. *)
Inductive archive :=
| EOF
| ReadError
| Entry (hdr : Header) (body : string) (complete : bool) (rest : archive).

Class ArchiveFormat := gunzip_untar : string -> option archive.

(** [os.MkdirAll], from the leaf up to the first directory that is there. *)
Fixpoint MkdirAll (k : path) (mode : Z) : prog op check :=
  let* st := call (Stat k) in
  match st with
  | Ok n => Ret (if Node.IsDir n then Ok tt else Err "not a directory")
  | Err _ =>
      let? _ := match k with [] => Ret (Ok tt) | _ :: parent => MkdirAll parent mode end in
      let* made := call (Mkdir k mode) in
      match made with
      | Ok _ => Ret (Ok tt)
      | Err e =>
          let* st := call (Lstat k) in
          match st with
          | Ok n => Ret (if Node.IsDir n then Ok tt else Err e)
          | Err _ => Ret (Err e)
          end
      end
  end.

Fixpoint chmod_each (current : string) (cs : list string) : prog op check :=
  match cs with
  | [] => Ret (Ok tt)
  | component :: rest =>
      if (component ==? "") || (component ==? ".") || (component ==? "..")
      then Ret (Err "extracted directory path is invalid")
      else
        let current := Join [current; component] in
        let* st := call (Lstat (locate current)) in
        match st with
        | Ok n =>
            if negb (Node.IsDir n) || Node.IsSymlink n then Ret (Err "extracted directory is unsafe")
            else
              let* changed := call (Chmod (locate current) o755) in
              match changed with
              | Ok _ => chmod_each current rest
              | Err _ => Ret (Err "restore extracted directory mode")
              end
        | Err _ => Ret (Err "extracted directory is unsafe")
        end
  end.

Definition chmodExtractedDirectories (root leaf : string) : prog op check :=
  let root := Clean root in
  let leaf := Clean leaf in
  if negb (pathWithin root leaf) then Ret (Err "extracted directory escaped extraction root")
  else
    match Rel root leaf with
    | None => Ret (Err "resolve extracted directory")
    | Some [] => Ret (Ok tt)
    | Some components => chmod_each root components
    end.

(** [io.LimitReader]: at most [n] bytes. *)
Definition limited (n : Z) (s : string) : string := if (len s <=? n)%Z then s else take_bytes (Z.to_nat n) s.

Definition release_mode (hdr : Header) : Z :=
  if (Z.land (Mode hdr) o111 =? 0)%Z then o644 else o755.

Definition extract_directory (dest out : string) : prog op check :=
  let? _ := MkdirAll (locate out) o755 in chmodExtractedDirectories dest out.

(** Sets the mode of the copied file and closes it; every step is tried, then judged. *)
Definition finish_file (k : path) (hdr : Header) (body : string) (complete : bool) (copied : check) : prog op check :=
  let* changed := call (Chmod k (release_mode hdr)) in
  let* shut := call (Close k) in
  Ret (if is_err copied || negb (complete || (Size hdr + 1 <=? len body)%Z) || is_err changed || is_err shut ||
          negb (len (limited (Size hdr + 1) body) =? Size hdr)%Z
       then Err "archive entry could not be extracted completely" else Ok tt).

Definition fill_file (k : path) (hdr : Header) (body : string) (complete : bool) : prog op check :=
  let? _ := call (Create k (release_mode hdr)) in
  let* copied := call (Write k (limited (Size hdr + 1) body)) in
  finish_file k hdr body complete copied.

(** The new total of unpacked bytes. *)
Definition extract_entry (dest out : string) (maxBytes total : Z) (hdr : Header) (body : string) (complete : bool) :
    prog op (result string Z) :=
  if Ascii.eqb (Typeflag hdr) TypeDir then
    let? _ := extract_directory dest out in Ret (Ok total)
  else if Ascii.eqb (Typeflag hdr) TypeReg || Ascii.eqb (Typeflag hdr) TypeRegA then
    if (Size hdr <? 0)%Z || (maxBytes - Size hdr <? total)%Z then Ret (Err "archive exceeds extraction size limit")
    else
      let? _ := extract_directory dest (Dir out) in
      let? _ := fill_file (locate out) hdr body complete in
      Ret (Ok (total + Size hdr)%Z)
  else Ret (Err "archive entry has forbidden type").

Definition top_level (name : string) : string :=
  match Split name "/" with part :: _ => part | [] => "" end.

(** [entries], [seen], [top] and [total] are the variables of the loop. *)
Fixpoint extract_entries (dest : string) (maxBytes maxEntries : Z) (a : archive)
    (entries : Z) (seen : list string) (top : string) (total : Z) : prog op (result string string) :=
  match a with
  | EOF => Ret (Ok top)
  | ReadError => Ret (Err "read tar")
  | Entry hdr body complete rest =>
      let entries := (entries + 1)%Z in
      if (maxEntries <? entries)%Z then Ret (Err "archive contains too many entries")
      else
        let name := TrimSuffix (Name hdr) "/" in
        if negb (safeArchivePath name) then Ret (Err "archive contains unsafe path")
        else if bool_decide (name ∈ seen) then Ret (Err "archive contains duplicate path")
        else
          let part := top_level name in
          if (top !=? "") && (top !=? part) then Ret (Err "archive must contain exactly one top-level directory")
          else
            let out := Join [dest; name] in
            if negb (pathWithin dest out) then Ret (Err "archive path escaped extraction directory")
            else if (Mode hdr <? 0)%Z || negb (Z.ldiff (Mode hdr) o777 =? 0)%Z
            then Ret (Err "archive entry has forbidden mode bits")
            else
              let? total := extract_entry dest out maxBytes total hdr body complete in
              extract_entries dest maxBytes maxEntries rest entries (name :: seen) part total
  end.

Definition ExtractTarGz `{ArchiveFormat} (archivePath dest : string) (maxBytes maxEntries : Z) :
    prog op (result string string) :=
  let? _ := call (Mkdir (locate dest) o700) in
  let? _ := call (Chmod (locate dest) o700) in
  let? data := call (ReadFile (locate archivePath)) in
  match gunzip_untar data with
  | None => Ret (Err "open gzip")
  | Some a =>
      let? top := extract_entries dest maxBytes maxEntries a 0 [] "" 0 in
      if top ==? "" then Ret (Err "archive is empty")
      else
        let root := Join [dest; top] in
        let* st := call (Stat (locate root)) in
        match st with
        | Ok n => Ret (if Node.IsDir n then Ok root else Err "archive top-level directory is missing")
        | Err _ => Ret (Err "archive top-level directory is missing")
        end
  end.

(** * Checksums *)

(** [bufio.Scanner]: the lines, without their line ends and a carriage return before it,
    up to the first one that does not fit into the buffer; and whether there was one. *)
Definition maxScanTokenSize : Z := 65536.

Definition drop_cr (line : string) : string := TrimSuffix line (String "013" "").

Fixpoint scan_lines (pieces : list string) : list string * bool :=
  match pieces with
  | [] => ([], false)
  | [last] => if last ==? "" then ([], false)
              else if (maxScanTokenSize <=? len last)%Z then ([], true) else ([drop_cr last], false)
  | line :: rest =>
      if (maxScanTokenSize <=? len line)%Z then ([], true)
      else let '(lines, long) := scan_lines rest in (drop_cr line :: lines, long)
  end.

Definition Scanner (limit : Z) (data : string) : list string * bool := scan_lines (Split (limited limit data) "010").

Definition hex_any (c : ascii) : bool := hexdigit c || rng "A" "F" c.

(** [hex.DecodeString] succeeds. *)
Definition hex_decodes (s : string) : bool := Nat.even (String.length s) && str_forall hex_any s.

Section Checksums.
Context `{UnicodeTables}.

Definition readSHA256File (p expectedName : string) : prog op (result string string) :=
  let? data := call (ReadFile (locate p)) in
  let bad := Err "SHA256 sidecar has an invalid format or filename" in
  Ret (match Scanner 1048576 data with
  | ([], _) => Err "SHA256 sidecar is empty"
  | (line :: more, long) =>
      if (len line <? 67)%Z || (take_bytes 2 (str_drop 64 line) !=? "  ") then bad
      else
        let digest := take_bytes 64 line in
        let checksumName := str_drop 66 line in
        if (checksumName !=? expectedName) || (ToLower digest !=? digest) || (len checksumName =? 0)%Z then bad
        else if negb (hex_decodes digest) then Err "SHA256 sidecar contains an invalid digest"
        else if bool_decide (more <> []) || long then Err "SHA256 sidecar must contain exactly one line"
        else Ok digest
  end).

(** One line of [checksums.txt] in [listed]: file names and digests. *)
Definition checksum_line (line : string) (listed : gmap string string) : result string (gmap string string) :=
  match Fields line, last (Fields line) with
  | digest :: _ :: _, Some final =>
      if negb (len digest =? 64)%Z then Err "checksums.txt contains an invalid line"
      else
        let name := TrimPrefix (TrimPrefix final "*") "./" in
        if name ==? "checksums.txt" then Ok listed
        else if negb (safeArchivePath name) || (default "" (listed !! name) !=? "")
        then Err "checksums.txt contains an unsafe or duplicate path"
        else if negb (hex_decodes digest) then Err "checksums.txt contains an invalid digest"
        else Ok (<[name := ToLower digest]> listed)
  | _, _ => Err "checksums.txt contains an invalid line"
  end.

Fixpoint checksum_lines (lines : list string) (listed : gmap string string) : result string (gmap string string) :=
  match lines with
  | [] => Ok listed
  | line :: rest => let! listed := checksum_line line listed in checksum_lines rest listed
  end.

Definition checksum_list (data : string) : result string (gmap string string) :=
  let '(lines, long) := Scanner 4194304 data in
  let! listed := checksum_lines lines ∅ in
  if long then Err "bufio.Scanner: token too long"
  else if bool_decide (listed = ∅) then Err "checksums.txt contains no files"
  else Ok listed.

Definition hashFile (k : path) : prog op (result string string) :=
  let? data := call (ReadFile k) in Ret (Ok (sha256_hex data)).

(** The listed files, one by one; the result are their paths. *)
Fixpoint check_files (root : string) (listed : list (string * string)) : prog op (result string (list path)) :=
  match listed with
  | [] => Ret (Ok [])
  | (name, expected) :: rest =>
      let p := Join [root; name] in
      if negb (pathWithin root p) then Ret (Err "checksum path escaped artifact root")
      else
        let* st := call (Lstat (locate p)) in
        match st with
        | Ok n =>
            if negb (Node.IsRegular n) then Ret (Err "checksummed file is missing or not regular")
            else
              let* digest := hashFile (locate p) in
              match digest with
              | Ok digest =>
                  if negb (EqualFold digest expected) then Ret (Err "inner checksum mismatch")
                  else let? seen := check_files root rest in Ret (Ok (locate p :: seen))
              | Err _ => Ret (Err "inner checksum mismatch")
              end
        | Err _ => Ret (Err "checksummed file is missing or not regular")
        end
  end.

(** The callback of [filepath.WalkDir] on one entry. *)
Definition visit (manifest : path) (seen allowedExtra : list path) (e : path * Node.t) : check :=
  if Node.IsSymlink e.2 then Err "artifact contains a symlink"
  else if negb (Node.IsDir e.2) && negb (Node.IsRegular e.2) then Err "artifact contains a non-regular file"
  else if Node.IsRegular e.2 && (e.1 !=? manifest) && negb (bool_decide (e.1 ∈ seen)) && negb (bool_decide (e.1 ∈ allowedExtra))
  then Err "artifact file is not listed in checksums.txt"
  else Ok tt.

Fixpoint visit_all (manifest : path) (seen allowedExtra : list path) (entries : list (path * Node.t)) : check :=
  match entries with
  | [] => Ok tt
  | e :: rest => let! _ := visit manifest seen allowedExtra e in visit_all manifest seen allowedExtra rest
  end.

Definition verifyInnerChecksums (root : string) (allowedExtra : list path) : prog op check :=
  let manifest := locate (Join [root; "checksums.txt"]) in
  let* read := call (ReadFile manifest) in
  match read with
  | Err _ => Ret (Err "artifact is missing checksums.txt")
  | Ok data =>
      let? listed := lift (checksum_list data) in
      let? seen := check_files root (map_to_list listed) in
      let? entries := call (Walk (locate root)) in
      Ret (visit_all manifest seen allowedExtra entries)
  end.

Definition VerifyInnerChecksums (root : string) : prog op check := verifyInnerChecksums root [].

Definition managed_extra (root : string) : list path :=
  [locate (Clean (Join [root; ".artifact-sha256"])); locate (Clean (Join [root; ".version"]))].

Definition verifyManagedReleaseChecksums (root : string) : prog op check :=
  verifyInnerChecksums root (managed_extra root).
End Checksums.

Example safe_1 : safeArchivePath "release/bin/worker" = true. Proof. reflexivity. Qed.
Example safe_2 : safeArchivePath "release/../x" = false. Proof. reflexivity. Qed.
Example safe_3 : safeArchivePath "../x" = false. Proof. reflexivity. Qed.
Example safe_4 : safeArchivePath "a//b" = false. Proof. reflexivity. Qed.
Example scan_1 : Scanner 100 ("a" +:+ String "013" (String "010" "b")) = (["a"; "b"], false). Proof. vm_compute. reflexivity. Qed.
Example suffix_1 : TrimSuffix "a/b/" "/" = "a/b". Proof. reflexivity. Qed.
