(* ===== verification/ArchivePaths.v ===== *)
(** Where the paths of an archive lead: a safe name joined to a directory is the path
    of the directory followed by the components of the name. *)
From Stdlib Require Import Ascii String ZArith Lia.
From stdpp Require Import base decidable list strings gmap.
From S2P Require Import Prelude Strings Paths DockerPin Effects FileTree Artifact.

Open Scope string_scope.

Definition slash : ascii := "/".

(** A component as it may stand in a cleaned path, and one that goes down. *)
Definition solid (c : string) : Prop := c <> "" /\ c <> "." /\ no_byte slash c = true.
Definition good (c : string) : Prop := solid c /\ c <> "..".

Lemma Split_join_with cs :
  cs <> [] -> Forall (fun c => no_byte slash c = true) cs -> Split (join_with "/" cs) slash = cs.
Proof.
  intros Hne Hc. induction Hc as [|c cs Hc Hcs IH]; [done|]. destruct cs as [|c' cs]; [by apply Split_single|].
  change (join_with "/" (c :: c' :: cs)) with (c +:+ String slash (join_with "/" (c' :: cs))).
  by rewrite Split_app, (Split_single c), IH.
Qed.

Lemma components_solid p : Forall solid (components p).
Proof.
  apply Forall_forall. intros c Hc. apply list_elem_of_filter in Hc as [[Hne Hd] Hin].
  pose proof (Split_pieces p slash) as Hp. rewrite Forall_forall in Hp. by split_and!; [| |apply Hp].
Qed.

Lemma dots_solid : solid "..".
Proof. by split_and!. Qed.

Lemma push_solid rooted stack c : solid c -> Forall solid stack -> Forall solid (push_component rooted stack c).
Proof.
  intros Hc Hs. unfold push_component. case_bool_decide as Ec; [|by constructor]. subst c.
  destruct Hs as [|top rest Ht Hr]; [destruct rooted; eauto using dots_solid|].
  case_bool_decide; [|done]. eauto using dots_solid.
Qed.

Lemma clean_components_solid p : Forall solid (clean_components p).
Proof.
  apply Forall_rev. pose proof (components_solid p) as Hc. revert Hc.
  assert (G : forall l stack, Forall solid l -> Forall solid stack ->
    Forall solid (fold_left (push_component (IsAbs p)) l stack)).
  { induction l as [|c l IH]; intros stack Hl Hs; [done|]. inversion_clear Hl. apply IH; [done|]. by apply push_solid. }
  intros Hc. by apply G.
Qed.

Lemma clean_components_good p : IsAbs p = true -> Forall good (clean_components p).
Proof.
  intros Ha. pose proof (clean_components_solid p) as Hs. pose proof (clean_abs_no_dots p Ha) as Hd.
  rewrite Forall_forall in *. by split; auto.
Qed.

Lemma fold_push_good rooted cs stack : Forall good cs -> fold_left (push_component rooted) cs stack = (rev cs ++ stack)%list.
Proof.
  intros Hc. revert stack. induction Hc as [|c cs [_ Hc] _ IH]; intros stack; [done|]. cbn.
  unfold push_component at 2. rewrite bool_decide_eq_false_2 by done. by rewrite IH, <- app_assoc.
Qed.

Lemma filter_solid cs : Forall solid cs -> filter (fun c => c <> "" /\ c <> ".") cs = cs.
Proof. intros Hc. apply filter_all. eapply Forall_impl; [exact Hc|]. by intros c (? & ? & _). Qed.

Lemma good_no_slash cs : Forall good cs -> Forall (fun c => no_byte slash c = true) cs.
Proof. intros Hc. eapply Forall_impl; [exact Hc|]. by intros c [(_ & _ & ?) _]. Qed.

Lemma good_solid cs : Forall good cs -> Forall solid cs.
Proof. intros Hc. eapply Forall_impl; [exact Hc|]. by intros c [? _]. Qed.

(** The components of a relative path below an absolute one. *)
Lemma components_below p q : components (p +:+ String slash q) = (components p ++ components q)%list.
Proof. unfold components. fold slash. by rewrite Split_app, filter_app. Qed.

Lemma IsAbs_app p q : IsAbs p = true -> IsAbs (p +:+ q) = true.
Proof. apply HasPrefix_app. Qed.

Lemma components_good_split s : Forall good (Split s slash) -> components s = Split s slash.
Proof. intros Hs. apply filter_solid, good_solid, Hs. Qed.

Lemma clean_below p q :
  IsAbs p = true -> Forall good (Split q slash) ->
  clean_components (p +:+ String slash q) = (clean_components p ++ Split q slash)%list.
Proof.
  intros Hp Hq. unfold clean_components. rewrite IsAbs_app, Hp, components_below, fold_left_app by done.
  rewrite (components_good_split q Hq), fold_push_good, rev_app_distr, rev_involutive by done. done.
Qed.

Lemma IsAbs_render cs : IsAbs (render true cs) = true.
Proof. apply HasPrefix_spec. by exists (join_with "/" cs). Qed.

Lemma components_render cs : Forall solid cs -> components (render true cs) = cs.
Proof.
  intros Hc. change (render true cs) with ("" +:+ String slash (join_with "/" cs)).
  rewrite components_below. change (components "") with (@nil string). destruct (decide (cs = [])) as [->|Hne]; [done|].
  cbn [List.app]. unfold components. fold slash. rewrite Split_join_with; [by apply filter_solid|done|].
  eapply Forall_impl; [exact Hc|]. by intros c (_ & _ & ?).
Qed.

Lemma clean_render cs : Forall good cs -> clean_components (render true cs) = cs.
Proof.
  intros Hc. unfold clean_components. rewrite IsAbs_render, components_render by by apply good_solid.
  rewrite fold_push_good by done. by rewrite app_nil_r, rev_involutive.
Qed.

Lemma IsAbs_Clean p : IsAbs p = true -> IsAbs (Clean p) = true.
Proof. intros Hp. unfold Clean. rewrite Hp. apply IsAbs_render. Qed.

Lemma clean_Clean p : IsAbs p = true -> clean_components (Clean p) = clean_components p.
Proof. intros Hp. unfold Clean. rewrite Hp. by apply clean_render, clean_components_good. Qed.

Lemma locate_Clean p : IsAbs p = true -> locate (Clean p) = locate p.
Proof. intros Hp. unfold locate. by rewrite clean_Clean. Qed.

Lemma IsAbs_nonempty p : IsAbs p = true -> p <> "".
Proof. by intros Hp ->. Qed.

(** [Join] of a directory and a relative name. *)
Lemma Join_two p q : p <> "" -> q <> "" -> Join [p; q] = Clean (p +:+ String slash q).
Proof.
  intros Hp Hq. unfold Join. rewrite filter_cons_True, filter_cons_True by done. done.
Qed.

Lemma good_split_nonempty q : Forall good (Split q slash) -> q <> "".
Proof. intros Hq ->. inversion_clear Hq as [|? ? [(Hne & _) _] _]. done. Qed.

Lemma Join_below p q :
  IsAbs p = true -> Forall good (Split q slash) ->
  IsAbs (Join [p; q]) = true /\ locate (Join [p; q]) = (rev (Split q slash) ++ locate p)%list.
Proof.
  intros Hp Hq. rewrite Join_two by eauto using IsAbs_nonempty, good_split_nonempty.
  split; [by apply IsAbs_Clean, IsAbs_app|]. rewrite locate_Clean by by apply IsAbs_app.
  unfold locate. by rewrite clean_below, rev_app_distr.
Qed.

Lemma Join_component p c :
  IsAbs p = true -> good c -> IsAbs (Join [p; c]) = true /\ locate (Join [p; c]) = c :: locate p.
Proof.
  intros Hp Hc. pose proof Hc as [(_ & _ & Hb) _]. assert (Hs : Split c slash = [c]) by by apply Split_single.
  destruct (Join_below p c) as [Ha Hl]; [done|rewrite Hs; by constructor|]. split; [done|]. by rewrite Hl, Hs.
Qed.

Lemma Dir_parent p : IsAbs p = true -> IsAbs (Dir p) = true /\ locate (Dir p) = tail (locate p).
Proof.
  intros Hp. unfold Dir, locate. rewrite Hp. split; [apply IsAbs_render|].
  rewrite clean_render; [apply rev_involutive|]. apply Forall_rev.
  pose proof (Forall_rev (clean_components_good p Hp)) as Hr.
  destruct Hr; [constructor|done].
Qed.

(** * Safe names *)

(** Behind a component that goes down, cleaning leaves no [..]. *)
Lemma join_dots_prefix cs : Forall solid cs -> hd_error cs = Some ".." -> 
  join_with "/" cs = ".." \/ HasPrefix (join_with "/" cs) "../" = true.
Proof.
  intros _ Hh. destruct cs as [|c cs]; [done|]. injection Hh as ->. destruct cs as [|c' cs]; [by left|right].
  apply HasPrefix_spec. by exists (join_with "/" (c' :: cs)).
Qed.

Definition dots_lead (stack : list string) : Prop :=
  forall pre c, stack = (pre ++ [c])%list -> c <> ".." -> Forall (fun x => x <> "..") stack.

Lemma dots_lead_push stack c : dots_lead stack -> dots_lead (push_component false stack c).
Proof.
  intros Hs pre d E Hd. unfold push_component in *. case_bool_decide as Ec.
  - destruct stack as [|top rest].
    + assert (pre = []) as -> by (destruct pre as [|? []]; [done|discriminate E..]). injection E as <-. done.
    + case_bool_decide as Et.
      * subst top. destruct pre as [|x pre]; [injection E as <- E; discriminate E|].
        injection E as <- E. assert (Hf := Hs pre d E Hd). inversion_clear Hf. done.
      * subst rest. specialize (Hs (top :: pre) d eq_refl Hd). by inversion_clear Hs.
  - destruct stack as [|top rest].
    + repeat constructor; done.
    + destruct pre as [|x pre]; [injection E as E1 E2; discriminate E2|]. injection E as <- E.
      constructor; [done|]. by apply (Hs pre d).
Qed.

Lemma clean_relative_dots p : IsAbs p = false -> hd_error (clean_components p) <> Some ".." -> Forall (fun x => x <> "..") (clean_components p).
Proof.
  intros Hp. unfold clean_components. rewrite Hp.
  assert (G : forall l stack, dots_lead stack -> dots_lead (fold_left (push_component false) l stack)).
  { induction l as [|c l IH]; intros stack Hs; [done|]. by apply IH, dots_lead_push. }
  assert (Hl : dots_lead (fold_left (push_component false) (components p) [])) by (apply G; by intros []).
  generalize dependent (fold_left (push_component false) (components p) []). intros stack Hl Hh.
  apply Forall_rev. destruct stack as [|c pre] using rev_ind; [constructor|]. apply (Hl pre c eq_refl).
  intros ->. rewrite rev_app_distr in Hh. done.
Qed.

(** The components of a safe name all go down. *)
Lemma safeArchivePath_good name : safeArchivePath name = true -> Forall good (Split name slash).
Proof.
  unfold safeArchivePath. intros Hs. destruct (_ || _) eqn:Hb; [done|]. bool_to_prop.
  repeat match goal with H : bool_decide _ = _ |- _ => apply bool_decide_eq_true in H || apply bool_decide_eq_false in H end.
  assert (Hp : IsAbs name = false) by done.
  assert (Hc : clean_components name <> []).
  { intros E. unfold Clean in *. rewrite Hp, E in *. cbn in *. congruence. }
  assert (Hr : Clean name = join_with "/" (clean_components name)).
  { unfold Clean, render. rewrite Hp. by destruct (clean_components name). }
  pose proof (clean_components_solid name) as Hsol.
  assert (Hsplit : Split name slash = clean_components name).
  { transitivity (Split (Clean name) slash); [f_equal; congruence|]. rewrite Hr. apply Split_join_with; [done|].
    eapply Forall_impl; [exact Hsol|]. by intros c (_ & _ & ?). }
  rewrite Hsplit. assert (Hd : Forall (fun x => x <> "..") (clean_components name)).
  { apply clean_relative_dots; [done|]. intros Hh. apply join_dots_prefix in Hh; [|done]. rewrite <- Hr in Hh.
    destruct Hh; congruence. }
  rewrite Forall_forall in *. by split; auto.
Qed.

Lemma safe_below dest name :
  IsAbs dest = true -> safeArchivePath name = true ->
  IsAbs (Join [dest; name]) = true /\ locate (Join [dest; name]) = (rev (Split name slash) ++ locate dest)%list.
Proof. intros Hd Hn. by apply Join_below; [|apply safeArchivePath_good]. Qed.

(** [Rel] on a path below a directory is what is left of it. *)
Lemma Rel_below root leaf rest :
  IsAbs root = true -> IsAbs leaf = true -> locate leaf = (rest ++ locate root)%list -> Rel root leaf = Some (rev rest).
Proof.
  intros Hr Hl E. unfold Rel. rewrite Hr, Hl, bool_decide_eq_true_2 by done. cbn [negb].
  assert (Ec : clean_components leaf = (clean_components root ++ rev rest)%list).
  { unfold locate in E. apply (f_equal (@rev string)) in E. rewrite rev_app_distr, !rev_involutive in E. done. }
  apply drop_common_prefix in Ec. by rewrite Ec.
Qed.
