(* ===== verification/ArtifactTree.v ===== *)
(** Unpacking a release archive: what the directory tree looks like at every moment of
    it, and when it has succeeded. *)
From Stdlib Require Import Ascii String ZArith Lia.
From stdpp Require Import base decidable list strings gmap.
From S2P Require Import Prelude Strings Paths DockerPin Effects FileTree Artifact ArchivePaths.

Open Scope string_scope.

(** * Rules for the operations *)

Section Rules.
Context (I : world -> Prop).

Ltac answer :=
  intros ans x w' E; cbn in E;
  repeat match type of E with
  | (if ?b then _ else _) = _ => destruct b eqn:?; try discriminate E
  | match ?y with _ => _ end = _ => destruct y eqn:?; try discriminate E
  end; try (injection E as <- <-).

Lemma Stat_wp k (Q : result string Node.t -> world -> Prop) w :
  I w -> Q (Err failed) w -> (forall n, fs w !! k = Some n -> Q (Ok n) w) -> wp I (call (Stat k)) Q w.
Proof. intros HI He Hn. apply wp_call; [done|]. answer; cbn; split; auto. Qed.

Lemma Lstat_wp k (Q : result string Node.t -> world -> Prop) w :
  I w -> Q (Err failed) w -> (forall n, fs w !! k = Some n -> Q (Ok n) w) -> wp I (call (Lstat k)) Q w.
Proof. intros HI He Hn. apply wp_call; [done|]. answer; [destruct (fs w !! k) eqn:E'|]; cbn; split; auto. Qed.

Lemma Mkdir_wp k mode (Q : check -> world -> Prop) w :
  I w -> Q (Err failed) w ->
  (vacant (fs w) k = true -> let w' := put k (Node.Directory (masked mode w)) w in I w' /\ Q (Ok tt) w') ->
  wp I (call (Mkdir k mode)) Q w.
Proof.
  intros HI He Hv. apply wp_call; [done|]. intros ans x w' E. cbn in E. destruct (linked _ _); [done|].
  destruct ans; try discriminate E; [destruct (vacant (fs w) k) eqn:Ev|]; injection E as <- <-; auto.
Qed.

Lemma Create_wp k mode (Q : check -> world -> Prop) w :
  I w -> Q (Err failed) w ->
  (vacant (fs w) k = true -> let w' := put k (Node.File (masked mode w) "") w in I w' /\ Q (Ok tt) w') ->
  wp I (call (Create k mode)) Q w.
Proof.
  intros HI He Hv. apply wp_call; [done|]. intros ans x w' E. cbn in E. destruct (linked _ _); [done|].
  destruct ans; try discriminate E; [destruct (vacant (fs w) k) eqn:Ev|]; injection E as <- <-; auto.
Qed.

Lemma Chmod_wp k mode (Q : check -> world -> Prop) w :
  I w -> Q (Err failed) w ->
  (forall n n', fs w !! k = Some n -> Node.set_mode mode n = Some n' -> I (put k n' w) /\ Q (Ok tt) (put k n' w)) ->
  wp I (call (Chmod k mode)) Q w.
Proof. intros HI He Hv. apply wp_call; [done|]. answer; eauto. Qed.

Lemma Write_wp k data mode old (Q : check -> world -> Prop) w :
  I w -> fs w !! k = Some (Node.File mode old) -> Q (Err failed) w ->
  (forall n, let w' := put k (Node.File mode (old +:+ take_bytes n data)) w in I w' /\ Q (Err failed) w') ->
  (let w' := put k (Node.File mode (old +:+ data)) w in I w' /\ Q (Ok tt) w') ->
  wp I (call (Write k data)) Q w.
Proof.
  intros HI Hk He Hn Hd. apply wp_call; [done|]. intros ans x w' E. cbn in E. unfold append_to in E. rewrite Hk in E.
  destruct ans; try discriminate E; injection E as <- <-; eauto.
Qed.

Lemma Close_wp k (Q : check -> world -> Prop) w :
  I w -> Q (Ok tt) w -> Q (Err failed) w -> wp I (call (Close k)) Q w.
Proof. intros HI Ho He. apply wp_call; [done|]. answer; auto. Qed.

Lemma Sync_wp k (Q : check -> world -> Prop) w :
  I w -> Q (Ok tt) w -> Q (Err failed) w -> wp I (call (Sync k)) Q w.
Proof. intros HI Ho He. apply wp_call; [done|]. answer; auto. Qed.

Lemma ReadFile_wp k (Q : result string string -> world -> Prop) w :
  I w -> Q (Err failed) w -> (forall mode data, fs w !! k = Some (Node.File mode data) -> Q (Ok data) w) ->
  wp I (call (ReadFile k)) Q w.
Proof. intros HI He Hd. apply wp_call; [done|]. answer; eauto. Qed.

Lemma Walk_wp k (Q : result string (list (path * Node.t)) -> world -> Prop) w :
  I w -> Q (Err failed) w -> Q (Ok (subtree (fs w) k)) w -> wp I (call (Walk k)) Q w.
Proof. intros HI He Hd. apply wp_call; [done|]. answer; [case_bool_decide|]; eauto. Qed.
End Rules.

Lemma lookup_put k n w p : fs (put k n w) !! p = if decide (k = p) then Some n else fs w !! p.
Proof. cbn. apply lookup_insert. Qed.

Lemma vacant_None t k : vacant t k = true -> t !! k = None.
Proof. destruct k; [done|]. cbn. rewrite andb_true_iff. intros [_ Hk]. by destruct (t !! _). Qed.

Lemma dir_at_Some t k : dir_at t k = true <-> exists m, t !! k = Some (Node.Directory m).
Proof.
  unfold dir_at. destruct (t !! k) as [[]|]; cbn; split; try done; eauto; by intros [? ?].
Qed.

Lemma len_take_bytes n s : (len (take_bytes n s) <= Z.of_nat n)%Z /\ (len (take_bytes n s) <= len s)%Z.
Proof.
  unfold len. revert s. induction n as [|n IH]; intros [|c s]; cbn [take_bytes String.length]; try lia.
  specialize (IH s). lia.
Qed.

Lemma take_bytes_full n s : (len s <= Z.of_nat n)%Z -> take_bytes n s = s.
Proof.
  unfold len. revert s. induction n as [|n IH]; intros [|c s]; cbn [take_bytes String.length]; intros E; try lia; try done.
  f_equal. apply IH. lia.
Qed.

Lemma limited_take n s : limited n s = take_bytes (Z.to_nat n) s.
Proof.
  unfold limited. destruct (len s <=? n)%Z eqn:E; [|done]. bool_to_prop. rewrite take_bytes_full; [done|]. unfold len in *. lia.
Qed.

Lemma take_bytes_all n s : (len (take_bytes (S n) s) = Z.of_nat n)%Z -> take_bytes (S n) s = s.
Proof.
  unfold len. revert s. induction n as [|n IH]; intros [|c s]; cbn [take_bytes String.length]; intros E; try lia; try done.
  f_equal. apply IH. cbn [take_bytes]. lia.
Qed.

Lemma suffix_cons_cases {A} (l k : list A) x : l `suffix_of` x :: k -> l = x :: k \/ l `suffix_of` k.
Proof. intros [[|y r] E]; [by left|right]. injection E as _ ->. by exists r. Qed.

(** * Growing below a fresh directory *)

Section Growth.
Context (D : path) (start : tree).

(** The tree differs from [start] only at and below [D], where it has directories and
    plain files, at most [bytes] bytes in at most [count] files; the way to [D] is there. *)
Record grown (bytes count : Z) (v : world) : Prop := {
  gr_outside : forall k, ~ D `suffix_of` k -> fs v !! k = start !! k;
  gr_plain : forall k n, D `suffix_of` k -> fs v !! k = Some n -> Node.plain n;
  gr_spine : forall p, p `suffix_of` D -> is_Some (fs v !! p);
  gr_bytes : (stored (fs v) <= stored start + bytes)%Z;
  gr_files : (files (fs v) <= files start + count)%Z;
}.

Lemma grown_mono b c b' c' v : grown b c v -> (b <= b')%Z -> (c <= c')%Z -> grown b' c' v.
Proof. intros [] ? ?. split; auto; lia. Qed.

Lemma grown_put b c b' c' k n v :
  grown b c v -> D `suffix_of` k -> Node.plain n ->
  (b + Node.bytes_of n - cost Node.bytes_of (fs v !! k) <= b')%Z ->
  (c + Node.files_of n - cost Node.files_of (fs v !! k) <= c')%Z ->
  grown b' c' (put k n v).
Proof.
  intros [Ho Hp Hs Hb Hf] Hk Hn Eb Ec. split.
  - intros p Hnp. rewrite lookup_put, decide_False by (intros ->; done). auto.
  - intros p m HD. rewrite lookup_put. case_decide; [by intros [= <-]|]. by apply Hp.
  - intros p HD. rewrite lookup_put. case_decide; eauto.
  - cbn. rewrite total_insert. lia.
  - cbn. rewrite total_insert. lia.
Qed.

Lemma grown_mkdir b c k mode v :
  grown b c v -> D `suffix_of` k -> vacant (fs v) k = true -> grown b c (put k (Node.Directory mode) v).
Proof. intros Hg Hk Hv. eapply grown_put; [done..| |]; rewrite (vacant_None _ _ Hv); cbn; lia. Qed.

Lemma grown_chmod b c k mode n n' v :
  grown b c v -> D `suffix_of` k -> fs v !! k = Some n -> Node.set_mode mode n = Some n' -> grown b c (put k n' v).
Proof.
  intros Hg Hk Hn E. eapply grown_put; [done..| | |]; rewrite ?Hn; destruct n; try discriminate E; injection E as <-; cbn; try lia; done.
Qed.

(** ** Directories *)

(** Only directories on the way to [k] have been added. *)
Definition paved (k : path) (v v' : world) : Prop :=
  forall p, fs v' !! p = fs v !! p \/ (fs v !! p = None /\ p `suffix_of` k /\ D `suffix_of` p /\ dir_at (fs v') p = true).

Lemma paved_refl k v : paved k v v.
Proof. by left. Qed.

Lemma MkdirAll_wp I b c k v :
  (forall u, grown b c u -> I u) -> grown b c v -> D `suffix_of` k \/ k `suffix_of` D ->
  wp I (MkdirAll k o755) (fun r v' => r = Ok tt -> grown b c v' /\ paved k v v') v.
Proof.
  intros HI Hg. induction k as [|x k IH]; intros Hk; cbn [MkdirAll]; wp_step; apply Stat_wp; auto;
    try (intros n _; wp_step; [auto|]; intros _; split; [done|apply paved_refl]); wp_step.
  - wp_step; [auto|]. wp_step. apply Mkdir_wp; auto; [|done]. wp_step. apply Lstat_wp; auto;
      [by wp_step; auto|]. intros n _. wp_step; [auto|]. intros _. split; [done|apply paved_refl].
  - eapply wp_mono; [|apply IH].
    2:{ destruct Hk as [Hk|Hk]; [|right; by eapply suffix_cons_l].
        apply suffix_cons_cases in Hk as [->|?]; [right; by apply suffix_cons_r|by left]. }
    cbn beta. intros [[]|e] u Iu; [|done]. intros Hu. destruct (Hu eq_refl) as [Hgu Hpu].
    assert (Hkeep : paved (x :: k) v u).
    { intros p. destruct (Hpu p) as [?|(? & ? & ? & ?)]; [by left|right]. split_and!; try done. by apply suffix_cons_r. }
    wp_step. apply Mkdir_wp; auto.
    + wp_step. apply Lstat_wp; auto; [by wp_step; auto|]. intros n _. wp_step; [auto|]. intros _. split; done.
    + intros Hv. assert (HD : D `suffix_of` x :: k).
      { destruct Hk as [Hk|Hk]; [done|]. destruct (gr_spine _ _ _ Hgu _ Hk) as [m Hm].
        by rewrite (vacant_None _ _ Hv) in Hm. }
      assert (Hgn : grown b c (put (x :: k) (Node.Directory (masked o755 u)) u)) by by apply grown_mkdir.
      split; [auto|]. wp_step; [auto|]. intros _. split; [done|]. intros p. destruct (decide (x :: k = p)) as [<-|Hne].
      * right. rewrite <- (vacant_None _ _ Hv). split_and!; try done.
        -- destruct (Hkeep (x :: k)) as [E|(E & _ & _ & Hdir)]; [done|]. apply dir_at_Some in Hdir as [m Hm].
           by rewrite (vacant_None _ _ Hv) in Hm.
        -- apply dir_at_Some. rewrite lookup_put, decide_True by done. eauto.
      * unfold dir_at. rewrite lookup_put, decide_False by done. apply Hkeep.
Qed.

(** [p] is on the way down from [base], itself excluded, to [k]. *)
Definition between (base p k : path) : Prop := base `suffix_of` p /\ p <> base /\ p `suffix_of` k.

#[global] Instance between_dec base p k : Decision (between base p k).
Proof. unfold between. apply _. Defined.

Lemma between_step base c p k :
  c :: base `suffix_of` k -> between base p k <-> p = c :: base \/ between (c :: base) p k.
Proof.
  intros Hk. split.
  - intros (Hb & Hne & Hp). destruct (decide (p = c :: base)) as [->|Hn]; [by left|right]. split_and!; try done.
    destruct Hb as [r ->]. destruct Hp as [r' ->], Hk as [q Ek]. destruct r as [|y r] using rev_ind; [done|].
    rewrite <- app_assoc in Ek |- *. cbn in *. exists r. f_equal.
    assert (E : ((r' ++ r) ++ y :: base = q ++ c :: base)%list) by by rewrite <- app_assoc.
    apply app_inj_2 in E as [_ E]; [congruence|done].
  - intros [->|(Hb & Hne & Hp)].
    + split_and!; [by exists [c]| |done]. intros E. apply (f_equal List.length) in E. cbn in E. lia.
    + split_and!; [etransitivity; [|exact Hb]; by exists [c]| |done]. intros ->.
      apply suffix_length in Hb. cbn in Hb. lia.
Qed.

(** The directories on the way from [base] to [k] were there and have the release mode. *)
Definition opened (base k : path) (v v' : world) : Prop :=
  forall p, (between base p k -> dir_at (fs v) p = true /\ fs v' !! p = Some (Node.Directory o755)) /\
            (~ between base p k -> fs v' !! p = fs v !! p).

Lemma opened_refl base v : opened base base v v.
Proof.
  intros p. split; [|done]. intros (Hb & Hne & Hp). exfalso. apply Hne. by apply suffix_length_eq; [|apply suffix_length].
Qed.

Lemma opened_step base c k v v' mode :
  c :: base `suffix_of` k -> fs v !! (c :: base) = Some (Node.Directory mode) ->
  opened (c :: base) k (put (c :: base) (Node.Directory o755) v) v' -> opened base k v v'.
Proof.
  intros Hk Hc Ho p. destruct (Ho p) as [Hin Hout]. rewrite (between_step base c p k Hk).
  unfold dir_at in *. rewrite lookup_put in Hin, Hout. split.
  - intros [->|Hb].
    + rewrite Hc. split; [done|]. rewrite decide_True in Hout by done. apply Hout. by intros (_ & ? & _).
    + destruct (Hin Hb) as [Hd ?]. split; [|done]. rewrite decide_False in Hd; [done|].
      destruct Hb as (_ & Hne & _). congruence.
  - intros Hn. rewrite decide_False in Hout by (intros <-; apply Hn; by left). apply Hout. intros Hb. apply Hn. by right.
Qed.

Lemma chmod_each_wp I b c cs current v :
  (forall u, grown b c u -> I u) -> grown b c v -> IsAbs current = true -> D `suffix_of` locate current -> Forall good cs ->
  wp I (chmod_each current cs)
    (fun r v' => r = Ok tt -> grown b c v' /\ opened (locate current) (rev cs ++ locate current) v v') v.
Proof.
  intros HI. revert current v. induction cs as [|x cs IH]; intros current v Hg Ha HD Hcs; cbn [chmod_each].
  { wp_step; [auto|]. intros _. split; [done|apply opened_refl]. }
  inversion_clear Hcs as [|? ? Hx Hcs']. destruct (Join_component current x Ha Hx) as [Ha' Hl].
  destruct (_ || _); [by wp_step; auto|]. rewrite Hl. wp_step. apply Lstat_wp; auto; [by wp_step; auto|]. intros n Hn.
  destruct (_ || _) eqn:Hdir; [by wp_step; auto|]. destruct n as [m| | |]; try discriminate Hdir.
  wp_step. assert (HD' : D `suffix_of` x :: locate current) by by apply suffix_cons_r.
  apply Chmod_wp; auto; [by wp_step; auto|]. intros n n' Hn' E. rewrite Hn in Hn'. injection Hn' as <-. injection E as <-.
  assert (Hg' : grown b c (put (x :: locate current) (Node.Directory o755) v)) by by eapply grown_chmod.
  split; [auto|]. eapply wp_mono; [|apply IH; [done..| |done]; by rewrite Hl].
  intros r u _ Hu Er. destruct (Hu Er) as [Hgu Hou]. split; [done|]. rewrite Hl in Hou.
  cbn [rev]. rewrite <- app_assoc. eapply opened_step; [by exists (rev cs)|done|done].
Qed.
End Growth.

Section Extraction.
Context (dest : string) (Habs : IsAbs dest = true) (start : tree).
Let D := locate dest.

(** The directories from [D] down to [k] are there and have the release mode; each was
    there before or is new; everything else is as it was. *)
Definition laid (k : path) (v v' : world) : Prop :=
  forall p, (between D p k -> (fs v !! p = None \/ dir_at (fs v) p = true) /\ fs v' !! p = Some (Node.Directory o755)) /\
            (~ between D p k -> fs v' !! p = fs v !! p).

Lemma laid_intro b c k v u v' :
  grown D start b c v -> D `suffix_of` k -> paved D k v u -> opened D k u v' -> laid k v v'.
Proof.
  intros Hg HD Hp Ho p. destruct (Ho p) as [Hin Hout]. split.
  - intros Hb. destruct (Hin Hb) as [Hd ?]. split; [|done]. destruct (Hp p) as [E|(E & _)]; [right|by left].
    unfold dir_at in *. by rewrite <- E.
  - intros Hn. rewrite Hout by done. destruct (Hp p) as [E|(E & Hk & Hsuf & _)]; [done|]. exfalso.
    destruct (decide (p = D)) as [->|Hne]; [|by apply Hn].
    destruct (gr_spine _ _ _ _ _ Hg D) as [n Hn']; [done|]. congruence.
Qed.

Lemma chmod_wp I b c out q v :
  (forall u, grown D start b c u -> I u) -> grown D start b c v -> IsAbs out = true -> locate out = (q ++ D)%list -> Forall good q ->
  wp I (chmodExtractedDirectories dest out)
    (fun r v' => r = Ok tt -> grown D start b c v' /\ opened D (q ++ D) v v') v.
Proof.
  intros HI Hg Ha Hq Hgood. unfold chmodExtractedDirectories.
  destruct (pathWithin _ _); cbn [negb]; [|by wp_step; auto].
  rewrite (Rel_below _ _ q); [|by apply IsAbs_Clean..|by rewrite !locate_Clean].
  assert (Hr : forall cs, cs = rev q -> wp I (chmod_each (Clean dest) cs)
    (fun r v' => r = Ok tt -> grown D start b c v' /\ opened D (q ++ D) v v') v).
  { intros cs ->. eapply wp_mono; [|apply (chmod_each_wp D start I b c); [done..|by apply IsAbs_Clean| |by apply Forall_rev]].
    - intros r u _ Hu Er. destruct (Hu Er) as [? Hop]. rewrite rev_involutive, locate_Clean in Hop by done. done.
    - by rewrite locate_Clean. }
  destruct (rev q) as [|x cs] eqn:Er; [|by apply Hr].
  apply (f_equal (@rev string)) in Er. rewrite rev_involutive in Er. subst q.
  wp_step; [auto|]. intros _. split; [done|apply opened_refl].
Qed.

Lemma extract_directory_wp I b c out q v :
  (forall u, grown D start b c u -> I u) -> grown D start b c v -> IsAbs out = true -> locate out = (q ++ D)%list -> Forall good q ->
  wp I (extract_directory dest out) (fun r v' => r = Ok tt -> grown D start b c v' /\ laid (q ++ D) v v') v.
Proof.
  intros HI Hg Ha Hq Hgood. unfold extract_directory. wp_step. rewrite Hq.
  assert (HD : D `suffix_of` (q ++ D)%list) by by exists q.
  eapply wp_mono; [|apply (MkdirAll_wp D start I b c); [done..|by left]].
  intros [[]|e] u _ Hu; [|done]. destruct (Hu eq_refl) as [Hgu Hpu].
  eapply wp_mono; [|by apply (chmod_wp I b c out q)].
  intros r v' _ Hv' Er. destruct (Hv' Er) as [? ?]. split; [done|]. by eapply laid_intro.
Qed.

(** ** Files *)

(** What is left of a new file at [k]. *)
Definition filled (k : path) (hdr : Header) (body : string) (complete : bool) (v v' : world) : Prop :=
  fs v !! k = None /\ complete = true /\ len body = Size hdr /\
  fs v' = <[k := Node.File (release_mode hdr) body]> (fs v).

Lemma put_twice k m n v : put k m (put k n v) = put k m v.
Proof. unfold put. cbn. by rewrite insert_insert_eq. Qed.

Lemma limited_all size body : (0 <= size)%Z -> len (limited (size + 1) body) = size -> limited (size + 1) body = body.
Proof.
  rewrite limited_take. intros H0. replace (Z.to_nat (size + 1)) with (S (Z.to_nat size)) by lia. intros E.
  apply take_bytes_all. lia.
Qed.

Section File.
Context (I : world -> Prop) (b c : Z) (k : path) (hdr : Header) (body : string) (complete : bool) (v : world).
Context (HI : forall u, grown D start (b + Size hdr + 1) (c + 1) u -> I u).
Context (Hg : grown D start b c v) (HD : D `suffix_of` k) (Hsz : (0 <= Size hdr)%Z) (Hv : fs v !! k = None).

Lemma file_grown m s : (len s <= Size hdr + 1)%Z -> grown D start (b + len s) (c + 1) (put k (Node.File m s) v).
Proof. intros Hs. eapply grown_put; [exact Hg|done|done| |]; rewrite Hv; cbn; lia. Qed.

Lemma file_I m s : (len s <= Size hdr + 1)%Z -> I (put k (Node.File m s) v).
Proof. intros Hs. apply HI. eapply grown_mono; [by apply file_grown|lia..]. Qed.

Lemma finish_file_wp copied m s :
  (len s <= Size hdr + 1)%Z -> (copied = Ok tt -> s = limited (Size hdr + 1) body) ->
  wp I (finish_file k hdr body complete copied)
    (fun r v' => r = Ok tt -> grown D start (b + Size hdr) (c + 1) v' /\ filled k hdr body complete v v')
    (put k (Node.File m s) v).
Proof using Hg Hsz Hv HI HD.
  intros Hs Hc. unfold finish_file. wp_step. apply Chmod_wp; [by apply file_I| |].
  { wp_step. apply Close_wp; [by apply file_I|..]; wp_step; try (by apply file_I);
      cbn [is_err is_ok negb]; by rewrite ?orb_true_r. }
  intros n n' Hn E. rewrite lookup_put, decide_True in Hn by done. injection Hn as <-. injection E as <-.
  rewrite put_twice. split; [by apply file_I|]. wp_step.
  apply Close_wp; [by apply file_I|..]; wp_step; try (by apply file_I); [|cbn [is_err is_ok negb]; by rewrite ?orb_true_r].
  destruct (_ || _) eqn:Hb; [done|]. intros _. bool_to_prop.
  assert (copied = Ok tt) as -> by by destruct copied as [[]|]. specialize (Hc eq_refl).
  assert (Hl : len (limited (Size hdr + 1) body) = Size hdr) by by apply Z.eqb_eq.
  pose proof (limited_all _ _ Hsz Hl) as Hall. rewrite Hall in Hc, Hl. subst s. split.
  - rewrite <- Hl at 1. apply file_grown. lia.
  - split_and!; try done. destruct complete; [done|]. exfalso. cbn in *. bool_to_prop. lia.
Qed.
End File.

Lemma fill_file_wp I b c k hdr body complete v :
  (forall u, grown D start (b + Size hdr + 1) (c + 1) u -> I u) -> grown D start b c v -> D `suffix_of` k -> (0 <= Size hdr)%Z ->
  wp I (fill_file k hdr body complete)
    (fun r v' => r = Ok tt -> grown D start (b + Size hdr) (c + 1) v' /\ filled k hdr body complete v v') v.
Proof.
  intros HI Hg HD Hsz. unfold fill_file. set (data := limited _ _).
  assert (Hlen : (0 <= len data <= Size hdr + 1)%Z).
  { unfold data. rewrite limited_take. pose proof (len_take_bytes (Z.to_nat (Size hdr + 1)) body). unfold len in *. lia. }
  wp_step. apply Create_wp; [|done|].
  { apply HI. eapply grown_mono; [exact Hg|lia..]. }
  intros Hv%vacant_None. cbn zeta. split; [eapply file_I; try done; change (len "") with 0%Z; lia|]. wp_step.
  eapply Write_wp with (old := ""); [eapply file_I; try done; change (len "") with 0%Z; lia| | | |].
  - by rewrite lookup_put, decide_True.
  - apply finish_file_wp; try done. change (len "") with 0%Z. lia.
  - intros n. cbn zeta. rewrite put_twice. cbn [String.append]. pose proof (len_take_bytes n data).
    split; [eapply file_I|apply finish_file_wp]; try done; lia.
  - cbn zeta. rewrite put_twice. cbn [String.append]. split; [eapply file_I|apply finish_file_wp]; try done; lia.
Qed.
(** ** The tree an archive describes *)

Definition entry_name (hdr : Header) : string := TrimSuffix (Name hdr) "/".
Definition entry_key (hdr : Header) : path := rev (Split (entry_name hdr) slash).

(** What an entry puts at the path [r] below the destination: its file, or a directory
    on the way. *)
Definition shows (r : path) (e : Header * string) : option Node.t :=
  if negb (Ascii.eqb (Typeflag e.1) TypeDir) && bool_decide (r = entry_key e.1)
  then Some (Node.File (release_mode e.1) e.2)
  else if bool_decide (r `suffix_of` entry_key e.1) then Some (Node.Directory o755) else None.

(** Below the destination there is what the entries show, and nothing else. *)
Definition exact (items : list (Header * string)) (v : world) : Prop :=
  forall r n, r <> [] -> fs v !! (r ++ D)%list = Some n <-> exists e, e ∈ items /\ shows r e = Some n.

Lemma shows_directory r e m : shows r e = Some (Node.Directory m) -> m = o755.
Proof. unfold shows. destruct (_ && _); [done|]. case_bool_decide; [|done]. congruence. Qed.

Lemma exact_step items e v v' :
  exact items v ->
  (forall r, r <> [] ->
     match shows r e with
     | Some n => fs v' !! (r ++ D)%list = Some n /\
         (fs v !! (r ++ D)%list = None \/ dir_at (fs v) (r ++ D) = true /\ n = Node.Directory o755)
     | None => fs v' !! (r ++ D)%list = fs v !! (r ++ D)%list
     end) ->
  exact (items ++ [e]) v'.
Proof.
  intros He Hs r n Hr. specialize (Hs r Hr). destruct (He r n Hr) as [Hto Hfrom]. split.
  - intros Hn. destruct (shows r e) as [n0|] eqn:Ee.
    + destruct Hs as [Hs _]. exists e. split; [apply elem_of_app; right; by apply list_elem_of_singleton|congruence].
    + rewrite Hs in Hn. destruct (Hto Hn) as (e' & Hin & ?). exists e'. split; [apply elem_of_app; by left|done].
  - intros (e' & Hin & Hn). apply elem_of_app in Hin as [Hin| ->%list_elem_of_singleton].
    + assert (Hv : fs v !! (r ++ D)%list = Some n) by eauto. destruct (shows r e) as [n0|]; [|congruence].
      destruct Hs as [-> [Hs|[Hd ->]]]; [congruence|]. apply dir_at_Some in Hd as [m Hm]. rewrite Hv in Hm.
      injection Hm as ->. by rewrite (shows_directory _ _ _ Hn).
    + rewrite Hn in Hs. apply Hs.
Qed.

Lemma suffix_app_iff {A} (r q base : list A) : (r ++ base)%list `suffix_of` (q ++ base)%list <-> r `suffix_of` q.
Proof.
  split; intros [x E]; exists x; [|by rewrite E, app_assoc]. rewrite app_assoc in E. by apply app_inv_tail in E.
Qed.

Lemma between_below r q : between D (r ++ D) (q ++ D) <-> r <> [] /\ r `suffix_of` q.
Proof.
  unfold between. rewrite suffix_app_iff. split; [intros (_ & Hne & ?)|intros [Hne ?]]; split_and!; try done.
  - by intros ->.
  - by exists r.
  - intros E. apply Hne. destruct r as [|x r]; [done|]. apply (f_equal List.length) in E. rewrite length_app in E. cbn in E. lia.
Qed.

Lemma exact_directory items e v v' :
  exact items v -> Typeflag e.1 = TypeDir -> laid (entry_key e.1 ++ D) v v' -> exact (items ++ [e]) v'.
Proof.
  intros He Ht Hl. apply (exact_step _ _ v); [done|]. intros r Hr. destruct (Hl (r ++ D)%list) as [Hin Hout].
  rewrite between_below in Hin, Hout. unfold shows. rewrite Ht. cbn [negb andb Ascii.eqb TypeDir eqb].
  case_bool_decide as Hs.
  - destruct (Hin (conj Hr Hs)) as [Hb ?]. split; [done|]. destruct Hb; [by left|by right].
  - apply Hout. by intros [_ ?].
Qed.

Lemma exact_file items e v u v' complete :
  exact items v -> Ascii.eqb (Typeflag e.1) TypeDir = false -> entry_key e.1 <> [] ->
  laid (tail (entry_key e.1) ++ D) v u -> filled (entry_key e.1 ++ D) e.1 e.2 complete u v' -> exact (items ++ [e]) v'.
Proof.
  intros He Ht Hne Hl (Hnone & _ & _ & Hfs). apply (exact_step _ _ v); [done|]. intros r Hr.
  destruct (Hl (r ++ D)%list) as [Hin Hout]. rewrite between_below in Hin, Hout. unfold shows. rewrite Ht, Hfs. cbn [negb andb].
  destruct (entry_key e.1) as [|x q] eqn:Ek; [done|]. cbn [tail] in *.
  assert (Hleaf : ~ x :: q `suffix_of` q) by (intros Hs%suffix_length; cbn in Hs; lia).
  case_bool_decide as Hrk.
  - subst r. rewrite lookup_insert_eq. split; [done|]. left. rewrite <- Hnone. symmetry. apply Hout. by intros [_ ?].
  - rewrite lookup_insert_ne by (intros E; apply Hrk; by apply app_inv_tail in E).
    case_bool_decide as Hs.
    + apply suffix_cons_cases in Hs as [->|Hs]; [done|]. destruct (Hin (conj Hr Hs)) as [Hb ?].
      split; [done|]. destruct Hb; [by left|by right].
    + apply Hout. intros [_ ?]. apply Hs. by apply suffix_cons_r.
Qed.

(** ** The loop *)

(** The entries of an archive that can be read to its end. *)
Fixpoint items_of (a : archive) : option (list (Header * string)) :=
  match a with
  | EOF => Some []
  | ReadError => None
  | Entry hdr body complete rest =>
      if complete || Ascii.eqb (Typeflag hdr) TypeDir then match items_of rest with Some l => Some ((hdr, body) :: l) | None => None end else None
  end.

Definition under_top (items : list (Header * string)) (top : string) : Prop :=
  (items = [] /\ top = "") \/ (good top /\ forall e, e ∈ items -> [top] `suffix_of` entry_key e.1).

Record progress (items : list (Header * string)) (count bytes : Z) (top : string) (v : world) : Prop := {
  pg_grown : grown D start bytes count v;
  pg_dest : fs v !! D = Some (Node.Directory o700);
  pg_exact : exact items v;
  pg_top : under_top items top;
}.

Lemma laid_dest k v v' : laid k v v' -> fs v' !! D = fs v !! D.
Proof. intros Hl. apply Hl. by intros (_ & ? & _). Qed.

Lemma key_not_dest (q : path) : q <> [] -> (q ++ D)%list <> D.
Proof.
  intros Hq E. destruct q as [|x q]; [done|]. apply (f_equal List.length) in E. rewrite length_app in E. cbn in E. lia.
Qed.

(** One entry. *)
Lemma extract_entry_wp I items count bytes top top' maxBytes hdr body complete v :
  safeArchivePath (entry_name hdr) = true ->
  (forall u b, (b <= maxBytes + 1)%Z -> grown D start b (count + 1) u -> I u) ->
  progress items count bytes top v -> (bytes <= maxBytes)%Z -> under_top (items ++ [(hdr, body)]) top' ->
  wp I (extract_entry dest (Join [dest; entry_name hdr]) maxBytes bytes hdr body complete)
    (fun r v' => match r with
       | Ok bytes' => complete || Ascii.eqb (Typeflag hdr) TypeDir = true /\ (bytes' <= maxBytes)%Z /\
           progress (items ++ [(hdr, body)]) (count + 1) bytes' top' v'
       | Err _ => True
       end) v.
Proof using Habs.
  intros Hsafe HI [Hg Hdest He _] Hbytes Htop. destruct (safe_below dest _ Habs Hsafe) as [Hout Hkey]. fold D in Hkey.
  pose proof (Forall_rev (safeArchivePath_good _ Hsafe)) as Hgood. fold (entry_key hdr) in Hkey, Hgood.
  assert (Hne : entry_key hdr <> []).
  { intros E. apply (f_equal (@rev string)) in E. unfold entry_key in E. rewrite rev_involutive in E. by apply Split_nonempty in E. }
  assert (HIb : forall u, grown D start bytes count u -> I u).
  { intros u Hu. apply (HI u bytes); [lia|]. eapply grown_mono; [exact Hu|lia..]. }
  unfold extract_entry. destruct (Ascii.eqb (Typeflag hdr) TypeDir) eqn:Et.
  - wp_step. eapply wp_mono; [|by apply (extract_directory_wp I bytes count _ (entry_key hdr))].
    intros [[]|e] u _ Hu; [|done]. destruct (Hu eq_refl) as [Hgu Hl]. wp_step; [auto|]. rewrite orb_true_r. apply Ascii.eqb_eq in Et.
    split_and!; [done|done|]. split; [eapply grown_mono; [done|lia..]| |by eapply exact_directory|done].
    by rewrite (laid_dest _ _ _ Hl).
  - destruct (Ascii.eqb (Typeflag hdr) TypeReg || Ascii.eqb (Typeflag hdr) TypeRegA); [|by wp_step; auto].
    destruct ((Size hdr <? 0)%Z || (maxBytes - Size hdr <? bytes)%Z) eqn:Hsize; [by wp_step; auto|]. bool_to_prop.
    destruct (Dir_parent _ Hout) as [Hdir Hpar]. rewrite Hkey in Hpar.
    assert (Hq : tail (entry_key hdr ++ D) = (tail (entry_key hdr) ++ D)%list) by by destruct (entry_key hdr).
    rewrite Hq in Hpar. wp_step.
    eapply wp_mono; [|apply (extract_directory_wp I bytes count _ (tail (entry_key hdr))); try done; by destruct Hgood].
    intros [[]|e] u _ Hu; [|done]. destruct (Hu eq_refl) as [Hgu Hl]. wp_step. rewrite Hkey.
    eapply wp_mono; [|apply (fill_file_wp I bytes count); [|done|by exists (entry_key hdr)|lia]].
    2:{ intros u' Hu'. eapply HI; [|done]. lia. }
    intros [[]|e] v' Iv' Hv'; [|done]. destruct (Hv' eq_refl) as [Hgv Hf]. wp_step; [done|].
    split_and!; [destruct Hf as (_ & -> & _); done|lia|]. split; [done| |by eapply exact_file|done].
    destruct Hf as (_ & _ & _ & ->). rewrite lookup_insert_ne by by apply key_not_dest. by rewrite (laid_dest _ _ _ Hl).
Qed.

Lemma under_top_step items e top :
  safeArchivePath (entry_name e.1) = true -> under_top items top ->
  (top !=? "") && (top !=? top_level (entry_name e.1)) = false -> under_top (items ++ [e]) (top_level (entry_name e.1)).
Proof.
  intros Hsafe Ht Hb. right. pose proof (safeArchivePath_good _ Hsafe) as Hgood.
  pose proof (Split_nonempty (entry_name e.1) slash) as Hne. unfold entry_key, top_level in *. fold slash in *.
  destruct (Split (entry_name e.1) slash) as [|part rest] eqn:Es; [done|]. inversion_clear Hgood. split; [done|].
  intros e' Hin. apply elem_of_app in Hin as [Hin| ->%list_elem_of_singleton].
  - destruct Ht as [[-> _]|[Hg Hall]]; [by apply not_elem_of_nil in Hin|]. specialize (Hall e' Hin).
    rewrite andb_false_iff, !negb_false_iff, !bool_decide_eq_true in Hb. destruct Hb as [->|<-]; [|done].
    by destruct Hg as [(Hg & _) _].
  - rewrite Es. by exists (rev rest).
Qed.

Lemma extract_entries_wp maxBytes maxEntries a items entries seen top bytes v :
  progress items entries bytes top v -> (bytes <= maxBytes)%Z -> (entries <= maxEntries)%Z ->
  wp (grown D start (maxBytes + 1) maxEntries) (extract_entries dest maxBytes maxEntries a entries seen top bytes)
    (fun r v' => match r with
       | Ok top' => exists l count bytes', items_of a = Some l /\ progress (items ++ l) count bytes' top' v'
       | Err _ => True
       end) v.
Proof using Habs.
  revert items entries seen top bytes v.
  induction a as [| |hdr body complete rest IH]; intros items entries seen top bytes v Hp Hb He; cbn [extract_entries];
    assert (HI : grown D start (maxBytes + 1) maxEntries v) by (eapply grown_mono; [apply Hp|lia..]).
  - wp_step; [done|]. exists [], entries, bytes. by rewrite app_nil_r.
  - by wp_step.
  - destruct (maxEntries <? entries + 1)%Z eqn:Hmax; [by wp_step|]. fold (entry_name hdr).
    destruct (safeArchivePath (entry_name hdr)) eqn:Hsafe; cbn [negb]; [|by wp_step].
    case_bool_decide; [by wp_step|]. destruct ((top !=? "") && _) eqn:Htop; [by wp_step|].
    destruct (pathWithin _ _); cbn [negb]; [|by wp_step]. destruct (_ || _); [by wp_step|]. bool_to_prop.
    wp_step. eapply wp_mono; [|eapply (extract_entry_wp _ items entries bytes top _ maxBytes); [done| |done..|]].
    3:{ apply (under_top_step _ (hdr, body) top); [done|apply Hp|done]. }
    2:{ intros u b Hle Hu. eapply grown_mono; [exact Hu|lia..]. }
    intros [bytes'|e] u Iu Hu; [|done]. destruct Hu as (Hc & Hb' & Hp').
    eapply wp_mono; [|apply (IH (items ++ [(hdr, body)])%list); [exact Hp'|lia..]].
    intros [top'|e] v' _ Hv'; [|done]. destruct Hv' as (l & count & bytes'' & Hl & Hpr).
    exists ((hdr, body) :: l), count, bytes''. cbn [items_of]. rewrite Hc, Hl. split; [done|]. by rewrite <- app_assoc in Hpr.
Qed.
End Extraction.

(** * The whole extraction *)

(** Nothing that was there is touched; what is new is a directory or a plain file at or
    below the destination; the new files are within the limits.  The copy of the last
    entry may read one byte past its size before it is refused. *)
Record contained (D : path) (maxBytes maxEntries : Z) (w v : world) : Prop := {
  ct_old : forall k n, fs w !! k = Some n -> fs v !! k = Some n;
  ct_new : forall k n, fs v !! k = Some n -> fs w !! k = Some n \/ (D `suffix_of` k /\ Node.plain n);
  ct_bytes : (stored (fs v) <= stored (fs w) + maxBytes + 1)%Z;
  ct_files : (files (fs v) <= files (fs w) + maxEntries)%Z;
}.

(** The tree below [dest] after a successful extraction of [items]. *)
Record unpacked (dest root : string) (items : list (Header * string)) (v : world) : Prop := {
  up_root : exists top, good top /\ root = Join [dest; top] /\ forall e, e ∈ items -> [top] `suffix_of` entry_key e.1;
  up_dir : dir_at (fs v) (locate root) = true;
  up_dest : fs v !! locate dest = Some (Node.Directory o700);
  up_exact : exact dest items v;
}.

Lemma fresh_below t D k : closed t -> t !! D = None -> D `suffix_of` k -> t !! k = None.
Proof.
  intros Hc Hn Hk. destruct (t !! k) as [n|] eqn:E; [|done]. destruct (decide (D = k)) as [->|Hne]; [congruence|].
  assert (Hd : dir_at t D = true) by (eapply closed_ancestor; eauto). apply dir_at_Some in Hd as [m Hm]. congruence.
Qed.

Lemma contained_refl D maxBytes maxEntries w : (0 <= maxBytes)%Z -> (0 <= maxEntries)%Z -> contained D maxBytes maxEntries w w.
Proof. intros. split; auto; lia. Qed.

Lemma grown_contained D maxBytes maxEntries w v :
  closed (fs w) -> fs w !! D = None -> grown D (fs w) (maxBytes + 1) maxEntries v -> contained D maxBytes maxEntries w v.
Proof.
  intros Hc Hn [Ho Hp _ Hb Hf]. split; [| |lia..].
  - intros k n Hk. rewrite Ho; [done|]. intros HD. rewrite (fresh_below _ _ _ Hc Hn HD) in Hk. done.
  - intros k n Hk. destruct (decide (D `suffix_of` k)) as [HD|HD]; [right; eauto|left; by rewrite <- Ho].
Qed.

Lemma grown_start D w m :
  closed (fs w) -> vacant (fs w) D = true -> grown D (fs w) 0 0 (put D (Node.Directory m) w).
Proof.
  intros Hc Hv. pose proof (vacant_None _ _ Hv) as Hn. split.
  - intros k Hk. rewrite lookup_put, decide_False; [done|]. by intros ->.
  - intros k n Hk. rewrite lookup_put. case_decide; [by intros [= <-]|]. by rewrite (fresh_below _ _ _ Hc Hn Hk).
  - intros p Hp. rewrite lookup_put. case_decide as Hne; [eauto|]. destruct D as [|c P]; [done|].
    cbn in Hv. apply andb_true_iff in Hv as [Hd _]. apply suffix_cons_cases in Hp as [->|Hp]; [done|].
    destruct (decide (p = P)) as [->|HpP]; [apply dir_at_Some in Hd as [? ->]; eauto|].
    assert (Hdp : dir_at (fs w) p = true).
    { eapply closed_ancestor; [done|exact Hp|done|]. apply dir_at_Some in Hd as [? ->]. eauto. }
    apply dir_at_Some in Hdp as [? ->]. eauto.
  - cbn. rewrite total_insert, Hn. cbn. lia.
  - cbn. rewrite total_insert, Hn. cbn. lia.
Qed.

Section Whole.
Context `{ArchiveFormat} (archivePath dest : string) (maxBytes maxEntries : Z) (w : world).
Context (Habs : IsAbs dest = true) (Hclosed : closed (fs w)) (Hbytes : (0 <= maxBytes)%Z) (Hentries : (0 <= maxEntries)%Z).
Let D := locate dest.

Definition extraction_done (root : string) (v : world) : Prop :=
  exists mode data a items, fs w !! locate archivePath = Some (Node.File mode data) /\ gunzip_untar data = Some a /\
    items_of a = Some items /\ unpacked dest root items v.

Lemma ExtractTarGz_wp :
  wp (contained D maxBytes maxEntries w) (ExtractTarGz archivePath dest maxBytes maxEntries)
    (fun r v => match r with Ok root => extraction_done root v | Err _ => True end) w.
Proof using Habs Hclosed Hbytes Hentries.
  pose proof (contained_refl D maxBytes maxEntries w Hbytes Hentries) as Hw. unfold ExtractTarGz. fold D.
  wp_step. apply Mkdir_wp; [done|done|]. intros Hv. cbn zeta. set (w1 := put D _ w). pose proof (vacant_None _ _ Hv) as Hn.
  assert (Hg : forall u, grown D (fs w) (maxBytes + 1) maxEntries u -> contained D maxBytes maxEntries w u) by
    by intros; apply grown_contained.
  assert (Hput : forall m, contained D maxBytes maxEntries w (put D (Node.Directory m) w)).
  { intros m. apply Hg. eapply grown_mono; [by apply grown_start|lia..]. }
  split; [apply Hput|]. wp_step. apply Chmod_wp; [apply Hput|done|]. intros n n' E E'. unfold w1 in *.
  rewrite lookup_put, decide_True in E by done. injection E as <-. injection E' as <-. rewrite put_twice. clear w1.
  set (w1 := put D _ w). split; [apply Hput|]. wp_step. apply ReadFile_wp; [apply Hput|done|]. intros mode data Hdata.
  assert (Hsrc : fs w !! locate archivePath = Some (Node.File mode data)).
  { unfold w1 in Hdata. rewrite lookup_put in Hdata. by case_decide. }
  destruct (gunzip_untar data) as [a|] eqn:Ea; [|by wp_step; [apply Hput|]]. wp_step.
  eapply wp_weaken; [exact Hg|].
  assert (Hp : progress dest (fs w) [] 0 0 "" w1).
  { unfold w1. split; [by apply grown_start|by rewrite lookup_put, decide_True| |by left].
    intros r n Hr. fold D. rewrite lookup_put, decide_False; [|intros E; by apply (key_not_dest dest r Hr)].
    rewrite (fresh_below _ D); [|done..|by exists r]. split; [done|]. intros (e & Hin & _). by apply not_elem_of_nil in Hin. }
  eapply wp_mono; [|apply (extract_entries_wp dest Habs (fs w) _ _ _ [] _ _ _ _ _ Hp); lia].
  intros [top|e] v Iv Hv'; [|done]. destruct Hv' as (l & count & bytes & Hl & [Hgv Hdest Hexact Htop]). cbn [List.app] in *.
  pose proof (Hg v Iv). case_bool_decide as Et; [by wp_step|]. wp_step. destruct Htop as [[_ ?]|[Hgood Htop]]; [done|].
  apply Stat_wp; [done|by wp_step|]. intros n' Hn'. wp_step; [done|]. destruct (Node.IsDir n') eqn:Ed; [|done].
  exists mode, data, a, l. split_and!; try done. split; [by exists top| |done|done].
  unfold dir_at. by rewrite Hn'.
Qed.

(** C2.  Unpacking is confined.  At every moment of an extraction, whatever the archive says
    and whichever call fails or is the last before a crash: nothing that was on disk before
    is changed or replaced, everything new is a directory or a plain file at or below the
    destination, never a link or a device, and the new files stay within the limits on
    their number and their bytes (the copy of an entry may read one byte past the limit
    before the entry is refused). *)
Theorem extraction_contained answers :
  let v := (run (ExtractTarGz archivePath dest maxBytes maxEntries) answers w).1 in
  (forall k n, fs w !! k = Some n -> fs v !! k = Some n) /\
  (forall k n, fs v !! k = Some n -> fs w !! k = Some n \/ (locate dest `suffix_of` k /\ Node.plain n)) /\
  (stored (fs v) <= stored (fs w) + maxBytes + 1)%Z /\ (files (fs v) <= files (fs w) + maxEntries)%Z.
Proof using Habs Hclosed Hbytes Hentries.
  intros v. destruct (wp_sound _ _ _ answers w ExtractTarGz_wp) as [[Ho Hn Hb Hf] _]. by split_and!.
Qed.
End Whole.
