(* ===== verification/ArtifactChecks.v ===== *)
(** Verified releases: what the inner checksums say about the files of a release, and
    that they determine them. *)
From Stdlib Require Import Ascii String ZArith Lia.
From stdpp Require Import base decidable list strings gmap.
From S2P Require Import Prelude Strings Regexp Patterns Sha256 Paths DockerPin Effects FileTree Artifact ArchivePaths ArtifactTree.

Open Scope string_scope.

Section Checks.
Context `{UnicodeTables}.

(** * The list *)

Definition listed_ok (listed : gmap string string) : Prop :=
  forall name digest, listed !! name = Some digest -> safeArchivePath name = true /\ str_forall is_ascii_byte digest = true.

Lemma hex_any_ascii c : hex_any c = true -> is_ascii_byte (ascii_lower c) = true.
Proof. destruct c as [[] [] [] [] [] [] [] []]; vm_compute; done. Qed.

Lemma hex_any_is_ascii c : hex_any c = true -> is_ascii_byte c = true.
Proof. destruct c as [[] [] [] [] [] [] [] []]; vm_compute; done. Qed.

Lemma str_forall_map (P : ascii -> bool) f s : str_forall P (str_map f s) = str_forall (fun c => P (f c)) s.
Proof. induction s as [|c s IH]; cbn; [done|]. by rewrite IH. Qed.

Lemma ToLower_hex_ascii s : hex_decodes s = true -> str_forall is_ascii_byte (ToLower s) = true.
Proof.
  intros Hs. apply andb_true_iff in Hs as [_ Hs]. unfold ToLower.
  rewrite (str_forall_impl hex_any is_ascii_byte s hex_any_is_ascii Hs), str_forall_map.
  by apply (str_forall_impl hex_any); [apply hex_any_ascii|].
Qed.

Lemma checksum_line_ok line listed listed' : listed_ok listed -> checksum_line line listed = Ok listed' -> listed_ok listed'.
Proof.
  intros Hl E. unfold checksum_line in E. destruct (Fields line) as [|digest [|f fields]]; [done..|].
  destruct (last _) as [final|]; [|done]. destruct (negb (len digest =? 64)%Z); [done|]. cbn zeta in E.
  case_bool_decide; [by injection E as <-|]. destruct (_ || _) eqn:Hs; [done|]. bool_to_prop.
  destruct (hex_decodes digest) eqn:Hh; [|done]. injection E as <-. intros name d Hd.
  rewrite lookup_insert in Hd. case_decide as En; [|by apply Hl in Hd]. subst name. injection Hd as <-.
  split; [done|by apply ToLower_hex_ascii].
Qed.

Lemma checksum_lines_ok lines listed listed' : listed_ok listed -> checksum_lines lines listed = Ok listed' -> listed_ok listed'.
Proof.
  revert listed. induction lines as [|line lines IH]; intros listed Hl E; [by injection E as <-|].
  cbn in E. destruct (checksum_line line listed) as [l|] eqn:El; [|done]. cbn in E. by eapply IH, E; eapply checksum_line_ok.
Qed.

Lemma checksum_list_ok data listed : checksum_list data = Ok listed -> listed_ok listed.
Proof.
  unfold checksum_list. destruct (Scanner _ data) as [lines long]. destruct (checksum_lines lines ∅) as [l|] eqn:El; [|done]. cbn.
  destruct long; [done|]. case_bool_decide; [done|]. intros [= <-]. eapply checksum_lines_ok; [|exact El]. by intros ? ?.
Qed.

(** * The files *)

Definition has_digest (t : tree) (k : path) (digest : string) : Prop :=
  exists mode data, t !! k = Some (Node.File mode data) /\ EqualFold (sha256_hex data) digest = true.

Lemma check_files_wp I root listed w :
  I w ->
  wp I (check_files root listed)
    (fun r v => v = w /\ forall seen, r = Ok seen ->
       seen = map (fun e => locate (Join [root; e.1])) listed /\
       Forall (fun e => has_digest (fs w) (locate (Join [root; e.1])) e.2) listed) w.
Proof.
  intros HI. induction listed as [|[name expected] rest IH]; cbn [check_files].
  { wp_step; [done|]. split; [done|]. by intros seen [= <-]. }
  destruct (pathWithin _ _); cbn [negb]; [|by wp_step]. wp_step. apply Lstat_wp; [done|by wp_step|]. intros n Hn.
  destruct (Node.IsRegular n) eqn:Er; cbn [negb]; [|by wp_step]. unfold hashFile. wp_step. wp_step.
  apply ReadFile_wp; [done|by wp_step|]. intros mode data Hd. wp_step; [done|].
  destruct (EqualFold _ _) eqn:Ef; cbn [negb]; [|by wp_step]. wp_step. eapply wp_mono; [|exact IH].
  intros [seen|e] v Iv [-> Hs]; [|done]. destruct (Hs seen eq_refl) as [-> Hf]. wp_step; [done|]. split; [done|].
  intros seen' [= <-]. split; [done|]. constructor; [|done]. by exists mode, data.
Qed.

Lemma visit_all_ok manifest seen extra entries :
  visit_all manifest seen extra entries = Ok tt ->
  Forall (fun e => Node.plain e.2 /\ (Node.IsRegular e.2 = true -> e.1 = manifest \/ e.1 ∈ seen \/ e.1 ∈ extra)) entries.
Proof.
  induction entries as [|[k n] entries IH]; [done|]. cbn [visit_all]. destruct (visit _ _ _ _) as [[]|] eqn:Ev; [|done]. cbn. intros E.
  constructor; [|by apply IH]. unfold visit in Ev. cbn [fst snd] in *.
  destruct n; cbn in Ev |- *; try discriminate Ev; split; try done.
  intros _. repeat case_bool_decide; try discriminate Ev; auto.
Qed.

(** A release below [root] that passed the verification, with its checksum file [data]. *)
Record verified (root : string) (extra : list path) (data : string) (listed : gmap string string) (t : tree) : Prop := {
  vf_manifest : exists mode, t !! locate (Join [root; "checksums.txt"]) = Some (Node.File mode data);
  vf_list : checksum_list data = Ok listed;
  vf_listed : forall name digest, listed !! name = Some digest -> has_digest t (locate (Join [root; name])) digest;
  vf_plain : forall k n, locate root `suffix_of` k -> t !! k = Some n -> Node.plain n;
  vf_complete : forall k n, locate root `suffix_of` k -> t !! k = Some n -> Node.IsRegular n = true ->
    k = locate (Join [root; "checksums.txt"]) \/ k ∈ extra \/
    exists name, is_Some (listed !! name) /\ k = locate (Join [root; name]);
}.

Lemma verifyInnerChecksums_wp I root extra w :
  I w ->
  wp I (verifyInnerChecksums root extra)
    (fun r v => v = w /\ (r = Ok tt -> exists data listed, verified root extra data listed (fs w))) w.
Proof.
  intros HI. unfold verifyInnerChecksums. wp_step. apply ReadFile_wp; [done|by wp_step|]. intros mode data Hd.
  wp_step. wp_step; [done|]. destruct (checksum_list data) as [listed|e] eqn:El; [|done]. wp_step.
  eapply wp_mono; [|by apply check_files_wp]. intros [seen|e] v Iv [-> Hs]; [|done].
  destruct (Hs seen eq_refl) as [-> Hf]. wp_step. apply Walk_wp; [done|done|]. wp_step; [done|]. split; [done|].
  intros Hv%visit_all_ok. rewrite Forall_forall in Hf. rewrite Forall_forall in Hv.
  assert (Hsub : forall k n, locate root `suffix_of` k -> fs w !! k = Some n -> (k, n) ∈ subtree (fs w) (locate root)).
  { intros k n Hk Hn. by apply elem_of_subtree. }
  exists data, listed. split; [by exists mode|done| | |].
  - intros name digest Hn. apply (Hf (name, digest)). by apply elem_of_map_to_list.
  - intros k n Hk Hn. by apply (Hv (k, n)), Hsub.
  - intros k n Hk Hn Hr. destruct (Hv (k, n) (Hsub _ _ Hk Hn)) as [_ Hin]. destruct (Hin Hr) as [?|[Hin'|?]]; auto.
    right; right. apply list_elem_of_fmap in Hin' as ([name digest] & Hk' & Hl). exists name. split; [|done].
    apply elem_of_map_to_list in Hl. eauto.
Qed.

(** * The checksums determine the release *)

Definition below (root : string) (names : list path) : list path := map (fun r => (r ++ locate root)%list) names.

Definition managed_names : list path := [[".artifact-sha256"]; [".version"]].

Lemma managed_extra_below root : IsAbs root = true -> managed_extra root = below root managed_names.
Proof.
  intros Ha. unfold managed_extra.
  destruct (Join_component root ".artifact-sha256") as [A1 L1]; [done|by split|].
  destruct (Join_component root ".version") as [A2 L2]; [done|by split|].
  by rewrite !locate_Clean, L1, L2.
Qed.

Lemma sha256_not_upper d : str_forall not_upper (sha256_hex d) = true.
Proof. apply plan_hash_not_upper, sha256_hex_pattern. Qed.

Lemma EqualFold_same a b digest :
  str_forall not_upper a = true -> str_forall not_upper b = true -> str_forall is_ascii_byte digest = true ->
  EqualFold a digest = true -> EqualFold b digest = true -> a = b.
Proof.
  assert (Hlow : forall s, str_forall not_upper s = true -> str_forall is_ascii_byte s = true /\ str_map ascii_lower s = s).
  { intros s Hs. assert (Ha : str_forall is_ascii_byte s = true).
    { eapply str_forall_impl, Hs. intros c Hc. unfold not_upper in Hc. by apply andb_true_iff in Hc as [? _]. }
    split; [done|]. pose proof (ToLower_not_upper s Hs) as Ht. unfold ToLower in Ht. by rewrite Ha in Ht. }
  intros Ha Hb Hd. destruct (Hlow a Ha) as [A1 A2], (Hlow b Hb) as [B1 B2]. unfold EqualFold.
  rewrite A1, B1, Hd, A2, B2. cbn [andb]. rewrite !bool_decide_eq_true. congruence.
Qed.

(** Two different contents with the same digest. *)
Definition collision (d1 d2 : string) : Prop := d1 <> d2 /\ sha256_hex d1 = sha256_hex d2.

Lemma same_or_collision d1 d2 : sha256_hex d1 = sha256_hex d2 -> d1 = d2 \/ collision d1 d2.
Proof. intros E. destruct (decide (d1 = d2)); [by left|by right]. Qed.

Definition manifest_key : path := ["checksums.txt"].

Lemma manifest_below root : IsAbs root = true -> locate (Join [root; "checksums.txt"]) = (manifest_key ++ locate root)%list.
Proof. intros Ha. destruct (Join_component root "checksums.txt") as [_ ->]; [done|by split|done]. Qed.

Lemma verified_file root1 root2 names1 names2 data listed1 listed2 t1 t2 r mode d1 :
  IsAbs root1 = true -> IsAbs root2 = true ->
  verified root1 (below root1 names1) data listed1 t1 -> verified root2 (below root2 names2) data listed2 t2 ->
  r ∉ names1 -> t1 !! (r ++ locate root1)%list = Some (Node.File mode d1) ->
  exists mode' d2, t2 !! (r ++ locate root2)%list = Some (Node.File mode' d2) /\ (d1 = d2 \/ collision d1 d2).
Proof.
  intros H1 H2 V1 V2 Hr Hd. pose proof (vf_list _ _ _ _ _ V2) as L2. rewrite (vf_list _ _ _ _ _ V1) in L2. injection L2 as <-.
  destruct (vf_complete _ _ _ _ _ V1 (r ++ locate root1)%list (Node.File mode d1)) as [Hk|[Hk|(name & [digest Hn] & Hk)]];
    [by exists r|done|done|..].
  - rewrite manifest_below in Hk by done. apply app_inv_tail in Hk as ->.
    destruct (vf_manifest _ _ _ _ _ V1) as [m1 M1], (vf_manifest _ _ _ _ _ V2) as [m2 M2]. rewrite manifest_below in M1, M2 by done.
    rewrite M1 in Hd. injection Hd as <- <-. exists m2, data. auto.
  - apply list_elem_of_fmap in Hk as (r' & E & Hin). by apply app_inv_tail in E as <-.
  - destruct (checksum_list_ok _ _ (vf_list _ _ _ _ _ V1) _ _ Hn) as [Hsafe Hasc].
    destruct (safe_below root1 name H1 Hsafe) as [_ K1], (safe_below root2 name H2 Hsafe) as [_ K2].
    destruct (vf_listed _ _ _ _ _ V1 _ _ Hn) as (m1 & d1' & F1 & E1), (vf_listed _ _ _ _ _ V2 _ _ Hn) as (m2 & d2 & F2 & E2).
    rewrite K1 in Hk, F1. apply app_inv_tail in Hk as ->. rewrite F1 in Hd. injection Hd as <- <-. rewrite K2 in F2.
    exists m2, d2. split; [done|]. apply same_or_collision. eapply EqualFold_same; eauto using sha256_not_upper.
Qed.

Lemma verify_run root extra answers w :
  (run (verifyInnerChecksums root extra) answers w).2 = Some (Ok tt) ->
  exists data listed, verified root extra data listed (fs w).
Proof.
  intros Hr. destruct (wp_sound (fun _ => True) _ _ answers w (verifyInnerChecksums_wp (fun _ => True) root extra w Logic.I)) as [_ HQ].
  by apply (HQ _ Hr).
Qed.

(** C8.  The checksum file determines the release.  When two directories pass the
    verification, on any two hosts, and their [checksums.txt] is the same, then every file
    of the one, apart from the extra files its verification allows, is at the same place in
    the other with the same content, unless the two contents are a SHA-256 collision; and
    neither holds anything but directories and plain files.  With no extra files allowed
    this is a freshly unpacked artifact, with [.artifact-sha256] and [.version] an installed
    release. *)
Theorem checksums_determine_release root1 root2 names1 names2 answers1 answers2 w1 w2 mode1 mode2 data :
  IsAbs root1 = true -> IsAbs root2 = true ->
  (run (verifyInnerChecksums root1 (below root1 names1)) answers1 w1).2 = Some (Ok tt) ->
  (run (verifyInnerChecksums root2 (below root2 names2)) answers2 w2).2 = Some (Ok tt) ->
  fs w1 !! locate (Join [root1; "checksums.txt"]) = Some (Node.File mode1 data) ->
  fs w2 !! locate (Join [root2; "checksums.txt"]) = Some (Node.File mode2 data) ->
  (forall k n, locate root1 `suffix_of` k -> fs w1 !! k = Some n -> Node.plain n) /\
  forall r mode d1, r ∉ names1 -> fs w1 !! (r ++ locate root1)%list = Some (Node.File mode d1) ->
    exists mode' d2, fs w2 !! (r ++ locate root2)%list = Some (Node.File mode' d2) /\ (d1 = d2 \/ collision d1 d2).
Proof.
  intros Ha1 Ha2 (x1 & l1 & V1)%verify_run (x2 & l2 & V2)%verify_run Hm1 Hm2.
  destruct (vf_manifest _ _ _ _ _ V1) as [m1 M1], (vf_manifest _ _ _ _ _ V2) as [m2 M2].
  assert (x1 = data) as -> by congruence. assert (x2 = data) as -> by congruence.
  split; [apply V1|]. intros r mode d1 Hr Hd. by eapply (verified_file root1 root2 names1 names2).
Qed.
End Checks.
