(* ===== verification/Release.v ===== *)
(** Downloading a release ([artifact.go], [github_release_metadata.go]): the requests to
    GitHub and their redirects, the checks on release, tag and manifest, the download of
    the four assets, and the unpacked, verified artifact at the end.

    Decoding JSON, parsing URLs and time stamps are class parameters without laws; so is
    the version the running updater was built as. *)
From Stdlib Require Import Ascii String ZArith Lia.
From stdpp Require Import base decidable list strings gmap.
From S2P Require Import Prelude Strings Regexp Patterns Sha256 Json Paths Effects FileTree Artifact.

Open Scope string_scope.

(** * Data *)

Record RepoSpec := { Owner : string; Repo : string; Prefix : string }.

#[global] Instance RepoSpec_eq_dec : EqDecision RepoSpec.
Proof. solve_decision. Defined.

Definition komelab (repo prefix : string) : RepoSpec := {| Owner := "Kome-Lab"; Repo := repo; Prefix := prefix |}.

Definition repositoryByServiceType : list (string * RepoSpec) :=
  [("control_panel", komelab "Autostream-ControlPanel" "autostream-control-panel");
   ("worker", komelab "Autostream-Worker" "autostream-worker");
   ("encoder_recorder", komelab "Autostream-Encoder-Recorder" "autostream-encoder-recorder");
   ("discord_bot", komelab "Autostream-DiscordBot" "autostream-discord-bot");
   ("observability", komelab "Autostream-Observability" "autostream-observability")].

Definition repository (serviceType : string) : option RepoSpec :=
  match find (fun e => e.1 ==? serviceType) repositoryByServiceType with Some e => Some e.2 | None => None end.

Record ReleaseDownloader := {
  APIBase : string;
  Token : string;
  TrustedPublicOnly : bool;
  MaxArtifactBytes : Z;
  MaxExtractBytes : Z;
  MaxEntries : Z;
  AllowHTTPForTest : bool;
}.

Definition defaultMaxArtifactBytes : Z := 268435456.
Definition defaultMaxExtractBytes : Z := 1073741824.
Definition defaultMaxEntries : Z := 10000.

(** The limit of a field, or its default. *)
Definition limit_or (configured fallback : Z) : Z := if (configured <=? 0)%Z then fallback else configured.

Module Asset.
Record t := { ID : Z; Name : string; URL : string; Digest : string; State : string }.
End Asset.

Module Release.
Record t := { TagName : string; Draft : bool; Prerelease : bool; Immutable : bool; Assets : list Asset.t }.
End Release.

Module GitObject.
Record t := { Type_ : string; SHA : string }.
End GitObject.

Module HostReleaseArtifact.
Record t := { OS : string; Arch : string; Name : string; Size : Z; SHA256 : string }.
Definition zero : t := {| OS := ""; Arch := ""; Name := ""; Size := 0; SHA256 := "" |}.
End HostReleaseArtifact.

Module HostReleaseComponent.
Record t := { Service : string; SourceVersion : string; Commit : string; Artifacts : list HostReleaseArtifact.t;
              RollbackCompatible : bool; DatabaseSchema : string }.
End HostReleaseComponent.

Module HostReleaseManifest.
Record t := { SchemaVersion : Z; ReleaseID : string; Channel : string; PublishedAt : string;
              MinimumAgentVersion : string; Components : list HostReleaseComponent.t }.
End HostReleaseManifest.

Record resolvedReleaseAssets := {
  Archive : Asset.t; ArchiveChecksum : Asset.t; Manifest : Asset.t; ManifestChecksum : Asset.t; TagCommit : string }.

Record DownloadedArtifact := { ArchivePath : string; RootDir : string; SHA256 : string; AssetName : string }.

Module Url.
Record t := { Scheme : string; Host : string; Hostname : string; EscapedPath : string; RawQuery : string;
              Fragment : string; User : bool }.
End Url.

(** What the standard library makes of texts. *)
Class Formats := {
  parse_url : string -> option Url.t;
  decode_release : string -> option Release.t;
  decode_ref : string -> option GitObject.t;
  decode_tag : string -> option GitObject.t;
  decode_manifest : string -> option HostReleaseManifest.t;
  parse_rfc3339 : string -> bool;
}.

Class BuildInfo := Version : string.

(** [version.Current] *)
Definition Current `{BuildInfo} : string := if Version ==? "" then "dev" else Version.

(** * Requests *)

Definition path_byte (c : ascii) : bool := alnum c || one_of "-_.~$&+=:@" c.

Definition upper_hex (n : N) : ascii := if (n <? 10)%N then byte (48 + n) else byte (55 + n).

(** [url.PathEscape] *)
Fixpoint PathEscape (s : string) : string :=
  match s with
  | "" => ""
  | String c r =>
      if path_byte c then String c (PathEscape r)
      else String "%" (String (upper_hex (N.shiftr (code c) 4)) (String (upper_hex (N.land (code c) 15)) (PathEscape r)))
  end.

Fixpoint trim_slashes_rev (s : string) : string :=
  match s with String c r => if Ascii.eqb c "/" then trim_slashes_rev r else s | "" => "" end.

(** [strings.TrimRight(s, "/")] *)
Definition TrimRightSlash (s : string) : string := str_rev (trim_slashes_rev (str_rev s)).

Section Download.
Context `{UnicodeTables} `{ArchiveFormat} `{Formats} `{BuildInfo}.
Context (d : ReleaseDownloader).

Definition trustedGitHubReleaseRedirectHost (host : string) : bool :=
  existsb (fun h => ToLower (TrimSpace host) ==? h)
    ["api.github.com"; "github.com"; "objects.githubusercontent.com"; "release-assets.githubusercontent.com"].

(** [CheckRedirect] of the client after [via] requests. *)
Definition checkRedirect (u : Url.t) (via : Z) : check :=
  if (5 <=? via)%Z then Err "too many release download redirects"
  else if (Url.Scheme u !=? "https") && negb (AllowHTTPForTest d) then Err "release download redirect must use HTTPS"
  else if TrustedPublicOnly d && negb (trustedGitHubReleaseRedirectHost (Url.Hostname u))
  then Err "public release download redirected outside trusted GitHub storage"
  else Ok tt.

(** The client: one request after the other, at most five.  The location of a redirect is
    already resolved against the URL before it. *)
Fixpoint follow (left : nat) (via : Z) (firstHost token : string) (req : Request) : prog op (result string (Z * Z * string * bool)) :=
  let? resp := call (RoundTrip req) in
  match resp with
  | Final status contentLength body complete => Ret (Ok (status, contentLength, body, complete))
  | Redirect location =>
      match parse_url location with
      | None => Ret (Err "invalid redirect location")
      | Some u =>
          let? _ := lift (checkRedirect u via) in
          match left with
          | O => Ret (Err "too many release download redirects")
          | S left' =>
              let authorization := if EqualFold (Url.Host u) firstHost then token else "" in
              follow left' (via + 1) firstHost token {| URL := location; Authorization := authorization |}
          end
      end
  end.

Definition newRequest (raw : string) : result string (Request * string) :=
  if TrustedPublicOnly d && (TrimSpace (Token d) !=? "") then Err "public pull mode does not accept a release credential"
  else match parse_url raw with
       | None => Err "invalid URL"
       | Some u =>
           let token := if TrimSpace (Token d) ==? "" then "" else "Bearer " +:+ TrimSpace (Token d) in
           Ok ({| URL := raw; Authorization := token |}, Url.Host u)
       end.

Definition perform (raw : string) : prog op (result string (Z * Z * string * bool)) :=
  let? (req, host) := lift (newRequest raw) in follow 4 1 host (Authorization req) req.

Definition getJSON {A} (decode : string -> option A) (raw : string) : prog op (result string A) :=
  let? (status, _, body, _) := perform raw in
  if negb (status =? 200)%Z then Ret (Err "GitHub returned HTTP status")
  else match decode (limited 4194304 body) with Some x => Ret (Ok x) | None => Ret (Err "invalid JSON") end.

(** The bytes arrive in a temporary file next to [dest], which takes its name at the end. *)
Definition store (tmp dest : path) (data : string) (read_ok : bool) (max : Z) : prog op (result string string) :=
  let? _ := call (Write tmp data) in
  if negb read_ok then Ret (Err "download interrupted")
  else if (max <? len data)%Z then Ret (Err "release asset exceeds size limit")
  else
    let? _ := call (Sync tmp) in
    let? _ := call (Close tmp) in
    let? _ := call (Rename tmp dest) in
    Ret (Ok (sha256_hex data)).

Definition downloadFile (raw dest : string) (max : Z) : prog op (result string string) :=
  let? (status, contentLength, body, complete) := perform raw in
  if negb (status =? 200)%Z then Ret (Err "asset endpoint returned HTTP status")
  else if (max <? contentLength)%Z then Ret (Err "release asset exceeds size limit")
  else
    let tmp := dest +:+ ".part" in
    let? _ := call (Create (locate tmp) o600) in
    let* stored := store (locate tmp) (locate dest) (limited (max + 1) body) (complete || (max + 1 <=? len body)%Z) max in
    match stored with
    | Ok digest => Ret (Ok digest)
    | Err e =>
        let* _ := call (Close (locate tmp)) in
        let* _ := call (Remove (locate tmp)) in
        Ret (Err e)
    end.

Definition downloadResolvedReleaseAsset (asset : Asset.t) (dest : string) (max : Z) : prog op (result string string) :=
  let? digest := downloadFile (Asset.URL asset) dest max in
  if TrustedPublicOnly d && (Asset.Digest asset !=? "sha256:" +:+ ToLower digest) then
    let* _ := call (Remove (locate dest)) in
    Ret (Err "release asset does not match the GitHub API digest")
  else Ret (Ok digest).

(** * The release on GitHub *)

Definition validateTrustedPublicReleaseMetadata (release : Release.t) (version : string) : check :=
  if (Release.TagName release !=? version) || Release.Draft release || Release.Prerelease release || negb (Release.Immutable release)
  then Err "public release is not an immutable stable release for the requested tag" else Ok tt.

Fixpoint unique_assets (l : list Asset.t) (assets : gmap string Asset.t) : result string (gmap string Asset.t) :=
  match l with
  | [] => Ok assets
  | asset :: rest =>
      if bool_decide (is_Some (assets !! Asset.Name asset)) then Err "release contains duplicate asset"
      else unique_assets rest (<[Asset.Name asset := asset]> assets)
  end.

Definition uniqueReleaseAssets (release : Release.t) : result string (gmap string Asset.t) :=
  unique_assets (Release.Assets release) ∅.

Definition uniqueReleaseAssetURLs (release : Release.t) : result string (gmap string string) :=
  let! resolved := uniqueReleaseAssets release in Ok (Asset.URL <$> resolved).

Definition validateAssetURL (raw apiBase : string) : check :=
  match parse_url raw with
  | None => Err "GitHub returned an invalid asset URL"
  | Some u =>
      if Url.Host u ==? "" then Err "GitHub returned an invalid asset URL"
      else if (Url.Scheme u !=? "https") && negb (AllowHTTPForTest d) then Err "release asset URL must use HTTPS"
      else if negb (EqualFold (Url.Host u) (match parse_url apiBase with Some b => Url.Host b | None => "" end))
      then Err "release asset URL must use the configured GitHub API host"
      else Ok tt
  end.

Definition dockerRepository : RepoSpec := komelab "Autostream-Docker" "autostream-docker".

Definition validateTrustedPublicRepository (base : string) (spec : RepoSpec) : check :=
  if negb (TrustedPublicOnly d) then Ok tt
  else if TrimSpace (Token d) !=? "" then Err "credentialed release access is unavailable in public pull mode"
  else
    let origin := match parse_url base with
      | None => false
      | Some u => (Url.Scheme u ==? "https") && EqualFold (Url.Host u) "api.github.com" && (Url.EscapedPath u ==? "") &&
                  (Url.RawQuery u ==? "") && (Url.Fragment u ==? "") && negb (Url.User u)
      end in
    if negb origin then Err "public pull mode requires GitHub's production API origin"
    else if negb (existsb (fun e => e.2 ==? spec) repositoryByServiceType || (spec ==? dockerRepository))
    then Err "public pull mode does not permit a custom release repository"
    else Ok tt.

Definition validateTrustedPublicAssetURL (raw base : string) (spec : RepoSpec) (assetID : Z) : check :=
  let! _ := validateAssetURL raw base in
  match parse_url raw, parse_url base with
  | Some assetURL, Some baseURL =>
      if (assetID <=? 0)%Z then Err "GitHub returned an invalid release asset API URL"
      else
        let expectedPath := TrimRightSlash (Url.EscapedPath baseURL) +:+ "/repos/" +:+ PathEscape (Owner spec) +:+ "/" +:+
          PathEscape (Repo spec) +:+ "/releases/assets/" +:+ FormatInt assetID in
        if (Url.EscapedPath assetURL !=? expectedPath) || (Url.RawQuery assetURL !=? "") || (Url.Fragment assetURL !=? "") || Url.User assetURL
        then Err "release asset does not use its canonical GitHub asset API URL"
        else Ok tt
  | _, _ => Err "GitHub returned an invalid release asset API URL"
  end.

Definition repo_endpoint (base : string) (spec : RepoSpec) (rest last : string) : string :=
  base +:+ "/repos/" +:+ PathEscape (Owner spec) +:+ "/" +:+ PathEscape (Repo spec) +:+ rest +:+ PathEscape last.

(** The tag objects from the reference to the commit, at most eight of them. *)
Fixpoint dereference (base : string) (spec : RepoSpec) (left : nat) (seen : list string) (object : GitObject.t) :
    prog op (result string GitObject.t) :=
  if GitObject.Type_ object ==? "tag" then
    match left with
    | O => Ret (Err "immutable release tag exceeds the dereference limit")
    | S left' =>
        if negb (re_match updaterReleaseCommitPattern (GitObject.SHA object)) then Ret (Err "immutable release tag object is invalid")
        else if bool_decide (GitObject.SHA object ∈ seen) then Ret (Err "immutable release tag contains a cycle")
        else
          let? next := getJSON decode_tag (repo_endpoint base spec "/git/tags/" (GitObject.SHA object)) in
          dereference base spec left' (GitObject.SHA object :: seen) next
    end
  else Ret (Ok object).

Definition resolveTrustedReleaseTagCommit (base : string) (spec : RepoSpec) (version : string) : prog op (result string string) :=
  let? ref := getJSON decode_ref (repo_endpoint base spec "/git/ref/tags/" version) in
  let? object := dereference base spec 8 [] ref in
  if (GitObject.Type_ object !=? "commit") || negb (re_match updaterReleaseCommitPattern (GitObject.SHA object))
  then Ret (Err "immutable release tag does not resolve to a valid commit")
  else Ret (Ok (GitObject.SHA object)).

Definition asset_metadata_ok (base : string) (spec : RepoSpec) (asset : Asset.t) : bool :=
  (0 <? Asset.ID asset)%Z && (Asset.State asset ==? "uploaded") && re_match digestPattern (Asset.Digest asset) &&
  is_ok (validateTrustedPublicAssetURL (Asset.URL asset) base spec (Asset.ID asset)).

Definition resolveAssets (spec : RepoSpec) (version assetName : string) : prog op (result string resolvedReleaseAssets) :=
  let base := TrimRightSlash (APIBase d) in
  let base := if base ==? "" then "https://api.github.com" else base in
  let? _ := lift (validateTrustedPublicRepository base spec) in
  let? release := getJSON decode_release (repo_endpoint base spec "/releases/tags/" version) in
  let? _ := lift (if TrustedPublicOnly d then validateTrustedPublicReleaseMetadata release version else Ok tt) in
  let? assets := lift (uniqueReleaseAssets release) in
  if TrustedPublicOnly d && negb (forallb (asset_metadata_ok base spec) (Release.Assets release))
  then Ret (Err "release asset has invalid immutable metadata")
  else
    match assets !! assetName, assets !! (assetName +:+ ".sha256"), assets !! "release-manifest.json", assets !! "release-manifest.json.sha256" with
    | Some archive, Some checksum, Some manifest, Some manifestChecksum =>
        if forallb (fun a => is_ok (validateAssetURL (Asset.URL a) base)) [archive; checksum; manifest; manifestChecksum] then
          let? tagCommit := if TrustedPublicOnly d then resolveTrustedReleaseTagCommit base spec version else Ret (Ok "") in
          Ret (Ok {| Archive := archive; ArchiveChecksum := checksum; Manifest := manifest;
                     ManifestChecksum := manifestChecksum; TagCommit := tagCommit |})
        else Ret (Err "release asset URL is not allowed")
    | _, _, _, _ => Ret (Err "release is missing an asset, its checksum, or the host manifest checksums")
    end.

(** * The release manifest *)

(** [fmt.Sscanf(s, "%d.%d.%d", ...)]: white space other than a line end and a sign before
    each number are allowed, and what follows the third number is ignored. *)
Definition skip_spaces (s : string) : string :=
  trim_leading (filter (fun e => e <> String "010" "") space_encodings) (String.length s) s.

Fixpoint span_digits (s : string) : string * string :=
  match s with
  | String c r => if digit c then let '(ds, rest) := span_digits r in (String c ds, rest) else ("", s)
  | "" => ("", "")
  end.

Definition scan_int (s : string) : option (Z * string) :=
  let s := skip_spaces s in
  let '(sign, s) := match s with
    | String c r => if Ascii.eqb c "-" then (-1, r) else if Ascii.eqb c "+" then (1, r) else (1, s)
    | "" => (1, s)
    end%Z in
  let '(ds, rest) := span_digits s in
  let z := (sign * dec_from 0 ds)%Z in
  if (ds ==? "") || negb ((-9223372036854775808 <=? z)%Z && (z <=? 9223372036854775807)%Z) then None else Some (z, rest).

Definition expect_dot (s : string) : option string :=
  match s with String c r => if Ascii.eqb c "." then Some r else None | "" => None end.

Definition scan_version (s : string) : option (Z * Z * Z) :=
  match scan_int s with
  | Some (a, s) =>
      match expect_dot s with
      | Some s =>
          match scan_int s with
          | Some (b, s) =>
              match expect_dot s with
              | Some s => match scan_int s with Some (c, _) => Some (a, b, c) | None => None end
              | None => None
              end
          | None => None
          end
      | None => None
      end
  | None => None
  end.

Definition bare_version (value : string) : string := TrimPrefix (TrimSpace value) "v".

Definition plainVersionPattern : re :=
  Cat (Lit "v") (Cat (Plus (Cls digit)) (Cat (Lit ".") (Cat (Plus (Cls digit)) (Cat (Lit ".") (Plus (Cls digit)))))).

Definition semverAtLeast (current minimum : string) : bool :=
  let parse value := scan_version (Cut (bare_version value) "-").1.1 in
  if negb (re_match plainVersionPattern minimum) then false
  else
    match parse current, parse minimum with
    | Some (a1, a2, a3), Some (r1, r2, r3) =>
        if negb (a1 =? r1)%Z then (r1 <? a1)%Z
        else if negb (a2 =? r2)%Z then (r2 <? a2)%Z
        else if negb (a3 =? r3)%Z then (r3 <? a3)%Z
        else negb (ContainsByte (bare_version current) "-")
    | _, _ => false
    end.

Definition dockerManifestService (serviceType : string) : string :=
  if serviceType ==? "control_panel" then "control-panel"
  else if serviceType ==? "encoder_recorder" then "encoder-recorder"
  else if serviceType ==? "discord_bot" then "discord-bot"
  else serviceType.

Definition artifact_name (spec : RepoSpec) (version arch : string) : string :=
  Prefix spec +:+ "_" +:+ version +:+ "_linux_" +:+ arch +:+ ".tar.gz".

(** The loop over the artifacts of the component; [seen] has their architectures. *)
Fixpoint select_artifact (spec : RepoSpec) (releaseVersion arch assetName : string) (l : list HostReleaseArtifact.t)
    (seen : list string) (selected : HostReleaseArtifact.t) : result string (list string * HostReleaseArtifact.t) :=
  match l with
  | [] => Ok (seen, selected)
  | artifact :: rest =>
      let aarch := HostReleaseArtifact.Arch artifact in
      if (HostReleaseArtifact.OS artifact !=? "linux") || ((aarch !=? "amd64") && (aarch !=? "arm64")) || bool_decide (aarch ∈ seen) ||
         (HostReleaseArtifact.Name artifact !=? artifact_name spec releaseVersion aarch) ||
         (HostReleaseArtifact.Size artifact <=? 0)%Z || (defaultMaxArtifactBytes <? HostReleaseArtifact.Size artifact)%Z ||
         negb (len (HostReleaseArtifact.SHA256 artifact) =? 64)%Z
      then Err "host release manifest contains invalid artifact metadata"
      else if negb (hex_decodes (HostReleaseArtifact.SHA256 artifact))
      then Err "host release manifest contains an invalid artifact SHA256"
      else
        let selected := if (aarch ==? arch) && (HostReleaseArtifact.Name artifact ==? assetName) then artifact else selected in
        select_artifact spec releaseVersion arch assetName rest (aarch :: seen) selected
  end.

Definition check_component (component : HostReleaseComponent.t) (serviceType : string) (spec : RepoSpec)
    (releaseVersion arch assetName tagCommit : string) : result string HostReleaseArtifact.t :=
  let expectedSchema := if (serviceType ==? "control_panel") || (serviceType ==? "observability") then "backward_compatible" else "none" in
  if (HostReleaseComponent.Service component !=? dockerManifestService serviceType) ||
     (HostReleaseComponent.SourceVersion component !=? releaseVersion) ||
     negb (re_match updaterReleaseCommitPattern (ToLower (HostReleaseComponent.Commit component))) ||
     negb (HostReleaseComponent.RollbackCompatible component)
  then Err "host release component identity or rollback policy is invalid"
  else if (tagCommit !=? "") && (HostReleaseComponent.Commit component !=? tagCommit)
  then Err "host release component commit does not match the immutable release tag"
  else if HostReleaseComponent.DatabaseSchema component !=? expectedSchema then Err "host release database_schema policy is invalid"
  else if negb (Nat.eqb (List.length (HostReleaseComponent.Artifacts component)) 2)
  then Err "host release manifest must contain amd64 and arm64 artifacts"
  else
    let! (seen, selected) := select_artifact spec releaseVersion arch assetName (HostReleaseComponent.Artifacts component) [] HostReleaseArtifact.zero in
    if negb (bool_decide ("amd64" ∈ seen)) || negb (bool_decide ("arm64" ∈ seen)) || (HostReleaseArtifact.Name selected ==? "")
    then Err "host release manifest is missing the requested architecture"
    else Ok selected.

Definition check_manifest (manifest : HostReleaseManifest.t) (serviceType : string) (spec : RepoSpec)
    (releaseVersion arch assetName tagCommit : string) : result string HostReleaseArtifact.t :=
  match HostReleaseManifest.Components manifest with
  | [component] =>
      if negb (HostReleaseManifest.SchemaVersion manifest =? 1)%Z || (HostReleaseManifest.ReleaseID manifest !=? releaseVersion) ||
         (HostReleaseManifest.Channel manifest !=? "host")
      then Err "host release manifest identity is invalid"
      else if negb (parse_rfc3339 (HostReleaseManifest.PublishedAt manifest)) then Err "host release manifest published_at is invalid"
      else if negb (re_match versionPattern (HostReleaseManifest.MinimumAgentVersion manifest)) ||
              negb (semverAtLeast Current (HostReleaseManifest.MinimumAgentVersion manifest))
      then Err "host release requires a newer updater"
      else check_component component serviceType spec releaseVersion arch assetName tagCommit
  | _ => Err "host release manifest identity is invalid"
  end.

Definition validateHostReleaseManifest (p serviceType : string) (spec : RepoSpec) (releaseVersion arch assetName tagCommit : string) :
    prog op (result string HostReleaseArtifact.t) :=
  let? data := call (ReadFile (locate p)) in
  match decode_manifest (limited 4194304 data) with
  | None => Ret (Err "host release manifest is invalid JSON")
  | Some manifest => lift (check_manifest manifest serviceType spec releaseVersion arch assetName tagCommit)
  end.

(** * The download *)

Definition fetch_manifest (assets : resolvedReleaseAssets) (destDir serviceType : string) (spec : RepoSpec) (version arch assetName : string) :
    prog op (result string HostReleaseArtifact.t) :=
  let manifestPath := Join [destDir; "release-manifest.json"] in
  let? digest := downloadResolvedReleaseAsset (Manifest assets) manifestPath 4194304 in
  let? _ := downloadResolvedReleaseAsset (ManifestChecksum assets) (manifestPath +:+ ".sha256") 65536 in
  let* expected := readSHA256File (manifestPath +:+ ".sha256") "release-manifest.json" in
  if match expected with Ok e => negb (EqualFold e digest) | Err _ => true end
  then Ret (Err "host release manifest SHA256 sidecar does not match")
  else validateHostReleaseManifest manifestPath serviceType spec version arch assetName (TagCommit assets).

(** The digest of the archive. *)
Definition fetch_archive (assets : resolvedReleaseAssets) (destDir assetName : string) (expected : HostReleaseArtifact.t) :
    prog op (result string string) :=
  let archivePath := Join [destDir; assetName] in
  let? digest := downloadResolvedReleaseAsset (Archive assets) archivePath (limit_or (MaxArtifactBytes d) defaultMaxArtifactBytes) in
  let? _ := downloadResolvedReleaseAsset (ArchiveChecksum assets) (archivePath +:+ ".sha256") 1048576 in
  let? recorded := readSHA256File (archivePath +:+ ".sha256") assetName in
  if negb (EqualFold recorded digest) then Ret (Err "release artifact SHA256 does not match sidecar")
  else
    let* st := call (Stat (locate archivePath)) in
    match st with
    | Ok n =>
        Ret (if negb (Node.bytes_of n =? HostReleaseArtifact.Size expected)%Z || negb (EqualFold digest (HostReleaseArtifact.SHA256 expected))
             then Err "release artifact does not match the host release manifest" else Ok digest)
    | Err _ => Ret (Err "release artifact does not match the host release manifest")
    end.

Definition unpack_archive (destDir assetName : string) : prog op (result string string) :=
  let? root := ExtractTarGz (Join [destDir; assetName]) (Join [destDir; "extracted"])
    (limit_or (MaxExtractBytes d) defaultMaxExtractBytes) (limit_or (MaxEntries d) defaultMaxEntries) in
  let? _ := VerifyInnerChecksums root in
  Ret (Ok root).

Definition Download (serviceType version arch destDir : string) : prog op (result string DownloadedArtifact) :=
  match repository serviceType with
  | None => Ret (Err "service type has no release repository")
  | Some spec =>
      if negb (re_match versionPattern version) then Ret (Err "target version is invalid")
      else if (arch !=? "amd64") && (arch !=? "arm64") then Ret (Err "only amd64 and arm64 host artifacts are supported")
      else
        let? _ := MkdirAll (locate destDir) o700 in
        let assetName := artifact_name spec version arch in
        let? assets := resolveAssets spec version assetName in
        let? manifestArtifact := fetch_manifest assets destDir serviceType spec version arch assetName in
        let? digest := fetch_archive assets destDir assetName manifestArtifact in
        let? root := unpack_archive destDir assetName in
        Ret (Ok {| ArchivePath := Join [destDir; assetName]; RootDir := root; SHA256 := digest; AssetName := assetName |})
  end.
End Download.

Example semver_1 : semverAtLeast "v1.10.0" "v1.9.9" = true. Proof. vm_compute. reflexivity. Qed.
Example semver_2 : semverAtLeast "v1.9.9-rc.1" "v1.9.9" = false. Proof. vm_compute. reflexivity. Qed.
Example semver_3 : semverAtLeast "dev" "v0.0.1" = false. Proof. vm_compute. reflexivity. Qed.
