(* ===== verification/ReleaseSafety.v ===== *)
(** A downloaded release is the one its manifest describes: every successful download is
    bound to the release manifest, and in the credential-free mode to the immutable
    release and tag on GitHub; and the manifest determines the whole unpacked tree. *)
From Stdlib Require Import Ascii String ZArith Lia.
From stdpp Require Import base decidable list strings gmap.
From S2P Require Import Prelude Strings Regexp Patterns Sha256 Json Paths DockerPin Effects FileTree Artifact ArchivePaths ArtifactTree ArtifactChecks Release.

Open Scope string_scope.

(** * What every program keeps *)

(** A well-formed tree stays one, and what was heard is not forgotten. *)
Definition follows (w v : world) : Prop := (closed (fs w) -> closed (fs v)) /\ traffic w ⊆ traffic v.

#[global] Instance follows_preorder : PreOrder follows.
Proof.
  split; [by split|]. intros u v w [Hc Ht] [Hc' Ht']. split; [auto|]. by transitivity (traffic v).
Qed.

Lemma closed_delete_file t k : closed t -> dir_at t k = false -> closed (delete k t).
Proof.
  intros Hc Hf c p n Hn. destruct (decide (k = c :: p)) as [->|Hne]; [by rewrite lookup_delete_eq in Hn|].
  rewrite lookup_delete_ne in Hn by done. apply Hc in Hn. unfold dir_at in *.
  destruct (decide (k = p)) as [->|Hp]; [congruence|]. by rewrite lookup_delete_ne.
Qed.

Lemma closed_rename t from to mode data :
  closed t -> t !! from = Some (Node.File mode data) -> dir_at t to = false -> dir_at t (tail to) = true ->
  closed (<[to := Node.File mode data]> (delete from t)).
Proof.
  intros Hc Hfrom Hto Hparent. assert (Hff : dir_at t from = false) by (unfold dir_at; by rewrite Hfrom).
  apply closed_insert; [by apply closed_delete_file|].
  destruct to as [|x p]; cbn [tail] in Hparent; [congruence|].
  destruct (delete from t !! (x :: p)) as [n|] eqn:En.
  - right. exists n. split; [done|]. unfold dir_at in Hto. apply lookup_delete_Some in En as [_ En]. by rewrite En in Hto.
  - left. cbn. rewrite En, andb_true_r. unfold dir_at in *. rewrite lookup_delete_ne; [done|]. intros ->. congruence.
Qed.

Lemma append_to_closed k data w w' : append_to k data w = Some w' -> closed (fs w) -> closed (fs w').
Proof.
  unfold append_to. destruct (fs w !! k) as [[]|] eqn:Ek; try discriminate. intros [= <-] Hc. cbn.
  apply closed_insert; [done|right]. by eexists.
Qed.

Lemma handle_closed {X} (o : op X) ans x w w' : handle o ans w = Some (x, w') -> closed (fs w) -> closed (fs w').
Proof.
  intros E Hc. destruct o; cbn in E;
    repeat match type of E with
    | (if ?b then _ else _) = _ => destruct b eqn:?; try discriminate E
    | match ?y with _ => _ end = _ => destruct y eqn:?; try discriminate E
    end; try (injection E as <- <-); try done; cbn.
  all: try (destruct (vacant _ _) eqn:Hv; injection E as <- <-; cbn; [apply closed_insert; auto|done]).
  all: try by eapply append_to_closed.
  { apply closed_insert; [done|right]. eexists. split; [done|].
    match goal with H : Node.set_mode _ ?n = Some _ |- _ => destruct n; try discriminate H; by injection H as <- end. }
  { bool_to_prop. apply closed_rename; auto. }
  all: try (bool_to_prop; eauto using closed_remove_tree, closed_remove_trees, closed_move).
  all: apply closed_delete_file; [done|]; unfold dir_at; match goal with H : fs _ !! _ = _ |- _ => by rewrite H end.
Qed.

Lemma handle_traffic {X} (o : op X) ans x w w' : handle o ans w = Some (x, w') -> traffic w ⊆ traffic w'.
Proof.
  intros E. destruct o; cbn in E;
    repeat match type of E with
    | (if ?b then _ else _) = _ => destruct b eqn:?; try discriminate E
    | match ?y with _ => _ end = _ => destruct y eqn:?; try discriminate E
    end; try (injection E as <- <-); try done; cbn; try set_solver.
  all: try (destruct (vacant _ _); by injection E as <- <-).
  all: match goal with H : append_to _ _ _ = Some _ |- _ => unfold append_to in H; destruct (fs _ !! _) as [[]|]; try discriminate H; by injection H as <- end.
Qed.

Lemma handle_follows {X} (o : op X) ans x w w' : handle o ans w = Some (x, w') -> follows w w'.
Proof. intros E. split; eauto using handle_closed, handle_traffic. Qed.

(** Programs without a condition on the way. *)
Definition anywhere (w : world) : Prop := True.
#[export] Hint Extern 0 (anywhere _) => exact I : core.

Lemma only_any {A} (p : prog op A) : only (fun _ _ => True) p.
Proof. induction p as [a|X o k IH]; cbn; auto. Qed.

Lemma wp_follows {A} (p : prog op A) Q w : wp anywhere p Q w -> wp anywhere p (fun a v => follows w v /\ Q a v) w.
Proof.
  intros Hp. assert (Hf : wp (follows w) p (fun _ => follows w) w).
  { apply (wp_only (fun _ _ => True)); [|apply only_any|done].
    intros X o ans x u u' _ Hu E. transitivity u; [done|by eapply handle_follows]. }
  eapply wp_weaken; [|eapply wp_mono; [|apply (wp_and _ _ _ _ _ _ Hf Hp)]]; done.
Qed.

Section Network.
Context `{UnicodeTables} `{ArchiveFormat} `{Formats} `{BuildInfo}.
Context (d : ReleaseDownloader).

(** * What GitHub said *)

(** Some request was answered with status 200 and a body that decodes to [x]. *)
Definition heard {A} (decode : string -> option A) (x : A) (v : world) : Prop :=
  exists req length body complete, (req, Final 200 length body complete) ∈ traffic v /\ decode (limited 4194304 body) = Some x.

Lemma heard_follows {A} (decode : string -> option A) x w v : follows w v -> heard decode x w -> heard decode x v.
Proof. intros [_ Ht] (req & l & body & c & Hin & ?). exists req, l, body, c. split; [by apply Ht|done]. Qed.

Lemma RoundTrip_wp req (Q : result string Response -> world -> Prop) w :
  Q (Err failed) w -> (forall resp, Q (Ok resp) (w <| traffic := (req, resp) :: traffic w |>)) ->
  wp anywhere (call (RoundTrip req)) Q w.
Proof.
  intros He Hr. apply wp_call; [done|]. intros ans x w' E. cbn in E. destruct ans; try discriminate E; injection E as <- <-; auto.
Qed.

Lemma follow_wp left via firstHost token req w :
  wp anywhere (follow d left via firstHost token req)
    (fun r v => fs v = fs w /\ forall status length body complete, r = Ok (status, length, body, complete) ->
       exists req', (req', Final status length body complete) ∈ traffic v) w.
Proof.
  revert via req w. induction left as [|left IH]; intros via req w; cbn [follow]; wp_step; apply RoundTrip_wp; try done;
    intros [location|st l b c]; cbv beta iota.
  1,3: destruct (parse_url location) as [u|]; [|by wp_step]; wp_step; wp_step; [done|]; destruct (checkRedirect _ _ _) as [[]|];
       [|done].
  - by wp_step.
  - eapply wp_mono; [|apply IH]. by intros r v _ [-> ?].
  - wp_step; [done|]. split; [done|]. intros ? ? ? ? [= <- <- <- <-]. exists req. cbn. apply list_elem_of_here.
  - wp_step; [done|]. split; [done|]. intros ? ? ? ? [= <- <- <- <-]. exists req. cbn. apply list_elem_of_here.
Qed.

Lemma perform_wp raw w :
  wp anywhere (perform d raw)
    (fun r v => fs v = fs w /\ forall status length body complete, r = Ok (status, length, body, complete) ->
       exists req, (req, Final status length body complete) ∈ traffic v) w.
Proof.
  unfold perform. wp_step. wp_step; [done|]. destruct (newRequest d raw) as [[req host]|e]; [|done]. apply follow_wp.
Qed.

Lemma getJSON_wp {A} (decode : string -> option A) raw w :
  wp anywhere (getJSON d decode raw) (fun r v => fs v = fs w /\ forall x, r = Ok x -> heard decode x v) w.
Proof.
  unfold getJSON. wp_step. eapply wp_mono; [|apply perform_wp]. intros [[[[status l] body] c]|e] v _ [Hfs Hr]; [|by split].
  destruct (status =? 200)%Z eqn:Es; cbn [negb]; [|by wp_step]. apply Z.eqb_eq in Es as ->.
  destruct (decode _) as [x|] eqn:Ed; [|by wp_step]. wp_step; [done|]. split; [done|]. intros x' [= <-].
  destruct (Hr _ _ _ _ eq_refl) as [req Hin]. by exists req, l, body, c.
Qed.

(** The object is the target of the tag reference, or of a tag on the way from there. *)
Definition tagged (object : GitObject.t) (v : world) : Prop := heard decode_ref object v \/ heard decode_tag object v.

Lemma tagged_follows object w v : follows w v -> tagged object w -> tagged object v.
Proof. intros Hf [?|?]; [left|right]; by eapply heard_follows. Qed.

Lemma dereference_wp base spec left seen object w :
  tagged object w ->
  wp anywhere (dereference d base spec left seen object)
    (fun r v => fs v = fs w /\ forall o, r = Ok o -> tagged o v) w.
Proof.
  revert seen object w. induction left as [|left IH]; intros seen object w Ho; cbn [dereference]; case_bool_decide.
  1,2,4: wp_step; [done|]; split; [done|]; by intros o [= <-].
  destruct (negb _); [by wp_step|]. case_bool_decide; [by wp_step|]. wp_step.
  eapply wp_mono; [|apply getJSON_wp]. intros [next|e] v _ [Hfs Hr]; [|by split]. 
  eapply wp_mono; [|apply IH; right; by apply Hr]. intros r u _ [Hu ?]. split; [congruence|done].
Qed.

Lemma resolve_commit_wp base spec version w :
  wp anywhere (resolveTrustedReleaseTagCommit d base spec version)
    (fun r v => fs v = fs w /\ forall c, r = Ok c -> c <> "" /\
       exists object, tagged object v /\ GitObject.Type_ object = "commit" /\ GitObject.SHA object = c) w.
Proof.
  unfold resolveTrustedReleaseTagCommit. wp_step. eapply wp_mono; [|apply getJSON_wp]. intros [ref|e] v _ [Hfs Hr]; [|by split].
  wp_step. eapply wp_mono; [|apply dereference_wp; left; by apply Hr]. intros [object|e] u _ [Hu Ho]; [|split; [congruence|done]].
  destruct (_ || _) eqn:Hb; [wp_step; [done|]; split; [congruence|done]|]. bool_to_prop.
  wp_step; [done|]. split; [congruence|]. intros c [= <-]. split.
  - eapply re_match_nonempty; [eassumption|]. done.
  - exists object. split_and!; auto.
Qed.

Lemma unique_assets_elem l assets assets' name a :
  unique_assets l assets = Ok assets' -> assets' !! name = Some a -> assets !! name = Some a \/ (a ∈ l /\ Asset.Name a = name).
Proof.
  revert assets. induction l as [|x l IH]; intros assets E Ha; cbn in E; [injection E as <-; by left|].
  case_bool_decide; [done|]. destruct (IH _ E Ha) as [Hi|[Hin ?]].
  - rewrite lookup_insert in Hi. case_decide; [|by left]. injection Hi as <-. right. split; [apply list_elem_of_here|done].
  - right. split; [by apply list_elem_of_further|done].
Qed.

(** In the credential-free mode the assets are those of an immutable release for the tag,
    and the commit is the one the tag leads to. *)
Record provenance (version assetName : string) (assets : resolvedReleaseAssets) (v : world) : Prop := {
  pv_release : exists release, heard decode_release release v /\ validateTrustedPublicReleaseMetadata release version = Ok tt /\
    (Archive assets ∈ Release.Assets release /\ Asset.Name (Archive assets) = assetName) /\
    (Manifest assets ∈ Release.Assets release /\ Asset.Name (Manifest assets) = "release-manifest.json");
  pv_commit : TagCommit assets <> "" /\
    exists object, tagged object v /\ GitObject.Type_ object = "commit" /\ GitObject.SHA object = TagCommit assets;
}.

Lemma provenance_follows version assetName assets w v :
  follows w v -> provenance version assetName assets w -> provenance version assetName assets v.
Proof.
  intros Hf [(rel & Hr & Hm & Ha) (Hc & o & Ho & ?)]. split.
  - exists rel. split; [by eapply heard_follows|done].
  - split; [done|]. exists o. split; [by eapply tagged_follows|done].
Qed.

Lemma resolveAssets_wp spec version assetName w :
  wp anywhere (resolveAssets d spec version assetName)
    (fun r v => fs v = fs w /\ forall assets, r = Ok assets -> TrustedPublicOnly d = true -> provenance version assetName assets v) w.
Proof.
  unfold resolveAssets. wp_step. wp_step; [done|]. destruct (validateTrustedPublicRepository _ _ _) as [[]|e]; [|done].
  wp_step. eapply wp_mono; [|apply getJSON_wp]. intros [release|e] v _ [Hfs Hr]; [|by split]. specialize (Hr release eq_refl).
  wp_step. wp_step; [done|]. destruct (if TrustedPublicOnly d then _ else _) as [[]|e] eqn:Hm; [|by split].
  wp_step. wp_step; [done|]. destruct (uniqueReleaseAssets release) as [assets|e] eqn:Hu; [|by split].
  destruct (_ && _); [by wp_step|].
  assert (Hin : forall name a, assets !! name = Some a -> a ∈ Release.Assets release /\ Asset.Name a = name).
  { intros name a Ha. destruct (unique_assets_elem _ _ _ _ _ Hu Ha) as [E|?]; [by rewrite lookup_empty in E|done]. }
  destruct (assets !! assetName) as [archive|] eqn:E1; [|by wp_step].
  destruct (assets !! (assetName +:+ _)) as [checksum|]; [|by wp_step].
  destruct (assets !! "release-manifest.json") as [manifest|] eqn:E3; [|by wp_step].
  destruct (assets !! "release-manifest.json.sha256") as [mchecksum|]; [|by wp_step].
  destruct (forallb _ _); [|by wp_step]. wp_step. destruct (TrustedPublicOnly d).
  - eapply wp_mono; [|apply wp_follows, resolve_commit_wp]. intros [c|e] u _ (Hf & Hu' & Hc); [|split; [congruence|done]].
    wp_step; [done|]. split; [congruence|]. intros assets' [= <-] _. split; cbn; [|by apply Hc].
    exists release. split_and!; [by eapply heard_follows|done|by apply (Hin assetName)..| |]; by apply (Hin "release-manifest.json").
  - by wp_step.
Qed.
End Network.

(** * Files *)

Lemma Rename_wp from to (Q : check -> world -> Prop) w :
  Q (Err failed) w ->
  (forall mode data, fs w !! from = Some (Node.File mode data) ->
     Q (Ok tt) (put to (Node.File mode data) (w <| fs := delete from (fs w) |>))) ->
  wp anywhere (call (Rename from to)) Q w.
Proof.
  intros He Hr. apply wp_call; [done|]. intros ans x w' E. split; [done|]. cbn in E. destruct (linked _ _ || _); [done|].
  destruct ans; try discriminate E; [|by injection E as <- <-].
  destruct (fs w !! from) as [[]|] eqn:Ef; try (by injection E as <- <-).
  destruct (_ || _); injection E as <- <-; [done|]. by apply Hr.
Qed.

Lemma Remove_wp k (Q : unit -> world -> Prop) w :
  Q tt w -> Q tt (w <| fs := delete k (fs w) |>) -> wp anywhere (call (Remove k)) Q w.
Proof.
  intros He Hr. apply wp_call; [done|]. intros [] w' u E; try done; cbn in E; destruct (linked _ _); try discriminate E.
  - destruct (fs w !! k) as [[]|]; try discriminate E; by injection E as <- <-.
  - by injection E as <- <-.
Qed.

Section Files.
Context `{UnicodeTables} `{ArchiveFormat} `{Formats} `{BuildInfo}.
Context (d : ReleaseDownloader).

(** [dest] holds bytes with the digest; beside it only its temporary file may have changed. *)
Definition fetched (dest digest : string) (w v : world) : Prop :=
  (exists mode data, fs v !! locate dest = Some (Node.File mode data) /\ digest = sha256_hex data) /\
  forall k, k <> locate dest -> k <> locate (dest +:+ ".part") -> fs v !! k = fs w !! k.

Lemma store_wp tmp dest data read_ok max mode w :
  fs w !! tmp = Some (Node.File mode "") ->
  wp anywhere (store tmp dest data read_ok max)
    (fun r v => forall digest, r = Ok digest ->
       fs v !! dest = Some (Node.File mode data) /\ digest = sha256_hex data /\
       forall k, k <> dest -> k <> tmp -> fs v !! k = fs w !! k) w.
Proof.
  intros Ht. unfold store. wp_step. eapply Write_wp; [done|done|done|done|]. cbn zeta. split; [done|].
  destruct read_ok; cbn [negb]; [|by wp_step]. destruct (max <? len data)%Z; [by wp_step|].
  wp_step. apply Sync_wp; [done| |done]. wp_step. apply Close_wp; [done| |done]. wp_step. apply Rename_wp; [done|].
  intros m0 dt Hm. rewrite lookup_put, decide_True in Hm by done. injection Hm as <- <-. wp_step; [done|].
  intros digest [= <-]. split_and!; [by rewrite lookup_put, decide_True|done|].
  intros k Hk Hk'. rewrite lookup_put, decide_False by done. cbn. by rewrite lookup_delete_ne, lookup_insert_ne by done.
Qed.

Lemma downloadFile_wp raw dest max w :
  wp anywhere (downloadFile d raw dest max) (fun r v => forall digest, r = Ok digest -> fetched dest digest w v) w.
Proof.
  unfold downloadFile. wp_step. eapply wp_mono; [|apply perform_wp]. intros [[[[status l] body] c]|e] v _ [Hfs _]; [|done].
  destruct (status =? 200)%Z; cbn [negb]; [|by wp_step]. destruct (max <? l)%Z; [by wp_step|].
  wp_step. apply Create_wp; [done|done|]. intros Hv. cbn zeta. split; [done|]. wp_step. eapply wp_mono; [|eapply store_wp; by rewrite lookup_put, decide_True].
  intros [digest|e] u _ Hu; cbv beta iota.
  - wp_step; [done|]. intros digest' [= <-]. destruct (Hu digest eq_refl) as (Hd & -> & Hk). split; [by eexists _, _|].
    intros k Hk1 Hk2. rewrite Hk, lookup_put, decide_False by done. congruence.
  - wp_step. apply Close_wp; [done|..]; wp_step; apply Remove_wp; by wp_step.
Qed.

Lemma ToLower_sha data : ToLower (sha256_hex data) = sha256_hex data.
Proof. apply ToLower_not_upper, sha256_not_upper. Qed.

Lemma downloadResolved_wp asset dest max w :
  wp anywhere (downloadResolvedReleaseAsset d asset dest max)
    (fun r v => forall digest, r = Ok digest -> fetched dest digest w v /\
       (TrustedPublicOnly d = true -> Asset.Digest asset = "sha256:" +:+ digest)) w.
Proof.
  unfold downloadResolvedReleaseAsset. wp_step. eapply wp_mono; [|apply downloadFile_wp]. intros [digest|e] v _ Hv; [|done].
  specialize (Hv digest eq_refl). destruct (_ && _) eqn:Hb.
  - wp_step. apply Remove_wp; by wp_step.
  - wp_step; [done|]. intros digest' [= <-]. split; [done|]. intros Ht. rewrite Ht in Hb. cbn in Hb.
    apply negb_false_iff, bool_decide_eq_true in Hb. rewrite Hb. destruct Hv as [(m & data & _ & ->) _]. by rewrite ToLower_sha.
Qed.

Lemma readSHA256File_wp p name w : wp anywhere (readSHA256File p name) (fun _ v => v = w) w.
Proof. unfold readSHA256File. wp_step. apply ReadFile_wp; [done|done|]. intros mode data _. by wp_step. Qed.
End Files.

(** ** The names in the download directory *)

Lemma join_with_snoc cs c s : join_with "/" (cs ++ [c +:+ s]) = join_with "/" (cs ++ [c]) +:+ s.
Proof.
  induction cs as [|x cs IH]; [done|]. destruct cs as [|y cs]; cbn [List.app join_with] in *; rewrite ?IH; by rewrite !str_app_assoc.
Qed.

Lemma locate_extended p c s :
  IsAbs p = true -> good c -> good (c +:+ s) -> locate (Join [p; c] +:+ s) = (c +:+ s) :: locate p.
Proof.
  intros Ha Hc Hs. assert (Hj : Join [p; c] = render true (clean_components p ++ [c])).
  { rewrite Join_two; [|by apply IsAbs_nonempty|by destruct Hc as [(? & _) _]]. unfold Clean.
    assert (Hsp : Split c slash = [c]) by (apply Split_single; apply Hc).
    rewrite (IsAbs_app p _ Ha), clean_below, Hsp; [done|done|]. rewrite Hsp. by constructor. }
  rewrite Hj. cbn [render]. rewrite str_app_assoc, <- join_with_snoc.
  change ("/" +:+ join_with "/" (clean_components p ++ [c +:+ s])) with (render true (clean_components p ++ [c +:+ s])).
  unfold locate. rewrite clean_render, rev_app_distr; [done|]. apply Forall_app. split; [by apply clean_components_good|by constructor].
Qed.

Lemma asset_good spec version arch serviceType :
  repository serviceType = Some spec -> re_match versionPattern version = true -> arch = "amd64" \/ arch = "arm64" ->
  exists t, artifact_name spec version arch = String "a" t /\ no_byte slash t = true.
Proof.
  intros Hr Hv Ha. unfold artifact_name.
  assert (Hp : exists t, Prefix spec = String "a" t /\ no_byte slash t = true).
  { unfold repository in Hr. destruct (find _ _) as [e|] eqn:Ef; [|done]. injection Hr as <-. apply find_some in Ef as [Hin _].
    repeat destruct Hin as [<-|Hin]; [by eexists..|done]. }
  destruct Hp as (t & -> & Ht). eexists. split; [reflexivity|].
  assert (Hver : no_byte slash version = true).
  { apply (re_match_within _ versionPattern); [done|]. by vm_compute. }
  unfold no_byte in *. rewrite !str_forall_app, Ht, Hver. by destruct Ha as [->| ->].
Qed.

(** * The bound release *)

Section Bound.
Context `{UnicodeTables} `{ArchiveFormat} `{Formats} `{BuildInfo}.
Context (d : ReleaseDownloader) (destDir : string) (Habs : IsAbs destDir = true).

Definition manifest_name : string := "release-manifest.json".

(** The release manifest on disk was accepted and describes [artifact]. *)
Definition manifest_on_disk (serviceType : string) (spec : RepoSpec) (version arch assetName tagCommit mdata : string)
    (artifact : HostReleaseArtifact.t) (v : world) : Prop :=
  (exists mode, fs v !! locate (Join [destDir; manifest_name]) = Some (Node.File mode mdata)) /\
  exists manifest, decode_manifest (limited 4194304 mdata) = Some manifest /\
    check_manifest manifest serviceType spec version arch assetName tagCommit = Ok artifact.

Lemma validate_wp p serviceType spec version arch assetName tagCommit w :
  wp anywhere (validateHostReleaseManifest p serviceType spec version arch assetName tagCommit)
    (fun r v => v = w /\ forall artifact, r = Ok artifact -> exists mode mdata manifest,
       fs w !! locate p = Some (Node.File mode mdata) /\ decode_manifest (limited 4194304 mdata) = Some manifest /\
       check_manifest manifest serviceType spec version arch assetName tagCommit = Ok artifact) w.
Proof.
  unfold validateHostReleaseManifest. wp_step. apply ReadFile_wp; [done|done|]. intros mode mdata Hm.
  destruct (decode_manifest _) as [manifest|] eqn:Ed; [|by wp_step]. wp_step; [done|]. split; [done|].
  intros artifact Ha. by exists mode, mdata, manifest.
Qed.

Lemma literal_good : good manifest_name /\ good (manifest_name +:+ ".sha256") /\ good (manifest_name +:+ ".sha256" +:+ ".part") /\ good "extracted".
Proof. by split_and!. Qed.

Lemma fetch_manifest_wp assets serviceType spec version arch assetName w :
  wp anywhere (fetch_manifest d assets destDir serviceType spec version arch assetName)
    (fun r v => forall artifact, r = Ok artifact -> exists mdata,
       manifest_on_disk serviceType spec version arch assetName (TagCommit assets) mdata artifact v /\
       (TrustedPublicOnly d = true -> Asset.Digest (Manifest assets) = "sha256:" +:+ sha256_hex mdata)) w.
Proof using Habs.
  destruct literal_good as (G1 & G2 & G3 & _). unfold fetch_manifest. fold manifest_name. set (mpath := Join [destDir; manifest_name]).
  assert (L1 : locate mpath = manifest_name :: locate destDir) by by apply Join_component.
  wp_step. eapply wp_mono; [|apply downloadResolved_wp]. intros [digest|e] v1 _ Hfst; [|done].
  destruct (Hfst digest eq_refl) as [[(m & mdata & Hm & ->) _] Ht]. clear Hfst.
  wp_step. eapply wp_mono; [|apply downloadResolved_wp]. intros [digest|e] v2 _ Hsnd; [|done].
  destruct (Hsnd digest eq_refl) as [[_ Hframe] _]. clear Hsnd.
  assert (Hkeep : fs v2 !! locate mpath = Some (Node.File m mdata)).
  { rewrite Hframe; [done|..]; unfold mpath; rewrite ?str_app_assoc, locate_extended by done; fold mpath; rewrite L1; done. }
  wp_step. eapply wp_mono; [|apply readSHA256File_wp]. intros expected v3 _ ->.
  destruct (match expected with Ok _ => _ | Err _ => _ end); [by wp_step|].
  eapply wp_mono; [|apply validate_wp]. intros r v3 _ [-> Hr] artifact Hart.
  destruct (Hr artifact Hart) as (m' & mdata' & manifest & Hm' & ? & ?). fold mpath in Hm'. rewrite Hkeep in Hm'. injection Hm' as <- <-.
  exists mdata. split; [|done]. split; [by exists m|by exists manifest].
Qed.

(** The archive on disk is the artifact. *)
Definition archive_on_disk (assetName digest adata : string) (artifact : HostReleaseArtifact.t) (v : world) : Prop :=
  (exists mode, fs v !! locate (Join [destDir; assetName]) = Some (Node.File mode adata)) /\
  digest = sha256_hex adata /\ len adata = HostReleaseArtifact.Size artifact /\
  EqualFold digest (HostReleaseArtifact.SHA256 artifact) = true.

(** A name like that of an archive. *)
Definition asset_like (assetName : string) : Prop := exists t, assetName = String "a" t /\ no_byte slash t = true.

Lemma asset_like_good assetName s : asset_like assetName -> no_byte slash s = true -> good (assetName +:+ s).
Proof.
  intros (t & -> & Ht) Hs. split; [|done]. unfold solid. split_and!; try done. unfold no_byte in *.
  rewrite str_forall_app, Hs. cbn [str_forall]. by rewrite Ht.
Qed.

Lemma longer_name (s t : string) : t <> "" -> s <> s +:+ t.
Proof. intros Ht E. apply (f_equal String.length) in E. rewrite length_str_app in E. destruct t; [done|]. cbn in E. lia. Qed.

Lemma fetch_archive_wp assets assetName artifact w :
  asset_like assetName ->
  wp anywhere (fetch_archive d assets destDir assetName artifact)
    (fun r v => forall digest, r = Ok digest ->
       fs v !! locate (Join [destDir; manifest_name]) = fs w !! locate (Join [destDir; manifest_name]) /\
       exists adata, archive_on_disk assetName digest adata artifact v /\
       (TrustedPublicOnly d = true -> Asset.Digest (Archive assets) = "sha256:" +:+ digest)) w.
Proof using Habs.
  intros Ha. destruct literal_good as (G1 & _).
  assert (G : forall s, no_byte slash s = true -> good (assetName +:+ s)) by by intros; apply asset_like_good.
  assert (G0 : good assetName) by (rewrite <- (str_app_nil_r assetName); by apply G).
  unfold fetch_archive. set (apath := Join [destDir; assetName]).
  assert (L1 : locate apath = assetName :: locate destDir) by by apply Join_component.
  assert (LM : locate (Join [destDir; manifest_name]) = manifest_name :: locate destDir) by by apply Join_component.
  assert (L : forall s, no_byte slash s = true -> locate (apath +:+ s) = (assetName +:+ s) :: locate destDir).
  { intros s Hs. apply locate_extended; auto. }
  assert (HM : forall s, manifest_name :: locate destDir <> (assetName +:+ s) :: locate destDir) by by destruct Ha as (t & -> & _).
  wp_step. eapply wp_mono; [|apply downloadResolved_wp]. intros [digest|e] v1 _ Hfst; [|done].
  destruct (Hfst digest eq_refl) as [[(m & adata & Hm & ->) F1] Ht]. clear Hfst.
  wp_step. eapply wp_mono; [|apply downloadResolved_wp]. intros [digest|e] v2 _ Hsnd; [|done].
  destruct (Hsnd digest eq_refl) as [[_ F2] _]. clear Hsnd. rewrite ?str_app_assoc, !L in * by done. rewrite L1, LM in *.
  assert (Hkeep : fs v2 !! (assetName :: locate destDir) = Some (Node.File m adata)).
  { rewrite F2; [done|intros [= E]; by apply longer_name in E..]. }
  assert (Hman : fs v2 !! (manifest_name :: locate destDir) = fs w !! (manifest_name :: locate destDir)).
  { rewrite F2 by apply HM. apply F1; [|apply HM]. rewrite <- (str_app_nil_r assetName). apply HM. }
  wp_step. eapply wp_mono; [|apply readSHA256File_wp]. intros [recorded|e] v3 _ ->; [|done].
  destruct (negb _); [by wp_step|]. wp_step. apply Stat_wp; [done|by wp_step|]. intros n Hn. wp_step; [done|].
  rewrite Hkeep in Hn. injection Hn as <-. destruct (_ || _) eqn:Hb; [done|]. bool_to_prop. intros digest' [= <-].
  split; [done|]. exists adata. split; [|done]. split; [exists m; unfold apath in L1; by rewrite L1|].
  split_and!; [done|by apply Z.eqb_eq|done].
Qed.
End Bound.

Section Whole.
Context `{UnicodeTables} `{ArchiveFormat} `{Formats} `{BuildInfo}.

(** Everything a successful download says about the disk: the accepted manifest, the
    archive it describes, the tree unpacked from it, its verified checksums; and in the
    credential-free mode the release, tag and commit they come from. *)
Record bound_release (d : ReleaseDownloader) (serviceType version arch destDir : string) (art : DownloadedArtifact) (v : world)
    (spec : RepoSpec) (tagCommit mdata adata : string) (artifact : HostReleaseArtifact.t) (items : list (Header * string)) : Prop := {
  br_spec : repository serviceType = Some spec;
  br_name : AssetName art = artifact_name spec version arch /\ ArchivePath art = Join [destDir; AssetName art];
  br_manifest : manifest_on_disk destDir serviceType spec version arch (AssetName art) tagCommit mdata artifact v;
  br_archive : archive_on_disk destDir (AssetName art) (SHA256 art) adata artifact v;
  br_items : exists a, gunzip_untar adata = Some a /\ items_of a = Some items;
  br_tree : unpacked (Join [destDir; "extracted"]) (RootDir art) items v;
  br_checks : exists data listed, verified (RootDir art) [] data listed (fs v);
  br_trusted : TrustedPublicOnly d = true -> exists assets, TagCommit assets = tagCommit /\
    provenance version (AssetName art) assets v /\
    Asset.Digest (Manifest assets) = "sha256:" +:+ sha256_hex mdata /\ Asset.Digest (Archive assets) = "sha256:" +:+ SHA256 art;
}.

Definition bound (d : ReleaseDownloader) (serviceType version arch destDir : string) (art : DownloadedArtifact) (v : world) : Prop :=
  exists spec tagCommit mdata adata artifact items,
    bound_release d serviceType version arch destDir art v spec tagCommit mdata adata artifact items.

Lemma limit_or_positive configured fallback : (0 <= fallback)%Z -> (0 <= limit_or configured fallback)%Z.
Proof. unfold limit_or. intros ?. destruct (configured <=? 0)%Z eqn:E; [done|]. bool_to_prop. lia. Qed.

Lemma manifest_kept destDir serviceType spec version arch assetName tagCommit mdata artifact w v :
  (forall k n, fs w !! k = Some n -> fs v !! k = Some n) ->
  manifest_on_disk destDir serviceType spec version arch assetName tagCommit mdata artifact w ->
  manifest_on_disk destDir serviceType spec version arch assetName tagCommit mdata artifact v.
Proof. intros Hk [(m & Hm) ?]. split; [exists m; auto|done]. Qed.

Lemma unpack_wp d destDir assetName w :
  IsAbs destDir = true -> closed (fs w) ->
  wp anywhere (unpack_archive d destDir assetName)
    (fun r v => forall root, r = Ok root ->
       (forall k n, fs w !! k = Some n -> fs v !! k = Some n) /\
       extraction_done (Join [destDir; assetName]) (Join [destDir; "extracted"]) w root v /\
       exists data listed, verified root [] data listed (fs v)) w.
Proof.
  intros Ha Hc. destruct literal_good as (_ & _ & _ & Ge). destruct (Join_component destDir "extracted" Ha Ge) as [Hx _].
  unfold unpack_archive. wp_step. eapply wp_weaken; [|eapply wp_mono; [|apply ExtractTarGz_wp]]; [done| |done|done|by apply limit_or_positive..].
  intros [root|e] v Iv Hv; [|done]. wp_step. unfold VerifyInnerChecksums.
  eapply wp_mono; [|by apply verifyInnerChecksums_wp]. intros [[]|e] u _ [-> Hu]; [|done]. wp_step; [done|].
  intros root' [= <-]. split_and!; [apply Iv|done|by apply Hu].
Qed.

Lemma Download_wp d serviceType version arch destDir w :
  IsAbs destDir = true -> closed (fs w) ->
  wp anywhere (Download d serviceType version arch destDir)
    (fun r v => forall art, r = Ok art -> bound d serviceType version arch destDir art v) w.
Proof.
  intros Ha Hc. unfold Download. destruct (repository serviceType) as [spec|] eqn:Es; [|by wp_step].
  destruct (re_match versionPattern version) eqn:Ev; cbn [negb]; [|by wp_step].
  destruct ((arch !=? "amd64") && _) eqn:Earch; [by wp_step|].
  assert (Harch : arch = "amd64" \/ arch = "arm64").
  { rewrite andb_false_iff, !negb_false_iff, !bool_decide_eq_true in Earch. done. }
  pose proof (asset_good _ _ _ _ Es Ev Harch) as Hname. set (name := artifact_name spec version arch) in *.
  wp_step. eapply wp_mono; [|apply wp_follows; by apply (wp_only (fun _ _ => True) anywhere _ w); [|apply only_any|]].
  intros [[]|e] v1 _ [F1 _]; [|done].
  wp_step. eapply wp_mono; [|apply wp_follows, resolveAssets_wp]. intros [assets|e] v2 _ (F2 & _ & Hp); [|done]. specialize (Hp assets eq_refl).
  wp_step. eapply wp_mono; [|apply wp_follows; by apply fetch_manifest_wp]. intros [artifact|e] v3 _ (F3 & Hm); [|done].
  destruct (Hm artifact eq_refl) as (mdata & Hman & Hmd). clear Hm.
  wp_step. eapply wp_mono; [|apply wp_follows; by apply fetch_archive_wp]. intros [digest|e] v4 _ (F4 & Hd); [|done].
  destruct (Hd digest eq_refl) as (Hsame & adata & Harc & Had). clear Hd.
  assert (Hman4 : manifest_on_disk destDir serviceType spec version arch name (TagCommit assets) mdata artifact v4).
  { destruct Hman as [(m & Hm) ?]. split; [exists m; congruence|done]. }
  assert (F : follows w v4) by (transitivity v3; [transitivity v2; [by transitivity v1|done]|done]).
  assert (Hc4 : closed (fs v4)) by by apply F.
  wp_step. eapply wp_mono; [|apply wp_follows; by apply unpack_wp]. intros [root|e] v5 _ [F5 Hr]; [|done].
  destruct (Hr root eq_refl) as (Hkeep & (m & data & a & items & Hfile & Hgz & Hitems & Htree) & Hver).
  wp_step; [done|]. intros art [= <-].
  exists spec, (TagCommit assets), mdata, adata, artifact, items.
  destruct Harc as [[m' Hm'] Hrest]. rewrite Hm' in Hfile. injection Hfile as <- <-.
  split; cbn; try done.
  - by eapply manifest_kept.
  - split; [exists m'; auto|done].
  - by exists a.
  - intros Ht. exists assets. split_and!; auto. eapply provenance_follows; [|by apply Hp].
    transitivity v3; [done|by transitivity v4].
Qed.

(** ** The manifest and the tree *)

Lemma select_artifact_hex spec version arch name l seen selected seen' selected' :
  select_artifact spec version arch name l seen selected = Ok (seen', selected') ->
  selected' = selected \/ hex_decodes (HostReleaseArtifact.SHA256 selected') = true.
Proof.
  revert seen selected. induction l as [|x l IH]; intros seen selected E; cbn [select_artifact] in E; [injection E as <- <-; by left|].
  destruct (_ || negb (len _ =? 64)%Z); [done|]. destruct (hex_decodes (HostReleaseArtifact.SHA256 x)) eqn:Hh; [|done]. cbn [negb] in E.
  apply IH in E as [->|?]; [|by right]. destruct (_ && _); auto.
Qed.

(** What an accepted manifest says: the commit is the one of the tag, and the artifact
    depends on nothing but the manifest. *)
Lemma check_manifest_inv manifest serviceType spec version arch name tagCommit artifact :
  check_manifest manifest serviceType spec version arch name tagCommit = Ok artifact ->
  exists component, HostReleaseManifest.Components manifest = [component] /\
    (tagCommit = "" \/ HostReleaseComponent.Commit component = tagCommit) /\
    hex_decodes (HostReleaseArtifact.SHA256 artifact) = true /\
    exists seen, select_artifact spec version arch name (HostReleaseComponent.Artifacts component) [] HostReleaseArtifact.zero = Ok (seen, artifact).
Proof.
  unfold check_manifest. destruct (HostReleaseManifest.Components manifest) as [|component []]; try done.
  destruct (_ || _); [done|]. destruct (negb (parse_rfc3339 _)); [done|].
  destruct (_ || negb (semverAtLeast _ _)); [done|]. unfold check_component.
  destruct (_ || negb (HostReleaseComponent.RollbackCompatible component)); [done|]. destruct (_ && _) eqn:Hc; [done|].
  destruct (negb (bool_decide (HostReleaseComponent.DatabaseSchema component = _))); [done|].
  destruct (negb (Nat.eqb _ _)); [done|].
  destruct (select_artifact _ _ _ _ _ _ _) as [[seen selected]|] eqn:Esel; [|done]. cbn [bind_res].
  destruct (_ || _) eqn:Hn; [done|]. intros [= <-]. exists component. split_and!; [done| | |by eauto].
  - rewrite andb_false_iff, !negb_false_iff, !bool_decide_eq_true in Hc. done.
  - apply select_artifact_hex in Esel as [->|?]; [|done]. by rewrite orb_true_r in Hn.
Qed.

Lemma hex_decodes_ascii s : hex_decodes s = true -> str_forall is_ascii_byte s = true.
Proof. intros Hs. apply andb_true_iff in Hs as [_ Hs]. by apply (str_forall_impl hex_any); [apply hex_any_is_ascii|]. Qed.

(** The same paths below two roots, with the same nodes. *)
Definition same_tree (t1 : tree) (root1 : string) (t2 : tree) (root2 : string) : Prop :=
  forall r, t1 !! (r ++ locate root1)%list = t2 !! (r ++ locate root2)%list.

Lemma unpacked_lookup dest root items v :
  IsAbs dest = true -> unpacked dest root items v ->
  exists top, (forall e, e ∈ items -> [top] `suffix_of` entry_key e.1) /\ (exists e, e ∈ items) /\
    forall r n, fs v !! (r ++ locate root)%list = Some n <-> exists e, e ∈ items /\ shows (r ++ [top]) e = Some n.
Proof.
  intros Ha [(top & Hgood & -> & Hall) Hdir _ Hex]. exists top. destruct (Join_component dest top Ha Hgood) as [_ Hl]. rewrite Hl in *.
  assert (Hx : forall r n, fs v !! (r ++ top :: locate dest)%list = Some n <-> exists e, e ∈ items /\ shows (r ++ [top]) e = Some n).
  { intros r n. rewrite <- (Hex (r ++ [top])%list n) by by destruct r. by rewrite <- app_assoc. }
  split_and!; [done| |done]. apply dir_at_Some in Hdir as [m Hm]. apply (Hx []) in Hm as (e & Hin & _). eauto.
Qed.

Lemma unpacked_same dest1 dest2 root1 root2 items v1 v2 :
  IsAbs dest1 = true -> IsAbs dest2 = true -> unpacked dest1 root1 items v1 -> unpacked dest2 root2 items v2 ->
  same_tree (fs v1) root1 (fs v2) root2.
Proof.
  intros Ha1 Ha2 U1 U2. destruct (unpacked_lookup _ _ _ _ Ha1 U1) as (t1 & A1 & [e He] & L1).
  destruct (unpacked_lookup _ _ _ _ Ha2 U2) as (t2 & A2 & _ & L2).
  assert (t1 = t2) as ->.
  { destruct (A1 e He) as [r1 E1], (A2 e He) as [r2 E2]. rewrite E1 in E2. by apply app_inj_tail in E2 as [_ ->]. }
  intros r. apply option_eq. intros n. by rewrite L1, L2.
Qed.

Lemma bound_release_same d1 d2 serviceType version arch dir1 dir2 art1 art2 v1 v2 spec1 spec2 c1 c2 mdata adata1 adata2 a1 a2 items1 items2 :
  IsAbs dir1 = true -> IsAbs dir2 = true ->
  bound_release d1 serviceType version arch dir1 art1 v1 spec1 c1 mdata adata1 a1 items1 ->
  bound_release d2 serviceType version arch dir2 art2 v2 spec2 c2 mdata adata2 a2 items2 ->
  SHA256 art1 = SHA256 art2 /\ (same_tree (fs v1) (RootDir art1) (fs v2) (RootDir art2) \/ collision adata1 adata2).
Proof.
  intros Ha1 Ha2 B1 B2. destruct literal_good as (_ & _ & _ & Ge).
  assert (spec1 = spec2) as -> by (pose proof (br_spec _ _ _ _ _ _ _ _ _ _ _ _ _ B1); pose proof (br_spec _ _ _ _ _ _ _ _ _ _ _ _ _ B2); congruence).
  destruct (br_name _ _ _ _ _ _ _ _ _ _ _ _ _ B1) as [N1 _], (br_name _ _ _ _ _ _ _ _ _ _ _ _ _ B2) as [N2 _].
  destruct (br_manifest _ _ _ _ _ _ _ _ _ _ _ _ _ B1) as (_ & m1 & D1 & C1), (br_manifest _ _ _ _ _ _ _ _ _ _ _ _ _ B2) as (_ & m2 & D2 & C2).
  rewrite D1 in D2. injection D2 as <-. rewrite N1 in C1. rewrite N2 in C2.
  apply check_manifest_inv in C1 as (k1 & K1 & _ & X1 & s1 & S1). apply check_manifest_inv in C2 as (k2 & K2 & _ & _ & s2 & S2).
  rewrite K1 in K2. injection K2 as <-. rewrite S1 in S2. injection S2 as <- <-.
  destruct (br_archive _ _ _ _ _ _ _ _ _ _ _ _ _ B1) as (_ & E1 & _ & F1), (br_archive _ _ _ _ _ _ _ _ _ _ _ _ _ B2) as (_ & E2 & _ & F2).
  rewrite E1 in F1 |- *. rewrite E2 in F2 |- *.
  assert (Hsha : sha256_hex adata1 = sha256_hex adata2).
  { eapply EqualFold_same; [apply sha256_not_upper..|by apply hex_decodes_ascii, X1|done|done]. }
  split; [done|]. destruct (same_or_collision _ _ Hsha) as [<-|?]; [left|by right].
  destruct (br_items _ _ _ _ _ _ _ _ _ _ _ _ _ B1) as (x1 & G1 & I1), (br_items _ _ _ _ _ _ _ _ _ _ _ _ _ B2) as (x2 & G2 & I2).
  rewrite G1 in G2. injection G2 as <-. rewrite I1 in I2. injection I2 as <-.
  apply (unpacked_same (Join [dir1; "extracted"]) (Join [dir2; "extracted"]) _ _ items1); [by apply Join_component..|apply B1|apply B2].
Qed.

(** C6.  A download that reports success is bound to what it reports.  Whatever the network
    returned and whichever calls failed on the way, the files on disk then are: a release
    manifest that was accepted for this service, version and architecture; the archive it
    describes, with its size and digest; the tree unpacked from exactly this archive, with
    nothing in it but the archive's entries at the release modes; and inner checksums that
    cover every file.  In the credential-free mode the digests are those of an immutable
    release that GitHub returned for the tag, and the commit of the component is the one
    the tag leads to. *)
Theorem downloaded_release_is_bound d serviceType version arch destDir answers w art :
  IsAbs destDir = true -> closed (fs w) ->
  let out := run (Download d serviceType version arch destDir) answers w in
  out.2 = Some (Ok art) ->
  exists spec tagCommit mdata adata artifact items,
    bound_release d serviceType version arch destDir art out.1 spec tagCommit mdata adata artifact items /\
    (TrustedPublicOnly d = true -> exists manifest component, decode_manifest (limited 4194304 mdata) = Some manifest /\
       HostReleaseManifest.Components manifest = [component] /\ HostReleaseComponent.Commit component = tagCommit).
Proof.
  intros Ha Hc out Hout. destruct (wp_sound _ _ _ answers w (Download_wp d serviceType version arch destDir w Ha Hc)) as [_ HQ].
  destruct (HQ _ Hout art eq_refl) as (spec & tagCommit & mdata & adata & artifact & items & B).
  exists spec, tagCommit, mdata, adata, artifact, items. split; [exact B|]. intros Ht.
  destruct (br_trusted _ _ _ _ _ _ _ _ _ _ _ _ _ B Ht) as (assets & Ec & Hp & _). destruct (pv_commit _ _ _ _ Hp) as [Hne _].
  destruct (br_manifest _ _ _ _ _ _ _ _ _ _ _ _ _ B) as (_ & manifest & Hd & Hm).
  apply check_manifest_inv in Hm as (component & Hcs & [Hcommit|Hcommit] & _); [congruence|]. by exists manifest, component.
Qed.

(** The release manifest determines the release.  Take any two successful downloads of
    the same service, version and architecture, on any two hosts, under any umask, with any
    failures and retries on the way: when the two release manifests are the same file, the
    archives have the same digest, and the unpacked trees are the same, path by path, with
    contents and modes, unless the two archives on disk are a SHA-256 collision. *)
Theorem release_manifest_determines_tree d1 d2 serviceType version arch dir1 dir2 answers1 answers2 w1 w2 art1 art2 mode1 mode2 mdata :
  IsAbs dir1 = true -> IsAbs dir2 = true -> closed (fs w1) -> closed (fs w2) ->
  let out1 := run (Download d1 serviceType version arch dir1) answers1 w1 in
  let out2 := run (Download d2 serviceType version arch dir2) answers2 w2 in
  out1.2 = Some (Ok art1) -> out2.2 = Some (Ok art2) ->
  fs out1.1 !! locate (Join [dir1; "release-manifest.json"]) = Some (Node.File mode1 mdata) ->
  fs out2.1 !! locate (Join [dir2; "release-manifest.json"]) = Some (Node.File mode2 mdata) ->
  SHA256 art1 = SHA256 art2 /\
  (same_tree (fs out1.1) (RootDir art1) (fs out2.1) (RootDir art2) \/
   exists m1 m2 adata1 adata2, collision adata1 adata2 /\
     fs out1.1 !! locate (ArchivePath art1) = Some (Node.File m1 adata1) /\
     fs out2.1 !! locate (ArchivePath art2) = Some (Node.File m2 adata2)).
Proof.
  intros Ha1 Ha2 Hc1 Hc2 out1 out2 Ho1 Ho2 Hm1 Hm2. subst out1 out2.
  destruct (wp_sound _ _ _ answers1 w1 (Download_wp d1 serviceType version arch dir1 w1 Ha1 Hc1)) as [_ Q1].
  destruct (wp_sound _ _ _ answers2 w2 (Download_wp d2 serviceType version arch dir2 w2 Ha2 Hc2)) as [_ Q2].
  destruct (Q1 _ Ho1 art1 eq_refl) as (s1 & c1 & md1 & ad1 & a1 & i1 & B1).
  destruct (Q2 _ Ho2 art2 eq_refl) as (s2 & c2 & md2 & ad2 & a2 & i2 & B2).
  destruct (br_manifest _ _ _ _ _ _ _ _ _ _ _ _ _ B1) as ([x1 X1] & _), (br_manifest _ _ _ _ _ _ _ _ _ _ _ _ _ B2) as ([x2 X2] & _).
  assert (md1 = mdata) as -> by (unfold manifest_name in X1; congruence).
  assert (md2 = mdata) as -> by (unfold manifest_name in X2; congruence).
  destruct (bound_release_same _ _ _ _ _ _ _ _ _ _ _ _ _ _ _ _ _ _ _ _ _ _ Ha1 Ha2 B1 B2) as [Hs [Ht|Hcol]]; split; auto. right.
  destruct (br_archive _ _ _ _ _ _ _ _ _ _ _ _ _ B1) as ([m1 M1] & _), (br_archive _ _ _ _ _ _ _ _ _ _ _ _ _ B2) as ([m2 M2] & _).
  destruct (br_name _ _ _ _ _ _ _ _ _ _ _ _ _ B1) as [_ ->], (br_name _ _ _ _ _ _ _ _ _ _ _ _ _ B2) as [_ ->].
  by exists m1, m2, ad1, ad2.
Qed.
End Whole.
