(* ===== verification/Install.v ===== *)
(** Installing a staged release under the release root ([release_filesystem.go]): the tree
    is copied to a partial directory beside its destination, marked, verified, synced, and
    takes its final name by one rename. *)
From Stdlib Require Import Ascii String ZArith Lia.
From stdpp Require Import base decidable list strings gmap.
From S2P Require Import Prelude Strings Sha256 Paths Effects FileTree Artifact.

Open Scope string_scope.

Definition o444 : Z := octal 4 4 4.

Definition writeSyncedFile (k : path) (data : string) (mode : Z) : prog op check :=
  let? _ := call (Create k mode) in
  let* written := call (Write k data) in
  let* changed := call (Chmod k mode) in
  let* synced := call (Sync k) in
  let* shut := call (Close k) in
  Ret (firstError [written; changed; synced; shut]).

Definition normalizedReleaseFileMode (mode : Z) : Z := if (Z.land mode o111 =? 0)%Z then o644 else o755.

(** A read error while copying shows as a write that stops. *)
Definition copyRegularFile (source dest : path) (mode : Z) : prog op check :=
  let? data := call (ReadFile source) in
  writeSyncedFile dest data (normalizedReleaseFileMode mode).

Definition mode_of (n : Node.t) : Z :=
  match n with Node.Directory m | Node.File m _ => m | _ => 0 end.

Definition syncDirectory (k : path) : prog op check := call (Sync k).

Fixpoint sync_each (ks : list path) : prog op check :=
  match ks with
  | [] => Ret (Ok tt)
  | k :: rest => let? _ := syncDirectory k in sync_each rest
  end.

Definition dirs_of (entries : list (path * Node.t)) : list path := map fst (filter (fun e => Node.IsDir e.2 = true) entries).

(** The walks that only look at the kind of an entry. *)
Fixpoint plain_entries (entries : list (path * Node.t)) : check :=
  match entries with
  | [] => Ok tt
  | (_, n) :: rest =>
      if Node.IsSymlink n then Err "release tree contains a symlink"
      else if Node.IsDir n || Node.IsRegular n then plain_entries rest
      else Err "release tree contains a non-regular file"
  end.

Definition syncDirectoryTreeBottomUp (root : path) : prog op check :=
  let? entries := call (Walk root) in
  let? _ := lift (plain_entries entries) in
  sync_each (rev (dirs_of entries)).

(** Nothing replaces the file between the walk and its opening, so [os.SameFile] holds. *)
Definition chmodAndSyncRegularFile (k : path) (mode : Z) : prog op check :=
  let? opened := call (Stat k) in
  if negb (Node.IsRegular opened) then
    let* _ := call (Close k) in Ret (Err "installed release file changed during mode repair")
  else
    let* changed := call (Chmod k mode) in
    let* synced := call (Sync k) in
    let* shut := call (Close k) in
    Ret (firstError [changed; synced; shut]).

Fixpoint normalize_files (markers : list path) (entries : list (path * Node.t)) : prog op check :=
  match entries with
  | [] => Ret (Ok tt)
  | (k, n) :: rest =>
      if Node.IsSymlink n then Ret (Err "installed release contains a symlink")
      else if Node.IsDir n then normalize_files markers rest
      else if negb (Node.IsRegular n) then Ret (Err "installed release contains a non-regular file")
      else
        let? info := call (Lstat k) in
        let mode := if bool_decide (k ∈ markers) then o444 else normalizedReleaseFileMode (mode_of info) in
        let? _ := chmodAndSyncRegularFile k mode in
        normalize_files markers rest
  end.

Fixpoint chmod_dirs (ks : list path) : prog op check :=
  match ks with
  | [] => Ret (Ok tt)
  | k :: rest => let? _ := call (Chmod k o755) in chmod_dirs rest
  end.

Definition marker_keys (root : string) : list path :=
  [locate (Join [Clean root; ".artifact-sha256"]); locate (Join [Clean root; ".version"])].

Definition normalizeInstalledReleaseTreeModes (root : string) : prog op check :=
  let? entries := call (Walk (locate (Clean root))) in
  let? _ := normalize_files (marker_keys root) entries in
  chmod_dirs (rev (dirs_of entries)).

Fixpoint safe_entries (entries : list (path * Node.t)) : prog op check :=
  match entries with
  | [] => Ret (Ok tt)
  | (k, n) :: rest =>
      if Node.IsSymlink n then Ret (Err "stale partial contains a symlink")
      else
        let* owned := call (IsRootOwner k) in
        if negb (Node.IsDir n || Node.IsRegular n) || negb owned then Ret (Err "stale partial contains an unsafe entry")
        else safe_entries rest
  end.

Definition removeStaleReleasePartial (parent partial : string) : prog op check :=
  let parent := Clean parent in
  let partial := Clean partial in
  if (partial ==? parent) || negb (pathWithin parent partial) then Ret (Err "stale partial path escaped release root")
  else
    let* st := call (Lstat (locate partial)) in
    match st with
    | Err _ => Ret (Err "stale partial root is unsafe")
    | Ok n =>
        let* owned := call (IsRootOwner (locate partial)) in
        if negb (Node.IsDir n) || Node.IsSymlink n || negb owned then Ret (Err "stale partial root is unsafe")
        else
          let? entries := call (Walk (locate partial)) in
          let? _ := safe_entries entries in
          let? _ := call (RemoveAll (locate partial)) in
          let* gone := call (Probe (locate partial)) in
          match gone with
          | Ok None => syncDirectory (locate parent)
          | _ => Ret (Err "stale partial removal was incomplete")
          end
    end.

(** The walk over the staged tree that copies it. *)
Fixpoint copy_entries (source temp : path) (entries : list (path * Node.t)) : prog op check :=
  match entries with
  | [] => Ret (Ok tt)
  | (k, n) :: rest =>
      if bool_decide (k = source) then copy_entries source temp rest
      else
        let out := rebase source temp k in
        let? info := call (Lstat k) in
        if Node.IsSymlink n then Ret (Err "staged release contains a symlink")
        else if Node.IsDir n then
          let? _ := call (Mkdir out o755) in
          let? _ := call (Chmod out o755) in
          copy_entries source temp rest
        else if negb (Node.IsRegular n) then Ret (Err "staged release contains a non-regular file")
        else
          let? _ := copyRegularFile k out (mode_of info) in
          copy_entries source temp rest
  end.

Section Install.
Context `{UnicodeTables}.

Definition text_of (r : result string string) : string := match r with Ok s => s | Err _ => "" end.

(** The destination is there already: the same release, or an error. *)
Definition keep_release (dest digest version : string) (n : Node.t) : prog op check :=
  if negb (Node.IsDir n) || Node.IsSymlink n then Ret (Err "release destination already exists and is not a directory")
  else
    let* ok := verifyManagedReleaseChecksums dest in
    match ok with
    | Err _ => Ret (Err "existing release destination failed integrity verification")
    | Ok _ =>
        let* existing := call (ReadFile (locate (Join [dest; ".artifact-sha256"]))) in
        let* existingVersion := call (ReadFile (locate (Join [dest; ".version"]))) in
        if (TrimSpace (text_of existing) !=? ToLower digest) || (TrimSpace (text_of existingVersion) !=? version)
        then Ret (Err "release destination already exists with a different digest")
        else
          let? _ := normalizeInstalledReleaseTreeModes dest in
          let* synced := syncDirectoryTreeBottomUp (locate (Clean dest)) in
          let* parent := syncDirectory (locate (Dir dest)) in
          Ret (firstError [synced; parent])
    end.

Definition newline : string := String "010" "".

(** The partial directory, complete and verified. *)
Definition prepare_release (source tempDest digest version : string) : prog op check :=
  let? entries := call (Walk (locate source)) in
  let? _ := copy_entries (locate source) (locate tempDest) entries in
  let? _ := writeSyncedFile (locate (Join [tempDest; ".artifact-sha256"])) (ToLower digest +:+ newline) o444 in
  let? _ := writeSyncedFile (locate (Join [tempDest; ".version"])) (version +:+ newline) o444 in
  let* ok := verifyManagedReleaseChecksums tempDest in
  match ok with
  | Err _ => Ret (Err "copied release failed integrity verification")
  | Ok _ => syncDirectoryTreeBottomUp (locate (Clean tempDest))
  end.

(** From the copy to the rename; whatever fails here is cleaned up by the caller. *)
Definition build_release (source dest tempDest digest version : string) : prog op check :=
  let? _ := prepare_release source tempDest digest version in
  call (Move (locate tempDest) (locate dest)).

Definition partial_name (dest digest version : string) : string := dest +:+ ".partial-" +:+ shortID (digest +:+ version).

(** Room for the partial directory. *)
Definition clear_partial (parent tempDest : string) : prog op check :=
  let? stale := call (Probe (locate tempDest)) in
  match stale with
  | Some _ =>
      let* removed := removeStaleReleasePartial parent tempDest in
      match removed with
      | Ok _ => Ret (Ok tt)
      | Err _ => Ret (Err "stale partial release directory is unsafe")
      end
  | None => Ret (Ok tt)
  end.

Definition installReleaseTree (source dest digest version : string) : prog op check :=
  let? present := call (Probe (locate dest)) in
  match present with
  | Some n => keep_release dest digest version n
  | None =>
      let parent := Dir dest in
      let? _ := MkdirAll (locate parent) o755 in
      let tempDest := partial_name dest digest version in
      if negb (pathWithin parent tempDest) || (Clean tempDest ==? Clean parent)
      then Ret (Err "partial release directory escaped release root")
      else
        let? _ := clear_partial parent tempDest in
        let? _ := call (Mkdir (locate tempDest) o755) in
        let? _ := call (Chmod (locate tempDest) o755) in
        let* built := build_release source dest tempDest digest version in
        match built with
        | Err e => let* _ := call (RemoveAll (locate tempDest)) in Ret (Err e)
        | Ok _ => syncDirectory (locate parent)
        end
  end.
End Install.
