(* ===== verification/InstallSafety.v ===== *)
(** An installed release appears complete or not at all: what is at the destination of
    [installReleaseTree] at every crash point, and when it reports success. *)
From Stdlib Require Import Ascii String ZArith Lia.
From stdpp Require Import base decidable list strings gmap.
From S2P Require Import Prelude Strings Regexp Patterns Sha256 Paths DockerPin Effects FileTree Artifact ArchivePaths ArtifactTree ArtifactChecks Release ReleaseSafety Install.

Open Scope string_scope.

(** * Nodes that differ in their mode only *)

Definition alike (a b : option Node.t) : Prop :=
  match a, b with
  | Some (Node.Directory _), Some (Node.Directory _) => True
  | Some (Node.File _ d), Some (Node.File _ d') => d = d'
  | _, _ => a = b
  end.

#[global] Instance alike_equivalence : Equivalence alike.
Proof.
  split.
  - intros [[]|]; done.
  - intros [[]|] [[]|]; cbn; congruence.
  - intros [[]|] [[]|] [[]|]; cbn; congruence.
Qed.

Lemma alike_set_mode mode n n' : Node.set_mode mode n = Some n' -> alike (Some n) (Some n').
Proof. destruct n; cbn; try discriminate; by intros [= <-]. Qed.

Section Checks.
Context `{UnicodeTables}.

(** Verification looks at the kinds and contents of the nodes below the root. *)
Lemma verified_alike root1 root2 names data listed t1 t2 :
  IsAbs root1 = true -> IsAbs root2 = true ->
  (forall r, alike (t1 !! (r ++ locate root1)%list) (t2 !! (r ++ locate root2)%list)) ->
  verified root1 (below root1 names) data listed t1 -> verified root2 (below root2 names) data listed t2.
Proof.
  intros Ha1 Ha2 Hs V. pose proof (checksum_list_ok _ _ (vf_list _ _ _ _ _ V)) as Hok.
  assert (Hfile : forall r m d, t1 !! (r ++ locate root1)%list = Some (Node.File m d) ->
    exists m', t2 !! (r ++ locate root2)%list = Some (Node.File m' d)).
  { intros r m d E. specialize (Hs r). rewrite E in Hs. destruct (t2 !! _) as [[]|]; cbn in Hs; try congruence. subst. eauto. }
  assert (Hnode : forall r n, t2 !! (r ++ locate root2)%list = Some n ->
    exists n', t1 !! (r ++ locate root1)%list = Some n' /\ (Node.plain n' -> Node.plain n) /\ (Node.IsRegular n = true -> Node.IsRegular n' = true)).
  { intros r n E. specialize (Hs r). rewrite E in Hs. destruct (t1 !! _) as [n'|]; [|by destruct n]. exists n'.
    destruct n', n; cbn in *; try congruence; by split_and!. }
  split.
  - destruct (vf_manifest _ _ _ _ _ V) as [m Hm]. rewrite manifest_below in Hm |- * by done. by apply (Hfile manifest_key m).
  - apply V.
  - intros name digest Hn. destruct (Hok _ _ Hn) as [Hsafe _]. destruct (vf_listed _ _ _ _ _ V _ _ Hn) as (m & d & Hd & He).
    destruct (safe_below root1 name Ha1 Hsafe) as [_ K1], (safe_below root2 name Ha2 Hsafe) as [_ K2].
    rewrite K1 in Hd. destruct (Hfile _ _ _ Hd) as [m' Hm']. exists m', d. by rewrite K2.
  - intros k n [r ->] Hn. destruct (Hnode _ _ Hn) as (n' & Hn' & Hp & _). apply Hp, (vf_plain _ _ _ _ _ V (r ++ locate root1)%list); [by exists r|done].
  - intros k n [r ->] Hn Hr. destruct (Hnode _ _ Hn) as (n' & Hn' & _ & Hr').
    destruct (vf_complete _ _ _ _ _ V (r ++ locate root1)%list n') as [Hk|[Hk|(name & Hl & Hk)]]; [by exists r|done|by apply Hr'|..].
    + left. rewrite manifest_below in Hk |- * by done. by apply app_inv_tail in Hk as ->.
    + right; left. apply list_elem_of_fmap in Hk as (r' & Er & Hin). apply app_inv_tail in Er as ->. apply list_elem_of_fmap. eauto.
    + right; right. exists name. split; [done|]. destruct Hl as [digest Hl]. destruct (Hok _ _ Hl) as [Hsafe _].
      destruct (safe_below root1 name Ha1 Hsafe) as [_ K1], (safe_below root2 name Ha2 Hsafe) as [_ K2].
      rewrite K1 in Hk. apply app_inv_tail in Hk as ->. by rewrite K2.
Qed.
End Checks.

(** * Rules *)

Section Rules.
Context (I : world -> Prop).

Lemma Probe_wp k (Q : result string (option Node.t) -> world -> Prop) w :
  I w -> Q (Err failed) w -> Q (Ok (fs w !! k)) w -> wp I (call (Probe k)) Q w.
Proof.
  intros HI He Hn. apply wp_call; [done|]. intros ans x w' E. cbn in E. destruct (linked _ _); [done|].
  destruct ans; try discriminate E; injection E as <- <-; auto.
Qed.

Lemma Move_wp from to (Q : check -> world -> Prop) w :
  I w -> Q (Err failed) w ->
  (dir_at (fs w) from = true -> replaceable (fs w) to = true -> ~ from `suffix_of` to ->
   let w' := w <| fs := move_tree from to (fs w) |> in I w' /\ Q (Ok tt) w') ->
  wp I (call (Move from to)) Q w.
Proof.
  intros HI He Hm. apply wp_call; [done|]. intros ans x w' E. cbn in E. destruct (linked _ _ || _); [done|].
  destruct ans; try discriminate E; [|by injection E as <- <-].
  destruct (_ && _) eqn:Hb; injection E as <- <-; [|done]. bool_to_prop.
  by apply Hm.
Qed.
End Rules.

(** A new file, written and closed. *)
Lemma writeSyncedFile_wp k data mode w :
  wp anywhere (writeSyncedFile k data mode)
    (fun r v => r = Ok tt -> fs w !! k = None /\ fs v = <[k := Node.File mode data]> (fs w)) w.
Proof.
  unfold writeSyncedFile. wp_step. apply Create_wp; [done|done|]. intros Hv. cbn zeta. split; [done|]. wp_step.
  assert (Hgo : forall written m s, (written = Ok tt -> s = data) ->
    wp anywhere (let* changed := call (Chmod k mode) in let* synced := call (Sync k) in let* shut := call (Close k) in
                 Ret (firstError [written; changed; synced; shut]))
      (fun r v => r = Ok tt -> fs w !! k = None /\ fs v = <[k := Node.File mode data]> (fs w)) (put k (Node.File m s) w)).
  { intros written m s Hs.
    assert (Hend : forall changed u, (changed = Ok tt -> fs u = <[k := Node.File mode s]> (fs w)) ->
      wp anywhere (let* synced := call (Sync k) in let* shut := call (Close k) in Ret (firstError [written; changed; synced; shut]))
        (fun r v => r = Ok tt -> fs w !! k = None /\ fs v = <[k := Node.File mode data]> (fs w)) u).
    { intros changed u Hu. wp_step. apply Sync_wp; [done|..]; wp_step; apply Close_wp; try done; wp_step; try done;
        intros Hf; apply firstError_ok, Forall_cons in Hf as [Hw [Hc _]%Forall_cons]; rewrite <- Hs by done;
        split; auto; by apply vacant_None. }
    wp_step. apply Chmod_wp; [done|by apply Hend|]. intros n n' Hn E. split; [done|]. apply Hend. intros _.
    rewrite lookup_put, decide_True in Hn by done. injection Hn as <-. injection E as <-. by rewrite put_twice. }
  eapply Write_wp with (old := ""); [done|by rewrite lookup_put, decide_True by done|by apply Hgo|..].
  - intros n. cbn zeta. split; [done|]. rewrite put_twice. by apply Hgo.
  - cbn zeta. split; [done|]. rewrite put_twice. by apply Hgo.
Qed.

(** * The copy *)

(** What a node of the staged tree becomes. *)
Definition copied (n : Node.t) : option Node.t :=
  match n with
  | Node.Directory _ => Some (Node.Directory o755)
  | Node.File m d => Some (Node.File (normalizedReleaseFileMode m) d)
  | _ => None
  end.

Section Copy.
Context (S T : path) (start : tree) (Hapart : ~ T `suffix_of` S) (Hapart' : ~ S `suffix_of` T).

Definition kept_outside (v : world) : Prop := forall k, ~ T `suffix_of` k -> fs v !! k = start !! k.

Record copying (done : list (path * Node.t)) (v : world) : Prop := {
  cp_outside : kept_outside v;
  cp_root : fs v !! T = Some (Node.Directory o755);
  cp_nodes : forall r n, r <> [] -> fs v !! (r ++ T)%list = Some n <-> exists n0, ((r ++ S)%list, n0) ∈ done /\ copied n0 = Some n;
}.

Lemma source_not_below (r : path) : ~ T `suffix_of` (r ++ S)%list.
Proof.
  intros [x E]. assert (Hc : T `suffix_of` S \/ S `suffix_of` T); [|tauto].
  clear Hapart Hapart'. revert r E. induction x as [|y x IH]; intros r E; cbn in E.
  - right. by exists r.
  - destruct r as [|z r]; cbn in E; [left; exists (y :: x); done|]. injection E as _ E. by apply (IH r).
Qed.

(** A new node below [T]. *)
Lemma copying_put done r n n' v u :
  copying done v -> r <> [] -> fs v !! (r ++ T)%list = None -> copied n = Some n' -> fs u = <[(r ++ T)%list := n']> (fs v) ->
  copying (done ++ [((r ++ S)%list, n)]) u.
Proof.
  intros [Ho Hr Hn] Hne Hnone Hc Hu.
  assert (HT : (r ++ T)%list <> T).
  { intros E. destruct r; [done|]. apply (f_equal List.length) in E. cbn in E. rewrite length_app in E. lia. }
  split.
  - intros k Hk. rewrite Hu, lookup_insert_ne by (intros <-; apply Hk; by exists r). by apply Ho.
  - by rewrite Hu, lookup_insert_ne.
  - intros r' m Hr'. rewrite Hu. destruct (decide (r = r')) as [<-|Hd].
    + rewrite lookup_insert_eq. split.
      * intros [= <-]. exists n. split; [apply elem_of_app; right; by apply list_elem_of_singleton|done].
      * intros (n0 & Hin & Hc0). apply elem_of_app in Hin as [Hin|Hin%list_elem_of_singleton]; [|congruence].
        assert (Hx : fs v !! (r ++ T)%list = Some m) by (apply Hn; eauto). congruence.
    + rewrite lookup_insert_ne by (intros E; by apply app_inv_tail in E). rewrite Hn by done.
      split; intros (n0 & Hin & Hc0); exists n0; split; auto; [apply elem_of_app; by left|].
      apply elem_of_app in Hin as [Hin|Hin%list_elem_of_singleton]; [done|]. injection Hin as E _. by apply app_inv_tail in E.
Qed.

Lemma copy_entries_wp l done v :
  copying done v -> Forall (fun e => S `suffix_of` e.1 /\ start !! e.1 = Some e.2) l ->
  wp anywhere (copy_entries S T l)
    (fun r u => r = Ok tt -> copying (done ++ filter (fun e => e.1 <> S) l) u /\ Forall (fun e => e.1 <> S -> Node.plain e.2) l) v.
Proof using Hapart Hapart'.
  revert done v. induction l as [|[k n] l IH]; intros done v Hc Hl; cbn [copy_entries].
  { wp_step; [done|]. intros _. by rewrite app_nil_r. }
  inversion_clear Hl as [|? ? [Hsuf Hn] Hl']. cbn [fst snd] in Hsuf, Hn. destruct Hsuf as [r ->]. rewrite filter_cons. cbn [fst].
  case_bool_decide as Hk.
  { rewrite decide_False by (intros Hne; by apply Hne). eapply wp_mono; [|by apply IH]. intros res u _ Hu Hres.
    destruct (Hu Hres). split; [done|]. constructor; [done|done]. }
  rewrite decide_True by done. assert (Hr : r <> []) by (intros ->; by apply Hk).
  assert (Hsrc : forall u done', copying done' u -> fs u !! (r ++ S)%list = Some n).
  { intros u done' Hu. rewrite (cp_outside _ _ Hu); [done|apply source_not_below]. }
  assert (Hnext : forall n' u, copied n = Some n' -> fs v !! (r ++ T)%list = None -> fs u = <[(r ++ T)%list := n']> (fs v) ->
    wp anywhere (copy_entries S T l) (fun res u' => res = Ok tt ->
      copying (done ++ ((r ++ S)%list, n) :: filter (fun e => e.1 <> S) l) u' /\
      Forall (fun e => e.1 <> S -> Node.plain e.2) (((r ++ S)%list, n) :: l)) u).
  { intros n' u Hcn Hnone Hu. eapply wp_mono; [|apply IH; [by eapply copying_put|done]]. intros res u' _ Hx Ex.
    destruct (Hx Ex). rewrite <- app_assoc in *. split; [done|]. constructor; [|done]. intros _. by destruct n. }
  rewrite rebase_app. wp_step. apply Lstat_wp; [done|done|]. intros info Hinfo. rewrite (Hsrc v done Hc) in Hinfo. injection Hinfo as <-.
  destruct n as [m|m d| |]; cbn [Node.IsSymlink Node.IsDir Node.IsRegular negb]; try by wp_step.
  - wp_step. apply Mkdir_wp; [done|done|]. intros Hv. cbn zeta. split; [done|]. wp_step. apply Chmod_wp; [done|done|].
    intros n n' E E'. split; [done|]. rewrite lookup_put, decide_True in E by done. injection E as <-. injection E' as <-.
    rewrite put_twice. apply (Hnext (Node.Directory o755)); [done|by apply vacant_None|done].
  - wp_step. unfold copyRegularFile. wp_step. apply ReadFile_wp; [done|done|]. intros m' d' Hd. rewrite (Hsrc v done Hc) in Hd.
    injection Hd as <- <-. eapply wp_mono; [|apply writeSyncedFile_wp]. intros [[]|e] u _ Hu; [|done].
    destruct (Hu eq_refl) as [Hnone Hfs]. by eapply (Hnext (Node.File (normalizedReleaseFileMode m) d)).
Qed.
End Copy.

(** Reading, syncing and closing leave the tree alone. *)
Lemma sync_each_wp (I : world -> Prop) ks w : I w -> wp I (sync_each ks) (fun _ v => v = w) w.
Proof.
  intros HI. induction ks as [|k ks IH]; cbn [sync_each]; [by wp_step|]. unfold syncDirectory. wp_step. by apply Sync_wp.
Qed.

Lemma syncDirectoryTreeBottomUp_wp (I : world -> Prop) k w : I w -> wp I (syncDirectoryTreeBottomUp k) (fun _ v => v = w) w.
Proof.
  intros HI. unfold syncDirectoryTreeBottomUp. wp_step. apply Walk_wp; [done|done|]. wp_step. wp_step; [done|].
  destruct (plain_entries _) as [[]|]; [|done]. by apply sync_each_wp.
Qed.

(** * Operations that stay below the partial directory *)

Section Mild.
Context (T p : path) (w : world).

(** Below [T], or a new directory on the way to [p]. *)
Definition mild (X : Type) (o : op X) : Prop :=
  match o with
  | Mkdir k _ => T `suffix_of` k \/ k `suffix_of` p
  | Chmod k _ | Create k _ | Write k _ | RemoveAll k => T `suffix_of` k
  | Rename _ _ | Remove _ | Move _ _ => False
  | _ => True
  end.

Record untouched (v : world) : Prop := {
  ub_old : forall k n, ~ T `suffix_of` k -> fs w !! k = Some n -> fs v !! k = Some n;
  ub_new : forall k n, ~ T `suffix_of` k -> fs v !! k = Some n -> fs w !! k = Some n \/ (k `suffix_of` p /\ Node.IsDir n = true);
}.

Lemma untouched_same v u : (forall k, ~ T `suffix_of` k -> fs u !! k = fs v !! k) -> untouched v -> untouched u.
Proof. intros Hs [Ho Hn]. split; intros k n Hk; rewrite Hs by done; auto. Qed.

Lemma untouched_put k n v : T `suffix_of` k -> untouched v -> untouched (put k n v).
Proof. intros Hk. apply untouched_same. intros k' Hk'. rewrite lookup_put, decide_False; [done|]. by intros ->. Qed.

Lemma untouched_mkdir k m v : T `suffix_of` k \/ k `suffix_of` p -> vacant (fs v) k = true -> untouched v -> untouched (put k (Node.Directory m) v).
Proof.
  intros [Hk|Hk] Hv Hu; [by apply untouched_put|]. apply vacant_None in Hv. destruct Hu as [Ho Hn]. split; intros k' n Hk'; rewrite lookup_put.
  - case_decide as E; [|by apply Ho]. subst k'. intros Hw. apply Ho in Hw; [congruence|done].
  - case_decide as E; [|by apply Hn]. subst k'. intros [= <-]. by right.
Qed.

Lemma mild_keeps X (o : op X) ans x v u : mild X o -> untouched v -> handle o ans v = Some (x, u) -> untouched u.
Proof.
  intros Hm Hu E. destruct o; cbn in Hm; try done; cbn in E;
    repeat match type of E with
    | (if ?b then _ else _) = _ => destruct b eqn:?; try discriminate E
    | match ?y with _ => _ end = _ => destruct y eqn:?; try discriminate E
    end; try (injection E as <- <-); try done.
  all: try (destruct (vacant _ _) eqn:Hv; injection E as <- <-; auto using untouched_mkdir, untouched_put).
  all: try by apply untouched_put.
  all: try match goal with H : append_to _ _ _ = Some _ |- _ => unfold append_to in H; destruct (fs _ !! _) as [[]|]; try discriminate H; injection H as <-; by apply untouched_put end.
  all: eapply untouched_same; [|exact Hu]; intros q Hq. all: cbn [fs]; try done.
  all: rewrite ?lookup_remove_tree, ?lookup_remove_trees, decide_False; try done.
  - intros Hs. apply Hq. by transitivity k.
  - rewrite Exists_exists. intros (y & Hin & Hy). apply list_elem_of_filter in Hin as [Hky _]. apply Hq. transitivity k; [done|by transitivity y].
Qed.

Lemma MkdirAll_mild k mode : k `suffix_of` p -> only mild (MkdirAll k mode).
Proof.
  induction k as [|x k IH]; intros Hk; cbn [MkdirAll]; repeat only_step; cbn; auto. apply IH. by eapply suffix_cons_l.
Qed.

Lemma sync_mild k : only mild (syncDirectoryTreeBottomUp k).
Proof.
  unfold syncDirectoryTreeBottomUp. repeat only_step; cbn; auto. generalize (rev (dirs_of a)). intros ks.
  induction ks; cbn [sync_each]; unfold syncDirectory; repeat only_step; cbn; auto.
Qed.

Lemma writeSynced_mild k data mode : T `suffix_of` k -> only mild (writeSyncedFile k data mode).
Proof. intros Hk. unfold writeSyncedFile. repeat only_step; cbn; auto. Qed.

Lemma copy_mild S l : only mild (copy_entries S T l).
Proof.
  assert (Hout : forall k, T `suffix_of` rebase S T k) by (intros k; by eexists).
  induction l as [|[k n] l IH]; cbn [copy_entries]; [done|]. unfold copyRegularFile.
  repeat match goal with
  | |- only _ (copy_entries _ _ _) => exact IH
  | |- only _ (writeSyncedFile _ _ _) => apply writeSynced_mild, Hout
  | |- only _ _ => only_step
  end; cbn; auto.
Qed.

Lemma verify_mild `{UnicodeTables} root extra : only mild (verifyInnerChecksums root extra).
Proof.
  unfold verifyInnerChecksums. repeat only_step; cbn; auto. generalize (map_to_list a0). intros l.
  induction l as [|[name digest] l IH]; cbn [check_files]; [done|]. unfold hashFile.
  repeat match goal with |- only _ (check_files _ _) => exact IH | |- only _ _ => only_step end; cbn; auto.
Qed.

Lemma clear_mild parent tempDest : locate (Clean tempDest) = T -> only mild (clear_partial parent tempDest).
Proof.
  intros HT. unfold clear_partial, removeStaleReleasePartial, syncDirectory. rewrite HT.
  repeat only_step; cbn; auto. match goal with |- only _ (safe_entries ?l) => generalize l end. intros l.
  induction l as [|[k n] l IH]; cbn [safe_entries]; [done|].
  repeat match goal with |- only _ (safe_entries _) => exact IH | |- only _ _ => only_step end; cbn; auto.
Qed.
End Mild.

(** * The places *)

Lemma locate_appended dest s c p :
  IsAbs dest = true -> Clean dest = dest -> locate dest = c :: p -> good (c +:+ s) ->
  IsAbs (dest +:+ s) = true /\ locate (dest +:+ s) = (c +:+ s) :: p.
Proof.
  intros Ha Hc Hl Hg. split; [by apply IsAbs_app|]. unfold locate in Hl. apply (f_equal (@rev string)) in Hl. rewrite rev_involutive in Hl.
  cbn [rev] in Hl. pose proof (clean_components_good dest Ha) as Hgood. rewrite Hl in Hgood. apply Forall_app in Hgood as [Hp _].
  assert (Hd : dest +:+ s = render true (rev p ++ [c +:+ s])).
  { rewrite <- Hc at 1. unfold Clean. rewrite Ha, Hl. cbn [render]. by rewrite str_app_assoc, <- join_with_snoc. }
  rewrite Hd. unfold locate. rewrite clean_render, rev_app_distr, rev_involutive; [done|]. apply Forall_app. split; [done|by constructor].
Qed.

Lemma suffix_same_length {A} (a b k : list A) : a `suffix_of` k -> b `suffix_of` k -> List.length a = List.length b -> a = b.
Proof. intros [x ->] [y E] Hl. by apply app_inj_2 in E as [_ ->]. Qed.

Section Place.
Context `{UnicodeTables} (source dest digest version : string) (c : string) (p : path) (w : world).
Context (Hsrc : IsAbs source = true) (Hdst : IsAbs dest = true) (Hclean : Clean dest = dest) (Hloc : locate dest = c :: p).

Let S := locate source.
Let D := locate dest.
Definition temp : string := partial_name dest digest version.
Let T := locate temp.

Lemma temp_key : IsAbs temp = true /\ T = (c +:+ ".partial-" +:+ shortID (digest +:+ version)) :: p.
Proof using Hdst Hclean Hloc.
  unfold T, temp, partial_name. apply locate_appended; try done.
  assert (Hc : good c).
  { pose proof (Forall_rev (clean_components_good dest Hdst)) as Hg. change (rev (clean_components dest)) with (locate dest) in Hg.
    rewrite Hloc in Hg. by inversion_clear Hg. }
  assert (Hs : no_byte slash (shortID (digest +:+ version)) = true).
  { unfold shortID, no_byte. generalize (digest +:+ version). intros s.
    destruct (EncodeToString_hex (firstn 6 (Sum256 s))) as [_ Hh].
    - apply Forall_take, Sum256_bytes.
    - eapply str_forall_impl; [|exact Hh]. intros b Hb. destruct (Ascii.eqb b slash) eqn:E; [|done].
      apply Ascii.eqb_eq in E as ->. discriminate Hb. }
  assert (Hlen : forall x : string, String.length x <= 2 -> c +:+ ".partial-" +:+ shortID (digest +:+ version) <> x).
  { intros x Hx E. apply (f_equal String.length) in E. rewrite !length_str_app in E. cbn [String.length] in E. lia. }
  split; [|apply Hlen; cbn; lia]. unfold solid. split_and!; [apply Hlen; cbn; lia..|].
  destruct Hc as [(_ & _ & Hb) _]. unfold no_byte in *. by rewrite !str_forall_app, Hb, Hs.
Qed.

Lemma temp_length : List.length T = List.length D.
Proof using Hdst Hclean Hloc. destruct temp_key as [_ ->]. unfold D. by rewrite Hloc. Qed.

Lemma temp_not_dest : T <> D.
Proof using Hdst Hclean Hloc. destruct temp_key as [_ ->]. unfold D. rewrite Hloc. intros [= E]. symmetry in E. by apply longer_name in E. Qed.

Lemma apart_below k : D `suffix_of` k -> ~ T `suffix_of` k.
Proof using Hdst Hclean Hloc.
  intros Hd Ht. apply temp_not_dest. by eapply suffix_same_length; [| |apply temp_length].
Qed.

Lemma below_not_parent k : D `suffix_of` k -> ~ k `suffix_of` p.
Proof using Hloc.
  intros Hd%suffix_length Hp%suffix_length. unfold D in Hd. rewrite Hloc in Hd. cbn in Hd. lia.
Qed.

(** ** The partial directory *)

Definition digest_key : path := [".artifact-sha256"].
Definition version_key : path := [".version"].

(** The tree that is to appear: the staged one at the release modes, with its markers. *)
Definition image (t : tree) (r : path) : option Node.t :=
  if bool_decide (r = digest_key) then Some (Node.File o444 (ToLower digest +:+ newline))
  else if bool_decide (r = version_key) then Some (Node.File o444 (version +:+ newline))
  else if bool_decide (r = []) then Some (Node.Directory o755)
  else match t !! (r ++ S)%list with Some n => copied n | None => None end.

Lemma marker_at root : IsAbs root = true ->
  locate (Join [root; ".artifact-sha256"]) = (digest_key ++ locate root)%list /\
  locate (Join [root; ".version"]) = (version_key ++ locate root)%list.
Proof.
  intros Ha. destruct (Join_component root ".artifact-sha256") as [_ L1]; [done|by split|].
  destruct (Join_component root ".version") as [_ L2]; [done|by split|done].
Qed.

Lemma copied_image v u :
  copying S T (fs v) (filter (fun e => e.1 <> S) (subtree (fs v) S)) u ->
  Forall (fun e => e.1 <> S -> Node.plain e.2) (subtree (fs v) S) ->
  forall r, r <> [] -> fs u !! (r ++ T)%list = match fs v !! (r ++ S)%list with Some n => copied n | None => None end.
Proof.
  intros Hc Hp r Hr. rewrite Forall_forall in Hp.
  assert (HS : (r ++ S)%list <> S) by (intros E; destruct r; [done|]; apply (f_equal List.length) in E; rewrite length_app in E; cbn in E; lia).
  assert (Hin : forall n, fs v !! (r ++ S)%list = Some n <-> ((r ++ S)%list, n) ∈ filter (fun e => e.1 <> S) (subtree (fs v) S)).
  { intros n. rewrite list_elem_of_filter, elem_of_subtree. cbn [fst snd]. split; [|by intros (_ & _ & ?)].
    intros. split_and!; [done|by exists r|done]. }
  apply option_eq. intros m. rewrite (cp_nodes _ _ _ _ _ Hc) by done. split.
  - intros (n0 & Hn%Hin & ?). by rewrite Hn.
  - destruct (fs v !! _) as [n|] eqn:En; [|done]. intros ?. exists n. split; [by apply Hin|done].
Qed.

Lemma prepare_wp v :
  ~ T `suffix_of` S -> ~ S `suffix_of` T -> fs v !! T = Some (Node.Directory o755) -> (forall r, r <> [] -> fs v !! (r ++ T)%list = None) ->
  wp anywhere (prepare_release source temp digest version)
    (fun x u => x = Ok tt -> kept_outside T (fs v) u /\ (forall r, fs u !! (r ++ T)%list = image (fs v) r) /\
       exists data listed, verified temp (below temp managed_names) data listed (fs u)) v.
Proof using Hdst Hclean Hloc Hsrc.
  intros HA HA' HT Hempty. destruct temp_key as [Hta _]. destruct (marker_at temp Hta) as [K1 K2]. fold T in K1, K2.
  unfold prepare_release. fold S T. wp_step. apply Walk_wp; [done|done|]. wp_step.
  eapply wp_mono; [|apply (copy_entries_wp S T (fs v) HA HA' _ [])].
  2:{ split; [done|done|]. intros r n Hr. rewrite Hempty by done. split; [done|]. intros (n0 & Hin & _). by apply not_elem_of_nil in Hin. }
  2:{ apply Forall_forall. intros e He. by apply elem_of_subtree. }
  intros [[]|e] u1 _ Hu1; [|done]. destruct (Hu1 eq_refl) as [Hc Hp]. cbn [List.app] in Hc.
  pose proof (copied_image v u1 Hc Hp) as Him. rewrite K1, K2.
  wp_step. eapply wp_mono; [|apply writeSyncedFile_wp]. intros [[]|e] u2 _ Hu2; [|done]. destruct (Hu2 eq_refl) as [N1 F2].
  wp_step. eapply wp_mono; [|apply writeSyncedFile_wp]. intros [[]|e] u3 _ Hu3; [|done]. destruct (Hu3 eq_refl) as [N2 F3].
  wp_step. unfold verifyManagedReleaseChecksums. eapply wp_mono; [|by apply verifyInnerChecksums_wp].
  intros [[]|e] u4 _ [-> Hver]; [|by wp_step]. destruct (Hver eq_refl) as (data & listed & V). rewrite (managed_extra_below temp Hta) in V.
  eapply wp_mono; [|by apply syncDirectoryTreeBottomUp_wp]. intros x u4 _ -> _.
  assert (Hput : forall k, fs u3 !! k = if bool_decide (k = (version_key ++ T)%list) then Some (Node.File o444 (version +:+ newline))
     else if bool_decide (k = (digest_key ++ T)%list) then Some (Node.File o444 (ToLower digest +:+ newline)) else fs u1 !! k).
  { intros k. rewrite F3, F2. case_bool_decide as E1; [subst; apply lookup_insert_eq|]. rewrite lookup_insert_ne by done.
    case_bool_decide as E2; [subst; apply lookup_insert_eq|]. by rewrite lookup_insert_ne. }
  split_and!; [| |by exists data, listed].
  - intros k Hk. rewrite Hput. rewrite bool_decide_eq_false_2 by (intros ->; apply Hk; by exists version_key).
    rewrite bool_decide_eq_false_2 by (intros ->; apply Hk; by exists digest_key). by apply Hc.
  - intros r. rewrite Hput. unfold image. repeat case_bool_decide; subst; try done;
      try (match goal with E : (?a ++ T)%list = (?b ++ T)%list |- _ => apply app_inv_tail in E; subst; done end);
      try (match goal with E : (?a ++ T)%list <> (?a ++ T)%list |- _ => by destruct E end).
    + apply Hc.
    + by apply Him.
Qed.

(** ** A release that is there already *)

(** Only modes below the destination have changed. *)
Definition modes_only (v : world) : Prop :=
  forall k, alike (fs w !! k) (fs v !! k) /\ (~ D `suffix_of` k -> fs v !! k = fs w !! k).

Lemma modes_only_refl : modes_only w.
Proof. done. Qed.

Lemma modes_only_chmod k mode n n' v :
  D `suffix_of` k -> fs v !! k = Some n -> Node.set_mode mode n = Some n' -> modes_only v -> modes_only (put k n' v).
Proof.
  intros Hk Hn Hm Hv k'. destruct (Hv k') as [Ha Ho]. rewrite lookup_put. case_decide as E; [|done]. subst k'.
  split; [|done]. rewrite Hn in Ha. etransitivity; [exact Ha|]. by eapply alike_set_mode.
Qed.

Lemma chmod_below k mode (Q : check -> world -> Prop) v :
  D `suffix_of` k -> modes_only v -> (forall x u, modes_only u -> Q x u) -> wp modes_only (call (Chmod k mode)) Q v.
Proof.
  intros Hk Hv HQ. apply Chmod_wp; [done|by apply HQ|]. intros n n' Hn Hm.
  assert (modes_only (put k n' v)) by by eapply modes_only_chmod. auto.
Qed.

Lemma chmod_dirs_wp ks v : Forall (fun k => D `suffix_of` k) ks -> modes_only v -> wp modes_only (chmod_dirs ks) (fun _ => modes_only) v.
Proof.
  intros Hk. revert v. induction Hk as [|k ks Hk _ IH]; intros v Hv; cbn [chmod_dirs]; [by wp_step|].
  wp_step. apply chmod_below; [done..|]. intros [[]|e] u Hu; [by apply IH|done].
Qed.

Lemma normalize_files_wp markers l v :
  Forall (fun e => D `suffix_of` e.1) l -> modes_only v -> wp modes_only (normalize_files markers l) (fun _ => modes_only) v.
Proof.
  intros Hl. revert v. induction Hl as [|[k n] l Hk _ IH]; intros v Hv; cbn [normalize_files]; [by wp_step|]. cbn [fst] in Hk.
  destruct (Node.IsSymlink n); [by wp_step|]. destruct (Node.IsDir n); [by apply IH|]. destruct (negb (Node.IsRegular n)); [by wp_step|].
  wp_step. apply Lstat_wp; [done|done|]. intros info _. wp_step. unfold chmodAndSyncRegularFile. wp_step.
  apply Stat_wp; [done|done|]. intros opened _. destruct (negb _).
  - wp_step. apply Close_wp; [done|..]; by wp_step.
  - wp_step. apply chmod_below; [done..|]. intros x u Hu. wp_step. apply Sync_wp; [done|..]; wp_step; (apply Close_wp; [done|..]);
      wp_step; try done; destruct (firstError _) as [[]|]; try done; by apply IH.
Qed.

Lemma normalize_wp v : modes_only v -> wp modes_only (normalizeInstalledReleaseTreeModes dest) (fun _ => modes_only) v.
Proof using Hdst.
  intros Hv. unfold normalizeInstalledReleaseTreeModes. rewrite locate_Clean by done. fold D. wp_step.
  apply Walk_wp; [done|done|]. wp_step.
  assert (Hl : Forall (fun e => D `suffix_of` e.1) (subtree (fs v) D)).
  { apply Forall_forall. intros e He. by apply elem_of_subtree in He as [? _]. }
  eapply wp_mono; [|by apply normalize_files_wp]. intros [[]|e] u _ Hu; [|done]. apply chmod_dirs_wp; [|done].
  apply Forall_rev, Forall_forall. intros k Hk. apply list_elem_of_fmap in Hk as (e & -> & He).
  apply list_elem_of_filter in He as [_ He]. rewrite Forall_forall in Hl. by apply Hl.
Qed.

(** The destination holds a verified release with the markers asked for. *)
Definition released (v : world) : Prop :=
  (exists data listed, verified dest (below dest managed_names) data listed (fs v)) /\
  (exists m d, fs v !! (digest_key ++ D)%list = Some (Node.File m d) /\ TrimSpace d = ToLower digest) /\
  (exists m d, fs v !! (version_key ++ D)%list = Some (Node.File m d) /\ TrimSpace d = version).

Lemma released_alike v u :
  (forall r, alike (fs v !! (r ++ D)%list) (fs u !! (r ++ D)%list)) -> released v -> released u.
Proof using Hdst.
  intros Ha ((data & listed & V) & (m1 & d1 & F1 & E1) & (m2 & d2 & F2 & E2)).
  assert (Hf : forall r m d, fs v !! (r ++ D)%list = Some (Node.File m d) -> exists m', fs u !! (r ++ D)%list = Some (Node.File m' d)).
  { intros r m d E. specialize (Ha r). rewrite E in Ha. destruct (fs u !! _) as [[]|]; cbn in Ha; try congruence. subst. eauto. }
  destruct (Hf _ _ _ F1) as [m1' G1], (Hf _ _ _ F2) as [m2' G2]. split; [|split; eauto].
  exists data, listed. by apply (verified_alike dest dest _ _ _ (fs v)).
Qed.

Lemma keep_release_wp n :
  ToLower digest <> "" -> version <> "" ->
  wp modes_only (keep_release dest digest version n) (fun x v => x = Ok tt -> released v) w.
Proof using Hdst.
  intros Hdg Hve. pose proof modes_only_refl as Hw. unfold keep_release. destruct (_ || _); [by wp_step|].
  wp_step. unfold verifyManagedReleaseChecksums. eapply wp_mono; [|by apply verifyInnerChecksums_wp].
  intros [[]|e] u _ [-> Hver]; [|by wp_step]. destruct (Hver eq_refl) as (data & listed & V). rewrite (managed_extra_below dest Hdst) in V.
  destruct (marker_at dest Hdst) as [-> ->]. fold D.
  assert (Hblank : TrimSpace "" = "") by reflexivity.
  wp_step. apply ReadFile_wp; [done|..].
  { wp_step. apply ReadFile_wp; [done|..]; intros; cbn [text_of]; rewrite Hblank, bool_decide_eq_false_2 by congruence;
      cbn [negb orb]; by wp_step. }
  intros m1 d1 F1. wp_step. apply ReadFile_wp; [done|..].
  { cbn [text_of]. rewrite Hblank, (bool_decide_eq_false_2 ("" = version)) by congruence. cbn [negb]. rewrite orb_true_r. by wp_step. }
  intros m2 d2 F2. cbn [text_of]. destruct (_ || _) eqn:Hb; [by wp_step|]. bool_to_prop.
  assert (Hrel : released w) by (split; [by exists data, listed|split; eauto]).
  wp_step. eapply wp_mono; [|by apply normalize_wp]. intros [[]|e] u _ Hu; [|done].
  assert (Hru : released u) by (eapply released_alike, Hrel; intros r; apply Hu).
  wp_step. eapply wp_mono; [|by apply syncDirectoryTreeBottomUp_wp]. intros synced u' _ ->.
  wp_step. unfold syncDirectory. apply Sync_wp; [done|..]; by wp_step.
Qed.

(** ** At every moment *)

(** Outside the destination and the partial directory nothing changes but that missing
    directories on the way appear.  At the destination is what was there, at most with
    other modes; or, where nothing was, the complete image of the staged tree. *)
Record tidy (v : world) : Prop := {
  td_old : forall k n, ~ T `suffix_of` k -> ~ D `suffix_of` k -> fs w !! k = Some n -> fs v !! k = Some n;
  td_new : forall k n, ~ T `suffix_of` k -> ~ D `suffix_of` k -> fs v !! k = Some n ->
    fs w !! k = Some n \/ (k `suffix_of` p /\ Node.IsDir n = true);
  td_dest : (forall k, D `suffix_of` k -> alike (fs w !! k) (fs v !! k)) \/
    (fs w !! D = None /\ forall r, fs v !! (r ++ D)%list = image (fs w) r);
}.

Lemma modes_only_tidy v : modes_only v -> tidy v.
Proof.
  intros Hv. split; [| |left; intros k _; apply Hv]; intros k n _ Hk; destruct (Hv k) as [_ E]; rewrite E by done; auto.
Qed.

Lemma untouched_dest v k : untouched T p w v -> D `suffix_of` k -> fs v !! k = fs w !! k.
Proof using Hdst Hclean Hloc.
  intros [Ho Hn] Hk. pose proof (apart_below k Hk) as Ht. destruct (fs v !! k) as [n|] eqn:E.
  - destruct (Hn k n Ht E) as [?|[Hp _]]; [done|]. by apply below_not_parent in Hk.
  - destruct (fs w !! k) as [n|] eqn:E'; [|done]. apply Ho in E'; [congruence|done].
Qed.

Lemma untouched_tidy v : untouched T p w v -> tidy v.
Proof using Hdst Hclean Hloc.
  intros Hu. split; [intros k n Hk _; by apply Hu..|]. left. intros k Hk. by rewrite (untouched_dest v k Hu Hk).
Qed.

Lemma untouched_source v r : ~ T `suffix_of` S -> ~ S `suffix_of` T -> untouched T p w v -> fs v !! (r ++ S)%list = fs w !! (r ++ S)%list.
Proof using Hdst Hclean Hloc.
  intros HA HA' [Ho Hn]. pose proof (source_not_below S T HA HA' r) as Ht. destruct (fs v !! _) as [n|] eqn:E.
  - destruct (Hn _ n Ht E) as [?|[Hp _]]; [done|]. exfalso. apply HA'. destruct temp_key as [_ ->].
    apply suffix_cons_r. etransitivity; [by exists r|exact Hp].
  - destruct (fs w !! _) as [n|] eqn:E'; [|done]. apply Ho in E'; [congruence|done].
Qed.

(** A stretch of mild operations. *)
Lemma mild_wp {A} (q : prog op A) v :
  only (mild T p) q -> untouched T p w v -> closed (fs v) ->
  wp tidy q (fun _ u => untouched T p w u /\ closed (fs u)) v.
Proof using Hdst Hclean Hloc.
  intros Hq Hu Hc. eapply wp_weaken; [|apply (wp_only (mild T p) (fun u => untouched T p w u /\ closed (fs u))); [|done|done]].
  - intros u [? _]. by apply untouched_tidy.
  - intros X o ans x u u' Hm [Hu' Hc'] E. split; [by eapply mild_keeps|by eapply handle_closed].
Qed.

Lemma discard_wp (e : string) v :
  untouched T p w v -> closed (fs v) ->
  wp tidy (let* _ := call (RemoveAll T) in Ret (Err e : check)) (fun x u => x = Ok tt -> released u) v.
Proof using Hdst Hclean Hloc.
  intros Hu Hc. wp_step. eapply wp_mono; [|apply mild_wp; [|done|done]].
  - intros x u Hx _. by wp_step.
  - apply only_call. cbn. done.
Qed.

Section Main.
Context (Hclosed : closed (fs w)) (HA : ~ T `suffix_of` S) (HA' : ~ S `suffix_of` T).
Context (Hdigest : str_forall printable (ToLower digest) = true) (Hdigest' : ToLower digest <> "").
Context (Hversion : str_forall printable version = true) (Hversion' : version <> "").

Lemma image_same v r : untouched T p w v -> image (fs v) r = image (fs w) r.
Proof using Hdst Hclean Hloc HA HA'. intros Hu. unfold image. by rewrite untouched_source. Qed.

(** The rename. *)
Lemma moved_tidy v :
  untouched T p w v -> fs w !! D = None -> (forall r, fs v !! (r ++ T)%list = image (fs w) r) ->
  ~ D `suffix_of` T -> ~ T `suffix_of` D -> tidy (v <| fs := move_tree T D (fs v) |>).
Proof using Hdst Hclean Hloc.
  intros [Ho Hn] HD Him N1 N2. split; cbn [fs].
  - intros k n Ht Hd E. change (move_tree T D (fs v) !! k = Some n). rewrite lookup_unmoved, decide_False by done. by apply Ho.
  - intros k n Ht Hd E. change (move_tree T D (fs v) !! k = Some n) in E. rewrite lookup_unmoved, decide_False in E by done. by apply Hn.
  - right. split; [done|]. intros r. change (move_tree T D (fs v) !! (r ++ D)%list = image (fs w) r). by rewrite lookup_moved.
Qed.

Lemma moved_released v data listed :
  (forall r, fs v !! (r ++ T)%list = image (fs w) r) -> verified temp (below temp managed_names) data listed (fs v) ->
  ~ D `suffix_of` T -> ~ T `suffix_of` D -> released (v <| fs := move_tree T D (fs v) |>).
Proof using Hdst Hclean Hloc Hdigest Hdigest' Hversion Hversion'.
  intros Him V N1 N2. destruct temp_key as [Hta _].
  assert (Hm : forall r, move_tree T D (fs v) !! (r ++ D)%list = image (fs w) r) by (intros r; by rewrite lookup_moved).
  split_and!.
  - exists data, listed. apply (verified_alike temp dest _ _ _ (fs v)); try done. intros r.
    change (alike (fs v !! (r ++ T)%list) (move_tree T D (fs v) !! (r ++ D)%list)). by rewrite Hm, Him.
  - exists o444, (ToLower digest +:+ newline). split; [exact (Hm digest_key)|by apply TrimSpace_word].
  - exists o444, (version +:+ newline). split; [exact (Hm version_key)|by apply TrimSpace_word].
Qed.

Lemma dest_temp_apart : ~ D `suffix_of` T /\ ~ T `suffix_of` D.
Proof using Hdst Hclean Hloc.
  split; intros Hs; apply temp_not_dest.
  - symmetry. eapply suffix_same_length; [exact Hs|done|by rewrite temp_length].
  - eapply suffix_same_length; [exact Hs|done|by rewrite temp_length].
Qed.

Lemma prepare_mild : only (mild T p) (prepare_release source temp digest version).
Proof using Hdst Hclean Hloc.
  destruct temp_key as [Hta _]. destruct (marker_at temp Hta) as [K1 K2]. unfold prepare_release. fold S T. rewrite K1, K2. fold T.
  apply only_bind_ok; [by apply only_call|]. intros entries. apply only_bind_ok; [apply copy_mild|]. intros _.
  apply only_bind_ok; [apply writeSynced_mild; by exists digest_key|]. intros _.
  apply only_bind_ok; [apply writeSynced_mild; by exists version_key|]. intros _.
  apply only_bind; [apply verify_mild|]. intros [[]|]; [apply sync_mild|done].
Qed.

Lemma build_wp v :
  untouched T p w v -> closed (fs v) -> fs w !! D = None ->
  fs v !! T = Some (Node.Directory o755) -> (forall r, r <> [] -> fs v !! (r ++ T)%list = None) ->
  wp tidy (build_release source dest temp digest version)
    (fun x u => (x = Ok tt /\ released u) \/ (x <> Ok tt /\ untouched T p w u /\ closed (fs u))) v.
Proof using Hsrc Hdst Hclean Hloc HA HA' Hdigest Hdigest' Hversion Hversion'.
  intros Hu Hc HD HT Hempty. unfold build_release. fold T D. wp_step.
  pose proof (wp_and _ _ _ _ _ _ (mild_wp _ v prepare_mild Hu Hc) (prepare_wp v HA HA' HT Hempty)) as Hp.
  eapply wp_weaken; [|eapply wp_mono; [|exact Hp]]; [by intros ? [? _]|].
  intros [[]|e] u _ [[Huu Hcu] Hpost]; [|by right]. destruct (Hpost eq_refl) as (_ & Him & data & listed & V).
  assert (Him' : forall r, fs u !! (r ++ T)%list = image (fs w) r) by (intros r; rewrite Him; by apply image_same).
  destruct dest_temp_apart as [N1 N2]. apply Move_wp; [by apply untouched_tidy|by right|]. intros _ _ _. cbn zeta.
  split; [by apply moved_tidy|]. left. split; [done|by eapply moved_released].
Qed.

Lemma install_wp :
  wp tidy (installReleaseTree source dest digest version) (fun x v => x = Ok tt -> released v) w.
Proof using Hsrc Hdst Hclean Hloc Hclosed HA HA' Hdigest Hdigest' Hversion Hversion'.
  assert (Hw : untouched T p w w) by (split; auto). unfold installReleaseTree. fold temp D T. wp_step.
  apply Probe_wp; [by apply untouched_tidy|done|]. destruct (fs w !! D) as [n|] eqn:HD.
  { eapply wp_weaken; [exact modes_only_tidy|by apply keep_release_wp]. }
  destruct (Dir_parent dest Hdst) as [_ Hpar]. fold D in Hpar. rewrite Hpar. unfold D at 1. rewrite Hloc. cbn [tail].
  wp_step. eapply wp_mono; [|apply mild_wp; [by apply MkdirAll_mild|done|done]]. intros [[]|e] v1 _ [U1 C1]; [|done].
  destruct (_ || _); [wp_step; [by apply untouched_tidy|done]|].
  destruct temp_key as [Hta _]. wp_step. eapply wp_mono; [|apply mild_wp; [apply clear_mild; by rewrite locate_Clean|done|done]].
  intros [[]|e] v2 _ [U2 C2]; [|done].
  wp_step. apply Mkdir_wp; [by apply untouched_tidy|done|]. intros Hv. cbn zeta.
  assert (U3 : forall m, untouched T p w (put T (Node.Directory m) v2)) by (intros m; by apply untouched_put).
  split; [by apply untouched_tidy|]. wp_step. apply Chmod_wp; [by apply untouched_tidy|done|]. intros n n' E E'.
  rewrite lookup_put, decide_True in E by done. injection E as <-. injection E' as <-. rewrite put_twice.
  assert (C3 : closed (fs (put T (Node.Directory o755) v2))) by (cbn; apply closed_insert; auto).
  split; [by apply untouched_tidy|]. wp_step.
  eapply wp_mono; [|apply build_wp; [done|done|done|by rewrite lookup_put, decide_True|]].
  - intros [[]|e] u Ht [[Hx Hr]|(Hne & Hu & Hcu)]; try done.
    + unfold syncDirectory. by apply Sync_wp.
    + by apply discard_wp.
  - intros r Hr. rewrite lookup_put, decide_False.
    + apply (fresh_below _ T); [done|by apply vacant_None|by exists r].
    + intros E. destruct r; [done|]. apply (f_equal List.length) in E. cbn in E. rewrite length_app in E. lia.
Qed.
End Main.

(** C16.  A release appears complete or not at all.  At every moment of an installation,
    whichever call fails and wherever it is cut off, the destination is as it was, at most
    with other file modes, or, where nothing was before, it is the complete staged tree at
    the release modes together with its two markers; a partly copied release never has the
    name of a release.  Elsewhere nothing changes except below the partial directory and
    for missing parents.  When the installation reports success, the destination passes
    the checksum verification and carries the digest and the version that were asked for. *)
Theorem release_appears_complete answers :
  closed (fs w) -> ~ locate temp `suffix_of` locate source -> ~ locate source `suffix_of` locate temp ->
  str_forall printable (ToLower digest) = true -> ToLower digest <> "" -> str_forall printable version = true -> version <> "" ->
  let out := run (installReleaseTree source dest digest version) answers w in
  tidy out.1 /\ (out.2 = Some (Ok tt) -> released out.1).
Proof using Hsrc Hdst Hclean Hloc.
  intros Hc HA HA' D1 D2 V1 V2 out. destruct (wp_sound _ _ _ answers w (install_wp Hc HA HA' D1 D2 V1 V2)) as [Ht HQ].
  split; [exact Ht|]. intros Ho. by apply (HQ _ Ho).
Qed.
End Place.
