(* ===== verification/ArtifactDemo.v ===== *)
(** A small release on which the theorems about artifacts are instantiated: one worker
    archive with a program and its checksums, downloaded to a host that has a directory
    [/srv]. *)
From Stdlib Require Import Ascii String ZArith Lia.
From stdpp Require Import base decidable list strings gmap.
From S2P Require Import Prelude Strings Regexp Patterns Sha256 Json Paths Effects FileTree Artifact ArchivePaths ArtifactTree ArtifactChecks Release ReleaseSafety Install InstallSafety.

Open Scope string_scope.

(** A tree is well formed when every node has its directory. *)
Definition closed_check (t : tree) : bool :=
  forallb (fun e => match e.1 with [] => true | _ :: p => dir_at t p end) (map_to_list t).

Lemma closed_check_ok t : closed_check t = true -> closed t.
Proof.
  unfold closed_check. rewrite forallb_forall. intros Hc c p n Hn.
  apply (Hc (c :: p, n)). apply list_elem_of_In. by apply elem_of_map_to_list.
Qed.

Definition demo_unicode : UnicodeTables := {| map_to_lower := fun s => s; fold_equal := fun a b => a ==? b |}.
#[local] Existing Instance demo_unicode.

Definition demo_run : string := "run".
Definition demo_checks : string := Eval vm_compute in sha256_hex demo_run +:+ "  ./run" +:+ newline.

Definition demo_header (name : string) (mode size : Z) (flag : ascii) : Header :=
  {| Name := name; Mode := mode; Size := size; Typeflag := flag |}.

Definition demo_entries : archive :=
  Entry (demo_header "rel/" o700 0 TypeDir) "" true
    (Entry (demo_header "rel/run" o700 (len demo_run) TypeReg) demo_run true
       (Entry (demo_header "rel/checksums.txt" o600 (len demo_checks) TypeReg) demo_checks true EOF)).

#[local] Instance demo_format : ArchiveFormat := fun data => if data ==? "archive" then Some demo_entries else None.

Definition demo_asset : string := "autostream-worker_v1.2.0_linux_amd64.tar.gz".
Definition demo_archive_digest : string := Eval vm_compute in sha256_hex "archive".
Definition demo_manifest_digest : string := Eval vm_compute in sha256_hex "manifest".
Definition demo_archive_sidecar : string := Eval vm_compute in demo_archive_digest +:+ "  " +:+ demo_asset.
Definition demo_manifest_sidecar : string := Eval vm_compute in demo_manifest_digest +:+ "  release-manifest.json".

Definition asset_of (id : Z) (name digest : string) : Asset.t :=
  {| Asset.ID := id; Asset.Name := name;
     Asset.URL := "https://api.github.com/repos/Kome-Lab/Autostream-Worker/releases/assets/" +:+ FormatInt id;
     Asset.Digest := "sha256:" +:+ digest; Asset.State := "uploaded" |}.

Definition demo_release : Release.t := Eval vm_compute in
  {| Release.TagName := "v1.2.0"; Release.Draft := false; Release.Prerelease := false; Release.Immutable := true;
     Release.Assets := [asset_of 1 demo_asset demo_archive_digest;
       asset_of 2 (demo_asset +:+ ".sha256") (sha256_hex demo_archive_sidecar);
       asset_of 3 "release-manifest.json" demo_manifest_digest;
       asset_of 4 "release-manifest.json.sha256" (sha256_hex demo_manifest_sidecar)] |}.

Definition demo_commit : string := "0123456789abcdef0123456789abcdef01234567".

Definition demo_artifact (arch digest : string) : HostReleaseArtifact.t :=
  {| HostReleaseArtifact.OS := "linux"; HostReleaseArtifact.Arch := arch;
     HostReleaseArtifact.Name := artifact_name (komelab "Autostream-Worker" "autostream-worker") "v1.2.0" arch;
     HostReleaseArtifact.Size := 7; HostReleaseArtifact.SHA256 := digest |}.

Definition demo_manifest : HostReleaseManifest.t :=
  {| HostReleaseManifest.SchemaVersion := 1; HostReleaseManifest.ReleaseID := "v1.2.0"; HostReleaseManifest.Channel := "host";
     HostReleaseManifest.PublishedAt := "2025-01-01T00:00:00Z"; HostReleaseManifest.MinimumAgentVersion := "v1.0.0";
     HostReleaseManifest.Components := [{|
       HostReleaseComponent.Service := "worker"; HostReleaseComponent.SourceVersion := "v1.2.0";
       HostReleaseComponent.Commit := demo_commit;
       HostReleaseComponent.Artifacts := [demo_artifact "amd64" demo_archive_digest; demo_artifact "arm64" demo_archive_digest];
       HostReleaseComponent.RollbackCompatible := true; HostReleaseComponent.DatabaseSchema := "none" |}] |}.

Definition demo_url (s : string) : option Url.t :=
  if HasPrefix s "https://api.github.com" then
    Some {| Url.Scheme := "https"; Url.Host := "api.github.com"; Url.Hostname := "api.github.com";
            Url.EscapedPath := str_drop 22 s; Url.RawQuery := ""; Url.Fragment := ""; Url.User := false |}
  else None.

#[local] Instance demo_formats : Formats := {|
  parse_url := demo_url;
  decode_release := fun s => if s ==? "release" then Some demo_release else None;
  decode_ref := fun s => if s ==? "ref" then Some {| GitObject.Type_ := "commit"; GitObject.SHA := demo_commit |} else None;
  decode_tag := fun _ => None;
  decode_manifest := fun s => if s ==? "manifest" then Some demo_manifest else None;
  parse_rfc3339 := fun s => s ==? "2025-01-01T00:00:00Z";
|}.

#[local] Instance demo_build : BuildInfo := "v2.0.0".

Definition demo_downloader : ReleaseDownloader :=
  {| APIBase := ""; Token := ""; TrustedPublicOnly := true; MaxArtifactBytes := 0; MaxExtractBytes := 0; MaxEntries := 0;
     AllowHTTPForTest := false |}.

Definition demo_tree : tree := {[ [] := Node.Directory o755; ["srv"] := Node.Directory o755 ]}.
Definition demo_host : world := {| fs := demo_tree; umask := 63; traffic := [] |}.

Definition reply (body : string) : answer := Answered (Final 200 (-1) body true).
Definition done_times (n : nat) : list answer := repeat Done n.

(** The answers of an undisturbed download into a new directory below [/srv]. *)
Definition demo_answers : list answer :=
  (done_times 3 ++ [reply "release"; reply "ref"; reply "manifest"] ++ done_times 5 ++ [reply demo_manifest_sidecar] ++
   done_times 7 ++ [reply "archive"] ++ done_times 5 ++ [reply demo_archive_sidecar] ++ done_times 60)%list.

Definition demo_download (dir : string) : prog op (result string DownloadedArtifact) :=
  Download demo_downloader "worker" "v1.2.0" "amd64" dir.

Definition demo_art (dir : string) : DownloadedArtifact :=
  {| ArchivePath := dir +:+ "/" +:+ demo_asset; RootDir := dir +:+ "/extracted/rel"; SHA256 := demo_archive_digest;
     AssetName := demo_asset |}.

(** A second host with another umask. *)
Definition demo_other : world := {| fs := demo_tree; umask := 0; traffic := [] |}.

(** What a download leaves: the digest on record, the manifest and the program. *)
Definition demo_left (dir : string) (w : world) : option (result string DownloadedArtifact) * option Node.t * option Node.t :=
  let out := run (demo_download dir) demo_answers w in
  (out.2, fs out.1 !! locate (Join [dir; "release-manifest.json"]), fs out.1 !! locate (dir +:+ "/extracted/rel/run")).

Lemma demo_left_inv dir w result manifest program :
  demo_left dir w = (result, manifest, program) ->
  (run (demo_download dir) demo_answers w).2 = result /\
  fs (run (demo_download dir) demo_answers w).1 !! locate (Join [dir; "release-manifest.json"]) = manifest.
Proof. unfold demo_left. generalize (run (demo_download dir) demo_answers w). intros out E. by injection E as -> -> _. Qed.

Lemma demo_first : demo_left "/srv/a" demo_host =
  (Some (Ok (demo_art "/srv/a")), Some (Node.File o600 "manifest"), Some (Node.File o755 "run")).
Proof. vm_compute. reflexivity. Qed.

Lemma demo_second : demo_left "/srv/b" demo_other =
  (Some (Ok (demo_art "/srv/b")), Some (Node.File o600 "manifest"), Some (Node.File o755 "run")).
Proof. vm_compute. reflexivity. Qed.

Lemma demo_closed : closed demo_tree.
Proof. apply closed_check_ok. vm_compute. reflexivity. Qed.

Lemma downloaded_release_is_bound_witness :
  let out := run (demo_download "/srv/a") demo_answers demo_host in
  out.2 = Some (Ok (demo_art "/srv/a")) /\
  exists spec tagCommit mdata adata artifact items,
    bound_release demo_downloader "worker" "v1.2.0" "amd64" "/srv/a" (demo_art "/srv/a") out.1 spec tagCommit mdata adata artifact items /\
    (TrustedPublicOnly demo_downloader = true -> exists manifest component, decode_manifest (limited 4194304 mdata) = Some manifest /\
       HostReleaseManifest.Components manifest = [component] /\ HostReleaseComponent.Commit component = tagCommit).
Proof.
  destruct (demo_left_inv _ _ _ _ _ demo_first) as [Hout _]. split; [exact Hout|]. apply (downloaded_release_is_bound demo_downloader "worker" "v1.2.0" "amd64" "/srv/a" demo_answers demo_host);
    [reflexivity|exact demo_closed|exact Hout].
Defined.

Lemma release_manifest_determines_tree_witness :
  let out1 := run (demo_download "/srv/a") demo_answers demo_host in
  let out2 := run (demo_download "/srv/b") demo_answers demo_other in
  SHA256 (demo_art "/srv/a") = SHA256 (demo_art "/srv/b") /\
  (same_tree (fs out1.1) (RootDir (demo_art "/srv/a")) (fs out2.1) (RootDir (demo_art "/srv/b")) \/
   exists m1 m2 adata1 adata2, collision adata1 adata2 /\
     fs out1.1 !! locate (ArchivePath (demo_art "/srv/a")) = Some (Node.File m1 adata1) /\
     fs out2.1 !! locate (ArchivePath (demo_art "/srv/b")) = Some (Node.File m2 adata2)).
Proof.
  destruct (demo_left_inv _ _ _ _ _ demo_first) as [R1 M1], (demo_left_inv _ _ _ _ _ demo_second) as [R2 M2].
  exact (release_manifest_determines_tree demo_downloader demo_downloader "worker" "v1.2.0" "amd64" "/srv/a" "/srv/b"
    demo_answers demo_answers demo_host demo_other (demo_art "/srv/a") (demo_art "/srv/b") o600 o600 "manifest"
    eq_refl eq_refl demo_closed demo_closed R1 R2 M1 M2).
Defined.

(** * Extraction and verification on their own *)

Definition demo_archive_host : world :=
  {| fs := <[["archive"; "srv"] := Node.File o600 "archive"]> demo_tree; umask := 63; traffic := [] |}.

(** Cut off in the middle of the second file. *)
Definition demo_cut : list answer := (done_times 16 ++ [Partly 5])%list.

Lemma extraction_contained_witness :
  let v := (run (ExtractTarGz "/srv/archive" "/srv/out" 100 10) demo_cut demo_archive_host).1 in
  (forall k n, fs demo_archive_host !! k = Some n -> fs v !! k = Some n) /\
  (forall k n, fs v !! k = Some n -> fs demo_archive_host !! k = Some n \/ (locate "/srv/out" `suffix_of` k /\ Node.plain n)) /\
  (stored (fs v) <= stored (fs demo_archive_host) + 100 + 1)%Z /\ (files (fs v) <= files (fs demo_archive_host) + 10)%Z.
Proof.
  apply (extraction_contained "/srv/archive" "/srv/out" 100 10 demo_archive_host);
    [reflexivity|apply closed_check_ok; vm_compute; reflexivity|lia|lia].
Defined.

(** An unpacked release in [/one] and the same one installed in [/two]. *)
Definition demo_releases : world :=
  {| fs := {[ [] := Node.Directory o755; ["one"] := Node.Directory o755; ["two"] := Node.Directory o755;
              ["run"; "one"] := Node.File o755 demo_run; ["checksums.txt"; "one"] := Node.File o644 demo_checks;
              ["run"; "two"] := Node.File o755 demo_run; ["checksums.txt"; "two"] := Node.File o644 demo_checks;
              [".version"; "two"] := Node.File o644 "v1.2.0" ]};
     umask := 0; traffic := [] |}.

Lemma demo_verified :
  (run (verifyInnerChecksums "/one" (below "/one" [])) (done_times 4) demo_releases).2 = Some (Ok tt) /\
  (run (verifyInnerChecksums "/two" (below "/two" managed_names)) (done_times 4) demo_releases).2 = Some (Ok tt).
Proof. vm_compute. auto. Qed.

Lemma checksums_determine_release_witness :
  exists mode' d2, fs demo_releases !! ["run"; "two"] = Some (Node.File mode' d2) /\ (demo_run = d2 \/ collision demo_run d2).
Proof.
  destruct demo_verified as [V1 V2].
  destruct (checksums_determine_release "/one" "/two" [] managed_names (done_times 4) (done_times 4) demo_releases demo_releases
    o644 o644 demo_checks eq_refl eq_refl V1 V2 eq_refl eq_refl) as [_ Hd].
  apply (Hd ["run"] o755 demo_run); [by apply not_elem_of_nil|reflexivity].
Defined.

(** * Installation *)

Definition demo_install : prog op check := installReleaseTree "/one" "/releases/v1.2.0-0eb3e36bfb24" demo_archive_digest "v1.2.0".

Definition demo_installed : option (result string unit) * option Node.t :=
  let out := run demo_install (done_times 60) demo_releases in
  (out.2, fs out.1 !! ["run"; "v1.2.0-0eb3e36bfb24"; "releases"]).

Lemma demo_installed_ok : demo_installed = (Some (Ok tt), Some (Node.File o755 "run")).
Proof. vm_compute. reflexivity. Qed.

(** The installation runs to its end; cut off after thirty operations it leaves a tidy tree. *)
Lemma release_appears_complete_witness :
  let out := run demo_install (done_times 30) demo_releases in
  tidy "/one" "/releases/v1.2.0-0eb3e36bfb24" demo_archive_digest "v1.2.0" ["releases"] demo_releases out.1 /\
  (out.2 = Some (Ok tt) -> released "/releases/v1.2.0-0eb3e36bfb24" demo_archive_digest "v1.2.0" out.1).
Proof.
  refine (release_appears_complete "/one" "/releases/v1.2.0-0eb3e36bfb24" demo_archive_digest "v1.2.0" "v1.2.0-0eb3e36bfb24" ["releases"]
    demo_releases eq_refl eq_refl eq_refl eq_refl (done_times 30) _ _ _ _ _ _ _).
  - apply closed_check_ok. vm_compute. reflexivity.
  - apply (bool_decide_unpack _). vm_compute. exact Logic.I.
  - apply (bool_decide_unpack _). vm_compute. exact Logic.I.
  - vm_compute. reflexivity.
  - discriminate.
  - vm_compute. reflexivity.
  - discriminate.
Defined.
