(* ===== verification/Jobs.v ===== *)
(** The update jobs the Panel hands to the host agent ([panel.go]), the software
    authority a claim freezes ([software_claim_binding.go]), the record of a failed
    stage ([stage_failure.go]) and the comparison of a saved job with a recovered
    claim of it ([host_pull_claim_validation.go]).

    The payload of a port reconfiguration is the contracts package's business and is
    an interface here: its types, encodings and validators are the fields of
    [PortContracts]. *)
From Stdlib Require Import Ascii String ZArith Lia.
From stdpp Require Import base decidable list strings.
From S2P Require Import Prelude Strings Regexp Patterns Sha256 Json PlanDigest.

Open Scope string_scope.

(** ** [time.Parse] with the layout [time.RFC3339Nano] *)

Definition digit_val (c : ascii) : Z := Z.of_N (code c) - 48.

(** [getnum]: two digits, or one when [fixed] is false. *)
Definition getnum (fixed : bool) (s : string) : option (Z * string) :=
  match s with
  | String a r =>
      if negb (digit a) then None
      else
        match r with
        | String b r' =>
            if digit b then Some ((digit_val a * 10 + digit_val b)%Z, r')
            else if fixed then None else Some (digit_val a, r)
        | EmptyString => if fixed then None else Some (digit_val a, r)
        end
  | EmptyString => None
  end.

(** A number in [lo..hi] followed by the literal byte [c]. *)
Definition field (fixed : bool) (lo hi : Z) (s : string) : option (Z * string) :=
  match getnum fixed s with
  | Some (n, r) => if ((n <? lo) || (hi <? n))%Z then None else Some (n, r)
  | None => None
  end.

Definition literal (c : ascii) (s : string) : option string :=
  match s with String a r => if Ascii.eqb a c then Some r else None | EmptyString => None end.

Fixpoint take_digits (s : string) : string * string :=
  match s with
  | String a r => if digit a then let (d, r') := take_digits r in (String a d, r') else ("", s)
  | EmptyString => ("", "")
  end.

Fixpoint scaled (width : nat) (s : string) : Z :=
  match width, s with
  | O, _ => 0
  | S w, String a r => (digit_val a * 10 ^ Z.of_nat w + scaled w r)%Z
  | S _, EmptyString => 0
  end.

(** The fraction of a second: a comma or period and at least one digit; the tenth
    and later digits are dropped. *)
Definition parse_fraction (s : string) : Z * string :=
  match s with
  | String p (String a _ as r) =>
      if one_of ".," p && digit a then let (d, r') := take_digits r in (scaled 9 d, r') else (0%Z, s)
  | _ => (0%Z, s)
  end.

(** The offset in seconds at the end of the text. *)
Definition parse_zone (s : string) : option (Z * bool) :=
  match s with
  | "Z" => Some (0%Z, true)
  | String sign (String h1 (String h2 (String c (String m1 (String m2 EmptyString))))) =>
      match field true 0 24 (String h1 (String h2 "")), literal ":" (String c ""),
            field true 0 60 (String m1 (String m2 "")) with
      | Some (h, _), Some _, Some (m, _) =>
          if Ascii.eqb sign "+" then Some ((h * 60 + m) * 60, false)%Z
          else if Ascii.eqb sign "-" then Some (- ((h * 60 + m) * 60), false)%Z
          else None
      | _, _, _ => None
      end
  | _ => None
  end.

Definition leap (y : Z) : bool := ((y mod 4 =? 0) && (negb (y mod 100 =? 0) || (y mod 400 =? 0)))%Z.

Definition month_days (y : Z) : list Z := [31; if leap y then 29 else 28; 31; 30; 31; 30; 31; 31; 30; 31; 30; 31]%Z.

Definition daysIn (m y : Z) : Z := nth (Z.to_nat (m - 1)) (month_days y) 0%Z.

(** Days from 0001-01-01 to a date. *)
Definition day_number (y m d : Z) : Z :=
  (365 * (y - 1) + (y - 1) / 4 - (y - 1) / 100 + (y - 1) / 400 +
   foldr Z.add 0 (firstn (Z.to_nat (m - 1)) (month_days y)) + d - 1)%Z.

Local Notation "'let&' x ':=' m 'in' k" := (match m with Some x => k | None => None end)
  (at level 10, x pattern, m at level 100, k at level 200).

Definition ParseRFC3339Nano (s : string) : option GoTime.t :=
  let& (y1, r) := getnum true s in
  let& (y2, r) := getnum true r in
  let& r := literal "-" r in
  let& (mo, r) := field true 1 12 r in
  let& r := literal "-" r in
  let& (d, r) := getnum true r in
  let& r := literal "T" r in
  let& (h, r) := field false 0 23 r in
  let& r := literal ":" r in
  let& (mi, r) := field true 0 59 r in
  let& r := literal ":" r in
  let& (sec, r) := field true 0 59 r in
  let (ns, r) := parse_fraction r in
  let& (offset, utc) := parse_zone r in
  let y := (y1 * 100 + y2)%Z in
  if ((d <? 1) || (daysIn mo y <? d))%Z then None
  else Some (GoTime.mk ((day_number y mo d * 86400 + h * 3600 + mi * 60 + sec - offset) * GoTime.Second + ns) utc).

Example parse_time_1 : ParseRFC3339Nano "2024-02-29T12:34:56.78Z" = Some (GoTime.mk 63844806896780000000 true).
Proof. vm_compute. reflexivity. Qed.
Example parse_time_2 : ParseRFC3339Nano "2023-02-29T12:34:56Z" = None.
Proof. vm_compute. reflexivity. Qed.
Example parse_time_3 : ParseRFC3339Nano "0001-01-01T00:00:00Z" = Some GoTime.zero.
Proof. vm_compute. reflexivity. Qed.
Example parse_time_4 : ParseRFC3339Nano "0001-01-01T9:00:00,5+09:00" = Some (GoTime.mk 500000000 false).
Proof. vm_compute. reflexivity. Qed.

(** ** Port payloads *)

Class PortContracts := {
  PortBinding : Type;                                  (** [SystemdPortMutationGrantBinding] *)
  PortResult : Type;                                   (** [contracts.SystemUpdatePortResultV2] *)
  PortPlan : Type;                                     (** [SystemdPortReconfigurePlan] *)
  PortPolicy : Type;                                   (** [portAgentPolicyState] *)
  PortReport : Type;                                   (** [PortReconfigurationJobReport] *)
  ExecutorPortResult : Type;                           (** [SystemdPortReconfigureResult] *)
  binding_json : PortBinding -> json;
  result_json : PortResult -> json;
  plan_json : PortPlan -> json;
  policy_json : PortPolicy -> json;
  report_json : PortReport -> json;
  PortContractVersion : PortBinding -> Z;
  validatePortJobContract : PortBinding -> string -> check;
  samePortMutationGrantBinding : option PortBinding -> option PortBinding -> bool;
  IsAcceptedPortResult : PortResult -> bool;
  IsRollbackFailed : PortResult -> bool;
  ValidatePortResult : PortBinding -> PortResult -> check;
  EqualPortResults : PortResult -> PortResult -> bool;
  PortPlan_JobID : PortPlan -> string;
  PortPlan_Validate : PortPlan -> check;
  ResultOnly : ExecutorPortResult -> PortReport;       (** a report with only the result word *)
  FullReport : PortResult -> PortReport;
  Result_ContractVersion : ExecutorPortResult -> Z;
  Result_PortResult : ExecutorPortResult -> option PortResult;
  Result_Status : ExecutorPortResult -> string;
  Result_RecoveryRequired : ExecutorPortResult -> bool;
  Result_Validate : ExecutorPortResult -> check;
}.

(** ** The frozen software authority *)

Module SoftwareBinding.
Record t := mk {
  ConfigRevision : Z;
  ConfigSHA256 : string;
  CommandSHA256 : string;
  SourcePolicyRevision : Z;
  ProjectionRevision : Z;
  ExecutorPolicyRevision : Z;
  ExecutorPolicySHA256 : string;
}.

#[global] Instance eq_dec : EqDecision t.
Proof. solve_decision. Defined.

Definition wire_invalid (b : t) : bool :=
  (ConfigRevision b <? 1)%Z || negb (re_match digestPattern (CommandSHA256 b)) ||
  ((ConfigSHA256 b !=? "") && negb (re_match digestPattern (ConfigSHA256 b))).

Definition Validate (b : t) : check :=
  if wire_invalid b || (SourcePolicyRevision b <? 1)%Z || (ProjectionRevision b <? 1)%Z ||
     (ExecutorPolicyRevision b <? 1)%Z || negb (re_match digestPattern (ExecutorPolicySHA256 b))
  then Err "software claim policy snapshot is incomplete" else Ok tt.

Definition validateIntent (b : t) : check :=
  if wire_invalid b then Err "software configuration or command binding is invalid"
  else if (SourcePolicyRevision b =? 0)%Z && (ProjectionRevision b =? 0)%Z &&
     (ExecutorPolicyRevision b =? 0)%Z && (ExecutorPolicySHA256 b ==? "")
  then Ok tt
  else Validate b.

Definition to_json (b : t) : json := JObj (
  [("config_revision", JNum (ConfigRevision b))] ++
  omit_str "config_sha256" (ConfigSHA256 b) ++
  [("command_sha256", JStr (CommandSHA256 b))] ++
  omit_num "source_policy_revision" (SourcePolicyRevision b) ++
  omit_num "projection_revision" (ProjectionRevision b) ++
  omit_num "executor_policy_revision" (ExecutorPolicyRevision b) ++
  omit_str "executor_policy_sha256" (ExecutorPolicySHA256 b)).
End SoftwareBinding.

(** ** Stage failures *)

Module StageFailure.
Record t := mk { JobID : string; Code : string; Message : string }.

#[global] Instance eq_dec : EqDecision t.
Proof. solve_decision. Defined.

Definition ReleaseStaging : string := "release_staging_failed".
Definition SmokeExecution : string := "candidate_binary_smoke_execution_failed".
Definition VersionMismatch : string := "candidate_binary_version_mismatch".
Definition MessageReleaseStaging : string := "release staging failed".
Definition MessageSmokeExecution : string := "candidate binary smoke execution failed".
Definition MessageVersionMismatch : string := "candidate binary version output mismatch".
Definition MessageLegacySmoke : string := "candidate binary smoke check failed".

Definition validate (f : t) : check :=
  if negb (re_match identifierPattern (TrimSpace (JobID f))) then Err "stage failure job identity is invalid"
  else
    let! _ :=
      if Code f ==? ReleaseStaging then
        if (Message f !=? MessageReleaseStaging) && (Message f !=? MessageLegacySmoke)
        then Err "generic stage failure message is invalid" else Ok tt
      else if Code f ==? SmokeExecution then
        if Message f !=? MessageSmokeExecution then Err "smoke execution failure message is invalid" else Ok tt
      else if Code f ==? VersionMismatch then
        if Message f !=? MessageVersionMismatch then Err "version mismatch failure message is invalid" else Ok tt
      else Err "stage failure code is invalid" in
    if negb (safeExecutorMessage (Message f)) then Err "stage failure message is invalid" else Ok tt.

Definition reportCode (f : t) : string :=
  if Code f ==? SmokeExecution then "remote_stage_smoke_execution_failed"
  else if Code f ==? VersionMismatch then "remote_stage_version_mismatch"
  else "remote_stage_failed".

(** [stageFailureFromLocalExecutorError], on the code and message of the client
    error when there is one. *)
Definition fromExecutorError (jobID : string) (err : option (string * string)) : option t :=
  match err with
  | Some (code, message) =>
      if code !=? "stage_failed" then None
      else
        let message := TrimSpace message in
        Some (if message ==? MessageSmokeExecution then mk jobID SmokeExecution MessageSmokeExecution
              else if message ==? MessageVersionMismatch then mk jobID VersionMismatch MessageVersionMismatch
              else if message ==? MessageLegacySmoke then mk jobID ReleaseStaging MessageLegacySmoke
              else mk jobID ReleaseStaging MessageReleaseStaging)
  | None => None
  end.

Definition to_json (f : t) : json := JObj
  [("job_id", JStr (JobID f)); ("code", JStr (Code f)); ("message", JStr (Message f))].
End StageFailure.

(** ** Jobs *)

Definition updateJobOperationSoftwareUpdate : string := "software_update".
Definition updateJobOperationPortReconfigure : string := "port_reconfigure".
Definition updateJobOperationBootstrap : string := "bootstrap".
Definition updateJobOperationHostSelfUpdate : string := "host_self_update".

Module Job.
Section Job.
Context `{PortContracts}.

Record t := mk {
  ProtocolVersion : Z;
  CommandID : string;
  ID : string;
  Operation : string;
  PortReconfigure : option PortBinding;
  PortResultOf : option PortResult;                    (** [PortResult] *)
  LastRecoveryObservation : option PortResult;
  AgentServiceID : string;
  HostID : string;
  TransportMode : string;
  OwnershipEpoch : Z;
  PolicyRevision : Z;
  SoftwareUpdate : option SoftwareBinding.t;
  SoftwareClaimRejected : bool;
  TargetID : string;
  TargetType : string;
  ServiceType : string;
  DeploymentMode : string;
  CurrentVersion : string;
  TargetVersion : string;
  Version : string;
  LeaseToken : string;
  ReleaseToken : string;                               (** not in the encoding *)
  LeaseExpiresAt : string;
  Status : string;
  Progress : Z;
  Code : string;
  Message : string;
  ArtifactDigest : string;
  PreviousDigest : string;
  Sequence : Z;
  ReportSequence : Z;                                  (** not in the encoding *)
  LeaseGeneration : Z;
  RecoveryRequired : bool;
  RecoveryClear : bool;                                (** not in the encoding *)
}.

#[global] Instance eta_t : Eta t := fun j =>
  mk (ProtocolVersion j) (CommandID j) (ID j) (Operation j) (PortReconfigure j) (PortResultOf j)
     (LastRecoveryObservation j) (AgentServiceID j) (HostID j) (TransportMode j) (OwnershipEpoch j)
     (PolicyRevision j) (SoftwareUpdate j) (SoftwareClaimRejected j) (TargetID j) (TargetType j)
     (ServiceType j) (DeploymentMode j) (CurrentVersion j) (TargetVersion j) (Version j) (LeaseToken j)
     (ReleaseToken j) (LeaseExpiresAt j) (Status j) (Progress j) (Code j) (Message j) (ArtifactDigest j)
     (PreviousDigest j) (Sequence j) (ReportSequence j) (LeaseGeneration j) (RecoveryRequired j)
     (RecoveryClear j).

Definition EffectiveOperation (j : t) : string :=
  let operation := TrimSpace (Operation j) in
  if operation ==? "" then updateJobOperationSoftwareUpdate else operation.

Definition EffectiveVersion (j : t) : string :=
  if TrimSpace (TargetVersion j) !=? "" then TrimSpace (TargetVersion j) else TrimSpace (Version j).

Definition EffectiveType (j : t) : string :=
  if TrimSpace (ServiceType j) !=? "" then TrimSpace (ServiceType j) else TrimSpace (TargetType j).

Definition present {A} (x : option A) : bool := match x with Some _ => true | None => false end.

Definition validateOperationUnion (j : t) : check :=
  let operation := EffectiveOperation j in
  if (operation !=? updateJobOperationSoftwareUpdate) && (present (SoftwareUpdate j) || SoftwareClaimRejected j)
  then Err "non-software job unexpectedly contains a software authority"
  else if operation ==? updateJobOperationSoftwareUpdate then
    if present (PortReconfigure j) then Err "software update job unexpectedly contains a port plan" else Ok tt
  else if operation ==? updateJobOperationPortReconfigure then
    match PortReconfigure j with
    | Some port =>
        if (Operation j !=? updateJobOperationPortReconfigure) ||
           is_err (validatePortJobContract port (DeploymentMode j))
        then Err "port reconfiguration job contract is invalid" else Ok tt
    | None => Err "port reconfiguration job contract is invalid"
    end
  else if (operation ==? updateJobOperationBootstrap) || (operation ==? updateJobOperationHostSelfUpdate) then
    if (ProtocolVersion j !=? 2)%Z || present (PortReconfigure j)
    then Err "v2 updater job contract is invalid" else Ok tt
  else Err "update job operation is invalid".

Definition isV2SoftwareJob (j : t) : bool :=
  (ProtocolVersion j ==? 2)%Z && (EffectiveOperation j ==? updateJobOperationSoftwareUpdate).

Definition isPortContractV2 (j : t) : bool :=
  (ProtocolVersion j ==? 2)%Z && (EffectiveOperation j ==? updateJobOperationPortReconfigure) &&
  match PortReconfigure j with Some port => (PortContractVersion port ==? 2)%Z | None => false end.

Definition sameSoftwareJobIdentity (l r : t) : bool :=
  isV2SoftwareJob l && isV2SoftwareJob r && (ID l ==? ID r) && (Operation l ==? Operation r) &&
  (AgentServiceID l ==? AgentServiceID r) && (HostID l ==? HostID r) && (TransportMode l ==? TransportMode r) &&
  (OwnershipEpoch l ==? OwnershipEpoch r) && (TargetID l ==? TargetID r) && (TargetType l ==? TargetType r) &&
  (ServiceType l ==? ServiceType r) && (DeploymentMode l ==? DeploymentMode r) &&
  (CurrentVersion l ==? CurrentVersion r) && (TargetVersion l ==? TargetVersion r) && (Version l ==? Version r) &&
  negb (present (PortReconfigure l)) && negb (present (PortReconfigure r)).

(** The lease of a recovered claim: unchanged, or the next generation with a new
    command and two expiry times that can be read. *)
Definition sameRecoveredJobLease (active recovered : t) : bool :=
  if (ProtocolVersion active !=? 2)%Z || (ProtocolVersion recovered !=? 2)%Z ||
     ((negb (isPortContractV2 active) || negb (isPortContractV2 recovered)) &&
      (negb (isV2SoftwareJob active) || negb (isV2SoftwareJob recovered)))
  then CommandID active ==? CommandID recovered
  else if (LeaseGeneration active ==? LeaseGeneration recovered)
  then (CommandID active ==? CommandID recovered) && (LeaseExpiresAt active ==? LeaseExpiresAt recovered)
  else if negb (RecoveryRequired recovered) || (LeaseGeneration active =? 0)%Z ||
     (max_int64 <=? LeaseGeneration active)%Z || (LeaseGeneration recovered !=? LeaseGeneration active + 1)%Z ||
     (CommandID active ==? CommandID recovered) || negb (re_match identifierPattern (CommandID active)) ||
     negb (re_match identifierPattern (CommandID recovered))
  then false
  else
    match ParseRFC3339Nano (LeaseExpiresAt active), ParseRFC3339Nano (LeaseExpiresAt recovered) with
    | Some a, Some r => negb (GoTime.IsZero a) && negb (GoTime.IsZero r)
    | _, _ => false
    end.

(** A new software lease needs the original frozen authority on both sides. *)
Definition frozen_authority (j : t) : bool :=
  match SoftwareUpdate j with
  | Some b => is_ok (SoftwareBinding.Validate b) && (PolicyRevision j ==? SoftwareBinding.ProjectionRevision b)
  | None => false
  end.

Definition sameRecoveredJobIntent (active recovered : t) : bool :=
  if (ProtocolVersion active !=? ProtocolVersion recovered) || negb (sameRecoveredJobLease active recovered) ||
     (ID active !=? ID recovered) || (Operation active !=? Operation recovered) ||
     (AgentServiceID active !=? AgentServiceID recovered) || (HostID active !=? HostID recovered) ||
     (TransportMode active !=? TransportMode recovered) || (OwnershipEpoch active !=? OwnershipEpoch recovered) ||
     (PolicyRevision active !=? PolicyRevision recovered) || (TargetID active !=? TargetID recovered) ||
     (TargetType active !=? TargetType recovered) || (ServiceType active !=? ServiceType recovered) ||
     (DeploymentMode active !=? DeploymentMode recovered) || (CurrentVersion active !=? CurrentVersion recovered) ||
     (TargetVersion active !=? TargetVersion recovered) || (Version active !=? Version recovered)
  then false
  else if EffectiveOperation active ==? updateJobOperationSoftwareUpdate then
    if negb (Bool.eqb (SoftwareClaimRejected active) (SoftwareClaimRejected recovered)) ||
       present (PortReconfigure active) || present (PortReconfigure recovered)
    then false
    else if isV2SoftwareJob active &&
       ((LeaseGeneration active !=? LeaseGeneration recovered) || (CommandID active !=? CommandID recovered)) &&
       (SoftwareClaimRejected active || negb (frozen_authority active) || negb (frozen_authority recovered))
    then false
    else (SoftwareUpdate active ==? SoftwareUpdate recovered)
  else samePortMutationGrantBinding (PortReconfigure active) (PortReconfigure recovered).

(** The fields that survive encoding and decoding. *)
Definition persisted (j : t) : t :=
  j <| ReleaseToken := "" |> <| ReportSequence := 0%Z |> <| RecoveryClear := false |>.

Definition to_json (j : t) : json := JObj (
  omit_num "protocol_version" (ProtocolVersion j) ++
  omit_str "command_id" (CommandID j) ++
  [("id", JStr (ID j))] ++
  omit_str "operation" (Operation j) ++
  omit_opt "port_reconfigure" binding_json (PortReconfigure j) ++
  omit_opt "port_result" result_json (PortResultOf j) ++
  omit_opt "last_recovery_observation" result_json (LastRecoveryObservation j) ++
  omit_str "updater_id" (AgentServiceID j) ++
  omit_str "host_id" (HostID j) ++
  omit_str "transport_mode" (TransportMode j) ++
  omit_num "ownership_epoch" (OwnershipEpoch j) ++
  omit_num "policy_revision" (PolicyRevision j) ++
  omit_opt "software_update_binding" SoftwareBinding.to_json (SoftwareUpdate j) ++
  omit_bool "software_claim_rejected" (SoftwareClaimRejected j) ++
  [("target_id", JStr (TargetID j))] ++
  omit_str "target_type" (TargetType j) ++
  [("service_type", JStr (ServiceType j)); ("deployment_mode", JStr (DeploymentMode j))] ++
  omit_str "current_version" (CurrentVersion j) ++
  [("target_version", JStr (TargetVersion j))] ++
  omit_str "version" (Version j) ++
  omit_str "lease_token" (LeaseToken j) ++
  omit_str "lease_expires_at" (LeaseExpiresAt j) ++
  omit_str "status" (Status j) ++
  omit_num "progress" (Progress j) ++
  omit_str "code" (Code j) ++
  omit_str "message" (Message j) ++
  omit_str "artifact_digest" (ArtifactDigest j) ++
  omit_str "previous_digest" (PreviousDigest j) ++
  omit_num "sequence" (Sequence j) ++
  omit_num "lease_generation" (LeaseGeneration j) ++
  omit_bool "recovery_required" (RecoveryRequired j)).
End Job.
End Job.
