(* ===== verification/Journal.v ===== *)
(** The host agent's durable journal ([journal.go], [software_journal_binding.go]):
    the active job, its plan, the reports not yet acknowledged and the versions that
    were deployed.  Every change rewrites [journal.json] by an atomic rename.
    Clearing the active job is done under a second file, the clear fence, that holds
    the state before; opening the journal reconciles the two.

    A file is modelled by the value that was encoded into it.  Decoding loses the
    fields that have no encoding ([persisted]) and nothing else: all strings come
    from JSON texts or from literals, so they are valid UTF-8. *)
From Stdlib Require Import Ascii String ZArith Lia.
From stdpp Require Import base decidable list strings gmap sorting.
From S2P Require Import Prelude Strings Regexp Patterns Effects Sha256 Json PlanDigest Jobs.

Open Scope string_scope.

Definition journalActiveClearMarkerVersion : Z := 1.
Definition journalActiveClearMarkerMaxSize : Z := 2 ^ 20.
Definition journalPortActiveClearMarkerMaxSize : Z := 4 * 2 ^ 20.

(** ** Reports *)

Module Report.
Section Report.
Context `{PortContracts}.

Record t := mk {
  ServiceID : string;
  LeaseToken : string;
  Sequence : Z;
  LeaseGeneration : Z;
  Status : string;
  Progress : Z;
  Code : string;
  Message : string;
  ArtifactDigest : string;
  PreviousDigest : string;
  PortReconfigure : option PortReport;
}.

#[global] Instance eta_t : Eta t := fun r =>
  mk (ServiceID r) (LeaseToken r) (Sequence r) (LeaseGeneration r) (Status r) (Progress r) (Code r)
     (Message r) (ArtifactDigest r) (PreviousDigest r) (PortReconfigure r).

Definition to_json (r : t) : json := JObj (
  [("service_id", JStr (ServiceID r)); ("lease_token", JStr (LeaseToken r)); ("sequence", JNum (Sequence r));
   ("lease_generation", JNum (LeaseGeneration r)); ("status", JStr (Status r))] ++
  omit_num "progress" (Progress r) ++
  omit_str "code" (Code r) ++
  omit_str "message" (Message r) ++
  omit_str "artifact_digest" (ArtifactDigest r) ++
  omit_str "previous_digest" (PreviousDigest r) ++
  omit_opt "port_reconfigure" report_json (PortReconfigure r)).
End Report.
End Report.

(** A report with the job it belongs to ([PendingReport]). *)
Module Pending.
Section Pending.
Context `{PortContracts}.
Record t := mk { JobID : string; report : Report.t }.

#[global] Instance eta_t : Eta t := fun p => mk (JobID p) (report p).

Definition to_json (p : t) : json := JObj [("job_id", JStr (JobID p)); ("report", Report.to_json (report p))].
End Pending.
End Pending.

(** [v2ProgressPhase]: the statuses of a job in progress. *)
Definition v2ProgressPhase (status : string) : option string :=
  if status ==? "claimed" then Some "accepted"
  else if (status ==? "downloading") || (status ==? "staging") then Some "preparing"
  else if status ==? "installing" then Some "executing"
  else if (status ==? "verifying") || (status ==? "health_checking") then Some "verifying"
  else if status ==? "rolling_back" then Some "rolling_back"
  else if status ==? "reconciling" then Some "reconciling"
  else None.

(** ** Journal data *)

Definition mutation_plan_json (p : MutationPlan.t) : json := JObj (
  [("job_id", JStr (MutationPlan.JobID p)); ("host_id", JStr (MutationPlan.HostID p));
   ("target_id", JStr (MutationPlan.TargetID p)); ("service_type", JStr (MutationPlan.ServiceType p));
   ("deployment_mode", JStr (MutationPlan.DeploymentMode p));
   ("current_version", JStr (MutationPlan.CurrentVersion p));
   ("config_sha256", JStr (MutationPlan.ConfigSHA256 p));
   ("target_version", JStr (MutationPlan.TargetVersion p));
   ("lease_generation", JNum (MutationPlan.LeaseGeneration p))] ++
  omit_str "artifact_digest" (MutationPlan.ArtifactDigest p) ++
  omit_str "expected_version" (MutationPlan.ExpectedVersion p) ++
  omit_str "expected_image_digest" (MutationPlan.ExpectedImageDigest p) ++
  omit_str "expected_platform_digest" (MutationPlan.ExpectedPlatformDigest p) ++
  [("session_id", JStr (MutationPlan.SessionID p)); ("plan_sha256", JStr (MutationPlan.PlanSHA256 p))]).

(** A map is encoded with its keys in byte order. *)
Definition key_le (x y : string * string) : Prop := String.leb x.1 y.1 = true.
#[global] Instance key_le_dec : RelDecision key_le := fun x y => decide (String.leb x.1 y.1 = true).

Definition string_map_json (m : gmap string string) : json :=
  JObj (map (fun kv => (kv.1, JStr kv.2)) (merge_sort key_le (map_to_list m))).

Definition omit_map (k : string) (m : gmap string string) : list (string * json) :=
  if decide (m = ∅) then [] else [(k, string_map_json m)].

Module Data.
Section Data.
Context `{PortContracts}.

Record t := mk {
  ActiveJob : option Job.t;
  ActivePlan : option MutationPlan.t;
  ActivePortPlan : option PortPlan;
  ActivePortPolicy : option PortPolicy;
  ActiveStageFailure : option StageFailure.t;
  NextSeq : Z;
  PendingReports : list Pending.t;
  DeployedVersions : gmap string string;
}.

#[global] Instance eta_t : Eta t := fun d =>
  mk (ActiveJob d) (ActivePlan d) (ActivePortPlan d) (ActivePortPolicy d) (ActiveStageFailure d)
     (NextSeq d) (PendingReports d) (DeployedVersions d).

Definition initial : t := mk None None None None None 1 [] ∅.

Definition to_fields (d : t) : list (string * json) :=
  omit_opt "active_job" Job.to_json (ActiveJob d) ++
  omit_opt "active_plan" mutation_plan_json (ActivePlan d) ++
  omit_opt "active_port_plan" plan_json (ActivePortPlan d) ++
  omit_opt "active_port_policy" policy_json (ActivePortPolicy d) ++
  omit_opt "active_stage_failure" StageFailure.to_json (ActiveStageFailure d) ++
  [("next_sequence", JNum (NextSeq d))] ++
  omit_arr "pending_reports" Pending.to_json (PendingReports d) ++
  omit_map "deployed_versions" (DeployedVersions d).

Definition to_json (d : t) : json := JObj (to_fields d).

(** The value that a file encoded from [d] decodes to. *)
Definition persisted (d : t) : t := d <| ActiveJob := option_map Job.persisted (ActiveJob d) |>.

(** The journal without its active cursor, as [ClearActive] builds it. *)
Definition cleared (d : t) : t :=
  d <| ActiveJob := None |> <| ActivePlan := None |> <| ActivePortPlan := None |>
    <| ActivePortPolicy := None |> <| ActiveStageFailure := None |>.
End Data.
End Data.

(** [portAgentPolicyState.validate] reads only encoded fields of the job. *)
Class PortPolicies `{PortContracts} := {
  PortPolicy_validate : PortPolicy -> option Job.t -> option PortPlan -> check;
  PortPolicy_validate_persisted p job plan :
    PortPolicy_validate p (option_map Job.persisted job) plan = PortPolicy_validate p job plan;
}.

Section Rules.
Context `{UnicodeTables} `{TimeZones} `{PortPolicies}.

Definition validateJournalSoftwareJob (job : Job.t) : check :=
  match Job.SoftwareUpdate job with
  | None =>
      if Job.SoftwareClaimRejected job || (Job.isV2SoftwareJob job && (Job.PolicyRevision job <? 1)%Z)
      then Err "update journal software claim lacks its saved intent" else Ok tt
  | Some b =>
      if negb (Job.isV2SoftwareJob job) || is_err (SoftwareBinding.validateIntent b)
      then Err "update journal software claim binding is invalid"
      else if is_ok (SoftwareBinding.Validate b) then
        if Job.PolicyRevision job !=? SoftwareBinding.ProjectionRevision b
        then Err "update journal software projection revision is invalid" else Ok tt
      else if negb (Job.SoftwareClaimRejected job) || (Job.PolicyRevision job !=? 0)%Z
      then Err "update journal unbound software claim must remain rejected" else Ok tt
  end.

Definition validateJournalSoftwarePlan (job : Job.t) (plan : MutationPlan.t) (currentLease : bool) : check :=
  if negb (Job.isV2SoftwareJob job) then Ok tt
  else if Job.SoftwareClaimRejected job || (MutationPlan.JobID plan !=? Job.ID job) ||
     (MutationPlan.HostID plan !=? Job.HostID job) || (MutationPlan.TargetID plan !=? Job.TargetID job) ||
     (MutationPlan.ServiceType plan !=? Job.EffectiveType job) ||
     (MutationPlan.DeploymentMode plan !=? Job.DeploymentMode job) ||
     (MutationPlan.CurrentVersion plan !=? Job.CurrentVersion job) ||
     (MutationPlan.TargetVersion plan !=? Job.EffectiveVersion job) ||
     (Job.LeaseGeneration job <? MutationPlan.LeaseGeneration plan)%Z ||
     (currentLease && (MutationPlan.LeaseGeneration plan !=? Job.LeaseGeneration job)) ||
     match Job.SoftwareUpdate job with
     | Some b => MutationPlan.ConfigSHA256 plan !=? SoftwareBinding.ExecutorPolicySHA256 b
     | None => false
     end
  then Err "update journal software plan does not match its saved authority" else Ok tt.

(** A journal saved before software bindings existed, whose plan proves the same
    authority as the recovered claim. *)
Definition journalLegacySoftwareBindingMatches (active recovered : Job.t) (plan : option MutationPlan.t) : bool :=
  match Job.SoftwareUpdate active, Job.SoftwareUpdate recovered, plan with
  | None, Some b, Some p =>
      is_ok (SoftwareBinding.Validate b) && (Job.PolicyRevision active ==? SoftwareBinding.ConfigRevision b) &&
      Bool.eqb (Job.SoftwareClaimRejected active) (Job.SoftwareClaimRejected recovered) &&
      (Job.LeaseGeneration active !=? Job.LeaseGeneration recovered) &&
      Job.sameRecoveredJobLease active recovered && Job.sameSoftwareJobIdentity active recovered &&
      is_ok (MutationPlan.Validate p) && is_ok (validateJournalSoftwarePlan active p false) &&
      (MutationPlan.ConfigSHA256 p ==? SoftwareBinding.ExecutorPolicySHA256 b)
  | _, _, _ => false
  end.

Definition sameJournalSoftwarePlanIntent (l r : MutationPlan.t) : bool :=
  let forget p := p <| MutationPlan.LeaseGeneration := 0%Z |> <| MutationPlan.PlanSHA256 := "" |> in
  (forget l ==? forget r).

(** The accepted result and the last observation of a port job. *)
Definition validate_port_results (job : Job.t) : check :=
  match Job.PortReconfigure job with
  | Some port =>
      if negb (Job.isPortContractV2 job) then Ok tt
      else
        let! _ := match Job.PortResultOf job with
                  | Some r => if negb (IsAcceptedPortResult r) || is_err (ValidatePortResult port r)
                              then Err "update journal accepted port result is invalid" else Ok tt
                  | None => Ok tt
                  end in
        match Job.LastRecoveryObservation job with
        | Some r => if negb (IsRollbackFailed r) || is_err (ValidatePortResult port r)
                    then Err "update journal port recovery observation is invalid" else Ok tt
        | None => Ok tt
        end
  | None => Ok tt
  end.

Definition plan_binding_invalid (d : Data.t) (job : Job.t) : bool :=
  match Data.ActivePlan d, Data.ActivePortPlan d with
  | Some _, Some _ => true
  | Some p, None =>
      (Job.EffectiveOperation job !=? updateJobOperationSoftwareUpdate) ||
      (MutationPlan.JobID p !=? Job.ID job) || is_err (MutationPlan.Validate p)
  | None, Some p =>
      (Job.EffectiveOperation job !=? updateJobOperationPortReconfigure) ||
      (PortPlan_JobID p !=? Job.ID job) || is_err (PortPlan_Validate p)
  | None, None => false
  end.

Definition validate_plans (d : Data.t) : check :=
  match Data.ActivePlan d, Data.ActivePortPlan d, Data.ActiveJob d with
  | None, None, _ => Ok tt
  | _, _, None => Err "update journal active plan binding is invalid"
  | plan, _, Some job =>
      if plan_binding_invalid d job then Err "update journal active plan binding is invalid"
      else match plan with Some p => validateJournalSoftwarePlan job p false | None => Ok tt end
  end.

Definition validate_stage_failure (d : Data.t) : check :=
  match Data.ActiveStageFailure d with
  | None => Ok tt
  | Some f =>
      match Data.ActiveJob d with
      | Some job =>
          if StageFailure.JobID f !=? Job.ID job
          then Err "update journal active stage failure binding is invalid" else StageFailure.validate f
      | None => Err "update journal active stage failure binding is invalid"
      end
  end.

Definition validate_active_job (job : Job.t) : check :=
  if is_err (Job.validateOperationUnion job) then Err "update journal active job operation is invalid"
  else let! _ := validateJournalSoftwareJob job in validate_port_results job.

Definition validateJournalData (d : Data.t) : check :=
  let! _ := match Data.ActiveJob d with Some job => validate_active_job job | None => Ok tt end in
  let! _ := validate_plans d in
  let! _ := validate_stage_failure d in
  match Data.ActivePortPolicy d with
  | Some p => PortPolicy_validate p (Data.ActiveJob d) (Data.ActivePortPlan d)
  | None => Ok tt
  end.

(** The reports a restarted agent may keep: those of the saved cursor, in order. *)
Fixpoint pending_sequence_ok (active : Job.t) (nextSeq previous : Z) (l : list Pending.t) : bool :=
  match l with
  | [] => true
  | p :: l' =>
      let r := Pending.report p in
      (Pending.JobID p ==? Job.ID active) && (Report.LeaseGeneration r ==? Job.LeaseGeneration active) &&
      (Report.ServiceID r ==? Job.AgentServiceID active) && (Report.Sequence r !=? 0)%Z &&
      (previous <? Report.Sequence r)%Z && (Report.Sequence r <? nextSeq)%Z && (Report.LeaseToken r ==? "") &&
      negb (Job.present (Report.PortReconfigure r)) &&
      (Job.present (v2ProgressPhase (Report.Status r)) || isTerminalUpdateStatus (Report.Status r)) &&
      (0 <=? Report.Progress r)%Z && (Report.Progress r <=? 100)%Z &&
      ((Report.ArtifactDigest r ==? "") || (canonicalReportDigest (Report.ArtifactDigest r) !=? "")) &&
      ((Report.PreviousDigest r ==? "") || (canonicalReportDigest (Report.PreviousDigest r) !=? "")) &&
      pending_sequence_ok active nextSeq (Report.Sequence r) l'
  end.

Definition pending_cursor_ambiguous (d : Data.t) (active : Job.t) : bool :=
  negb (Job.isV2SoftwareJob active) || Job.SoftwareClaimRejected active ||
  (Job.TransportMode active !=? HostTransportPullV2) || (Job.OwnershipEpoch active <? 1)%Z ||
  (Job.LeaseGeneration active =? 0)%Z || negb (re_match identifierPattern (Job.ID active)) ||
  negb (re_match identifierPattern (Job.CommandID active)) ||
  negb (re_match identifierPattern (Job.AgentServiceID active)) ||
  negb (validExecutionHostID (Job.HostID active)) || negb (re_match identifierPattern (Job.TargetID active)) ||
  (Job.LeaseToken active !=? "") || (Job.ReleaseToken active !=? "") ||
  Job.present (Data.ActivePortPlan d) || Job.present (Data.ActivePortPolicy d).

Definition validateJournalSoftwarePendingForRestart (d : Data.t) : check :=
  match Data.ActiveJob d with
  | None => Err "update journal software pending cursor is ambiguous"
  | Some active =>
      if pending_cursor_ambiguous d active then Err "update journal software pending cursor is ambiguous"
      else
        let! _ :=
          match Job.SoftwareUpdate active with
          | Some b =>
              if is_err (SoftwareBinding.Validate b) || is_err (validateJournalSoftwareJob active)
              then Err "update journal software pending authority is incomplete" else Ok tt
          | None =>
              match Data.ActivePlan d with
              | Some p =>
                  if (Job.PolicyRevision active <? 1)%Z || is_err (MutationPlan.Validate p) ||
                     is_err (validateJournalSoftwarePlan active p false)
                  then Err "update journal legacy software pending lacks its original plan" else Ok tt
              | None => Err "update journal legacy software pending lacks its original plan"
              end
          end in
        if pending_sequence_ok active (Data.NextSeq d) 0 (Data.PendingReports d) then Ok tt
        else Err "update journal software pending report does not match its saved cursor"
  end.

(** ** The clear fence *)

Definition journalDataSHA256 (d : Data.t) : option string :=
  match Marshal (Data.to_json d) with
  | Some encoded => Some ("sha256:" +:+ sha256_hex encoded)
  | None => None
  end.
End Rules.

Module Marker.
Section Marker.
Context `{PortContracts}.
Record t := mk { SchemaVersion : Z; PreviousSHA256 : string; Previous : Data.t }.

#[global] Instance eta_t : Eta t := fun m => mk (SchemaVersion m) (PreviousSHA256 m) (Previous m).

Definition to_json (m : t) : json := JObj
  [("schema_version", JNum (SchemaVersion m)); ("previous_sha256", JStr (PreviousSHA256 m));
   ("previous", Data.to_json (Previous m))].

Definition persisted (m : t) : t := m <| Previous := Data.persisted (Previous m) |>.
End Marker.
End Marker.

Section Programs.
Context `{UnicodeTables} `{TimeZones} `{PortPolicies}.

(** ** Files *)

Record disk := Disk {
  main : option Data.t;          (** [journal.json] *)
  marker : option Marker.t;      (** [journal.clear-active.pending.json] *)
  temp : bool;                   (** its temporary file exists *)
}.

#[global] Instance eta_disk : Eta disk := fun w => Disk (main w) (marker w) (temp w).

Inductive op : Type -> Type :=
| ReadMain : op (result string (option Data.t))
| WriteMain (d : Data.t) : op check              (** write, rename and sync [journal.json] *)
| ReadMarker : op (result string (option Marker.t))
| ClearTemp : op check                           (** remove the temporary file, if any *)
| WriteTemp (m : Marker.t) : op check            (** create it exclusively and write it *)
| InstallMarker (m : Marker.t) : op check        (** rename it to the fence *)
| SyncDir : op check
| RemoveMarker : op check.

(** An operation may fail before or after it has happened. *)
Inductive answer := Succeeds | FailsBefore | FailsAfter.

Definition effect (ans : answer) (after before : disk) : option (check * disk) :=
  match ans with
  | Succeeds => Some (Ok tt, after)
  | FailsBefore => Some (Err "operation failed", before)
  | FailsAfter => Some (Err "operation failed", after)
  end.

Definition observe {A} (r : result string A) (ans : answer) (w : disk) : option (result string A * disk) :=
  match ans with Succeeds => Some (r, w) | _ => Some (Err "operation failed", w) end.

#[global] Instance journal_handler : Handler op disk answer := fun X o ans w =>
  match o in op X return option (X * disk) with
  | ReadMain => observe (Ok (option_map Data.persisted (main w))) ans w
  | WriteMain d => effect ans (w <| main := Some d |>) w
  | ReadMarker => observe (Ok (option_map Marker.persisted (marker w))) ans w
  | ClearTemp => effect ans (w <| temp := false |>) w
  | WriteTemp m => if temp w then Some (Err "file exists", w) else effect ans (w <| temp := true |>) w
  | InstallMarker m => effect ans (w <| marker := Some m |> <| temp := false |>) w
  | SyncDir => observe (Ok tt) ans w
  | RemoveMarker =>
      match marker w with
      | Some _ => effect ans (w <| marker := None |>) w
      | None => Some (Err "active journal clear fence changed before cleanup", w)
      end
  end.

Abbreviation jprog := (prog op).

(** ** The journal in memory *)

Record journal := Journal {
  data : Data.t;
  leaseTokens : gmap string string;
  poisoned : option string;
}.

#[global] Instance eta_journal : Eta journal := fun j => Journal (data j) (leaseTokens j) (poisoned j).

Definition pendingLeaseKey (jobID : string) (sequence : Z) : string := jobID +:+ ":" +:+ FormatInt sequence.

Definition poisonLocked (j : journal) (cause : string) : journal * string :=
  match poisoned j with
  | Some e => (j, e)
  | None =>
      let e := "update journal durability is uncertain; restart required: " +:+ cause in
      (j <| poisoned := Some e |>, e)
  end.

(** ** Saving *)

Definition saveDataLocked (d : Data.t) : jprog check :=
  match Marshal (Data.to_json d) with
  | Some _ => call (WriteMain d)
  | None => Ret (Err "write update journal")
  end.

Definition fail_with {A} (j : journal) (cause : string) : jprog (journal * result string A) :=
  let (j, e) := poisonLocked j cause in Ret (j, Err e).

Definition saveLocked (j : journal) : jprog (journal * check) :=
  let* r := saveDataLocked (data j) in
  match r with
  | Ok _ => Ret (j, Ok tt)
  | Err e => fail_with j ("persist update journal mutation: " +:+ e)
  end.

(** [checkMutableLocked] at the head of every operation. *)
Definition mutable {A} (j : journal) (k : jprog (journal * result string A)) : jprog (journal * result string A) :=
  match poisoned j with Some e => Ret (j, Err e) | None => k end.

Definition refuse {A} (j : journal) (e : string) : jprog (journal * result string A) := Ret (j, Err e).

(** ** The clear fence *)

Definition activeClearMarkerSizeLimit (m : Marker.t) : Z :=
  match Data.ActivePortPolicy (Marker.Previous m) with
  | Some _ => journalPortActiveClearMarkerMaxSize
  | None => journalActiveClearMarkerMaxSize
  end.

(** The size of a value's encoding with its newline, if it has one. *)
Definition encoded_size (v : json) : option Z :=
  match Marshal v with Some s => Some (len s + 1)%Z | None => None end.

Definition exceeds (size : option Z) (limit : Z) : bool :=
  match size with Some n => (limit <? n)%Z | None => true end.

Definition has_report_credential (d : Data.t) : bool :=
  existsb (fun p => Report.LeaseToken (Pending.report p) !=? "") (Data.PendingReports d).

Definition validateActiveClearMarker (m : Marker.t) : check :=
  let previous := Marker.Previous m in
  match Data.ActiveJob previous with
  | None => Err "active journal clear fence is invalid"
  | Some job =>
      if (Marker.SchemaVersion m !=? journalActiveClearMarkerVersion) ||
         negb (re_match digestPattern (Marker.PreviousSHA256 m))
      then Err "active journal clear fence is invalid"
      else
        let! _ := validateJournalData previous in
        let withoutCandidates := m <| Marker.Previous := previous <| Data.ActivePortPolicy := None |> |> in
        if exceeds (encoded_size (Marker.to_json withoutCandidates)) journalActiveClearMarkerMaxSize
        then Err "active journal clear fence metadata exceeds its bound"
        else if (Job.LeaseToken job !=? "") || (Job.ReleaseToken job !=? "")
        then Err "active journal clear fence contains an execution credential"
        else if has_report_credential previous
        then Err "active journal clear fence contains a report credential"
        else if journalDataSHA256 previous !=? Some (Marker.PreviousSHA256 m)
        then Err "active journal clear fence digest is invalid" else Ok tt
  end.

Definition loadActiveClearMarkerLocked : jprog (result string (option Marker.t)) :=
  let? found := call ReadMarker in
  match found with
  | None => Ret (Ok None)
  | Some m =>
      if exceeds (encoded_size (Marker.to_json m)) (activeClearMarkerSizeLimit m)
      then Ret (Err "active journal clear fence exceeds its bound")
      else
        let? _ := lift (validateActiveClearMarker m) in
        Ret (Ok (Some m))
  end.

(** The end of [installActiveClearMarkerLocked], after the fence was written. *)
Definition install_written (m : Marker.t) : jprog check :=
  let* renamed := call (InstallMarker m) in
  match renamed with
  | Ok _ => let* synced := call SyncDir in
            Ret (if is_err synced then Err "sync active journal clear fence parent" else Ok tt)
  | Err e =>
      let* installed := loadActiveClearMarkerLocked in
      let visible := match installed with
                     | Ok (Some m') => Marker.PreviousSHA256 m' ==? Marker.PreviousSHA256 m
                     | _ => false
                     end in
      if visible then let* _ := call SyncDir in Ret (Err "install active journal clear fence reported an error")
      else let* _ := call ClearTemp in Ret (Err "install active journal clear fence")
  end.

Definition install_fresh (m : Marker.t) : jprog check :=
  let? _ := call ClearTemp in
  if exceeds (encoded_size (Marker.to_json m)) (activeClearMarkerSizeLimit m)
  then Ret (Err "encode active journal clear fence")
  else
    let? _ := call (WriteTemp m) in
    install_written m.

Definition installActiveClearMarkerLocked (previous : Data.t) : jprog check :=
  match Data.ActiveJob previous with
  | None => Ret (Err "active journal state is not credential-free")
  | Some job =>
      if (Job.LeaseToken job !=? "") || (Job.ReleaseToken job !=? "")
      then Ret (Err "active journal state is not credential-free")
      else if has_report_credential previous then Ret (Err "pending journal report is not credential-free")
      else
        match journalDataSHA256 previous with
        | None => Ret (Err "digest active journal clear fence")
        | Some digest =>
            let m := Marker.mk journalActiveClearMarkerVersion digest previous in
            let? _ := lift (validateActiveClearMarker m) in
            let? existing := loadActiveClearMarkerLocked in
            match existing with
            | Some m' =>
                if Marker.PreviousSHA256 m' !=? digest
                then Ret (Err "active journal clear fence already has another binding")
                else call SyncDir
            | None => install_fresh m
            end
        end
  end.

(** The cleared journal that recovery expects.  It keeps the stage failure. *)
Definition fence_cleared (d : Data.t) : Data.t :=
  d <| Data.ActiveJob := None |> <| Data.ActivePlan := None |> <| Data.ActivePortPlan := None |>
    <| Data.ActivePortPolicy := None |>.

Definition reconcileActiveClearMarkerLocked (current : Data.t) (mainExists : bool) : jprog check :=
  let? _ := call ClearTemp in
  let? found := loadActiveClearMarkerLocked in
  match found with
  | None => Ret (Ok tt)
  | Some m =>
      if negb mainExists then Ret (Err "active journal clear fence exists without the main journal")
      else
        match journalDataSHA256 current, journalDataSHA256 (fence_cleared (Marker.Previous m)) with
        | Some currentSHA256, Some clearedSHA256 =>
            if (currentSHA256 !=? Marker.PreviousSHA256 m) && (currentSHA256 !=? clearedSHA256)
            then Ret (Err "active journal clear fence does not match the main journal")
            else call RemoveMarker
        | None, _ => Ret (Err "digest current journal during active clear recovery")
        | _, None => Ret (Err "digest cleared journal during active clear recovery")
        end
  end.

(** ** Opening *)

Definition retains_pending (d : Data.t) : bool :=
  match Data.PendingReports d, Data.ActiveJob d with
  | _ :: _, Some job => Job.isV2SoftwareJob job
  | _, _ => false
  end.

(** Old credentials are discarded, and reports without a saved cursor. *)
Definition scrub (d : Data.t) : Data.t * bool :=
  let dirty := match Data.ActiveJob d with
               | Some job => (Job.LeaseToken job !=? "") || (Job.ReleaseToken job !=? "")
               | None => false
               end in
  let clean := option_map (fun job => job <| Job.LeaseToken := "" |> <| Job.ReleaseToken := "" |>) (Data.ActiveJob d) in
  let d' := d <| Data.ActiveJob := clean |> in
  match Data.PendingReports d with
  | _ :: _ => if retains_pending d then (d', dirty) else (d' <| Data.PendingReports := [] |>, true)
  | [] => (d', dirty)
  end.

(** Sequence numbers start at one. *)
Definition normalize (d : Data.t) : Data.t :=
  if (Data.NextSeq d =? 0)%Z then d <| Data.NextSeq := 1%Z |> else d.

Definition OpenJournal : jprog (result string journal) :=
  let? file := call ReadMain in
  match file with
  | None =>
      let? _ := reconcileActiveClearMarkerLocked Data.initial false in
      Ret (Ok (Journal Data.initial ∅ None))
  | Some d =>
      let d := normalize d in
      let? _ := lift (validateJournalData d) in
      let? _ := reconcileActiveClearMarkerLocked d true in
      let? _ := lift (if retains_pending d then validateJournalSoftwarePendingForRestart d else Ok tt) in
      let (d, scrubbed) := scrub d in
      let j := Journal d ∅ None in
      if scrubbed then
        let* (j, r) := saveLocked j in
        Ret (match r with Ok _ => Ok j | Err e => Err e end)
      else Ret (Ok j)
  end.
End Programs.

Section Operations.
Context `{UnicodeTables} `{TimeZones} `{PortPolicies}.

Abbreviation jop A := (prog op (journal * result string A)).

(** Continues unless the check fails. *)
Definition ensure {A} (j : journal) (c : check) (k : jop A) : jop A :=
  match c with Ok _ => k | Err e => refuse j e end.

Definition MarkDeployed (targetID version : string) (j : journal) : jop unit :=
  mutable j (saveLocked
    (j <| data := (data j) <| Data.DeployedVersions := <[targetID := version]> (Data.DeployedVersions (data j)) |> |>)).

(** The rules for replacing an active job of the same identity. *)
Definition replacement_allowed (d : Data.t) (active copy : Job.t) : check :=
  if (Job.ID active !=? Job.ID copy) || (Job.EffectiveOperation active !=? Job.EffectiveOperation copy)
  then Err "active update job must be durably cleared before replacement"
  else if Job.EffectiveOperation active ==? updateJobOperationSoftwareUpdate then
    if negb (Job.sameRecoveredJobIntent active copy) &&
       negb (journalLegacySoftwareBindingMatches active copy (Data.ActivePlan d))
    then Err "active software job intent cannot be replaced"
    else if (Job.LeaseGeneration active !=? Job.LeaseGeneration copy) &&
       existsb (fun p => Pending.JobID p ==? Job.ID active) (Data.PendingReports d)
    then Err "active software lease cannot replace pending reports"
    else match Data.ActivePlan d with Some p => validateJournalSoftwarePlan copy p false | None => Ok tt end
  else Ok tt.

(** A port job keeps the result it already accepted. *)
Definition keep_port_results (active copy : Job.t) : result string Job.t :=
  if negb (Job.isPortContractV2 copy) || (Job.ID active !=? Job.ID copy) then Ok copy
  else if negb (Job.sameRecoveredJobIntent active copy) then Err "active port job intent cannot be replaced"
  else
    let! copy :=
      match Job.PortResultOf active with
      | Some accepted =>
          let conflict := match Job.PortResultOf copy with
                          | Some r => negb (EqualPortResults accepted r)
                          | None => false
                          end in
          if conflict then Err "active port job accepted result cannot be replaced"
          else Ok (copy <| Job.PortResultOf := Some accepted |>)
      | None => Ok copy
      end in
    Ok (match Job.LastRecoveryObservation copy with
        | None => copy <| Job.LastRecoveryObservation := Job.LastRecoveryObservation active |>
        | Some _ => copy
        end).

(** The sequence number of the first report; the numbers of a lease only grow. *)
Definition first_sequence (d : Data.t) (job : Job.t) : Z :=
  let n := Job.ReportSequence job in
  let n := if (n =? 0)%Z then u64_succ (Job.Sequence job) else n in
  let n := if (n =? 0)%Z then 1%Z else n in
  match Data.ActiveJob d with
  | Some active =>
      if (Job.LeaseGeneration active ==? Job.LeaseGeneration job) && (n <? Data.NextSeq d)%Z
      then Data.NextSeq d else n
  | None => n
  end.

(** The journal with [copy] as its active job. *)
Definition with_active (d : Data.t) (copy : Job.t) (nextSeq : Z) : Data.t :=
  let same := match Data.ActiveJob d with
              | Some active => (Job.ID active ==? Job.ID copy) &&
                               (Job.EffectiveOperation active ==? Job.EffectiveOperation copy)
              | None => false
              end in
  let d := if same then d
           else d <| Data.ActivePlan := None |> <| Data.ActivePortPlan := None |>
                  <| Data.ActivePortPolicy := None |> <| Data.ActiveStageFailure := None |> in
  d <| Data.ActiveJob := Some copy |> <| Data.NextSeq := nextSeq |>.

Definition SetActive (job : option Job.t) (j : journal) : jop unit :=
  mutable j
  match job with
  | None => refuse j "active update job operation is invalid"
  | Some job =>
      if is_err (Job.validateOperationUnion job) then refuse j "active update job operation is invalid"
      else
        ensure j (validateJournalSoftwareJob job)
        (ensure j (match Data.ActiveJob (data j) with
                   | Some active => replacement_allowed (data j) active job
                   | None => Ok tt
                   end)
        match (match Data.ActiveJob (data j) with Some active => keep_port_results active job | None => Ok job end) with
        | Err e => refuse j e
        | Ok copy =>
            let copy := copy <| Job.LeaseToken := "" |> <| Job.ReleaseToken := "" |> in
            saveLocked (j <| data := with_active (data j) copy (first_sequence (data j) job) |>)
        end)
  end.

Definition SetActivePlan (plan : MutationPlan.t) (j : journal) : jop unit :=
  mutable j
  match Data.ActiveJob (data j) with
  | None => refuse j "active update plan does not match the journal job"
  | Some job =>
      if (Job.EffectiveOperation job !=? updateJobOperationSoftwareUpdate) ||
         (Job.ID job !=? MutationPlan.JobID plan) || is_err (MutationPlan.Validate plan)
      then refuse j "active update plan does not match the journal job"
      else
        ensure j (validateJournalSoftwarePlan job plan true)
        (let conflict :=
           match Data.ActivePlan (data j) with
           | Some stored => negb (sameJournalSoftwarePlanIntent stored plan) ||
                            (MutationPlan.LeaseGeneration plan <? MutationPlan.LeaseGeneration stored)%Z ||
                            (MutationPlan.LeaseGeneration plan !=? Job.LeaseGeneration job)
           | None => false
           end in
         if conflict then refuse j "active software plan intent cannot be replaced"
         else saveLocked (j <| data := (data j) <| Data.ActivePlan := Some plan |> |>))
  end.

Definition SetActivePortPlan (plan : PortPlan) (j : journal) : jop unit :=
  mutable j
  match Data.ActiveJob (data j) with
  | None => refuse j "active port reconfiguration plan does not match the journal job"
  | Some job =>
      if (Job.EffectiveOperation job !=? updateJobOperationPortReconfigure) ||
         (Job.ID job !=? PortPlan_JobID plan) || is_err (PortPlan_Validate plan)
      then refuse j "active port reconfiguration plan does not match the journal job"
      else saveLocked (j <| data := (data j) <| Data.ActivePortPlan := Some plan |> |>)
  end.

Definition SetActiveStageFailure (failure : StageFailure.t) (j : journal) : jop unit :=
  mutable j
  match Data.ActiveJob (data j) with
  | None => refuse j "active stage failure does not match the journal job"
  | Some job =>
      if StageFailure.JobID failure !=? Job.ID job
      then refuse j "active stage failure does not match the journal job"
      else
        ensure j (StageFailure.validate failure)
          (saveLocked (j <| data := (data j) <| Data.ActiveStageFailure := Some failure |> |>))
  end.

(** The port part of [queue]: the job after it took note of the result, and the
    report. *)
Definition note_port_result (d : Data.t) (jobID serviceID : string) (leaseGeneration : Z) (status : string)
    (result : ExecutorPortResult) : Prelude.result string (Data.t * PortReport) :=
  if (Result_ContractVersion result !=? 2)%Z then Ok (d, ResultOnly result)
  else
    let mismatch := Err "port result does not match the active journal intent" in
    match Data.ActiveJob d, Result_PortResult result with
    | Some active, Some r =>
        match Job.PortReconfigure active with
        | None => mismatch
        | Some port =>
            if negb (Job.isPortContractV2 active) || (Job.ID active !=? jobID) ||
               (Job.AgentServiceID active !=? serviceID) || (Job.LeaseGeneration active !=? leaseGeneration) ||
               is_err (Result_Validate result) || (Result_Status result !=? status) ||
               is_err (ValidatePortResult port r)
            then mismatch
            else if IsAcceptedPortResult r then
              let conflict := match Job.PortResultOf active with
                              | Some accepted => negb (EqualPortResults accepted r)
                              | None => false
                              end in
              if conflict then Err "accepted port result cannot be replaced"
              else Ok (d <| Data.ActiveJob := Some (active <| Job.PortResultOf := Some r |>
                                                           <| Job.RecoveryRequired := false |>) |>, FullReport r)
            else if Job.present (Job.PortResultOf active) || negb (Result_RecoveryRequired result)
            then Err "late or incomplete port recovery observation"
            else Ok (d <| Data.ActiveJob := Some (active <| Job.LastRecoveryObservation := Some r |>
                                                         <| Job.RecoveryRequired := true |>) |>, FullReport r)
        end
    | _, _ => mismatch
    end.

Definition queue (jobID serviceID leaseToken : string) (leaseGeneration : Z) (status code message : string)
    (progress : Z) (artifact previous : string) (portResult : option ExecutorPortResult) (j : journal) :
    jop Report.t :=
  mutable j
  match (match portResult with
         | Some r => let! (d, report) := note_port_result (data j) jobID serviceID leaseGeneration status r in
                     Ok (d, Some report)
         | None => Ok (data j, None)
         end) with
  | Err e => refuse j e
  | Ok (d, port) =>
      let report := Report.mk serviceID leaseToken (Data.NextSeq d) leaseGeneration status progress code message
                      artifact previous port in
      let stored := report <| Report.LeaseToken := "" |> in
      let d := d <| Data.NextSeq := u64_succ (Data.NextSeq d) |>
                 <| Data.PendingReports := (Data.PendingReports d ++ [Pending.mk jobID stored])%list |> in
      let tokens := <[pendingLeaseKey jobID (Report.Sequence report) := leaseToken]> (leaseTokens j) in
      let* (j, r) := saveLocked (j <| data := d |> <| leaseTokens := tokens |>) in
      Ret (j, match r with Ok _ => Ok report | Err e => Err e end)
  end.

Definition Queue (jobID serviceID leaseToken : string) (leaseGeneration : Z) (status code message : string)
    (progress : Z) (artifact previous : string) : journal -> jop Report.t :=
  queue jobID serviceID leaseToken leaseGeneration status code message progress artifact previous None.

Definition QueuePort (jobID serviceID leaseToken : string) (leaseGeneration : Z) (status code message : string)
    (progress : Z) (result : option ExecutorPortResult) : journal -> jop Report.t :=
  queue jobID serviceID leaseToken leaseGeneration status code message progress "" "" result.

Definition pending_key (p : Pending.t) : string :=
  pendingLeaseKey (Pending.JobID p) (Report.Sequence (Pending.report p)).

Definition DropJobReports (jobID : string) (j : journal) : jop unit :=
  mutable j
  (let of_job p := Pending.JobID p ==? jobID in
   let l := Data.PendingReports (data j) in
   let tokens := foldr (fun p m => delete (pending_key p) m) (leaseTokens j) (List.filter of_job l) in
   saveLocked (j <| data := (data j) <| Data.PendingReports := List.filter (fun p => negb (of_job p)) l |> |>
                 <| leaseTokens := tokens |>)).

Definition Ack (jobID : string) (sequence : Z) (j : journal) : jop unit :=
  mutable j
  match Data.PendingReports (data j) with
  | p :: rest =>
      if (Pending.JobID p !=? jobID) || (Report.Sequence (Pending.report p) !=? sequence)
      then refuse j "journal acknowledgements must be ordered"
      else saveLocked (j <| data := (data j) <| Data.PendingReports := rest |> |>
                         <| leaseTokens := delete (pending_key p) (leaseTokens j) |>)
  | [] => refuse j "journal acknowledgements must be ordered"
  end.

(** [Pending]: the reports with their lease tokens. *)
Definition pending_view (j : journal) : list Pending.t :=
  map (fun p => p <| Pending.report := (Pending.report p) <| Report.LeaseToken :=
                       default "" (leaseTokens j !! pending_key p) |> |>) (Data.PendingReports (data j)).

Definition ClearActive (j : journal) : jop unit :=
  mutable j
  match Data.ActiveJob (data j) with
  | None => Ret (j, Ok tt)
  | Some _ =>
      let* installed := installActiveClearMarkerLocked (data j) in
      match installed with
      | Err e => fail_with j ("install active journal clear fence: " +:+ e)
      | Ok _ =>
          let next := Data.cleared (data j) in
          let* saved := saveDataLocked next in
          match saved with
          | Err e => fail_with j ("persist cleared active journal: " +:+ e)
          | Ok _ =>
              let j := j <| data := next |> in
              let* removed := call RemoveMarker in
              match removed with
              | Err e => fail_with j ("remove active journal clear fence: " +:+ e)
              | Ok _ => Ret (j, Ok tt)
              end
          end
      end
  end.

Definition unrelated (active : Job.t) (p : Pending.t) : bool :=
  let r := Pending.report p in
  (Pending.JobID p !=? Job.ID active) || (Report.LeaseGeneration r !=? Job.LeaseGeneration active) ||
  (Report.ServiceID r !=? Job.AgentServiceID active) || (Report.Sequence r =? 0)%Z ||
  (Report.LeaseToken r !=? "") || Job.present (Report.PortReconfigure r).

Definition saveSoftwareRecoveryAdoptionLocked (active job : Job.t) (j : journal) : jop unit :=
  if existsb (unrelated active) (Data.PendingReports (data j))
  then refuse j "recovered software claim cannot discard unrelated pending reports"
  else
    let next := (data j) <| Data.ActiveJob := Some job |> <| Data.NextSeq := Job.ReportSequence job |>
                       <| Data.PendingReports := [] |> in
    let* saved := saveDataLocked next in
    match saved with
    | Err e => fail_with j ("persist recovered software lease and pending report handoff: " +:+ e)
    | Ok _ =>
        let tokens := foldr (fun p m => delete (pending_key p) m) (leaseTokens j) (Data.PendingReports (data j)) in
        Ret (j <| data := next |> <| leaseTokens := tokens |>, Ok tt)
    end.

Definition adoption_refused (d : Data.t) (active job : Job.t) : bool :=
  negb (Job.isV2SoftwareJob active) || negb (Job.isV2SoftwareJob job) ||
  match Job.SoftwareUpdate job with Some b => is_err (SoftwareBinding.Validate b) | None => true end ||
  Job.SoftwareClaimRejected active || Job.SoftwareClaimRejected job || Job.RecoveryClear job ||
  negb (Job.RecoveryRequired job) || is_err (Job.validateOperationUnion job) ||
  is_err (validateJournalSoftwareJob job) ||
  (negb (Job.sameRecoveredJobIntent active job) &&
   negb (journalLegacySoftwareBindingMatches active job (Data.ActivePlan d))) ||
  (Job.LeaseGeneration job !=? u64_succ (Job.LeaseGeneration active)) ||
  (Job.CommandID active ==? Job.CommandID job) || (Job.ReportSequence job =? 0)%Z ||
  (Job.LeaseToken active !=? "") || (Job.ReleaseToken active !=? "") || (Job.LeaseToken job !=? "") ||
  (Job.ReleaseToken job !=? "") || is_err (validateJournalData d) || Job.present (Data.ActivePortPlan d) ||
  Job.present (Data.ActivePortPolicy d).

Definition AdoptRecoveredSoftwareClaim (job : Job.t) (j : journal) : jop unit :=
  mutable j
  (let e := "recovered software claim does not match the saved ordinary lease and authority" in
   match Data.ActiveJob (data j) with
   | None => refuse j e
   | Some active =>
       if adoption_refused (data j) active job then refuse j e
       else
         ensure j (match Data.ActivePlan (data j) with
                   | Some p => validateJournalSoftwarePlan job p false
                   | None => Ok tt
                   end)
           (saveSoftwareRecoveryAdoptionLocked active job j)
   end).
End Operations.
