(* ===== verification/JournalRules.v ===== *)
(** Rules for reasoning about the journal's operations under every failure and at
    every crash point: what a command saves, the disks that clearing passes
    through, and what opening returns. *)
From Stdlib Require Import Ascii String ZArith Lia.
From stdpp Require Import base decidable list strings gmap.
From S2P Require Import Prelude Strings Regexp Patterns Effects Sha256 Json PlanDigest Jobs Journal.

Open Scope string_scope.

(** ** Processes *)

Section Commands.
Context `{UnicodeTables} `{TimeZones} `{PortPolicies}.

(** The operations that change the journal, with their arguments. *)
Inductive command :=
| DoMarkDeployed (targetID version : string)
| DoSetActive (job : option Job.t)
| DoSetActivePlan (plan : MutationPlan.t)
| DoSetActivePortPlan (plan : PortPlan)
| DoSetActiveStageFailure (failure : StageFailure.t)
| DoQueue (jobID serviceID leaseToken : string) (leaseGeneration : Z) (status code message : string)
    (progress : Z) (artifact previous : string) (portResult : option ExecutorPortResult)
| DoDropJobReports (jobID : string)
| DoAck (jobID : string) (sequence : Z)
| DoClearActive
| DoAdopt (job : Job.t).

Definition perform (c : command) (j : journal) : prog op (journal * check) :=
  match c with
  | DoMarkDeployed t v => MarkDeployed t v j
  | DoSetActive job => SetActive job j
  | DoSetActivePlan p => SetActivePlan p j
  | DoSetActivePortPlan p => SetActivePortPlan p j
  | DoSetActiveStageFailure f => SetActiveStageFailure f j
  | DoQueue a b c d e f g h i k l =>
      let* (j, r) := queue a b c d e f g h i k l j in
      Ret (j, match r with Ok _ => Ok tt | Err e => Err e end)
  | DoDropJobReports job => DropJobReports job j
  | DoAck job n => Ack job n j
  | DoClearActive => ClearActive j
  | DoAdopt job => AdoptRecoveredSoftwareClaim job j
  end.

(** An agent process opens the journal and performs a sequence of commands. *)
Fixpoint perform_all (cs : list command) (j : journal) : prog op unit :=
  match cs with
  | [] => Ret tt
  | c :: cs => let* (j, _) := perform c j in perform_all cs j
  end.

Definition session (cs : list command) : prog op unit :=
  let* opened := OpenJournal in
  match opened with Ok j => perform_all cs j | Err _ => Ret tt end.

Definition empty_disk : disk := Disk None None false.

(** A running process: the disk and the journal in memory. *)
Inductive process : disk -> journal -> Prop :=
| process_open w answers w' j :
    run OpenJournal answers w = (w', Some (Ok j)) -> process w' j
| process_step w j c answers w' j' r :
    process w j -> run (perform c j) answers w = (w', Some (j', r)) -> process w' j'.

(** ** Rules for the operations *)

Lemma observe_inv {A} (r : result string A) ans w x w' :
  observe r ans w = Some (x, w') -> w' = w /\ (x = r \/ x = Err "operation failed").
Proof. destruct ans; intros [= <- <-]; auto. Qed.

Lemma effect_inv ans after before (x : check) w' :
  effect ans after before = Some (x, w') -> (w' = after \/ w' = before) /\ (x = Ok tt -> w' = after).
Proof. destruct ans; intros [= <- <-]; (split; [auto|done || discriminate]). Qed.

Section Wp.
Context (I : disk -> Prop).

Lemma wp_save d (Q : check -> disk -> Prop) w :
  I w -> (forall e, Q (Err e) w) ->
  (let w' := w <| main := Some d |> in I w' /\ forall r, Q r w') ->
  wp I (saveDataLocked d) Q w.
Proof.
  intros HI He [HI' HQ]. unfold saveDataLocked. destruct (Marshal _); [|by apply wp_ret].
  apply wp_call; [done|]. intros ans x w' E. cbn in E.
  destruct ans; injection E as <- <-; split; eauto.
Qed.

Lemma wp_saveLocked j (Q : journal * check -> disk -> Prop) w :
  I w -> (forall v e e', v = w \/ v = (w <| main := Some (data j) |>) ->
     Q (j <| poisoned := Some e |>, Err e') v) ->
  (let w' := w <| main := Some (data j) |> in I w' /\ Q (j, Ok tt) w') ->
  poisoned j = None -> wp I (saveLocked j) Q w.
Proof.
  intros HI He [HI' HQ] Hp. unfold saveLocked, fail_with, poisonLocked. rewrite Hp.
  apply wp_bind, wp_save; [done|intros e; apply wp_ret; eauto|].
  split; [done|]. intros [[]|e]; apply wp_ret; eauto.
Qed.

Lemma wp_marker_load (Q : result string (option Marker.t) -> disk -> Prop) w :
  I w -> (forall e, Q (Err e) w) -> (marker w = None -> Q (Ok None) w) ->
  (forall m, marker w = Some m -> validateActiveClearMarker (Marker.persisted m) = Ok tt ->
     Q (Ok (Some (Marker.persisted m))) w) ->
  wp I loadActiveClearMarkerLocked Q w.
Proof.
  intros HI He Hn Hs. unfold loadActiveClearMarkerLocked. apply wp_bind_ok, wp_call; [done|].
  intros ans x w' E. apply observe_inv in E as [-> [-> | ->]]; (split; [done|]); [|done].
  destruct (marker w) as [m|]; cbn [option_map]; [|apply wp_ret; auto].
  destruct (exceeds _ _); [by apply wp_ret|]. apply wp_bind_ok, wp_ret; [done|].
  destruct (validateActiveClearMarker (Marker.persisted m)) as [[]|] eqn:Ev; [apply wp_ret; eauto|auto].
Qed.
End Wp.

(** ** What a command saves

    [edit j c j'] : command [c], on a journal that is not poisoned, passes all its
    checks and saves [j'].  Clearing is the one command with another shape. *)
Inductive edit (j : journal) : command -> journal -> Prop :=
| edit_deployed t v :
    edit j (DoMarkDeployed t v)
      (j <| data := (data j) <| Data.DeployedVersions := <[t := v]> (Data.DeployedVersions (data j)) |> |>)
| edit_active job copy :
    Job.validateOperationUnion job = Ok tt -> validateJournalSoftwareJob job = Ok tt ->
    match Data.ActiveJob (data j) with
    | Some active => replacement_allowed (data j) active job = Ok tt /\ keep_port_results active job = Ok copy
    | None => copy = job
    end ->
    edit j (DoSetActive (Some job))
      (j <| data := with_active (data j) (copy <| Job.LeaseToken := "" |> <| Job.ReleaseToken := "" |>)
                      (first_sequence (data j) job) |>)
| edit_plan plan job :
    Data.ActiveJob (data j) = Some job -> Job.EffectiveOperation job = updateJobOperationSoftwareUpdate ->
    Job.ID job = MutationPlan.JobID plan -> MutationPlan.Validate plan = Ok tt ->
    validateJournalSoftwarePlan job plan true = Ok tt ->
    edit j (DoSetActivePlan plan) (j <| data := (data j) <| Data.ActivePlan := Some plan |> |>)
| edit_port_plan plan job :
    Data.ActiveJob (data j) = Some job -> Job.EffectiveOperation job = updateJobOperationPortReconfigure ->
    edit j (DoSetActivePortPlan plan) (j <| data := (data j) <| Data.ActivePortPlan := Some plan |> |>)
| edit_failure f job :
    Data.ActiveJob (data j) = Some job -> StageFailure.JobID f = Job.ID job -> StageFailure.validate f = Ok tt ->
    edit j (DoSetActiveStageFailure f) (j <| data := (data j) <| Data.ActiveStageFailure := Some f |> |>)
| edit_queue job service token gen status code message progress artifact previous result d port :
    match result with
    | Some r => exists report, note_port_result (data j) job service gen status r = Ok (d, report) /\ port = Some report
    | None => d = data j /\ port = None
    end ->
    edit j (DoQueue job service token gen status code message progress artifact previous result)
      (j <| data := d <| Data.NextSeq := u64_succ (Data.NextSeq d) |>
            <| Data.PendingReports := (Data.PendingReports d ++ [Pending.mk job
                 (Report.mk service "" (Data.NextSeq d) gen status progress code message artifact previous port)])%list |> |>
         <| leaseTokens := <[pendingLeaseKey job (Data.NextSeq d) := token]> (leaseTokens j) |>)
| edit_drop job :
    edit j (DoDropJobReports job)
      (j <| data := (data j) <| Data.PendingReports :=
              List.filter (fun p => negb (Pending.JobID p ==? job)) (Data.PendingReports (data j)) |> |>
         <| leaseTokens := foldr (fun p m => delete (pending_key p) m) (leaseTokens j)
              (List.filter (fun p => Pending.JobID p ==? job) (Data.PendingReports (data j))) |>)
| edit_ack p rest :
    Data.PendingReports (data j) = p :: rest ->
    edit j (DoAck (Pending.JobID p) (Report.Sequence (Pending.report p)))
      (j <| data := (data j) <| Data.PendingReports := rest |> |>
         <| leaseTokens := delete (pending_key p) (leaseTokens j) |>)
| edit_adopt job active :
    Data.ActiveJob (data j) = Some active -> adoption_refused (data j) active job = false ->
    (forall p, Data.ActivePlan (data j) = Some p -> validateJournalSoftwarePlan job p false = Ok tt) ->
    edit j (DoAdopt job)
      (j <| data := (data j) <| Data.ActiveJob := Some job |> <| Data.NextSeq := Job.ReportSequence job |>
                             <| Data.PendingReports := [] |> |>
         <| leaseTokens := foldr (fun p m => delete (pending_key p) m) (leaseTokens j)
              (Data.PendingReports (data j)) |>).

Lemma is_err_ok {E} (r : result E unit) : is_err r = false -> r = Ok tt.
Proof. by destruct r as [[]|]. Qed.

Section Perform.
Context (I : disk -> Prop) (j : journal) (w : disk) (Q : journal * check -> disk -> Prop).
Hypothesis (Hp : poisoned j = None) (HI : I w) (Hrefuse : forall e, Q (j, Err e) w).

(** The obligation for a saved journal: the state after the save, and both outcomes
    of a save that failed. *)
Definition save_post (j' : journal) : Prop :=
  let w' := w <| main := Some (data j') |> in
  I w' /\ Q (j', Ok tt) w' /\
  forall jp e v, poisoned jp <> None -> (data jp = data j \/ data jp = data j') -> (v = w \/ v = w') ->
    Q (jp, Err e) v.

Lemma wp_edit_save j' : poisoned j' = None -> save_post j' -> wp I (saveLocked j') Q w.
Proof using HI.
  intros Hp' (HA & HB & HC). apply wp_saveLocked; [done| |done|done].
  intros v e e' Hv. apply HC; [done|by right|done].
Qed.

Lemma wp_refuse e : wp I (refuse j e) Q w.
Proof using HI Hrefuse. by apply wp_ret. Qed.

Lemma wp_ensure c k : (c = Ok tt -> wp I k Q w) -> wp I (ensure j c k) Q w.
Proof using HI Hrefuse. destruct c as [[]|e]; intros Hk; [by apply Hk|by apply wp_refuse]. Qed.

Lemma wp_set_active job :
  (forall j', edit j (DoSetActive job) j' -> save_post j') -> wp I (perform (DoSetActive job) j) Q w.
Proof using Hp HI Hrefuse.
  intros Hs. cbn. unfold SetActive, mutable. rewrite Hp. destruct job as [job|]; [|by apply wp_refuse].
  destruct (is_err (Job.validateOperationUnion job)) eqn:Eu; [by apply wp_refuse|]. apply is_err_ok in Eu.
  apply wp_ensure; intros Ev. apply wp_ensure; intros Er.
  destruct (Data.ActiveJob (data j)) as [active|] eqn:Ea;
    [destruct (keep_port_results active job) as [copy|e] eqn:Ek; [|by apply wp_refuse]|];
    (apply wp_edit_save; [done|]; apply Hs, edit_active; [done..|by rewrite Ea]).
Qed.

Lemma wp_queue job service token gen status code message progress artifact previous result :
  let c := DoQueue job service token gen status code message progress artifact previous result in
  (forall j', edit j c j' -> save_post j') -> wp I (perform c j) Q w.
Proof using Hp HI Hrefuse.
  intros c Hs. cbn. unfold queue, mutable. rewrite Hp.
  destruct (match result with Some _ => _ | None => _ end) as [[d port]|e] eqn:Er;
    [|apply wp_bind, wp_ret; [done|]; by apply wp_ret].
  assert (He : edit j c _) by (apply (edit_queue j job service token gen status code message progress artifact
    previous result d port); destruct result as [r|]; [|by injection Er];
    destruct (note_port_result _ _ _ _ _ r) as [[d' report]|]; [|discriminate Er];
    injection Er as <- <-; by eexists).
  specialize (Hs _ He) as (HA & HB & HC). apply wp_bind, wp_bind, wp_saveLocked; [done| | |done].
  - intros v e e' Hv. apply wp_ret; [|apply wp_ret; [|apply HC; [done|by right|done]]]; by destruct Hv as [-> | ->].
  - split; [done|]. apply wp_ret; [done|]. by apply wp_ret.
Qed.

Lemma wp_adopt job :
  (forall j', edit j (DoAdopt job) j' -> save_post j') -> wp I (perform (DoAdopt job) j) Q w.
Proof using Hp HI Hrefuse.
  intros Hs. cbn. unfold AdoptRecoveredSoftwareClaim, mutable. rewrite Hp.
  destruct (Data.ActiveJob (data j)) as [active|] eqn:Ea; [|by apply wp_refuse].
  destruct (adoption_refused (data j) active job) eqn:Er; [by apply wp_refuse|].
  apply wp_ensure. intros Ep. unfold saveSoftwareRecoveryAdoptionLocked.
  destruct (existsb _ _); [by apply wp_refuse|].
  assert (He := edit_adopt j job active Ea Er ltac:(by intros p Ej; rewrite Ej in Ep)).
  specialize (Hs _ He) as (HA & HB & HC). unfold fail_with, poisonLocked. rewrite Hp.
  apply wp_bind, wp_save; [done| |].
  - intros e. apply wp_ret; [done|]. apply HC; [done|by left|by left].
  - split; [exact HA|]. intros [[]|e]; apply wp_ret; [exact HA|exact HB|exact HA|].
    apply HC; [done|by left|by right].
Qed.

(** Every command but [ClearActive] refuses, or saves an edit. *)
Lemma wp_perform c :
  c <> DoClearActive -> (forall j', edit j c j' -> save_post j') -> wp I (perform c j) Q w.
Proof using Hp HI Hrefuse.
  intros Hc Hs. destruct c; [|by apply wp_set_active|..|by apply wp_queue| | |done|by apply wp_adopt];
    cbn; unfold MarkDeployed, SetActivePlan, SetActivePortPlan, SetActiveStageFailure, DropJobReports, Ack, mutable;
    rewrite Hp.
  - apply wp_edit_save; [done|]. apply Hs, edit_deployed.
  - destruct (Data.ActiveJob (data j)) as [job|] eqn:Ea; [|by apply wp_refuse].
    match goal with |- context [if ?b then _ else _] => destruct b eqn:Eb end; [by apply wp_refuse|].
    bool_to_prop. apply wp_ensure. intros Ev.
    match goal with |- context [if ?b then _ else _] => destruct b eqn:Ec end; [by apply wp_refuse|].
    apply wp_edit_save; [done|]. apply Hs, edit_plan with job; auto using is_err_ok.
  - destruct (Data.ActiveJob (data j)) as [job|] eqn:Ea; [|by apply wp_refuse].
    match goal with |- context [if ?b then _ else _] => destruct b eqn:Eb end; [by apply wp_refuse|].
    bool_to_prop. apply wp_edit_save; [done|]. by apply Hs, edit_port_plan with job.
  - destruct (Data.ActiveJob (data j)) as [job|] eqn:Ea; [|by apply wp_refuse].
    match goal with |- context [if ?b then _ else _] => destruct b eqn:Eb end; [by apply wp_refuse|].
    bool_to_prop. apply wp_ensure. intros Ev. apply wp_edit_save; [done|]. by apply Hs, edit_failure with job.
  - apply wp_edit_save; [done|]. apply Hs, edit_drop.
  - destruct (Data.PendingReports (data j)) as [|p rest] eqn:El; [by apply wp_refuse|].
    match goal with |- context [if ?b then _ else _] => destruct b eqn:Eb end; [by apply wp_refuse|].
    bool_to_prop. subst. apply wp_edit_save; [done|]. by apply Hs, edit_ack.
Qed.
End Perform.

Lemma command_cases c : c = DoClearActive \/ c <> DoClearActive.
Proof. destruct c; auto. Qed.

(** ** Clearing *)

(** The fence written before [d] is cleared. *)
Definition fence (d : Data.t) (m : Marker.t) : Prop :=
  exists digest, journalDataSHA256 d = Some digest /\
    m = Marker.mk journalActiveClearMarkerVersion digest d /\ validateActiveClearMarker m = Ok tt /\
    exceeds (encoded_size (Marker.to_json m)) (activeClearMarkerSizeLimit m) = false.

(** The disks on the way: the fence comes first, then the cleared journal, then
    the fence goes away. *)
Definition fencing (d : Data.t) (w v : disk) : Prop :=
  main v = main w /\ (marker v = marker w \/ exists m, fence d m /\ marker v = Some m).

Definition clearing (d : Data.t) (w v : disk) : Prop :=
  fencing d w v \/
  (main v = Some (Data.cleared d) /\
   (marker v = None \/ (marker v = marker w /\ marker w <> None) \/ exists m, fence d m /\ marker v = Some m)).

Section Clear.
Context (I : disk -> Prop).

Lemma wp_clear_temp (Q : check -> disk -> Prop) w :
  I w -> (forall r v, main v = main w -> marker v = marker w -> I v /\ Q r v) -> wp I (call ClearTemp) Q w.
Proof.
  intros HI HQ. apply wp_call; [done|]. intros ans x w' E. apply effect_inv in E as [[-> | ->] _]; by apply HQ.
Qed.

Lemma wp_sync (Q : check -> disk -> Prop) w : I w -> (forall r, Q r w) -> wp I (call SyncDir) Q w.
Proof. intros HI HQ. apply wp_call; [done|]. intros ans x w' E. by apply observe_inv in E as [-> _]. Qed.

Context (d : Data.t) (w : disk) (Q : check -> disk -> Prop).
Hypothesis (HI : forall v, fencing d w v -> I v).
Hypothesis (HQ : forall r v, fencing d w v -> (r = Ok tt -> marker v <> None) -> Q r v).

Lemma wp_install_written m v :
  fence d m -> fencing d w v -> wp I (install_written m) Q v.
Proof using HI HQ.
  intros Hm Hv. unfold install_written. apply wp_bind, wp_call; [auto|].
  assert (Hn : fencing d w (v <| marker := Some m |> <| temp := false |>))
    by (destruct Hv as [? _]; split; [done|by right; exists m]).
  intros ans x v' E. apply effect_inv in E as [Hv' Hok].
  assert (Hf : fencing d w v') by (by destruct Hv' as [-> | ->]). split; [auto|].
  destruct x as [[]|e].
  - apply wp_bind, wp_sync; [auto|]. intros r. rewrite (Hok eq_refl). apply wp_ret; [auto|]. by apply HQ.
  - assert (Hend : forall e' u, fencing d w u -> Q (Err e') u) by (intros; by apply HQ).
    assert (Hclean : wp I (let* _ := call ClearTemp in Ret (Err "install active journal clear fence")) Q v').
    { apply wp_bind, wp_clear_temp; [auto|]. intros r u Em Ek.
      assert (Hu : fencing d w u) by (unfold fencing; by rewrite Em, Ek). split; [auto|apply wp_ret; auto]. }
    apply wp_bind, wp_marker_load; [auto|done..|]. intros m' _ _. destruct (_ ==? _); [|done].
    apply wp_bind, wp_sync; [auto|]. intros r. apply wp_ret; auto.
Qed.

Lemma wp_install : wp I (installActiveClearMarkerLocked d) Q w.
Proof using HI HQ.
  assert (Hr : fencing d w w) by (split; auto).
  assert (Hfail : forall e, wp I (Ret (Err e)) Q w) by (intros; apply wp_ret; auto).
  unfold installActiveClearMarkerLocked. destruct (Data.ActiveJob d) as [job|]; [|done].
  destruct ((_ !=? _) || _); [done|]. destruct (has_report_credential d); [done|].
  destruct (journalDataSHA256 d) as [digest|] eqn:Ed; [|done].
  apply wp_bind_ok, wp_ret; [auto|].
  destruct (validateActiveClearMarker _) as [[]|e] eqn:Ev; [|by apply HQ].
  apply wp_bind_ok, wp_marker_load; [auto|by intros; apply HQ|..].
  - intros Hn. unfold install_fresh. apply wp_bind_ok, wp_clear_temp; [auto|]. intros r u Em Ek.
    assert (Hu : fencing d w u) by (unfold fencing; by rewrite Em, Ek; auto). split; [auto|].
    destruct r as [[]|e]; [|by apply HQ]. destruct (exceeds _ _) eqn:Ex; [apply wp_ret; [auto|by apply HQ]|].
    apply wp_bind_ok, wp_call; [auto|]. intros ans x v E.
    assert (Hv : fencing d w v).
    { cbn in E. destruct (temp u); [by injection E as _ <-|]. by apply effect_inv in E as [[-> | ->] _]. }
    split; [auto|]. destruct x as [[]|e]; [|by apply HQ]. apply wp_install_written; [|done]. by exists digest.
  - intros m Hm _. destruct (_ !=? _); [done|]. apply wp_sync; [auto|]. intros r. apply HQ; [done|congruence].
Qed.
End Clear.

Section ClearActive.
Context (I : disk -> Prop) (j : journal) (w : disk) (Q : journal * check -> disk -> Prop).
Hypothesis (Hp : poisoned j = None) (HI : forall v, clearing (data j) w v -> I v).
Hypothesis (Hidle : Data.ActiveJob (data j) = None -> Q (j, Ok tt) w).
Hypothesis (Hbad : forall jp e v, poisoned jp <> None -> data jp = data j \/ data jp = Data.cleared (data j) ->
  clearing (data j) w v -> Q (jp, Err e) v).
Hypothesis (Hdone : forall v, main v = Some (Data.cleared (data j)) -> marker v = None ->
  Q (j <| data := Data.cleared (data j) |>, Ok tt) v).

Lemma wp_clear : wp I (ClearActive j) Q w.
Proof using Hp HI Hidle Hbad Hdone.
  assert (Hw : clearing (data j) w w) by (left; split; auto).
  unfold ClearActive, mutable, fail_with, poisonLocked. rewrite Hp.
  destruct (Data.ActiveJob (data j)) as [job|]; [|apply wp_ret; auto].
  apply wp_bind, wp_install; [by intros v Hv; apply HI; left|].
  intros [[]|e] v Hv Hmark; [|apply wp_ret; [apply HI|apply Hbad; auto]; by left].
  specialize (Hmark eq_refl). set (next := Data.cleared (data j)) in *.
  assert (Hn : clearing (data j) w (v <| main := Some next |>)).
  { right. split; [done|]. destruct Hv as [_ [Ek|Hm]]; [|by right; right].
    cbn. destruct (marker w) eqn:Ew; [right; left; by rewrite Ek|congruence]. }
  apply wp_bind, wp_save; [by apply HI; left|by intros e; apply wp_ret; [apply HI|apply Hbad; auto]; left|].
  split; [auto|]. intros [[]|e]; [|apply wp_ret; [auto|apply Hbad; auto]].
  apply wp_bind, wp_call; [auto|]. intros ans x u E.
  assert (Hu : clearing (data j) w u /\ (x = Ok tt -> main u = Some next /\ marker u = None)).
  { revert Hn E. set (v' := v <| main := Some next |>). assert (Hv' : main v' = Some next) by done.
    assert (Hm' : marker v' <> None) by done. clearbody v'. intros Hn E. cbn in E.
    destruct (marker v'); [|done]. apply effect_inv in E as [Hu Hok].
    split; [|intros Ex; by rewrite (Hok Ex)]. destruct Hu as [-> | ->]; [|done]. right. by split; [|left]. }
  destruct Hu as [Hu Hok]. split; [auto|]. destruct x as [[]|e].
  - apply wp_ret; [auto|by apply Hdone; apply Hok].
  - change (poisoned (j <| data := next |>)) with (poisoned j). rewrite Hp. apply wp_ret; [auto|by apply Hbad; auto].
Qed.
End ClearActive.

(** ** Opening *)

(** What opening reads from the disk. *)
Definition loaded (w : disk) : Data.t :=
  match main w with Some d => normalize (Data.persisted d) | None => Data.initial end.

(** The fence [m] goes with the journal [d]: the clear has not happened, or it has. *)
Definition reconcilable (d : Data.t) (m : Marker.t) : Prop :=
  journalDataSHA256 d = Some (Marker.PreviousSHA256 m) \/
  journalDataSHA256 d = journalDataSHA256 (fence_cleared (Marker.Previous (Marker.persisted m))).

Definition settled (d : Data.t) (w v : disk) : Prop :=
  main v = main w /\
  (marker v = marker w \/ (marker v = None /\ exists m, marker w = Some m /\ reconcilable d m)).

Lemma settled_refl d w : settled d w w.
Proof. split; auto. Qed.

Lemma settled_same d w u v : settled d w u -> main v = main u -> marker v = marker u -> settled d w v.
Proof. intros [Em Ek] Em' Ek'. unfold settled. by rewrite Em', Ek'. Qed.

Lemma wp_reconcile (I : disk -> Prop) d ex (Q : check -> disk -> Prop) w :
  (forall v, settled d w v -> I v) -> (forall e v, settled d w v -> Q (Err e) v) ->
  (forall v, settled d w v -> marker v = None -> Q (Ok tt) v) ->
  wp I (reconcileActiveClearMarkerLocked d ex) Q w.
Proof.
  intros HI He Hok. pose proof (settled_refl d w) as Hw. unfold reconcileActiveClearMarkerLocked.
  apply wp_bind_ok, wp_clear_temp; [auto|]. intros r u Em Ek.
  assert (Hu := settled_same d w w u Hw Em Ek). split; [auto|]. destruct r as [[]|e]; [|auto].
  apply wp_bind_ok, wp_marker_load; [auto|auto|intros Hn; apply wp_ret; auto|].
  intros m Hm _. assert (Hfail : forall e, wp I (Ret (Err e)) Q u) by (intros; apply wp_ret; auto).
  destruct (negb ex); [done|]. destruct (journalDataSHA256 d) as [cur|] eqn:Ec; [|done].
  destruct (journalDataSHA256 (fence_cleared _)) as [clr|] eqn:El; [|done].
  destruct ((_ !=? _) && _) eqn:Eb; [done|].
  assert (Hrec : reconcilable d m).
  { unfold reconcilable. apply andb_false_iff in Eb as [Eb|Eb]; apply negb_false_iff, bool_decide_eq_true in Eb.
    - left. by rewrite Ec, Eb.
    - right. by rewrite Ec, El, Eb. }
  apply wp_call; [auto|]. intros ans x v E. cbn in E. rewrite Hm in E. apply effect_inv in E as [Hv Hx].
  assert (Hs : settled d w v).
  { destruct Hv as [-> | ->]; [|done]. split; [done|]. right. split; [done|]. exists m. by rewrite <- Ek. }
  split; [auto|]. destruct x as [[]|e]; [|auto]. apply Hok; [done|]. by rewrite (Hx eq_refl).
Qed.

(** The disks of an opening: the fence is reconciled, then credentials and
    abandoned reports are scrubbed. *)
Definition opening (w v : disk) : Prop :=
  settled (loaded w) w v \/
  (main w <> None /\ validateJournalData (loaded w) = Ok tt /\ main v = Some (scrub (loaded w)).1 /\
   marker v = None /\ (marker w = None \/ exists m, marker w = Some m /\ reconcilable (loaded w) m)).

Definition opened (w : disk) (j : journal) (v : disk) : Prop :=
  opening w v /\ marker v = None /\
  ((main w = None /\ main v = None /\ j = Journal Data.initial ∅ None) \/
   (main w <> None /\ validateJournalData (loaded w) = Ok tt /\
    (retains_pending (loaded w) = true -> validateJournalSoftwarePendingForRestart (loaded w) = Ok tt) /\
    j = Journal (scrub (loaded w)).1 ∅ None /\
    (main v = Some (data j) \/ (main v = main w /\ (scrub (loaded w)).2 = false)))).

Lemma wp_open (I : disk -> Prop) (Q : result string journal -> disk -> Prop) w :
  (forall v, opening w v -> I v) -> (forall e v, opening w v -> Q (Err e) v) ->
  (forall j v, opened w j v -> Q (Ok j) v) -> wp I OpenJournal Q w.
Proof.
  intros HI He Hok. assert (Hs : forall v, settled (loaded w) w v -> opening w v) by (intros; by left).
  pose proof (Hs w (settled_refl _ w)) as Hw. unfold OpenJournal. apply wp_bind_ok, wp_call; [auto|].
  intros ans x u E. apply observe_inv in E as [-> [-> | ->]]; (split; [auto|]); [|auto].
  destruct (main w) as [d0|] eqn:Em; cbn [option_map].
  - assert (El : loaded w = normalize (Data.persisted d0)) by (unfold loaded; by rewrite Em). rewrite <- El.
    apply wp_bind_ok, wp_ret; [auto|]. destruct (validateJournalData (loaded w)) as [[]|] eqn:Ev; [|auto].
    apply wp_bind_ok, wp_reconcile; [auto..|]. intros v Hv Hn.
    apply wp_bind_ok, wp_ret; [auto|].
    destruct (if retains_pending _ then _ else _) as [[]|] eqn:Ert; [|auto].
    assert (Hrt : retains_pending (loaded w) = true -> validateJournalSoftwarePendingForRestart (loaded w) = Ok tt)
      by (intros Er; by rewrite Er in Ert).
    destruct (scrub (loaded w)) as [d dirty] eqn:Esc.
    assert (Ed : d = (scrub (loaded w)).1) by (by rewrite Esc).
    assert (Hmk : marker w = None \/ exists m, marker w = Some m /\ reconcilable (loaded w) m).
    { destruct Hv as [_ [Ek|[_ Hm]]]; [left; congruence|by right]. }
    destruct dirty.
    + assert (Ho : opening w (v <| main := Some d |>)).
      { right. rewrite Em, <- Ed. by repeat split. }
      apply wp_bind, wp_saveLocked; [auto| | |done].
      * intros v' e e' Hv'. destruct Hv' as [-> | ->]; apply wp_ret; auto.
      * split; [auto|]. apply wp_ret; [auto|]. apply Hok. split; [done|]. split; [done|]. right.
        rewrite Em, Esc. repeat split; [done..|by left].
    + apply wp_ret; [auto|]. apply Hok. split; [auto|]. split; [done|]. right. rewrite Em, Esc.
      repeat split; [done..|]. right. split; [|done]. rewrite <- Em. apply Hv.
  - assert (El : loaded w = Data.initial) by (unfold loaded; by rewrite Em). rewrite <- El.
    apply wp_bind_ok, wp_reconcile; [auto..|]. intros v Hv Hn. apply wp_ret; [auto|].
    apply Hok. split; [auto|]. split; [done|]. left. rewrite Em, El. split; [done|]. split; [|done].
    rewrite <- Em. apply Hv.
Qed.
End Commands.
