(* ===== verification/JournalSafety.v ===== *)
(** What the journal guarantees to the agent: no credential reaches the disk, an
    acknowledged change is durable and an uncertain one stops the process, a saved
    software journal passes the checks of the next opening, and the pending reports
    are a queue. *)
From Stdlib Require Import Ascii String ZArith Lia.
From stdpp Require Import base decidable list strings gmap.
From S2P Require Import Prelude Strings Regexp Patterns Effects Sha256 Json PlanDigest Jobs Journal JournalRules.

Open Scope string_scope.

Section Safety.
Context `{UnicodeTables} `{TimeZones} `{PortPolicies}.

(** ** Reasoning about processes *)

Lemma perform_poisoned c j e : poisoned j = Some e -> perform c j = Ret (j, Err e).
Proof.
  intros Hp. destruct c; cbn;
    unfold MarkDeployed, SetActive, SetActivePlan, SetActivePortPlan, SetActiveStageFailure, queue, DropJobReports,
      Ack, ClearActive, AdoptRecoveredSoftwareClaim, mutable; by rewrite Hp.
Qed.

(** An invariant of processes holds after opening, and is kept by the commands of a
    journal that is not poisoned; [I] holds at every crash point on the way. *)
Section Invariant.
Context (I : disk -> Prop) (P : disk -> journal -> Prop).
Hypothesis (Hinit : forall w j v, opened w j v -> P v j).
Hypothesis (Hstep : forall w j c, P w j -> poisoned j = None -> wp I (perform c j) (fun r v => P v r.1) w).

Lemma process_invariant w j : process w j -> P w j.
Proof using Hinit Hstep.
  induction 1 as [w answers w' j E|w j c answers w' j' r _ IH E].
  - assert (Hw : wp (fun _ => True) OpenJournal (fun r v => match r with Ok j => P v j | Err _ => True end) w)
      by (apply wp_open; [done..|apply Hinit]).
    apply (wp_sound _ _ _ answers) in Hw as [_ Hw]. rewrite E in Hw. by apply (Hw (Ok j)).
  - destruct (poisoned j) as [e|] eqn:Hp.
    + rewrite (perform_poisoned c j e Hp) in E. cbn in E. by injection E as <- <- _.
    + pose proof (wp_sound I _ _ answers _ (Hstep w j c IH Hp)) as [_ Hw]. rewrite E in Hw. by apply (Hw (j', r)).
Qed.

Lemma process_crash w j c answers :
  (forall w j, P w j -> I w) -> process w j -> I (run (perform c j) answers w).1.
Proof using Hinit Hstep.
  intros HPI Hj. apply process_invariant in Hj. destruct (poisoned j) as [e|] eqn:Hp.
  - rewrite (perform_poisoned c j e Hp). cbn. eauto.
  - by apply (wp_sound I _ _ answers _ (Hstep w j c Hj Hp)).
Qed.
End Invariant.

(** The same for whole sessions, on commands that satisfy [allowed]. *)
Lemma wp_session (I : disk -> Prop) (P : disk -> journal -> Prop) (allowed : command -> Prop) cs w :
  (forall v, opening w v -> I v) -> (forall j v, opened w j v -> P v j) -> (forall w j, P w j -> I w) ->
  (forall w j c, allowed c -> P w j -> poisoned j = None -> wp I (perform c j) (fun r v => P v r.1) w) ->
  Forall allowed cs -> wp I (session cs) (fun _ _ => True) w.
Proof.
  intros Hw Ho HI Hs Hcs.
  assert (Hall : forall j v, P v j -> wp I (perform_all cs j) (fun _ _ => True) v).
  { induction Hcs as [|c cs Hc _ IH]; intros j v Hv; [apply wp_ret; eauto|]. cbn [perform_all]. apply wp_bind.
    destruct (poisoned j) as [e|] eqn:Hp.
    - rewrite (perform_poisoned c j e Hp). apply wp_ret; eauto.
    - eapply wp_mono; [|by apply Hs]. intros [j' r] u _ Hu. by apply IH. }
  apply wp_bind, wp_open; [done| |].
  - intros e v Hv. apply wp_ret; auto.
  - intros j v Hv. apply Hall; auto.
Qed.

(** ** Credentials *)

Definition credential_free (d : Data.t) : Prop :=
  (forall job, Data.ActiveJob d = Some job -> Job.LeaseToken job = "") /\
  Forall (fun p => Report.LeaseToken (Pending.report p) = "") (Data.PendingReports d).

Definition no_credentials (w : disk) : Prop :=
  (forall d, main w = Some d -> credential_free d) /\
  (forall m, marker w = Some m -> credential_free (Marker.Previous m)).

Lemma credential_free_normalize d : credential_free (normalize d) <-> credential_free d.
Proof. unfold normalize. by destruct (_ =? _)%Z. Qed.

Lemma credential_free_persisted d : credential_free (Data.persisted d) <-> credential_free d.
Proof.
  unfold credential_free, Data.persisted. destruct d as [[job|] ? ? ? ? ? ? ?]; cbn; [|done].
  split; intros [Hj Hr]; (split; [|done]); intros ? [= <-]; by apply (Hj _ eq_refl).
Qed.

Lemma pending_sequence_credential active next previous l :
  pending_sequence_ok active next previous l = true ->
  Forall (fun p => Report.LeaseToken (Pending.report p) = "") l.
Proof.
  revert previous. induction l as [|p l IH]; intros previous Hl; [done|].
  cbn in Hl. bool_to_prop. constructor; eauto.
Qed.

Lemma scrub_credential_free d :
  (retains_pending d = true -> validateJournalSoftwarePendingForRestart d = Ok tt) ->
  credential_free (scrub d).1.
Proof.
  intros Hr. unfold scrub, retains_pending in *.
  assert (Hj : forall job', option_map (fun job => job <| Job.LeaseToken := "" |> <| Job.ReleaseToken := "" |>)
    (Data.ActiveJob d) = Some job' -> Job.LeaseToken job' = "") by (destruct (Data.ActiveJob d); by intros ? [= <-]).
  destruct (Data.PendingReports d) as [|p l] eqn:El; [by split; cbn; rewrite ?El|].
  destruct (Data.ActiveJob d) as [job|] eqn:Ej; [|done].
  destruct (Job.isV2SoftwareJob job); [|done]. specialize (Hr eq_refl).
  split; [done|]. cbn. rewrite El. unfold validateJournalSoftwarePendingForRestart in Hr. rewrite Ej, El in Hr.
  destruct (pending_cursor_ambiguous d job); [done|]. apply bind_res_ok in Hr as (? & _ & Hr).
  destruct (pending_sequence_ok _ _ _ _) eqn:Es; [|done]. by eapply pending_sequence_credential.
Qed.

Lemma note_port_result_keeps d job service gen status r d' report :
  note_port_result d job service gen status r = Ok (d', report) ->
  d' = d \/ exists active active', Data.ActiveJob d = Some active /\ d' = d <| Data.ActiveJob := Some active' |> /\
    Job.isPortContractV2 active = true /\ Job.LeaseToken active' = Job.LeaseToken active.
Proof.
  unfold note_port_result. destruct (_ !=? _)%Z; [intros [= <- _]; by left|].
  destruct (Data.ActiveJob d) as [active|]; [|done]. destruct (Result_PortResult r); [|done].
  destruct (Job.PortReconfigure active) eqn:Ep; [|done]. destruct (Job.isPortContractV2 active) eqn:Ev; [|done].
  cbn [negb orb]. destruct (_ || _); [done|]. destruct (IsAcceptedPortResult _).
  - destruct (match Job.PortResultOf active with Some _ => _ | None => _ end); [done|].
    intros [= <- _]. right. exists active. eexists. by split_and!.
  - destruct (_ || _); [done|]. intros [= <- _]. right. exists active. eexists. by split_and!.
Qed.

Lemma keep_port_results_port active job copy :
  keep_port_results active job = Ok copy ->
  copy = job \/ (Job.isPortContractV2 job = true /\ Job.PortReconfigure copy = Job.PortReconfigure job).
Proof.
  unfold keep_port_results. destruct (Job.isPortContractV2 job) eqn:Ev; [|intros [= <-]; by left]. cbn [negb orb].
  destruct (_ !=? _); [intros [= <-]; by left|]. destruct (negb _); [done|]. intros E. right. split; [done|].
  apply bind_res_ok in E as (c & Ec & [= <-]).
  assert (Hc : Job.PortReconfigure c = Job.PortReconfigure job).
  { destruct (Job.PortResultOf active); [|by injection Ec as <-]. by destruct (match _ with Some _ => _ | None => _ end);
      [|injection Ec as <-]. }
  by destruct (Job.LastRecoveryObservation c).
Qed.

Lemma edit_credential_free j c j' :
  poisoned j = None -> edit j c j' -> credential_free (data j) -> credential_free (data j') /\ poisoned j' = None.
Proof.
  intros Hp He Hf. split; [|by destruct He]. pose proof Hf as [Hj Hr].
  destruct He as [| ? copy _ _ _| | | |? ? ? ? ? ? ? ? ? ? pr d port Hd|job|p rest El|job active Ea Hq _];
    cbn; try done.
  - unfold with_active. split; [by destruct (match _ with Some _ => _ | None => _ end); intros ? [= <-]|].
    by destruct (match _ with Some _ => _ | None => _ end).
  - assert (Hd' : credential_free d).
    { destruct pr as [r|]; [|by destruct Hd as [-> _]]. destruct Hd as (rep & Hd & _).
      apply note_port_result_keeps in Hd as [-> |(a & a' & Ea & -> & _ & Et)]; [done|].
      split; [|done]. intros ? [= <-]. rewrite Et. by apply Hj. }
    destruct Hd' as [Hj' Hr']. split; [done|]. cbn. apply Forall_app. split; [done|]. by repeat constructor.
  - split; [done|]. cbn. apply Forall_forall. intros p Hin. apply list_elem_of_In, filter_In in Hin as [Hin _].
    rewrite Forall_forall in Hr. by apply Hr, list_elem_of_In.
  - split; [done|]. cbn. rewrite El in Hr. by inversion Hr.
  - split; [|done]. intros ? [= <-]. unfold adoption_refused in Hq. by bool_to_prop.
Qed.

Lemma scrub_clean d : (scrub d).2 = false -> (scrub d).1 = d.
Proof.
  unfold scrub. destruct d as [[job|] ? ? ? ? ? l ?]; cbn [Data.ActiveJob Data.PendingReports].
  - assert (Hj : (Job.LeaseToken job !=? "") || (Job.ReleaseToken job !=? "") = false ->
      job <| Job.LeaseToken := "" |> <| Job.ReleaseToken := "" |> = job)
      by (destruct job; cbn; intros E; by bool_to_prop; subst).
    destruct l; [|destruct (retains_pending _); [|done]]; intros E; specialize (Hj E); cbn; by f_equal; f_equal.
  - by destruct l.
Qed.

(** The journal that an opening returns is what the disk holds. *)
Lemma opened_loaded w j v :
  opened w j v -> marker v = None /\ poisoned j = None /\
  (main v = None /\ data j = Data.initial \/ main v = Some (data j) \/
   exists d, main v = Some d /\ data j = normalize (Data.persisted d)).
Proof.
  intros (_ & Hk & [(_ & Hv & ->)|(Hw & _ & _ & -> & [Hv|[Hv Hs]])]); (split; [done|]; split; [done|]); [auto..|].
  right; right. unfold loaded in *. destruct (main w) as [d|] eqn:E; [|done].
  exists d. split; [congruence|]. by apply scrub_clean.
Qed.

Lemma opened_credential_free w j v : opened w j v -> no_credentials v /\ credential_free (data j).
Proof.
  intros Ho. assert (Hf : credential_free (data j)).
  { destruct Ho as (_ & _ & [(_ & _ & ->)|(_ & _ & Hr & -> & _)]); [done|]. by apply scrub_credential_free. }
  split; [|done]. apply opened_loaded in Ho as (Hk & _ & Hm). unfold no_credentials. rewrite Hk.
  split; [|done]. intros d Hd. destruct Hm as [[E _]|[E|(d' & E & E')]]; rewrite E in Hd; [done|congruence|].
  injection Hd as ->. by rewrite E', credential_free_normalize, credential_free_persisted in Hf.
Qed.

Lemma clearing_credential_free d w v :
  no_credentials w -> credential_free d -> clearing d w v -> no_credentials v.
Proof.
  intros [Hm Hk] [Hj Hr]. assert (Hc : credential_free (Data.cleared d)) by done.
  assert (Hf : forall m, fence d m -> credential_free (Marker.Previous m)) by (by intros m (? & _ & -> & _)).
  assert (HA : forall v, marker v = None \/ marker v = marker w \/ (exists m, fence d m /\ marker v = Some m) ->
    forall m, marker v = Some m -> credential_free (Marker.Previous m)).
  { intros u [E|[E|(m & Hfm & E)]] m' E'; rewrite E in E'; [done|by apply Hk|injection E' as <-; auto]. }
  intros [[Em Ek]|[Em Ek]]; (split; [rewrite Em; try done|apply HA; tauto]). by intros ? [= <-].
Qed.

Lemma perform_credential_free w j c :
  no_credentials w /\ credential_free (data j) -> poisoned j = None ->
  wp no_credentials (perform c j) (fun r v => no_credentials v /\ credential_free (data r.1)) w.
Proof.
  intros [Hw Hj] Hp. destruct (command_cases c) as [-> | Hc].
  - assert (Hc : credential_free (Data.cleared (data j))) by (split; [done|apply Hj]).
    apply wp_clear; [done| |done| |].
    + intros v. by apply clearing_credential_free.
    + intros jp e v _ [E|E] Hv; (split; [by apply (clearing_credential_free (data j) w)|]); cbn; by rewrite E.
    + intros v Em Ek. split; [|done]. unfold no_credentials. rewrite Em, Ek. split; [by intros ? [= <-]|done].
  - apply wp_perform; [done..|]. intros j' He. apply edit_credential_free in He as [Hj' _]; [|done..].
    assert (Hs : no_credentials (w <| main := Some (data j') |>)) by (split; [by intros ? [= <-]|apply Hw]).
    split; [done|]. split; [done|]. intros jp e v _ Hd Hv. cbn [fst]. split; [by destruct Hv as [-> | ->]|].
    by destruct Hd as [-> | ->].
Qed.

(** C21: No lease token reaches the disk.  Whatever the disk held before, once the
    journal was opened, neither [journal.json] nor the clear fence contains a lease
    token of the active job or of a pending report, at any point of any command,
    wherever it fails or is cut off. *)
Theorem journal_no_credentials w j c answers :
  process w j -> no_credentials (run (perform c j) answers w).1.
Proof.
  intros Hj. apply (process_crash no_credentials (fun w j => no_credentials w /\ credential_free (data j)));
    [apply opened_credential_free|intros; by apply perform_credential_free|by intros ? ? []|done].
Qed.

(** ** Durability *)

(** A process that is not poisoned has its data on disk: opening would read it. *)
Definition durable (w : disk) (j : journal) : Prop :=
  marker w = None /\ loaded w = normalize (Data.persisted (data j)).

Lemma normalize_persisted d :
  normalize (Data.persisted (normalize (Data.persisted d))) = normalize (Data.persisted d).
Proof.
  unfold normalize, Data.persisted. destruct d as [[[]|] ? ? ? ? n ? ?]; cbn; destruct (n =? 0)%Z eqn:E; cbn; by rewrite ?E.
Qed.

Lemma opened_durable w j v : opened w j v -> durable v j.
Proof.
  intros Ho. apply opened_loaded in Ho as (Hk & _ & Hm). split; [done|]. unfold loaded.
  destruct Hm as [[-> ->]|[-> |(d & -> & ->)]]; [done..|]. by rewrite normalize_persisted.
Qed.

(** The outcome of a command: done and durable, refused without effect, or the
    journal is poisoned. *)
Definition outcome (w : disk) (j : journal) (r : journal * check) (w' : disk) : Prop :=
  match r.2 with
  | Ok _ => poisoned r.1 = None /\ durable w' r.1
  | Err _ => (r.1 = j /\ w' = w) \/ poisoned r.1 <> None
  end.

Lemma perform_outcome w j c :
  durable w j -> poisoned j = None -> wp (fun _ => True) (perform c j) (outcome w j) w.
Proof.
  intros Hd Hp. destruct (command_cases c) as [-> | Hc].
  - apply wp_clear; [done..|by intros _; split| |].
    + intros jp e v Hjp _ _. by right.
    + intros v Em Ek. split; [done|]. split; [done|]. unfold loaded. by rewrite Em.
  - apply wp_perform; [done|done|by intros e; left|done|]. intros j' He. split; [done|]. split.
    + assert (Hp' : poisoned j' = None) by (by destruct He). split; [done|]. split; [apply Hd|done].
    + intros jp e v Hjp _ _. by right.
Qed.

Lemma process_durable w j : process w j -> poisoned j = None -> durable w j.
Proof.
  apply (process_invariant (fun _ => True) (fun w j => poisoned j = None -> durable w j)).
  - intros w0 j0 v Ho _. by eapply opened_durable.
  - intros w0 j0 c Hd Hp. eapply wp_mono; [|by apply perform_outcome; auto].
    intros [j' [[]|e]] v _; cbn; [by intros [_ ?]|]. intros [[-> ->]|Hn]; [done|by intros ?].
Qed.

(** C22: Durable or stopped.  A command of a running process that succeeds leaves
    the new data on disk, where the next opening reads it, and no clear fence.  A
    command that fails has changed nothing, in memory or on disk, or has poisoned
    the journal; then every later command fails with the same error and changes
    nothing. *)
Theorem journal_durable_or_poisoned w j c answers w' j' r :
  process w j -> run (perform c j) answers w = (w', Some (j', r)) ->
  match r with
  | Ok _ => poisoned j' = None /\ marker w' = None /\ loaded w' = normalize (Data.persisted (data j'))
  | Err _ =>
      (j' = j /\ w' = w) \/
      exists e, poisoned j' = Some e /\
        forall c' answers' v, run (perform c' j') answers' v = (v, Some (j', Err e))
  end.
Proof.
  intros Hj E. destruct (poisoned j) as [e|] eqn:Hp.
  - rewrite (perform_poisoned c j e Hp) in E. cbn in E. injection E as <- <- <-. by left.
  - pose proof (wp_sound _ _ _ answers _ (perform_outcome w j c (process_durable w j Hj Hp) Hp)) as [_ Ho].
    rewrite E in Ho. specialize (Ho _ eq_refl). unfold outcome in Ho. cbn in Ho.
    destruct r as [[]|e]; [done|]. destruct Ho as [?|Hn]; [by left|]. right.
    destruct (poisoned j') as [e'|] eqn:Hp'; [|done]. exists e'. split; [done|].
    intros c' answers' v. by rewrite (perform_poisoned c' j' e' Hp').
Qed.

(** ** Well-formed software journals *)

(** A journal without port work: its job, plan and stage failure are validated and
    bound to each other. *)
Definition software_journal (d : Data.t) : Prop :=
  (forall job, Data.ActiveJob d = Some job ->
     Job.validateOperationUnion job = Ok tt /\ validateJournalSoftwareJob job = Ok tt /\
     Job.PortReconfigure job = None) /\
  (forall p, Data.ActivePlan d = Some p -> exists job, Data.ActiveJob d = Some job /\
     Job.EffectiveOperation job = updateJobOperationSoftwareUpdate /\ MutationPlan.JobID p = Job.ID job /\
     MutationPlan.Validate p = Ok tt /\ validateJournalSoftwarePlan job p false = Ok tt) /\
  (forall f, Data.ActiveStageFailure d = Some f -> exists job, Data.ActiveJob d = Some job /\
     StageFailure.JobID f = Job.ID job /\ StageFailure.validate f = Ok tt) /\
  Data.ActivePortPlan d = None /\ Data.ActivePortPolicy d = None.

Lemma software_journal_valid d : software_journal d -> validateJournalData d = Ok tt.
Proof.
  intros (Hj & Hp & Hf & Epp & Epol). unfold validateJournalData, validate_plans, validate_stage_failure.
  rewrite Epp, Epol. destruct (Data.ActiveJob d) as [job|] eqn:Ej.
  - destruct (Hj job eq_refl) as (Eu & Es & Er). unfold validate_active_job, validate_port_results.
    rewrite Eu, Es, Er. cbn.
    destruct (Data.ActivePlan d) as [p|] eqn:Ep.
    + destruct (Hp p eq_refl) as (? & [= <-] & Eo & Ei & Ev & Ew). unfold plan_binding_invalid.
      rewrite Ep, Epp, Eo, Ei, Ev, Ew, !bool_decide_true by done. cbn.
      destruct (Data.ActiveStageFailure d) as [f|]; [|done]. destruct (Hf f eq_refl) as (? & [= <-] & Eid & Evf).
      by rewrite Eid, bool_decide_true, Evf by done.
    + cbn. destruct (Data.ActiveStageFailure d) as [f|]; [|done].
      destruct (Hf f eq_refl) as (? & [= <-] & Eid & Evf). by rewrite Eid, bool_decide_true, Evf by done.
  - cbn. destruct (Data.ActivePlan d); [by destruct (Hp _ eq_refl) as (? & ? & _)|]. cbn.
    destruct (Data.ActiveStageFailure d); [by destruct (Hf _ eq_refl) as (? & ? & _)|done].
Qed.

(** Changes to fields of the job that no check reads. *)
Definition neutral (f : Job.t -> Job.t) : Prop := forall job,
  Job.validateOperationUnion (f job) = Job.validateOperationUnion job /\
  validateJournalSoftwareJob (f job) = validateJournalSoftwareJob job /\
  Job.PortReconfigure (f job) = Job.PortReconfigure job /\
  Job.EffectiveOperation (f job) = Job.EffectiveOperation job /\ Job.ID (f job) = Job.ID job /\
  forall p b, validateJournalSoftwarePlan (f job) p b = validateJournalSoftwarePlan job p b.

Lemma neutral_scrub : neutral (fun job => job <| Job.LeaseToken := "" |> <| Job.ReleaseToken := "" |>).
Proof. intros []. by repeat split. Qed.
Lemma neutral_persisted : neutral Job.persisted.
Proof. intros []. by repeat split. Qed.

Lemma software_journal_map f d :
  neutral f -> software_journal d -> software_journal (d <| Data.ActiveJob := option_map f (Data.ActiveJob d) |>).
Proof.
  intros Hn (Hj & Hp & Hf & Epp & Epol). unfold software_journal. cbn.
  destruct (Data.ActiveJob d) as [job|] eqn:Ej; cbn; [|done]. destruct (Hn job) as (E1 & E2 & E3 & E4 & E5 & E6).
  split_and!; [..|done|done].
  - intros ? [= <-]. rewrite E1, E2, E3. auto.
  - intros p Ep. destruct (Hp p Ep) as (? & [= <-] & ?). exists (f job). by rewrite E4, E5, E6.
  - intros x Ex. destruct (Hf x Ex) as (? & [= <-] & ?). exists (f job). by rewrite E5.
Qed.

Lemma software_journal_loaded w :
  (forall d, main w = Some d -> software_journal d) -> software_journal (loaded w).
Proof.
  intros Hw. unfold loaded. destruct (main w) as [d|]; [|done]. specialize (Hw d eq_refl).
  apply (software_journal_map _ _ neutral_persisted) in Hw. unfold normalize. by destruct (_ =? _)%Z.
Qed.

Lemma software_journal_scrub d : software_journal d -> software_journal (scrub d).1.
Proof.
  intros Hd. apply (software_journal_map _ _ neutral_scrub) in Hd. unfold scrub.
  destruct (Data.PendingReports d); [done|]. by destruct (retains_pending d).
Qed.

(** A command that brings no port job. *)
Definition software_only (c : command) : Prop :=
  match c with DoSetActive (Some job) => Job.PortReconfigure job = None | _ => True end.

Lemma no_port_contract job : Job.PortReconfigure job = None -> Job.isPortContractV2 job = false.
Proof. intros E. unfold Job.isPortContractV2. by rewrite E, andb_false_r. Qed.

Lemma no_port_operation job :
  Job.validateOperationUnion job = Ok tt -> Job.PortReconfigure job = None ->
  Job.EffectiveOperation job <> updateJobOperationPortReconfigure.
Proof.
  intros Hu Hp E. unfold Job.validateOperationUnion in Hu. rewrite Hp, E in Hu.
  by destruct ((_ !=? _) && (_ || _)) in Hu.
Qed.

Lemma software_no_port job :
  Job.validateOperationUnion job = Ok tt -> Job.isV2SoftwareJob job = true -> Job.PortReconfigure job = None.
Proof.
  intros Hu Hv. unfold Job.isV2SoftwareJob in Hv. bool_to_prop. unfold Job.validateOperationUnion in Hu.
  match goal with E : Job.EffectiveOperation job = _ |- _ => rewrite E in Hu end.
  by destruct (Job.PortReconfigure job).
Qed.

Lemma plan_any_lease job p b : validateJournalSoftwarePlan job p b = Ok tt -> validateJournalSoftwarePlan job p false = Ok tt.
Proof.
  unfold validateJournalSoftwarePlan. destruct (negb _); [done|]. intros Hp.
  destruct (_ || _) eqn:E in Hp; [done|]. rewrite !orb_false_iff in E. destruct E as [[E _] E'].
  by rewrite E', <- !orb_false_iff in *; rewrite E.
Qed.

Lemma recovered_id active job plan :
  negb (Job.sameRecoveredJobIntent active job) && negb (journalLegacySoftwareBindingMatches active job plan) = false ->
  Job.ID active = Job.ID job.
Proof.
  rewrite andb_false_iff, !negb_false_iff. intros [E|E].
  - unfold Job.sameRecoveredJobIntent in E. destruct (_ || _) eqn:Eo in E; [done|]. by bool_to_prop.
  - unfold journalLegacySoftwareBindingMatches in E. destruct (Job.SoftwareUpdate active); [done|].
    destruct (Job.SoftwareUpdate job); [|done]. destruct plan; [|done]. unfold Job.sameSoftwareJobIdentity in E.
    by bool_to_prop.
Qed.

(** Replacing the job of a software journal, with its plan. *)
Lemma software_journal_replace d active job n :
  software_journal d -> Data.ActiveJob d = Some active -> Job.ID active = Job.ID job ->
  Job.EffectiveOperation active = Job.EffectiveOperation job ->
  Job.validateOperationUnion job = Ok tt -> validateJournalSoftwareJob job = Ok tt -> Job.PortReconfigure job = None ->
  (forall p, Data.ActivePlan d = Some p -> Job.EffectiveOperation job = updateJobOperationSoftwareUpdate ->
     validateJournalSoftwarePlan job p false = Ok tt) ->
  software_journal (d <| Data.ActiveJob := Some job |> <| Data.NextSeq := n |>).
Proof.
  intros (Hj & Hp & Hf & Epp & Epol) Ea Ei Eo Eu Es Er Hw. split_and!; cbn; [..|done|done].
  - by intros ? [= <-].
  - intros p Ep. destruct (Hp p Ep) as (a & Ea' & Eo' & Ei' & Ev & _). rewrite Ea in Ea'. injection Ea' as <-.
    exists job. rewrite <- Ei, <- Eo at 1. split_and!; try done. apply Hw; congruence.
  - intros f Ef. destruct (Hf f Ef) as (a & Ea' & Ei' & Ev). rewrite Ea in Ea'. injection Ea' as <-.
    exists job. by rewrite <- Ei.
Qed.

Lemma set_active_software_journal d job copy' n :
  Job.PortReconfigure job = None -> software_journal d ->
  Job.validateOperationUnion job = Ok tt -> validateJournalSoftwareJob job = Ok tt ->
  match Data.ActiveJob d with
  | Some active => replacement_allowed d active job = Ok tt /\ keep_port_results active job = Ok copy'
  | None => copy' = job
  end ->
  software_journal (with_active d (copy' <| Job.LeaseToken := "" |> <| Job.ReleaseToken := "" |>) n).
Proof.
  intros Hso Hs Eu Es Hk.
  assert (E : copy' = job).
  { destruct (Data.ActiveJob d) as [active|]; [|done]. destruct Hk as [_ Hk].
    apply keep_port_results_port in Hk as [->|[E _]]; [done|]. by rewrite no_port_contract in E. }
  subst copy'. destruct (neutral_scrub job) as (E1 & E2 & E3 & E4 & E5 & E6).
  unfold with_active. rewrite E4, E5.
  destruct (Data.ActiveJob d) as [active|] eqn:Ea; [|split_and!; cbn; try done; by intros ? [= <-]].
  destruct Hk as [Hr _]. unfold replacement_allowed in Hr. destruct (_ || _) eqn:E in Hr; [done|]. bool_to_prop.
  rewrite !bool_decide_true by done. cbn [andb].
  apply (software_journal_replace d active); rewrite ?E1, ?E2, ?E3, ?E4, ?E5;
    try done. intros p Ep Eo. rewrite E6. rewrite bool_decide_true in Hr by congruence.
  destruct (negb _ && _) in Hr; [done|]. destruct (_ && _) in Hr; [done|]. by rewrite Ep in Hr.
Qed.

Lemma edit_software_journal j c j' :
  software_only c -> edit j c j' -> software_journal (data j) -> software_journal (data j').
Proof.
  intros Hso He Hs. pose proof Hs as (Hj & Hp & Hf & Epp & Epol).
  destruct He as [|job copy Eu Es Hk|plan job Ea Eo Ei Ev Ew|plan job Ea Eo|f job Ea Ei Ev|? ? ? ? ? ? ? ? ? ? pr d port Hd|
    | |job active Ea Hq Hw]; try done.
  - by apply (set_active_software_journal _ job).
  - split_and!; try done. intros p [= <-]. exists job. split_and!; try done. by eapply plan_any_lease.
  - destruct (Hj job Ea) as (Eu & _ & Er). by destruct (no_port_operation job).
  - split_and!; try done. intros ? [= <-]. by exists job.
  - assert (Ed : d = data j); [|by subst d].
    destruct pr as [r|]; [|by destruct Hd]. destruct Hd as (rep & Hd & _).
    apply note_port_result_keeps in Hd as [-> |(a & a' & Ea & _ & Ev & _)]; [done|].
    destruct (Hj a Ea) as (_ & _ & Er). by rewrite no_port_contract in Ev.
  - unfold adoption_refused in Hq. bool_to_prop.
    apply (software_journal_replace (data j) active job (Job.ReportSequence job)); try done.
    + by eapply recovered_id.
    + unfold Job.isV2SoftwareJob in *. bool_to_prop. congruence.
    + by apply is_err_ok.
    + by apply is_err_ok.
    + apply software_no_port; [by apply is_err_ok|done].
    + intros p Ep _. by apply Hw.
Qed.

Definition well_formed_disk (w : disk) : Prop := forall d, main w = Some d -> software_journal d.

Lemma opening_well_formed w v : well_formed_disk w -> opening w v -> well_formed_disk v.
Proof.
  intros Hw [[Em _]|(_ & _ & Em & _)]; unfold well_formed_disk; rewrite Em; [done|].
  intros d [= <-]. by apply software_journal_scrub, software_journal_loaded.
Qed.

Lemma opened_well_formed w j v :
  well_formed_disk w -> opened w j v -> well_formed_disk v /\ software_journal (data j).
Proof.
  intros Hw Ho. split; [eapply opening_well_formed; [exact Hw|apply Ho]|].
  destruct Ho as (_ & _ & [(_ & _ & ->)|(_ & _ & _ & -> & _)]); [done|].
  by apply software_journal_scrub, software_journal_loaded.
Qed.

Lemma perform_well_formed w j c :
  software_only c -> well_formed_disk w /\ software_journal (data j) -> poisoned j = None ->
  wp well_formed_disk (perform c j) (fun r v => well_formed_disk v /\ software_journal (data r.1)) w.
Proof.
  intros Hc [Hw Hj] Hp. destruct (command_cases c) as [-> | Hn].
  - assert (Hcl : software_journal (Data.cleared (data j))) by done.
    assert (Hv : forall v, clearing (data j) w v -> well_formed_disk v).
    { intros v [[Em _]|[Em _]]; unfold well_formed_disk; rewrite Em; [done|]. by intros d [= <-]. }
    apply wp_clear; [done|done|done| |].
    + intros jp e v _ [E|E] Hv'; (split; [auto|]); cbn; by rewrite E.
    + intros v Em _. split; [|done]. unfold well_formed_disk. rewrite Em. by intros d [= <-].
  - apply wp_perform; [done..|]. intros j' He. apply edit_software_journal in He; [|done..].
    assert (Hw' : well_formed_disk (w <| main := Some (data j') |>)) by (by intros d [= <-]).
    split; [done|]. split; [done|]. intros jp e v _ Hd Hv. cbn [fst]. split; [by destruct Hv as [-> | ->]|].
    by destruct Hd as [-> | ->].
Qed.

(** C25: A saved software journal loads again.  Starting from an empty state
    directory, after any sequence of agent runs that bring no port job, each cut off
    anywhere, the journal on disk passes the checks of the next opening: the plan
    and the stage failure belong to the active job and to its authority. *)
Theorem software_sessions_stay_valid w d :
  history (fun p => exists cs, Forall software_only cs /\ p = session cs) empty_disk w ->
  main w = Some d -> validateJournalData (normalize (Data.persisted d)) = Ok tt.
Proof.
  intros Hh Hd. assert (Hw : well_formed_disk w).
  { apply (history_invariant _ well_formed_disk empty_disk w) in Hh; [done| |done].
    intros p u (cs & Hcs & ->) Hu.
    apply (wp_session _ (fun v j => well_formed_disk v /\ software_journal (data j)) software_only);
      [by intros v; apply opening_well_formed|by intros j v; apply opened_well_formed|by intros ? ? []|
       intros; by apply perform_well_formed|done]. }
  pose proof (software_journal_loaded w Hw) as Hl. unfold loaded in Hl. rewrite Hd in Hl.
  by apply software_journal_valid.
Qed.
End Safety.
