(* ===== verification/JournalQueue.v ===== *)
(** The pending reports are a queue: an abstract queue of reports, and the proof that
    [Queue], [Ack] and [DropJobReports] implement it on the journal, whose reports
    are stored without their lease tokens. *)
From Stdlib Require Import Ascii String ZArith Lia.
From stdpp Require Import base decidable list strings gmap.
From S2P Require Import Prelude Strings Regexp Patterns Effects Sha256 Json PlanDigest Jobs Journal JournalRules.

Open Scope string_scope.

(** ** Lists with distinct keys *)

Section Keys.
Context {A K : Type} (key : A -> K).

Lemma NoDup_keys_inj l x y :
  NoDup (map key l) -> x ∈ l -> y ∈ l -> key x = key y -> x = y.
Proof.
  induction l as [|z l IH]; intros Hn Hx Hy E; [by apply not_elem_of_nil in Hx|].
  cbn in Hn. apply NoDup_cons in Hn as [Hz Hn]. apply elem_of_cons in Hx, Hy.
  destruct Hx as [-> |Hx], Hy as [-> |Hy]; [done|..|by apply IH]; exfalso; apply Hz, list_elem_of_fmap; eauto.
Qed.

Lemma NoDup_keys_filter (P : A -> bool) l : NoDup (map key l) -> NoDup (map key (List.filter P l)).
Proof.
  induction l as [|z l IH]; intros Hn; [done|]. cbn in *. apply NoDup_cons in Hn as [Hz Hn].
  destruct (P z); [|auto]. cbn. apply NoDup_cons. split; [|auto]. contradict Hz.
  apply list_elem_of_fmap in Hz as (y & E & Hy). apply list_elem_of_fmap. exists y. split; [done|].
  apply list_elem_of_In, filter_In in Hy as [Hy _]. by apply list_elem_of_In.
Qed.
End Keys.

Lemma lookup_delete_all {A} (key : A -> string) (l : list A) (m : gmap string string) k :
  k ∉ map key l -> foldr (fun p m => delete (key p) m) m l !! k = m !! k.
Proof.
  induction l as [|p l IH]; intros Hk; [done|]. cbn in *. apply not_elem_of_cons in Hk as [Hp Hk].
  rewrite lookup_delete_ne by done. auto.
Qed.

(** ** The keys of the lease tokens *)

Lemma colon_suffix_inj a a' s s' :
  str_forall digit s = true -> str_forall digit s' = true -> a +:+ ":" +:+ s = a' +:+ ":" +:+ s' -> a = a' /\ s = s'.
Proof.
  intros Hs Hs' E. apply (f_equal str_rev) in E. rewrite !str_rev_app in E. rewrite !str_app_assoc in E.
  change (str_rev ":") with ":" in E. cbn in E.
  apply (class_prefix_inj digit) in E as [E1 E2]; [|by rewrite str_forall_rev..|done|done].
  injection E2 as E2. apply (f_equal str_rev) in E1, E2. by rewrite !str_rev_involutive in *.
Qed.

Lemma pendingLeaseKey_inj job job' n n' :
  is_count n -> is_count n' -> pendingLeaseKey job n = pendingLeaseKey job' n' -> job = job' /\ n = n'.
Proof.
  intros Hn Hn' E. unfold pendingLeaseKey in E.
  apply colon_suffix_inj in E as [-> E]; [|by rewrite FormatInt_count by done; apply digits_digit; [apply Hn || apply Hn'|]..].
  split; [done|]. by apply (FormatInt_inj n n' "," "," "" ""); [..|by rewrite E].
Qed.

Section Queue.
Context `{UnicodeTables} `{TimeZones} `{PortPolicies}.

(** ** The abstract queue *)

Record report_queue := ReportQueue { next : Z; items : list Pending.t }.

(** The commands that work on the reports. *)
Definition reporting (c : command) : bool :=
  match c with
  | DoQueue _ _ _ _ _ _ _ _ _ _ None | DoAck _ _ | DoDropJobReports _ => true
  | _ => false
  end.

(** Append with the next number, remove the head when it is the one named, and drop
    the reports of a job; [None] refuses. *)
Definition queue_step (c : command) (q : report_queue) : option report_queue :=
  match c with
  | DoQueue job service token gen status code message progress artifact previous _ =>
      let report := Report.mk service token (next q) gen status progress code message artifact previous None in
      Some (ReportQueue (next q + 1) (items q ++ [Pending.mk job report]))
  | DoAck job n =>
      match items q with
      | p :: rest =>
          if (Pending.JobID p ==? job) && (Report.Sequence (Pending.report p) ==? n)
          then Some (ReportQueue (next q) rest) else None
      | [] => None
      end
  | DoDropJobReports job => Some (ReportQueue (next q) (List.filter (fun p => Pending.JobID p !=? job) (items q)))
  | _ => None
  end.

(** ** The journal implements it *)

(** Every pending report has its own number, below the next one. *)
Definition numbered (d : Data.t) : Prop :=
  is_u64 (Data.NextSeq d) /\ NoDup (map pending_key (Data.PendingReports d)) /\
  Forall (fun p => 0 <= Report.Sequence (Pending.report p) < Data.NextSeq d)%Z (Data.PendingReports d).

Definition represents (j : journal) (q : report_queue) : Prop :=
  next q = Data.NextSeq (data j) /\ items q = pending_view j /\ numbered (data j).

Definition with_token (tokens : gmap string string) (p : Pending.t) : Pending.t :=
  p <| Pending.report := (Pending.report p) <| Report.LeaseToken := default "" (tokens !! pending_key p) |> |>.

Lemma pending_view_alt j : pending_view j = map (with_token (leaseTokens j)) (Data.PendingReports (data j)).
Proof. done. Qed.

Lemma with_token_ext tokens tokens' l :
  (forall p, p ∈ l -> tokens !! pending_key p = tokens' !! pending_key p) ->
  map (with_token tokens) l = map (with_token tokens') l.
Proof.
  induction l as [|p l IH]; intros Hl; [done|]. cbn. f_equal.
  - unfold with_token. by rewrite Hl by left.
  - apply IH. intros q Hq. apply Hl. by right.
Qed.

Lemma filter_map_token tokens job l :
  List.filter (fun p => Pending.JobID p !=? job) (map (with_token tokens) l) =
  map (with_token tokens) (List.filter (fun p => negb (Pending.JobID p ==? job)) l).
Proof.
  induction l as [|p l IH]; [done|]. cbn.
  change (Pending.JobID (with_token tokens p)) with (Pending.JobID p).
  destruct (Pending.JobID p ==? job); cbn; [done|by rewrite IH].
Qed.

Lemma u64_is_count z : is_u64 z -> is_count z.
Proof. unfold is_u64, is_count, u64_modulus. lia. Qed.

(** The number of a new report is not in use. *)
Lemma numbered_fresh d job p :
  numbered d -> p ∈ Data.PendingReports d -> pending_key p <> pendingLeaseKey job (Data.NextSeq d).
Proof.
  intros (Hu & _ & Hf) Hp E. rewrite Forall_forall in Hf. specialize (Hf p Hp).
  apply u64_is_count in Hu. unfold pending_key in E.
  apply pendingLeaseKey_inj in E as [_ E]; [lia|unfold is_count in *; lia|done].
Qed.

(** Appending a numbered report. *)
Lemma append_simulation j job service token gen status code message progress artifact previous q :
  let d := data j in
  let report tok := Report.mk service tok (Data.NextSeq d) gen status progress code message artifact previous None in
  let j' := j <| data := d <| Data.NextSeq := u64_succ (Data.NextSeq d) |>
                    <| Data.PendingReports := (Data.PendingReports d ++ [Pending.mk job (report "")])%list |> |>
              <| leaseTokens := <[pendingLeaseKey job (Data.NextSeq d) := token]> (leaseTokens j) |> in
  represents j q -> (next q < u64_modulus - 1)%Z ->
  represents j' (ReportQueue (next q + 1) (items q ++ [Pending.mk job (report token)])).
Proof.
  intros d report j' (En & Ei & Hn) Hmax. pose proof Hn as (Hu & Hd & Hf). unfold d in *.
  assert (Es : u64_succ (Data.NextSeq (data j)) = (Data.NextSeq (data j) + 1)%Z) by (apply u64_succ_small; unfold is_u64 in Hu; lia).
  assert (Hfresh := fun p => numbered_fresh (data j) job p Hn).
  split; [by cbn; rewrite Es, En|]. split; [|split; [cbn; apply u64_succ_range|split]].
  - cbn [items]. rewrite Ei, !pending_view_alt. cbn. rewrite map_app. f_equal.
    + apply with_token_ext. intros p Hp. rewrite lookup_insert_ne; [done|]. intros E. by apply (Hfresh p Hp).
    + cbn. unfold with_token. cbn. unfold pending_key. cbn. by rewrite lookup_insert_eq.
  - cbn. rewrite map_app, NoDup_app. split_and!; [done| |apply NoDup_singleton].
    intros k Hk. apply list_elem_of_fmap in Hk as (p & -> & Hp). cbn. rewrite list_elem_of_singleton. by apply Hfresh.
  - cbn. rewrite Es, Forall_app. unfold is_u64 in Hu. split; [eapply Forall_impl; [done|]; cbn; intros; lia|].
    repeat constructor; cbn; lia.
Qed.

Lemma ack_simulation j p rest q :
  Data.PendingReports (data j) = p :: rest -> represents j q ->
  represents (j <| data := (data j) <| Data.PendingReports := rest |> |>
                <| leaseTokens := delete (pending_key p) (leaseTokens j) |>) (ReportQueue (next q) (tail (items q))).
Proof.
  intros El (En & Ei & Hu & Hd & Hf). rewrite El in Hd, Hf. cbn in Hd. apply NoDup_cons in Hd as [Hp Hd].
  apply Forall_cons in Hf as [_ Hf]. split; [done|]. split; [|done]. cbn [items]. rewrite Ei, !pending_view_alt, El.
  cbn. apply with_token_ext. intros r Hr. rewrite lookup_delete_ne; [done|]. intros E. apply Hp. rewrite E.
  by apply list_elem_of_fmap_2.
Qed.

Lemma drop_simulation j job q :
  let l := Data.PendingReports (data j) in
  represents j q ->
  represents (j <| data := (data j) <| Data.PendingReports := List.filter (fun p => negb (Pending.JobID p ==? job)) l |> |>
                <| leaseTokens := foldr (fun p m => delete (pending_key p) m) (leaseTokens j)
                     (List.filter (fun p => Pending.JobID p ==? job) l) |>)
    (ReportQueue (next q) (List.filter (fun p => Pending.JobID p !=? job) (items q))).
Proof.
  intros l (En & Ei & Hu & Hd & Hf). split; [done|]. split; [|split; [done|split]].
  - cbn [items]. rewrite Ei, !pending_view_alt, filter_map_token. cbn. apply with_token_ext. intros p Hp.
    apply list_elem_of_In, filter_In in Hp as [Hp Hk]. rewrite lookup_delete_all; [done|].
    intros Hin. apply list_elem_of_fmap in Hin as (r & E & Hr). apply list_elem_of_In, filter_In in Hr as [Hr Hk'].
    assert (p = r) by (eapply NoDup_keys_inj; [exact Hd|by apply list_elem_of_In..|done]). subst r.
    by rewrite Hk' in Hk.
  - by apply NoDup_keys_filter.
  - apply Forall_forall. intros p Hp. apply list_elem_of_In, filter_In in Hp as [Hp _].
    rewrite Forall_forall in Hf. by apply Hf, list_elem_of_In.
Qed.

Lemma queue_simulation j c j' q :
  edit j c j' -> reporting c = true -> represents j q -> (next q < u64_modulus - 1)%Z ->
  exists q', queue_step c q = Some q' /\ represents j' q'.
Proof.
  intros He Hc Hr Hmax.
  destruct He as [| | | | |? ? ? ? ? ? ? ? ? ? pr d port Hpr|job|p rest El|]; try discriminate Hc.
  - destruct pr; [discriminate Hc|]. destruct Hpr as [-> ->]. cbn [queue_step]. eexists. split; [done|].
    destruct Hr as (En & ?). rewrite En at 2. by apply append_simulation.
  - eexists. split; [done|]. by apply drop_simulation.
  - eexists. split; [|by apply ack_simulation]. cbn. destruct Hr as (_ & -> & _).
    unfold pending_view. rewrite El. cbn. by rewrite !bool_decide_true by done.
Qed.

(** ** Saving a report succeeds when the environment lets it *)

Lemma report_encodes r : Report.PortReconfigure r = None -> encodes (Report.to_json r).
Proof.
  intros E. apply encodes_obj. rewrite E. rewrite !Forall_app. split_and!; auto with go_db.
  repeat constructor; cbn; auto with go_db.
Qed.

Lemma pending_encodes job r : Report.PortReconfigure r = None -> encodes (Pending.to_json (Pending.mk job r)).
Proof.
  intros E. apply encodes_obj. repeat constructor; cbn; [by eexists|by apply report_encodes].
Qed.

Lemma data_encodes d l n :
  encodes (Data.to_json d) ->
  (Forall (fun p => encodes (Pending.to_json p)) (Data.PendingReports d) -> Forall (fun p => encodes (Pending.to_json p)) l) ->
  encodes (Data.to_json (d <| Data.NextSeq := n |> <| Data.PendingReports := l |>)).
Proof.
  unfold Data.to_json. rewrite !encodes_obj. unfold Data.to_fields. cbn. rewrite !Forall_app, !Forall_cons.
  rewrite !Forall_app, !encodes_omit_arr. intros (H3 & H4 & H5 & H6 & H7 & H8 & H9 & H10) Hl.
  split_and!; auto. cbn. auto with go_db.
Qed.

Lemma edit_encodes j c j' :
  edit j c j' -> reporting c = true -> encodes (Data.to_json (data j)) -> encodes (Data.to_json (data j')).
Proof.
  intros He Hc Hd.
  destruct He as [| | | | |? ? ? ? ? ? ? ? ? ? pr d port Hpr|job|p rest El|]; try discriminate Hc.
  - destruct pr; [discriminate Hc|]. destruct Hpr as [-> ->]. apply data_encodes; [done|]. intros Hl.
    apply Forall_app. split; [done|]. repeat constructor. by apply pending_encodes.
  - apply (data_encodes (data j) (List.filter (fun p => negb (Pending.JobID p ==? job)) (Data.PendingReports (data j)))
      (Data.NextSeq (data j))) in Hd; [done|].
    rewrite !Forall_forall. intros Hl p Hp. apply list_elem_of_In, filter_In in Hp as [Hp _].
    by apply Hl, list_elem_of_In.
  - apply (data_encodes (data j) rest (Data.NextSeq (data j))) in Hd; [done|].
    rewrite El, Forall_cons. by intros [_ ?].
Qed.

Lemma save_and_return {A} (a : A) j :
  let p := let* (j, r) := (let* (j, r) := saveLocked j in Ret (j, match r with Ok _ => Ok a | Err e => Err e end)) in
           Ret (j, match r with Ok _ => Ok tt | Err e => Err e end) in
  (forall answers w, run p answers w = run (saveLocked j) answers w) /\
  (forall w, exec Succeeds p w = exec Succeeds (saveLocked j) w).
Proof.
  intros p. unfold p, saveLocked, saveDataLocked, fail_with.
  destruct (Marshal _); cbn [bind call]; [|by destruct (poisonLocked _ _)]. split; [|done].
  intros [|[] answers] w; try done; cbn; by destruct (poisonLocked _ _).
Qed.

(** A reporting command refuses, or it saves an edit and nothing more. *)
Lemma reporting_cases j c q :
  reporting c = true -> poisoned j = None -> represents j q ->
  (queue_step c q = None /\ exists e, perform c j = Ret (j, Err e)) \/
  (exists j', edit j c j' /\ poisoned j' = None /\
     (forall answers w, run (perform c j) answers w = run (saveLocked j') answers w) /\
     (forall w, exec Succeeds (perform c j) w = exec Succeeds (saveLocked j') w)).
Proof.
  intros Hc Hp (En & Ei & _). destruct c as [| | | | |? ? ? ? ? ? ? ? ? ? [pr|]|job|job n| |]; try discriminate Hc;
    cbn [perform]; unfold queue, DropJobReports, Ack, mutable; rewrite Hp.
  - right. eexists. split; [by apply (edit_queue _ _ _ _ _ _ _ _ _ _ _ None (data j) None)|]. split; [done|].
    apply save_and_return.
  - right. eexists. split; [apply edit_drop|]. done.
  - unfold pending_view in Ei. cbn [queue_step]. rewrite Ei.
    destruct (Data.PendingReports (data j)) as [|p rest] eqn:El; [left; split; [done|by eexists]|]. cbn.
    destruct (decide (Pending.JobID p = job)) as [<-|Hj]; [|left; rewrite (bool_decide_false _ Hj); split; [done|by eexists]].
    destruct (decide (Report.Sequence (Pending.report p) = n)) as [<-|Hn];
      [|left; rewrite (bool_decide_false _ Hn), andb_false_r; split; [done|by eexists; cbn; rewrite orb_true_r]].
    right. rewrite !bool_decide_true by done. eexists. split; [by apply edit_ack|]. done.
Qed.

Lemma save_outcome j answers w w' j' r :
  poisoned j = None -> run (saveLocked j) answers w = (w', Some (j', r)) ->
  match r with Ok _ => j' = j | Err _ => poisoned j' <> None end.
Proof.
  intros Hp E.
  assert (Hw : wp (fun _ => True) (saveLocked j)
    (fun r _ => match r.2 with Ok _ => r.1 = j | Err _ => poisoned r.1 <> None end) w) by (by apply wp_saveLocked).
  apply (wp_sound _ _ _ answers) in Hw as [_ Hw]. rewrite E in Hw. by apply (Hw (j', r)).
Qed.

Lemma save_succeeds j w :
  encodes (Data.to_json (data j)) ->
  exec Succeeds (saveLocked j) w = Some (w <| main := Some (data j) |>, (j, Ok tt)).
Proof. intros [s E]. unfold saveLocked, saveDataLocked. by rewrite E. Qed.

(** C26: The pending reports refine a queue.  While every pending report has its own
    number and the numbers do not run out, [Queue], [Ack] and [DropJobReports] on the
    journal act on the reports that [Pending] shows, lease tokens included, as append,
    removal of the named head and filter act on a queue.  An error means that the
    queue refuses too and nothing changed, or that the journal is poisoned; in an
    environment where no operation fails, the journal accepts what the queue accepts. *)
Theorem reports_refine_queue j c q :
  reporting c = true -> poisoned j = None -> represents j q -> (next q < u64_modulus - 1)%Z ->
  (forall answers w w' j' r, run (perform c j) answers w = (w', Some (j', r)) ->
     match r with
     | Ok _ => exists q', queue_step c q = Some q' /\ represents j' q'
     | Err _ => poisoned j' <> None \/ (queue_step c q = None /\ j' = j)
     end) /\
  (encodes (Data.to_json (data j)) -> forall w, exists w' j' r,
     exec Succeeds (perform c j) w = Some (w', (j', r)) /\ is_ok r = Job.present (queue_step c q) /\
     encodes (Data.to_json (data j'))).
Proof.
  intros Hc Hp Hr Hmax. destruct (reporting_cases j c q Hc Hp Hr) as [(Es & e & ->)|(j1 & He & Hp1 & Er & Ex)].
  - rewrite Es. split; [|by intros ? w; exists w, j, (Err e)]. cbn. intros answers w w' j' r [= <- <- <-]. by right.
  - destruct (queue_simulation j c j1 q He Hc Hr Hmax) as (q' & Eq & Hq'). rewrite Eq. split.
    + intros answers w w' j' r E. rewrite Er in E. apply save_outcome in E; [|done].
      destruct r; [subst j'; by exists q'|by left].
    + intros Henc w. pose proof (edit_encodes j c j1 He Hc Henc) as Henc1. rewrite Ex, save_succeeds by done.
      by eexists _, j1, (Ok tt).
Qed.
End Queue.
