(* ===== verification/JournalClear.v ===== *)
(** Interrupting [ClearActive]: the next opening recovers from every crash point, as
    long as no stage failure is recorded; with a stage failure the fence is never
    accepted again. *)
From Stdlib Require Import Ascii String ZArith Lia.
From stdpp Require Import base decidable list strings gmap.
From S2P Require Import Prelude Strings Regexp Patterns Effects Sha256 Json PlanDigest Jobs Journal JournalRules JournalSafety.

Open Scope string_scope.

Section Clearing.
Context `{UnicodeTables} `{TimeZones} `{PortPolicies}.

(** ** Decoding does not change what is checked and digested *)

Lemma to_json_persisted d : Data.to_json (Data.persisted d) = Data.to_json d.
Proof. unfold Data.to_json, Data.to_fields. destruct d as [[[]|] ? ? ? ? ? ? ?]; done. Qed.

Lemma journalDataSHA256_persisted d : journalDataSHA256 (Data.persisted d) = journalDataSHA256 d.
Proof. unfold journalDataSHA256. by rewrite to_json_persisted. Qed.

Lemma validateJournalData_persisted d : validateJournalData (Data.persisted d) = validateJournalData d.
Proof.
  destruct d as [job ? ? policy ? ? ? ?]. unfold validateJournalData. cbn.
  destruct policy as [p|]; [rewrite PortPolicy_validate_persisted|]; by destruct job as [[]|].
Qed.

Lemma marker_json_persisted m : Marker.to_json (Marker.persisted m) = Marker.to_json m.
Proof. unfold Marker.to_json. cbn. by rewrite to_json_persisted. Qed.

Lemma validateActiveClearMarker_persisted m :
  validateActiveClearMarker m = Ok tt -> validateActiveClearMarker (Marker.persisted m) = Ok tt.
Proof.
  destruct m as [version digest d]. unfold validateActiveClearMarker. cbn [Marker.persisted set_field Marker.Previous].
  rewrite validateJournalData_persisted, journalDataSHA256_persisted.
  destruct d as [[[]|] ? ? ? ? ? ? ?]; [|done].
  cbn -[validateJournalData journalDataSHA256 has_report_credential exceeds re_match].
  intros Hm. destruct (_ || _); [done|]. destruct (validateJournalData _) as [[]|]; [|done]. cbn [bind_res] in *.
  destruct (exceeds _ _) eqn:E in Hm; [done|].
  match type of E with exceeds ?a ?b = _ => match goal with |- context [exceeds ?c ?d] =>
    change (exceeds c d) with (exceeds a b); rewrite E end end.
  destruct (_ || _) eqn:Et in Hm; [done|]. bool_to_prop. subst.
  destruct (has_report_credential _) eqn:Er in Hm; [done|].
  match type of Er with has_report_credential ?a = _ => match goal with |- context [has_report_credential ?c] =>
    change (has_report_credential c) with (has_report_credential a); rewrite Er end end.
  done.
Qed.

(** ** Opening when no operation fails *)

(** The end of [OpenJournal], after the fence was reconciled. *)
Definition finish (d : Data.t) : prog op (result string journal) :=
  let? _ := lift (if retains_pending d then validateJournalSoftwarePendingForRestart d else Ok tt) in
  let (d, scrubbed) := scrub d in
  let j := Journal d ∅ None in
  if scrubbed then
    let* (j, r) := saveLocked j in
    Ret (match r with Ok _ => Ok j | Err e => Err e end)
  else Ret (Ok j).

Lemma exec_bind_ok {A B} (p : prog op (result string A)) (f : A -> prog op (result string B)) w v r :
  exec Succeeds p w = Some (v, r) ->
  exec Succeeds (bind_ok p f) w = match r with Ok a => exec Succeeds (f a) v | Err e => Some (v, Err e) end.
Proof.
  revert w. induction p as [a|X o k IH]; intros w E; cbn in *; [injection E as -> ->; by destruct r|].
  destruct (handle o Succeeds w) as [[x w']|]; [|done]. by rewrite <- (IH x w' E).
Qed.

Lemma exec_reconcile_none d w :
  marker w = None -> exec Succeeds (reconcileActiveClearMarkerLocked d true) w = Some (w <| temp := false |>, Ok tt).
Proof. intros E. cbn. by rewrite E. Qed.

Lemma exec_load d w m :
  marker w = Some m -> fence d m ->
  exec Succeeds loadActiveClearMarkerLocked w = Some (w, Ok (Some (Marker.persisted m))).
Proof.
  intros E (digest & Ed & Em & Hv & Hx). apply validateActiveClearMarker_persisted in Hv.
  unfold loadActiveClearMarkerLocked.
  rewrite (exec_bind_ok _ _ w w (Ok (Some (Marker.persisted m)))) by (cbn; by rewrite E). cbn beta iota.
  rewrite marker_json_persisted. change (activeClearMarkerSizeLimit (Marker.persisted m)) with (activeClearMarkerSizeLimit m).
  rewrite Hx. rewrite (exec_bind_ok _ _ w w (Ok tt)) by (cbn; by rewrite Hv). done.
Qed.

Lemma exec_reconcile_fence d0 d w m :
  marker w = Some m -> fence d m -> is_Some (journalDataSHA256 d0) ->
  is_Some (journalDataSHA256 (fence_cleared (Data.persisted d))) -> reconcilable d0 m ->
  exec Succeeds (reconcileActiveClearMarkerLocked d0 true) w = Some (w <| temp := false |> <| marker := None |>, Ok tt).
Proof.
  intros E Hf [s Es] [c Ec] Hr. pose proof Hf as (digest & Ed & Em & _).
  unfold reconcileActiveClearMarkerLocked.
  set (w1 := w <| temp := false |>). assert (E1 : marker w1 = Some m) by done.
  rewrite (exec_bind_ok _ _ w w1 (Ok tt)) by done. cbn beta iota.
  rewrite (exec_bind_ok _ _ _ _ _ (exec_load d w1 m E1 Hf)). cbn beta iota. cbn [negb].
  assert (Hp : Marker.Previous (Marker.persisted m) = Data.persisted d) by (by rewrite Em).
  unfold reconcilable in Hr. rewrite Hp in Hr |- *. rewrite Es, Ec in Hr |- *.
  assert (Eb : (s !=? Marker.PreviousSHA256 (Marker.persisted m)) && (s !=? c) = false).
  { apply andb_false_iff. rewrite !negb_false_iff, !bool_decide_eq_true. by destruct Hr as [[= ->]|[= ->]]; [left|right]. }
  rewrite Eb. cbn. by rewrite E.
Qed.

Lemma exec_open w v d0 :
  main w = Some d0 -> validateJournalData (loaded w) = Ok tt ->
  exec Succeeds (reconcileActiveClearMarkerLocked (loaded w) true) w = Some (v, Ok tt) ->
  exec Succeeds OpenJournal w = exec Succeeds (finish (loaded w)) v.
Proof.
  intros Em Hv Hr. assert (El : loaded w = normalize (Data.persisted d0)) by (unfold loaded; by rewrite Em).
  unfold OpenJournal. rewrite (exec_bind_ok _ _ w w (Ok (Some (Data.persisted d0)))) by (cbn; by rewrite Em).
  cbn beta iota zeta. rewrite <- El. rewrite (exec_bind_ok _ _ w w (Ok tt)) by (cbn; by rewrite Hv). cbn beta iota.
  by rewrite (exec_bind_ok _ _ _ _ _ Hr).
Qed.

Lemma exec_open_valid w w0 j0 d0 :
  main w = Some d0 -> exec Succeeds OpenJournal w = Some (w0, Ok j0) -> validateJournalData (loaded w) = Ok tt.
Proof.
  intros Em E. assert (El : loaded w = normalize (Data.persisted d0)) by (unfold loaded; by rewrite Em).
  unfold OpenJournal in E. rewrite (exec_bind_ok _ _ w w (Ok (Some (Data.persisted d0)))) in E by (cbn; by rewrite Em).
  cbn beta iota zeta in E. rewrite <- El in E.
  rewrite (exec_bind_ok _ _ w w (validateJournalData (loaded w))) in E by done.
  by destruct (validateJournalData (loaded w)) as [[]|].
Qed.

(** ** Crash safety without a stage failure *)

Lemma run_clearing j w answers :
  poisoned j = None -> clearing (data j) w (run (ClearActive j) answers w).1.
Proof.
  intros Hp. apply (wp_sound (clearing (data j) w) _ (fun _ _ => True)). by apply wp_clear.
Qed.

Lemma deployed_encodes d l : Forall (fun f => encodes f.2) (omit_map d l).
Proof.
  unfold omit_map. destruct (decide _); [done|]. rewrite Forall_singleton. apply encodes_obj, Forall_map.
  apply Forall_true. intros [k v]. cbn. auto with go_db.
Qed.

(** A journal without active work and without reports can always be saved. *)
Lemma idle_encodes d : encodes (Data.to_json (Data.cleared d <| Data.PendingReports := [] |>)).
Proof.
  apply encodes_obj. unfold Data.to_fields. cbn. constructor; [cbn; auto with go_db|]. apply deployed_encodes.
Qed.

Lemma digest_encodes d : is_Some (journalDataSHA256 d) <-> encodes (Data.to_json d).
Proof. unfold journalDataSHA256, encodes. by destruct (Marshal (Data.to_json d)); split; intros [? [=]]; eexists. Qed.

Lemma fence_cleared_encodes d :
  encodes (Data.to_json d) -> is_Some (journalDataSHA256 (fence_cleared (Data.persisted d))).
Proof.
  rewrite digest_encodes. unfold Data.to_json. rewrite !encodes_obj. unfold Data.to_fields. cbn.
  rewrite !Forall_app. tauto.
Qed.

Lemma fence_encodes d m : fence d m -> encodes (Data.to_json d).
Proof. intros (digest & Ed & _). apply digest_encodes. by rewrite Ed. Qed.

(** The fence goes with the journal before and after the clear. *)
Lemma fence_before d m : fence d m -> reconcilable (Data.persisted d) m.
Proof. intros (digest & Ed & -> & _). left. by rewrite journalDataSHA256_persisted, Ed. Qed.

Lemma fence_after d m :
  fence d m -> Data.ActiveStageFailure d = None -> reconcilable (Data.cleared d) m.
Proof. intros (digest & Ed & -> & _) Hs. right. cbn. unfold Data.cleared, fence_cleared. cbn. by rewrite Hs. Qed.

Lemma finish_cleared d w :
  exec Succeeds (finish (Data.cleared d)) w =
  Some (match Data.PendingReports d with [] => w | _ => w <| main := Some (Data.cleared d <| Data.PendingReports := [] |>) |> end,
        Ok (Journal (Data.cleared d <| Data.PendingReports := [] |>) ∅ None)).
Proof.
  unfold finish, retains_pending, scrub. destruct d as [? ? ? ? ? ? [|p l] ?]; [done|]. cbn [Data.PendingReports Data.cleared].
  cbn -[Data.to_json]. unfold saveLocked, saveDataLocked.
  match goal with |- context [Marshal (Data.to_json ?x)] =>
    assert (Hx : encodes (Data.to_json x)) by exact (idle_encodes x); destruct Hx as [s Es] end.
  cbn -[Data.to_json] in Es |- *. by rewrite Es.
Qed.

Lemma normalize_id d : Data.NextSeq d <> 0%Z -> normalize d = d.
Proof. unfold normalize. by destruct (Z.eqb_spec (Data.NextSeq d) 0). Qed.

Lemma reopen_before w w0 j0 v j :
  main w <> None -> marker w = None -> loaded w = Data.persisted (data j) ->
  exec Succeeds OpenJournal w = Some (w0, Ok j0) -> fencing (data j) w v ->
  exec Succeeds OpenJournal v = Some (w0, Ok j0).
Proof.
  intros Hm Hk Hl E [Em Ek]. destruct (main w) as [d0|] eqn:Ew; [|done].
  pose proof (exec_open_valid w w0 j0 d0 Ew E) as Hv.
  rewrite (exec_open _ _ d0 Ew Hv (exec_reconcile_none _ w Hk)) in E. rewrite <- E.
  assert (Hlv : loaded v = loaded w) by (unfold loaded; by rewrite Em, Ew).
  assert (Hw : w <| temp := false |> = Disk (Some d0) None false) by (cbn; by rewrite Ew, Hk).
  rewrite <- Hlv, Hw in *. destruct Ek as [Ek|(m & Hf & Ek)].
  - rewrite (exec_open v (Disk (Some d0) None false) d0); [done|done|done|].
    rewrite exec_reconcile_none by congruence. cbn. by rewrite Em, Ek, Hk.
  - rewrite (exec_open v (Disk (Some d0) None false) d0); [done|done|done|]. pose proof (fence_encodes _ _ Hf) as He.
    rewrite (exec_reconcile_fence _ (data j) v m Ek Hf).
    + cbn. by rewrite Em.
    + rewrite Hl, journalDataSHA256_persisted. destruct Hf as (? & -> & _). by eexists.
    + by apply fence_cleared_encodes.
    + rewrite Hl. by apply fence_before.
Qed.

Lemma reopen_after v j :
  Data.NextSeq (data j) <> 0%Z -> Data.ActiveStageFailure (data j) = None ->
  main v = Some (Data.cleared (data j)) -> (marker v = None \/ exists m, fence (data j) m /\ marker v = Some m) ->
  exists w', exec Succeeds OpenJournal v =
    Some (w', Ok (Journal (Data.cleared (data j) <| Data.PendingReports := [] |>) ∅ None)) /\ marker w' = None.
Proof.
  intros Hn Hs Em Hk.
  assert (El : loaded v = Data.cleared (data j)) by (unfold loaded; rewrite Em; by apply (normalize_id (Data.cleared (data j)))).
  assert (Hr : exists u, exec Succeeds (reconcileActiveClearMarkerLocked (loaded v) true) v = Some (u, Ok tt) /\ marker u = None).
  { destruct Hk as [Hk|(m & Hf & Hk)]; [rewrite exec_reconcile_none by done; by eexists|].
    pose proof (fence_encodes _ _ Hf) as He. pose proof (fence_cleared_encodes _ He) as Hc.
    rewrite El, (exec_reconcile_fence _ (data j) v m Hk Hf); [by eexists| |done|by apply fence_after].
    unfold Data.cleared, fence_cleared, Data.persisted in *. cbn in *. by rewrite Hs in Hc. }
  destruct Hr as (u & Hr & Hu). rewrite (exec_open v u _ Em); [|by rewrite El|done]. rewrite El, finish_cleared.
  eexists. split; [done|]. by destruct (Data.PendingReports (data j)).
Qed.

(** C23: Clearing the active job survives a crash.  If the journal could be opened
    before, no stage failure is recorded and the report counter has not wrapped, then
    after [ClearActive] was cut off or failed at any point, opening the journal
    succeeds when no further operation fails: it finds the state before the clear, or
    the cleared one, and the fence is gone. *)
Theorem clear_active_crash_safe w j w0 j0 answers :
  process w j -> poisoned j = None -> Data.ActiveStageFailure (data j) = None -> Data.NextSeq (data j) <> 0%Z ->
  exec Succeeds OpenJournal w = Some (w0, Ok j0) ->
  exists w' j', exec Succeeds OpenJournal (run (ClearActive j) answers w).1 = Some (w', Ok j') /\ marker w' = None /\
    (data j' = data j0 \/ data j' = Data.cleared (data j) <| Data.PendingReports := [] |>).
Proof.
  intros Hj Hp Hs Hn E. destruct (process_durable w j Hj Hp) as [Hk Hl].
  rewrite (normalize_id (Data.persisted (data j))) in Hl by done.
  assert (Hw0 : marker w0 = None).
  { destruct (exec_run Succeeds _ _ _ _ E) as [n Hr]. specialize (Hr n (Nat.le_refl n)).
    assert (Hw : wp (fun _ => True) OpenJournal (fun r v => match r with Ok _ => marker v = None | Err _ => True end) w)
      by (apply wp_open; [done|done|by intros ? ? (_ & ? & _)]).
    apply (wp_sound _ _ _ (repeat Succeeds n)) in Hw as [_ Hw]. rewrite Hr in Hw. by apply (Hw (Ok j0)). }
  destruct (Data.ActiveJob (data j)) as [job|] eqn:Ej.
  - assert (Hm : main w <> None) by (intros Em; unfold loaded in Hl; rewrite Em in Hl;
      apply (f_equal Data.ActiveJob) in Hl; cbn in Hl; by rewrite Ej in Hl).
    destruct (run_clearing j w answers Hp) as [Hv|[Em Hv]].
    + exists w0, j0. split; [by eapply reopen_before|auto].
    + destruct (reopen_after _ j Hn Hs Em) as (w' & E' & Hk'); [destruct Hv as [?|[[_ ?]|?]]; [auto|done|auto]|].
      by eexists w', _; split; [exact E'|]; split; [|right].
  - assert (Er : ClearActive j = Ret (j, Ok tt)) by (unfold ClearActive, mutable; by rewrite Hp, Ej).
    rewrite Er. cbn. exists w0, j0. auto.
Qed.

(** ** With a stage failure *)

(** SHA-256 does not collide on the encodings of these journals. *)
Definition no_collision (ds : list Data.t) : Prop := forall d d', d ∈ ds -> d' ∈ ds ->
  journalDataSHA256 d = journalDataSHA256 d' -> Marshal (Data.to_json d) = Marshal (Data.to_json d').

Lemma first_keys_differ k v l k' v' l' s :
  Marshal (JObj ((k, v) :: l)) = Some s -> Marshal (JObj ((k', v') :: l')) = Some s ->
  exists r r', encode_string k +:+ ":" +:+ r = encode_string k' +:+ ":" +:+ r'.
Proof.
  intros E E'. apply Marshal_first_key in E as (r & ->), E' as (r' & E'). exists r, r'.
  injection E' as E'. exact (f_equal (String dquote) E').
Qed.

(** What the three journals start with. *)
Lemma idle_first_key d :
  exists v l, Data.to_json (normalize (Data.cleared d)) = JObj (("next_sequence", v) :: l).
Proof. unfold normalize. destruct (_ =? _)%Z; by eexists _, _. Qed.

Lemma active_first_key d job :
  Data.ActiveJob d = Some job -> exists v l, Data.to_json d = JObj (("active_job", v) :: l).
Proof. intros E. unfold Data.to_json, Data.to_fields. rewrite E. by eexists _, _. Qed.

Lemma failure_first_key d f :
  Data.ActiveStageFailure d = Some f ->
  exists v l, Data.to_json (fence_cleared (Data.persisted d)) = JObj (("active_stage_failure", v) :: l).
Proof. intros E. unfold Data.to_json, Data.to_fields. cbn. rewrite E. by eexists _, _. Qed.

Lemma not_reconcilable d m f :
  fence d m -> Data.ActiveStageFailure d = Some f ->
  no_collision [d; fence_cleared (Data.persisted d); normalize (Data.cleared d)] ->
  ~ reconcilable (normalize (Data.cleared d)) m.
Proof.
  intros Hf Hs Hc Hr. pose proof (fence_encodes d m Hf) as [t Et].
  assert (Ht : is_Some (Data.ActiveJob d)).
  { destruct Hf as (? & _ & -> & Hv & _). unfold validateActiveClearMarker in Hv. cbn in Hv.
    by destruct (Data.ActiveJob d); [eexists|]. }
  destruct Ht as [job Ej], (idle_first_key d) as (v1 & l1 & E1), (active_first_key d job Ej) as (v2 & l2 & E2),
    (failure_first_key d f Hs) as (v3 & l3 & E3).
  destruct Hf as (digest & Ed & -> & _). unfold reconcilable in Hr.
  cbn [Marker.persisted set_field Marker.Previous Marker.PreviousSHA256] in Hr.
  assert (Hn : forall d', d' ∈ [d; fence_cleared (Data.persisted d)] -> journalDataSHA256 (normalize (Data.cleared d)) =
    journalDataSHA256 d' -> is_Some (Marshal (Data.to_json d')) -> exists s,
    Marshal (Data.to_json (normalize (Data.cleared d))) = Some s /\ Marshal (Data.to_json d') = Some s).
  { intros d' Hd' Eq [s Es]. exists s. split; [|done]. rewrite <- Es. apply Hc; [..|done]; rewrite !elem_of_cons in *; tauto. }
  rewrite <- Ed in Hr. destruct Hr as [Hr|Hr].
  - destruct (Hn d) as (s & H3 & H4); [by left|done|by eexists|]. rewrite E1 in H3. rewrite E2 in H4.
    by destruct (first_keys_differ _ _ _ _ _ _ _ H3 H4) as (r & r' & [=]).
  - destruct (Hn (fence_cleared (Data.persisted d))) as (s & H3 & H4); [by right; left|done| |].
    { apply digest_encodes, fence_cleared_encodes. by eexists. }
    rewrite E1 in H3. rewrite E3 in H4. by destruct (first_keys_differ _ _ _ _ _ _ _ H3 H4) as (r & r' & [=]).
Qed.

(** C24: A crash between the two writes of [ClearActive] is fatal once a stage failure
    is recorded.  When the cleared journal is on disk together with the fence of a
    state that has a stage failure, no later run of the agent ever opens the journal
    again or changes it: [reconcileActiveClearMarkerLocked] compares with a cleared
    state that keeps the stage failure, which [ClearActive] does not write.  (The
    digests of the three encodings involved must not collide.) *)
Theorem stage_failure_fence_is_permanent w v d m f :
  main w = Some (Data.cleared d) -> marker w = Some m -> fence d m -> Data.ActiveStageFailure d = Some f ->
  no_collision [d; fence_cleared (Data.persisted d); normalize (Data.cleared d)] ->
  history (fun p => exists cs, p = session cs) w v ->
  main v = main w /\ marker v = marker w /\ forall answers j, (run OpenJournal answers v).2 <> Some (Ok j).
Proof.
  intros Em Ek Hf Hs Hc Hh. pose proof (not_reconcilable d m f Hf Hs Hc) as Hn.
  set (I := fun u : disk => main u = main w /\ marker u = marker w).
  assert (Ho : forall u u', I u -> opening u u' -> I u').
  { intros u u' [Em' Ek'] Hu. assert (El : loaded u = normalize (Data.cleared d)) by (unfold loaded; by rewrite Em', Em).
    unfold I. destruct Hu as [[Hm Hk]|(_ & _ & _ & _ & Hk)]; rewrite El, Ek', Ek in Hk;
      [destruct Hk as [Hk|(_ & ? & [= <-] & Hk)]|destruct Hk as [Hk|(? & [= <-] & Hk)]]; try done.
    split; congruence. }
  assert (Hv : I v).
  { apply (history_invariant _ I w v) in Hh; [done| |done]. intros p u (cs & ->) Hu.
    apply (wp_session I (fun _ _ => False) (fun _ => True)); try done; [by intros u'; apply Ho| |by apply Forall_true].
    intros j u' (Hop & Hk & _). apply (Ho u u' Hu) in Hop as [_ Hop]. rewrite Hk, Ek in Hop. done. }
  split; [apply Hv|]. split; [apply Hv|]. intros answers j E.
  assert (Hw : wp I OpenJournal (fun r _ => forall j, r <> Ok j) v).
  { apply wp_open; [by intros u'; apply Ho|done|]. intros j' u' (Hop & Hk & _).
    apply (Ho v u' Hv) in Hop as [_ Hop]. rewrite Hk, Ek in Hop. done. }
  by apply (wp_sound _ _ _ answers) in Hw as [_ Hw]; apply (Hw _ E j).
Qed.
End Clearing.
