(* ===== verification/JournalDemo.v ===== *)
(** A concrete agent: it takes a software job, reports on it, records a stage failure
    and clears the job, with and without a crash.  The properties of the journal are
    evaluated on it. *)
From Stdlib Require Import Ascii String ZArith Lia.
From stdpp Require Import base decidable list strings gmap.
From S2P Require Import Prelude Strings Regexp Patterns Effects Sha256 Json PlanDigest Jobs Journal JournalRules JournalSafety JournalQueue JournalClear.

Open Scope string_scope.

Module DemoJournal.
Import DemoPlan.

(** A host without port work. *)
#[global] Instance no_ports : PortContracts := {|
  PortBinding := Empty_set; PortResult := Empty_set; PortPlan := Empty_set; PortPolicy := Empty_set;
  PortReport := Empty_set; ExecutorPortResult := Empty_set;
  binding_json := Empty_set_rect _; result_json := Empty_set_rect _; plan_json := Empty_set_rect _;
  policy_json := Empty_set_rect _; report_json := Empty_set_rect _; PortContractVersion := Empty_set_rect _;
  validatePortJobContract := Empty_set_rect _; samePortMutationGrantBinding := fun _ _ => true;
  IsAcceptedPortResult := Empty_set_rect _; IsRollbackFailed := Empty_set_rect _;
  ValidatePortResult := Empty_set_rect _; EqualPortResults := Empty_set_rect _;
  PortPlan_JobID := Empty_set_rect _; PortPlan_Validate := Empty_set_rect _; ResultOnly := Empty_set_rect _;
  FullReport := Empty_set_rect _; Result_ContractVersion := Empty_set_rect _; Result_PortResult := Empty_set_rect _;
  Result_Status := Empty_set_rect _; Result_RecoveryRequired := Empty_set_rect _; Result_Validate := Empty_set_rect _;
|}.

#[global] Program Instance no_policies : PortPolicies := {| PortPolicy_validate := Empty_set_rect _ |}.
Next Obligation. by intros []. Qed.

Definition digest : string := "sha256:" +:+ hex64.
Definition binding : SoftwareBinding.t := SoftwareBinding.mk 3 "" digest 2 4 5 digest.
Definition job : Job.t :=
  Job.mk 2 "command-1" "job-1" "software_update" None None None "updater-1" "host-1" "pull_v2" 1 4 (Some binding) false
    "worker-1" "" "worker" "systemd" "v1.0.0" "v1.1.0" "" "lease-secret" "" "2024-02-29T12:34:56Z" "claimed" 0 "" "" ""
    "" 0 1 7 false false.
Definition failure : StageFailure.t :=
  StageFailure.mk "job-1" StageFailure.SmokeExecution StageFailure.MessageSmokeExecution.
Definition report_installing : command :=
  DoQueue "job-1" "updater-1" "lease-secret" 7 "installing" "" "" 40 "" "" None.

(** The agent after it opened an empty state directory and performed commands. *)
Definition fresh_agent : disk * journal := (empty_disk, Journal Data.initial ∅ None).
Definition after (s : disk * journal) (c : command) : disk * journal :=
  match run (perform c s.2) (repeat Succeeds 20) s.1 with
  | (w, Some (j, _)) => (w, j)
  | (w, None) => (w, s.2)
  end.

Definition claimed : disk * journal := Eval vm_compute in after fresh_agent (DoSetActive (Some job)).
Definition reporting_agent : disk * journal := Eval vm_compute in after claimed report_installing.
Definition failed_agent : disk * journal := Eval vm_compute in after claimed (DoSetActiveStageFailure failure).

(** [ClearActive] cut off after the cleared journal was written. *)
Definition crashed : disk := (run (perform DoClearActive failed_agent.2) (repeat Succeeds 6) failed_agent.1).1.
Definition the_fence : Marker.t := Eval vm_compute in
  match marker crashed with Some m => m | None => Marker.mk 0 "" Data.initial end.

Lemma fresh_process : process fresh_agent.1 fresh_agent.2.
Proof. apply (process_open empty_disk (repeat Succeeds 20)). vm_compute. reflexivity. Qed.

Lemma claimed_process : process claimed.1 claimed.2.
Proof.
  apply (process_step fresh_agent.1 fresh_agent.2 (DoSetActive (Some job)) (repeat Succeeds 20) _ _ (Ok tt) fresh_process).
  vm_compute. reflexivity.
Qed.

Lemma reporting_process : process reporting_agent.1 reporting_agent.2.
Proof.
  apply (process_step claimed.1 claimed.2 report_installing (repeat Succeeds 20) _ _ (Ok tt) claimed_process).
  vm_compute. reflexivity.
Qed.
End DemoJournal.
Import DemoJournal.

(** The job's lease token was taken off, also when the write of the next report is
    cut off. *)
Lemma journal_no_credentials_witness :
  no_credentials (run (perform report_installing claimed.2) [FailsAfter] claimed.1).1.
Proof. apply (journal_no_credentials claimed.1 claimed.2 report_installing [FailsAfter]), claimed_process. Defined.

(** A report whose write failed poisons the journal. *)
Lemma journal_durable_or_poisoned_witness :
  exists j e, run (perform report_installing claimed.2) [FailsBefore] claimed.1 = (claimed.1, Some (j, Err e)) /\
    (j = claimed.2 /\ claimed.1 = claimed.1 \/ exists e, poisoned j = Some e /\
       forall c answers v, run (perform c j) answers v = (v, Some (j, Err e))).
Proof.
  eexists _, _. split; [vm_compute; reflexivity|].
  refine (journal_durable_or_poisoned claimed.1 claimed.2 report_installing [FailsBefore] claimed.1 _ (Err _)
    claimed_process _). vm_compute. reflexivity.
Defined.

(** Cut off between the two writes, then opened again. *)
Lemma clear_active_crash_safe_witness :
  exists w' j', exec Succeeds OpenJournal (run (ClearActive claimed.2) (repeat Succeeds 6) claimed.1).1 = Some (w', Ok j') /\
    marker w' = None /\ (data j' = Data.persisted (data claimed.2) \/ data j' = Data.cleared (data claimed.2) <| Data.PendingReports := [] |>).
Proof.
  refine (clear_active_crash_safe claimed.1 claimed.2 _ (Journal (Data.persisted (data claimed.2)) ∅ None) (repeat Succeeds 6)
    claimed_process eq_refl eq_refl _ _); [vm_compute; discriminate|vm_compute; reflexivity].
Defined.

(** The same crash with a stage failure: the agent cannot start again. *)
Lemma stage_failure_fence_is_permanent_witness :
  marker crashed = Some the_fence /\ ~ exists j, (run OpenJournal (repeat Succeeds 20) crashed).2 = Some (Ok j).
Proof.
  split; [vm_compute; reflexivity|]. intros [j E]. revert E.
  apply (stage_failure_fence_is_permanent crashed crashed (data failed_agent.2) the_fence failure).
  - vm_compute. reflexivity.
  - vm_compute. reflexivity.
  - exists (Marker.PreviousSHA256 the_fence). split_and!; vm_compute; reflexivity.
  - reflexivity.
  - intros d d' Hd Hd'. rewrite !elem_of_cons, elem_of_nil in Hd, Hd'.
    destruct Hd as [-> |[-> |[-> |[]]]], Hd' as [-> |[-> |[-> |[]]]]; vm_compute; congruence.
  - apply history_refl.
Defined.

(** A session that is cut off while it clears the job it failed to stage. *)
Lemma software_sessions_stay_valid_witness :
  let w := (run (session [DoSetActive (Some job); DoSetActiveStageFailure failure; DoClearActive])
              (repeat Succeeds 7) empty_disk).1 in
  main w <> None /\ forall d, main w = Some d -> validateJournalData (normalize (Data.persisted d)) = Ok tt.
Proof.
  intros w. split; [vm_compute; discriminate|]. intros d Hd. apply (software_sessions_stay_valid w d); [|exact Hd].
  apply history_run; [apply history_refl|]. eexists. split; [|reflexivity]. by repeat constructor.
Defined.

(** The first report of the job, queued on a journal without reports. *)
Lemma reports_refine_queue_witness :
  let q := ReportQueue 1 [] in
  represents claimed.2 q /\
  exists w' j' r, exec Succeeds (perform report_installing claimed.2) claimed.1 = Some (w', (j', r)) /\
    is_ok r = true /\ encodes (Data.to_json (data j')).
Proof.
  intros q. assert (Hr : represents claimed.2 q).
  { split; [reflexivity|]. split; [reflexivity|]. split; [vm_compute; split; congruence|]. split; constructor. }
  split; [exact Hr|].
  refine (proj2 (reports_refine_queue claimed.2 report_installing q eq_refl eq_refl Hr _) _ claimed.1);
    [reflexivity|]. eexists. vm_compute. reflexivity.
Defined.
