(* ===== verification/TokenRotation.v ===== *)
(** The data of runtime-token rotation ([runtime_token_rotation_protocol.go],
    [runtime_token_rotation_binding.go], [runtime_token_rotation_identity.go]): the
    Panel's rotation directive, the executor's requests, the secret-free durable
    status with its phases, and the host agent's identity file. *)
From Stdlib Require Import Ascii String ZArith Lia.
From stdpp Require Import base decidable list strings.
From S2P Require Import Prelude Strings Regexp Patterns Sha256 Json SelfUpdateGrant.

Open Scope string_scope.

(** ** Phases *)

Definition PhaseClaimPrepared : string := "claim_prepared".
Definition PhaseStageBound : string := "stage_bound".
Definition PhaseStaged : string := "staged".
Definition PhaseLocalStaged : string := "local_staged".
Definition PhaseProofReady : string := "proof_ready".
Definition PhaseActivated : string := "activated".
Definition PhaseCancelReady : string := "cancel_ready".
Definition PhaseCancelled : string := "cancelled".
Definition PhaseExpired : string := "expired".
Definition PhaseManualRecovered : string := "manual_recovered".

Definition runtimeCredentialStateSchemaVersion : Z := 2.
Definition runtimeCredentialStateMaxBytes : Z := 64 * 2 ^ 10.
Definition runtimeCredentialStagedMaxAge : Z := 24 * 60 * GoTime.Minute.
Definition configMaxBytes : Z := 2 ^ 20.

Definition one_of_strings (s : string) (l : list string) : bool := existsb (fun x => s ==? x) l.

(** Every value is free of surrounding white space. *)
Definition canonical (l : list string) : bool := forallb (fun s => s ==? TrimSpace s) l.

(** A timestamp that is absent, or set and in UTC. *)
Definition timestamp_ok (t : option GoTime.t) : bool :=
  match t with Some t => negb (GoTime.IsZero t) && GoTime.IsUTC t | None => true end.

Definition set {A} (x : option A) : bool := match x with Some _ => true | None => false end.

(** ** The rotation directive of the Panel *)

Module Rotation.
Record t := mk {
  ID : string;
  ServiceID : string;
  ExecutionHostID : string;
  Status : string;
  Revision : Z;
  ExpectedOwnershipEpoch : Z;
  ExpectedSourcePolicyRevision : Z;
  ExpectedProjectionRevision : Z;
  ExpectedLocalExecutorPolicyRevision : Z;
  PreviousTokenID : string;
  StagedTokenID : string;
  CredentialClaimedAt : option GoTime.t;
  LocalStageReceiptID : string;
  LocalStageAcknowledgedAt : option GoTime.t;
  LocalStagedAt : option GoTime.t;
  HeartbeatProvedAt : option GoTime.t;
  ActivatedAt : option GoTime.t;
  CancelRequestedAt : option GoTime.t;
  CanceledAt : option GoTime.t;
  EmergencyRevokedTokenID : string;
  EmergencyRevokedAt : option GoTime.t;
  CreatedAt : option GoTime.t;
  UpdatedAt : option GoTime.t;
}.

Definition binding_invalid (r : t) : bool :=
  negb (re_match identifierPattern (ID r)) || negb (re_match identifierPattern (ServiceID r)) ||
  negb (validExecutionHostID (ExecutionHostID r)) || negb (re_match identifierPattern (PreviousTokenID r)) ||
  negb (re_match identifierPattern (StagedTokenID r)) || (PreviousTokenID r ==? StagedTokenID r) ||
  (Revision r <? 1)%Z || (ExpectedOwnershipEpoch r <? 1)%Z || (ExpectedSourcePolicyRevision r <? 1)%Z ||
  (ExpectedProjectionRevision r <? 1)%Z || (ExpectedLocalExecutorPolicyRevision r <? 1)%Z.

(** What the status of the rotation must come with. *)
Definition validate_status (r : t) : check :=
  let unproved := negb (set (CredentialClaimedAt r)) || (LocalStageReceiptID r ==? "") ||
                  negb (set (LocalStageAcknowledgedAt r)) in
  if Status r ==? "staged" then Ok tt
  else if Status r ==? "local_staged" then
    if unproved then Err "runtime token rotation local-stage proof is incomplete" else Ok tt
  else if Status r ==? "heartbeat_proved" then
    if unproved then Err "runtime token rotation heartbeat proof is incomplete" else Ok tt
  else if Status r ==? "activated" then
    if unproved then Err "activated runtime token rotation proof is incomplete" else Ok tt
  else if Status r ==? "cancel_requested" then
    if negb (set (CredentialClaimedAt r)) || negb (set (CancelRequestedAt r))
    then Err "runtime token rotation cancel request is incomplete" else Ok tt
  else if Status r ==? "canceled" then Ok tt
  else Err "runtime token rotation directive status is invalid".

Definition timestamps (r : t) : list (option GoTime.t) :=
  [CredentialClaimedAt r; LocalStageAcknowledgedAt r; LocalStagedAt r; HeartbeatProvedAt r; ActivatedAt r;
   CancelRequestedAt r; CanceledAt r; EmergencyRevokedAt r; CreatedAt r; UpdatedAt r].

Definition Validate (r : t) : check :=
  if binding_invalid r then Err "runtime token rotation directive binding is invalid"
  else if negb (canonical [ID r; ServiceID r; ExecutionHostID r; PreviousTokenID r; StagedTokenID r])
  then Err "runtime token rotation directive is not canonical"
  else
    let! _ := validate_status r in
    if negb (Bool.eqb (LocalStageReceiptID r ==? "") (negb (set (LocalStageAcknowledgedAt r)))) ||
       ((LocalStageReceiptID r !=? "") && negb (re_match identifierPattern (LocalStageReceiptID r)))
    then Err "runtime token rotation local-stage receipt is invalid"
    else if negb (Bool.eqb (EmergencyRevokedTokenID r ==? "") (negb (set (EmergencyRevokedAt r)))) ||
       ((EmergencyRevokedTokenID r !=? "") && (EmergencyRevokedTokenID r !=? PreviousTokenID r) &&
        (EmergencyRevokedTokenID r !=? StagedTokenID r))
    then Err "runtime token rotation emergency revoke proof is invalid"
    else if negb (forallb timestamp_ok (timestamps r)) then Err "runtime token rotation timestamp is invalid"
    else
      match CredentialClaimedAt r, LocalStageAcknowledgedAt r with
      | Some claimed, Some acknowledged =>
          if GoTime.Before acknowledged claimed
          then Err "runtime token rotation timestamps are out of order" else Ok tt
      | _, _ => Ok tt
      end.
End Rotation.

(** ** Requests *)

Module Mutation.
Record t := mk {
  RotationID : string;
  ExecutionHostID : string;
  PreviousTokenID : string;
  StagedTokenID : string;
  RotationRevision : Z;
  RuntimeToken : string;
}.

Definition validate (m : t) (operation : string) : check :=
  if negb (re_match identifierPattern (RotationID m)) || negb (validExecutionHostID (ExecutionHostID m)) ||
     negb (re_match identifierPattern (PreviousTokenID m)) || negb (re_match identifierPattern (StagedTokenID m)) ||
     (PreviousTokenID m ==? StagedTokenID m) || (RotationRevision m <? 1)%Z
  then Err "runtime credential mutation binding is invalid"
  else if negb (canonical [RotationID m; ExecutionHostID m; PreviousTokenID m; StagedTokenID m])
  then Err "runtime credential mutation is not canonical"
  else if operation ==? "runtime_credential_stage" then
    if negb (validBoundedSecret (RuntimeToken m))
    then Err "runtime credential stage requires a bounded credential" else Ok tt
  else if RuntimeToken m !=? "" then Err "runtime credential operation must not include a credential"
  else Ok tt.
End Mutation.

(** [LocalExecutorRequest], as far as credential rotation reads it; [Foreign] stands
    for the payload fields of the other operations, which must all be absent. *)
Module CredentialRequest.
Record t := mk {
  Version : Z;
  Operation : string;
  ServiceID : string;
  RuntimeCredential : option Mutation.t;
  SourcePolicyRevision : Z;
  OwnershipEpoch : Z;
  OwnershipPolicyRevision : Z;
  ExecutorPolicyRevision : Z;
  Foreign : bool;
}.

Definition mutations : list string :=
  ["runtime_credential_prepare"; "runtime_credential_stage"; "runtime_credential_proof_ready";
   "runtime_credential_activate"; "runtime_credential_cancel"; "runtime_credential_finalize"].

(** The credential branches of [LocalExecutorRequest.Validate]. *)
Definition Validate (r : t) : check :=
  if (ServiceID r !=? TrimSpace (ServiceID r)) || negb (re_match identifierPattern (ServiceID r))
  then Err "local executor service_id is invalid"
  else if Operation r ==? "runtime_credential_status" then
    if (Version r !=? LocalExecutorMutationProtocolVersion) || Foreign r || set (RuntimeCredential r) ||
       (SourcePolicyRevision r !=? 0)%Z || (OwnershipEpoch r !=? 0)%Z || (OwnershipPolicyRevision r !=? 0)%Z ||
       (ExecutorPolicyRevision r !=? 0)%Z
    then Err "local executor runtime credential status request is invalid" else Ok tt
  else if one_of_strings (Operation r) mutations then
    match RuntimeCredential r with
    | None => Err "local executor runtime credential binding is invalid"
    | Some m =>
        if (Version r !=? LocalExecutorMutationProtocolVersion) || Foreign r || (SourcePolicyRevision r <? 1)%Z ||
           (OwnershipEpoch r <? 1)%Z || (OwnershipPolicyRevision r <? 1)%Z || (ExecutorPolicyRevision r <? 1)%Z
        then Err "local executor runtime credential binding is invalid"
        else Mutation.validate m (Operation r)
    end
  else Err "unsupported local executor operation".
End CredentialRequest.

(** ** Identity files *)

Definition runtimeCredentialDigest (data : string) : string := "sha256:" +:+ sha256_hex data.
Definition runtimeCredentialTokenDigest (token : string) : string := runtimeCredentialDigest token.

Module Identity.
Record t := mk { PanelURL : string; NodeID : string; RuntimeToken : string; ServiceName : string }.

#[global] Instance eta_t : Eta t := fun c => mk (PanelURL c) (NodeID c) (RuntimeToken c) (ServiceName c).
#[global] Instance eq_dec : EqDecision t.
Proof. solve_decision. Defined.
End Identity.

(** The YAML codec of the identity file, from a third-party library, with the checks
    of [Config.Validate]: what it writes, it reads back. *)
Class IdentityCodec := {
  marshalIdentity : Identity.t -> result string string;
  decodeIdentity : string -> result string Identity.t;
  decode_marshal c data : marshalIdentity c = Ok data -> decodeIdentity data = Ok c;
}.

(** ** The durable status *)

Module CredentialStatus.
Record t := mk {
  SchemaVersion : Z;
  Phase : string;
  RotationID : string;
  ServiceID : string;
  ExecutionHostID : string;
  PreviousTokenID : string;
  StagedTokenID : string;
  RotationRevision : Z;
  OwnershipEpoch : Z;
  SourcePolicyRevision : Z;
  ProjectionRevision : Z;
  LocalExecutorPolicyRevision : Z;
  StagedIdentitySHA256 : string;
  PreviousIdentitySHA256 : string;
  ActiveIdentitySHA256 : string;
  LocalExecutorPolicySHA256 : string;
  ExecutorVersion : string;
  ExecutorProtocolVersion : Z;
  MutationProtocolVersion : Z;
  LocalStageReceiptID : string;
  StagedExpiresAt : GoTime.t;
  previousRuntimeTokenSHA256 : string;
  stagedRuntimeTokenSHA256 : string;
  activeRuntimeTokenSHA256 : string;
  serviceName : string;
}.

#[global] Instance eta_t : Eta t := fun s =>
  mk (SchemaVersion s) (Phase s) (RotationID s) (ServiceID s) (ExecutionHostID s) (PreviousTokenID s)
     (StagedTokenID s) (RotationRevision s) (OwnershipEpoch s) (SourcePolicyRevision s) (ProjectionRevision s)
     (LocalExecutorPolicyRevision s) (StagedIdentitySHA256 s) (PreviousIdentitySHA256 s) (ActiveIdentitySHA256 s)
     (LocalExecutorPolicySHA256 s) (ExecutorVersion s) (ExecutorProtocolVersion s) (MutationProtocolVersion s)
     (LocalStageReceiptID s) (StagedExpiresAt s) (previousRuntimeTokenSHA256 s) (stagedRuntimeTokenSHA256 s)
     (activeRuntimeTokenSHA256 s) (serviceName s).
#[global] Instance eq_dec : EqDecision t.
Proof. solve_decision. Defined.

Definition binding_invalid (s : t) : bool :=
  (SchemaVersion s !=? runtimeCredentialStateSchemaVersion)%Z || negb (re_match identifierPattern (RotationID s)) ||
  negb (re_match identifierPattern (ServiceID s)) || negb (validExecutionHostID (ExecutionHostID s)) ||
  negb (re_match identifierPattern (PreviousTokenID s)) || negb (re_match identifierPattern (StagedTokenID s)) ||
  (PreviousTokenID s ==? StagedTokenID s) || (RotationRevision s <? 1)%Z || (OwnershipEpoch s <? 1)%Z ||
  (SourcePolicyRevision s <? 1)%Z || (ProjectionRevision s <? 1)%Z || (LocalExecutorPolicyRevision s <? 1)%Z ||
  negb (re_match digestPattern (StagedIdentitySHA256 s)) || negb (re_match digestPattern (PreviousIdentitySHA256 s)) ||
  negb (re_match digestPattern (LocalExecutorPolicySHA256 s)) || negb (re_match versionPattern (ExecutorVersion s)) ||
  (ExecutorProtocolVersion s !=? LocalExecutorMutationProtocolVersion)%Z ||
  (MutationProtocolVersion s !=? LocalExecutorMutationProtocolVersion)%Z.

(** What each phase says about the receipt and the digests. *)
Definition validate_phase (s : t) : check :=
  let p := Phase s in
  if p ==? PhaseClaimPrepared then
    if (LocalStageReceiptID s !=? "") || (ActiveIdentitySHA256 s !=? "") ||
       (StagedIdentitySHA256 s !=? runtimeCredentialDigest "")
    then Err "prepared runtime credential state is invalid" else Ok tt
  else if (p ==? PhaseStageBound) || (p ==? PhaseStaged) then
    if LocalStageReceiptID s !=? "" then Err "unacknowledged runtime credential has a receipt"
    else if ActiveIdentitySHA256 s !=? ""
    then Err "unactivated runtime credential state contains an active digest" else Ok tt
  else if (p ==? PhaseLocalStaged) || (p ==? PhaseProofReady) then
    if negb (re_match identifierPattern (LocalStageReceiptID s))
    then Err "runtime credential local-stage receipt is invalid"
    else if ActiveIdentitySHA256 s !=? ""
    then Err "unactivated runtime credential state contains an active digest" else Ok tt
  else if p ==? PhaseActivated then
    if (ActiveIdentitySHA256 s !=? StagedIdentitySHA256 s) || negb (re_match identifierPattern (LocalStageReceiptID s))
    then Err "activated runtime credential state digest is invalid" else Ok tt
  else if p ==? PhaseCancelReady then
    if ActiveIdentitySHA256 s !=? PreviousIdentitySHA256 s
    then Err "cancel-ready runtime credential active digest is invalid" else Ok tt
  else if p ==? PhaseCancelled then
    if ActiveIdentitySHA256 s !=? PreviousIdentitySHA256 s
    then Err "cancelled runtime credential active digest is invalid" else Ok tt
  else if p ==? PhaseExpired then
    if ActiveIdentitySHA256 s !=? PreviousIdentitySHA256 s
    then Err "expired runtime credential active digest is invalid" else Ok tt
  else if p ==? PhaseManualRecovered then
    if negb (re_match digestPattern (ActiveIdentitySHA256 s)) ||
       (ActiveIdentitySHA256 s ==? PreviousIdentitySHA256 s) || (ActiveIdentitySHA256 s ==? StagedIdentitySHA256 s)
    then Err "manually recovered runtime credential active digest is invalid" else Ok tt
  else Err "runtime credential state phase is invalid".

Definition Validate (s : t) : check :=
  if binding_invalid s then Err "runtime credential state binding is invalid"
  else if GoTime.IsZero (StagedExpiresAt s) || negb (GoTime.IsUTC (StagedExpiresAt s))
  then Err "runtime credential staged expiry is invalid"
  else if negb (canonical [RotationID s; ServiceID s; ExecutionHostID s; PreviousTokenID s; StagedTokenID s])
  then Err "runtime credential state is not canonical"
  else validate_phase s.

Definition validateRootTokenBindings (s : t) : check :=
  let p := Phase s in
  if negb (re_match digestPattern (previousRuntimeTokenSHA256 s)) ||
     ((stagedRuntimeTokenSHA256 s !=? "") && negb (re_match digestPattern (stagedRuntimeTokenSHA256 s))) ||
     (255 <? len (serviceName s))%Z
  then Err "runtime credential root token binding is invalid"
  else
    let! _ :=
      if one_of_strings p [PhaseStageBound; PhaseStaged; PhaseLocalStaged; PhaseProofReady; PhaseActivated] &&
         negb (re_match digestPattern (stagedRuntimeTokenSHA256 s))
      then Err "runtime credential staged token binding is invalid" else Ok tt in
    if p ==? PhaseActivated then
      if activeRuntimeTokenSHA256 s !=? stagedRuntimeTokenSHA256 s
      then Err "runtime credential active token binding is invalid" else Ok tt
    else if one_of_strings p [PhaseCancelReady; PhaseCancelled; PhaseExpired] then
      if activeRuntimeTokenSHA256 s !=? previousRuntimeTokenSHA256 s
      then Err "runtime credential previous token binding is invalid" else Ok tt
    else if p ==? PhaseManualRecovered then
      if negb (re_match digestPattern (activeRuntimeTokenSHA256 s)) ||
         (activeRuntimeTokenSHA256 s ==? previousRuntimeTokenSHA256 s) ||
         ((stagedRuntimeTokenSHA256 s !=? "") && (activeRuntimeTokenSHA256 s ==? stagedRuntimeTokenSHA256 s))
      then Err "manually recovered runtime token binding is invalid" else Ok tt
    else Ok tt.

(** [runtimeCredentialStateFile]: the status with its root-only bindings. *)
Definition file_json (s : t) : json := JObj (
  [("schema_version", JNum (SchemaVersion s)); ("phase", JStr (Phase s)); ("rotation_id", JStr (RotationID s));
   ("service_id", JStr (ServiceID s)); ("execution_host_id", JStr (ExecutionHostID s));
   ("previous_token_id", JStr (PreviousTokenID s)); ("staged_token_id", JStr (StagedTokenID s));
   ("rotation_revision", JNum (RotationRevision s)); ("ownership_epoch", JNum (OwnershipEpoch s));
   ("source_policy_revision", JNum (SourcePolicyRevision s)); ("projection_revision", JNum (ProjectionRevision s));
   ("local_executor_policy_revision", JNum (LocalExecutorPolicyRevision s));
   ("staged_identity_sha256", JStr (StagedIdentitySHA256 s));
   ("previous_identity_sha256", JStr (PreviousIdentitySHA256 s))] ++
  omit_str "active_identity_sha256" (ActiveIdentitySHA256 s) ++
  [("local_executor_policy_sha256", JStr (LocalExecutorPolicySHA256 s));
   ("executor_version", JStr (ExecutorVersion s)); ("executor_protocol_version", JNum (ExecutorProtocolVersion s));
   ("mutation_protocol_version", JNum (MutationProtocolVersion s))] ++
  omit_str "local_stage_receipt_id" (LocalStageReceiptID s) ++
  [("staged_expires_at", JTime (StagedExpiresAt s));
   ("previous_runtime_token_sha256", JStr (previousRuntimeTokenSHA256 s))] ++
  omit_str "staged_runtime_token_sha256" (stagedRuntimeTokenSHA256 s) ++
  omit_str "active_runtime_token_sha256" (activeRuntimeTokenSHA256 s) ++
  [("service_name", JStr (serviceName s))]).
End CredentialStatus.

(** The request belongs to the rotation in progress. *)
Definition runtimeCredentialRequestMatchesStatus (request : CredentialRequest.t) (s : CredentialStatus.t) : bool :=
  match CredentialRequest.RuntimeCredential request with
  | None => false
  | Some m =>
      (CredentialRequest.ServiceID request ==? CredentialStatus.ServiceID s) &&
      (Mutation.RotationID m ==? CredentialStatus.RotationID s) &&
      (Mutation.ExecutionHostID m ==? CredentialStatus.ExecutionHostID s) &&
      (Mutation.PreviousTokenID m ==? CredentialStatus.PreviousTokenID s) &&
      (Mutation.StagedTokenID m ==? CredentialStatus.StagedTokenID s) &&
      (CredentialRequest.OwnershipEpoch request ==? CredentialStatus.OwnershipEpoch s) &&
      (CredentialRequest.SourcePolicyRevision request ==? CredentialStatus.SourcePolicyRevision s) &&
      (CredentialRequest.OwnershipPolicyRevision request ==? CredentialStatus.ProjectionRevision s) &&
      (CredentialRequest.ExecutorPolicyRevision request ==? CredentialStatus.LocalExecutorPolicyRevision s)
  end.

(** The Panel's answer is the expected next step of this rotation. *)
Definition panel_transition_ok (rotation : Rotation.t) (s : CredentialStatus.t) (status : string) (revision : Z) : bool :=
  is_ok (Rotation.Validate rotation) && (Rotation.ID rotation ==? CredentialStatus.RotationID s) &&
  (Rotation.ServiceID rotation ==? CredentialStatus.ServiceID s) &&
  (Rotation.ExecutionHostID rotation ==? CredentialStatus.ExecutionHostID s) &&
  (Rotation.PreviousTokenID rotation ==? CredentialStatus.PreviousTokenID s) &&
  (Rotation.StagedTokenID rotation ==? CredentialStatus.StagedTokenID s) &&
  (Rotation.ExpectedOwnershipEpoch rotation ==? CredentialStatus.OwnershipEpoch s) &&
  (Rotation.ExpectedSourcePolicyRevision rotation ==? CredentialStatus.SourcePolicyRevision s) &&
  (Rotation.ExpectedProjectionRevision rotation ==? CredentialStatus.ProjectionRevision s) &&
  (Rotation.ExpectedLocalExecutorPolicyRevision rotation ==? CredentialStatus.LocalExecutorPolicyRevision s) &&
  (Rotation.Status rotation ==? status) && (Rotation.Revision rotation ==? revision).
