(* ===== verification/TokenExecutor.v ===== *)
(** The privileged side of runtime-token rotation
    ([runtime_token_rotation_executor.go], [_state.go], [_binding.go], [_staging.go],
    [_transition.go], [_reconciliation.go], [_cleanup.go], [_expiry.go],
    [_emergency_recovery.go]): the executor's handlers as programs over the status
    file, the three identity files and the Panel.

    The file checks that do not look at the content (modes, owners, symbolic links,
    the directory layout) are operations that succeed or fail.  A write is atomic: the
    temporary file that an interrupted one leaves beside its target is not part of the
    state.  Revisions are 64-bit
    numbers that grow by one from one; their overflow is not modelled. *)
From Stdlib Require Import Ascii String ZArith Lia.
From stdpp Require Import base decidable list strings.
From S2P Require Import Prelude Strings Regexp Patterns Effects Sha256 Json SelfUpdateGrant TokenRotation.

Open Scope string_scope.

(** ** Operations *)

(** The error classes that [errors.Is] and [errors.As] distinguish in the handler. *)
Inductive err := ErrBusy | ErrPrecondition | ErrUnavailable | ErrPanel | ErrOther.

Inductive slot := ActiveSlot | StagedSlot | WipingSlot.

(** The durable state, and three records of what happened: the activations the Panel was
    asked for, each token with the status file at that moment; the answers it gave, each
    with the token and the status file it was asked under, whatever the answer says; and
    the identities that the operator installed. *)
Record world := World {
  status_file : option CredentialStatus.t;
  active : option string;
  staged : option string;
  wiping : option string;
  asked : list (string * option CredentialStatus.t);
  answered : list (string * Rotation.t * option CredentialStatus.t);
  installed : list string;
}.

#[global] Instance eta_world : Eta world := fun w =>
  World (status_file w) (active w) (staged w) (wiping w) (asked w) (answered w) (installed w).

Definition file_of (s : slot) (w : world) : option string :=
  match s with ActiveSlot => active w | StagedSlot => staged w | WipingSlot => wiping w end.

Inductive op : Type -> Type :=
| VerifyLayout : op (result err unit)
| ReadStatus : op (result err (option CredentialStatus.t))
| WriteStatus (s : CredentialStatus.t) : op (result err unit)   (** write, rename and sync *)
| RemoveStatus : op (result err unit)
| Stat (s : slot) : op (result err bool)
| ReadFile (s : slot) : op (result err string)
| ModTime (s : slot) : op (result err GoTime.t)
| WriteActive (data : string) : op (result err unit)            (** write, rename and sync *)
| InstallIdentity (data : string) : op (result err unit)        (** by the operator *)
| WriteStaged (data : string) : op (result err unit)
| Quarantine : op (result err unit)                             (** rename staged to wiping and sync *)
| OpenWiping : op (result err unit)
| Overwrite : op (result err unit)
| RemoveWiping : op (result err unit)
| Now : op GoTime.t
| AcknowledgeStage (url id : string) (revision : Z) (token : string) : op (result err Rotation.t)
| Activate (url id : string) (revision : Z) (token : string) : op (result err Rotation.t).

(** [Good t]: the operation succeeds, and the clock shows [t].  A write fails before
    its temporary file is there ([FailsBefore]), at the rename ([Refused]), or after
    it has happened ([FailsAfter]). *)
Inductive answer :=
| Good (t : GoTime.t)
| FailsBefore
| Refused
| FailsAfter
| Gives (r : Rotation.t)
| Rejects.

Definition observe {A} (r : result err A) (ans : answer) (w : world) : option (result err A * world) :=
  match ans with
  | Good _ => Some (r, w)
  | FailsBefore => Some (Err ErrOther, w)
  | _ => None
  end.

Definition effect (early : err) (ans : answer) (after before : world) : option (result err unit * world) :=
  match ans with
  | Good _ => Some (Ok tt, after)
  | FailsBefore => Some (Err early, before)
  | Refused => Some (Err ErrOther, before)
  | FailsAfter => Some (Err ErrOther, after)
  | _ => None
  end.

#[global] Instance token_handler : Handler op world answer := fun X o ans w =>
  match o in op X return option (X * world) with
  | VerifyLayout => observe (Ok tt) ans w
  | ReadStatus => observe (Ok (status_file w)) ans w
  | WriteStatus s => effect ErrUnavailable ans (w <| status_file := Some s |>) w
  | RemoveStatus => effect ErrOther ans (w <| status_file := None |>) w
  | Stat s => observe (Ok (set (file_of s w))) ans w
  | ReadFile s => observe (match file_of s w with Some d => Ok d | None => Err ErrOther end) ans w
  | ModTime s => match ans with Good t => Some (Ok t, w) | FailsBefore => Some (Err ErrOther, w) | _ => None end
  | WriteActive d => effect ErrUnavailable ans (w <| active := Some d |>) w
  | InstallIdentity d => effect ErrUnavailable ans (w <| active := Some d |> <| installed := (installed w ++ [d])%list |>) w
  | WriteStaged d => effect ErrUnavailable ans (w <| staged := Some d |>) w
  | Quarantine => effect ErrOther ans (w <| wiping := staged w |> <| staged := None |>) w
  | OpenWiping => observe (Ok tt) ans w
  | Overwrite =>
      match wiping w with
      | Some _ => effect ErrOther ans (w <| wiping := Some "" |>) w
      | None => Some (Err ErrOther, w)
      end
  | RemoveWiping => effect ErrOther ans (w <| wiping := None |>) w
  | Now => match ans with Good t => Some (t, w) | _ => None end
  | AcknowledgeStage _ _ _ _ =>
      match ans with
      | Gives r => Some (Ok r, w)
      | Rejects => Some (Err ErrPanel, w)
      | FailsBefore | FailsAfter => Some (Err ErrOther, w)
      | _ => None
      end
  | Activate _ _ _ token =>
      let w := w <| asked := (asked w ++ [(token, status_file w)])%list |> in
      match ans with
      | Gives r => Some (Ok r, w <| answered := (answered w ++ [(token, r, status_file w)])%list |>)
      | Rejects => Some (Err ErrPanel, w)
      | FailsBefore | FailsAfter => Some (Err ErrOther, w)
      | _ => None
      end
  end.

Abbreviation io A := (prog op (result err A)).

Definition fail {A} (e : err) : io A := Ret (Err e).

(** A check whose error is a plain [errors.New]. *)
Definition require (b : bool) : io unit := Ret (if b then Ok tt else Err ErrOther).

Definition stat (s : slot) : io bool := call (Stat s).

(** [errors.Is(err, os.ErrNotExist)] on the result of [Lstat]. *)
Definition absent (r : result err bool) : bool := match r with Ok b => negb b | Err _ => false end.

Section Executor.
Context `{TimeZones} `{IdentityCodec} {P : Type} `{ExecutorPolicy P}.
Variable executorVersion : string.

Definition valid_status (s : CredentialStatus.t) : bool :=
  is_ok (CredentialStatus.Validate s) && is_ok (CredentialStatus.validateRootTokenBindings s).

(** ** Status file *)

Definition loadStatus : io (option CredentialStatus.t) :=
  let? found := call ReadStatus in
  match found with
  | None => Ret (Ok None)
  | Some s => let? _ := require (valid_status s) in Ret (Ok (Some s))
  end.

Definition saveStatus (s : CredentialStatus.t) : io unit :=
  let? _ := require (valid_status s) in
  let? _ := require match Marshal (CredentialStatus.file_json s) with
                    | Some data => (len data + 1 <=? runtimeCredentialStateMaxBytes)%Z
                    | None => false
                    end in
  call (WriteStatus s).

Definition removeState : io unit := call RemoveStatus.

(** ** Identity files *)

Definition bounded (data : string) : bool := (0 <? len data)%Z && (len data <=? configMaxBytes)%Z.

Definition loadIdentity (s : slot) : io (Identity.t * string) :=
  let? data := call (ReadFile s) in
  let? _ := require (bounded data) in
  match decodeIdentity data with
  | Ok c => Ret (Ok (c, data))
  | Err _ => fail ErrOther
  end.

(** [writeIdentityAtomic] on the active path, which it replaces, and on the staged
    path, which must be free. *)
Definition writeActiveIdentity (data : string) : io unit :=
  let? _ := require (bounded data) in
  let? _ := stat ActiveSlot in
  call (WriteActive data).

Definition writeStagedIdentity (data : string) : io unit :=
  let? _ := require (bounded data) in
  let? occupied := stat StagedSlot in
  if occupied then fail ErrBusy else call (WriteStaged data).

(** The digest of what a slot holds. *)
Definition slot_digest (s : slot) : io string :=
  let? (c, data) := loadIdentity s in Ret (Ok (runtimeCredentialDigest data)).

(** The staged secret is first moved aside, then overwritten and removed. *)
Definition wipeAndRemoveIdentity (expectedDigest : string) : io unit :=
  let? stagedExists := stat StagedSlot in
  let? wipingExists := stat WipingSlot in
  if stagedExists && wipingExists then fail ErrOther
  else if negb stagedExists && negb wipingExists then Ret (Ok tt)
  else
    let? _ := if wipingExists then Ret (Ok tt)
              else
                let? data := call (ReadFile StagedSlot) in
                let? _ := require (bounded data && (runtimeCredentialDigest data ==? expectedDigest)) in
                call Quarantine in
    let? _ := call OpenWiping in
    let* wiped := call Overwrite in
    let? _ := call RemoveWiping in
    Ret wiped.

Definition identityCleanupComplete : prog op bool :=
  let* s := stat StagedSlot in
  let* v := stat WipingSlot in
  Ret (absent s && absent v).

Definition require_no_wiping : io unit :=
  let* v := stat WipingSlot in require (absent v).

(** The active identity is the one the rotation started from. *)
Definition require_active (digest : string) : io unit :=
  let? d := slot_digest ActiveSlot in require (d ==? digest).

(** ** Binding a staged file that is already there *)

Definition bindClaimPreparedStagedIdentity (s : CredentialStatus.t) (panelURL : string) :
    io (CredentialStatus.t * bool) :=
  let? _ := require (CredentialStatus.Phase s ==? PhaseClaimPrepared) in
  let? _ := require_no_wiping in
  let? exists_ := stat StagedSlot in
  if negb exists_ then Ret (Ok (s, false))
  else
    let? (c, data) := loadIdentity StagedSlot in
    let digest := runtimeCredentialTokenDigest (Identity.RuntimeToken c) in
    let? _ := require ((Identity.PanelURL c ==? panelURL) && (Identity.NodeID c ==? CredentialStatus.ServiceID s) &&
                       (Identity.ServiceName c ==? CredentialStatus.serviceName s) &&
                       validBoundedSecret (Identity.RuntimeToken c) &&
                       (digest !=? CredentialStatus.previousRuntimeTokenSHA256 s)) in
    let s := s <| CredentialStatus.Phase := PhaseStaged |>
               <| CredentialStatus.RotationRevision := (CredentialStatus.RotationRevision s + 1)%Z |>
               <| CredentialStatus.StagedIdentitySHA256 := runtimeCredentialDigest data |>
               <| CredentialStatus.stagedRuntimeTokenSHA256 := digest |> in
    let? _ := saveStatus s in
    Ret (Ok (s, true)).

Definition bindStageBoundInstalledIdentity (s : CredentialStatus.t) (panelURL : string) :
    io (CredentialStatus.t * bool) :=
  let? _ := require (CredentialStatus.Phase s ==? PhaseStageBound) in
  let? _ := require_no_wiping in
  let? exists_ := stat StagedSlot in
  if negb exists_ then Ret (Ok (s, false))
  else
    let? (c, data) := loadIdentity StagedSlot in
    let? _ := require ((Identity.NodeID c ==? CredentialStatus.ServiceID s) &&
                       (Identity.ServiceName c ==? CredentialStatus.serviceName s) &&
                       ((panelURL ==? "") || (Identity.PanelURL c ==? panelURL)) &&
                       (runtimeCredentialDigest data ==? CredentialStatus.StagedIdentitySHA256 s) &&
                       (runtimeCredentialTokenDigest (Identity.RuntimeToken c) ==?
                        CredentialStatus.stagedRuntimeTokenSHA256 s)) in
    let s := s <| CredentialStatus.Phase := PhaseStaged |> in
    let? _ := saveStatus s in
    Ret (Ok (s, true)).

Definition cleanupExpiredOrphanedStagedIdentity : io unit :=
  let? wipingExists := stat WipingSlot in
  let? _ := if wipingExists then wipeAndRemoveIdentity "" else Ret (Ok tt) in
  let? stagedExists := stat StagedSlot in
  if negb stagedExists then Ret (Ok tt)
  else
    let? (c, data) := loadIdentity StagedSlot in
    let? modified := call (ModTime StagedSlot) in
    let* now := call Now in
    if GoTime.Before now (GoTime.Add modified runtimeCredentialStagedMaxAge) then Ret (Ok tt)
    else
      let? (a, d) := loadIdentity ActiveSlot in
      let? _ := require ((Identity.PanelURL c ==? Identity.PanelURL a) && (Identity.NodeID c ==? Identity.NodeID a) &&
                         (Identity.ServiceName c ==? Identity.ServiceName a) &&
                         (Identity.RuntimeToken c !=? Identity.RuntimeToken a)) in
      wipeAndRemoveIdentity (runtimeCredentialDigest data).

(** ** Reconciliation *)

Definition previous_active (s : CredentialStatus.t) : CredentialStatus.t :=
  s <| CredentialStatus.ActiveIdentitySHA256 := CredentialStatus.PreviousIdentitySHA256 s |>
    <| CredentialStatus.activeRuntimeTokenSHA256 := CredentialStatus.previousRuntimeTokenSHA256 s |>.

Definition expired (s : CredentialStatus.t) : CredentialStatus.t :=
  previous_active (s <| CredentialStatus.Phase := PhaseExpired |>).

(** The tombstone is saved before the staged secret is destroyed. *)
Definition expire_if_due (s : CredentialStatus.t) (stagedExists : bool) : io CredentialStatus.t :=
  let* now := call Now in
  if GoTime.Before now (CredentialStatus.StagedExpiresAt s) then Ret (Ok s)
  else
    let s := expired s in
    let? _ := saveStatus s in
    let? _ := if stagedExists then wipeAndRemoveIdentity (CredentialStatus.StagedIdentitySHA256 s) else Ret (Ok tt) in
    Ret (Ok s).

Definition activated (s : CredentialStatus.t) (revision : Z) : CredentialStatus.t :=
  s <| CredentialStatus.Phase := PhaseActivated |> <| CredentialStatus.RotationRevision := revision |>
    <| CredentialStatus.ActiveIdentitySHA256 := CredentialStatus.StagedIdentitySHA256 s |>
    <| CredentialStatus.activeRuntimeTokenSHA256 := CredentialStatus.stagedRuntimeTokenSHA256 s |>.

(** [case RuntimeCredentialPhaseClaimPrepared] and [StageBound]: the statuses that
    binding and expiry return are assigned to a variable of the clause that hides the
    one the function returns, so the status from the file is what comes back. *)
Definition reconcile_claim_prepared (s : CredentialStatus.t) : io CredentialStatus.t :=
  let? (a, data) := loadIdentity ActiveSlot in
  let? _ := require (runtimeCredentialDigest data ==? CredentialStatus.PreviousIdentitySHA256 s) in
  let? _ := require_no_wiping in
  let? (bound, stagedExists) := bindClaimPreparedStagedIdentity s (Identity.PanelURL a) in
  let? _ := expire_if_due bound stagedExists in
  Ret (Ok s).

Definition reconcile_stage_bound (s : CredentialStatus.t) : io CredentialStatus.t :=
  let? _ := require_active (CredentialStatus.PreviousIdentitySHA256 s) in
  let? (bound, stagedExists) := bindStageBoundInstalledIdentity s "" in
  let? _ := expire_if_due bound stagedExists in
  Ret (Ok s).

Definition reconcile_staged (s : CredentialStatus.t) : io CredentialStatus.t :=
  let? _ := require_active (CredentialStatus.PreviousIdentitySHA256 s) in
  let? stagedExists := stat StagedSlot in
  let? _ := if stagedExists then
              let? d := slot_digest StagedSlot in require (d ==? CredentialStatus.StagedIdentitySHA256 s)
            else Ret (Ok tt) in
  let? _ := require_no_wiping in
  expire_if_due s stagedExists.

Definition reconcile_local_staged (s : CredentialStatus.t) : io CredentialStatus.t :=
  let? d := slot_digest StagedSlot in
  let? _ := require (d ==? CredentialStatus.StagedIdentitySHA256 s) in
  let? activeDigest := slot_digest ActiveSlot in
  if (CredentialStatus.Phase s ==? PhaseProofReady) && (activeDigest ==? CredentialStatus.StagedIdentitySHA256 s) then
    let s := activated s (CredentialStatus.RotationRevision s + 1) in
    let? _ := saveStatus s in
    let? _ := wipeAndRemoveIdentity (CredentialStatus.StagedIdentitySHA256 s) in
    Ret (Ok s)
  else
    let? _ := require (activeDigest ==? CredentialStatus.PreviousIdentitySHA256 s) in
    expire_if_due s true.

(** The terminal phases only finish the destruction of the staged secret. *)
Definition reconcile_terminal (s : CredentialStatus.t) (expectedActive : string) : io CredentialStatus.t :=
  let? _ := require_active expectedActive in
  let? _ := wipeAndRemoveIdentity (CredentialStatus.StagedIdentitySHA256 s) in
  Ret (Ok s).

Definition reconcile_cancel_ready (s : CredentialStatus.t) : io CredentialStatus.t :=
  let? s := reconcile_terminal s (CredentialStatus.PreviousIdentitySHA256 s) in
  let* complete := identityCleanupComplete in
  if complete then Ret (Ok s) else fail ErrOther.

Definition loadAndReconcileStatus : io (option CredentialStatus.t) :=
  let? found := loadStatus in
  match found with
  | None => let? _ := cleanupExpiredOrphanedStagedIdentity in Ret (Ok None)
  | Some s =>
      let p := CredentialStatus.Phase s in
      let? s :=
        if p ==? PhaseClaimPrepared then reconcile_claim_prepared s
        else if p ==? PhaseStageBound then reconcile_stage_bound s
        else if p ==? PhaseStaged then reconcile_staged s
        else if (p ==? PhaseLocalStaged) || (p ==? PhaseProofReady) then reconcile_local_staged s
        else if p ==? PhaseActivated then reconcile_terminal s (CredentialStatus.ActiveIdentitySHA256 s)
        else if p ==? PhaseCancelReady then reconcile_cancel_ready s
        else if p ==? PhaseExpired then reconcile_terminal s (CredentialStatus.PreviousIdentitySHA256 s)
        else if p ==? PhaseManualRecovered then reconcile_terminal s (CredentialStatus.ActiveIdentitySHA256 s)
        else Ret (Ok s) in
      Ret (Ok (Some s))
  end.

(** [reconcileRuntimeCredentialExpiry], run every minute. *)
Definition reconcileRuntimeCredentialExpiry : io unit :=
  let? _ := call VerifyLayout in
  let? _ := loadAndReconcileStatus in
  call VerifyLayout.

(** ** Preparing and staging *)

(** A status of a new rotation, before the phase-specific fields. *)
Definition new_status (policySHA256 phase : string) (request : CredentialRequest.t) (m : Mutation.t)
    (a : Identity.t) (activeBytes stagedDigest stagedToken : string) (now : GoTime.t) : CredentialStatus.t :=
  CredentialStatus.mk runtimeCredentialStateSchemaVersion phase (Mutation.RotationID m)
    (CredentialRequest.ServiceID request) (Mutation.ExecutionHostID m) (Mutation.PreviousTokenID m)
    (Mutation.StagedTokenID m) (Mutation.RotationRevision m) (CredentialRequest.OwnershipEpoch request)
    (CredentialRequest.SourcePolicyRevision request) (CredentialRequest.OwnershipPolicyRevision request)
    (CredentialRequest.ExecutorPolicyRevision request) stagedDigest (runtimeCredentialDigest activeBytes) ""
    policySHA256 executorVersion LocalExecutorMutationProtocolVersion LocalExecutorMutationProtocolVersion ""
    (GoTime.Add (GoTime.UTC now) runtimeCredentialStagedMaxAge)
    (runtimeCredentialTokenDigest (Identity.RuntimeToken a)) stagedToken "" (Identity.ServiceName a).

Definition policy_digest (policy : P) : io string :=
  Ret (match Policy_SHA256 policy with Ok h => Ok h | Err _ => Err ErrOther end).

Definition prepare (policy : P) (request : CredentialRequest.t) (m : Mutation.t) (a : Identity.t)
    (activeBytes : string) (current : option CredentialStatus.t) : io CredentialStatus.t :=
  if (Mutation.RotationRevision m !=? 1)%Z then fail ErrPrecondition
  else
    match current with
    | Some s =>
        if (CredentialStatus.Phase s ==? PhaseClaimPrepared) &&
           (CredentialStatus.RotationRevision s ==? Mutation.RotationRevision m)
        then Ret (Ok s) else fail ErrBusy
    | None =>
        let? occupied := stat StagedSlot in
        if occupied then fail ErrBusy
        else
          let? policySHA256 := policy_digest policy in
          let* now := call Now in
          let s := new_status policySHA256 PhaseClaimPrepared request m a activeBytes (runtimeCredentialDigest "") "" now in
          let? _ := saveStatus s in
          Ret (Ok s)
    end.

(** The phases from which a stage request continues; [None] means that it is already
    past staging. *)
Definition stage_entry (m : Mutation.t) (current : option CredentialStatus.t) : result err bool :=
  match current with
  | None => Ok true
  | Some s =>
      let p := CredentialStatus.Phase s in
      if p ==? PhaseClaimPrepared then
        if (CredentialStatus.RotationRevision s + 1 !=? Mutation.RotationRevision m)%Z then Err ErrPrecondition else Ok true
      else if one_of_strings p [PhaseLocalStaged; PhaseProofReady; PhaseActivated] then Ok false
      else if one_of_strings p [PhaseStageBound; PhaseStaged] then
        if CredentialStatus.RotationRevision s !=? Mutation.RotationRevision m then Err ErrPrecondition else Ok true
      else Err ErrBusy
  end.

Definition already_bound (current : option CredentialStatus.t) : option CredentialStatus.t :=
  match current with
  | Some s => if one_of_strings (CredentialStatus.Phase s) [PhaseStageBound; PhaseStaged] then Some s else None
  | None => None
  end.

(** A replay must name the same identity, token and baseline. *)
Definition replay_changed (s : CredentialStatus.t) (a : Identity.t) (activeBytes stagedDigest stagedToken : string) : bool :=
  (CredentialStatus.StagedIdentitySHA256 s !=? stagedDigest) ||
  (CredentialStatus.stagedRuntimeTokenSHA256 s !=? stagedToken) ||
  (CredentialStatus.PreviousIdentitySHA256 s !=? runtimeCredentialDigest activeBytes) ||
  (CredentialStatus.previousRuntimeTokenSHA256 s !=? runtimeCredentialTokenDigest (Identity.RuntimeToken a)) ||
  (CredentialStatus.serviceName s !=? Identity.ServiceName a).

(** The staged slot is free, or already holds exactly this identity. *)
Definition staged_slot_ready (stagedBytes : string) : io bool :=
  let? exists_ := stat StagedSlot in
  if negb exists_ then Ret (Ok false)
  else
    let? (c, data) := loadIdentity StagedSlot in
    let? _ := require (data ==? stagedBytes) in
    Ret (Ok true).

(** The digest of the claimed identity is on record before its file is created. *)
Definition bind_claim (policy : P) (request : CredentialRequest.t) (m : Mutation.t) (a : Identity.t)
    (activeBytes stagedDigest stagedToken : string) (current : option CredentialStatus.t) : io CredentialStatus.t :=
  match already_bound current with
  | Some s => Ret (Ok s)
  | None =>
      let? s :=
        match current with
        | Some s =>
            Ret (Ok (s <| CredentialStatus.Phase := PhaseStageBound |>
                       <| CredentialStatus.RotationRevision := Mutation.RotationRevision m |>
                       <| CredentialStatus.StagedIdentitySHA256 := stagedDigest |>
                       <| CredentialStatus.stagedRuntimeTokenSHA256 := stagedToken |>))
        | None =>
            let* now := call Now in
            let? policySHA256 := policy_digest policy in
            Ret (Ok (new_status policySHA256 PhaseStageBound request m a activeBytes stagedDigest stagedToken now))
        end in
      let? _ := saveStatus s in
      Ret (Ok s)
  end.

Definition install_staged (stagedBytes : string) (stagedExists : bool) (s : CredentialStatus.t) : io CredentialStatus.t :=
  let? _ := if stagedExists then Ret (Ok tt) else writeStagedIdentity stagedBytes in
  let? (c, verified) := loadIdentity StagedSlot in
  let? _ := require (verified ==? stagedBytes) in
  if CredentialStatus.Phase s ==? PhaseStageBound then
    let s := s <| CredentialStatus.Phase := PhaseStaged |> in
    let? _ := saveStatus s in
    Ret (Ok s)
  else Ret (Ok s).

(** The Panel learns that the credential is staged. *)
Definition acknowledge (url : string) (m : Mutation.t) (s : CredentialStatus.t) : io CredentialStatus.t :=
  let? d := slot_digest StagedSlot in
  let? _ := require (d ==? CredentialStatus.StagedIdentitySHA256 s) in
  let? rotation := call (AcknowledgeStage url (CredentialStatus.RotationID s) (CredentialStatus.RotationRevision s)
                           (Mutation.RuntimeToken m)) in
  if negb (panel_transition_ok rotation s "local_staged" (CredentialStatus.RotationRevision s + 1))
  then fail ErrPrecondition
  else
    let s := s <| CredentialStatus.Phase := PhaseLocalStaged |>
               <| CredentialStatus.RotationRevision := Rotation.Revision rotation |>
               <| CredentialStatus.LocalStageReceiptID := Rotation.LocalStageReceiptID rotation |> in
    let? _ := saveStatus s in
    Ret (Ok s).

Definition stage_claim (policy : P) (url : string) (request : CredentialRequest.t) (m : Mutation.t) (a : Identity.t)
    (activeBytes : string) (current : option CredentialStatus.t) : io CredentialStatus.t :=
  if Identity.RuntimeToken a ==? Mutation.RuntimeToken m then fail ErrPrecondition
  else
    match marshalIdentity (a <| Identity.RuntimeToken := Mutation.RuntimeToken m |>) with
    | Err _ => fail ErrOther
    | Ok stagedBytes =>
        if stagedBytes ==? activeBytes then fail ErrPrecondition
        else
          let stagedDigest := runtimeCredentialDigest stagedBytes in
          let stagedToken := runtimeCredentialTokenDigest (Mutation.RuntimeToken m) in
          let changed := match already_bound current with
                         | Some s => replay_changed s a activeBytes stagedDigest stagedToken
                         | None => false
                         end in
          if changed then fail ErrPrecondition
          else
            let? _ := require_no_wiping in
            let? stagedExists := staged_slot_ready stagedBytes in
            let? s := bind_claim policy request m a activeBytes stagedDigest stagedToken current in
            let? s := install_staged stagedBytes stagedExists s in
            acknowledge url m s
    end.

Definition stage (policy : P) (url : string) (request : CredentialRequest.t) (m : Mutation.t) (a : Identity.t)
    (activeBytes : string) (current : option CredentialStatus.t) : io CredentialStatus.t :=
  if (Mutation.RotationRevision m !=? 2)%Z then fail ErrPrecondition
  else
    match stage_entry m current, current with
    | Err e, _ => fail e
    | Ok false, Some s => Ret (Ok s)
    | _, _ => stage_claim policy url request m a activeBytes current
    end.

Definition markProofReady (m : Mutation.t) (current : option CredentialStatus.t) : io CredentialStatus.t :=
  match current with
  | None => fail ErrPrecondition
  | Some s =>
      let p := CredentialStatus.Phase s in
      if (p ==? PhaseProofReady) || (p ==? PhaseActivated) then
        if Mutation.RotationRevision m !=? CredentialStatus.RotationRevision s then fail ErrPrecondition else Ret (Ok s)
      else if (p !=? PhaseLocalStaged) || (Mutation.RotationRevision m !=? CredentialStatus.RotationRevision s + 1)%Z
      then fail ErrPrecondition
      else
        let? d := slot_digest StagedSlot in
        let? _ := require (d ==? CredentialStatus.StagedIdentitySHA256 s) in
        let s := s <| CredentialStatus.Phase := PhaseProofReady |>
                   <| CredentialStatus.RotationRevision := Mutation.RotationRevision m |> in
        let? _ := saveStatus s in
        Ret (Ok s)
  end.

(** ** Activation, cancellation and the end *)

Definition activateCredential (url : string) (m : Mutation.t) (current : option CredentialStatus.t) :
    io CredentialStatus.t :=
  match current with
  | None => fail ErrPrecondition
  | Some s =>
      if CredentialStatus.Phase s ==? PhaseActivated then Ret (Ok s)
      else if (CredentialStatus.Phase s !=? PhaseProofReady) ||
              (Mutation.RotationRevision m !=? CredentialStatus.RotationRevision s)
      then fail ErrPrecondition
      else
        let? (c, stagedBytes) := loadIdentity StagedSlot in
        let? _ := require ((Identity.NodeID c ==? CredentialStatus.ServiceID s) && (Identity.PanelURL c ==? url) &&
                           (runtimeCredentialDigest stagedBytes ==? CredentialStatus.StagedIdentitySHA256 s)) in
        let? rotation := call (Activate url (CredentialStatus.RotationID s) (CredentialStatus.RotationRevision s)
                                 (Identity.RuntimeToken c)) in
        if negb (panel_transition_ok rotation s "activated" (CredentialStatus.RotationRevision s + 1))
        then fail ErrPrecondition
        else
          let? _ := call VerifyLayout in
          let? _ := writeActiveIdentity stagedBytes in
          let? _ := call VerifyLayout in
          let? d := slot_digest ActiveSlot in
          let? _ := require (d ==? CredentialStatus.StagedIdentitySHA256 s) in
          let s := activated s (Rotation.Revision rotation) in
          let? _ := saveStatus s in
          let? _ := wipeAndRemoveIdentity (CredentialStatus.StagedIdentitySHA256 s) in
          Ret (Ok s)
  end.

Definition cancellable : list string :=
  [PhaseClaimPrepared; PhaseStageBound; PhaseStaged; PhaseLocalStaged; PhaseProofReady; PhaseExpired].

Definition cancel (m : Mutation.t) (current : option CredentialStatus.t) : io CredentialStatus.t :=
  match current with
  | None => fail ErrPrecondition
  | Some s =>
      let p := CredentialStatus.Phase s in
      let revision := Mutation.RotationRevision m in
      if p ==? PhaseActivated then fail ErrPrecondition
      else if (revision <? CredentialStatus.RotationRevision s)%Z then fail ErrPrecondition
      else if p ==? PhaseCancelReady then
        if (revision ==? CredentialStatus.RotationRevision s) then Ret (Ok s)
        else if (revision !=? CredentialStatus.RotationRevision s + 1)%Z then fail ErrPrecondition
        else
          let s := s <| CredentialStatus.Phase := PhaseCancelled |> <| CredentialStatus.RotationRevision := revision |> in
          let? _ := removeState in
          Ret (Ok s)
      else if one_of_strings p cancellable then
        if (revision !=? CredentialStatus.RotationRevision s + 1)%Z then fail ErrPrecondition
        else
          let? _ := require_active (CredentialStatus.PreviousIdentitySHA256 s) in
          let s := previous_active (s <| CredentialStatus.Phase := PhaseCancelReady |>
                                      <| CredentialStatus.RotationRevision := revision |>) in
          let? _ := saveStatus s in
          let? _ := wipeAndRemoveIdentity (CredentialStatus.StagedIdentitySHA256 s) in
          Ret (Ok s)
      else fail ErrPrecondition
  end.

Definition finalize (m : Mutation.t) (current : option CredentialStatus.t) : io CredentialStatus.t :=
  match current with
  | None => fail ErrPrecondition
  | Some s =>
      if negb (one_of_strings (CredentialStatus.Phase s) [PhaseActivated; PhaseManualRecovered]) ||
         (Mutation.RotationRevision m !=? CredentialStatus.RotationRevision s)
      then fail ErrPrecondition
      else
        let? _ := require_active (CredentialStatus.ActiveIdentitySHA256 s) in
        let* complete := identityCleanupComplete in
        if negb complete then fail ErrOther
        else
          let? _ := removeState in
          Ret (Ok s)
  end.

(** ** The request handler *)

(** The failure code, or the status in the response. *)
Abbreviation response := (result string CredentialStatus.t).

Definition failure_code (e : err) : string :=
  match e with
  | ErrBusy => "target_busy"
  | ErrPrecondition | ErrPanel => "mutation_precondition_failed"
  | ErrUnavailable => "state_unavailable"
  | ErrOther => "state_invalid"
  end.

Definition runtimeCredentialResponse (s : CredentialStatus.t) : response :=
  if is_ok (CredentialStatus.Validate s) then Ok s else Err "internal_error".

Definition dispatch (policy : P) (url : string) (request : CredentialRequest.t) (m : Mutation.t) (a : Identity.t)
    (activeBytes : string) (current : option CredentialStatus.t) : io CredentialStatus.t :=
  let operation := CredentialRequest.Operation request in
  if operation ==? "runtime_credential_prepare" then prepare policy request m a activeBytes current
  else if operation ==? "runtime_credential_stage" then stage policy url request m a activeBytes current
  else if operation ==? "runtime_credential_proof_ready" then markProofReady m current
  else if operation ==? "runtime_credential_activate" then activateCredential url m current
  else if operation ==? "runtime_credential_cancel" then cancel m current
  else if operation ==? "runtime_credential_finalize" then finalize m current
  else fail ErrOther.

(** A mutation request, after reconciliation. *)
Definition mutate (policy : P) (url : string) (request : CredentialRequest.t) (current : option CredentialStatus.t) :
    prog op response :=
  match CredentialRequest.RuntimeCredential request with
  | None => Ret (Err "config_mismatch")
  | Some m =>
      if (Mutation.ExecutionHostID m !=? HostID policy) ||
         (CredentialRequest.SourcePolicyRevision request !=? SourcePolicyRevision policy) ||
         (CredentialRequest.OwnershipPolicyRevision request !=? ProjectionRevision policy) ||
         (CredentialRequest.ExecutorPolicyRevision request !=? PolicyRevision policy)
      then Ret (Err "config_mismatch")
      else
        let* loaded := loadIdentity ActiveSlot in
        match loaded with
        | Err _ => Ret (Err "config_mismatch")
        | Ok (a, activeBytes) =>
            if (Identity.NodeID a !=? CredentialRequest.ServiceID request) || (Identity.PanelURL a !=? url) ||
               match current with Some s => negb (runtimeCredentialRequestMatchesStatus request s) | None => false end
            then Ret (Err "config_mismatch")
            else
              let* done := (let? s := dispatch policy url request m a activeBytes current in
                            let? _ := call VerifyLayout in
                            Ret (Ok s)) in
              Ret (match done with Ok s => runtimeCredentialResponse s | Err e => Err (failure_code e) end)
        end
  end.

Definition handleLocalExecutorRuntimeCredential (policy : P) (request : CredentialRequest.t) : prog op response :=
  if is_err (CredentialRequest.Validate request) then Ret (Err "invalid_request")
  else
    match PanelURL policy with
    | None => Ret (Err "policy_invalid")
    | Some url =>
        if is_err (Policy_Validate policy) || (SchemaVersion policy !=? LocalExecutorMutationPolicySchemaVersion) ||
           (ProtocolVersion policy !=? LocalExecutorMutationProtocolVersion)
        then Ret (Err "policy_invalid")
        else
          let* layout := call VerifyLayout in
          if is_err layout then Ret (Err "state_invalid")
          else
            let* reconciled := loadAndReconcileStatus in
            match reconciled with
            | Err _ => Ret (Err "state_invalid")
            | Ok current =>
                if CredentialRequest.Operation request ==? "runtime_credential_status" then
                  Ret match current with
                      | None => Err "target_not_found"
                      | Some s =>
                          if CredentialStatus.ServiceID s !=? CredentialRequest.ServiceID request
                          then Err "config_mismatch" else runtimeCredentialResponse s
                      end
                else mutate policy url request current
            end
    end.

(** ** Emergency recovery

    An operator has replaced the active identity after both tokens were revoked. *)

Definition finishEmergencyStagedCleanup (expectedDigest : string) : io unit :=
  let? _ := call VerifyLayout in
  let? _ := wipeAndRemoveIdentity expectedDigest in
  call VerifyLayout.

Definition emergency_mismatch (policy : P) (rotationID : string) (s : CredentialStatus.t) : bool :=
  (CredentialStatus.RotationID s !=? rotationID) || (CredentialStatus.ExecutionHostID s !=? HostID policy) ||
  (CredentialStatus.SourcePolicyRevision s !=? SourcePolicyRevision policy) ||
  (CredentialStatus.ProjectionRevision s !=? ProjectionRevision policy) ||
  (CredentialStatus.LocalExecutorPolicyRevision s !=? PolicyRevision policy) ||
  match Policy_SHA256 policy with Ok h => CredentialStatus.LocalExecutorPolicySHA256 s !=? h | Err _ => true end.

(** Staged files without a durable binding are bound first. *)
Definition emergency_bind (url : string) (s : CredentialStatus.t) : io CredentialStatus.t :=
  let? s := if CredentialStatus.Phase s ==? PhaseClaimPrepared then
              let? (s, ex) := bindClaimPreparedStagedIdentity s url in Ret (Ok s)
            else Ret (Ok s) in
  if CredentialStatus.Phase s ==? PhaseStageBound then
    let? (s, ex) := bindStageBoundInstalledIdentity s url in Ret (Ok s)
  else Ret (Ok s).

(** The phases that can be abandoned, the later ones only after the staged token's
    lifetime. *)
Definition emergency_due (s : CredentialStatus.t) : io unit :=
  let p := CredentialStatus.Phase s in
  if one_of_strings p [PhaseClaimPrepared; PhaseStageBound; PhaseActivated; PhaseCancelReady; PhaseExpired]
  then Ret (Ok tt)
  else if one_of_strings p [PhaseStaged; PhaseLocalStaged; PhaseProofReady] then
    let* now := call Now in
    require (negb (GoTime.Before now (CredentialStatus.StagedExpiresAt s)))
  else fail ErrOther.

Definition recoverAfterEmergencyManualReconfigure (policy : P) (rotationID : string) : io CredentialStatus.t :=
  match PanelURL policy with
  | None => fail ErrOther
  | Some url =>
      if (rotationID !=? TrimSpace rotationID) || negb (re_match identifierPattern rotationID) ||
         is_err (Policy_Validate policy) || (SchemaVersion policy !=? LocalExecutorMutationPolicySchemaVersion) ||
         (ProtocolVersion policy !=? LocalExecutorMutationProtocolVersion)
      then fail ErrOther
      else
        let? _ := call VerifyLayout in
        let? found := loadStatus in
        match found with
        | None => fail ErrOther
        | Some s =>
            if emergency_mismatch policy rotationID s then fail ErrOther
            else
              let? s := emergency_bind url s in
              let? _ := call VerifyLayout in
              let? (a, activeBytes) := loadIdentity ActiveSlot in
              let? _ := require ((Identity.NodeID a ==? CredentialStatus.ServiceID s) && (Identity.PanelURL a ==? url) &&
                                 (Identity.ServiceName a ==? CredentialStatus.serviceName s) &&
                                 validBoundedSecret (Identity.RuntimeToken a)) in
              let digest := runtimeCredentialDigest activeBytes in
              let token := runtimeCredentialTokenDigest (Identity.RuntimeToken a) in
              if CredentialStatus.Phase s ==? PhaseManualRecovered then
                let? _ := require ((digest ==? CredentialStatus.ActiveIdentitySHA256 s) &&
                                   (token ==? CredentialStatus.activeRuntimeTokenSHA256 s)) in
                let? _ := finishEmergencyStagedCleanup (CredentialStatus.StagedIdentitySHA256 s) in
                Ret (Ok s)
              else
                let? _ := emergency_due s in
                let? _ := require (negb ((digest ==? CredentialStatus.PreviousIdentitySHA256 s) ||
                                         (digest ==? CredentialStatus.StagedIdentitySHA256 s) ||
                                         (token ==? CredentialStatus.previousRuntimeTokenSHA256 s) ||
                                         ((CredentialStatus.stagedRuntimeTokenSHA256 s !=? "") &&
                                          (token ==? CredentialStatus.stagedRuntimeTokenSHA256 s)))) in
                let s := s <| CredentialStatus.Phase := PhaseManualRecovered |>
                           <| CredentialStatus.ActiveIdentitySHA256 := digest |>
                           <| CredentialStatus.activeRuntimeTokenSHA256 := token |> in
                let? _ := call VerifyLayout in
                let? _ := saveStatus s in
                let? _ := finishEmergencyStagedCleanup (CredentialStatus.StagedIdentitySHA256 s) in
                Ret (Ok s)
        end
  end.
End Executor.
