(* ===== verification/TokenSafety.v ===== *)
(** What runtime-token rotation guarantees on the privileged side: the active identity
    is replaced only by one that the Panel has activated, every staged secret is on
    record until it is destroyed, and its lifetime ends with an expiry run.  And one
    defect: a request that meets an expired claim goes on as if it had not expired. *)
From Stdlib Require Import Ascii String ZArith Lia.
From stdpp Require Import base decidable list strings.
From S2P Require Import Prelude Strings Regexp Patterns Effects Sha256 Json SelfUpdateGrant TokenRotation TokenExecutor.

Open Scope string_scope.

#[local] Opaque runtimeCredentialDigest.

Section Safety.
Context `{TimeZones} `{IdentityCodec} {P : Type} `{ExecutorPolicy P}.
Variable executorVersion : string.

(** ** Rules *)

Section Rules.
Context (I : world -> Prop) (w : world).
Hypothesis (HI : I w).

Lemma wp_look {A} (r : result err A) (o : op (result err A)) (Q : result err A -> world -> Prop) :
  (forall ans, handle o ans w = observe r ans w) -> (forall e, Q (Err e) w) -> Q r w -> wp I (call o) Q w.
Proof using HI.
  intros Ho He Hr. apply wp_call; [done|]. intros ans x w' E. rewrite Ho in E. by destruct ans; try discriminate;
    injection E as <- <-.
Qed.

Lemma wp_effect (o : op (result err unit)) early after (Q : result err unit -> world -> Prop) :
  (forall ans, handle o ans w = effect early ans after w) -> (forall e, Q (Err e) w) ->
  I after -> (forall r, Q r after) -> wp I (call o) Q w.
Proof using HI.
  intros Ho He Ha Hr. apply wp_call; [done|]. intros ans x w' E. rewrite Ho in E. by destruct ans; try discriminate;
    injection E as <- <-.
Qed.

Lemma wp_require b (Q : result err unit -> world -> Prop) :
  (forall e, Q (Err e) w) -> (b = true -> Q (Ok tt) w) -> wp I (require b) Q w.
Proof using HI. intros He Hb. apply wp_ret; [done|]. destruct b; auto. Qed.

Lemma wp_stat s (Q : result err bool -> world -> Prop) :
  (forall e, Q (Err e) w) -> Q (Ok (set (file_of s w))) w -> wp I (stat s) Q w.
Proof using HI. intros He Hr. by apply (wp_look (Ok (set (file_of s w)))). Qed.

Lemma wp_load_identity s (Q : result err (Identity.t * string) -> world -> Prop) :
  (forall e, Q (Err e) w) ->
  (forall c data, file_of s w = Some data -> decodeIdentity data = Ok c -> Q (Ok (c, data)) w) ->
  wp I (loadIdentity s) Q w.
Proof using HI.
  intros He Hok. apply wp_bind_ok, (wp_look (match file_of s w with Some d => Ok d | None => Err ErrOther end));
    [done|done|]. destruct (file_of s w) as [data|] eqn:Ef; [|done].
  apply wp_bind_ok, wp_require; [done|]. intros _.
  destruct (decodeIdentity data) as [c|] eqn:Ed; apply wp_ret; auto.
Qed.

Lemma wp_slot_digest s (Q : result err string -> world -> Prop) :
  (forall e, Q (Err e) w) ->
  (forall data, file_of s w = Some data -> Q (Ok (runtimeCredentialDigest data)) w) -> wp I (slot_digest s) Q w.
Proof using HI.
  intros He Hok. apply wp_bind_ok, wp_load_identity; [done|]. intros c data Ef _. apply wp_ret; auto.
Qed.

Lemma wp_require_active d (Q : result err unit -> world -> Prop) :
  (forall e, Q (Err e) w) -> (forall data, active w = Some data -> runtimeCredentialDigest data = d -> Q (Ok tt) w) ->
  wp I (require_active d) Q w.
Proof using HI.
  intros He Hok. apply wp_bind_ok, wp_slot_digest; [done|]. intros data Ef. apply wp_require; [done|].
  intros Eb. bool_to_prop. eauto.
Qed.

Lemma wp_require_no_wiping (Q : result err unit -> world -> Prop) :
  (forall e, Q (Err e) w) -> (wiping w = None -> Q (Ok tt) w) -> wp I require_no_wiping Q w.
Proof using HI.
  intros He Hok. apply wp_bind, wp_stat; [intros e; by apply wp_require|]. apply wp_require; [done|].
  cbn. destruct (wiping w); [done|auto].
Qed.

Lemma wp_cleanup_complete (Q : bool -> world -> Prop) :
  Q false w -> (staged w = None -> wiping w = None -> Q true w) -> wp I identityCleanupComplete Q w.
Proof using HI.
  intros Hf Ht. unfold identityCleanupComplete.
  assert (Hrest : forall s, absent s = false -> wp I (let* v := stat WipingSlot in Ret (absent s && absent v)) Q w)
    by (intros s Hs; apply wp_bind, wp_stat; [intros e|]; apply wp_ret; try done; by rewrite Hs).
  apply wp_bind, wp_stat; [intros e; by apply Hrest|]. cbn [file_of].
  destruct (staged w) eqn:Es; [by apply Hrest|]. apply wp_bind, wp_stat; [intros e; by apply wp_ret|].
  cbn [file_of]. apply wp_ret; [done|]. destruct (wiping w); cbn; auto.
Qed.

Lemma wp_save_status s (Q : result err unit -> world -> Prop) :
  (forall e, Q (Err e) w) ->
  (valid_status s = true -> let w' := w <| status_file := Some s |> in I w' /\ forall r, Q r w') ->
  wp I (saveStatus s) Q w.
Proof using HI.
  intros He Hok. apply wp_bind_ok, wp_require; [done|]. intros Hv. apply wp_bind_ok, wp_require; [done|]. intros _.
  destruct (Hok Hv) as [Ha Hr]. by apply (wp_effect _ ErrUnavailable (w <| status_file := Some s |>)).
Qed.
End Rules.

(** ** Every staged secret is on record *)

(** A staged identity has a status with its digest; a quarantined one has a status. *)
Definition accounted (w : world) : Prop :=
  (forall data, staged w = Some data -> exists s, status_file w = Some s /\
     CredentialStatus.Phase s <> PhaseClaimPrepared /\
     runtimeCredentialDigest data = CredentialStatus.StagedIdentitySHA256 s) /\
  (wiping w <> None -> status_file w <> None).

(** Operations that neither write the status nor create a staged file. *)
Definition keeps_ledger {X} (o : op X) : Prop :=
  match o with WriteStatus _ | RemoveStatus | WriteStaged _ => False | _ => True end.

Lemma accounted_same w v :
  accounted w -> status_file v = status_file w -> (staged v = staged w \/ staged v = None) ->
  (wiping v = wiping w \/ wiping v = None \/ wiping w <> None \/ staged w <> None) -> accounted v.
Proof.
  intros [Hs Hw] Ef Est Ew. unfold accounted. rewrite Ef. split.
  - intros data E. destruct Est as [Est|Est]; rewrite Est in E; [auto|done].
  - intros Hv. destruct Ew as [Ew|[Ew|[Ew|Ew]]]; [rewrite Ew in Hv; auto|done|auto|].
    destruct (staged w) as [data|]; [|done]. destruct (Hs data eq_refl) as (s & E & _). congruence.
Qed.

Lemma effect_cases early ans after before x w' :
  effect early ans after before = Some (x, w') -> (w' = after \/ w' = before) /\ (x = Ok tt -> w' = after).
Proof. destruct ans; try discriminate; intros [= <- <-]; (split; [auto|done || discriminate]). Qed.

Lemma observe_cases {A} (r : result err A) ans w x w' : observe r ans w = Some (x, w') -> w' = w.
Proof. destruct ans; try discriminate; by intros [= _ <-]. Qed.

Lemma accounted_kept {X} (o : op X) ans x w w' :
  keeps_ledger o -> accounted w -> handle o ans w = Some (x, w') -> accounted w'.
Proof.
  intros Ho Hw E. destruct o; try done; cbn in E; try (apply observe_cases in E; by subst).
  - by destruct ans; try discriminate E; injection E as _ <-.
  - apply effect_cases in E as [[-> | ->] _]; [|done]. by apply (accounted_same w); auto.
  - apply effect_cases in E as [[-> | ->] _]; [|done]. by apply (accounted_same w); auto.
  - apply effect_cases in E as [[-> | ->] _]; [|done].
    apply (accounted_same w); [done|done|by right|]. cbn. destruct (staged w); [|by right; left].
    by right; right; right.
  - destruct (wiping w) eqn:Ew; [|by injection E as _ <-]. apply effect_cases in E as [[-> | ->] _]; [|done].
    apply (accounted_same w); [done|done|by left|]. right; right; left. by rewrite Ew.
  - apply effect_cases in E as [[-> | ->] _]; [|done]. apply (accounted_same w); auto.
  - by destruct ans; try discriminate E; injection E as _ <-.
  - by destruct ans; try discriminate E; injection E as _ <-.
  - destruct ans; try discriminate E; injection E as _ <-; by apply (accounted_same w); auto.
Qed.

Definition wiped (w v : world) : Prop :=
  status_file v = status_file w /\ active v = active w /\ (staged v = staged w \/ staged v = None).

Lemma wiped_refl w : wiped w w.
Proof. split_and!; auto. Qed.

Lemma wiped_trans w u v : wiped w u -> wiped u v -> wiped w v.
Proof. intros (E1 & E2 & E3) (F1 & F2 & F3). unfold wiped. rewrite F1, F2, <- E1, <- E2. intuition congruence. Qed.

Section Wipe.
Context (w : world) (Q : result err unit -> world -> Prop).
Hypothesis (Herr : forall e v, accounted v -> wiped w v -> Q (Err e) v).
Hypothesis (Hok : forall v, accounted v -> wiped w v -> staged v = None -> wiping v = None -> Q (Ok tt) v).

(** The end of the destruction, once the secret is in the quarantine slot. *)
Lemma wp_destroy v :
  accounted v -> wiped w v -> staged v = None ->
  wp accounted (let? _ := call OpenWiping in let* r := call Overwrite in let? _ := call RemoveWiping in Ret r) Q v.
Proof using Herr Hok.
  intros Ha Hv Hs. apply wp_bind_ok, (wp_look accounted v Ha (Ok tt)); [done|auto|].
  apply wp_bind, wp_call; [done|]. intros ans x u E. pose proof (accounted_kept Overwrite _ _ _ _ I Ha E) as Hu.
  assert (Hwu : wiped v u /\ staged u = None).
  { cbn in E. destruct (wiping v); [|injection E as _ <-; by split; [apply wiped_refl|]].
    apply effect_cases in E as [[-> | ->] _]; (split; [split_and!; auto|done]). }
  destruct Hwu as [Hvu Hsu]. split; [done|]. apply wp_bind_ok, wp_call; [done|]. intros ans' y u' E'.
  pose proof (accounted_kept RemoveWiping _ _ _ _ I Hu E') as Hu'. cbn in E'.
  apply effect_cases in E' as [Eu' Hy].
  assert (Hwu : wiped w u' /\ staged u' = None).
  { split; [|by destruct Eu' as [-> | ->]]. apply (wiped_trans w v); [done|]. apply (wiped_trans v u); [done|].
    destruct Eu' as [-> | ->]; split_and!; auto. }
  split; [done|]. destruct y as [[]|e]; [|apply Herr; tauto]. apply wp_ret; [done|].
  destruct x as [[]|e]; [|apply Herr; tauto]. apply Hok; try tauto. by rewrite (Hy eq_refl).
Qed.

Lemma wp_wipe d : accounted w -> wp accounted (wipeAndRemoveIdentity d) Q w.
Proof using Herr Hok.
  intros Ha. pose proof (wiped_refl w) as Hw. unfold wipeAndRemoveIdentity.
  apply wp_bind_ok, wp_stat; [done|auto|]. apply wp_bind_ok, wp_stat; [done|auto|]. cbn [file_of].
  destruct (staged w) as [data|] eqn:Es, (wiping w) as [junk|] eqn:Ew; cbn [set andb negb];
    [apply wp_ret; auto| | |apply wp_ret; auto].
  - apply wp_bind_ok, wp_bind_ok, (wp_look accounted w Ha (Ok data)); [intros ans; cbn; by rewrite Es|auto|].
    apply wp_bind_ok, wp_require; [done|auto|]. intros _. apply wp_call; [done|]. intros ans x v E.
    pose proof (accounted_kept Quarantine _ _ _ _ I Ha E) as Hv. cbn in E. apply effect_cases in E as [Ev Hx].
    assert (Hwv : wiped w v) by (destruct Ev as [-> | ->]; split_and!; auto).
    split; [done|]. destruct x as [[]|e]; [|auto]. apply wp_destroy; [done|done|]. by rewrite (Hx eq_refl).
  - apply wp_bind_ok, wp_ret; [done|]. by apply wp_destroy.
Qed.
End Wipe.

(** ** Reconciliation *)

(** What a request knows after reconciliation: [s] is the status on disk, except that
    in the first two phases the disk may be ahead of it. *)
Definition reconciled (v : world) (s : CredentialStatus.t) : Prop := exists f,
  status_file v = Some f /\
  CredentialStatus.StagedIdentitySHA256 f = CredentialStatus.StagedIdentitySHA256 s /\
  (f = s \/ CredentialStatus.Phase s = PhaseClaimPrepared \/ CredentialStatus.Phase s = PhaseStageBound) /\
  (CredentialStatus.Phase s <> PhaseClaimPrepared -> CredentialStatus.Phase f <> PhaseClaimPrepared) /\
  (CredentialStatus.Phase s = PhaseClaimPrepared -> staged v = None) /\
  (CredentialStatus.Phase s = PhaseCancelReady -> staged v = None /\ wiping v = None).

(** Saving a status with the digest of the staged file. *)
Lemma accounted_save w f s :
  accounted w -> status_file w = Some f ->
  (staged w <> None -> CredentialStatus.StagedIdentitySHA256 s = CredentialStatus.StagedIdentitySHA256 f) ->
  (staged w <> None -> CredentialStatus.Phase s <> PhaseClaimPrepared) ->
  accounted (w <| status_file := Some s |>).
Proof.
  intros [Hs Hw] Ef Ed Ep. split; [|done]. cbn. intros data E. destruct (Hs data E) as (f' & Ef' & _ & Hd).
  rewrite Ef in Ef'. injection Ef' as <-. assert (staged w <> None) by congruence. exists s. rewrite Ed by done. auto.
Qed.

Lemma wp_expire s b f (Q : result err CredentialStatus.t -> world -> Prop) w :
  accounted w -> status_file w = Some f ->
  CredentialStatus.StagedIdentitySHA256 s = CredentialStatus.StagedIdentitySHA256 f ->
  (forall e v, accounted v -> Q (Err e) v) -> Q (Ok s) w ->
  (forall v, accounted v -> status_file v = Some (expired s) -> (staged v = staged w \/ staged v = None) ->
     Q (Ok (expired s)) v) ->
  wp accounted (expire_if_due s b) Q w.
Proof.
  intros Ha Ef Ed Herr Hnow Hexp. apply wp_bind, wp_call; [done|].
  intros ans now v E. cbn in E. destruct ans; try discriminate E. injection E as <- <-. split; [done|].
  destruct (GoTime.Before _ _); [by apply wp_ret|].
  apply wp_bind_ok, wp_save_status; [done|auto|]. intros _. cbn zeta.
  assert (Hw : accounted (w <| status_file := Some (expired s) |>)) by (by apply (accounted_save w f)).
  split; [done|]. intros [[]|e]; [|auto]. apply wp_bind_ok. destruct b.
  - apply wp_wipe; [by auto| |done]. intros v Hv (E1 & _ & E3) _ _. apply wp_ret; [done|]. by apply Hexp.
  - apply wp_ret; [done|]. apply wp_ret; [done|]. apply Hexp; [done|done|by left].
Qed.

Definition reconcile_post (r : result err CredentialStatus.t) (v : world) : Prop :=
  match r with Ok s => reconciled v s | Err _ => True end.

(** The status on disk is the one that is returned. *)
Lemma reconciled_same v s :
  accounted v -> status_file v = Some s -> CredentialStatus.Phase s <> PhaseClaimPrepared ->
  CredentialStatus.Phase s <> PhaseCancelReady -> reconciled v s.
Proof. intros Ha E Hp Hc. exists s. by split_and!; auto. Qed.

Lemma wp_reconcile_claim_prepared w s :
  accounted w -> status_file w = Some s -> CredentialStatus.Phase s = PhaseClaimPrepared ->
  wp accounted (reconcile_claim_prepared s) reconcile_post w.
Proof.
  intros Ha Es Ep. assert (Hn : staged w = None).
  { destruct (staged w) as [data|] eqn:E; [|done]. destruct (proj1 Ha data E) as (f & Ef & Hp & _). congruence. }
  apply wp_bind_ok, wp_load_identity; [done|done|]. intros a data _ _. apply wp_bind_ok, wp_require; [done|done|]. intros _.
  apply wp_bind_ok, wp_require_no_wiping; [done|done|]. intros _. apply wp_bind_ok.
  unfold bindClaimPreparedStagedIdentity. apply wp_bind_ok, wp_require; [done|done|]. intros _.
  apply wp_bind_ok, wp_require_no_wiping; [done|done|]. intros _. apply wp_bind_ok, wp_stat; [done|done|].
  cbn [file_of]. rewrite Hn. apply wp_ret; [done|].
  assert (Hend : forall v f, accounted v -> status_file v = Some f -> staged v = None ->
    CredentialStatus.StagedIdentitySHA256 f = CredentialStatus.StagedIdentitySHA256 s ->
    wp accounted (Ret (Ok s)) reconcile_post v).
  { intros v f Hv Ef Esv Ed. apply wp_ret; [done|]. exists f. split_and!; auto; by rewrite Ep. }
  apply wp_bind_ok, (wp_expire _ _ s); try done; [by apply (Hend w s)|].
  intros v Hv Ef Hst. apply (Hend v (expired s)); [done|done| |done]. destruct Hst as [-> | ->]; auto.
Qed.

Lemma wp_reconcile_stage_bound w s :
  accounted w -> status_file w = Some s -> CredentialStatus.Phase s = PhaseStageBound ->
  wp accounted (reconcile_stage_bound s) reconcile_post w.
Proof.
  intros Ha Es Ep. apply wp_bind_ok, wp_require_active; [done|done|]. intros _ _ _. apply wp_bind_ok.
  assert (Hend : forall v f, accounted v -> status_file v = Some f -> CredentialStatus.Phase f <> PhaseClaimPrepared ->
    CredentialStatus.StagedIdentitySHA256 f = CredentialStatus.StagedIdentitySHA256 s ->
    wp accounted (Ret (Ok s)) reconcile_post v).
  { intros v f Hv Ef Hp Ed. apply wp_ret; [done|]. exists f. by split_and!; auto; rewrite Ep. }
  assert (Hrest : forall v f b, accounted v -> status_file v = Some f -> CredentialStatus.Phase f <> PhaseClaimPrepared ->
    CredentialStatus.StagedIdentitySHA256 f = CredentialStatus.StagedIdentitySHA256 s ->
    wp accounted (let? _ := expire_if_due f b in Ret (Ok s)) reconcile_post v).
  { intros v f b Hv Ef Hp Ed. apply wp_bind_ok, (wp_expire _ _ f); try done; [by apply (Hend v f)|].
    intros u Hu Eu _. by apply (Hend u (expired f)). }
  unfold bindStageBoundInstalledIdentity. apply wp_bind_ok, wp_require; [done|done|]. intros _.
  apply wp_bind_ok, wp_require_no_wiping; [done|done|]. intros _. apply wp_bind_ok, wp_stat; [done|done|].
  destruct (set (file_of StagedSlot w)); cbn [negb].
  - apply wp_bind_ok, wp_load_identity; [done|done|]. intros c data _ _. apply wp_bind_ok, wp_require; [done|done|].
    intros _. apply wp_bind_ok, wp_save_status; [done|done|]. intros _. cbn zeta.
    assert (Hv : accounted (w <| status_file := Some (s <| CredentialStatus.Phase := PhaseStaged |>) |>))
      by (by apply (accounted_save w s)).
    split; [done|]. intros [[]|e]; [|done]. apply wp_ret; [done|]. by apply Hrest.
  - apply wp_ret; [done|]. apply Hrest; try done. by rewrite Ep.
Qed.

(** From [staged] on, the returned status is the one on disk. *)
Lemma wp_expire_reconciled w s b :
  accounted w -> status_file w = Some s -> CredentialStatus.Phase s <> PhaseClaimPrepared ->
  CredentialStatus.Phase s <> PhaseCancelReady -> wp accounted (expire_if_due s b) reconcile_post w.
Proof.
  intros Ha Es Hp Hc. apply (wp_expire _ _ s); try done; [by apply reconciled_same|].
  intros v Hv Ef _. by apply reconciled_same.
Qed.

Lemma wp_reconcile_staged w s :
  accounted w -> status_file w = Some s -> CredentialStatus.Phase s = PhaseStaged ->
  wp accounted (reconcile_staged s) reconcile_post w.
Proof.
  intros Ha Es Ep. apply wp_bind_ok, wp_require_active; [done|done|]. intros _ _ _.
  apply wp_bind_ok, wp_stat; [done|done|].
  assert (Hrest : forall b, wp accounted (let? _ := require_no_wiping in expire_if_due s b) reconcile_post w).
  { intros b. apply wp_bind_ok, wp_require_no_wiping; [done|done|]. intros _. by apply wp_expire_reconciled; rewrite ?Ep. }
  apply wp_bind_ok. destruct (set _).
  - apply wp_bind_ok, wp_slot_digest; [done|done|]. intros data _. apply wp_require; [done|done|]. intros _. apply Hrest.
  - apply wp_ret; [done|]. apply Hrest.
Qed.

Lemma wp_wipe_then w s d :
  accounted w -> status_file w = Some s -> CredentialStatus.Phase s <> PhaseClaimPrepared ->
  wp accounted (let? _ := wipeAndRemoveIdentity d in Ret (Ok s)) reconcile_post w.
Proof.
  intros Ha Es Hp. apply wp_bind_ok, wp_wipe; [done| |done]. intros v Hv (E1 & _ & _) Hs Hw. apply wp_ret; [done|].
  exists s. split_and!; auto. congruence.
Qed.

Lemma wp_reconcile_local_staged w s :
  accounted w -> status_file w = Some s ->
  CredentialStatus.Phase s = PhaseLocalStaged \/ CredentialStatus.Phase s = PhaseProofReady ->
  wp accounted (reconcile_local_staged s) reconcile_post w.
Proof.
  intros Ha Es Ep. assert (Hp : CredentialStatus.Phase s <> PhaseClaimPrepared /\ CredentialStatus.Phase s <> PhaseCancelReady)
    by (by destruct Ep as [-> | ->]).
  apply wp_bind_ok, wp_slot_digest; [done|done|]. intros data _. apply wp_bind_ok, wp_require; [done|done|]. intros _.
  apply wp_bind_ok, wp_slot_digest; [done|done|]. intros adata _. destruct (_ && _).
  - apply wp_bind_ok, wp_save_status; [done|done|]. intros _. cbn zeta.
    set (s' := activated s _). assert (Hv : accounted (w <| status_file := Some s' |>)) by (by apply (accounted_save w s)).
    split; [done|]. intros [[]|e]; [|done]. by apply wp_wipe_then.
  - apply wp_bind_ok, wp_require; [done|done|]. intros _. by apply wp_expire_reconciled; destruct Hp.
Qed.

Lemma wp_reconcile_terminal w s d :
  accounted w -> status_file w = Some s -> CredentialStatus.Phase s <> PhaseClaimPrepared ->
  wp accounted (reconcile_terminal s d) reconcile_post w.
Proof.
  intros Ha Es Hp. apply wp_bind_ok, wp_require_active; [done|done|]. intros _ _ _. by apply wp_wipe_then.
Qed.

Lemma wp_reconcile_cancel_ready w s :
  accounted w -> status_file w = Some s -> CredentialStatus.Phase s = PhaseCancelReady ->
  wp accounted (reconcile_cancel_ready s) reconcile_post w.
Proof.
  intros Ha Es Ep. apply wp_bind_ok.
  assert (Hp : CredentialStatus.Phase s <> PhaseClaimPrepared) by (by rewrite Ep).
  pose proof (wp_reconcile_terminal w s (CredentialStatus.PreviousIdentitySHA256 s) Ha Es Hp) as Ht.
  eapply wp_mono; [|exact Ht]. intros [s'|e] v Hv Hr; [|done].
  apply wp_bind, wp_cleanup_complete; [done|by apply wp_ret|]. intros Hs Hw. by apply wp_ret.
Qed.

Definition load_post (r : result err (option CredentialStatus.t)) (v : world) : Prop :=
  match r with
  | Ok (Some s) => reconciled v s
  | Ok None => status_file v = None /\ staged v = None /\ wiping v = None
  | Err _ => True
  end.

Lemma wp_orphans w : accounted w -> status_file w = None ->
  wp accounted cleanupExpiredOrphanedStagedIdentity
    (fun r v => is_ok r = true -> v = w /\ staged w = None /\ wiping w = None) w.
Proof.
  intros Ha Es. assert (Hs : staged w = None).
  { destruct (staged w) as [data|] eqn:E; [|done]. destruct (proj1 Ha data E) as (s & Ef & _). congruence. }
  assert (Hw : wiping w = None) by (destruct (wiping w) eqn:E; [|done]; by destruct (proj2 Ha); rewrite ?E).
  apply wp_bind_ok, wp_stat; [done|done|]. cbn [file_of]. rewrite Hw. apply wp_bind_ok, wp_ret; [done|].
  apply wp_bind_ok, wp_stat; [done|done|]. cbn [file_of]. rewrite Hs. by apply wp_ret.
Qed.

Lemma wp_load_status (I : world -> Prop) w (Q : result err (option CredentialStatus.t) -> world -> Prop) :
  I w -> (forall e, Q (Err e) w) -> (status_file w = None -> Q (Ok None) w) ->
  (forall s, status_file w = Some s -> valid_status s = true -> Q (Ok (Some s)) w) -> wp I loadStatus Q w.
Proof.
  intros HI He Hn Hs. apply wp_bind_ok, (wp_look I w HI (Ok (status_file w))); [done|done|].
  destruct (status_file w) as [s|]; [|apply wp_ret; auto]. apply wp_bind_ok, wp_require; [done|done|]. intros Hv.
  apply wp_ret; auto.
Qed.

Lemma wp_reconcile_status w : accounted w -> wp accounted loadAndReconcileStatus load_post w.
Proof.
  intros Ha. apply wp_bind_ok, wp_load_status; [done|done| |].
  - intros Es. apply wp_bind_ok. eapply wp_mono; [|by apply wp_orphans]. intros [[]|e] v Hv Hr; [|done].
    destruct (Hr eq_refl) as (-> & Hs & Hw). by apply wp_ret.
  - intros s Es _. apply wp_bind_ok.
    eapply (wp_mono _ _ reconcile_post); [intros [s'|e] v Hv Hr; [by apply wp_ret|done]|].
    repeat match goal with |- wp _ (if ?b then _ else _) _ _ => destruct b eqn:? end; bool_to_prop;
      [by apply wp_reconcile_claim_prepared|by apply wp_reconcile_stage_bound|by apply wp_reconcile_staged|
       apply wp_reconcile_local_staged; [done|done|];
         match goal with E : _ || _ = true |- _ => apply orb_true_iff in E; by rewrite !bool_decide_eq_true in E end|
       apply wp_reconcile_terminal; auto; congruence|
       by apply wp_reconcile_cancel_ready|apply wp_reconcile_terminal; auto; congruence|
       apply wp_reconcile_terminal; auto; congruence|].
    apply wp_ret; [done|]. by apply reconciled_same.
Qed.

(** ** The request handlers keep the record *)

Definition any {A} : A -> world -> Prop := fun _ _ => True.

(** The status on disk has the digest of [s], past the claim. *)
Definition bound (v : world) (s : CredentialStatus.t) : Prop := exists f,
  status_file v = Some f /\ CredentialStatus.Phase f <> PhaseClaimPrepared /\
  CredentialStatus.StagedIdentitySHA256 f = CredentialStatus.StagedIdentitySHA256 s.

Lemma reconciled_bound v s : reconciled v s -> CredentialStatus.Phase s <> PhaseClaimPrepared -> bound v s.
Proof. intros (f & Ef & Ed & _ & Hp & _) Hs. exists f. auto. Qed.

Lemma bound_save w s s' :
  accounted w -> bound w s -> CredentialStatus.StagedIdentitySHA256 s' = CredentialStatus.StagedIdentitySHA256 s ->
  CredentialStatus.Phase s' <> PhaseClaimPrepared ->
  accounted (w <| status_file := Some s' |>) /\ bound (w <| status_file := Some s' |>) s'.
Proof.
  intros Ha (f & Ef & _ & Ed) Ed' Hp. split; [apply (accounted_save w f); auto; congruence|by exists s'].
Qed.

Lemma accounted_no_staged w s : staged w = None -> accounted (w <| status_file := Some s |>).
Proof. intros Hs. split; [|done]. cbn. congruence. Qed.

Lemma wp_save_return w s (Q : result err CredentialStatus.t -> world -> Prop) :
  accounted w -> accounted (w <| status_file := Some s |>) ->
  (forall e v, Q (Err e) v) -> Q (Ok s) (w <| status_file := Some s |>) ->
  wp accounted (let? _ := saveStatus s in Ret (Ok s)) Q w.
Proof.
  intros Ha Hs He Hok. apply wp_bind_ok, wp_save_status; [done|done|]. intros _. split; [done|].
  intros [[]|e]; [by apply wp_ret|done].
Qed.

Definition entry_state (v : world) (current : option CredentialStatus.t) : Prop := load_post (Ok current) v.

Lemma wp_prepare w policy request m a bytes current :
  accounted w -> entry_state w current -> wp accounted (prepare executorVersion policy request m a bytes current) any w.
Proof.
  intros Ha Hc. unfold prepare. destruct (_ !=? _)%Z; [by apply wp_ret|].
  destruct current as [s|]; [destruct (_ && _); by apply wp_ret|]. destruct Hc as (_ & Hs & _).
  apply wp_bind_ok, wp_stat; [done|done|]. cbn [file_of]. rewrite Hs. cbn [set].
  apply wp_bind_ok, wp_ret; [done|]. destruct (Policy_SHA256 policy) as [h|]; [|done].
  apply wp_bind, wp_call; [done|]. intros ans now v E. cbn in E. destruct ans; try discriminate E.
  injection E as <- <-. split; [done|]. apply wp_save_return; [done|by apply accounted_no_staged|done|done].
Qed.

(** The staged slot holds the claimed identity or nothing. *)
Lemma wp_staged_slot_ready w data (Q : result err bool -> world -> Prop) :
  accounted w -> (forall e, Q (Err e) w) -> (staged w = None -> Q (Ok false) w) ->
  (staged w = Some data -> Q (Ok true) w) -> wp accounted (staged_slot_ready data) Q w.
Proof.
  intros Ha He Hn Hs. apply wp_bind_ok, wp_stat; [done|done|]. cbn [file_of].
  destruct (staged w) as [data'|] eqn:E; cbn [set negb]; [|apply wp_ret; auto].
  apply wp_bind_ok, wp_load_identity; [done|done|]. cbn [file_of]. intros c d Ed _. rewrite E in Ed. injection Ed as ->.
  apply wp_bind_ok, wp_require; [done|done|]. intros Eb. bool_to_prop. subst. apply wp_ret; auto.
Qed.

Lemma wp_install_staged w data b s :
  accounted w -> bound w s -> CredentialStatus.Phase s <> PhaseClaimPrepared ->
  runtimeCredentialDigest data = CredentialStatus.StagedIdentitySHA256 s ->
  wp accounted (install_staged data b s)
    (fun r v => match r with Ok s' => bound v s' /\ CredentialStatus.Phase s' <> PhaseClaimPrepared | Err _ => True end) w.
Proof.
  intros Ha Hb Hp Hd. unfold install_staged.
  assert (Hrest : forall v, accounted v -> bound v s ->
    wp accounted (let? (c, verified) := loadIdentity StagedSlot in let? _ := require (verified ==? data) in
      if CredentialStatus.Phase s ==? PhaseStageBound then
        let s := s <| CredentialStatus.Phase := PhaseStaged |> in let? _ := saveStatus s in Ret (Ok s)
      else Ret (Ok s))
    (fun r v => match r with Ok s' => bound v s' /\ CredentialStatus.Phase s' <> PhaseClaimPrepared | Err _ => True end) v).
  { intros v Hv Hbv. apply wp_bind_ok, wp_load_identity; [done|done|]. intros c d _ _.
    apply wp_bind_ok, wp_require; [done|done|]. intros _. destruct (_ ==? _); [|by apply wp_ret].
    cbn zeta. set (s' := s <| CredentialStatus.Phase := PhaseStaged |>).
    destruct (bound_save v s s' Hv Hbv eq_refl) as [Hv' Hb']; [done|]. by apply wp_save_return. }
  apply wp_bind_ok. destruct b; [apply wp_ret; auto|].
  unfold writeStagedIdentity. apply wp_bind_ok, wp_require; [done|done|]. intros _.
  apply wp_bind_ok, wp_stat; [done|done|]. destruct (set _); [by apply wp_ret|].
  assert (Hv : accounted (w <| staged := Some data |>)).
  { destruct Hb as (f & Ef & Hpf & Edf). split; [|apply Ha]. cbn. intros ? [= <-]. exists f. by rewrite Edf. }
  apply (wp_effect accounted w Ha _ ErrUnavailable (w <| staged := Some data |>)); [done|done|done|].
  intros [[]|e]; [|done]. by apply Hrest.
Qed.

Lemma wp_acknowledge w url m s :
  accounted w -> bound w s -> wp accounted (acknowledge url m s) any w.
Proof.
  intros Ha Hb. unfold acknowledge. apply wp_bind_ok, wp_slot_digest; [done|done|]. intros data _.
  apply wp_bind_ok, wp_require; [done|done|]. intros _. apply wp_bind_ok, wp_call; [done|]. intros ans x v E.
  assert (v = w) as -> by (cbn in E; destruct ans; try discriminate E; by injection E as _ <-).
  split; [done|]. destruct x as [rotation|e]; [|done]. destruct (negb _); [by apply wp_ret|]. cbn zeta.
  apply wp_save_return; try done. by eapply bound_save.
Qed.

(** The claim is on record, with its digest, before the secret is written. *)
Lemma wp_bind_claim w policy request m a bytes data token current :
  accounted w -> entry_state w current -> (staged w = None \/ staged w = Some data) ->
  stage_entry m current = Ok true ->
  (forall s, already_bound current = Some s -> CredentialStatus.StagedIdentitySHA256 s = runtimeCredentialDigest data) ->
  wp accounted (bind_claim executorVersion policy request m a bytes (runtimeCredentialDigest data) token current)
    (fun r v => match r with
                | Ok s => bound v s /\ CredentialStatus.Phase s <> PhaseClaimPrepared /\
                          CredentialStatus.StagedIdentitySHA256 s = runtimeCredentialDigest data
                | Err _ => True
                end) w.
Proof.
  intros Ha Hc Hs He Hd. unfold bind_claim. destruct (already_bound current) as [s|] eqn:Eb.
  { unfold already_bound in Eb. destruct current as [s'|]; [|done]. destruct (one_of_strings _ _) eqn:Eo; [|done].
    injection Eb as ->. assert (Hp : CredentialStatus.Phase s <> PhaseClaimPrepared) by (intros E; by rewrite E in Eo).
    apply wp_ret; [done|]. split_and!; auto. by apply reconciled_bound. }
  assert (Hend : forall v s, accounted v -> staged v = staged w -> CredentialStatus.Phase s <> PhaseClaimPrepared ->
    CredentialStatus.StagedIdentitySHA256 s = runtimeCredentialDigest data ->
    wp accounted (let? _ := saveStatus s in Ret (Ok s)) (fun r v => match r with
                | Ok s => bound v s /\ CredentialStatus.Phase s <> PhaseClaimPrepared /\
                          CredentialStatus.StagedIdentitySHA256 s = runtimeCredentialDigest data
                | Err _ => True
                end) v).
  { intros v s Hv Ev Hp Es. apply wp_save_return; [done| |done|split_and!; try done; by exists s].
    split; [|done]. cbn. intros d Ed. exists s. rewrite Ev in Ed. destruct Hs as [Hs|Hs]; rewrite Hs in Ed; [done|].
    injection Ed as <-. by rewrite Es. }
  apply wp_bind_ok. destruct current as [s|].
  - apply wp_ret; [done|]. apply Hend; [exact Ha|reflexivity|done|reflexivity].
  - apply wp_bind, wp_call; [done|]. intros ans now v E. cbn in E. destruct ans; try discriminate E.
    injection E as <- <-. split; [done|]. apply wp_bind_ok, wp_ret; [done|].
    destruct (Policy_SHA256 policy) as [h|]; [|done]. apply wp_ret; [done|]. by apply Hend.
Qed.

Lemma wp_stage_claim w policy url request m a bytes current :
  accounted w -> entry_state w current -> stage_entry m current = Ok true ->
  wp accounted (stage_claim executorVersion policy url request m a bytes current) any w.
Proof.
  intros Ha Hc Ee. unfold stage_claim. destruct (_ ==? _); [by apply wp_ret|].
  destruct (marshalIdentity _) as [data|]; [|by apply wp_ret]. destruct (data ==? bytes); [by apply wp_ret|]. cbn zeta.
  destruct (match already_bound current with Some _ => _ | None => _ end) eqn:Er; [by apply wp_ret|].
  apply wp_bind_ok, wp_require_no_wiping; [done|done|]. intros _.
  assert (Hrest : forall b, (staged w = None \/ staged w = Some data) ->
    wp accounted (let? s := bind_claim executorVersion policy request m a bytes (runtimeCredentialDigest data)
                    (runtimeCredentialTokenDigest (Mutation.RuntimeToken m)) current in
                  let? s := install_staged data b s in acknowledge url m s) any w).
  { intros b Hs. apply wp_bind_ok. eapply wp_mono; [|apply wp_bind_claim; try done].
    - intros [s|e] v Hv Hr; [|done]. destruct Hr as (Hb & Hp & Hd). apply wp_bind_ok.
      eapply wp_mono; [|by apply wp_install_staged]. intros [s'|e] u Hu Hr; [|done]. apply wp_acknowledge; tauto.
    - intros s Eb. rewrite Eb in Er. unfold replay_changed in Er. by bool_to_prop. }
  apply wp_bind_ok, wp_staged_slot_ready; [done|done|auto|auto].
Qed.

Lemma wp_stage w policy url request m a bytes current :
  accounted w -> entry_state w current -> wp accounted (stage executorVersion policy url request m a bytes current) any w.
Proof.
  intros Ha Hc. unfold stage. destruct (_ !=? _)%Z; [by apply wp_ret|].
  destruct (stage_entry m current) as [[]|e] eqn:Ee; [|destruct current; [by apply wp_ret|done]|by apply wp_ret].
  by destruct current; apply wp_stage_claim.
Qed.

Lemma wp_proof_ready w m current :
  accounted w -> entry_state w current -> wp accounted (markProofReady m current) any w.
Proof.
  intros Ha Hc. unfold markProofReady. destruct current as [s|]; [|by apply wp_ret].
  destruct ((CredentialStatus.Phase s ==? _) || _); [destruct (_ !=? _); by apply wp_ret|].
  destruct (_ || _) eqn:Eb; [by apply wp_ret|]. bool_to_prop.
  apply wp_bind_ok, wp_slot_digest; [done|done|]. intros data _. apply wp_bind_ok, wp_require; [done|done|]. intros _.
  cbn zeta. apply wp_save_return; try done. eapply (bound_save w s); try done.
  apply reconciled_bound; [done|]. match goal with E : CredentialStatus.Phase s = _ |- _ => by rewrite E end.
Qed.

(** Saving [s'] and then destroying the staged secret. *)
Lemma wp_save_wipe w s s' d :
  accounted w -> bound w s -> CredentialStatus.StagedIdentitySHA256 s' = CredentialStatus.StagedIdentitySHA256 s ->
  CredentialStatus.Phase s' <> PhaseClaimPrepared ->
  wp accounted (let? _ := saveStatus s' in let? _ := wipeAndRemoveIdentity d in Ret (Ok s')) any w.
Proof.
  intros Ha Hb Ed Hp. destruct (bound_save w s s' Ha Hb Ed Hp) as [Hv _]. apply wp_bind_ok, wp_save_status; [done|done|].
  intros _. split; [done|]. intros [[]|e]; [|done]. apply wp_bind_ok, wp_wipe; [done| |done].
  intros v Hu _ _ _. by apply wp_ret.
Qed.

Lemma bound_same w v s : bound w s -> status_file v = status_file w -> bound v s.
Proof. intros (f & Ef & Hf) E. exists f. by rewrite E. Qed.

Lemma kept_status {X} (o : op X) ans x w v :
  keeps_ledger o -> handle o ans w = Some (x, v) -> status_file v = status_file w.
Proof.
  intros Ho E. destruct o; try done; cbn in E;
    repeat match goal with
    | E : observe _ _ _ = _ |- _ => apply observe_cases in E; by subst
    | E : effect _ _ _ _ = _ |- _ => apply effect_cases in E as [[-> | ->] _]; done
    | E : match ?x with _ => _ end = _ |- _ => destruct x; try discriminate E
    | E : Some _ = Some _ |- _ => by injection E as _ <-
    end.
Qed.

(** An operation that keeps the ledger, in the middle of a handler. *)
Lemma wp_kept {A} (o : op (result err A)) w (Q : result err A -> world -> Prop) :
  keeps_ledger o -> accounted w -> (forall e v, accounted v -> Q (Err e) v) ->
  (forall a v, accounted v -> status_file v = status_file w -> Q (Ok a) v) -> wp accounted (call o) Q w.
Proof.
  intros Ho Ha He Hok. apply wp_call; [done|]. intros ans x v E. pose proof (accounted_kept _ _ _ _ _ Ho Ha E) as Hv.
  split; [done|]. destruct x as [a|e]; [|auto]. apply Hok; [done|]. by eapply kept_status.
Qed.

Lemma wp_activate w url m current :
  accounted w -> entry_state w current -> wp accounted (activateCredential url m current) any w.
Proof.
  intros Ha Hc. unfold activateCredential. destruct current as [s|]; [|by apply wp_ret].
  destruct (CredentialStatus.Phase s ==? _); [by apply wp_ret|]. destruct (_ || _) eqn:Eb; [by apply wp_ret|].
  bool_to_prop. assert (Hp : CredentialStatus.Phase s <> PhaseClaimPrepared)
    by (match goal with E : CredentialStatus.Phase s = _ |- _ => by rewrite E end).
  pose proof (reconciled_bound w s Hc Hp) as Hb.
  apply wp_bind_ok, wp_load_identity; [done|done|]. intros c data _ _. apply wp_bind_ok, wp_require; [done|done|]. intros _.
  apply wp_bind_ok, wp_kept; [done|done|done|]. intros rotation w1 Hw1 E1. destruct (negb _); [by apply wp_ret|].
  apply wp_bind_ok, wp_kept; [done|done|done|]. intros _ w2 Hw2 E2. unfold writeActiveIdentity.
  apply wp_bind_ok, wp_bind_ok, wp_require; [done|done|]. intros _. apply wp_bind_ok, wp_stat; [done|done|].
  apply wp_kept; [done|done|done|]. intros _ w3 Hw3 E3.
  apply wp_bind_ok, wp_kept; [done|done|done|]. intros _ w4 Hw4 E4.
  apply wp_bind_ok, wp_slot_digest; [done|done|]. intros d _. apply wp_bind_ok, wp_require; [done|done|]. intros _. cbn zeta.
  apply (wp_save_wipe w4 s); [done| |done|done]. apply (bound_same w); [done|congruence].
Qed.

Lemma wp_remove w (s : CredentialStatus.t) : accounted w -> staged w = None -> wiping w = None ->
  wp accounted (let? _ := removeState in Ret (Ok s)) any w.
Proof.
  intros Ha Hs Hw. apply wp_bind_ok, (wp_effect accounted w Ha _ ErrOther (w <| status_file := None |>)); [done|done| |].
  - split; cbn; [congruence|done].
  - intros [[]|e]; [|done]. apply wp_ret; [|done]. split; cbn; [congruence|done].
Qed.

Lemma wp_cancel w m current :
  accounted w -> entry_state w current -> wp accounted (cancel m current) any w.
Proof.
  intros Ha Hc. unfold cancel. destruct current as [s|]; [|by apply wp_ret]. cbn zeta.
  repeat match goal with |- wp _ (if ?b then _ else _) _ _ => destruct b eqn:? end; try (by apply wp_ret); bool_to_prop.
  - destruct Hc as (f & _ & _ & _ & _ & _ & Hend).
    destruct Hend as [Hs Hw]; [done|]. by apply wp_remove.
  - apply wp_bind_ok, wp_require_active; [done|done|]. intros _ _ _. destruct (decide (staged w = None)) as [Hs|Hs].
    + set (s' := previous_active _). pose proof (accounted_no_staged w s' Hs) as Hv.
      apply wp_bind_ok, wp_save_status; [done|done|]. intros _. split; [done|]. intros [[]|e]; [|done].
      apply wp_bind_ok, wp_wipe; [done| |done]. intros v Hu _ _ _. by apply wp_ret.
    + apply (wp_save_wipe w s); [done| |done|done]. apply reconciled_bound; [done|].
      intros E. apply Hs. destruct Hc as (f & _ & _ & _ & _ & Hn & _). auto.
Qed.

Lemma wp_finalize w m current :
  accounted w -> entry_state w current -> wp accounted (finalize m current) any w.
Proof.
  intros Ha Hc. unfold finalize. destruct current as [s|]; [|by apply wp_ret]. destruct (_ || _); [by apply wp_ret|].
  apply wp_bind_ok, wp_require_active; [done|done|]. intros _ _ _.
  apply wp_bind, wp_cleanup_complete; [done|by apply wp_ret|]. intros Hs Hw. by apply wp_remove.
Qed.

Lemma wp_dispatch w policy url request m a bytes current :
  accounted w -> entry_state w current ->
  wp accounted (dispatch executorVersion policy url request m a bytes current) any w.
Proof.
  intros Ha Hc. unfold dispatch. cbn zeta.
  destruct (_ ==? _); [by apply wp_prepare|]. destruct (_ ==? _); [by apply wp_stage|].
  destruct (_ ==? _); [by apply wp_proof_ready|]. destruct (_ ==? _); [by apply wp_activate|].
  destruct (_ ==? _); [by apply wp_cancel|]. destruct (_ ==? _); [by apply wp_finalize|by apply wp_ret].
Qed.

Lemma wp_mutate w policy url request current :
  accounted w -> entry_state w current -> wp accounted (mutate executorVersion policy url request current) any w.
Proof.
  intros Ha Hc. unfold mutate. destruct (CredentialRequest.RuntimeCredential request) as [m|]; [|by apply wp_ret].
  destruct (_ || _); [by apply wp_ret|]. apply wp_bind, wp_load_identity; [done|by intros e; apply wp_ret|].
  intros a data _ _. destruct (_ || _); [by apply wp_ret|].
  apply wp_bind, wp_bind_ok. eapply wp_mono; [|by apply wp_dispatch]. intros [s|e] v Hv _; [|by apply wp_ret].
  apply wp_bind_ok, wp_kept; [done|done|by intros e u Hu; apply wp_ret|]. intros _ u Hu _. by apply wp_ret; [|apply wp_ret].
Qed.

Lemma wp_handle w policy request :
  accounted w -> wp accounted (handleLocalExecutorRuntimeCredential executorVersion policy request) any w.
Proof.
  intros Ha. unfold handleLocalExecutorRuntimeCredential. destruct (is_err _); [by apply wp_ret|].
  destruct (PanelURL policy) as [url|]; [|by apply wp_ret]. destruct (_ || _); [by apply wp_ret|].
  apply wp_bind, wp_kept; [done|done|by intros e v Hv; apply wp_ret|]. intros [] v Hv _. cbn [is_err].
  apply wp_bind. eapply wp_mono; [|by apply wp_reconcile_status]. intros [current|e] u Hu Hc; [|by apply wp_ret].
  destruct (_ ==? _); [by apply wp_ret|by apply wp_mutate].
Qed.

Lemma wp_expiry w : accounted w -> wp accounted reconcileRuntimeCredentialExpiry any w.
Proof.
  intros Ha. apply wp_bind_ok, wp_kept; [done|done|done|]. intros _ v Hv _. apply wp_bind_ok.
  eapply wp_mono; [|by apply wp_reconcile_status]. intros [current|e] u Hu _; [|done]. by apply wp_kept.
Qed.

(** Binding in an emergency: afterwards the status on disk is the one returned. *)
Lemma wp_emergency_bind w url s :
  accounted w -> status_file w = Some s ->
  wp accounted (emergency_bind url s) (fun r v => match r with Ok s' => status_file v = Some s' | Err _ => True end) w.
Proof.
  intros Ha Es. unfold emergency_bind. apply wp_bind_ok.
  assert (Hrest : wp accounted (if CredentialStatus.Phase s ==? PhaseStageBound then
      let? (s, ex) := bindStageBoundInstalledIdentity s url in Ret (Ok s) else Ret (Ok s))
      (fun r v => match r with Ok s' => status_file v = Some s' | Err _ => True end) w).
  { destruct (_ ==? _) eqn:Ep; [|by apply wp_ret]. bool_to_prop. unfold bindStageBoundInstalledIdentity.
    apply wp_bind_ok, wp_bind_ok, wp_require; [done|done|]. intros _.
    apply wp_bind_ok, wp_require_no_wiping; [done|done|]. intros _. apply wp_bind_ok, wp_stat; [done|done|].
    destruct (set _); cbn [negb]; [|by apply wp_ret; [|apply wp_ret]].
    apply wp_bind_ok, wp_load_identity; [done|done|]. intros c data _ _. apply wp_bind_ok, wp_require; [done|done|].
    intros _. apply wp_bind_ok, wp_save_status; [done|done|]. intros _. cbn zeta.
    set (s' := s <| CredentialStatus.Phase := PhaseStaged |>).
    assert (Hv : accounted (w <| status_file := Some s' |>)) by (by apply (accounted_save w s)).
    split; [done|]. intros [[]|e]; [|done]. by apply wp_ret; [|apply wp_ret]. }
  destruct (CredentialStatus.Phase s ==? PhaseClaimPrepared) eqn:Ep; [|by apply wp_ret]. bool_to_prop.
  assert (Hn : staged w = None).
  { destruct (staged w) as [data|] eqn:E; [|done]. destruct (proj1 Ha data E) as (f & Ef & Hp & _). congruence. }
  unfold bindClaimPreparedStagedIdentity. apply wp_bind_ok, wp_bind_ok, wp_require; [done|done|]. intros _.
  apply wp_bind_ok, wp_require_no_wiping; [done|done|]. intros _. apply wp_bind_ok, wp_stat; [done|done|].
  cbn [file_of]. rewrite Hn. by apply wp_ret; [|apply wp_ret].
Qed.

Lemma wp_emergency_cleanup w d s :
  accounted w -> wp accounted (let? _ := finishEmergencyStagedCleanup d in Ret (Ok (s : CredentialStatus.t))) any w.
Proof.
  intros Ha. apply wp_bind_ok, wp_bind_ok, wp_kept; [done|done|done|]. intros _ v Hv _.
  apply wp_bind_ok, wp_wipe; [done| |done]. intros u Hu _ _ _. apply wp_kept; [done|done|done|].
  intros _ u' Hu' _. by apply wp_ret.
Qed.

Lemma wp_emergency_due w s (Q : result err unit -> world -> Prop) :
  accounted w -> (forall e, Q (Err e) w) -> Q (Ok tt) w -> wp accounted (emergency_due s) Q w.
Proof.
  intros Ha He Hok. unfold emergency_due. cbn zeta. destruct (one_of_strings _ _); [by apply wp_ret|].
  destruct (one_of_strings _ _); [|by apply wp_ret]. apply wp_bind, wp_call; [done|]. intros ans now v E.
  cbn in E. destruct ans; try discriminate E. injection E as <- <-. split; [done|]. by apply wp_require.
Qed.

Lemma wp_recover w policy rotationID :
  accounted w -> wp accounted (recoverAfterEmergencyManualReconfigure policy rotationID) any w.
Proof.
  intros Ha. unfold recoverAfterEmergencyManualReconfigure. destruct (PanelURL policy) as [url|]; [|by apply wp_ret].
  destruct (_ || _); [by apply wp_ret|]. apply wp_bind_ok, wp_kept; [done|done|done|]. intros _ v Hv _.
  apply wp_bind_ok, wp_load_status; [done|done|by intros; apply wp_ret|]. intros s Es _.
  destruct (emergency_mismatch _ _ _); [by apply wp_ret|]. apply wp_bind_ok.
  eapply wp_mono; [|by apply wp_emergency_bind]. intros [s'|e] u Hu Es'; [|done].
  apply wp_bind_ok, wp_kept; [done|done|done|]. intros _ u1 Hu1 E1.
  apply wp_bind_ok, wp_load_identity; [done|done|]. intros a data _ _. apply wp_bind_ok, wp_require; [done|done|]. intros _.
  cbn zeta. destruct (_ ==? _).
  - apply wp_bind_ok, wp_require; [done|done|]. intros _. by apply wp_emergency_cleanup.
  - apply wp_bind_ok, wp_emergency_due; [done|done|]. apply wp_bind_ok, wp_require; [done|done|]. intros _.
    apply wp_bind_ok, wp_kept; [done|done|done|]. intros _ u2 Hu2 E2. set (s2 := s' <| CredentialStatus.Phase := _ |> <| _ := _ |> <| _ := _ |>).
    assert (Hv2 : accounted (u2 <| status_file := Some s2 |>)) by (apply (accounted_save u2 s'); [done|congruence|done|done]).
    apply wp_bind_ok, wp_save_status; [done|done|]. intros _. split; [done|]. intros [[]|e]; [|done].
    by apply wp_emergency_cleanup.
Qed.

(** ** What reaches the active slot *)

(** Operations that neither replace the active identity nor ask for an activation. *)
#[local] Create HintDb quiet.

Definition quiet (X : Type) (o : op X) : Prop :=
  match o with WriteActive _ | InstallIdentity _ | Activate _ _ _ _ => False | _ => True end.

Ltac quiet_walk := unfold require_no_wiping; unfold require, stat, fail; cbn zeta;
  repeat first [match goal with |- quiet _ _ => exact I end | solve [auto with quiet nocore] | only_step].

Lemma quiet_load_identity s : only quiet (loadIdentity s).
Proof. unfold loadIdentity. quiet_walk. Qed.
#[local] Hint Resolve quiet_load_identity : quiet.

Lemma quiet_slot_digest s : only quiet (slot_digest s).
Proof. unfold slot_digest. quiet_walk. Qed.
#[local] Hint Resolve quiet_slot_digest : quiet.

Lemma quiet_require_active d : only quiet (require_active d).
Proof. unfold require_active. quiet_walk. Qed.

Lemma quiet_save s : only quiet (saveStatus s).
Proof. unfold saveStatus. quiet_walk. Qed.

Lemma quiet_wipe d : only quiet (wipeAndRemoveIdentity d).
Proof. unfold wipeAndRemoveIdentity. quiet_walk. Qed.
#[local] Hint Resolve quiet_require_active quiet_save quiet_wipe : quiet.

Lemma quiet_expire s b : only quiet (expire_if_due s b).
Proof. unfold expire_if_due. quiet_walk. Qed.

Lemma quiet_bind_claim_prepared s url : only quiet (bindClaimPreparedStagedIdentity s url).
Proof. unfold bindClaimPreparedStagedIdentity. quiet_walk. Qed.

Lemma quiet_bind_stage_bound s url : only quiet (bindStageBoundInstalledIdentity s url).
Proof. unfold bindStageBoundInstalledIdentity. quiet_walk. Qed.
#[local] Hint Resolve quiet_expire quiet_bind_claim_prepared quiet_bind_stage_bound : quiet.

Lemma quiet_orphans : only quiet cleanupExpiredOrphanedStagedIdentity.
Proof. unfold cleanupExpiredOrphanedStagedIdentity. quiet_walk. Qed.
#[local] Hint Resolve quiet_orphans : quiet.

Lemma quiet_reconcile : only quiet loadAndReconcileStatus.
Proof.
  unfold loadAndReconcileStatus, loadStatus, reconcile_claim_prepared, reconcile_stage_bound, reconcile_staged,
    reconcile_local_staged, reconcile_cancel_ready, reconcile_terminal, identityCleanupComplete. quiet_walk.
Qed.
#[local] Hint Resolve quiet_reconcile : quiet.

Lemma quiet_stage policy url request m a bytes current :
  only quiet (stage executorVersion policy url request m a bytes current).
Proof.
  unfold stage, stage_claim, staged_slot_ready, bind_claim, install_staged, acknowledge, policy_digest, writeStagedIdentity.
  quiet_walk.
Qed.

Lemma quiet_recover policy rotationID : only quiet (recoverAfterEmergencyManualReconfigure policy rotationID).
Proof.
  unfold recoverAfterEmergencyManualReconfigure, loadStatus, emergency_bind, emergency_due, finishEmergencyStagedCleanup.
  quiet_walk.
Qed.
#[local] Hint Resolve quiet_stage quiet_recover : quiet.

Section Active.
Context (w0 : world).

(** The Panel was asked with a status on disk that is ready, about the token of the
    identity on record. *)
Definition asked_ok (request : string * option CredentialStatus.t) : Prop := exists s data c,
  request.2 = Some s /\ CredentialStatus.Phase s = PhaseProofReady /\
  runtimeCredentialDigest data = CredentialStatus.StagedIdentitySHA256 s /\
  decodeIdentity data = Ok c /\ Identity.RuntimeToken c = request.1.

(** The Panel's answer [r] says that the rotation of the status [s] is activated. *)
Definition says_activated (r : Rotation.t) (s : CredentialStatus.t) : Prop :=
  Rotation.Status r = "activated" /\ Rotation.Revision r = (CredentialStatus.RotationRevision s + 1)%Z /\
  Rotation.ID r = CredentialStatus.RotationID s /\ Rotation.ServiceID r = CredentialStatus.ServiceID s /\
  Rotation.ExecutionHostID r = CredentialStatus.ExecutionHostID s /\
  Rotation.PreviousTokenID r = CredentialStatus.PreviousTokenID s /\
  Rotation.StagedTokenID r = CredentialStatus.StagedTokenID s.

(** The Panel has activated [token], under a proof-ready status on disk that records the
    identity with the digest [digest]. *)
Definition panel_activated (token digest : string) (w : world) : Prop := exists r s,
  (token, r, Some s) ∈ answered w /\ says_activated r s /\
  CredentialStatus.Phase s = PhaseProofReady /\ CredentialStatus.StagedIdentitySHA256 s = digest.

Definition guarded_active (w : world) : Prop :=
  (active w = active w0 \/
   (exists data, active w = Some data /\ data ∈ installed w) \/
   exists data c, active w = Some data /\ decodeIdentity data = Ok c /\
     panel_activated (Identity.RuntimeToken c) (runtimeCredentialDigest data) w) /\
  exists new, asked w = (asked w0 ++ new)%list /\ Forall asked_ok new.

Lemma guarded_quiet X (o : op X) ans x w w' :
  quiet X o -> guarded_active w -> handle o ans w = Some (x, w') -> guarded_active w'.
Proof.
  intros Ho Hg E. destruct o; try done; cbn in E;
    repeat match goal with
    | E : observe _ _ _ = _ |- _ => apply observe_cases in E; by subst
    | E : effect _ _ _ _ = _ |- _ => apply effect_cases in E as [[-> | ->] _]; done
    | E : match ?x with _ => _ end = _ |- _ => destruct x; try discriminate E
    | E : Some _ = Some _ |- _ => by injection E as _ <-
    end.
Qed.

Lemma panel_activated_grows w v token digest :
  (forall y, y ∈ answered w -> y ∈ answered v) -> panel_activated token digest w -> panel_activated token digest v.
Proof. intros Hi (r & s & Hin & Hr). exists r, s. auto. Qed.

Lemma transition_says_activated r s :
  panel_transition_ok r s "activated" (CredentialStatus.RotationRevision s + 1) = true -> says_activated r s.
Proof. unfold panel_transition_ok, says_activated. intros Hp. bool_to_prop. done. Qed.

Lemma wp_quiet {A} (p : prog op A) w : only quiet p -> guarded_active w -> wp guarded_active p (fun _ => guarded_active) w.
Proof. apply wp_only. apply guarded_quiet. Qed.

Lemma wp_active w url m current :
  guarded_active w -> entry_state w current -> wp guarded_active (activateCredential url m current) any w.
Proof.
  intros Hg Hc. unfold activateCredential. destruct current as [s|]; [|by apply wp_ret].
  destruct (CredentialStatus.Phase s ==? _); [by apply wp_ret|]. destruct (_ || _) eqn:Eb; [by apply wp_ret|].
  bool_to_prop. assert (Ep : CredentialStatus.Phase s = PhaseProofReady) by done.
  assert (Es : status_file w = Some s).
  { destruct Hc as (f & Ef & _ & Hf & _). rewrite Ep in Hf. destruct Hf as [-> |[Hf|Hf]]; done. }
  apply wp_bind_ok, wp_load_identity; [done|done|]. intros c data _ Ec. apply wp_bind_ok, wp_require; [done|done|].
  intros Er. bool_to_prop. apply wp_bind_ok, wp_call; [done|]. intros ans x v E.
  destruct Hg as [Hact (new & Enew & Hnew)].
  assert (Hv : guarded_active v /\ forall r, x = Ok r -> (Identity.RuntimeToken c, r, Some s) ∈ answered v).
  { assert (Hask : exists new', (asked w ++ [(Identity.RuntimeToken c, status_file w)] = asked w0 ++ new')%list /\
                     Forall asked_ok new').
    { exists (new ++ [(Identity.RuntimeToken c, status_file w)])%list. rewrite Enew, <- app_assoc. split; [done|].
      apply Forall_app_2; [done|]. apply Forall_singleton. by exists s, data, c. }
    cbn in E. destruct ans; try discriminate E; injection E as <- <-; (split; [split; [|exact Hask]|]); try done; cbn; try done.
    - destruct Hact as [Hact|[Hact|(d & c' & Ed & Ec' & Hin)]]; [by left|by right; left|]. right; right.
      exists d, c'. split_and!; try done. apply (panel_activated_grows w); [|done]. intros y Hy. apply elem_of_app. by left.
    - intros r' [= <-]. rewrite Es. apply elem_of_app. right. by apply list_elem_of_singleton. }
  destruct Hv as [Hv Hin]. split; [done|]. destruct x as [rotation|e]; [|done]. specialize (Hin rotation eq_refl).
  destruct (negb (panel_transition_ok _ _ _ _)) eqn:Ept; [by apply wp_ret|]. apply negb_false_iff, transition_says_activated in Ept.
  apply wp_bind_ok, (wp_look guarded_active v Hv (Ok tt)); [done|done|].
  unfold writeActiveIdentity. apply wp_bind_ok, wp_bind_ok, wp_require; [done|done|]. intros _.
  apply wp_bind_ok, wp_stat; [done|done|].
  assert (Hu : guarded_active (v <| active := Some data |>)).
  { split; [|apply Hv]. right; right. exists data, c. split; [done|]. split; [done|]. by exists rotation, s. }
  apply (wp_effect guarded_active v Hv _ ErrUnavailable (v <| active := Some data |>)); [done|done|done|].
  intros [[]|e]; [|done]. eapply wp_mono; [|apply wp_quiet; [|done]; quiet_walk]. done.
Qed.

Lemma wp_active_mutate w policy url request current :
  guarded_active w -> entry_state w current -> wp guarded_active (mutate executorVersion policy url request current) any w.
Proof.
  intros Hg Hc. unfold mutate. destruct (CredentialRequest.RuntimeCredential request) as [m|]; [|by apply wp_ret].
  destruct (_ || _); [by apply wp_ret|]. apply wp_bind, wp_load_identity; [done|by intros e; apply wp_ret|].
  intros a data _ _. destruct (_ || _); [by apply wp_ret|]. apply wp_bind, wp_bind_ok.
  eapply (wp_mono _ _ any).
  - intros [s|e] v Hv _; [|by apply wp_ret]. apply wp_bind_ok, (wp_look guarded_active v Hv (Ok tt)); [done| |].
    + intros e. by apply wp_ret.
    + by apply wp_ret; [|apply wp_ret].
  - unfold dispatch. cbn zeta. do 3 (destruct (_ ==? _);
      [eapply wp_mono; [|apply wp_quiet; [unfold prepare, markProofReady, policy_digest; quiet_walk|done]]; done|]).
    destruct (_ ==? _); [by apply wp_active|].
    eapply wp_mono; [|apply wp_quiet; [unfold cancel, finalize, removeState, identityCleanupComplete; quiet_walk|done]]; done.
Qed.

Lemma wp_active_handle w policy request :
  accounted w -> guarded_active w ->
  wp (fun v => accounted v /\ guarded_active v) (handleLocalExecutorRuntimeCredential executorVersion policy request) any w.
Proof.
  intros Ha Hg. unfold handleLocalExecutorRuntimeCredential. set (I := fun v => accounted v /\ guarded_active v).
  assert (HI : I w) by done. destruct (is_err _); [by apply wp_ret|].
  destruct (PanelURL policy) as [url|]; [|by apply wp_ret]. destruct (_ || _); [by apply wp_ret|].
  apply wp_bind, (wp_look I w HI (Ok tt)); [done|by intros e; apply wp_ret|]. cbn [is_err].
  apply wp_bind. eapply wp_mono; [|apply wp_and; [by apply wp_reconcile_status|by apply wp_quiet; [apply quiet_reconcile|]]].
  intros [current|e] u Hu [Hc _]; [|by apply wp_ret]. destruct Hu as [Hu Hgu].
  destruct (_ ==? _); [by apply wp_ret|]. eapply wp_mono; [|apply wp_and; [by apply wp_mutate|by apply wp_active_mutate]]. done.
Qed.
End Active.

(** ** Histories *)

(** One activation of the service: a request, an expiry run, the operator's replacement
    of the identity, or the operator's recovery after an emergency. *)
Inductive token_entry : prog op unit -> Prop :=
| entry_request policy request :
    token_entry (let* _ := handleLocalExecutorRuntimeCredential executorVersion policy request in Ret tt)
| entry_expiry : token_entry (let* _ := reconcileRuntimeCredentialExpiry in Ret tt)
| entry_install data : token_entry (let* _ := call (InstallIdentity data) in Ret tt)
| entry_recover policy rotationID :
    token_entry (let* _ := recoverAfterEmergencyManualReconfigure policy rotationID in Ret tt).

Lemma wp_discard {A} (I : world -> Prop) (p : prog op A) w :
  wp I p any w -> wp I (let* _ := p in Ret tt) (fun _ _ => True) w.
Proof. intros Hp. apply wp_bind. eapply wp_mono; [|exact Hp]. intros a v Hv _. by apply wp_ret. Qed.

Lemma entry_accounted p w : token_entry p -> accounted w -> wp accounted p (fun _ _ => True) w.
Proof.
  intros Hp Ha. destruct Hp; apply wp_discard; [by apply wp_handle|by apply wp_expiry|by apply wp_kept|by apply wp_recover].
Qed.

Lemma wp_operator_install w0 data w :
  accounted w -> guarded_active w0 w ->
  wp (fun v => accounted v /\ guarded_active w0 v) (call (InstallIdentity data)) any w.
Proof.
  intros Ha Hg. apply wp_call; [done|]. intros ans x v E. pose proof (accounted_kept (InstallIdentity data) _ _ _ _ I Ha E) as Hv.
  cbn in E. apply effect_cases in E as [[-> | ->] _]; (split; [|done]); [|done]. split; [done|]. split; [|apply Hg].
  right; left. exists data. split; [done|]. cbn. apply elem_of_app. right. by apply list_elem_of_singleton.
Qed.

Lemma entry_guarded w0 p w :
  token_entry p -> accounted w /\ guarded_active w0 w ->
  wp (fun v => accounted v /\ guarded_active w0 v) p (fun _ _ => True) w.
Proof.
  intros Hp [Ha Hg].
  assert (Hquiet : forall A (q : prog op A), only quiet q -> wp accounted q any w ->
    wp (fun v => accounted v /\ guarded_active w0 v) q any w).
  { intros A q Hq Hw. eapply wp_mono; [|apply wp_and; [exact Hw|by apply wp_quiet]]. done. }
  destruct Hp; apply wp_discard; [by apply wp_active_handle| | |].
  - apply Hquiet; [|by apply wp_expiry]. unfold reconcileRuntimeCredentialExpiry. quiet_walk.
  - by apply wp_operator_install.
  - apply Hquiet; [apply quiet_recover|by apply wp_recover].
Qed.

Definition no_rotation (w : world) : Prop := status_file w = None /\ staged w = None /\ wiping w = None.

Lemma accounted_start w : no_rotation w -> accounted w.
Proof. intros (_ & Hs & Hw). split; [intros data E; congruence|done]. Qed.

(** C27: however requests, expiry runs, replacements of the identity by the operator and
    recoveries after them follow each other, with failures and crashes at any operation,
    the active identity is the one of the beginning, one that the operator installed, or
    one that the Panel has activated: the answer to the request with its token names the
    rotation, service, host and token ids of the status on disk at that moment, its next
    revision and the state activated, and that status is proof-ready and records the
    digest of this identity.  And the Panel is asked only while a proof-ready status is on
    disk that records the digest of an identity with the token in question. *)
Theorem active_identity_is_confirmed w0 v :
  no_rotation w0 -> asked w0 = [] -> history token_entry w0 v ->
  (active v = active w0 \/
   (exists data, active v = Some data /\ data ∈ installed v) \/
   exists data c, active v = Some data /\ decodeIdentity data = Ok c /\
     panel_activated (Identity.RuntimeToken c) (runtimeCredentialDigest data) v) /\
  Forall asked_ok (asked v).
Proof.
  intros Hn Ea Hh.
  destruct (history_invariant token_entry (fun v => accounted v /\ guarded_active w0 v) w0 v) as [_ [Hact (new & En & Hnew)]];
    [apply entry_guarded| |done|].
  - split; [by apply accounted_start|]. split; [by left|]. exists []. by rewrite app_nil_r.
  - split; [done|]. by rewrite En, Ea.
Qed.

(** C28: at every moment, also after a crash at any operation, a staged identity has a
    status on disk with its digest, and a quarantined one has a status, so the next start
    finds in the status which secret it has to destroy. *)
Theorem staged_secret_is_on_record w0 v :
  no_rotation w0 -> history token_entry w0 v -> accounted v.
Proof.
  intros Hn Hh. apply (history_invariant token_entry accounted w0); [apply entry_accounted|by apply accounted_start|done].
Qed.
End Safety.
