(* ===== verification/TokenExpiry.v ===== *)
(** The lifetime of a staged token: a status always fits its file, so an undisturbed
    expiry run can record the end of the rotation and then destroys the staged secret.
    And the defect of the first two phases: the run records the expiry, but tells the
    request that follows that nothing has expired. *)
From Stdlib Require Import Ascii String ZArith Lia.
From stdpp Require Import base decidable list strings.
From S2P Require Import Prelude Strings Regexp Patterns Effects Sha256 Json JsonSize SelfUpdateGrant TokenRotation TokenExecutor TokenSafety.

Open Scope string_scope.

#[local] Opaque runtimeCredentialDigest.

Section Expiry.
Context `{TimeZones} `{IdentityCodec}.

(** ** A status fits its file *)

Lemma match_max r s k : re_match r s = true -> re_max r = Some k -> String.length s <= k.
Proof. intros Hm. apply matches_max. by apply re_match_spec. Qed.

Lemma identifier_max s : re_match identifierPattern s = true -> String.length s <= 128.
Proof. intros Hm. by apply (match_max identifierPattern). Qed.

Lemma digest_max s : re_match digestPattern s = true -> String.length s <= 71.
Proof. intros Hm. apply digest_length in Hm. unfold len in Hm. lia. Qed.

Lemma canonical_in l s : canonical l = true -> In s l -> s = TrimSpace s.
Proof. intros Hc Hin. apply (proj1 (forallb_forall _ _) Hc) in Hin. by bool_to_prop. Qed.

Lemma execution_host_max s : validExecutionHostID s = true -> s = TrimSpace s -> String.length s <= 191.
Proof.
  unfold validExecutionHostID. cbn zeta. intros Hv Et. rewrite <- Et in Hv. destruct (_ || _) eqn:E; [done|].
  bool_to_prop. unfold len in *. lia.
Qed.

(** The values the validation leaves open. *)
Definition modest (s : CredentialStatus.t) : Prop :=
  String.length (CredentialStatus.ExecutorVersion s) <= 256 /\
  String.length (CredentialStatus.LocalStageReceiptID s) <= 128 /\
  String.length (CredentialStatus.activeRuntimeTokenSHA256 s) <= 71 /\
  is_Some (encode_time (CredentialStatus.StagedExpiresAt s)).

Lemma valid_inv s : valid_status s = true ->
  CredentialStatus.binding_invalid s = false /\
  canonical [CredentialStatus.RotationID s; CredentialStatus.ServiceID s; CredentialStatus.ExecutionHostID s;
             CredentialStatus.PreviousTokenID s; CredentialStatus.StagedTokenID s] = true /\
  (GoTime.IsZero (CredentialStatus.StagedExpiresAt s) || negb (GoTime.IsUTC (CredentialStatus.StagedExpiresAt s))) = false /\
  CredentialStatus.validate_phase s = Ok tt /\ CredentialStatus.validateRootTokenBindings s = Ok tt.
Proof.
  unfold valid_status, CredentialStatus.Validate. destruct (CredentialStatus.binding_invalid s); [done|].
  destruct (GoTime.IsZero _ || _); [done|]. destruct (canonical _); [|done]. cbn [negb].
  destruct (CredentialStatus.validate_phase s) as [[]|]; [|done].
  by destruct (CredentialStatus.validateRootTokenBindings s) as [[]|].
Qed.

Lemma phase_cases s : CredentialStatus.validate_phase s = Ok tt ->
  CredentialStatus.Phase s ∈ [PhaseClaimPrepared; PhaseStageBound; PhaseStaged; PhaseLocalStaged; PhaseProofReady;
    PhaseActivated; PhaseCancelReady; PhaseCancelled; PhaseExpired; PhaseManualRecovered] /\
  (CredentialStatus.ActiveIdentitySHA256 s = "" \/
   CredentialStatus.ActiveIdentitySHA256 s = CredentialStatus.StagedIdentitySHA256 s \/
   CredentialStatus.ActiveIdentitySHA256 s = CredentialStatus.PreviousIdentitySHA256 s \/
   re_match digestPattern (CredentialStatus.ActiveIdentitySHA256 s) = true).
Proof.
  unfold CredentialStatus.validate_phase. cbn zeta. intros Hp.
  repeat match type of Hp with
  | (if (?b || ?c) then _ else _) = _ => destruct b eqn:?; cbn [orb] in Hp
  | (if ?b then _ else _) = _ => destruct b eqn:?
  end; try discriminate Hp; bool_to_prop;
  (split; [match goal with E : CredentialStatus.Phase s = _ |- _ => rewrite E end; repeat constructor|auto]).
Qed.

Lemma phase_max s : CredentialStatus.validate_phase s = Ok tt -> String.length (CredentialStatus.Phase s) <= 16.
Proof.
  intros [Hin _]%phase_cases. revert Hin. generalize (CredentialStatus.Phase s).
  apply Forall_forall. repeat constructor; vm_compute; lia.
Qed.

Lemma active_digest_max s :
  CredentialStatus.validate_phase s = Ok tt ->
  String.length (CredentialStatus.StagedIdentitySHA256 s) <= 71 ->
  String.length (CredentialStatus.PreviousIdentitySHA256 s) <= 71 ->
  String.length (CredentialStatus.ActiveIdentitySHA256 s) <= 71.
Proof.
  intros [_ Ha]%phase_cases Hs Hp. destruct Ha as [-> |[-> |[-> |Ha]]]; [simpl; lia|done|done|by apply digest_max].
Qed.

Lemma root_bindings_max s : CredentialStatus.validateRootTokenBindings s = Ok tt ->
  String.length (CredentialStatus.previousRuntimeTokenSHA256 s) <= 71 /\
  String.length (CredentialStatus.stagedRuntimeTokenSHA256 s) <= 71 /\
  String.length (CredentialStatus.serviceName s) <= 255.
Proof.
  unfold CredentialStatus.validateRootTokenBindings. cbn zeta. destruct (_ || _) eqn:E; [done|]. intros _.
  bool_to_prop. unfold len in *. split_and!; [by apply digest_max| |lia].
  match goal with E : _ && _ = false |- _ => apply andb_false_iff in E as [E|E]; bool_to_prop end.
  - match goal with E : _ = "" |- _ => rewrite E; simpl; lia end.
  - by apply digest_max.
Qed.

Lemma file_json_leaves s : exists fields, CredentialStatus.file_json s = JObj fields /\
  Forall (fun f => is_leaf f.2) fields /\
  (is_Some (encode_time (CredentialStatus.StagedExpiresAt s)) -> Forall (fun f => encodes f.2) fields) /\
  fields_size fields <= 6 * (String.length (CredentialStatus.Phase s) + String.length (CredentialStatus.RotationID s) +
    String.length (CredentialStatus.ServiceID s) + String.length (CredentialStatus.ExecutionHostID s) +
    String.length (CredentialStatus.PreviousTokenID s) + String.length (CredentialStatus.StagedTokenID s) +
    String.length (CredentialStatus.StagedIdentitySHA256 s) + String.length (CredentialStatus.PreviousIdentitySHA256 s) +
    String.length (CredentialStatus.ActiveIdentitySHA256 s) + String.length (CredentialStatus.LocalExecutorPolicySHA256 s) +
    String.length (CredentialStatus.ExecutorVersion s) + String.length (CredentialStatus.LocalStageReceiptID s) +
    String.length (CredentialStatus.previousRuntimeTokenSHA256 s) +
    String.length (CredentialStatus.stagedRuntimeTokenSHA256 s) +
    String.length (CredentialStatus.activeRuntimeTokenSHA256 s) + String.length (CredentialStatus.serviceName s)) + 4000.
Proof.
  eexists. split; [reflexivity|]. split_and!.
  - rewrite !Forall_app. unfold omit_str. split_and!; repeat case_match; repeat constructor.
  - intros Ht. rewrite !Forall_app. split_and!; first [apply encodes_omit_str | repeat constructor; done || by eexists].
  - rewrite !fields_size_app. repeat match goal with
    | |- context [fields_size (omit_str ?k ?v)] =>
        pose proof (fields_size_omit k v); generalize dependent (fields_size (omit_str k v)); intros
    end. cbn [fields_size leaf_size String.length] in *. lia.
Qed.

Lemma status_fits s :
  valid_status s = true -> modest s ->
  exists data, Marshal (CredentialStatus.file_json s) = Some data /\ (len data + 1 <= runtimeCredentialStateMaxBytes)%Z.
Proof.
  intros Hv (Hver & Hrec & Hact & Ht). apply valid_inv in Hv as (Hb & Hcan & _ & Hph & Hroot).
  destruct (file_json_leaves s) as (fields & -> & Hleaf & Henc & Hsize). specialize (Henc Ht).
  apply encodes_obj in Henc as [data Hdata]. exists data. split; [done|].
  apply length_object in Hdata; [|done]. pose proof (phase_max s Hph). apply root_bindings_max in Hroot as (? & ? & ?).
  unfold CredentialStatus.binding_invalid in Hb. bool_to_prop.
  repeat match goal with
  | E : re_match identifierPattern _ = true |- _ => apply identifier_max in E
  | E : re_match digestPattern _ = true |- _ => apply digest_max in E
  end.
  pose proof (active_digest_max s Hph ltac:(done) ltac:(done)).
  assert (String.length (CredentialStatus.ExecutionHostID s) <= 191).
  { apply execution_host_max; [done|]. eapply canonical_in; [exact Hcan|]. cbn; auto. }
  unfold len, runtimeCredentialStateMaxBytes. lia.
Qed.

(** ** The end of the lifetime *)

(** The phases in which the staged token has not been activated. *)
Definition pending : list string := [PhaseStageBound; PhaseStaged; PhaseLocalStaged; PhaseProofReady].

Lemma valid_expired s : valid_status s = true -> valid_status (expired s) = true.
Proof.
  intros (Hb & Hcan & Ht & _ & Hroot)%valid_inv.
  assert (E : CredentialStatus.validateRootTokenBindings (expired s) = Ok tt).
  { unfold CredentialStatus.validateRootTokenBindings in *. cbn zeta in *. destruct (_ || _) eqn:Er in Hroot; [done|].
    cbn -[re_match len bool_decide]. rewrite Er.
    by rewrite (bool_decide_eq_true_2 (CredentialStatus.previousRuntimeTokenSHA256 s =
                                       CredentialStatus.previousRuntimeTokenSHA256 s)). }
  unfold valid_status. rewrite E. unfold CredentialStatus.Validate.
  change (CredentialStatus.binding_invalid (expired s)) with (CredentialStatus.binding_invalid s). rewrite Hb.
  cbn -[canonical]. cbn -[canonical] in Ht, Hcan. rewrite Ht, Hcan.
  unfold CredentialStatus.validate_phase. cbn -[bool_decide].
  by rewrite (bool_decide_eq_true_2 (CredentialStatus.PreviousIdentitySHA256 s =
                                     CredentialStatus.PreviousIdentitySHA256 s)).
Qed.

Lemma valid_staged s : valid_status s = true -> CredentialStatus.Phase s = PhaseStageBound ->
  valid_status (s <| CredentialStatus.Phase := PhaseStaged |>) = true.
Proof.
  destruct s. intros Hv Ep. cbn in Ep. subst. exact Hv.
Qed.

Section Undisturbed.
Context (t : GoTime.t).

Lemma twp_save s w (Q : result err unit -> world -> Prop) :
  valid_status s = true -> modest s -> Q (Ok tt) (w <| status_file := Some s |>) -> twp (Good t) (saveStatus s) Q w.
Proof.
  intros Hv Hm HQ. destruct (status_fits s Hv Hm) as (data & Ed & Hd). unfold saveStatus. rewrite Hv, Ed.
  apply twp_bind_ok, twp_ret. apply twp_bind_ok, twp_ret. rewrite (proj2 (Z.leb_le _ _) Hd).
  by apply (twp_call _ _ _ _ (Ok tt) (w <| status_file := Some s |>)).
Qed.

(** A readable identity file with the given digest. *)
Definition holds_identity (data digest : string) : Prop :=
  bounded data = true /\ is_ok (decodeIdentity data) = true /\ runtimeCredentialDigest data = digest.

Lemma twp_stat slot w (Q : result err bool -> world -> Prop) :
  Q (Ok (set (file_of slot w))) w -> twp (Good t) (stat slot) Q w.
Proof. by apply twp_call. Qed.

Lemma twp_digest slot data digest w (Q : result err string -> world -> Prop) :
  file_of slot w = Some data -> holds_identity data digest -> Q (Ok digest) w -> twp (Good t) (slot_digest slot) Q w.
Proof.
  intros Ef (Hb & Hd & <-) HQ. destruct (decodeIdentity data) as [c|] eqn:Ec; [|done].
  apply twp_bind_ok, twp_bind_ok, (twp_call _ _ _ _ (Ok data) w); [cbn; by rewrite Ef|].
  rewrite Hb, Ec. apply twp_bind_ok, twp_ret, twp_ret. by apply twp_ret.
Qed.

Lemma twp_require b w (Q : result err unit -> world -> Prop) : b = true -> Q (Ok tt) w -> twp (Good t) (require b) Q w.
Proof. intros -> HQ. by apply twp_ret. Qed.

Lemma twp_require_active data digest w (Q : result err unit -> world -> Prop) :
  active w = Some data -> holds_identity data digest -> Q (Ok tt) w -> twp (Good t) (require_active digest) Q w.
Proof.
  intros Ef Hd HQ. apply twp_bind_ok, (twp_digest ActiveSlot data digest); [done|done|].
  apply twp_require; [by apply bool_decide_eq_true|done].
Qed.

Lemma twp_require_no_wiping w (Q : result err unit -> world -> Prop) :
  wiping w = None -> Q (Ok tt) w -> twp (Good t) require_no_wiping Q w.
Proof. intros Ew HQ. apply twp_bind, twp_stat. cbn. rewrite Ew. by apply twp_ret. Qed.

Definition destroyed (w : world) : world := w <| staged := None |> <| wiping := None |>.

(** An undisturbed destruction removes the secret, wherever it is. *)
Lemma twp_wipe w digest (Q : result err unit -> world -> Prop) :
  (forall data, staged w = Some data -> wiping w = None /\ bounded data = true /\ runtimeCredentialDigest data = digest) ->
  Q (Ok tt) (destroyed w) -> twp (Good t) (wipeAndRemoveIdentity digest) Q w.
Proof.
  intros Hs HQ. apply twp_bind_ok, twp_stat, twp_bind_ok, twp_stat. destruct w as [sf act st wi ak cf il].
  cbn [file_of staged wiping] in *. destruct st as [data|]; cbn [set andb negb].
  - destruct (Hs data eq_refl) as (-> & Hb & Hd). cbn [set].
    apply twp_bind_ok, twp_bind_ok, (twp_call _ _ _ _ (Ok data) (World sf act (Some data) None ak cf il)); [done|].
    apply twp_bind_ok, twp_require; [rewrite Hb; by apply bool_decide_eq_true|].
    eapply twp_call; [reflexivity|]. by exists (destroyed (World sf act (Some data) None ak cf il)), (Ok tt).
  - destruct wi as [junk|]; [|by apply twp_ret].
    by exists (destroyed (World sf act None (Some junk) ak cf il)), (Ok tt).
Qed.

(** The staged identity of the rotation [s]. *)
Definition staged_identity (s : CredentialStatus.t) (data : string) : Prop :=
  holds_identity data (CredentialStatus.StagedIdentitySHA256 s) /\
  exists c, decodeIdentity data = Ok c /\ Identity.NodeID c = CredentialStatus.ServiceID s /\
    Identity.ServiceName c = CredentialStatus.serviceName s /\
    runtimeCredentialTokenDigest (Identity.RuntimeToken c) = CredentialStatus.stagedRuntimeTokenSHA256 s.

(** A rotation that was not activated and whose staged token is over its lifetime. *)
Record overdue (w : world) (s : CredentialStatus.t) : Prop := {
  overdue_status : status_file w = Some s;
  overdue_valid : valid_status s = true;
  overdue_modest : modest s;
  overdue_pending : CredentialStatus.Phase s ∈ pending;
  overdue_time : GoTime.Before t (CredentialStatus.StagedExpiresAt s) = false;
  overdue_active : exists a, active w = Some a /\ holds_identity a (CredentialStatus.PreviousIdentitySHA256 s);
  overdue_new : CredentialStatus.PreviousIdentitySHA256 s <> CredentialStatus.StagedIdentitySHA256 s;
  overdue_wiping : wiping w = None;
  overdue_staged : forall data, staged w = Some data -> staged_identity s data;
  overdue_local : CredentialStatus.Phase s = PhaseLocalStaged \/ CredentialStatus.Phase s = PhaseProofReady ->
    staged w <> None;
}.

Definition ended (w : world) (s : CredentialStatus.t) (v : world) : Prop :=
  status_file v = Some (expired s) /\ staged v = None /\ wiping v = None /\ active v = active w.

Lemma modest_expired s : valid_status s = true -> modest s -> modest (expired s).
Proof.
  intros (_ & _ & _ & _ & Hroot)%valid_inv (Hv & Hr & _ & Ht). apply root_bindings_max in Hroot as (Hp & _).
  by split_and!.
Qed.

Lemma twp_expire w v s b (Q : result err CredentialStatus.t -> world -> Prop) :
  valid_status s = true -> modest s -> GoTime.Before t (CredentialStatus.StagedExpiresAt s) = false ->
  active v = active w -> wiping v = None -> b = set (staged v) ->
  (forall data, staged v = Some data -> holds_identity data (CredentialStatus.StagedIdentitySHA256 s)) ->
  (forall u, ended w s u -> Q (Ok (expired s)) u) -> twp (Good t) (expire_if_due s b) Q v.
Proof.
  intros Hv Hm Ht Ea Ew Eb Hs HQ. unfold expire_if_due.
  apply twp_bind, (twp_call _ _ _ _ t v); [done|]. rewrite Ht. cbn zeta.
  apply twp_bind_ok, twp_save; [by apply valid_expired|by apply modest_expired|].
  set (v' := v <| status_file := Some (expired s) |>). apply twp_bind_ok. subst b. destruct (staged v) as [data|] eqn:Es; cbn [set].
  - apply twp_wipe.
    + intros d Ed. change (staged v') with (staged v) in Ed. rewrite Es in Ed. injection Ed as <-.
      destruct (Hs data eq_refl) as (Hb & _ & Hd). by split_and!.
    + apply twp_ret, HQ. by split_and!.
  - apply twp_ret, twp_ret, HQ. by split_and!.
Qed.

Lemma twp_reconcile_pending w s :
  overdue w s ->
  twp (Good t) (if CredentialStatus.Phase s ==? PhaseStageBound then reconcile_stage_bound s
                else if CredentialStatus.Phase s ==? PhaseStaged then reconcile_staged s
                else reconcile_local_staged s) (fun r v => is_ok r = true /\ ended w s v) w.
Proof.
  intros [Es Hv Hm Hp Ht (a & Ea & Ha) Hne Ew Hs Hl].
  assert (Hid : forall data, staged w = Some data -> holds_identity data (CredentialStatus.StagedIdentitySHA256 s))
    by (intros data E; by apply Hs).
  destruct (CredentialStatus.Phase s ==? PhaseStageBound) eqn:E1; [|destruct (CredentialStatus.Phase s ==? PhaseStaged) eqn:E2].
  - apply twp_bind_ok, (twp_require_active a); [done|done|]. apply twp_bind_ok. unfold bindStageBoundInstalledIdentity.
    apply twp_bind_ok, twp_require; [done|]. apply twp_bind_ok, twp_require_no_wiping; [done|].
    apply twp_bind_ok, twp_stat. cbn [file_of]. destruct (staged w) as [data|] eqn:Est; cbn [set negb].
    + destruct (Hs data eq_refl) as ((Hb & _ & Hd) & c & Ec & En & Esn & Etok).
      apply twp_bind_ok, twp_bind_ok, (twp_call _ _ _ _ (Ok data) w); [cbn; by rewrite Est|].
      rewrite Hb. apply twp_bind_ok, twp_ret. rewrite Ec. apply twp_ret.
      apply twp_bind_ok, twp_require;
        [rewrite !andb_true_iff, !bool_decide_eq_true; by split_and!|]. cbn zeta.
      set (s' := s <| CredentialStatus.Phase := PhaseStaged |>).
      assert (Hv' : valid_status s' = true) by (apply valid_staged; [done|by bool_to_prop]).
      apply twp_bind_ok, twp_save; [done|done|]. apply twp_ret. apply twp_bind_ok, (twp_expire w);
        [done|done|done|done|done|by cbn; rewrite Est|by cbn; rewrite Est|].
      intros u Hu. by apply twp_ret.
    + apply twp_ret. apply twp_bind_ok, (twp_expire w);
        [done|done|done|done|done|by cbn; rewrite Est|by cbn; rewrite Est|].
      intros u Hu. by apply twp_ret.
  - apply twp_bind_ok, (twp_require_active a); [done|done|]. apply twp_bind_ok, twp_stat. cbn [file_of].
    apply twp_bind_ok. destruct (staged w) as [data|] eqn:Est; cbn [set].
    + apply twp_bind_ok, (twp_digest StagedSlot data (CredentialStatus.StagedIdentitySHA256 s)); [done|auto|].
      apply twp_require; [by apply bool_decide_eq_true|]. apply twp_bind_ok, twp_require_no_wiping; [done|].
      by apply (twp_expire w);
        [done|done|done|done|done|by cbn; rewrite Est|by cbn; rewrite Est|].
    + apply twp_ret. apply twp_bind_ok, twp_require_no_wiping; [done|].
      by apply (twp_expire w);
        [done|done|done|done|done|by cbn; rewrite Est|by cbn; rewrite Est|].
  - bool_to_prop. assert (Hph : CredentialStatus.Phase s = PhaseLocalStaged \/ CredentialStatus.Phase s = PhaseProofReady).
    { unfold pending in Hp. rewrite !elem_of_cons in Hp.
      destruct Hp as [?|[?|[?|[?|Hp]]]]; [done|done|by left|by right|by apply not_elem_of_nil in Hp]. }
    specialize (Hl Hph). destruct (staged w) as [data|] eqn:Est; [|done].
    apply twp_bind_ok, (twp_digest StagedSlot data (CredentialStatus.StagedIdentitySHA256 s)); [done|auto|].
    apply twp_bind_ok, twp_require; [by apply bool_decide_eq_true|].
    apply twp_bind_ok, (twp_digest ActiveSlot a (CredentialStatus.PreviousIdentitySHA256 s)); [done|done|].
    rewrite (bool_decide_eq_false_2 (CredentialStatus.PreviousIdentitySHA256 s = _)), andb_false_r by done.
    apply twp_bind_ok, twp_require; [by apply bool_decide_eq_true|].
    by apply (twp_expire w);
        [done|done|done|done|done|by cbn; rewrite Est|by cbn; rewrite Est|].
Qed.

(** C29: once the lifetime of a staged token that was not activated is over, one
    undisturbed expiry run records the expiry and destroys the staged secret; the active
    identity stays as it was. *)
Theorem expiry_destroys_staged_secret w s :
  overdue w s ->
  exists v, exec (Good t) reconcileRuntimeCredentialExpiry w = Some (v, Ok tt) /\ ended w s v.
Proof.
  intros Ho. enough (Ht : twp (Good t) reconcileRuntimeCredentialExpiry (fun r v => r = Ok tt /\ ended w s v) w)
    by (destruct Ht as (v & r & E & -> & Hv); by exists v).
  pose proof (overdue_status _ _ Ho) as Es. pose proof (overdue_valid _ _ Ho) as Hv.
  pose proof (overdue_pending _ _ Ho) as Hp. apply twp_bind_ok, (twp_call _ _ _ _ (Ok tt) w); [done|].
  apply twp_bind_ok, twp_bind_ok, twp_bind_ok, (twp_call _ _ _ _ (Ok (Some s)) w); [cbn; by rewrite Es|].
  apply twp_bind_ok, twp_require; [done|]. apply twp_ret. cbn zeta. apply twp_bind_ok.
  assert (Hne : (CredentialStatus.Phase s ==? PhaseClaimPrepared) = false)
    by (unfold pending in Hp; rewrite !elem_of_cons in Hp; by destruct Hp as [->|[->|[->|[->|Hp%not_elem_of_nil]]]]).
  rewrite Hne. destruct (twp_reconcile_pending w s Ho) as (v & r & E & Hr & He).
  exists v, r. split.
  - rewrite <- E. clear -Hp. unfold pending in Hp. rewrite !elem_of_cons in Hp.
    by destruct Hp as [->|[->|[->|[->|Hp%not_elem_of_nil]]]].
  - destruct r as [s'|]; [|done]. apply twp_ret. by apply (twp_call _ _ _ _ (Ok tt) v).
Qed.

(** ** The expired claim

    A claim without a staged identity, over its lifetime. *)
Record expired_claim (w : world) (s : CredentialStatus.t) : Prop := {
  claim_status : status_file w = Some s;
  claim_valid : valid_status s = true;
  claim_modest : modest s;
  claim_phase : CredentialStatus.Phase s = PhaseClaimPrepared;
  claim_time : GoTime.Before t (CredentialStatus.StagedExpiresAt s) = false;
  claim_active : exists a, active w = Some a /\ holds_identity a (CredentialStatus.PreviousIdentitySHA256 s);
  claim_staged : staged w = None;
  claim_wiping : wiping w = None;
}.

End Undisturbed.

(** C30: the encoding of a valid status is below the limit of the status file, so that
    saving it never fails for its size, when the four values that the validation leaves
    open have an ordinary size ([modest]): the version of the executor, which is set when
    it is built, at most 256 bytes; the stage receipt, an identifier in the phases that
    check it, at most 128; the digest of the active token, a digest in the phases that
    check it, at most 71; and an expiry whose year the JSON encoding can write.  Then
    neither the escapes of the encoding nor the longest identifiers can make a rotation
    impossible to record. *)
Theorem status_fits_file s :
  valid_status s = true -> modest s ->
  exists data, Marshal (CredentialStatus.file_json s) = Some data /\ (len data + 1 <= runtimeCredentialStateMaxBytes)%Z.
Proof. apply status_fits. Qed.
End Expiry.
