(* ===== verification/TokenDemo.v ===== *)
(** A concrete rotation: two identities, one policy, the requests of the host agent and
    the answers of the Panel.  The witnesses of the rotation theorems run here, and so
    does the late staging that an expired claim allows. *)
From Stdlib Require Import Ascii String ZArith Lia.
From stdpp Require Import base decidable list strings.
From S2P Require Import Prelude Strings Regexp Patterns Effects Sha256 Json SelfUpdateGrant TokenRotation TokenExecutor TokenSafety TokenExpiry.

Open Scope string_scope.

#[local] Instance utc_only : TimeZones := fun _ => 0%Z.

Definition old_identity : Identity.t := Identity.mk "https://panel.example" "agent-1" "token-one" "updater".
Definition new_identity : Identity.t := Identity.mk "https://panel.example" "agent-1" "token-two" "updater".

Definition replacement : Identity.t := Identity.mk "https://panel.example" "agent-1" "token-three" "updater".

(** A codec that knows the three identities. *)
#[local] Program Instance three_identities : IdentityCodec := {|
  marshalIdentity c := if decide (c = old_identity) then Ok "identity: one"
                       else if decide (c = new_identity) then Ok "identity: two"
                       else if decide (c = replacement) then Ok "identity: three" else Err "unknown identity";
  decodeIdentity data := if data ==? "identity: one" then Ok old_identity
                         else if data ==? "identity: two" then Ok new_identity
                         else if data ==? "identity: three" then Ok replacement else Err "not an identity" |}.
Next Obligation. intros c data. cbn. repeat case_decide; intros [= <-]; by subst. Qed.

Definition demo_digest : string := "sha256:0123456789abcdef0123456789abcdef0123456789abcdef0123456789abcdef".
#[local] Instance demo_policy : ExecutorPolicy unit := {|
  HostID := fun _ => "host-1"; SchemaVersion := fun _ => 2%Z; ProtocolVersion := fun _ => 2%Z;
  SourcePolicyRevision := fun _ => 3%Z; ProjectionRevision := fun _ => 4%Z; PolicyRevision := fun _ => 5%Z;
  PanelURL := fun _ => Some "https://panel.example"; Policy_Validate := fun _ => Ok tt;
  Policy_SHA256 := fun _ => Ok demo_digest |}.

Definition fresh_host : world := World None (Some "identity: one") None None [] [] [].
Definition now : GoTime.t := GoTime.mk 63844806896780000000 true.
Definition later : GoTime.t := GoTime.Add now runtimeCredentialStagedMaxAge.

Definition ask (operation token : string) (revision : Z) : CredentialRequest.t :=
  CredentialRequest.mk 2 operation "agent-1"
    (Some (Mutation.mk "rotation-1" "host-1" "token-id-1" "token-id-2" revision token)) 3 7 4 5 false.

Definition directive (status : string) (revision : Z) : Rotation.t :=
  Rotation.mk "rotation-1" "agent-1" "host-1" status revision 7 3 4 5 "token-id-1" "token-id-2" (Some now) "receipt-1"
    (Some now) None None None None None "" None None None.

(** A request with the clock at [t], the Panel answering the call at position [k]. *)
Definition answers (t : GoTime.t) (k : nat) (r : Rotation.t) : list answer :=
  (repeat (Good t) k ++ [Gives r] ++ repeat (Good t) 40)%list.

Definition serve (t : GoTime.t) (k : nat) (r : Rotation.t) (request : CredentialRequest.t) (w : world) : world :=
  (run (let* _ := handleLocalExecutorRuntimeCredential "v1.2.3" tt request in Ret tt) (answers t k r) w).1.

Definition prepared : world := Eval vm_compute in
  serve now 40 (directive "staged" 1) (ask "runtime_credential_prepare" "" 1) fresh_host.

Definition local_staged : world := Eval vm_compute in
  serve now 16 (directive "local_staged" 3) (ask "runtime_credential_stage" "token-two" 2) prepared.

Definition proof_ready : world := Eval vm_compute in
  serve now 40 (directive "staged" 1) (ask "runtime_credential_proof_ready" "" 4) local_staged.

Definition activated_host : world := Eval vm_compute in
  serve now 7 (directive "activated" 5) (ask "runtime_credential_activate" "" 4) proof_ready.

Definition finalized_host : world := Eval vm_compute in
  serve now 40 (directive "staged" 1) (ask "runtime_credential_finalize" "" 5) activated_host.

Lemma serve_history t k r request w v :
  history (token_entry "v1.2.3") w v -> history (token_entry "v1.2.3") w (serve t k r request v).
Proof. intros Hh. apply history_run; [done|]. constructor. Qed.

Lemma proof_ready_reached : history (token_entry "v1.2.3") fresh_host proof_ready.
Proof.
  change proof_ready with
    (serve now 40 (directive "staged" 1) (ask "runtime_credential_proof_ready" "" 4)
      (serve now 16 (directive "local_staged" 3) (ask "runtime_credential_stage" "token-two" 2)
        (serve now 40 (directive "staged" 1) (ask "runtime_credential_prepare" "" 1) fresh_host))).
  do 3 apply serve_history. apply history_refl.
Qed.

Definition status_of (w : world) : CredentialStatus.t :=
  match status_file w with
  | Some s => s
  | None => new_status "" "" "" (ask "" "" 0) (Mutation.mk "" "" "" "" 0 "") old_identity "" "" "" now
  end.

(** The whole rotation: the new identity is active, and the Panel has activated it. *)
Lemma active_identity_is_confirmed_witness :
  active finalized_host = Some "identity: two" /\ asked finalized_host <> [] /\
  (active finalized_host = active fresh_host \/
   (exists data, active finalized_host = Some data /\ data ∈ installed finalized_host) \/
   exists data c, active finalized_host = Some data /\ decodeIdentity data = Ok c /\
     panel_activated (Identity.RuntimeToken c) (runtimeCredentialDigest data) finalized_host) /\
  Forall asked_ok (asked finalized_host).
Proof.
  split; [reflexivity|]. split; [discriminate|].
  apply (active_identity_is_confirmed "v1.2.3" fresh_host finalized_host); [split_and!; reflexivity|reflexivity|].
  change finalized_host with
    (serve now 40 (directive "staged" 1) (ask "runtime_credential_finalize" "" 5)
      (serve now 7 (directive "activated" 5) (ask "runtime_credential_activate" "" 4) proof_ready)).
  do 2 apply serve_history. apply proof_ready_reached.
Defined.

(** A day after the staging the operator installs a replacement and recovers: the staged
    secret is gone, and the ledger is about the replacement. *)
Definition recovered_host : world := Eval vm_compute in
  (run (let* _ := recoverAfterEmergencyManualReconfigure tt "rotation-1" in Ret tt) (repeat (Good later) 60)
    (run (let* _ := call (InstallIdentity "identity: three") in Ret tt) [Good later] local_staged).1).1.

Example operator_recovers :
  (active recovered_host, staged recovered_host, CredentialStatus.Phase <$> status_file recovered_host) =
  (Some "identity: three", None, Some PhaseManualRecovered).
Proof. reflexivity. Qed.

Lemma recovered_host_reached : history (token_entry "v1.2.3") fresh_host recovered_host.
Proof.
  change recovered_host with
    (run (let* _ := recoverAfterEmergencyManualReconfigure tt "rotation-1" in Ret tt) (repeat (Good later) 60)
      (run (let* _ := call (InstallIdentity "identity: three") in Ret tt) [Good later]
        (serve now 16 (directive "local_staged" 3) (ask "runtime_credential_stage" "token-two" 2)
          (serve now 40 (directive "staged" 1) (ask "runtime_credential_prepare" "" 1) fresh_host))).1).1.
  apply history_run; [|exact (entry_recover "v1.2.3" tt "rotation-1")]. apply history_run; [|apply entry_install].
  do 2 apply serve_history. apply history_refl.
Qed.

(** In the middle of it, a secret is staged. *)
Lemma staged_secret_is_on_record_witness : staged proof_ready = Some "identity: two" /\ accounted proof_ready.
Proof.
  split; [reflexivity|]. apply (staged_secret_is_on_record "v1.2.3" fresh_host proof_ready).
  - split_and!; reflexivity.
  - apply proof_ready_reached.
Defined.

Ltac compute_modest :=
  unfold modest; split_and!; [vm_compute; lia|vm_compute; lia|vm_compute; lia|eexists; vm_compute; reflexivity].

Lemma local_staged_overdue : overdue later local_staged (status_of local_staged).
Proof.
  constructor.
  - reflexivity.
  - vm_compute. reflexivity.
  - compute_modest.
  - apply list_elem_of_In. cbn. auto.
  - vm_compute. reflexivity.
  - eexists. split; [reflexivity|]. split_and!; vm_compute; reflexivity.
  - vm_compute. discriminate.
  - reflexivity.
  - intros data [= <-]. split; [split_and!; vm_compute; reflexivity|]. exists new_identity. split_and!; vm_compute; reflexivity.
  - intros _. discriminate.
Qed.

(** A day later, the staged identity goes. *)
Lemma expiry_destroys_staged_secret_witness :
  staged local_staged = Some "identity: two" /\
  exists v, exec (Good later) reconcileRuntimeCredentialExpiry local_staged = Some (v, Ok tt) /\
    ended local_staged (status_of local_staged) v.
Proof. split; [reflexivity|]. apply (expiry_destroys_staged_secret later), local_staged_overdue. Defined.

Lemma status_fits_file_witness :
  exists data, Marshal (CredentialStatus.file_json (status_of local_staged)) = Some data /\
    (len data + 1 <= runtimeCredentialStateMaxBytes)%Z.
Proof. apply (status_fits_file (status_of local_staged)); [vm_compute; reflexivity|apply local_staged_overdue]. Defined.


(** ** Staging after the expiry

    The claim is a day old.  The request that stages its token still goes through: in
    the same call the expiry is recorded and then overwritten, and the new secret is on
    disk.  A second before the deadline of the claim, that is what should happen; at the
    deadline, the request should be refused as it is in every later phase. *)
Example late_stage_is_accepted :
  let w := serve later 17 (directive "local_staged" 3) (ask "runtime_credential_stage" "token-two" 2) prepared in
  (CredentialStatus.Phase (status_of w), staged w, GoTime.Before later (CredentialStatus.StagedExpiresAt (status_of w))) =
  (PhaseLocalStaged, Some "identity: two", false).
Proof. vm_compute. reflexivity. Qed.

Example late_replay_is_refused :
  (run (handleLocalExecutorRuntimeCredential "v1.2.3" tt (ask "runtime_credential_proof_ready" "" 4))
     (repeat (Good later) 40) local_staged).2 = Some (Err "mutation_precondition_failed").
Proof. vm_compute. reflexivity. Qed.
