(* ===== verification/TokenAgent.v ===== *)
(** The host agent's side of runtime-token rotation
    ([host_pull_runtime_token_rotation.go], [runtime_token_rotation_claim_state.go],
    [runtime_token_rotation_panel.go], [local_executor_runtime_credential_client_linux.go],
    the rotation parts of [host_pull_credential_heartbeat.go] and
    [host_pull_recovery_control.go]): the agent's loop over the status of the executor,
    its durable claim, the requests to the Panel and to the executor.

    The executor behind the socket is the one of TokenExecutor: serving a request runs
    its handler on its own files, and before every operation of the agent the executor's
    expiry loop and the operator's emergency recovery may have run.  Its answers lose the
    root-only fields of the status on the wire.  The claim file is read and written as a
    record; the file checks that do not look at the content, the parsing of the Panel's
    URL and the HTTP exchange are operations that succeed or fail. *)
From Stdlib Require Import Ascii String ZArith Lia.
From stdpp Require Import base decidable list strings.
From S2P Require Import Prelude Strings Regexp Patterns Effects Sha256 Json SelfUpdateState SelfUpdateGrant TokenRotation TokenExecutor.

Open Scope string_scope.

(** ** The durable claim *)

Definition runtimeTokenClaimStateVersion : Z := 1.

Module ClaimState.
Record t := mk {
  SchemaVersion : Z;
  RotationID : string;
  ServiceID : string;
  ExecutionHostID : string;
  PreviousTokenID : string;
  StagedTokenID : string;
  ClaimID : string;
  InitialRevision : Z;
  OwnershipEpoch : Z;
  SourcePolicyRevision : Z;
  ProjectionRevision : Z;
  LocalExecutorPolicyRevision : Z;
  ExpiresAt : GoTime.t;
}.

#[global] Instance eq_dec : EqDecision t.
Proof. solve_decision. Defined.

Definition Validate (s : t) : check :=
  if (SchemaVersion s !=? runtimeTokenClaimStateVersion) || negb (re_match identifierPattern (RotationID s)) ||
     negb (re_match identifierPattern (ServiceID s)) || negb (validExecutionHostID (ExecutionHostID s)) ||
     negb (re_match identifierPattern (PreviousTokenID s)) || negb (re_match identifierPattern (StagedTokenID s)) ||
     (PreviousTokenID s ==? StagedTokenID s) || negb (re_match identifierPattern (ClaimID s)) ||
     (InitialRevision s !=? 1)%Z || (OwnershipEpoch s <? 1)%Z || (SourcePolicyRevision s <? 1)%Z ||
     (ProjectionRevision s <? 1)%Z || (LocalExecutorPolicyRevision s <? 1)%Z
  then Err "runtime token claim state is invalid"
  else if GoTime.IsZero (ExpiresAt s) || negb (GoTime.IsUTC (ExpiresAt s))
  then Err "runtime token claim state expiry is invalid"
  else Ok tt.

Definition matches (s : t) (r : Rotation.t) : bool :=
  (RotationID s ==? Rotation.ID r) && (ServiceID s ==? Rotation.ServiceID r) &&
  (ExecutionHostID s ==? Rotation.ExecutionHostID r) && (PreviousTokenID s ==? Rotation.PreviousTokenID r) &&
  (StagedTokenID s ==? Rotation.StagedTokenID r) && (OwnershipEpoch s ==? Rotation.ExpectedOwnershipEpoch r) &&
  (SourcePolicyRevision s ==? Rotation.ExpectedSourcePolicyRevision r) &&
  (ProjectionRevision s ==? Rotation.ExpectedProjectionRevision r) &&
  (LocalExecutorPolicyRevision s ==? Rotation.ExpectedLocalExecutorPolicyRevision r).
End ClaimState.

(** [newRuntimeTokenClaimID] on the sixteen random bytes: a version-4 UUID. *)
Definition claim_id_of_bytes (value : list N) : string :=
  let value := <[6 := N.lor (N.land (nth 6 value 0%N) 15) 64]> value in
  let value := <[8 := N.lor (N.land (nth 8 value 0%N) 63) 128]> value in
  let encoded := EncodeToString value in
  substring 0 8 encoded +:+ "-" +:+ substring 8 4 encoded +:+ "-" +:+ substring 12 4 encoded +:+ "-" +:+
  substring 16 4 encoded +:+ "-" +:+ substring 20 12 encoded.

(** ** What the Panel is sent and answers *)

Module ClaimResult.
Record t := mk { rotation : Rotation.t; TokenID : string; RuntimeToken : string; Claimed : bool }.
End ClaimResult.

Module HeartbeatProof.
Record t := mk {
  ExpectedRevision : Z;
  AgentVersion : string;
  AgentProtocolVersion : Z;
  ExecutorVersion : string;
  ExecutorProtocolVersion : Z;
  MutationProtocolVersion : Z;
  OwnershipEpoch : Z;
  SourcePolicyRevision : Z;
  ProjectionRevision : Z;
  LocalExecutorPolicyRevision : Z;
  LocalExecutorPolicySHA256 : string;
  LocalStageReceiptID : string;
  LocalPhase : string;
}.

Definition validate (p : t) : check :=
  if (ExpectedRevision p <? 1)%Z || negb (re_match versionPattern (AgentVersion p)) ||
     (AgentProtocolVersion p <? 1)%Z || negb (re_match versionPattern (ExecutorVersion p)) ||
     (ExecutorProtocolVersion p <? 1)%Z || (MutationProtocolVersion p <? 1)%Z || (OwnershipEpoch p <? 1)%Z ||
     (SourcePolicyRevision p <? 1)%Z || (ProjectionRevision p <? 1)%Z || (LocalExecutorPolicyRevision p <? 1)%Z ||
     negb (re_match digestPattern (LocalExecutorPolicySHA256 p)) ||
     negb (re_match identifierPattern (LocalStageReceiptID p)) || (LocalPhase p !=? "staged_token_active")
  then Err "runtime token rotation heartbeat proof is invalid" else Ok tt.
End HeartbeatProof.

(** [strconv.Atoi(HostAgentProtocolVersion)]. *)
Definition agentProtocolVersion : Z := 2.

Definition runtimeTokenHeartbeatProof (s : CredentialStatus.t) (agentVersion : string) : HeartbeatProof.t :=
  HeartbeatProof.mk (CredentialStatus.RotationRevision s) agentVersion agentProtocolVersion
    (CredentialStatus.ExecutorVersion s) (CredentialStatus.ExecutorProtocolVersion s)
    (CredentialStatus.MutationProtocolVersion s) (CredentialStatus.OwnershipEpoch s)
    (CredentialStatus.SourcePolicyRevision s) (CredentialStatus.ProjectionRevision s)
    (CredentialStatus.LocalExecutorPolicyRevision s) (CredentialStatus.LocalExecutorPolicySHA256 s)
    (CredentialStatus.LocalStageReceiptID s) "staged_token_active".

(** The rotation's share of the heartbeat's capabilities. *)
Definition addRuntimeTokenRotationCapabilities (status : option CredentialStatus.t) : list (string * json) :=
  match status with
  | None => []
  | Some s =>
      if (CredentialStatus.Phase s !=? PhaseLocalStaged) && (CredentialStatus.Phase s !=? PhaseProofReady) then []
      else
        [("runtime_token_rotation_id", JStr (CredentialStatus.RotationID s));
         ("runtime_token_rotation_phase", JStr (CredentialStatus.Phase s));
         ("execution_host_id", JStr (CredentialStatus.ExecutionHostID s));
         ("executor_version", JStr (CredentialStatus.ExecutorVersion s));
         ("executor_protocol_version", JNum (CredentialStatus.ExecutorProtocolVersion s));
         ("mutation_protocol_version", JNum (CredentialStatus.MutationProtocolVersion s));
         ("ownership_epoch", JNum (CredentialStatus.OwnershipEpoch s));
         ("source_policy_revision", JNum (CredentialStatus.SourcePolicyRevision s));
         ("projection_revision", JNum (CredentialStatus.ProjectionRevision s));
         ("local_executor_policy_revision", JNum (CredentialStatus.LocalExecutorPolicyRevision s));
         ("local_executor_policy_sha256", JStr (CredentialStatus.LocalExecutorPolicySHA256 s));
         ("local_stage_receipt_id", JStr (CredentialStatus.LocalStageReceiptID s));
         ("local_phase", JStr "staged_token_active")]
  end.

(** ** Rotations and statuses *)

Definition runtimeCredentialDirectiveMatchesStatus (r : Rotation.t) (s : CredentialStatus.t) : bool :=
  (Rotation.ID r ==? CredentialStatus.RotationID s) && (Rotation.ServiceID r ==? CredentialStatus.ServiceID s) &&
  (Rotation.ExecutionHostID r ==? CredentialStatus.ExecutionHostID s) &&
  (Rotation.PreviousTokenID r ==? CredentialStatus.PreviousTokenID s) &&
  (Rotation.StagedTokenID r ==? CredentialStatus.StagedTokenID s) &&
  (Rotation.ExpectedOwnershipEpoch r ==? CredentialStatus.OwnershipEpoch s) &&
  (Rotation.ExpectedSourcePolicyRevision r ==? CredentialStatus.SourcePolicyRevision s) &&
  (Rotation.ExpectedProjectionRevision r ==? CredentialStatus.ProjectionRevision s) &&
  (Rotation.ExpectedLocalExecutorPolicyRevision r ==? CredentialStatus.LocalExecutorPolicyRevision s).

Definition server_status (phase : string) : string :=
  if phase ==? PhaseLocalStaged then "local_staged"
  else if phase ==? PhaseProofReady then "heartbeat_proved"
  else if phase ==? PhaseActivated then "activated"
  else if phase ==? PhaseManualRecovered then "activated"
  else if phase ==? PhaseCancelReady then "cancel_requested"
  else if phase ==? PhaseCancelled then "canceled"
  else "staged".

(** A rotation with the status's binding, and nothing else. *)
Definition rotation_of (s : CredentialStatus.t) (status : string) (revision : Z) : Rotation.t :=
  Rotation.mk (CredentialStatus.RotationID s) (CredentialStatus.ServiceID s) (CredentialStatus.ExecutionHostID s)
    status revision (CredentialStatus.OwnershipEpoch s) (CredentialStatus.SourcePolicyRevision s)
    (CredentialStatus.ProjectionRevision s) (CredentialStatus.LocalExecutorPolicyRevision s)
    (CredentialStatus.PreviousTokenID s) (CredentialStatus.StagedTokenID s)
    None "" None None None None None None "" None None None.

Definition runtimeCredentialRotationFromStatus (s : CredentialStatus.t) : Rotation.t :=
  rotation_of s (server_status (CredentialStatus.Phase s)) (CredentialStatus.RotationRevision s).

Definition runtimeTokenClaimCanBeRetiredForNewDirective (c : ClaimState.t) (d : Rotation.t) : bool :=
  (Rotation.Revision d ==? 1)%Z && (ClaimState.RotationID c !=? Rotation.ID d) &&
  (ClaimState.ServiceID c ==? Rotation.ServiceID d) && (ClaimState.ExecutionHostID c ==? Rotation.ExecutionHostID d) &&
  (ClaimState.PreviousTokenID c ==? Rotation.PreviousTokenID d) &&
  (ClaimState.OwnershipEpoch c ==? Rotation.ExpectedOwnershipEpoch d) &&
  (ClaimState.SourcePolicyRevision c ==? Rotation.ExpectedSourcePolicyRevision d) &&
  (ClaimState.ProjectionRevision c ==? Rotation.ExpectedProjectionRevision d) &&
  (ClaimState.LocalExecutorPolicyRevision c ==? Rotation.ExpectedLocalExecutorPolicyRevision d).

Definition runtimeCredentialStatusCanBeRetiredForNewDirective (s : CredentialStatus.t) (d : Rotation.t) : bool :=
  ((CredentialStatus.Phase s ==? PhaseClaimPrepared) || (CredentialStatus.Phase s ==? PhaseCancelReady)) &&
  (Rotation.Revision d ==? 1)%Z && (CredentialStatus.RotationID s !=? Rotation.ID d) &&
  (CredentialStatus.ServiceID s ==? Rotation.ServiceID d) &&
  (CredentialStatus.ExecutionHostID s ==? Rotation.ExecutionHostID d) &&
  (CredentialStatus.PreviousTokenID s ==? Rotation.PreviousTokenID d) &&
  (CredentialStatus.OwnershipEpoch s ==? Rotation.ExpectedOwnershipEpoch d) &&
  (CredentialStatus.SourcePolicyRevision s ==? Rotation.ExpectedSourcePolicyRevision d) &&
  (CredentialStatus.ProjectionRevision s ==? Rotation.ExpectedProjectionRevision d) &&
  (CredentialStatus.LocalExecutorPolicyRevision s ==? Rotation.ExpectedLocalExecutorPolicyRevision d).

(** The Panel's claim is the one that was asked for. *)
Definition validateRuntimeCredentialClaimResult (result : ClaimResult.t) (request : Rotation.t) : check :=
  let r := ClaimResult.rotation result in
  if is_err (Rotation.Validate r) || (Rotation.ID r !=? Rotation.ID request) ||
     (Rotation.ServiceID r !=? Rotation.ServiceID request) ||
     (Rotation.ExecutionHostID r !=? Rotation.ExecutionHostID request) ||
     (Rotation.PreviousTokenID r !=? Rotation.PreviousTokenID request) ||
     (Rotation.StagedTokenID r !=? Rotation.StagedTokenID request) ||
     (Rotation.ExpectedOwnershipEpoch r !=? Rotation.ExpectedOwnershipEpoch request)%Z ||
     (Rotation.ExpectedSourcePolicyRevision r !=? Rotation.ExpectedSourcePolicyRevision request)%Z ||
     (Rotation.ExpectedProjectionRevision r !=? Rotation.ExpectedProjectionRevision request)%Z ||
     (Rotation.ExpectedLocalExecutorPolicyRevision r !=? Rotation.ExpectedLocalExecutorPolicyRevision request)%Z ||
     (Rotation.Status r !=? "staged") || (Rotation.Revision r !=? 2)%Z ||
     (ClaimResult.TokenID result !=? Rotation.StagedTokenID r) ||
     negb (validBoundedSecret (ClaimResult.RuntimeToken result))
  then Err "runtime token rotation claim binding is invalid" else Ok tt.

(** What the socket carries of a status: the root-only bindings stay behind. *)
Definition wire_status (s : CredentialStatus.t) : CredentialStatus.t :=
  s <| CredentialStatus.previousRuntimeTokenSHA256 := "" |> <| CredentialStatus.stagedRuntimeTokenSHA256 := "" |>
    <| CredentialStatus.activeRuntimeTokenSHA256 := "" |> <| CredentialStatus.serviceName := "" |>.

(** ** Operations *)

(** [Local]: a failure code of the executor. *)
Inductive failure := Failed (message : string) | Local (code : string) | NotExist.

Inductive panel_call :=
| PanelClaim (url id : string) (revision : Z) (claimID token : string)
| PanelProof (url id : string) (proof : HeartbeatProof.t) (token : string)
| PanelCancelAck (url id : string) (revision : Z) (token : string).

(** What the history of the agent records: the requests it sent to the Panel with the
    claim that was on disk and whether the host held a staged secret, the heartbeats that came through, the claims it removed with
    the executor's ledger at that moment, and the executor's ledgers that a request
    removed with the claim at that moment. *)
Inductive event :=
| Asked (c : panel_call) (disk : option ClaimState.t) (secret : bool)
| Beaten (token : string) (capabilities : list (string * json))
| ClaimRemoved (c : ClaimState.t) (ledger : option CredentialStatus.t)
| LedgerRemoved (s : CredentialStatus.t) (disk : option ClaimState.t).

(** The executor, the claim file, the memory of the agent's process, and the events,
    newest first. *)
Record agent_world := AgentWorld {
  executor : world;
  claim_file : option ClaimState.t;
  current : Identity.t;
  running : bool;
  status_ptr : option CredentialStatus.t;
  published : option CredentialStatus.t;
  log : list event;
}.

#[global] Instance eta_agent_world : Eta agent_world := fun w =>
  AgentWorld (executor w) (claim_file w) (current w) (running w) (status_ptr w) (published w) (log w).

Inductive aop : Type -> Type :=
| SwapRunning : aop bool                                   (** CompareAndSwap(false, true) *)
| ClearRunning : aop unit
| ExecutionRunning : aop bool
| JournalActive : aop bool
| LifecycleBlockers : aop Blockers.t
| CurrentIdentity : aop Identity.t
| StoreIdentity (c : Identity.t) : aop unit
| LoadStatusPtr : aop (option CredentialStatus.t)
| StoreStatusPtr (s : option CredentialStatus.t) : aop unit
| LoadPublished : aop (option CredentialStatus.t)
| StorePublished (s : option CredentialStatus.t) : aop unit
| Execute (r : CredentialRequest.t) : aop (result failure CredentialStatus.t)
| LoadRuntimeIdentity (s : slot) : aop (result failure Identity.t)
| StatClaim : aop (result failure bool)
| ReadClaim : aop (result failure (option ClaimState.t))
| WriteClaim (c : ClaimState.t) : aop (result failure unit)  (** write, rename and sync *)
| RemoveClaim : aop (result failure unit)                    (** unlink and sync *)
| RandomBytes : aop (result failure (list N))
| Clock : aop GoTime.t
| PostClaim (url id : string) (revision : Z) (claimID token : string) : aop (result failure ClaimResult.t)
| PostProof (url id : string) (proof : HeartbeatProof.t) (token : string) : aop (result failure Rotation.t)
| PostCancelAck (url id : string) (revision : Z) (token : string) : aop (result failure Rotation.t)
| PostHeartbeat (token : string) (capabilities : list (string * json)) : aop (result failure unit)
| Restart : aop unit.

Abbreviation aio A := (prog aop (result failure A)).
Definition stop {A} (message : string) : aio A := Ret (Err (Failed message)).
Definition ensure (b : bool) (message : string) : aio unit := Ret (if b then Ok tt else Err (Failed message)).

(** ** The environment *)

(** What happens on the host without the agent: the executor's expiry runs, and the
    operator's replacement of the identity and recovery after it. *)
Inductive background (P : Type) := Expiry | Installs (data : string) | Emergency (policy : P) (rotationID : string).
Arguments Expiry {P}.
Arguments Installs {P} data.
Arguments Emergency {P} policy rotationID.

(** [Fails] before the effect, [FailsLate] after it.  [Serves]: the executor with this
    version and policy answers, or is cut off where its answers end; [lost]: the agent
    does not see the response. *)
Inductive outcome (P : Type) :=
| Yes
| Fails
| FailsLate
| At (t : GoTime.t)
| Flag (b : bool)
| Blocks (b : Blockers.t)
| Bytes (l : list N)
| Serves (version : string) (policy : P) (answers : list answer) (lost : bool)
| Refuses
| GivesClaim (c : ClaimResult.t)
| GivesRotation (r : Rotation.t).
Arguments Yes {P}.
Arguments Fails {P}.
Arguments FailsLate {P}.
Arguments At {P} t.
Arguments Flag {P} b.
Arguments Blocks {P} b.
Arguments Bytes {P} l.
Arguments Serves {P} version policy answers lost.
Arguments Refuses {P}.
Arguments GivesClaim {P} c.
Arguments GivesRotation {P} r.

Record agent_answer (P : Type) := AgentAnswer { before : list (background P * list answer); out : outcome P }.
Arguments AgentAnswer {P} before out.
Arguments before {P} a.
Arguments out {P} a.

Section Agent.
Context `{TimeZones} `{IdentityCodec} {P : Type} `{ExecutorPolicy P}.

Definition background_prog (b : background P) : prog op unit :=
  match b with
  | Expiry => let* _ := reconcileRuntimeCredentialExpiry in Ret tt
  | Installs data => let* _ := call (InstallIdentity data) in Ret tt
  | Emergency policy id => let* _ := recoverAfterEmergencyManualReconfigure policy id in Ret tt
  end.

Definition run_background (w : world) (l : list (background P * list answer)) : world :=
  foldl (fun w b => (run (background_prog b.1) b.2 w).1) w l.

(** The executor serves a request; a ledger that goes is recorded. *)
Definition serve_request (version : string) (policy : P) (answers : list answer) (r : CredentialRequest.t)
    (w : agent_world) : agent_world * option (result string CredentialStatus.t) :=
  let (e, reply) := run (handleLocalExecutorRuntimeCredential version policy r) answers (executor w) in
  let w' := w <| executor := e |> in
  match status_file (executor w), status_file e with
  | Some s, None => (w' <| log := LedgerRemoved s (claim_file w) :: log w |>, reply)
  | _, _ => (w', reply)
  end.

Definition executor_reply (lost : bool) (reply : option (result string CredentialStatus.t)) : result failure CredentialStatus.t :=
  if lost then Err (Failed "read local executor runtime credential response")
  else
    match reply with
    | None => Err (Failed "read local executor runtime credential response")
    | Some (Ok s) => Ok (wire_status s)
    | Some (Err code) => Err (Local code)
    end.

Definition read_slot (s : slot) (w : world) : result failure Identity.t :=
  match file_of s w with
  | None => Err NotExist
  | Some data => match decodeIdentity data with Ok c => Ok c | Err m => Err (Failed m) end
  end.

Definition claim_removed (w : agent_world) : agent_world :=
  match claim_file w with
  | None => w
  | Some c => w <| claim_file := None |> <| log := ClaimRemoved c (status_file (executor w)) :: log w |>
  end.

Definition restarted (w : agent_world) : agent_world :=
  match read_slot ActiveSlot (executor w) with
  | Ok c => w <| current := c |> <| running := false |> <| status_ptr := None |> <| published := None |>
  | Err _ => w
  end.

Definition post {A} (c : panel_call) (reply : option A) (o : outcome P) (w : agent_world) :
    option (result failure A * agent_world) :=
  let secret := set (staged (executor w)) || set (wiping (executor w)) in
  let w' := w <| log := Asked c (claim_file w) secret :: log w |> in
  match o, reply with
  | Fails, _ => Some (Err (Failed "send runtime token rotation request"), w)
  | FailsLate, _ => Some (Err (Failed "read runtime token rotation response"), w')
  | _, Some a => Some (Ok a, w')
  | _, None => None
  end.

Definition perform {X} (o : aop X) (ans : outcome P) (w : agent_world) : option (X * agent_world) :=
  match o in aop X return option (X * agent_world) with
  | SwapRunning => Some (negb (running w), w <| running := true |>)
  | ClearRunning => Some (tt, w <| running := false |>)
  | ExecutionRunning | JournalActive => match ans with Flag b => Some (b, w) | _ => None end
  | LifecycleBlockers => match ans with Blocks b => Some (b, w) | _ => None end
  | CurrentIdentity => Some (current w, w)
  | StoreIdentity c => Some (tt, w <| current := c |>)
  | LoadStatusPtr => Some (status_ptr w, w)
  | StoreStatusPtr s => Some (tt, w <| status_ptr := s |>)
  | LoadPublished => Some (published w, w)
  | StorePublished s => Some (tt, w <| published := s |>)
  | Execute r =>
      match ans with
      | Fails => Some (Err (Failed "connect to local executor"), w)
      | Refuses => Some (Err (Local "target_busy"), w)
      | Serves version policy answers lost =>
          let (w', reply) := serve_request version policy answers r w in Some (executor_reply lost reply, w')
      | _ => None
      end
  | LoadRuntimeIdentity s =>
      match ans with
      | Yes => Some (read_slot s (executor w), w)
      | Fails => Some (Err (Failed "identity file is unsafe"), w)
      | _ => None
      end
  | StatClaim =>
      match ans with
      | Yes => Some (Ok (set (claim_file w)), w)
      | Fails => Some (Err (Failed "stat runtime token claim state"), w)
      | _ => None
      end
  | ReadClaim =>
      match ans with
      | Yes => Some (Ok (claim_file w), w)
      | Fails => Some (Err (Failed "read runtime token claim state"), w)
      | _ => None
      end
  | WriteClaim c =>
      match ans with
      | Yes => Some (Ok tt, w <| claim_file := Some c |>)
      | Fails => Some (Err (Failed "install runtime token claim state"), w)
      | FailsLate => Some (Err (Failed "sync runtime token claim state"), w <| claim_file := Some c |>)
      | _ => None
      end
  | RemoveClaim =>
      match ans with
      | Yes => Some (Ok tt, claim_removed w)
      | Fails => Some (Err (Failed "remove runtime token claim state"), w)
      | FailsLate => Some (Err (Failed "sync runtime token claim state"), claim_removed w)
      | _ => None
      end
  | RandomBytes =>
      match ans with
      | Bytes l => if (length l =? 16)%nat && forallb (fun b => (b <? 256)%N) l then Some (Ok l, w) else None
      | Fails => Some (Err (Failed "generate runtime token claim identity"), w)
      | _ => None
      end
  | Clock => match ans with At t => Some (t, w) | _ => None end
  | PostClaim url id revision claimID token =>
      post (PanelClaim url id revision claimID token)
        (match ans with GivesClaim c => Some c | _ => None end) ans w
  | PostProof url id proof token =>
      post (PanelProof url id proof token) (match ans with GivesRotation r => Some r | _ => None end) ans w
  | PostCancelAck url id revision token =>
      post (PanelCancelAck url id revision token) (match ans with GivesRotation r => Some r | _ => None end) ans w
  | PostHeartbeat token capabilities =>
      match ans with
      | Yes => Some (Ok tt, w <| log := Beaten token capabilities :: log w |>)
      | Fails | FailsLate => Some (Err (Failed "heartbeat failed"), w)
      | _ => None
      end
  | Restart => match ans with Yes => Some (tt, restarted w) | _ => None end
  end.

#[global] Instance agent_handler : Handler aop agent_world (agent_answer P) := fun X o ans w =>
  perform o (out ans) (w <| executor := run_background (executor w) (before ans) |>).

(** ** The claim store *)

Definition loadClaim : aio (option ClaimState.t) :=
  let? found := call ReadClaim in
  match found with
  | None => Ret (Ok None)
  | Some c =>
      match ClaimState.Validate c with
      | Ok _ => Ret (Ok (Some c))
      | Err m => stop m
      end
  end.

Definition statClaim : aio bool := call StatClaim.

Definition saveClaim (c : ClaimState.t) : aio unit :=
  match ClaimState.Validate c with
  | Err m => stop m
  | Ok _ =>
      let? present := statClaim in
      if present then
        let? found := loadClaim in
        ensure (found ==? Some c) "runtime token claim state already exists with another binding"
      else call (WriteClaim c)
  end.

Definition deleteClaim (expected : ClaimState.t) : aio unit :=
  let? found := loadClaim in
  match found with
  | None => Ret (Ok tt)
  | Some c =>
      let? _ := ensure (c ==? expected) "runtime token claim state changed before cleanup" in
      call RemoveClaim
  end.

Definition newRuntimeTokenClaimID : aio string :=
  let? value := call RandomBytes in Ret (Ok (claim_id_of_bytes value)).

Definition deleteRuntimeTokenClaimState (r : Rotation.t) : aio unit :=
  let? found := loadClaim in
  match found with
  | None => Ret (Ok tt)
  | Some c =>
      let? _ := ensure (ClaimState.matches c r) "runtime token claim state changed before cleanup" in
      deleteClaim c
  end.

(** ** The executor's client *)

Definition executeRuntimeCredentialRequest (r : CredentialRequest.t) : aio CredentialStatus.t :=
  match CredentialRequest.Validate r with
  | Err m => stop m
  | Ok _ => call (Execute r)
  end.

(** [None]: the executor has no rotation. *)
Definition RuntimeCredentialStatus (serviceID : string) : aio (option CredentialStatus.t) :=
  let* reply := executeRuntimeCredentialRequest
    (CredentialRequest.mk LocalExecutorMutationProtocolVersion "runtime_credential_status" (TrimSpace serviceID)
       None 0 0 0 0 false) in
  match reply with
  | Ok s => Ret (Ok (Some s))
  | Err (Local code) => if code ==? "target_not_found" then Ret (Ok None) else Ret (Err (Local code))
  | Err e => Ret (Err e)
  end.

Definition validateRuntimeCredentialDirectiveBinding (r : Rotation.t) : bool := negb (Rotation.binding_invalid r).

Definition mutation_request (operation : string) (r : Rotation.t) (token : string) : CredentialRequest.t :=
  CredentialRequest.mk LocalExecutorMutationProtocolVersion operation (Rotation.ServiceID r)
    (Some (Mutation.mk (Rotation.ID r) (Rotation.ExecutionHostID r) (Rotation.PreviousTokenID r)
             (Rotation.StagedTokenID r) (Rotation.Revision r) token))
    (Rotation.ExpectedSourcePolicyRevision r) (Rotation.ExpectedOwnershipEpoch r)
    (Rotation.ExpectedProjectionRevision r) (Rotation.ExpectedLocalExecutorPolicyRevision r) false.

Definition executeRuntimeCredentialMutation (operation : string) (r : Rotation.t) (token : string) :
    aio CredentialStatus.t :=
  let? _ := ensure (validateRuntimeCredentialDirectiveBinding r) "runtime credential directive is invalid" in
  let? s := executeRuntimeCredentialRequest (mutation_request operation r token) in
  let? _ := ensure (runtimeCredentialDirectiveMatchesStatus r s)
              "local executor runtime credential response binding changed" in
  Ret (Ok s).

Definition PrepareRuntimeCredential (r : Rotation.t) := executeRuntimeCredentialMutation "runtime_credential_prepare" r "".
Definition StageRuntimeCredential (r : Rotation.t) (token : string) :=
  executeRuntimeCredentialMutation "runtime_credential_stage" r token.
Definition MarkRuntimeCredentialProofReady (r : Rotation.t) :=
  executeRuntimeCredentialMutation "runtime_credential_proof_ready" r "".
Definition ActivateRuntimeCredential (r : Rotation.t) := executeRuntimeCredentialMutation "runtime_credential_activate" r "".
Definition CancelRuntimeCredential (r : Rotation.t) := executeRuntimeCredentialMutation "runtime_credential_cancel" r "".
Definition FinalizeRuntimeCredential (r : Rotation.t) := executeRuntimeCredentialMutation "runtime_credential_finalize" r "".

(** ** The Panel's client *)

Definition post_binding_ok (id : string) (revision : Z) (token : string) : bool :=
  re_match identifierPattern (TrimSpace id) && (1 <=? revision)%Z && validBoundedSecret token.

Definition ClaimRuntimeTokenRotationCredential (url id : string) (revision : Z) (claimID token : string) :
    aio ClaimResult.t :=
  let? _ := ensure (re_match identifierPattern (TrimSpace claimID) && (claimID ==? TrimSpace claimID))
              "runtime token rotation claim identity is invalid" in
  let? _ := ensure (post_binding_ok id revision token) "runtime token rotation request binding is invalid" in
  let? c := call (PostClaim url (TrimSpace id) revision claimID token) in
  let? _ := ensure (is_ok (Rotation.Validate (ClaimResult.rotation c)) && (Rotation.ID (ClaimResult.rotation c) ==? id) &&
                    re_match identifierPattern (ClaimResult.TokenID c) &&
                    (ClaimResult.TokenID c ==? Rotation.StagedTokenID (ClaimResult.rotation c)) &&
                    validBoundedSecret (ClaimResult.RuntimeToken c))
              "runtime token rotation claim response is invalid" in
  Ret (Ok c).

Definition ProveRuntimeTokenRotationHeartbeat (url id : string) (proof : HeartbeatProof.t) (token : string) :
    aio Rotation.t :=
  match HeartbeatProof.validate proof with
  | Err m => stop m
  | Ok _ =>
      let? _ := ensure (re_match identifierPattern (TrimSpace id) && validBoundedSecret token)
                  "runtime token rotation request binding is invalid" in
      let? r := call (PostProof url (TrimSpace id) proof token) in
      let? _ := ensure (is_ok (Rotation.Validate r) && (Rotation.ID r ==? id))
                  "runtime token rotation heartbeat response is invalid" in
      Ret (Ok r)
  end.

Definition AcknowledgeRuntimeTokenRotationCancel (url id : string) (revision : Z) (token : string) : aio Rotation.t :=
  let? _ := ensure (post_binding_ok id revision token) "runtime token rotation request binding is invalid" in
  let? r := call (PostCancelAck url (TrimSpace id) revision token) in
  let? _ := ensure (is_ok (Rotation.Validate r) && (Rotation.ID r ==? id))
              "runtime token rotation transition response is invalid" in
  Ret (Ok r).

(** ** The agent's memory *)

Definition setRuntimeCredentialStatus (status : option CredentialStatus.t) : prog aop unit :=
  match status with
  | None =>
      let* _ := call (StoreStatusPtr None) in
      call (StorePublished None)
  | Some s =>
      let* _ := call (StoreStatusPtr (Some s)) in
      let* seen := call LoadPublished in
      match seen with
      | Some other => if other !=? s then call (StorePublished None) else Ret tt
      | None => Ret tt
      end
  end.

Definition runtimeTokenRotationHeartbeatPublished (s : CredentialStatus.t) : prog aop bool :=
  let* seen := call LoadPublished in
  Ret match seen with
      | Some other => (CredentialStatus.Phase other ==? PhaseLocalStaged) && (other ==? s)
      | None => false
      end.

Definition recordRuntimeTokenRotationHeartbeat : prog aop unit :=
  let* status := call LoadStatusPtr in
  match status with
  | Some s => if CredentialStatus.Phase s !=? PhaseLocalStaged then call (StorePublished None)
              else call (StorePublished (Some s))
  | None => call (StorePublished None)
  end.

(** Only the token of the identity may change.  An identity in memory has passed
    [Config.Validate], so [IsManagedBootstrap] holds of it. *)
Definition replaceRuntimeIdentity (c : Identity.t) : aio unit :=
  let* now := call CurrentIdentity in
  if (Identity.PanelURL c !=? Identity.PanelURL now) || (Identity.NodeID c !=? Identity.NodeID now) ||
     (Identity.ServiceName c !=? Identity.ServiceName now)
  then stop "runtime token rotation changed immutable Host Agent identity"
  else let* _ := call (StoreIdentity c) in Ret (Ok tt).

(** The rotation's part of one heartbeat. *)
Definition heartbeat : prog aop unit :=
  let* status := call LoadStatusPtr in
  let* identity := call CurrentIdentity in
  let* sent := call (PostHeartbeat (Identity.RuntimeToken identity) (addRuntimeTokenRotationCapabilities status)) in
  match sent with
  | Err _ => Ret tt
  | Ok _ => recordRuntimeTokenRotationHeartbeat
  end.

(** ** Claiming the credential *)

Definition new_claim (d : Rotation.t) (claimID : string) (now : GoTime.t) : ClaimState.t :=
  ClaimState.mk runtimeTokenClaimStateVersion (Rotation.ID d) (Rotation.ServiceID d) (Rotation.ExecutionHostID d)
    (Rotation.PreviousTokenID d) (Rotation.StagedTokenID d) claimID 1 (Rotation.ExpectedOwnershipEpoch d)
    (Rotation.ExpectedSourcePolicyRevision d) (Rotation.ExpectedProjectionRevision d)
    (Rotation.ExpectedLocalExecutorPolicyRevision d) (GoTime.Add (GoTime.UTC now) runtimeCredentialStagedMaxAge).

(** The claim that is on disk for this rotation, or a new one. *)
Definition durable_claim (d : Rotation.t) : aio ClaimState.t :=
  let? found := loadClaim in
  match found with
  | Some c =>
      let? _ := ensure (ClaimState.matches c d) "runtime token claim state belongs to another rotation" in
      let* now := call Clock in
      let? _ := ensure (GoTime.Before (GoTime.UTC now) (ClaimState.ExpiresAt c))
                  "runtime token claim replay expired locally" in
      Ret (Ok c)
  | None =>
      let? _ := ensure (Rotation.Revision d ==? 1)%Z "claimed runtime credential has no durable claim identity" in
      let? claimID := newRuntimeTokenClaimID in
      let* now := call Clock in
      let c := new_claim d claimID now in
      let? _ := saveClaim c in
      Ret (Ok c)
  end.

Definition claimAndStageRuntimeTokenRotation (identity : Identity.t) (d : Rotation.t) : aio CredentialStatus.t :=
  let? c := durable_claim d in
  let? claimed := ClaimRuntimeTokenRotationCredential (Identity.PanelURL identity) (Rotation.ID d) 1
                    (ClaimState.ClaimID c) (Identity.RuntimeToken identity) in
  let? _ := match validateRuntimeCredentialClaimResult claimed d with Ok _ => Ret (Ok tt) | Err m => stop m end in
  let? next := StageRuntimeCredential (ClaimResult.rotation claimed) (ClaimResult.RuntimeToken claimed) in
  let? _ := ensure (CredentialStatus.Phase next ==? PhaseLocalStaged)
              "local executor did not complete runtime credential staging" in
  let? _ := deleteClaim c in
  Ret (Ok next).

(** ** Cancelling *)

Definition retirePreparedRuntimeCredential (s : CredentialStatus.t) : aio unit :=
  let? s :=
    if CredentialStatus.Phase s ==? PhaseClaimPrepared then
      let revision := (CredentialStatus.RotationRevision s + 1)%Z in
      let? next := CancelRuntimeCredential (rotation_of s "cancel_requested" revision) in
      let? _ := ensure ((CredentialStatus.Phase next ==? PhaseCancelReady) &&
                        (CredentialStatus.RotationRevision next ==? revision)%Z)
                  "local executor did not retire the prepared runtime credential" in
      Ret (Ok next)
    else Ret (Ok s) in
  let? _ := ensure (CredentialStatus.Phase s ==? PhaseCancelReady)
              "prepared runtime credential retirement state is invalid" in
  let? _ := deleteRuntimeTokenClaimState (runtimeCredentialRotationFromStatus s) in
  let revision := (CredentialStatus.RotationRevision s + 1)%Z in
  let? finalized := CancelRuntimeCredential (rotation_of s "canceled" revision) in
  ensure ((CredentialStatus.Phase finalized ==? PhaseCancelled) &&
          (CredentialStatus.RotationRevision finalized ==? revision)%Z)
    "local executor did not finalize prepared runtime credential retirement".

(** The executor prepares the cancel, the Panel acknowledges it, the claim goes, the
    executor's ledger goes last. *)
Definition cancel_rotation (s : CredentialStatus.t) (rotation : Rotation.t) : aio unit :=
  let? (s, rotation) :=
    if CredentialStatus.Phase s !=? PhaseCancelReady then
      let? cancelled := CancelRuntimeCredential rotation in
      let? _ := ensure (CredentialStatus.Phase cancelled ==? PhaseCancelReady)
                  "local executor did not prepare token rotation cancel" in
      let* _ := setRuntimeCredentialStatus (Some cancelled) in
      Ret (Ok (cancelled, runtimeCredentialRotationFromStatus cancelled))
    else Ret (Ok (s, rotation)) in
  let* active := call CurrentIdentity in
  let? acknowledged := AcknowledgeRuntimeTokenRotationCancel (Identity.PanelURL active) (Rotation.ID rotation)
                         (Rotation.Revision rotation) (Identity.RuntimeToken active) in
  let? _ := ensure ((Rotation.Status acknowledged ==? "canceled") &&
                    (Rotation.Revision acknowledged ==? CredentialStatus.RotationRevision s + 1)%Z &&
                    runtimeCredentialDirectiveMatchesStatus acknowledged s)
              "runtime token rotation cancel acknowledgement is invalid" in
  let? _ := deleteRuntimeTokenClaimState acknowledged in
  let? finalized := CancelRuntimeCredential acknowledged in
  let? _ := ensure (CredentialStatus.Phase finalized ==? PhaseCancelled)
              "local executor did not finalize token rotation cancel" in
  let* _ := setRuntimeCredentialStatus None in
  Ret (Ok tt).

(** ** One step of the loop

    [true] goes on to the next step, [false] ends the run without an error. *)

Definition claim_step (identity : Identity.t) (d : Rotation.t) : aio bool :=
  let? next := claimAndStageRuntimeTokenRotation identity d in
  let* _ := setRuntimeCredentialStatus (Some next) in
  Ret (Ok false).

Definition prepared_step (identity : Identity.t) (directive : option Rotation.t) : aio bool :=
  match directive with
  | None => Ret (Ok false)
  | Some d =>
      if (Rotation.Status d !=? "staged") || ((Rotation.Revision d !=? 1)%Z && (Rotation.Revision d !=? 2)%Z)
      then stop "prepared runtime token rotation has no claimable directive"
      else claim_step identity d
  end.

Definition staged_step (identity : Identity.t) (directive : option Rotation.t) (rotation : Rotation.t) : aio bool :=
  let* loaded := call (LoadRuntimeIdentity StagedSlot) in
  match loaded with
  | Err e =>
      match e, directive with
      | NotExist, Some d =>
          if (Rotation.Status d ==? "staged") && (Rotation.Revision d ==? 2)%Z then claim_step identity d
          else stop "load staged runtime identity for local-stage retry"
      | _, _ => stop "load staged runtime identity for local-stage retry"
      end
  | Ok staged =>
      let? next := StageRuntimeCredential rotation (Identity.RuntimeToken staged) in
      let? _ := ensure (CredentialStatus.Phase next ==? PhaseLocalStaged)
                  "local executor did not acknowledge the staged identity" in
      let? _ := deleteRuntimeTokenClaimState rotation in
      let* _ := setRuntimeCredentialStatus (Some next) in
      Ret (Ok false)
  end.

Definition prove_step (agentVersion : string) (s : CredentialStatus.t) (rotation : Rotation.t) : aio bool :=
  let* beaten := runtimeTokenRotationHeartbeatPublished s in
  if negb beaten then Ret (Ok false)
  else
    let* loaded := call (LoadRuntimeIdentity StagedSlot) in
    match loaded with
    | Err _ => stop "load staged runtime identity for heartbeat proof"
    | Ok staged =>
        let? proved := ProveRuntimeTokenRotationHeartbeat (Identity.PanelURL staged) (Rotation.ID rotation)
                         (runtimeTokenHeartbeatProof s agentVersion) (Identity.RuntimeToken staged) in
        let? _ := ensure (panel_transition_ok proved s "heartbeat_proved" (CredentialStatus.RotationRevision s + 1))
                    "runtime credential panel transition is invalid" in
        let? next := MarkRuntimeCredentialProofReady proved in
        let? _ := ensure (CredentialStatus.Phase next ==? PhaseProofReady)
                    "local executor did not persist heartbeat proof" in
        let* _ := setRuntimeCredentialStatus (Some next) in
        Ret (Ok true)
    end.

Definition activate_step (rotation : Rotation.t) : aio bool :=
  let? next := ActivateRuntimeCredential rotation in
  let? _ := ensure (CredentialStatus.Phase next ==? PhaseActivated)
              "local executor did not activate the runtime identity" in
  let* _ := setRuntimeCredentialStatus (Some next) in
  Ret (Ok true).

Definition finalize_step (directive : option Rotation.t) (s : CredentialStatus.t) (rotation : Rotation.t) : aio bool :=
  let* loaded := call (LoadRuntimeIdentity ActiveSlot) in
  match loaded with
  | Err _ => stop "load activated Host Agent identity"
  | Ok active =>
      let? _ := replaceRuntimeIdentity active in
      let? _ := deleteRuntimeTokenClaimState rotation in
      let? finalized := FinalizeRuntimeCredential rotation in
      let? _ := ensure ((CredentialStatus.Phase finalized ==? CredentialStatus.Phase s) &&
                        (CredentialStatus.RotationRevision finalized ==? CredentialStatus.RotationRevision s)%Z)
                  "local executor did not finalize terminal runtime credential state" in
      let* _ := setRuntimeCredentialStatus None in
      Ret (Ok (set directive))
  end.

Definition cancelling (status : string) : bool := (status ==? "cancel_requested") || (status ==? "canceled").

(** A prepared or cancelled ledger that the Panel's policy has given up. *)
Definition retirable (directive : option Rotation.t) (authoritative : bool) (s : CredentialStatus.t) : bool :=
  let p := CredentialStatus.Phase s in
  ((p ==? PhaseCancelReady) &&
   (authoritative || match directive with
                     | Some d => runtimeCredentialStatusCanBeRetiredForNewDirective s d
                     | None => false
                     end)) ||
  ((p ==? PhaseClaimPrepared) &&
   (authoritative || match directive with
                     | Some d => negb (runtimeCredentialDirectiveMatchesStatus d s) &&
                                 runtimeCredentialStatusCanBeRetiredForNewDirective s d
                     | None => false
                     end)).

(** The executor has a ledger. *)
Definition tracked_step (agentVersion : string) (identity : Identity.t) (directive : option Rotation.t)
    (authoritative : bool) (s : CredentialStatus.t) : aio bool :=
  let p := CredentialStatus.Phase s in
  if retirable directive authoritative s then
    let? _ := retirePreparedRuntimeCredential s in
    let* _ := setRuntimeCredentialStatus None in
    Ret (Ok true)
  else if match directive with Some d => negb (runtimeCredentialDirectiveMatchesStatus d s) | None => false end &&
          (p !=? PhaseActivated) && (p !=? PhaseManualRecovered)
  then stop "runtime token rotation policy changed during local recovery"
  else
    let rotation := match directive with
                    | Some d => if cancelling (Rotation.Status d) then d else runtimeCredentialRotationFromStatus s
                    | None => runtimeCredentialRotationFromStatus s
                    end in
    if (p ==? PhaseCancelReady) || cancelling (Rotation.Status rotation) then
      let? _ := cancel_rotation s rotation in Ret (Ok false)
    else if p ==? PhaseClaimPrepared then prepared_step identity directive
    else if p ==? PhaseExpired then
      let? _ := deleteRuntimeTokenClaimState rotation in
      stop "runtime token rotation staged credential expired locally"
    else if (p ==? PhaseStageBound) || (p ==? PhaseStaged) then staged_step identity directive rotation
    else if p ==? PhaseLocalStaged then prove_step agentVersion s rotation
    else if p ==? PhaseProofReady then activate_step rotation
    else if (p ==? PhaseActivated) || (p ==? PhaseManualRecovered) then finalize_step directive s rotation
    else stop "local runtime token rotation phase is invalid".

(** The executor has none. *)
Definition untracked_step (identity : Identity.t) (directive : option Rotation.t) (authoritative : bool) : aio bool :=
  match directive with
  | None =>
      if authoritative then
        let? found := loadClaim in
        match found with
        | Some c => let? _ := deleteClaim c in Ret (Ok false)
        | None => Ret (Ok false)
        end
      else Ret (Ok false)
  | Some d =>
      if Rotation.Status d ==? "cancel_requested" then
        let? found := loadClaim in
        let? _ := ensure match found with Some c => ClaimState.matches c d | None => false end
                    "untracked token rotation cancel has no matching durable claim" in
        let? cancelled := CancelRuntimeCredential d in
        let? _ := ensure (CredentialStatus.Phase cancelled ==? PhaseCancelReady)
                    "local executor did not verify untracked token rotation cancel" in
        let* _ := setRuntimeCredentialStatus (Some cancelled) in
        Ret (Ok true)
      else if (Rotation.Status d !=? "staged") || ((Rotation.Revision d !=? 1)%Z && (Rotation.Revision d !=? 2)%Z)
      then stop "runtime token rotation has no recoverable local stage"
      else if (Rotation.Revision d ==? 1)%Z then
        let? found := loadClaim in
        let? _ :=
          match found with
          | Some c =>
              if ClaimState.matches c d then Ret (Ok tt)
              else
                let? _ := ensure (runtimeTokenClaimCanBeRetiredForNewDirective c d)
                            "runtime token claim state belongs to another rotation" in
                deleteClaim c
          | None => Ret (Ok tt)
          end in
        let? prepared := PrepareRuntimeCredential d in
        let? _ := ensure ((CredentialStatus.Phase prepared ==? PhaseClaimPrepared) &&
                          (CredentialStatus.RotationRevision prepared ==? Rotation.Revision d)%Z)
                    "local executor did not prepare the runtime credential claim" in
        let* _ := setRuntimeCredentialStatus (Some prepared) in
        Ret (Ok true)
      else claim_step identity d
  end.

Definition step (agentVersion : string) (directive : option Rotation.t) (authoritative : bool) : aio bool :=
  let* identity := call CurrentIdentity in
  let? status := RuntimeCredentialStatus (Identity.NodeID identity) in
  let* _ := setRuntimeCredentialStatus status in
  match status with
  | Some s => tracked_step agentVersion identity directive authoritative s
  | None => untracked_step identity directive authoritative
  end.

Fixpoint steps (n : nat) (agentVersion : string) (directive : option Rotation.t) (authoritative : bool) : aio unit :=
  match n with
  | O => stop "runtime token rotation exceeded the local transition bound"
  | S n =>
      let? again := step agentVersion directive authoritative in
      if again then steps n agentVersion directive authoritative else Ret (Ok tt)
  end.

(** The guards before the loop. *)
Definition advance_unlocked (agentVersion : string) (directive : option Rotation.t) (authoritative : bool) : aio unit :=
  let* executing := call ExecutionRunning in
  if (executing : bool) then stop "host lifecycle mutation is active"
  else
    let* active := call JournalActive in
    if (active : bool) then stop "host job recovery blocks runtime token rotation"
    else
      let* b := call LifecycleBlockers in
      let b := Blockers.mk (Blockers.ActiveJob b) (Blockers.MutationInProgress b) (Blockers.RecoveryPending b) false
                 (Blockers.SelfUpdatePending b) (Blockers.ConsumedMutationRollbackPending b) in
      if Blockers.mutationBlocked b then stop "host lifecycle mutation blocks runtime token rotation"
      else steps 8 agentVersion directive authoritative.

Definition advanceRuntimeTokenRotation (agentVersion : string) (directive : option Rotation.t) (authoritative : bool) :
    aio unit :=
  let* swapped := call SwapRunning in
  if negb swapped then Ret (Ok tt)
  else
    let* done := advance_unlocked agentVersion directive authoritative in
    let* _ := call ClearRunning in
    Ret done.

Definition recoverRuntimeTokenRotation (agentVersion : string) : aio unit :=
  advanceRuntimeTokenRotation agentVersion None false.

(** [policy]: the policy that was fetched, and its rotation if it has one. *)
Definition reconcileRuntimeTokenRotation (agentVersion : string) (policy : option (option Rotation.t)) : aio unit :=
  match policy with
  | None => Ret (Ok tt)
  | Some None => advanceRuntimeTokenRotation agentVersion None true
  | Some (Some d) => advanceRuntimeTokenRotation agentVersion (Some d) false
  end.
End Agent.
