(* ===== verification/TokenPhases.v ===== *)
(** The executor's ledger seen from outside: which phases its programs can leave on
    disk, when the ledger can go, and what an answer says about it.  The host agent's
    theorems rest on these facts, which hold however the executor's own expiry runs and
    the operator's recovery interleave with the agent's requests. *)
From Stdlib Require Import Ascii String ZArith Lia.
From stdpp Require Import base decidable list strings.
From S2P Require Import Prelude Strings Regexp Patterns Effects Sha256 Json SelfUpdateState SelfUpdateGrant TokenRotation TokenExecutor TokenSafety TokenAgent.

Open Scope string_scope.

#[local] Opaque runtimeCredentialDigest.

Section Phases.
Context `{TimeZones} `{IdentityCodec} {P : Type} `{ExecutorPolicy P}.
Variable executorVersion : string.

Abbreviation handler := (handleLocalExecutorRuntimeCredential executorVersion).

(** ** What programs write *)

(** [writes]: the phases that may be saved; whether the ledger may be removed, and
    whether a staged file may be created. *)
Record licence := Licence { writes : string -> Prop; removes : Prop; stages : Prop }.

Definition obeys (l : licence) (X : Type) (o : op X) : Prop :=
  match o with
  | WriteStatus s => writes l (CredentialStatus.Phase s)
  | RemoveStatus => removes l
  | WriteStaged _ => stages l
  | _ => True
  end.

Section Walk.
Context (l : licence).

#[local] Create HintDb ledger.

Ltac ledger_walk := unfold require_no_wiping; unfold require, stat, fail; cbn zeta;
  repeat first [match goal with |- obeys _ _ _ => exact I end | solve [auto with ledger nocore] | only_step].

Lemma obeys_load_identity s : only (obeys l) (loadIdentity s).
Proof. unfold loadIdentity. ledger_walk. Qed.
#[local] Hint Resolve obeys_load_identity : ledger.

Lemma obeys_slot_digest s : only (obeys l) (slot_digest s).
Proof. unfold slot_digest. ledger_walk. Qed.
#[local] Hint Resolve obeys_slot_digest : ledger.

Lemma obeys_require_active d : only (obeys l) (require_active d).
Proof. unfold require_active. ledger_walk. Qed.

Lemma obeys_save s : writes l (CredentialStatus.Phase s) -> only (obeys l) (saveStatus s).
Proof. intros Hw. unfold saveStatus. ledger_walk. Qed.

Lemma obeys_wipe d : only (obeys l) (wipeAndRemoveIdentity d).
Proof. unfold wipeAndRemoveIdentity. ledger_walk. Qed.
#[local] Hint Resolve obeys_require_active obeys_save obeys_wipe : ledger.

Hypothesis (Hexpired : writes l PhaseExpired).

Lemma obeys_expire s b : only (obeys l) (expire_if_due s b).
Proof. unfold expire_if_due. ledger_walk. Qed.
#[local] Hint Resolve obeys_expire : ledger.

Lemma obeys_orphans : only (obeys l) cleanupExpiredOrphanedStagedIdentity.
Proof. unfold cleanupExpiredOrphanedStagedIdentity. ledger_walk. Qed.
#[local] Hint Resolve obeys_orphans : ledger.

(** Reconciliation of a ledger whose staged file is bound already. *)
Hypothesis (Hactivated : writes l PhaseActivated).

Lemma obeys_reconcile_late s :
  only (obeys l) (reconcile_staged s) /\ only (obeys l) (reconcile_local_staged s) /\
  (forall d, only (obeys l) (reconcile_terminal s d)) /\ only (obeys l) (reconcile_cancel_ready s).
Proof.
  unfold reconcile_staged, reconcile_local_staged, reconcile_cancel_ready, reconcile_terminal, identityCleanupComplete.
  split_and!; intros; ledger_walk.
Qed.

Hypothesis (Hstaged : writes l PhaseStaged).

Lemma obeys_reconcile_early s : only (obeys l) (reconcile_claim_prepared s) /\ only (obeys l) (reconcile_stage_bound s).
Proof.
  unfold reconcile_claim_prepared, reconcile_stage_bound, bindClaimPreparedStagedIdentity, bindStageBoundInstalledIdentity.
  split; ledger_walk.
Qed.

Lemma obeys_reconcile : only (obeys l) loadAndReconcileStatus.
Proof.
  unfold loadAndReconcileStatus, loadStatus. destruct_and?.
  ledger_walk; first [by apply obeys_reconcile_early|by apply obeys_reconcile_late].
Qed.

Hypothesis (Hrecovered : writes l PhaseManualRecovered).

Lemma obeys_recover policy rotationID : only (obeys l) (recoverAfterEmergencyManualReconfigure policy rotationID).
Proof.
  unfold recoverAfterEmergencyManualReconfigure, loadStatus, emergency_bind, emergency_due, finishEmergencyStagedCleanup,
    bindClaimPreparedStagedIdentity, bindStageBoundInstalledIdentity.
  ledger_walk.
Qed.

Lemma obeys_background b : only (obeys l) (background_prog b).
Proof.
  destruct b; cbn [background_prog]; unfold reconcileRuntimeCredentialExpiry;
    (apply only_bind; [|done]); [| |apply obeys_recover]; [pose proof obeys_reconcile|]; ledger_walk.
Qed.

(** Every request but the two that end a rotation keeps the ledger. *)
Definition ends_rotation (request : CredentialRequest.t) : bool :=
  one_of_strings (CredentialRequest.Operation request) ["runtime_credential_cancel"; "runtime_credential_finalize"].

Lemma obeys_bind_claim policy request m a bytes digest token current :
  writes l PhaseStageBound ->
  only (obeys l) (bind_claim executorVersion policy request m a bytes digest token current).
Proof.
  intros Hb. unfold bind_claim, policy_digest. destruct (already_bound current); [done|].
  assert (Hsave : forall s, writes l (CredentialStatus.Phase s) ->
    only (obeys l) (let? _ := saveStatus s in Ret (Ok s))) by (intros s Hs; ledger_walk).
  destruct current as [s|].
  - apply (Hsave (_ <| CredentialStatus.Phase := _ |> <| _ := _ |> <| _ := _ |> <| _ := _ |>)), Hb.
  - split; [done|]. intros now. destruct (Policy_SHA256 policy); [|done]. apply (Hsave (new_status _ _ _ _ _ _ _ _ _ _)), Hb.
Qed.
#[local] Hint Resolve obeys_bind_claim : ledger.

Lemma obeys_stage policy url request m a bytes current :
  writes l PhaseStageBound -> writes l PhaseLocalStaged -> stages l ->
  only (obeys l) (stage executorVersion policy url request m a bytes current).
Proof.
  intros Hb Hl Hs.
  unfold stage, stage_claim, staged_slot_ready, install_staged, acknowledge, writeStagedIdentity. ledger_walk.
Qed.

Lemma obeys_activate url m current : only (obeys l) (activateCredential url m current).
Proof. unfold activateCredential, writeActiveIdentity. ledger_walk. Qed.

Lemma obeys_handle policy request :
  (forall p, p <> PhaseCancelReady -> writes l p) -> stages l -> ends_rotation request = false ->
  only (obeys l) (handler policy request).
Proof.
  intros Hw Hs He. unfold ends_rotation, one_of_strings in He. cbn [existsb] in He. bool_to_prop.
  assert (Hp : writes l PhaseClaimPrepared /\ writes l PhaseProofReady /\ writes l PhaseStageBound /\ writes l PhaseLocalStaged)
    by (split_and!; by apply Hw). destruct Hp as (Hcp & Hpr & Hsb & Hls).
  unfold handleLocalExecutorRuntimeCredential, mutate, dispatch, prepare, markProofReady, policy_digest.
  rewrite (bool_decide_eq_false_2 (_ = "runtime_credential_cancel")), (bool_decide_eq_false_2 (_ = "runtime_credential_finalize")) by done.
  pose proof obeys_reconcile. pose proof obeys_activate. pose proof obeys_stage. ledger_walk.
Qed.
End Walk.

(** ** Facts about the ledger that last *)

Definition phases (S : string -> Prop) (w : world) : Prop :=
  forall s, status_file w = Some s -> S (CredentialStatus.Phase s).

(** No cancel is ready; the claim is no longer needed; no secret is staged; there is no
    ledger, or there is one. *)
Definition unready : world -> Prop := phases (fun p => p <> PhaseCancelReady).
Definition past_claim (p : string) : Prop := p <> PhaseClaimPrepared /\ p <> PhaseStageBound /\ p <> PhaseStaged.
Definition settled : world -> Prop := phases past_claim.
Definition clean (w : world) : Prop := staged w = None /\ wiping w = None.
Definition rootless (w : world) : Prop := status_file w = None.
Definition ledgered (w : world) : Prop := status_file w <> None.

Ltac handle_cases E :=
  repeat match type of E with
  | observe _ _ _ = _ => apply observe_cases in E; subst
  | effect _ _ _ _ = _ => apply effect_cases in E as [[-> | ->] _]
  | match ?x with _ => _ end = _ => destruct x eqn:?; try discriminate E
  | Some _ = Some _ => injection E as ? <-
  end.

Lemma kept_phases (S : string -> Prop) removes stages X (o : op X) ans x w w' :
  obeys (Licence S removes stages) X o -> phases S w -> handle o ans w = Some (x, w') -> phases S w'.
Proof.
  intros Ho Hw E. destruct o; cbn in E, Ho; handle_cases E; try done; intros s' Es; cbn in Es; try (by apply Hw).
  by injection Es as <-.
Qed.

Lemma kept_ledger writes stages X (o : op X) ans x w w' :
  obeys (Licence writes False stages) X o -> ledgered w -> handle o ans w = Some (x, w') -> ledgered w'.
Proof. intros Ho Hw E. destruct o; cbn in E, Ho; handle_cases E; done. Qed.

Lemma kept_clean writes removes X (o : op X) ans x w w' :
  obeys (Licence writes removes False) X o -> clean w -> handle o ans w = Some (x, w') -> clean w'.
Proof.
  intros Ho [Hs Hw] E. destruct o; cbn in E, Ho; handle_cases E; try done; try (by split).
  all: by rewrite Hw in *.
Qed.

Lemma wp_phases {A} (S : string -> Prop) (p : prog op A) w :
  only (obeys (Licence S True True)) p -> phases S w -> wp (phases S) p (fun _ => phases S) w.
Proof. apply wp_only. intros *. apply kept_phases. Qed.

(** A fact that the executor's own activity cannot end. *)
Class Stable (K : world -> Prop) : Prop :=
  stable b answers w : K w -> K (run (background_prog b) answers w).1.

Lemma stable_wp (K : world -> Prop) : (forall b w, K w -> wp K (background_prog b) any w) -> Stable K.
Proof. intros HK b answers w Hw. by apply (wp_sound K _ any), HK. Qed.

#[export] Instance stable_and K K' : Stable K -> Stable K' -> Stable (fun w => K w /\ K' w).
Proof. intros HK HK' b answers w [Hw Hw']. split; by apply stable. Qed.

#[export] Instance stable_true : Stable (fun _ => True).
Proof. done. Qed.

#[export] Instance stable_unready : Stable unready.
Proof.
  apply stable_wp. intros b w Hw. eapply wp_mono; [|apply wp_phases; [by apply obeys_background|done]]. done.
Qed.

#[export] Instance stable_clean : Stable clean.
Proof.
  apply stable_wp. intros b w Hw.
  eapply wp_mono; [|apply (wp_only (obeys (Licence (fun _ => True) True False))); [|by apply obeys_background|done]]; [done|].
  intros *. apply kept_clean.
Qed.

Lemma wp_settled_reconcile w : settled w -> wp settled loadAndReconcileStatus any w.
Proof.
  intros Hw. apply wp_bind_ok, wp_load_status; [done|done| |].
  - intros _. apply wp_bind_ok. eapply wp_mono; [|apply wp_phases; [by apply obeys_orphans|done]].
    intros [[]|e] v Hv _; [by apply wp_ret|done].
  - intros s Es _. destruct (Hw s Es) as (Hcp & Hsb & _). cbn zeta.
    rewrite (bool_decide_eq_false_2 (_ = PhaseClaimPrepared)), (bool_decide_eq_false_2 (_ = PhaseStageBound)) by done.
    apply wp_bind_ok.
    destruct (obeys_reconcile_late (Licence past_claim True True)) with (s := s) as (O1 & O2 & O3 & O4); [done|done|].
    eapply (wp_mono _ _ any); [intros [s'|e] v Hv _; [by apply wp_ret|done]|].
    repeat match goal with |- wp _ (if ?b then _ else _) _ _ => destruct b end; try (by apply wp_ret);
      (eapply wp_mono; [|by apply wp_phases; [auto|]]; done).
Qed.

Lemma wp_settled_recover policy id w :
  settled w -> wp settled (recoverAfterEmergencyManualReconfigure policy id) any w.
Proof.
  intros Hw. unfold recoverAfterEmergencyManualReconfigure. destruct (PanelURL policy) as [url|]; [|by apply wp_ret].
  destruct (_ || _); [by apply wp_ret|]. apply wp_bind_ok, (wp_look settled w Hw (Ok tt)); [done|done|].
  apply wp_bind_ok, wp_load_status; [done|done|by intros; apply wp_ret|]. intros s Es _.
  destruct (emergency_mismatch _ _ _); [by apply wp_ret|]. destruct (Hw s Es) as (Hcp & Hsb & _).
  unfold emergency_bind. rewrite (bool_decide_eq_false_2 (_ = PhaseClaimPrepared)) by done.
  apply wp_bind_ok, wp_bind_ok, wp_ret; [done|]. rewrite (bool_decide_eq_false_2 (_ = PhaseStageBound)) by done.
  apply wp_ret; [done|].
  eapply wp_mono; [|apply wp_phases; [|done]]; [done|]. unfold emergency_due, finishEmergencyStagedCleanup. cbn zeta.
  unfold require, fail.
  repeat match goal with
  | |- only _ (loadIdentity _) => apply obeys_load_identity
  | |- only _ (wipeAndRemoveIdentity _) => apply obeys_wipe
  | |- only _ (saveStatus _) => apply obeys_save
  | |- obeys _ _ _ => exact I
  | _ => only_step
  end. done.
Qed.

(** The operator's identity leaves the ledger alone. *)
Lemma wp_installs (K : world -> Prop) data w :
  K w -> K (w <| active := Some data |> <| installed := (installed w ++ [data])%list |>) ->
  wp K (call (InstallIdentity data)) any w.
Proof.
  intros Hw Hk. apply wp_call; [done|]. intros ans x v E. cbn in E. by apply effect_cases in E as [[-> | ->] _].
Qed.

#[export] Instance stable_settled : Stable settled.
Proof.
  apply stable_wp. intros [|data|policy id] w Hw; apply wp_discard; [|by apply wp_installs|by apply wp_settled_recover].
  apply wp_bind_ok, (wp_look settled w Hw (Ok tt)); [done|done|]. apply wp_bind_ok.
  eapply wp_mono; [|by apply wp_settled_reconcile]. intros [found|e] v Hv _; [|done].
  by apply (wp_look settled v Hv (Ok tt)).
Qed.

Lemma wp_rootless_orphans w : rootless w -> wp rootless cleanupExpiredOrphanedStagedIdentity any w.
Proof.
  intros Hw. eapply (wp_mono rootless _ (fun _ => rootless)); [done|].
  apply (wp_only (obeys (Licence (fun _ => False) True True))); [|by apply obeys_orphans|done].
  intros X o ans x u u' Ho Hu E. destruct o; cbn in E, Ho; handle_cases E; done.
Qed.

#[export] Instance stable_rootless : Stable rootless.
Proof.
  apply stable_wp. intros [|data|policy id] w Hw; apply wp_discard; [|by apply wp_installs|].
  - apply wp_bind_ok, (wp_look rootless w Hw (Ok tt)); [done|done|].
    apply wp_bind_ok, wp_bind_ok, wp_load_status; [done|done| |intros s Es; unfold rootless in Hw; congruence].
    intros _. apply wp_bind_ok. eapply wp_mono; [|by apply wp_rootless_orphans]. intros [[]|e] v Hv _; [|done].
    apply wp_ret; [done|]. by apply (wp_look rootless v Hv (Ok tt)).
  - unfold recoverAfterEmergencyManualReconfigure. destruct (PanelURL policy) as [url|]; [|by apply wp_ret].
    destruct (_ || _); [by apply wp_ret|]. apply wp_bind_ok, (wp_look rootless w Hw (Ok tt)); [done|done|].
    apply wp_bind_ok, wp_load_status; [done|done|by intros; apply wp_ret|]. intros s Es. unfold rootless in Hw. congruence.
Qed.

Lemma rootless_settled w : rootless w -> settled w.
Proof. intros Hw s Es. unfold rootless in Hw. congruence. Qed.

Lemma rootless_unready w : rootless w -> unready w.
Proof. intros Hw s Es. unfold rootless in Hw. congruence. Qed.

(** ** What an answer says *)

Lemma wp_trivial {A} (p : prog op A) w : wp (fun _ => True) p any w.
Proof. revert w. induction p as [a|X o k IH]; intros w; split; [done|done|done|]. intros. apply IH. Qed.

Lemma wp_also {A} (I : world -> Prop) (p : prog op A) Q Q' w :
  wp I p Q w -> wp (fun _ => True) p Q' w -> wp I p (fun a v => Q a v /\ Q' a v) w.
Proof.
  intros Hi Hq. eapply (wp_weaken (fun v => I v /\ True)); [tauto|]. by apply wp_and.
Qed.

(** What the executor's status tells about its ledger. *)
Definition told (s : CredentialStatus.t) (v : world) : Prop :=
  (CredentialStatus.Phase s <> PhaseCancelReady -> unready v) /\
  (past_claim (CredentialStatus.Phase s) -> settled v) /\
  (CredentialStatus.Phase s = PhaseCancelReady -> clean v).

Lemma reconciled_told v s :
  reconciled v s -> (CredentialStatus.Phase s <> PhaseCancelReady -> unready v) -> told s v.
Proof.
  intros (f & Ef & _ & Hf & _ & _ & Hend) Hu. split_and!; [done| |exact Hend].
  intros (Hcp & Hsb & Hst) s' Es'. destruct Hf as [-> |[Hf|Hf]]; try done.
  rewrite Ef in Es'. injection Es' as <-. done.
Qed.

Lemma wp_reconcile_unready w :
  wp (fun _ => True) loadAndReconcileStatus
    (fun r v => forall s, r = Ok (Some s) -> CredentialStatus.Phase s <> PhaseCancelReady -> unready v) w.
Proof.
  destruct (status_file w) as [s|] eqn:Es; [destruct (decide (CredentialStatus.Phase s = PhaseCancelReady)) as [Ep|Ep]|].
  - apply wp_bind_ok, wp_load_status; [done|done|congruence|]. intros s' Es' _. assert (s' = s) as -> by congruence.
    rewrite Ep. change (wp (fun _ => True) (let? s := reconcile_cancel_ready s in Ret (Ok (Some s)))
      (fun r v => forall s, r = Ok (Some s) -> CredentialStatus.Phase s <> PhaseCancelReady -> unready v) w).
    apply wp_bind_ok, wp_bind_ok, wp_bind_ok. eapply wp_mono; [|apply wp_trivial]. intros [[]|e] v _ _; [|done].
    apply wp_bind_ok. eapply wp_mono; [|apply wp_trivial]. intros [[]|e] v' _ _; [|done]. apply wp_ret; [done|].
    apply wp_bind. eapply wp_mono; [|apply wp_trivial]. intros [] u _ _; (apply wp_ret; [done|]); [|done].
    apply wp_ret; [done|]. intros s0 [= <-]. congruence.
  - assert (Hw : unready w) by (intros s' Es'; congruence).
    eapply (wp_weaken unready); [done|]. eapply wp_mono; [|apply wp_phases; [by apply obeys_reconcile|exact Hw]]. done.
  - assert (Hw : unready w) by (intros s' Es'; congruence).
    eapply (wp_weaken unready); [done|]. eapply wp_mono; [|apply wp_phases; [by apply obeys_reconcile|exact Hw]]. done.
Qed.

Definition says (r : result string CredentialStatus.t) (Q : CredentialStatus.t -> world -> Prop) (v : world) : Prop :=
  match r with Ok s => Q s v | Err code => code = "target_not_found" -> rootless v end.

Lemma wp_status_told policy request w :
  CredentialRequest.Operation request = "runtime_credential_status" -> accounted w ->
  wp accounted (handler policy request) (fun r => says r told) w.
Proof.
  intros Eo Ha. unfold handleLocalExecutorRuntimeCredential. destruct (is_err _); [by apply wp_ret|].
  destruct (PanelURL policy) as [url|]; [|by apply wp_ret]. destruct (_ || _); [by apply wp_ret|].
  apply wp_bind, (wp_look accounted w Ha (Ok tt)); [done|by intros e; apply wp_ret|]. cbn [is_err].
  apply wp_bind. eapply wp_mono; [|apply wp_also; [by apply wp_reconcile_status|apply wp_reconcile_unready]].
  intros [current|e] v Hv [Hc Hu]; [|by apply wp_ret]. rewrite Eo. apply wp_ret; [done|].
  destruct current as [s|]; [|intros _; apply Hc]. destruct (negb _); [done|]. unfold runtimeCredentialResponse.
  destruct (is_ok _); [|done]. apply reconciled_told; [exact Hc|eauto].
Qed.

(** A mutation's answer, from that of its handler. *)
Lemma wp_mutation_told policy request (Q : CredentialStatus.t -> world -> Prop) w :
  CredentialRequest.Operation request <> "runtime_credential_status" -> accounted w ->
  (forall url m a bytes current v, accounted v -> entry_state v current ->
     wp accounted (dispatch executorVersion policy url request m a bytes current)
       (fun r u => match r with Ok s => Q s u | Err _ => True end) v) ->
  wp accounted (handler policy request) (fun r u => match r with Ok s => Q s u | Err _ => True end) w.
Proof.
  intros Eo Ha Hd. unfold handleLocalExecutorRuntimeCredential. destruct (is_err _); [by apply wp_ret|].
  destruct (PanelURL policy) as [url|]; [|by apply wp_ret]. destruct (_ || _); [by apply wp_ret|].
  apply wp_bind, (wp_look accounted w Ha (Ok tt)); [done|by intros e; apply wp_ret|]. cbn [is_err].
  apply wp_bind. eapply wp_mono; [|by apply wp_reconcile_status]. intros [current|e] v Hv Hc; [|by apply wp_ret].
  rewrite bool_decide_eq_false_2 by done. unfold mutate. destruct (CredentialRequest.RuntimeCredential request) as [m|];
    [|by apply wp_ret]. destruct (_ || _); [by apply wp_ret|].
  apply wp_bind, wp_load_identity; [done|by intros e; apply wp_ret|].
  intros a data _ _. destruct (_ || _); [by apply wp_ret|]. apply wp_bind, wp_bind_ok.
  eapply wp_mono; [|by apply Hd]. intros [s|e] u Hu Hq; [|by apply wp_ret].
  apply wp_bind_ok, (wp_look accounted u Hu (Ok tt)); [done|by intros e; apply wp_ret|]. apply wp_ret; [done|].
  apply wp_ret; [done|]. unfold runtimeCredentialResponse. by destruct (is_ok _).
Qed.

Lemma wp_acknowledge_settled url m s w :
  wp (fun _ => True) (acknowledge url m s) (fun r v => is_ok r = true -> settled v) w.
Proof.
  unfold acknowledge. apply wp_bind_ok. eapply wp_mono; [|apply wp_trivial]. intros [d|e] v _ _; [|done].
  apply wp_bind_ok, wp_require; [done|done|]. intros _. apply wp_bind_ok.
  eapply wp_mono; [|apply wp_trivial]. intros [rotation|e] u _ _; [|done]. destruct (negb _); [by apply wp_ret|].
  cbn zeta. apply wp_bind_ok, wp_save_status; [done|done|]. intros _. split; [done|]. intros [[]|e]; [|done].
  apply wp_ret; [done|]. intros _ s' [= <-]. done.
Qed.

Lemma wp_stage_settled policy url request m a bytes current w :
  entry_state w current ->
  wp (fun _ => True) (stage executorVersion policy url request m a bytes current)
    (fun r v => match r with Ok s => CredentialStatus.Phase s = PhaseLocalStaged -> settled v | Err _ => True end) w.
Proof.
  intros Hc. unfold stage. destruct (_ !=? _)%Z; [by apply wp_ret|].
  assert (Hclaim : wp (fun _ => True) (stage_claim executorVersion policy url request m a bytes current)
    (fun r v => match r with Ok s => CredentialStatus.Phase s = PhaseLocalStaged -> settled v | Err _ => True end) w).
  { unfold stage_claim. destruct (_ ==? _); [by apply wp_ret|].
    destruct (marshalIdentity _) as [data|]; [|by apply wp_ret]. destruct (data ==? bytes); [by apply wp_ret|]. cbn zeta.
    destruct (match already_bound current with Some _ => _ | None => _ end); [by apply wp_ret|].
    apply wp_bind_ok. eapply wp_mono; [|apply wp_trivial]. intros [[]|e] v1 _ _; [|done].
    apply wp_bind_ok. eapply wp_mono; [|apply wp_trivial]. intros [b|e] v2 _ _; [|done].
    apply wp_bind_ok. eapply wp_mono; [|apply wp_trivial]. intros [s1|e] v3 _ _; [|done].
    apply wp_bind_ok. eapply wp_mono; [|apply wp_trivial]. intros [s2|e] v4 _ _; [|done].
    eapply wp_mono; [|apply wp_acknowledge_settled]. intros [s|e] u _ Hu; [auto|done]. }
  destruct (stage_entry m current) as [[]|e]; destruct current as [s|]; try done; try (by apply wp_ret).
  apply wp_ret; [done|]. intros Ep. apply (reconciled_told w s); [exact Hc| |by rewrite Ep].
  intros _ s' Es'. destruct Hc as (f & Ef & _ & Hf & _). rewrite Ep in Hf. destruct Hf as [-> |[Hf|Hf]]; try done.
  assert (s' = s) as -> by congruence. by rewrite Ep.
Qed.

Lemma wp_stage_told policy request w :
  CredentialRequest.Operation request = "runtime_credential_stage" -> accounted w ->
  wp accounted (handler policy request)
    (fun r v => match r with Ok s => CredentialStatus.Phase s = PhaseLocalStaged -> settled v | Err _ => True end) w.
Proof.
  intros Eo Ha. apply (wp_mutation_told policy request (fun s v => CredentialStatus.Phase s = PhaseLocalStaged -> settled v));
    [by rewrite Eo|done|]. intros url m a bytes current v Hv Hc. unfold dispatch. rewrite Eo. cbn zeta.
  change (wp accounted (stage executorVersion policy url request m a bytes current)
    (fun r v => match r with Ok s => CredentialStatus.Phase s = PhaseLocalStaged -> settled v | Err _ => True end) v).
  eapply wp_mono; [|apply wp_also; [by apply wp_stage|by apply wp_stage_settled]]. by intros [s|e] u Hu [_ Hq].
Qed.

Definition cancel_told (s : CredentialStatus.t) (v : world) : Prop :=
  CredentialStatus.Phase s = PhaseCancelReady -> settled v /\ clean v.

Lemma settled_file v s : status_file v = Some s -> past_claim (CredentialStatus.Phase s) -> settled v.
Proof. intros Es Hp s' Es'. by assert (s' = s) as -> by congruence. Qed.

Lemma wp_cancel_settled m current w :
  accounted w -> entry_state w current ->
  wp accounted (cancel m current) (fun r v => match r with Ok s => cancel_told s v | Err _ => True end) w.
Proof.
  intros Ha Hc. unfold cancel. destruct current as [s|]; [|by apply wp_ret]. cbn zeta.
  repeat match goal with |- wp _ (if ?b then _ else _) _ _ => destruct b eqn:? end; try (by apply wp_ret); bool_to_prop.
  - assert (Ep : CredentialStatus.Phase s = PhaseCancelReady) by done. apply wp_ret; [done|]. intros _.
    pose proof (reconciled_told w s Hc) as Ht. destruct Ht as (_ & Hs & Hcl); [by rewrite Ep|].
    split; [apply Hs; by rewrite Ep|auto].
  - destruct Hc as (f & _ & _ & _ & _ & _ & Hend). destruct Hend as [Hs Hw]; [done|].
    eapply wp_mono; [|apply (wp_also accounted _ any (fun r v => match r with Ok s => cancel_told s v | Err _ => True end));
      [by apply wp_remove|]]; [by intros r v Hv [_ Hq]|].
    apply wp_bind_ok. eapply wp_mono; [|apply wp_trivial]. intros [[]|e] v _ _; [|done]. by apply wp_ret.
  - apply wp_bind_ok, wp_require_active; [done|done|]. intros _ _ _. set (s' := previous_active _).
    assert (Hsv : accounted (w <| status_file := Some s' |>)).
    { destruct (decide (staged w = None)) as [Hs|Hs]; [by apply accounted_no_staged|].
      apply (bound_save w s); [done| |done|done]. apply reconciled_bound; [done|]. intros E. apply Hs.
      destruct Hc as (f & _ & _ & _ & _ & Hn & _). auto. }
    apply wp_bind_ok, wp_save_status; [done|done|]. intros _. split; [done|]. intros [[]|e]; [|done].
    apply wp_bind_ok, wp_wipe; [done| |done]. intros v Hv (Ef & _ & _) Hst Hwi. apply wp_ret; [done|]. intros _.
    split; [by apply (settled_file v s')|done].
Qed.

Lemma wp_cancel_told policy request w :
  CredentialRequest.Operation request = "runtime_credential_cancel" -> accounted w ->
  wp accounted (handler policy request) (fun r v => match r with Ok s => cancel_told s v | Err _ => True end) w.
Proof.
  intros Eo Ha. apply wp_mutation_told; [by rewrite Eo|done|]. intros url m a bytes current v Hv Hc.
  unfold dispatch. rewrite Eo. by apply wp_cancel_settled.
Qed.

(** ** Who removes the ledger *)

Lemma wp_ledgered {A} (p : prog op A) w :
  only (obeys (Licence (fun _ => True) False True)) p -> ledgered w -> wp ledgered p any w.
Proof.
  intros Hp Hw. eapply wp_mono; [|apply (wp_only (obeys (Licence (fun _ => True) False True))); [|done|done]]; [done|].
  intros *. apply kept_ledger.
Qed.

Lemma wp_handle_ledgered policy request w :
  ends_rotation request = false -> ledgered w -> wp ledgered (handler policy request) any w.
Proof. intros He. apply wp_ledgered. by apply obeys_handle. Qed.

Lemma cancel_keeps m current :
  (forall s, current = Some s -> CredentialStatus.Phase s <> PhaseCancelReady) ->
  only (obeys (Licence (fun _ => True) False True)) (cancel m current).
Proof.
  intros Hc. unfold cancel. destruct current as [s|]; [|done]. specialize (Hc s eq_refl). cbn zeta.
  rewrite (bool_decide_eq_false_2 (_ = PhaseCancelReady)) by done. unfold fail.
  repeat match goal with
  | |- only _ (require_active _) => apply obeys_require_active
  | |- only _ (saveStatus _) => by apply obeys_save
  | |- only _ (wipeAndRemoveIdentity _) => apply obeys_wipe
  | _ => only_step
  end.
Qed.

(** A cancel request that meets a ledger in another phase only prepares the cancel. *)
Lemma wp_cancel_ledgered policy request w :
  CredentialRequest.Operation request = "runtime_credential_cancel" -> accounted w -> unready w -> ledgered w ->
  wp ledgered (handler policy request) any w.
Proof.
  intros Eo Ha Hu Hw. unfold handleLocalExecutorRuntimeCredential. destruct (is_err _); [by apply wp_ret|].
  destruct (PanelURL policy) as [url|]; [|by apply wp_ret]. destruct (_ || _); [by apply wp_ret|].
  apply wp_bind, (wp_look ledgered w Hw (Ok tt)); [done|by intros e; apply wp_ret|]. cbn [is_err].
  apply wp_bind.
  eapply (wp_mono _ _ (fun r v => any r v /\ load_post r v /\ unready v)).
  - intros [current|e] v Hv (_ & Hc & Huv); [|by apply wp_ret]. rewrite Eo.
    assert (Hcur : forall s, current = Some s -> CredentialStatus.Phase s <> PhaseCancelReady).
    { intros s ->. destruct Hc as (f & Ef & _ & Hf & _). destruct Hf as [-> |[-> | ->]]; [|done|done]. by apply Huv. }
    apply wp_ledgered; [|done]. unfold mutate, dispatch. rewrite Eo. cbn zeta.
    repeat match goal with
    | |- only _ (loadIdentity _) => apply obeys_load_identity
    | |- only _ (cancel _ _) => by apply cancel_keeps
    | |- obeys _ _ _ => exact I
    | |- only _ (if bool_decide _ then _ else _) => first [rewrite bool_decide_eq_false_2 by done|rewrite bool_decide_eq_true_2 by done]
    | _ => only_step
    end.
  - apply wp_also; [apply wp_ledgered; [by apply obeys_reconcile|done]|].
    eapply (wp_weaken (fun v => accounted v /\ unready v)); [done|].
    apply (wp_and accounted unready _ load_post (fun _ => unready)); [by apply wp_reconcile_status|].
    apply wp_phases; [by apply obeys_reconcile|done].
Qed.

(** ** Without a ledger

    A cancel request that names a rotation the executor does not track is refused,
    whatever the request says, and leaves no ledger. *)
Theorem untracked_cancel_is_refused policy request answers w v reply :
  CredentialRequest.Operation request = "runtime_credential_cancel" -> rootless w ->
  run (handler policy request) answers w = (v, Some reply) -> rootless v /\ is_err reply = true.
Proof.
  intros Eo Hw E. assert (Hp : wp rootless (handler policy request) (fun r _ => is_err r = true) w).
  { unfold handleLocalExecutorRuntimeCredential. destruct (is_err _); [by apply wp_ret|].
    destruct (PanelURL policy) as [url|]; [|by apply wp_ret]. destruct (_ || _); [by apply wp_ret|].
    apply wp_bind, (wp_look rootless w Hw (Ok tt)); [done|by intros e; apply wp_ret|]. cbn [is_err].
    apply wp_bind, wp_bind_ok, wp_load_status; [done|by intros e; apply wp_ret| |intros s Es; unfold rootless in Hw; congruence].
    intros _. apply wp_bind_ok. eapply wp_mono; [|by apply wp_rootless_orphans].
    intros [[]|e] u Hu _; [|by apply wp_ret]. apply wp_ret; [done|]. rewrite Eo. cbn [bool_decide decide].
    unfold mutate, dispatch. destruct (CredentialRequest.RuntimeCredential request) as [m|]; [|by apply wp_ret].
    rewrite Eo. change (bool_decide ("runtime_credential_cancel" = "runtime_credential_status")) with false. cbn match.
    destruct (_ || _); [by apply wp_ret|]. apply wp_bind, wp_load_identity; [done|by intros e; apply wp_ret|].
    intros a data _ _. destruct (_ || _); [by apply wp_ret|]. by repeat (apply wp_ret || split). }
  destruct (wp_sound _ _ _ answers _ Hp) as [Hv Hr]. rewrite E in Hv, Hr. split; [done|]. by apply Hr.
Qed.

(** The records of the Panel's answers and of installed identities only grow. *)
Definition grown (w v : world) : Prop :=
  (forall y, y ∈ answered w -> y ∈ answered v) /\ forall y, y ∈ installed w -> y ∈ installed v.

Lemma handle_grows X (o : op X) ans x w w' : handle o ans w = Some (x, w') -> grown w w'.
Proof.
  intros E. destruct o; cbn in E; handle_cases E; try done; split; try done; intros y Hy; cbn; apply elem_of_app; by left.
Qed.

Lemma run_grows {A} (p : prog op A) answers w : grown w (run p answers w).1.
Proof.
  revert answers w. induction p as [a|X o k IH]; intros [|ans answers] w; [done|done|done|]. cbn.
  destruct (handle o ans w) as [[x w']|] eqn:E; [|done]. destruct (handle_grows _ _ _ _ _ _ E) as [Ha Hi].
  destruct (IH x answers w') as [Ha' Hi']. split; auto.
Qed.
End Phases.
