(* ===== verification/TokenAgentSafety.v ===== *)
(** What the host agent guarantees while it rotates its runtime token, composed with the
    executor's own guarantees: nothing is claimed without a claim on disk, one durable
    record of the rotation always remains, the Panel hears of a proof or a cancel only
    when it is true, and the agent authenticates only with tokens that the Panel has
    activated. *)
From Stdlib Require Import Ascii String ZArith Lia.
From stdpp Require Import base decidable list strings.
From S2P Require Import Prelude Strings Regexp Patterns Effects Sha256 Json SelfUpdateState SelfUpdateGrant TokenRotation TokenExecutor TokenSafety TokenAgent TokenPhases.

Open Scope string_scope.

#[local] Opaque runtimeCredentialDigest handleLocalExecutorRuntimeCredential.

Section AgentSafety.
Context `{TimeZones} `{IdentityCodec} {P : Type} `{ExecutorPolicy P}.

(** ** The invariant *)

(** An event given the ones before it.  A credential is claimed under the claim on disk;
    a proof follows a heartbeat with the very status it is about; a cancel is
    acknowledged when no staged secret is left; a claim goes when the executor is past
    it, and the executor's ledger when there is no claim. *)
Definition event_ok (old : list event) (e : event) : Prop :=
  match e with
  | Asked (PanelClaim _ id _ claimID _) disk _ =>
      exists c, disk = Some c /\ ClaimState.ClaimID c = claimID /\ TrimSpace (ClaimState.RotationID c) = id
  | Asked (PanelProof _ id proof _) _ _ =>
      exists s version token, CredentialStatus.Phase s = PhaseLocalStaged /\
        TrimSpace (CredentialStatus.RotationID s) = id /\ proof = runtimeTokenHeartbeatProof s version /\
        Beaten token (addRuntimeTokenRotationCapabilities (Some s)) ∈ old
  | Asked (PanelCancelAck _ _ _ _) _ secret => secret = false
  | Beaten _ _ => True
  | ClaimRemoved _ ledger => forall s, ledger = Some s -> past_claim (CredentialStatus.Phase s)
  | LedgerRemoved _ disk => disk = None
  end.

Fixpoint log_ok (l : list event) : Prop :=
  match l with [] => True | e :: old => event_ok old e /\ log_ok old end.

(** The token of an identity that the operator installed. *)
Definition operator_token (token : string) (e : world) : Prop := exists data c,
  data ∈ installed e /\ decodeIdentity data = Ok c /\ Identity.RuntimeToken c = token.

(** The tokens the agent may use: the one it started with, those the Panel has activated,
    and those the operator installed. *)
Definition known (first : string) (w : agent_world) (token : string) : Prop :=
  token = first \/ (exists digest, panel_activated token digest (executor w)) \/ operator_token token (executor w).

(** The token that authenticates a request; the proof is made with the staged one. *)
Definition bearer (e : event) : option string :=
  match e with
  | Asked (PanelClaim _ _ _ _ token) _ _ | Asked (PanelCancelAck _ _ _ token) _ _ | Beaten token _ => Some token
  | _ => None
  end.

Definition published_ok (w : agent_world) : Prop := forall s, published w = Some s ->
  CredentialStatus.Phase s = PhaseLocalStaged /\
  exists token, Beaten token (addRuntimeTokenRotationCapabilities (Some s)) ∈ log w.

Section Invariant.
Context (e0 : world) (c0 : Identity.t) (data0 : string).
Hypothesis (Hactive0 : active e0 = Some data0).
Hypothesis (Hdata0 : decodeIdentity data0 = Ok c0).

Abbreviation tokens := (known (Identity.RuntimeToken c0)).

Record inv (w : agent_world) : Prop := Inv {
  inv_accounted : accounted (executor w);
  inv_guarded : guarded_active e0 (executor w);
  inv_log : log_ok (log w);
  inv_published : published_ok w;
  inv_current : tokens w (Identity.RuntimeToken (current w));
  inv_bearers : forall e token, e ∈ log w -> bearer e = Some token -> tokens w token;
}.

(** ** Between two operations of the agent *)

Record near (w v : agent_world) : Prop := Near {
  near_current : current v = current w;
  near_status : status_ptr v = status_ptr w;
  near_published : published v = published w;
  near_stable K : Stable K -> K (executor w) -> K (executor v);
}.

Definition env (w v : agent_world) : Prop := near w v /\ claim_file v = claim_file w /\ log v = log w.

Lemma near_refl w : near w w.
Proof. by split. Qed.

Lemma near_trans w u v : near w u -> near u v -> near w v.
Proof.
  intros [A1 A2 A3 A4] [B1 B2 B3 B4]. split; [congruence|congruence|congruence|].
  intros K HK Hk. exact (B4 K HK (A4 K HK Hk)).
Qed.

Lemma grown_known w v token : grown (executor w) (executor v) -> tokens w token -> tokens v token.
Proof.
  intros [Ha Hi] [-> |[[digest Ht]|(data & c & Hin & Ht)]]; [by left|right; left|right; right].
  - exists digest. by apply (panel_activated_grows (executor w)).
  - exists data, c. auto.
Qed.

#[local] Instance stable_grown e : Stable (grown e).
Proof. intros b answers w [Ha Hi]. destruct (run_grows (background_prog b) answers w) as [Ha' Hi']. split; auto. Qed.

Lemma near_known w v token : near w v -> tokens w token -> tokens v token.
Proof. intros Hn. apply grown_known. by apply (near_stable w v Hn (grown (executor w)) _). Qed.

Lemma background_guarded (e : world) (l : list (background P * list answer)) :
  accounted e -> guarded_active e0 e -> accounted (run_background e l) /\ guarded_active e0 (run_background e l).
Proof using H1.
  revert e. induction l as [|[b answers] l IH]; intros e Ha Hg; [done|].
  assert (Hp : token_entry (P := P) "" (background_prog b)) by (destruct b; constructor).
  destruct (wp_sound _ _ _ answers _ (entry_guarded "" e0 (background_prog b) e Hp (conj Ha Hg))) as [[Ha' Hg'] _].
  by apply IH.
Qed.

Lemma background_stable K (e : world) (l : list (background P * list answer)) :
  Stable K -> K e -> K (run_background e l).
Proof. intros HK. revert e. induction l as [|[b answers] l IH]; intros e He; [done|]. by apply IH, HK. Qed.

Lemma inv_env w l :
  inv w -> let v := w <| executor := run_background (executor w) l |> in inv v /\ env w v.
Proof.
  intros [Ha Hg Hl Hp Hc Hb] v. destruct (background_guarded (executor w) l Ha Hg) as [Ha' Hg'].
  assert (He : env w v) by (split; [split; [done|done|done|intros K HK; by apply background_stable]|done]).
  split; [|done]. destruct He as [Hn _]. split; try done; [by apply (near_known w)|].
  intros e token Hin E. apply (near_known w); [done|]. by eapply Hb.
Qed.

Lemma wp_agent_perform {X} (o : aop X) (Q : X -> agent_world -> Prop) w :
  inv w ->
  (forall v, inv v -> env w v -> forall a x u, perform o a v = Some (x, u) -> inv u /\ Q x u) -> wp inv (call o) Q w.
Proof.
  intros Hw Hp. apply wp_call; [done|]. intros [l a] x u E. destruct (inv_env w l Hw) as [Hv He].
  by eapply Hp; [..|exact E].
Qed.

(** ** Rules *)

(** What holds when a program ends without an error. *)
Definition succ {A} (F : A -> agent_world -> Prop) (r : result failure A) (v : agent_world) : Prop :=
  match r with Ok a => F a v | Err _ => True end.

Lemma wp_seq {A B} (p : aio A) (f : A -> aio B) F G w :
  wp inv p (succ F) w -> (forall a v, inv v -> F a v -> wp inv (f a) (succ G) v) -> wp inv (bind_ok p f) (succ G) w.
Proof. intros Hp Hf. apply wp_bind_ok. eapply wp_mono; [|exact Hp]. intros [a|e] v Hv Hr; [by apply Hf|done]. Qed.

Lemma wp_then {A B} (p : prog aop A) (f : A -> prog aop B) (F : A -> agent_world -> Prop) Q w :
  wp inv p F w -> (forall a v, inv v -> F a v -> wp inv (f a) Q v) -> wp inv (bind p f) Q w.
Proof. intros Hp Hf. apply wp_bind. eapply wp_mono; [|exact Hp]. auto. Qed.

Lemma wp_agent_ensure b m (F : unit -> agent_world -> Prop) w :
  inv w -> (b = true -> F tt w) -> wp inv (ensure b m) (succ F) w.
Proof. intros Hw Hb. apply wp_ret; [done|]. destruct b; [by apply Hb|done]. Qed.

Lemma wp_stop {A} m (F : A -> agent_world -> Prop) w : inv w -> wp inv (stop m) (succ F) w.
Proof. intros Hw. by apply wp_ret. Qed.

(** Operations that only look. *)
Definition looks {X} (o : aop X) : Prop :=
  match o with
  | ExecutionRunning | JournalActive | LifecycleBlockers | CurrentIdentity | LoadStatusPtr | LoadPublished
  | LoadRuntimeIdentity _ | StatClaim | ReadClaim | RandomBytes | Clock => True
  | _ => False
  end.

Lemma perform_looks {X} (o : aop X) (a : outcome P) v x u : looks o -> perform o a v = Some (x, u) -> u = v.
Proof.
  intros Ho E. destruct o; try done; cbn in E;
    repeat match type of E with match ?y with _ => _ end = _ => destruct y; try discriminate E end; by injection E as _ <-.
Qed.

Lemma wp_look_at {X} (o : aop X) (Q : X -> agent_world -> Prop) w :
  inv w -> looks o ->
  (forall v, inv v -> env w v -> forall a x, perform o a v = Some (x, v) -> Q x v) -> wp inv (call o) Q w.
Proof.
  intros Hw Ho HQ. apply wp_agent_perform; [done|]. intros v Hv He a x u E. pose proof (perform_looks o a v x u Ho E) as ->.
  split; [done|]. by eapply HQ.
Qed.

Lemma wp_current w (Q : Identity.t -> agent_world -> Prop) :
  inv w -> (forall v, inv v -> env w v -> Q (current v) v) -> wp inv (call CurrentIdentity) Q w.
Proof. intros Hw HQ. apply wp_look_at; [done|done|]. intros v Hv He a x [= <-]. auto. Qed.

Lemma wp_load_claim w :
  inv w -> wp inv loadClaim (succ (fun o v => env w v /\ o = claim_file v)) w.
Proof.
  intros Hw. apply (wp_seq _ _ (fun o v => env w v /\ o = claim_file v)).
  - apply wp_look_at; [done|done|]. intros v Hv He a x E. cbn in E. destruct a; try discriminate E; injection E as <-; done.
  - intros o v Hv [He ->]. destruct (claim_file v) as [c|] eqn:Ec; [|by apply wp_ret].
    destruct (ClaimState.Validate c); [by apply wp_ret|by apply wp_stop].
Qed.

(** A claim goes only when the executor is past it. *)
Definition claim_gone (w v : agent_world) : Prop := near w v /\ claim_file v = None.

Lemma inv_claim_removed w : inv w -> settled (executor w) -> inv (claim_removed w) /\ claim_gone w (claim_removed w).
Proof.
  intros Hw Hs. unfold claim_removed. destruct (claim_file w) as [c|] eqn:Ec; [|split; [done|split; [apply near_refl|done]]].
  destruct Hw as [Ha Hg Hl Hp Hc Hb]. split; [|split; [by split|done]]. split; try done.
  - intros s Es. destruct (Hp s Es) as [Hph [token Hin]]. split; [done|]. exists token. by right.
  - intros e token Hin E. apply elem_of_cons in Hin as [-> |Hin]; [done|]. by eapply Hb.
Qed.

Lemma wp_delete_claim c w :
  inv w -> settled (executor w) -> wp inv (deleteClaim c) (succ (fun _ => claim_gone w)) w.
Proof.
  intros Hw Hs. eapply wp_seq; [by apply wp_load_claim|]. intros o v Hv [[Hn [Ec El]] ->].
  destruct (claim_file v) as [c'|] eqn:Ev; [|by apply wp_ret].
  eapply (wp_seq _ _ (fun _ u => u = v)); [by apply wp_agent_ensure|]. intros [] u Hu ->.
  apply wp_agent_perform; [done|]. intros u' Hu' [Hn' _] a x z E.
  assert (Hs' : settled (executor u')) by (apply (near_stable _ _ Hn'), (near_stable _ _ Hn); [apply _|apply _|done]).
  destruct (inv_claim_removed u' Hu' Hs') as [Hi [Hn2 Hg]].
  assert (Hz : near w (claim_removed u')) by (eapply near_trans; [|exact Hn2]; by eapply near_trans).
  cbn in E. destruct a; try discriminate E; injection E as <- <-; split; done.
Qed.

Lemma wp_delete_rotation_claim r w :
  inv w -> settled (executor w) -> wp inv (deleteRuntimeTokenClaimState r) (succ (fun _ => claim_gone w)) w.
Proof.
  intros Hw Hs. eapply wp_seq; [by apply wp_load_claim|]. intros o v Hv [[Hn [Ec El]] ->].
  destruct (claim_file v) as [c|] eqn:Ev; [|by apply wp_ret].
  eapply (wp_seq _ _ (fun _ u => u = v)); [by apply wp_agent_ensure|]. intros [] u Hu ->.
  eapply wp_mono; [|apply wp_delete_claim; [done|]].
  - intros [[]|e] z Hz Hr; [|done]. destruct Hr as [Hn' Hg]. split; [by eapply near_trans|done].
  - by apply (near_stable _ _ Hn _ _).
Qed.

(** ** The agent's memory *)

Lemma wp_store_status s w (Q : unit -> agent_world -> Prop) :
  inv w -> (forall v, inv v -> env w v -> Q tt (v <| status_ptr := s |>)) -> wp inv (call (StoreStatusPtr s)) Q w.
Proof.
  intros Hw HQ. apply wp_agent_perform; [done|]. intros v Hv He a x u [= <- <-]. split; [|by apply HQ].
  destruct Hv as [Ha Hg Hl Hp Hc Hb]. by split.
Qed.

Lemma inv_unpublished w : inv w -> inv (w <| published := None |>).
Proof. intros [Ha Hg Hl Hp Hc Hb]. by split. Qed.

(** What stays when only the two status pointers change. *)
Definition kept (w v : agent_world) : Prop :=
  current v = current w /\ claim_file v = claim_file w /\ log v = log w /\
  forall K, Stable K -> K (executor w) -> K (executor v).

Lemma env_kept w v : env w v -> kept w v.
Proof. intros [[A1 A2 A3 A4] [B C]]. by split_and!. Qed.

Lemma kept_trans w u v : kept w u -> kept u v -> kept w v.
Proof.
  intros (A1 & A2 & A3 & A4) (B1 & B2 & B3 & B4). split_and!; [congruence|congruence|congruence|].
  intros K HK Hk. exact (B4 K HK (A4 K HK Hk)).
Qed.

Lemma wp_unpublish w : inv w -> wp inv (call (StorePublished None)) (fun _ => kept w) w.
Proof.
  intros Hw. apply wp_agent_perform; [done|]. intros v Hv He a x u [= <- <-]. split; [by apply inv_unpublished|].
  by apply env_kept in He.
Qed.

Lemma wp_set_status s w : inv w -> wp inv (setRuntimeCredentialStatus s) (fun _ => kept w) w.
Proof.
  intros Hw. unfold setRuntimeCredentialStatus.
  assert (Hst : forall o, wp inv (call (StoreStatusPtr o)) (fun _ => kept w) w)
    by (intros o; apply wp_store_status; [done|]; intros v Hv He; by apply env_kept in He).
  destruct s as [s|]; (eapply wp_then; [apply Hst|]); intros [] v Hv Hk.
  - eapply (wp_then _ _ (fun _ u => kept w u)).
    + apply wp_look_at; [done|done|]. intros u Hu He a x _. eapply kept_trans; [done|]. by apply env_kept.
    + intros seen u Hu Hk'. destruct seen as [other|]; [destruct (other !=? s)|]; try (by apply wp_ret).
      eapply wp_mono; [|by apply wp_unpublish]. intros [] z Hz Hkz. by eapply kept_trans.
  - eapply wp_mono; [|by apply wp_unpublish]. intros [] z Hz Hkz. by eapply kept_trans.
Qed.

(** ** Requests to the executor *)

Definition informs (r : CredentialRequest.t) (reply : result string CredentialStatus.t) (e : world) : Prop :=
  (CredentialRequest.Operation r = "runtime_credential_status" -> says reply told e) /\
  (CredentialRequest.Operation r = "runtime_credential_stage" ->
   match reply with Ok s => CredentialStatus.Phase s = PhaseLocalStaged -> settled e | Err _ => True end) /\
  (CredentialRequest.Operation r = "runtime_credential_cancel" ->
   match reply with Ok s => cancel_told s e | Err _ => True end).

(** A request that may end the rotation goes out when no claim is left, or when the
    ledger is not ready to end. *)
Definition in_order (r : CredentialRequest.t) (w : agent_world) : Prop :=
  ends_rotation r = false \/
  (CredentialRequest.Operation r = "runtime_credential_cancel" /\ unready (executor w)) \/ claim_file w = None.

Definition same_memory (w v : agent_world) : Prop :=
  current v = current w /\ status_ptr v = status_ptr w /\ published v = published w /\ claim_file v = claim_file w.

Lemma run_informs version policy r answers (e e' : world) reply :
  accounted e -> run (handleLocalExecutorRuntimeCredential version policy r) answers e = (e', Some reply) ->
  informs r reply e'.
Proof.
  intros Ha E.
  assert (Hpost : forall Q, wp accounted (handleLocalExecutorRuntimeCredential version policy r) Q e -> Q reply e').
  { intros Q HQ. destruct (wp_sound _ _ _ answers _ HQ) as [_ Hr]. rewrite E in Hr. by apply Hr. }
  split_and!; intros Eo.
  - apply (Hpost (fun r => says r told)). by apply wp_status_told.
  - apply (Hpost (fun r v => match r with Ok s => _ | Err _ => True end)). by apply wp_stage_told.
  - apply (Hpost (fun r v => match r with Ok s => _ | Err _ => True end)). by apply wp_cancel_told.
Qed.

Lemma run_in_order version policy r answers w s :
  inv w -> in_order r w -> status_file (executor w) = Some s ->
  status_file (run (handleLocalExecutorRuntimeCredential version policy r) answers (executor w)).1 = None ->
  claim_file w = None.
Proof.
  intros Hw Ho Es En. assert (Hl : ledgered (executor w)) by (unfold ledgered; congruence).
  destruct Ho as [He|[[Eo Hu]|Hc]]; [| |done]; exfalso.
  - by destruct (wp_sound _ _ _ answers _ (wp_handle_ledgered version policy r _ He Hl)).
  - pose proof (inv_accounted w Hw) as Ha.
    by destruct (wp_sound _ _ _ answers _ (wp_cancel_ledgered version policy r _ Eo Ha Hu Hl)).
Qed.

Lemma inv_served version policy r answers w e :
  inv w -> (run (handleLocalExecutorRuntimeCredential version policy r) answers (executor w)).1 = e ->
  inv (w <| executor := e |>).
Proof.
  intros [Ha Hg Hl Hp Hc Hb] <-.
  destruct (wp_sound _ _ _ answers _ (wp_active_handle version e0 (executor w) policy r Ha Hg)) as [[Ha' Hg'] _].
  assert (Hk : forall token, tokens w token -> tokens (w <| executor :=
    (run (handleLocalExecutorRuntimeCredential version policy r) answers (executor w)).1 |>) token).
  { intros token. apply grown_known, run_grows. }
  split; try done; [by apply Hk|]. intros ev token Hin E. apply Hk. by eapply Hb.
Qed.

Lemma inv_event w ev :
  inv w -> event_ok (log w) ev -> (forall token, bearer ev = Some token -> tokens w token) ->
  inv (w <| log := ev :: log w |>).
Proof.
  intros [Ha Hg Hl Hp Hc Hb] He Ht. split; try done.
  - intros s Es. destruct (Hp s Es) as [Hph [token Hin]]. split; [done|]. exists token. by right.
  - intros e token Hin E. apply elem_of_cons in Hin as [-> |Hin]; [by apply Ht|]. by eapply Hb.
Qed.

Lemma inv_serve version policy r answers w v reply :
  inv w -> in_order r w -> serve_request version policy answers r w = (v, reply) ->
  inv v /\ same_memory w v /\ (forall x, reply = Some x -> informs r x (executor v)).
Proof.
  intros Hw Ho. unfold serve_request.
  destruct (run (handleLocalExecutorRuntimeCredential version policy r) answers (executor w)) as [e re] eqn:E.
  assert (He : inv (w <| executor := e |>)) by (apply (inv_served version policy r answers); [done|by rewrite E]).
  assert (Hi : forall x, re = Some x -> informs r x e).
  { intros x ->. eapply run_informs; [apply inv_accounted, Hw|done]. }
  pose proof (fun s => run_in_order version policy r answers w s Hw Ho) as Hr. rewrite E in Hr. cbn in Hr.
  destruct (status_file (executor w)) as [s|], (status_file e) as [s'|]; intros [= <- <-]; try done.
  specialize (Hr s eq_refl eq_refl). split; [|done].
  pose proof (inv_event (w <| executor := e |>) (LedgerRemoved s (claim_file w)) He Hr) as Hev.
  apply Hev. discriminate.
Qed.

Lemma wp_agent_execute r w (Q : result failure CredentialStatus.t -> agent_world -> Prop) :
  inv w -> in_order r w ->
  (forall m v, inv v -> Q (Err (Failed m)) v) ->
  (forall code v, inv v -> same_memory w v -> (code = "target_not_found" -> informs r (Err code) (executor v)) ->
     Q (Err (Local code)) v) ->
  (forall s v, inv v -> same_memory w v -> informs r (Ok s) (executor v) -> Q (Ok (wire_status s)) v) ->
  wp inv (call (Execute r)) Q w.
Proof.
  intros Hw Ho Hf Hl Hok. apply wp_agent_perform; [done|]. intros v Hv [Hn [Ec El]] a x u E.
  assert (Hov : in_order r v).
  { destruct Ho as [Ho|[[Eo Hu]|Ho]]; [by left| |right; right; congruence].
    right; left. split; [done|]. by apply (near_stable _ _ Hn _ _). }
  assert (Hm : same_memory w v) by (destruct Hn; done).
  cbn in E. destruct a; try discriminate E; [injection E as <- <-; by split; [|apply Hf]| |injection E as <- <-; split; [done|by apply Hl]].
  destruct (serve_request version policy answers r v) as [u' reply] eqn:Es. injection E as <- <-.
  destruct (inv_serve _ _ _ _ _ _ _ Hv Hov Es) as (Hu & Hm' & Hi). split; [done|].
  assert (Hmw : same_memory w u') by (destruct Hm as (A1 & A2 & A3 & A4), Hm' as (B1 & B2 & B3 & B4); split_and!; congruence).
  unfold executor_reply. destruct lost; [by apply Hf|].
  destruct reply as [[s|code]|]; [by apply Hok; [..|apply Hi]| |by apply Hf].
  apply Hl; [done|done|]. intros _. by apply Hi.
Qed.

Lemma wp_mutation operation r token (F : CredentialStatus.t -> agent_world -> Prop) w :
  inv w -> in_order (mutation_request operation r token) w ->
  (forall s v, inv v -> same_memory w v -> informs (mutation_request operation r token) (Ok s) (executor v) ->
     F (wire_status s) v) ->
  wp inv (executeRuntimeCredentialMutation operation r token) (succ F) w.
Proof.
  intros Hw Ho HF. eapply (wp_seq _ _ (fun _ u => u = w)); [by apply wp_agent_ensure|]. intros [] u _ ->.
  apply (wp_seq _ _ F).
  - unfold executeRuntimeCredentialRequest. destruct (CredentialRequest.Validate _); [|by apply wp_stop].
    by apply wp_agent_execute.
  - intros s v Hv Hs. eapply (wp_seq _ _ (fun _ u => u = v)); [by apply wp_agent_ensure|]. intros [] u Hu ->. by apply wp_ret.
Qed.

Lemma wp_status id w :
  inv w ->
  wp inv (RuntimeCredentialStatus id)
    (succ (fun o v => same_memory w v /\ match o with Some s => told s (executor v) | None => rootless (executor v) end)) w.
Proof.
  intros Hw. unfold RuntimeCredentialStatus, executeRuntimeCredentialRequest.
  destruct (CredentialRequest.Validate _); [|by apply wp_bind, wp_ret].
  apply wp_bind, wp_agent_execute; [done|by left|by intros m v Hv; apply wp_ret| |].
  - intros code v Hv Hm Hi. destruct (code ==? "target_not_found") eqn:Ec; (apply wp_ret; [done|]); [|done].
    bool_to_prop. split; [done|]. by apply Hi.
  - intros s v Hv Hm Hi. apply wp_ret; [done|]. split; [done|]. by apply Hi.
Qed.

(** ** Claiming *)

Lemma new_claim_matches d id now : ClaimState.matches (new_claim d id now) d = true.
Proof. unfold ClaimState.matches. cbn. by rewrite !bool_decide_eq_true_2 by done. Qed.

Lemma wp_write_claim c w :
  inv w -> wp inv (call (WriteClaim c)) (succ (fun _ v => claim_file v = Some c /\ current v = current w)) w.
Proof.
  intros Hw. apply wp_agent_perform; [done|]. intros v [Ha Hg Hl Hp Hc Hb] [Hn _] a x u E.
  assert (Hi : inv (v <| claim_file := Some c |>)) by (by split).
  cbn in E. destruct a; try discriminate E; injection E as <- <-; split; try done. split; [done|]. apply Hn.
Qed.

Lemma wp_save_claim c w :
  inv w -> wp inv (saveClaim c) (succ (fun _ v => claim_file v = Some c /\ current v = current w)) w.
Proof.
  intros Hw. unfold saveClaim. destruct (ClaimState.Validate c) as [ok|m]; [|by apply wp_stop].
  eapply (wp_seq _ _ (fun _ => env w)).
  - apply wp_look_at; [done|done|]. intros v Hv He a x _. by destruct x.
  - intros present v Hv He. destruct present.
    + eapply wp_seq; [by apply wp_load_claim|]. intros o u Hu [He' ->]. apply wp_agent_ensure; [done|]. intros Eb. bool_to_prop.
      split; [done|]. destruct He as [Hn _], He' as [Hn' _]. rewrite (near_current _ _ Hn'). apply Hn.
    + eapply wp_mono; [|by apply wp_write_claim]. intros [[]|e] u Hu Hr; [|done]. destruct Hr as [Ec Eu]. split; [done|].
      rewrite Eu. destruct He as [Hn _]. apply Hn.
Qed.

Definition claimed (w : agent_world) (d : Rotation.t) (c : ClaimState.t) (v : agent_world) : Prop :=
  claim_file v = Some c /\ ClaimState.matches c d = true /\ current v = current w.

Lemma env_claimed w d c u v : claimed w d c u -> env u v -> claimed w d c v.
Proof. intros (Ec & Em & Eu) [[A1 _ _ _] [B _]]. split_and!; [congruence|done|congruence]. Qed.

Lemma wp_durable_claim d w : inv w -> wp inv (durable_claim d) (succ (claimed w d)) w.
Proof.
  intros Hw. unfold durable_claim. eapply wp_seq; [by apply wp_load_claim|]. intros o v Hv [[Hn [Ec El]] ->].
  destruct (claim_file v) as [c|] eqn:Ev.
  - eapply (wp_seq _ _ (fun _ u => u = v /\ ClaimState.matches c d = true)); [by apply wp_agent_ensure|]. intros [] u Hu [-> Em].
    assert (Hcl : claimed w d c v) by (split_and!; [done|done|apply Hn]).
    eapply (wp_then _ _ (fun _ => claimed w d c)).
    + apply wp_look_at; [done|done|]. intros u' Hu' He a x _. by eapply env_claimed.
    + intros now u' Hu' Hc'. eapply (wp_seq _ _ (fun _ z => z = u')); [by apply wp_agent_ensure|]. intros [] z Hz ->. by apply wp_ret.
  - eapply (wp_seq _ _ (fun _ u => u = v)); [by apply wp_agent_ensure|]. intros [] u Hu ->.
    eapply (wp_seq _ _ (fun _ u => current u = current w)).
    + eapply (wp_seq _ _ (fun _ => env v)); [apply wp_look_at; [done|done|]; intros u' Hu' He a x _; by destruct x|].
      intros bytes u' Hu' [Hn' _]. apply wp_ret; [done|]. cbn. rewrite (near_current _ _ Hn'). apply Hn.
    + intros id u' Hu' Eu. eapply (wp_then _ _ (fun _ z => current z = current w)).
      * apply wp_look_at; [done|done|]. intros z Hz [Hn' _] a x _. rewrite (near_current _ _ Hn'). done.
      * intros now z Hz Ez. cbn zeta. eapply wp_seq; [by apply wp_save_claim|]. intros [] y Hy [Ec' Ey]. apply wp_ret; [done|].
        split_and!; [done|apply new_claim_matches|congruence].
Qed.

(** ** Requests to the Panel *)

Lemma inv_post {A} c (reply : option A) (a : outcome P) v x u :
  inv v -> (forall secret, secret = set (staged (executor v)) || set (wiping (executor v)) ->
    event_ok (log v) (Asked c (claim_file v) secret) /\
    forall token, bearer (Asked c (claim_file v) secret) = Some token -> tokens v token) ->
  post c reply a v = Some (x, u) -> inv u /\ same_memory v u /\ executor u = executor v.
Proof.
  intros Hv He E. unfold post in E. destruct (He _ eq_refl) as [Hev Ht].
  pose proof (inv_event v (Asked c (claim_file v) (set (staged (executor v)) || set (wiping (executor v)))) Hv Hev Ht) as Hi.
  destruct a, reply; try discriminate E; injection E as <- <-; done.
Qed.

Lemma wp_claim_credential url d identity w c :
  inv w -> claimed w d c w -> identity = current w ->
  wp inv (ClaimRuntimeTokenRotationCredential url (Rotation.ID d) 1 (ClaimState.ClaimID c) (Identity.RuntimeToken identity))
    (succ (fun _ v => True)) w.
Proof.
  intros Hw Hc ->. eapply (wp_seq _ _ (fun _ u => u = w)); [by apply wp_agent_ensure|]. intros [] u _ ->.
  eapply (wp_seq _ _ (fun _ u => u = w)); [by apply wp_agent_ensure|]. intros [] u _ ->.
  eapply (wp_seq _ _ (fun _ _ => True)); [|intros claim v Hv _;
    eapply (wp_seq _ _ (fun _ _ => True)); [by apply wp_agent_ensure|]; intros; by apply wp_ret].
  apply wp_agent_perform; [done|]. intros v Hv He a x u E. cbn in E.
  destruct (env_claimed w d c w v Hc He) as (Ec & Em & Ecur).
  eapply inv_post in E as (Hu & _); [split; [exact Hu|by destruct x]|done|]. intros secret _. split.
  - exists c. split_and!; [done|done|]. unfold ClaimState.matches in Em. bool_to_prop. congruence.
  - intros token [= <-]. rewrite <- Ecur. apply inv_current, Hv.
Qed.

Lemma wp_claim_and_stage d identity w :
  inv w -> identity = current w -> wp inv (claimAndStageRuntimeTokenRotation identity d) (succ (fun _ _ => True)) w.
Proof.
  intros Hw Ei. unfold claimAndStageRuntimeTokenRotation. eapply wp_seq; [by apply wp_durable_claim|].
  intros c v Hv (Ec & Em & Ecur). eapply wp_seq; [apply wp_claim_credential; [done|by split_and!|congruence]|].
  intros result u Hu _. eapply (wp_seq _ _ (fun _ z => z = u)).
  { destruct (validateRuntimeCredentialClaimResult _ _); [by apply wp_ret|by apply wp_stop]. }
  intros [] z Hz ->.
  eapply (wp_seq _ _ (fun s v => CredentialStatus.Phase s = PhaseLocalStaged -> settled (executor v))).
  { apply wp_mutation; [done|by left|]. intros s v' Hv' _ (_ & Hs & _). by apply Hs. }
  intros next v' Hv' Hn. eapply (wp_seq _ _ (fun _ z => z = v' /\ settled (executor v'))).
  { apply wp_agent_ensure; [done|]. intros Eb. bool_to_prop. auto. }
  intros [] z' Hz' [-> Hs]. eapply wp_seq; [by apply wp_delete_claim|]. intros [] y Hy _. by apply wp_ret.
Qed.

(** ** Cancelling *)

Lemma wp_cancel_request r w :
  inv w -> (unready (executor w) \/ claim_file w = None) ->
  wp inv (CancelRuntimeCredential r)
    (succ (fun s v => CredentialStatus.Phase s = PhaseCancelReady -> settled (executor v) /\ clean (executor v))) w.
Proof.
  intros Hw Ho. apply wp_mutation; [done| |].
  - destruct Ho as [Hu|Hc]; [by right; left|by right; right].
  - intros s v Hv _ (_ & _ & Hs). by apply Hs.
Qed.

Lemma past_cancel_ready : past_claim PhaseCancelReady.
Proof. done. Qed.

Lemma wp_retire s w :
  inv w -> told s (executor w) -> wp inv (retirePreparedRuntimeCredential s) (succ (fun _ _ => True)) w.
Proof.
  intros Hw (Hu & Hs & Hc). unfold retirePreparedRuntimeCredential.
  eapply (wp_seq _ _ (fun s v => CredentialStatus.Phase s = PhaseCancelReady -> settled (executor v))).
  { destruct (_ ==? _) eqn:Ep; bool_to_prop.
    - cbn zeta. eapply wp_seq; [apply wp_cancel_request; [done|left; apply Hu; by rewrite Ep]|].
      intros next v Hv Hn. eapply (wp_seq _ _ (fun _ u => u = v)); [by apply wp_agent_ensure|]. intros [] u Hu' ->.
      apply wp_ret; [done|]. intros E. by apply Hn.
    - apply wp_ret; [done|]. intros E. apply Hs. rewrite E. apply past_cancel_ready. }
  intros s' v Hv Hs'. eapply (wp_seq _ _ (fun _ u => u = v /\ CredentialStatus.Phase s' = PhaseCancelReady)).
  { apply wp_agent_ensure; [done|]. intros Eb. by bool_to_prop. }
  intros [] u Hu' [-> Ep]. eapply wp_seq; [apply wp_delete_rotation_claim; auto|]. intros [] z Hz [_ Hg]. cbn zeta.
  eapply wp_seq; [apply wp_cancel_request; auto|]. intros s2 y Hy _. by apply wp_agent_ensure.
Qed.

Lemma wp_ack_cancel url id revision w :
  inv w -> clean (executor w) ->
  wp inv (AcknowledgeRuntimeTokenRotationCancel url id revision (Identity.RuntimeToken (current w)))
    (succ (fun _ v => near w v)) w.
Proof.
  intros Hw Hc. eapply (wp_seq _ _ (fun _ u => u = w)); [by apply wp_agent_ensure|]. intros [] u _ ->.
  eapply (wp_seq _ _ (fun _ => near w)); [|intros r v Hv Hn;
    eapply (wp_seq _ _ (fun _ u => u = v)); [by apply wp_agent_ensure|]; intros [] u Hu ->; by apply wp_ret].
  apply wp_agent_perform; [done|]. intros v Hv [Hn _] a x u E. cbn in E.
  eapply inv_post in E as (Hu & (A1 & A2 & A3 & _) & Ee); [|done|].
  - split; [done|]. destruct x; [|done]. eapply near_trans; [done|]. split; try done. intros K HK. by rewrite Ee.
  - intros secret ->. pose proof (near_stable _ _ Hn _ _ Hc) as [Hs Hwi]. rewrite Hs, Hwi. split; [done|].
    intros token [= <-]. rewrite <- (near_current _ _ Hn). apply inv_current, Hv.
Qed.

Lemma wp_cancel_rotation s rotation w :
  inv w -> told s (executor w) -> wp inv (cancel_rotation s rotation) (succ (fun _ _ => True)) w.
Proof.
  intros Hw (Hu & Hs & Hc). unfold cancel_rotation.
  eapply (wp_seq _ _ (fun _ v => settled (executor v) /\ clean (executor v))).
  { destruct (_ !=? _) eqn:Ep; bool_to_prop.
    - eapply wp_seq; [apply wp_cancel_request; auto|]. intros next v Hv Hn.
      eapply (wp_seq _ _ (fun _ u => u = v /\ settled (executor v) /\ clean (executor v))).
      { apply wp_agent_ensure; [done|]. intros Eb. bool_to_prop. auto. }
      intros [] u Hu' [-> Hk]. eapply wp_then; [by apply wp_set_status|]. intros [] z Hz (_ & _ & _ & HK).
      apply wp_ret; [done|]. by apply (HK (fun e => settled e /\ clean e) _).
    - apply wp_ret; [done|]. split; [apply Hs; rewrite Ep; apply past_cancel_ready|auto]. }
  intros [s' rotation'] v Hv Hk. eapply (wp_then _ _ (fun active u => active = current u /\ settled (executor u) /\ clean (executor u))).
  { apply wp_current; [done|]. intros u Hu' [Hn _]. split; [done|].
    by apply (near_stable _ _ Hn (fun e => settled e /\ clean e) _). }
  intros active u Hu' [-> [Hset Hcl]]. eapply wp_seq; [by apply wp_ack_cancel|]. intros acknowledged z Hz Hn.
  eapply (wp_seq _ _ (fun _ y => y = z)); [by apply wp_agent_ensure|]. intros [] y Hy ->.
  eapply wp_seq; [apply wp_delete_rotation_claim; [done|by apply (near_stable _ _ Hn _ _)]|]. intros [] y' Hy' [_ Hg].
  eapply wp_seq; [apply wp_cancel_request; auto|]. intros s2 y2 Hy2 _.
  eapply (wp_seq _ _ (fun _ y => y = y2)); [by apply wp_agent_ensure|]. intros [] y3 Hy3 ->.
  eapply wp_then; [by apply wp_set_status|]. intros [] y4 Hy4 _. by apply wp_ret.
Qed.

(** ** The steps of the loop *)

Lemma wp_set_return {A} (a : A) s w : inv w -> wp inv (let* _ := setRuntimeCredentialStatus s in Ret (Ok a)) (succ (fun _ _ => True)) w.
Proof. intros Hw. eapply wp_then; [by apply wp_set_status|]. intros [] v Hv _. by apply wp_ret. Qed.

Lemma wp_any_mutation operation r token w :
  inv w -> (ends_rotation (mutation_request operation r token) = false \/ claim_file w = None) ->
  wp inv (executeRuntimeCredentialMutation operation r token) (succ (fun _ _ => True)) w.
Proof. intros Hw Ho. apply wp_mutation; [done| |done]. unfold in_order. tauto. Qed.

Lemma wp_stage_request r token w :
  inv w ->
  wp inv (StageRuntimeCredential r token)
    (succ (fun s v => CredentialStatus.Phase s = PhaseLocalStaged -> settled (executor v))) w.
Proof. intros Hw. apply wp_mutation; [done|by left|]. intros s v Hv _ (_ & Hs & _). by apply Hs. Qed.

Lemma wp_claim_step identity d w : inv w -> identity = current w -> wp inv (claim_step identity d) (succ (fun _ _ => True)) w.
Proof.
  intros Hw Ei. eapply wp_seq; [by apply wp_claim_and_stage|]. intros next v Hv _. by apply wp_set_return.
Qed.

Lemma wp_prepared_step identity directive w :
  inv w -> identity = current w -> wp inv (prepared_step identity directive) (succ (fun _ _ => True)) w.
Proof.
  intros Hw Ei. unfold prepared_step. destruct directive as [d|]; [|by apply wp_ret].
  destruct (_ || _); [by apply wp_stop|by apply wp_claim_step].
Qed.

Lemma wp_staged_step identity directive rotation w :
  inv w -> identity = current w -> wp inv (staged_step identity directive rotation) (succ (fun _ _ => True)) w.
Proof.
  intros Hw Ei. unfold staged_step. eapply (wp_then _ _ (fun _ => env w)).
  { apply wp_look_at; [done|done|]. by intros v Hv He a x _. }
  intros loaded v Hv [Hn _]. destruct loaded as [staged|e].
  - eapply wp_seq; [by apply wp_stage_request|]. intros next u Hu Hs.
    eapply (wp_seq _ _ (fun _ z => z = u /\ settled (executor u))).
    { apply wp_agent_ensure; [done|]. intros Eb. bool_to_prop. auto. }
    intros [] z Hz [-> Hset]. eapply wp_seq; [by apply wp_delete_rotation_claim|]. intros [] y Hy _. by apply wp_set_return.
  - destruct e; try (by apply wp_stop). destruct directive as [d|]; [|by apply wp_stop].
    destruct (_ && _); [|by apply wp_stop]. apply wp_claim_step; [done|]. rewrite Ei. symmetry. apply Hn.
Qed.

Lemma wp_prove_request url s version token w :
  inv w -> published w = Some s ->
  wp inv (ProveRuntimeTokenRotationHeartbeat url (CredentialStatus.RotationID s) (runtimeTokenHeartbeatProof s version) token)
    (succ (fun _ _ => True)) w.
Proof.
  intros Hw Ep. unfold ProveRuntimeTokenRotationHeartbeat. destruct (HeartbeatProof.validate _); [|by apply wp_stop].
  eapply (wp_seq _ _ (fun _ u => u = w)); [by apply wp_agent_ensure|]. intros [] u _ ->.
  eapply (wp_seq _ _ (fun _ _ => True)); [|intros r v Hv _;
    eapply (wp_seq _ _ (fun _ _ => True)); [by apply wp_agent_ensure|]; intros; by apply wp_ret].
  apply wp_agent_perform; [done|]. intros v Hv [Hn _] o x u E. cbn in E.
  eapply inv_post in E as (Hu & _); [split; [exact Hu|by destruct x]|done|]. intros secret _. split; [|done].
  destruct (inv_published v Hv s) as [Hph [token' Hin]]; [by rewrite (near_published _ _ Hn)|].
  exists s, version, token'. by split_and!.
Qed.

Lemma wp_prove_step version s w :
  inv w -> wp inv (prove_step version s (runtimeCredentialRotationFromStatus s)) (succ (fun _ _ => True)) w.
Proof.
  intros Hw. unfold prove_step. eapply (wp_then _ _ (fun b v => b = true -> published v = Some s)).
  { eapply (wp_then _ _ (fun seen v => seen = published v)).
    - apply wp_look_at; [done|done|]. by intros v Hv He a x [= <-].
    - intros seen v Hv ->. apply wp_ret; [done|]. destruct (published v) as [other|]; [|done]. intros Eb. bool_to_prop. congruence. }
  intros beaten v Hv Hp. destruct beaten; [|by apply wp_ret]. specialize (Hp eq_refl). cbn [negb].
  eapply (wp_then _ _ (fun _ u => published u = Some s)).
  { apply wp_look_at; [done|done|]. intros u Hu [Hn _] a x _. by rewrite (near_published _ _ Hn). }
  intros loaded u Hu Hpu. destruct loaded as [staged|e]; [|by apply wp_stop].
  eapply wp_seq; [by apply wp_prove_request|]. intros proved z Hz _.
  eapply (wp_seq _ _ (fun _ _ => True)); [by apply wp_agent_ensure|]. intros [] y Hy _.
  eapply wp_seq; [apply wp_any_mutation; [done|by left]|]. intros next y' Hy' _.
  eapply (wp_seq _ _ (fun _ _ => True)); [by apply wp_agent_ensure|]. intros [] y2 Hy2 _. by apply wp_set_return.
Qed.

Lemma wp_activate_step rotation w : inv w -> wp inv (activate_step rotation) (succ (fun _ _ => True)) w.
Proof.
  intros Hw. eapply wp_seq; [apply wp_any_mutation; [done|by left]|]. intros next v Hv _.
  eapply (wp_seq _ _ (fun _ _ => True)); [by apply wp_agent_ensure|]. intros [] y2 Hy2 _. by apply wp_set_return.
Qed.

(** An identity read from the active file has a token the agent may use. *)
Lemma active_known w c : inv w -> read_slot ActiveSlot (executor w) = Ok c -> tokens w (Identity.RuntimeToken c).
Proof using Hactive0 Hdata0.
  intros Hw. unfold read_slot. cbn [file_of]. destruct (inv_guarded w Hw) as [[Ea|[(data & Ea & Hin)|(data & c' & Ea & Ed & Hin)]] _]; rewrite Ea.
  - rewrite Hactive0, Hdata0. intros [= <-]. by left.
  - destruct (decodeIdentity data) as [c'|] eqn:Ed; [|done]. intros [= <-]. right; right. by exists data, c'.
  - rewrite Ed. intros [= <-]. right; left. by eexists.
Qed.

Lemma inv_identity w c : inv w -> tokens w (Identity.RuntimeToken c) -> inv (w <| current := c |>).
Proof. intros [Ha Hg Hl Hp Hc Hb] Hk. by split. Qed.

Lemma wp_replace_identity c w :
  inv w -> tokens w (Identity.RuntimeToken c) -> settled (executor w) ->
  wp inv (replaceRuntimeIdentity c) (succ (fun _ v => settled (executor v))) w.
Proof.
  intros Hw Hk Hs. eapply (wp_then _ _ (fun _ => env w)).
  { apply wp_current; [done|]. by intros v Hv He. }
  intros now v Hv [Hn _]. destruct (_ || _); [by apply wp_stop|].
  eapply (wp_then _ _ (fun _ u => settled (executor u))); [|intros [] u Hu Hsu; by apply wp_ret].
  apply wp_agent_perform; [done|]. intros u Hu [Hn' _] a x z [= <- <-]. split.
  - apply inv_identity; [done|]. apply (near_known v); [done|]. by apply (near_known w).
  - cbn. apply (near_stable _ _ Hn'), (near_stable _ _ Hn); [apply _|apply _|done].
Qed.

Lemma wp_finalize_step directive s rotation w :
  inv w -> settled (executor w) -> wp inv (finalize_step directive s rotation) (succ (fun _ _ => True)) w.
Proof using Hactive0 Hdata0.
  intros Hw Hs. unfold finalize_step.
  eapply (wp_then _ _ (fun loaded v => settled (executor v) /\ forall c, loaded = Ok c -> tokens v (Identity.RuntimeToken c))).
  { apply wp_look_at; [done|done|]. intros v Hv [Hn _] a x E. split; [by apply (near_stable _ _ Hn _ _)|].
    intros c ->. apply active_known; [done|]. cbn in E. by destruct a; try discriminate E; injection E. }
  intros loaded v Hv [Hsv Hk]. destruct loaded as [c|e]; [|by apply wp_stop].
  eapply wp_seq; [apply wp_replace_identity; auto|]. intros [] u Hu Hsu.
  eapply wp_seq; [by apply wp_delete_rotation_claim|]. intros [] z Hz [_ Hg].
  eapply wp_seq; [apply wp_any_mutation; auto|]. intros finalized y Hy _.
  eapply (wp_seq _ _ (fun _ _ => True)); [by apply wp_agent_ensure|]. intros [] y2 Hy2 _. by apply wp_set_return.
Qed.

Lemma wp_tracked_step version identity directive authoritative s w :
  inv w -> identity = current w -> told s (executor w) ->
  wp inv (tracked_step version identity directive authoritative s) (succ (fun _ _ => True)) w.
Proof using Hactive0 Hdata0.
  intros Hw Ei Ht. unfold tracked_step. cbn zeta. destruct (retirable _ _ _).
  { eapply wp_seq; [by apply wp_retire|]. intros [] v Hv _. by apply wp_set_return. }
  destruct (_ && _ && _); [by apply wp_stop|]. set (rotation := match directive with Some d => _ | None => _ end).
  destruct ((_ ==? PhaseCancelReady) || _) eqn:Ec.
  { eapply wp_seq; [by apply wp_cancel_rotation|]. intros [] v Hv _. by apply wp_ret. }
  bool_to_prop. assert (Hr : rotation = runtimeCredentialRotationFromStatus s).
  { subst rotation. destruct directive as [d|]; [|done]. destruct (cancelling (Rotation.Status d)) eqn:Ed; [|done].
    match goal with E : _ = false |- _ => rewrite Ed in E; congruence end. }
  assert (Hset : forall p, CredentialStatus.Phase s = p -> past_claim p -> settled (executor w)) by (intros p <-; apply Ht).
  destruct (_ ==? PhaseClaimPrepared); [by apply wp_prepared_step|].
  destruct (_ ==? PhaseExpired) eqn:Ee; [bool_to_prop|].
  { eapply wp_seq; [apply wp_delete_rotation_claim; [done|by apply (Hset PhaseExpired)]|]. intros [] v Hv _. by apply wp_stop. }
  destruct (_ || _); [by apply wp_staged_step|]. rewrite Hr.
  destruct (_ ==? PhaseLocalStaged); [by apply wp_prove_step|].
  destruct (_ ==? PhaseProofReady); [by apply wp_activate_step|].
  destruct (_ || _) eqn:Ef; [|by apply wp_stop]. apply wp_finalize_step; [done|].
  apply orb_true_iff in Ef as [Ef|Ef]; bool_to_prop; by eapply Hset.
Qed.

Lemma wp_untracked_step identity directive authoritative w :
  inv w -> identity = current w -> rootless (executor w) ->
  wp inv (untracked_step identity directive authoritative) (succ (fun _ _ => True)) w.
Proof.
  intros Hw Ei Hr. unfold untracked_step.
  assert (Hload : wp inv loadClaim (succ (fun _ v => rootless (executor v))) w).
  { eapply wp_mono; [|by apply wp_load_claim]. intros [o|e] v Hv He; [|done]. destruct He as [[Hn _] _].
    by apply (near_stable _ _ Hn _ _). }
  assert (Hdel : forall c v, inv v -> rootless (executor v) -> wp inv (deleteClaim c) (succ (fun _ _ => True)) v).
  { intros c v Hv Hrv. eapply wp_mono; [|apply wp_delete_claim; [done|by apply rootless_settled]]. by intros [[]|e]. }
  destruct directive as [d|].
  - destruct (_ ==? _).
    + eapply wp_seq; [exact Hload|]. intros found v Hv Hrv.
      eapply (wp_seq _ _ (fun _ u => u = v)); [by apply wp_agent_ensure|]. intros [] u Hu ->.
      eapply wp_seq; [apply wp_cancel_request; [done|left; by apply rootless_unready]|]. intros cancelled z Hz _.
      eapply (wp_seq _ _ (fun _ _ => True)); [by apply wp_agent_ensure|]. intros [] y Hy _. by apply wp_set_return.
    + destruct (_ || _); [by apply wp_stop|]. destruct (_ ==? _)%Z; [|by apply wp_claim_step].
      eapply wp_seq; [exact Hload|]. intros found v Hv Hrv. eapply (wp_seq _ _ (fun _ _ => True)).
      { destruct found as [c|]; [|by apply wp_ret]. destruct (ClaimState.matches c d); [by apply wp_ret|].
        eapply (wp_seq _ _ (fun _ u => u = v)); [by apply wp_agent_ensure|]. intros [] u Hu ->. by apply Hdel. }
      intros [] u Hu _. eapply wp_seq; [apply wp_any_mutation; [done|by left]|]. intros prepared z Hz _.
      eapply (wp_seq _ _ (fun _ _ => True)); [by apply wp_agent_ensure|]. intros [] y Hy _. by apply wp_set_return.
  - destruct authoritative; [|by apply wp_ret]. eapply wp_seq; [exact Hload|]. intros [c|] v Hv Hrv; [|by apply wp_ret].
    eapply wp_seq; [by apply Hdel|]. intros [] u Hu _. by apply wp_ret.
Qed.

Lemma wp_agent_step version directive authoritative w :
  inv w -> wp inv (step version directive authoritative) (succ (fun _ _ => True)) w.
Proof using Hactive0 Hdata0.
  intros Hw. unfold step. eapply (wp_then _ _ (fun identity v => identity = current v)); [by apply wp_current|].
  intros identity v Hv ->. eapply wp_seq; [by apply wp_status|]. intros status u Hu [(Ecur & _) Hst].
  eapply wp_then; [by apply wp_set_status|]. intros [] z Hz (Ez & _ & _ & HK).
  assert (Ei : current v = current z) by congruence. destruct status as [s|].
  - apply wp_tracked_step; [done|done|]. destruct Hst as (A & B & C). split_and!; intros Hp; apply HK; auto; apply _.
  - apply wp_untracked_step; [done|done|]. by apply (HK rootless _).
Qed.

Lemma wp_steps n version directive authoritative w :
  inv w -> wp inv (steps n version directive authoritative) (succ (fun _ _ => True)) w.
Proof using Hactive0 Hdata0.
  revert w. induction n as [|n IH]; intros w Hw; [by apply wp_stop|]. eapply wp_seq; [by apply wp_agent_step|].
  intros again v Hv _. destruct again; [by apply IH|by apply wp_ret].
Qed.

Lemma wp_flag b (o : aop b) w :
  inv w -> looks o -> wp inv (call o) (fun _ _ => True) w.
Proof. intros Hw Ho. by apply wp_look_at. Qed.

Lemma wp_running (o : aop bool) w : o = SwapRunning -> inv w -> wp inv (call o) (fun _ _ => True) w.
Proof. intros -> Hw. apply wp_agent_perform; [done|]. intros v [Ha Hg Hl Hp Hc Hb] _ a x u [= <- <-]. by split; [split|]. Qed.

Lemma wp_advance version directive authoritative w :
  inv w -> wp inv (advanceRuntimeTokenRotation version directive authoritative) (fun _ _ => True) w.
Proof using Hactive0 Hdata0.
  intros Hw. unfold advanceRuntimeTokenRotation. eapply wp_then; [by apply wp_running|]. intros swapped v Hv _.
  destruct swapped; [|by apply wp_ret]. cbn [negb]. eapply (wp_then _ _ (fun _ _ => True)).
  - unfold advance_unlocked. eapply wp_then; [by apply wp_flag|]. intros executing u Hu _. destruct executing; [by apply wp_ret|].
    eapply wp_then; [by apply wp_flag|]. intros job z Hz _. destruct job; [by apply wp_ret|].
    eapply wp_then; [by apply wp_flag|]. intros b y Hy _. cbn zeta. destruct (Blockers.mutationBlocked _); [by apply wp_ret|].
    eapply wp_mono; [|by apply wp_steps]. done.
  - intros done u Hu _. eapply (wp_then _ _ (fun _ _ => True)); [|intros [] z Hz _; by apply wp_ret].
    apply wp_agent_perform; [exact Hu|]. intros z [Ha Hg Hl Hp Hc Hb] _ a x y [= <- <-]. by split; [split|].
Qed.

Lemma wp_heartbeat w : inv w -> wp inv heartbeat (fun _ _ => True) w.
Proof.
  intros Hw. unfold heartbeat. eapply (wp_then _ _ (fun s v => s = status_ptr v)).
  { apply wp_look_at; [done|done|]. by intros v Hv He a x [= <-]. }
  intros status v Hv ->. eapply (wp_then _ _ (fun identity u => identity = current u /\ status_ptr u = status_ptr v)).
  { apply wp_current; [done|]. intros u Hu [Hn _]. split; [done|apply Hn]. }
  intros identity u Hu [-> Es].
  eapply (wp_then _ _ (fun r z => is_ok r = true -> status_ptr z = status_ptr v /\
     exists token, Beaten token (addRuntimeTokenRotationCapabilities (status_ptr v)) ∈ log z)).
  { apply wp_agent_perform; [done|]. intros z Hz [Hn _] a x y E. cbn in E.
    destruct a; try discriminate E; injection E as <- <-; split; try done.
    - apply inv_event; [done|done|]. intros token [= <-]. rewrite <- (near_current _ _ Hn). apply inv_current, Hz.
    - intros _. split; [by rewrite <- Es; apply Hn|]. eexists. by left. }
  intros [[]|e] z Hz Hr; [|by apply wp_ret]. destruct (Hr eq_refl) as [Esz [token Hin]]. unfold recordRuntimeTokenRotationHeartbeat.
  eapply (wp_then _ _ (fun s y => s = status_ptr v /\ log y = log z)).
  { apply wp_look_at; [done|done|]. intros y Hy [Hn [_ El]] a x [= <-]. split; [|done]. rewrite (near_status _ _ Hn). done. }
  assert (Hnone : forall y, inv y -> wp inv (call (StorePublished None)) (fun _ _ => True) y).
  { intros y Hy. eapply wp_mono; [|by apply wp_unpublish]. done. }
  intros status y Hy [-> El]. destruct (status_ptr v) as [s|] eqn:Ev; [|by apply Hnone].
  destruct (_ !=? _) eqn:Ep; bool_to_prop; [by apply Hnone|].
  apply wp_agent_perform; [done|]. intros y' Hy' [Hn [_ El']] a x y2 [= <- <-]. split; [|done].
  destruct Hy' as [Ha Hg Hl Hp Hc Hb]. split; try done. intros s' [= <-]. split; [done|]. exists token. cbn. by rewrite El', El.
Qed.

Lemma wp_agent_restart w : inv w -> wp inv (call Restart) (fun _ _ => True) w.
Proof using Hactive0 Hdata0.
  intros Hw. apply wp_agent_perform; [done|]. intros v Hv _ a x u E. cbn in E. destruct a; try discriminate E. injection E as <- <-.
  split; [|done]. unfold restarted. destruct (read_slot _ _) as [c|] eqn:Er; [|done].
  pose proof (active_known v c Hv Er) as Hk. destruct Hv as [Ha Hg Hl Hp Hc Hb]. by split.
Qed.
End Invariant.

(** ** Histories *)

(** One thing the agent's process does: a recovery, the reconciliation of a policy, a
    heartbeat, or a new start. *)
Inductive agent_entry (version : string) : prog aop unit -> Prop :=
| entry_agent_recover : agent_entry version (let* _ := recoverRuntimeTokenRotation version in Ret tt)
| entry_agent_reconcile policy : agent_entry version (let* _ := reconcileRuntimeTokenRotation version policy in Ret tt)
| entry_agent_heartbeat : agent_entry version heartbeat
| entry_agent_restart : agent_entry version (call Restart).

(** A process that has just started on a host without a rotation. *)
Record fresh_agent (w : agent_world) (c : Identity.t) : Prop := Fresh {
  fresh_rotation : no_rotation (executor w);
  fresh_identity : read_slot ActiveSlot (executor w) = Ok c;
  fresh_current : current w = c;
  fresh_published : published w = None;
  fresh_log : log w = [];
}.

Lemma agent_invariant version w c v :
  fresh_agent w c -> history (agent_entry version) w v -> inv (executor w) c v.
Proof.
  intros [Hn Hi Hc Hp Hl] Hh. unfold read_slot in Hi. cbn [file_of] in Hi.
  destruct (active (executor w)) as [data|] eqn:Ea; [|discriminate Hi].
  destruct (decodeIdentity data) as [c'|] eqn:Ed; [|discriminate Hi]. injection Hi as ->.
  apply (history_invariant (agent_entry version) (inv (executor w) c) w v); [|split|done].
  - assert (Hd : forall A (p : prog aop A) u, wp (inv (executor w) c) p (fun _ _ => True) u ->
      wp (inv (executor w) c) (let* _ := p in Ret tt) (fun _ _ => True) u).
    { intros A p u Hw. apply wp_bind. eapply wp_mono; [|exact Hw]. intros a z Hz _. by apply wp_ret. }
    intros p u Hp' Hu. destruct Hp' as [|policy| |]; 
      [apply Hd|apply Hd|exact (wp_heartbeat _ _ u Hu)|exact (wp_agent_restart _ _ data Ea Ed u Hu)].
    + exact (wp_advance _ _ data Ea Ed version None false u Hu).
    + destruct policy as [[d|]|]; [exact (wp_advance _ _ data Ea Ed version (Some d) false u Hu)|
        exact (wp_advance _ _ data Ea Ed version None true u Hu)|by apply wp_ret].
  - by apply accounted_start.
  - split; [by left|]. exists []. by rewrite app_nil_r.
  - by rewrite Hl.
  - intros s Es. congruence.
  - left. by rewrite Hc.
  - intros e token Hin. rewrite Hl in Hin. by apply not_elem_of_nil in Hin.
Qed.

(** C11: over any history of the host agent on a host that starts without a rotation,
    with every failure of a file, of the Panel and of the executor, lost answers, crashes
    and restarts at any operation, the executor's expiry runs, the operator's
    replacements of the identity and emergency recoveries in between: a credential is claimed only under the claim that
    is on disk at that moment, for its rotation and with its claim id; a claim is removed
    only when the executor's ledger is gone or past staging, and a ledger that a request
    removes goes only when no claim is left, so that a crash never leaves neither; a
    heartbeat proof is sent only after a heartbeat that carried exactly the staged status
    it is about; and a cancel is acknowledged only when the host holds no staged secret. *)
Theorem rotation_evidence_is_durable version w c v :
  fresh_agent w c -> history (agent_entry version) w v -> log_ok (log v).
Proof. intros Hw Hh. by apply (agent_invariant version w c). Qed.

(** C5: over the same histories, the identity the agent works with has the token it
    started with, one that the Panel has activated, or one that the operator installed on
    the host; and so has every heartbeat, claim and cancel acknowledgement it sends.  A
    token is activated when the Panel answered the executor's request with it under a
    proof-ready status on disk, and the answer says of exactly that rotation, at its next
    revision, that it is activated. *)
Theorem agent_uses_activated_tokens version w c v :
  fresh_agent w c -> history (agent_entry version) w v ->
  known (Identity.RuntimeToken c) v (Identity.RuntimeToken (current v)) /\
  forall e token, e ∈ log v -> bearer e = Some token -> known (Identity.RuntimeToken c) v token.
Proof.
  intros Hw Hh. pose proof (agent_invariant version w c v Hw Hh) as Hi. split; [apply Hi|apply (inv_bearers _ _ _ Hi)].
Qed.
End AgentSafety.
