(* ===== verification/TokenAgentDemo.v ===== *)
(** A concrete host on which the agent and the executor rotate the runtime token
    together: the agent claims, stages, publishes, proves and activates the credential
    and forgets the rotation, in two reconciliations with a heartbeat between them.  The
    witnesses of the agent's theorems run here. *)
From Stdlib Require Import Ascii String ZArith Lia.
From stdpp Require Import base decidable list strings.
From S2P Require Import Prelude Strings Regexp Patterns Effects Sha256 Json SelfUpdateState SelfUpdateGrant TokenRotation TokenExecutor TokenSafety TokenDemo TokenAgent TokenPhases TokenAgentSafety.

Open Scope string_scope.

#[local] Existing Instance utc_only.
#[local] Existing Instance three_identities.
#[local] Existing Instance demo_policy.

Definition fresh_agent_host : agent_world := AgentWorld fresh_host None old_identity false None None [].

Definition sixteen_bytes : list N := map N.of_nat (seq 0 16).

Definition served (operation : string) : outcome unit :=
  let panel := if operation ==? "runtime_credential_stage" then TokenDemo.answers now 16 (directive "local_staged" 3)
               else if operation ==? "runtime_credential_activate" then TokenDemo.answers now 7 (directive "activated" 5)
               else repeat (Good now) 40 in
  Serves "v1.2.3" tt panel false.

(** Everything succeeds, and the Panel goes along. *)
Definition cooperative {X} (o : aop X) : outcome unit :=
  match o with
  | ExecutionRunning | JournalActive => Flag false
  | LifecycleBlockers => Blocks (Blockers.mk false false false false false false)
  | Execute r => served (CredentialRequest.Operation r)
  | RandomBytes => Bytes sixteen_bytes
  | Clock => At now
  | PostClaim _ _ _ _ _ => GivesClaim (ClaimResult.mk (directive "staged" 2) "token-id-2" "token-two" true)
  | PostProof _ _ _ _ => GivesRotation (directive "heartbeat_proved" 4)
  | PostCancelAck _ _ _ _ => GivesRotation (directive "canceled" 5)
  | _ => Yes
  end.

(** The answers of that environment to a program. *)
Fixpoint script {A} (p : prog aop A) (w : agent_world) : list (agent_answer unit) :=
  match p with
  | Ret _ => []
  | Do o k =>
      let ans := AgentAnswer [] (cooperative o) in
      match handle o ans w with
      | Some (x, w') => ans :: script (k x) w'
      | None => []
      end
  end.

Definition acts (p : prog aop unit) (w : agent_world) : agent_world := (run p (script p w) w).1.

Definition reconcile_once : prog aop unit :=
  let* _ := reconcileRuntimeTokenRotation "v1.2.3" (Some (Some (directive "staged" 1))) in Ret tt.

Definition agent_staged : agent_world := Eval vm_compute in acts reconcile_once fresh_agent_host.

Definition agent_published : agent_world := Eval vm_compute in acts heartbeat agent_staged.
Definition agent_rotated : agent_world := Eval vm_compute in
  acts (let* _ := recoverRuntimeTokenRotation "v1.2.3" in Ret tt) agent_published.

Lemma acts_history p w v :
  agent_entry "v1.2.3" p -> history (agent_entry "v1.2.3") w v -> history (agent_entry "v1.2.3") w (acts p v).
Proof. intros Hp Hh. by apply history_run. Qed.

Lemma agent_staged_run : agent_staged = acts reconcile_once fresh_agent_host.
Proof. vm_compute. reflexivity. Qed.

Lemma agent_published_run : agent_published = acts heartbeat agent_staged.
Proof. vm_compute. reflexivity. Qed.

Lemma agent_rotated_run :
  agent_rotated = acts (let* _ := recoverRuntimeTokenRotation "v1.2.3" in Ret tt) agent_published.
Proof. vm_compute. reflexivity. Qed.

Lemma agent_rotated_reached : history (agent_entry "v1.2.3") fresh_agent_host agent_rotated.
Proof.
  rewrite agent_rotated_run, agent_published_run, agent_staged_run.
  apply acts_history; [constructor|]. apply acts_history; [constructor|]. apply acts_history; [|apply history_refl].
  exact (entry_agent_reconcile "v1.2.3" (Some (Some (directive "staged" 1)))).
Qed.

Lemma fresh_agent_host_fresh : fresh_agent fresh_agent_host old_identity.
Proof. by split. Qed.

(** The whole rotation, with a claim, a heartbeat and a proof on the way: the new token
    is in use, and neither claim nor ledger nor staged secret is left. *)
Example rotation_is_complete :
  (Identity.RuntimeToken (current agent_rotated), active (executor agent_rotated), claim_file agent_rotated,
   status_file (executor agent_rotated), staged (executor agent_rotated), map (fun x => x.1.1) (answered (executor agent_rotated))) =
  ("token-two", Some "identity: two", None, None, None, ["token-two"]).
Proof. reflexivity. Qed.

Lemma rotation_evidence_is_durable_witness :
  length (log agent_rotated) = 5 /\ log_ok (log agent_rotated).
Proof.
  split; [reflexivity|].
  refine (rotation_evidence_is_durable "v1.2.3" fresh_agent_host old_identity agent_rotated _ _);
    [apply fresh_agent_host_fresh|apply agent_rotated_reached].
Defined.

Lemma agent_uses_activated_tokens_witness :
  Identity.RuntimeToken (current agent_rotated) <> Identity.RuntimeToken old_identity /\
  known (Identity.RuntimeToken old_identity) agent_rotated (Identity.RuntimeToken (current agent_rotated)) /\
  forall e token, e ∈ log agent_rotated -> bearer e = Some token ->
    known (Identity.RuntimeToken old_identity) agent_rotated token.
Proof.
  split; [discriminate|].
  refine (agent_uses_activated_tokens "v1.2.3" fresh_agent_host old_identity agent_rotated _ _);
    [apply fresh_agent_host_fresh|apply agent_rotated_reached].
Defined.

(** A cancel that is requested while the claim is still in flight: the executor prepares
    it, the Panel acknowledges, and nothing of the rotation is left. *)
Definition agent_cancelled : agent_world := Eval vm_compute in
  acts (let* _ := reconcileRuntimeTokenRotation "v1.2.3" (Some (Some (directive "cancel_requested" 4))) in Ret tt)
    agent_staged.

Example cancel_is_complete :
  (Identity.RuntimeToken (current agent_cancelled), active (executor agent_cancelled), claim_file agent_cancelled,
   status_file (executor agent_cancelled), staged (executor agent_cancelled)) =
  ("token-one", Some "identity: one", None, None, None).
Proof. reflexivity. Qed.
