(* ===== verification/Grants.v ===== *)
(** The binding of a v2 mutation grant: what the Panel signs and the host presents again.

    It is a type of the contracts package.  The records have the fields that the agent
    ([host_pull_execution_grants.go]) and the executor ([local_executor_mutation.go])
    read; the package's validator and constants are the interface [GrantContracts]. *)
From Stdlib Require Import Ascii String ZArith Lia.
From stdpp Require Import base decidable list strings.
From S2P Require Import Prelude Strings Json SelfUpdateState.

Open Scope string_scope.

Module GrantTarget.
Record t := mk {
  TargetKind : string;
  ServiceID : string;
  ServiceType : string;
  DeploymentMode : string;
  ExpectedConfigRevision : Z;
}.

#[global] Instance t_eq_dec : EqDecision t.
Proof. solve_decision. Defined.
End GrantTarget.

Module GrantAuthorization.
Record t := mk {
  JobID : string;
  UpdaterID : string;
  HostID : string;
  DesiredRevision : Z;
  Fence : Z;
  Target : GrantTarget.t;
}.

#[global] Instance t_eq_dec : EqDecision t.
Proof. solve_decision. Defined.
End GrantAuthorization.

(** [contracts.SystemUpdatePortReconfiguration] and its Docker part. *)
Module DesiredPort.
Record docker := mk_docker {
  PublishedHostIP : string;
  OldPublishedPort : Z;
  NewPublishedPort : Z;
  OldContainerPort : Z;
  NewContainerPort : Z;
  OldHealthPort : Z;
  NewHealthPort : Z;
  ApprovedComposeConfigSHA256 : string;
  ApprovedComposeRevision : Z;
  ExpectedVersionEnvSHA256 : string;
  ExpectedContainerID : string;
  ExpectedImageID : string;
  ExpectedRepositoryDigest : string;
}.
Record t := mk {
  Result : string;
  NetworkNamespace : string;
  Protocol : string;
  OldPort : Z;
  NewPort : Z;
  ExpectedEndpointRevision : Z;
  TargetEndpointRevision : Z;
  ExpectedConfigRevision : Z;
  TargetConfigRevision : Z;
  ExpectedConfigSHA256 : string;
  TargetConfigSHA256 : string;
  ExpectedSourcePolicyRevision : Z;
  ExpectedUpdaterPolicyRevision : Z;
  ExpectedExecutorPolicyRevision : Z;
  ExpectedExecutorPolicySHA256 : string;
  Docker : option docker;
}.

#[global] Instance docker_eq_dec : EqDecision docker.
Proof. solve_decision. Defined.
#[global] Instance t_eq_dec : EqDecision t.
Proof. solve_decision. Defined.
End DesiredPort.

Module DesiredOperation.
Record software := mk_software { ExpectedCurrentVersion : string; TargetVersion : string }.
Record t := mk { Operation : string; SoftwareUpdate : option software; PortReconfigure : option DesiredPort.t }.

#[global] Instance software_eq_dec : EqDecision software.
Proof. solve_decision. Defined.
#[global] Instance t_eq_dec : EqDecision t.
Proof. solve_decision. Defined.
End DesiredOperation.

Module GrantCommand.
Record t := mk {
  CommandID : string;
  CanonicalPayloadDigest : string;
  MutationAuthorization : GrantAuthorization.t;
  Desired : DesiredOperation.t;
}.

#[global] Instance t_eq_dec : EqDecision t.
Proof. solve_decision. Defined.
End GrantCommand.

(** [contracts.UpdaterMutationGrantBinding]: a lease of a command that authorizes one
    operation on one target. *)
Module V2Binding.
Record t := mk { Operation : string; SessionID : string; LeaseGeneration : Z; Command : GrantCommand.t }.

#[global] Instance t_eq_dec : EqDecision t.
Proof. solve_decision. Defined.
End V2Binding.

Class GrantContracts := {
  ValidateUpdaterMutationGrantBinding : GoTime.t -> V2Binding.t -> check;
  UpdaterDesiredSoftwareUpdate : string;
  UpdaterDesiredPortReconfigure : string;
  UpdaterTargetApplication : string;
}.

(** The conversion of a [uint64] to [int64]. *)
Definition int64_of_u64 (x : Z) : Z := if (x <=? max_int64)%Z then x else (x - u64_modulus)%Z.
