(* ===== verification/PortPlan.v ===== *)
(** The data of a port change on a systemd service, in its first contract version
    ([systemd_port_reconfigure.go], [systemd_port_result.go],
    [systemd_port_state_models.go]): the immutable plan with its digest, the result,
    the saved sidecar file, the job ledger and the applied-port record. *)
From Stdlib Require Import Ascii String ZArith Lia.
From stdpp Require Import base decidable list strings.
From S2P Require Import Prelude Strings Regexp Patterns Sha256 Json SelfUpdateGrant Grants.

Open Scope string_scope.

Definition systemdPortPlanSchemaVersion : Z := 1.

(** The states of the ledger. *)
Definition LedgerStaged : string := "staged".
Definition LedgerGrantConsuming : string := "grant_consuming".
Definition LedgerGrantConsumed : string := "grant_consumed".
Definition LedgerSidecarWritten : string := "sidecar_written".
Definition LedgerRestarted : string := "restarted".
Definition LedgerAmbiguous : string := "ambiguous".
Definition LedgerCommitting : string := "committing".
Definition LedgerTerminal : string := "terminal".

Definition NamespaceHost : string := "host".
Definition ProtocolTCP : string := "tcp".

Definition ResultApplied : string := "applied".
Definition ResultRolledBack : string := "rolled_back".
Definition ResultUnchanged : string := "unchanged".
Definition ResultRollbackFailed : string := "rollback_failed".

Definition validSystemdPortServiceType (value : string) : bool :=
  existsb (fun x => value ==? x) ["worker"; "encoder_recorder"; "discord_bot"; "observability"].

Definition validSystemdPort (value : Z) : bool := ((1024 <=? value) && (value <=? 65535))%Z.

Definition any_port (value : Z) : bool := ((1 <=? value) && (value <=? 65535))%Z.

(** ** The Docker part of a plan *)

Module DockerBinding.
Record t := mk {
  PublishedHostIP : string;
  OldPublishedPort : Z;
  NewPublishedPort : Z;
  OldContainerPort : Z;
  NewContainerPort : Z;
  OldHealthPort : Z;
  NewHealthPort : Z;
  ApprovedComposeConfigSHA256 : string;
  ApprovedComposeRevision : Z;
  ExpectedVersionEnvSHA256 : string;
  ExpectedContainerID : string;
  ExpectedImageID : string;
  ExpectedRepositoryDigest : string;
}.

#[global] Instance eq_dec : EqDecision t.
Proof. solve_decision. Defined.

Definition validate (d : option t) (expectedExecutorPolicyRevision : Z) : check :=
  match d with
  | None => Err "Docker port job runtime baseline is invalid"
  | Some d =>
      if (PublishedHostIP d !=? "127.0.0.1") || negb (validSystemdPort (OldPublishedPort d)) ||
         negb (validSystemdPort (NewPublishedPort d)) || negb (validSystemdPort (OldContainerPort d)) ||
         negb (validSystemdPort (NewContainerPort d)) || (OldHealthPort d !=? OldPublishedPort d)%Z ||
         (NewHealthPort d !=? NewPublishedPort d)%Z ||
         negb (re_match mutationPlanHashPattern (ApprovedComposeConfigSHA256 d)) ||
         (ApprovedComposeRevision d !=? expectedExecutorPolicyRevision)%Z ||
         negb (re_match digestPattern (ExpectedVersionEnvSHA256 d)) ||
         negb (re_match dockerContainerIDPattern (ExpectedContainerID d)) ||
         negb (re_match digestPattern (ExpectedImageID d)) || negb (re_match digestPattern (ExpectedRepositoryDigest d))
      then Err "Docker port job runtime baseline is invalid" else Ok tt
  end.
End DockerBinding.

(** ** Plans *)

(** [SystemdPortReconfigurePlan] with contract version 0; [Versioned] says that a
    field of the later contract version is set. *)
Module PortPlan.
Record t := mk {
  Versioned : bool;
  DeploymentMode : string;
  JobID : string;
  HostID : string;
  TargetID : string;
  ServiceType : string;
  NetworkNamespace : string;
  Protocol : string;
  OldPort : Z;
  NewPort : Z;
  ExpectedEndpointRevision : Z;
  TargetEndpointRevision : Z;
  ExpectedConfigRevision : Z;
  TargetConfigRevision : Z;
  ExpectedConfigSHA256 : string;
  TargetConfigSHA256 : string;
  ExpectedSourcePolicyRevision : Z;
  ExpectedUpdaterPolicyRevision : Z;
  ExpectedExecutorPolicyRevision : Z;
  ExpectedExecutorPolicySHA256 : string;
  OwnershipEpoch : Z;
  LeaseGeneration : Z;
  SessionID : string;
  PortPlanSHA256 : string;
  Docker : option DockerBinding.t;
}.

#[global] Instance eta_t : Eta t := fun p =>
  mk (Versioned p) (DeploymentMode p) (JobID p) (HostID p) (TargetID p) (ServiceType p) (NetworkNamespace p)
     (Protocol p) (OldPort p) (NewPort p) (ExpectedEndpointRevision p) (TargetEndpointRevision p)
     (ExpectedConfigRevision p) (TargetConfigRevision p) (ExpectedConfigSHA256 p) (TargetConfigSHA256 p)
     (ExpectedSourcePolicyRevision p) (ExpectedUpdaterPolicyRevision p) (ExpectedExecutorPolicyRevision p)
     (ExpectedExecutorPolicySHA256 p) (OwnershipEpoch p) (LeaseGeneration p) (SessionID p) (PortPlanSHA256 p) (Docker p).
#[global] Instance eq_dec : EqDecision t.
Proof. solve_decision. Defined.

Definition effectiveDeploymentMode (p : t) : string :=
  if (TrimSpace (DeploymentMode p) ==? "") && bool_decide (Docker p = None) then ModeSystemd
  else TrimSpace (DeploymentMode p).

Definition identity_invalid (p : t) : bool :=
  negb (re_match identifierPattern (JobID p)) || negb (validExecutionHostID (HostID p)) ||
  negb (re_match identifierPattern (TargetID p)) || negb (validSystemdPortServiceType (ServiceType p)).

Definition network_invalid (p : t) : bool :=
  (NetworkNamespace p !=? NamespaceHost) || (Protocol p !=? ProtocolTCP).

Definition ports_invalid (p : t) : bool := negb (any_port (OldPort p)) || negb (any_port (NewPort p)).

Definition revisions_invalid (p : t) : bool :=
  ((ExpectedEndpointRevision p <? 1) || (max_int64 - 1 <=? ExpectedEndpointRevision p) ||
   (TargetEndpointRevision p !=? i64_succ (ExpectedEndpointRevision p)) || (ExpectedConfigRevision p <? 1) ||
   (TargetConfigRevision p !=? i64_succ (ExpectedConfigRevision p)))%Z.

Definition digests_invalid (p : t) : bool :=
  negb (re_match digestPattern (ExpectedConfigSHA256 p)) || negb (re_match digestPattern (TargetConfigSHA256 p)).

Definition fence_invalid (p : t) : bool :=
  (ExpectedSourcePolicyRevision p <? 1)%Z || (ExpectedUpdaterPolicyRevision p <? 1)%Z ||
  (ExpectedExecutorPolicyRevision p <? 1)%Z || negb (re_match digestPattern (ExpectedExecutorPolicySHA256 p)) ||
  (OwnershipEpoch p <? 1)%Z || (LeaseGeneration p =? 0)%Z.

Definition systemd_invalid (p : t) : bool :=
  bool_decide (Docker p <> None) || negb (validSystemdPort (OldPort p)) || negb (validSystemdPort (NewPort p)) ||
  (OldPort p =? NewPort p)%Z.

Definition docker_invalid (p : t) : bool :=
  (DeploymentMode p !=? ModeDocker) || is_err (DockerBinding.validate (Docker p) (ExpectedExecutorPolicyRevision p)).

Definition docker_no_op (p : t) : bool :=
  (OldPort p =? NewPort p)%Z &&
  match Docker p with
  | Some d => (DockerBinding.OldPublishedPort d =? DockerBinding.NewPublishedPort d)%Z &&
              (DockerBinding.OldContainerPort d =? DockerBinding.NewContainerPort d)%Z
  | None => false
  end.

(** The fields that both payloads end with. *)
Definition payload_fence (p : t) : list (string * json) :=
  [("expected_source_policy_revision", JNum (ExpectedSourcePolicyRevision p));
   ("expected_updater_policy_revision", JNum (ExpectedUpdaterPolicyRevision p));
   ("expected_executor_policy_revision", JNum (ExpectedExecutorPolicyRevision p));
   ("expected_executor_policy_sha256", JStr (ExpectedExecutorPolicySHA256 p));
   ("ownership_epoch", JNum (OwnershipEpoch p)); ("lease_generation", JNum (LeaseGeneration p));
   ("session_id", JStr (SessionID p))].

Definition payload_identity (p : t) (schema : Z) : list (string * json) :=
  [("schema_version", JNum schema); ("job_id", JStr (JobID p)); ("host_id", JStr (HostID p));
   ("target_id", JStr (TargetID p)); ("service_type", JStr (ServiceType p));
   ("network_namespace", JStr (NetworkNamespace p)); ("protocol", JStr (Protocol p))].

Definition payload_revisions (p : t) : list (string * json) :=
  [("expected_endpoint_revision", JNum (ExpectedEndpointRevision p));
   ("target_endpoint_revision", JNum (TargetEndpointRevision p));
   ("expected_config_revision", JNum (ExpectedConfigRevision p));
   ("target_config_revision", JNum (TargetConfigRevision p));
   ("expected_config_sha256", JStr (ExpectedConfigSHA256 p)); ("target_config_sha256", JStr (TargetConfigSHA256 p))].

Definition systemd_payload (p : t) : list (string * json) :=
  (payload_identity p systemdPortPlanSchemaVersion ++
   [("old_port", JNum (OldPort p)); ("new_port", JNum (NewPort p))] ++ payload_revisions p ++ payload_fence p)%list.

Definition docker_payload (p : t) (d : DockerBinding.t) : list (string * json) :=
  (payload_identity p 2 ++
   [("old_advertised_port", JNum (OldPort p)); ("new_advertised_port", JNum (NewPort p));
    ("published_host_ip", JStr (DockerBinding.PublishedHostIP d));
    ("old_published_port", JNum (DockerBinding.OldPublishedPort d));
    ("new_published_port", JNum (DockerBinding.NewPublishedPort d));
    ("old_container_port", JNum (DockerBinding.OldContainerPort d));
    ("new_container_port", JNum (DockerBinding.NewContainerPort d));
    ("old_health_port", JNum (DockerBinding.OldHealthPort d));
    ("new_health_port", JNum (DockerBinding.NewHealthPort d))] ++ payload_revisions p ++
   [("approved_compose_config_sha256", JStr (DockerBinding.ApprovedComposeConfigSHA256 d));
    ("approved_compose_revision", JNum (DockerBinding.ApprovedComposeRevision d));
    ("expected_version_env_sha256", JStr (DockerBinding.ExpectedVersionEnvSHA256 d));
    ("expected_container_id", JStr (DockerBinding.ExpectedContainerID d));
    ("expected_image_id", JStr (DockerBinding.ExpectedImageID d));
    ("expected_repository_digest", JStr (DockerBinding.ExpectedRepositoryDigest d))] ++ payload_fence p)%list.

Section Plan.
Context `{TimeZones}.

Definition digest_of (fields : list (string * json)) : result string string :=
  match Marshal (JObj fields) with
  | Some data => Ok (sha256_hex data)
  | None => Err "encode"
  end.

Definition ComputePortPlanSHA256 (p : t) : result string string :=
  if identity_invalid p || network_invalid p || ports_invalid p || revisions_invalid p || digests_invalid p ||
     fence_invalid p || negb (re_match mutationSessionPattern (SessionID p))
  then Err "systemd port plan is incomplete"
  else if effectiveDeploymentMode p ==? ModeDocker then
    if docker_invalid p then Err "Docker port plan is incomplete"
    else if docker_no_op p then Err "Docker port plan is a no-op"
    else match Docker p with Some d => digest_of (docker_payload p d) | None => Err "Docker port plan is incomplete" end
  else if (effectiveDeploymentMode p !=? ModeSystemd) || systemd_invalid p
  then Err "systemd port plan deployment mode is invalid"
  else digest_of (systemd_payload p).

Definition Validate (p : t) : check :=
  if Versioned p then Err "legacy port plan contains versioned fields"
  else if identity_invalid p then Err "systemd port plan identity is invalid"
  else if network_invalid p then Err "systemd port plan network binding is invalid"
  else if ports_invalid p then Err "systemd port plan port range is invalid"
  else if revisions_invalid p then Err "systemd port plan revision transition is invalid"
  else if digests_invalid p || (ExpectedConfigSHA256 p ==? TargetConfigSHA256 p)
  then Err "systemd port plan config digest is invalid"
  else if fence_invalid p then Err "systemd port plan policy fence is invalid"
  else if negb (re_match mutationSessionPattern (SessionID p)) || negb (re_match mutationPlanHashPattern (PortPlanSHA256 p))
  then Err "systemd port plan authorization binding is invalid"
  else
    let! _ :=
      if effectiveDeploymentMode p ==? ModeSystemd then
        if systemd_invalid p then Err "systemd port plan contains Docker-only fields" else Ok tt
      else if effectiveDeploymentMode p ==? ModeDocker then
        if docker_invalid p then Err "Docker port plan runtime baseline is invalid"
        else if docker_no_op p then Err "Docker port plan is a no-op" else Ok tt
      else Err "port plan deployment mode is invalid" in
    if bool_decide (ComputePortPlanSHA256 p = Ok (PortPlanSHA256 p)) then Ok tt
    else Err "systemd port plan digest does not match its immutable fields".
End Plan.

(** [sameSystemdPortIntent]: everything but the lease generation and the digest over
    it. *)
Definition sameIntent (left right : t) : bool :=
  bool_decide (left <| LeaseGeneration := 0%Z |> <| PortPlanSHA256 := "" |> =
               right <| LeaseGeneration := 0%Z |> <| PortPlanSHA256 := "" |>).
End PortPlan.

(** ** Results *)

Module DockerResult.
Record t := mk {
  AppliedPublishedPort : Z;
  AppliedContainerPort : Z;
  AppliedHealthPort : Z;
  ComposeConfigSHA256 : string;
}.
#[global] Instance eq_dec : EqDecision t.
Proof. solve_decision. Defined.
End DockerResult.

(** [SystemdPortReconfigureResult] with contract version 0. *)
Module PortResult.
Record t := mk {
  Versioned : bool;
  DeploymentMode : string;
  Status : string;
  Result : string;
  StateKnown : bool;
  OldPort : Z;
  NewPort : Z;
  AppliedPort : Z;
  EndpointRevision : Z;
  ConfigRevision : Z;
  ConfigSHA256 : string;
  Message : string;
  Docker : option DockerResult.t;
}.
#[global] Instance eq_dec : EqDecision t.
Proof. solve_decision. Defined.

(** What each kind of result must say. *)
Definition known_invalid (r : t) (status : string) (port : Z) : bool :=
  (Status r !=? status) || negb (StateKnown r) || (AppliedPort r !=? port)%Z || (EndpointRevision r <? 1)%Z ||
  (ConfigRevision r <? 1)%Z || negb (re_match digestPattern (ConfigSHA256 r)).

Definition validate_kind (r : t) : check :=
  if Result r ==? ResultApplied then
    if known_invalid r "succeeded" (NewPort r) then Err "applied systemd port result is invalid" else Ok tt
  else if Result r ==? ResultRolledBack then
    if known_invalid r "rolled_back" (OldPort r) then Err "rolled back systemd port result is invalid" else Ok tt
  else if Result r ==? ResultUnchanged then
    if known_invalid r "succeeded" (OldPort r) then Err "unchanged systemd port result is invalid" else Ok tt
  else if Result r ==? ResultRollbackFailed then
    if (Status r !=? "failed") || StateKnown r || (AppliedPort r !=? 0)%Z || (EndpointRevision r <? 1)%Z ||
       (ConfigRevision r !=? 0)%Z || (ConfigSHA256 r !=? "")
    then Err "failed systemd port rollback result is invalid" else Ok tt
  else Err "systemd port result kind is invalid".

Definition validate_mode (r : t) : check :=
  let mode := if TrimSpace (DeploymentMode r) ==? "" then ModeSystemd else TrimSpace (DeploymentMode r) in
  if mode ==? ModeSystemd then
    if bool_decide (Docker r <> None) || negb (validSystemdPort (OldPort r)) || negb (validSystemdPort (NewPort r)) ||
       (OldPort r =? NewPort r)%Z
    then Err "systemd port result is invalid" else Ok tt
  else if mode ==? ModeDocker then
    if DeploymentMode r !=? ModeDocker then Err "Docker port result mode is invalid"
    else if Result r ==? ResultRollbackFailed then
      if bool_decide (Docker r <> None) then Err "unknown Docker port result contains applied mapping" else Ok tt
    else
      match Docker r with
      | None => Err "Docker port result mapping is invalid"
      | Some d =>
          if negb (validSystemdPort (DockerResult.AppliedPublishedPort d)) ||
             negb (validSystemdPort (DockerResult.AppliedContainerPort d)) ||
             (DockerResult.AppliedHealthPort d !=? DockerResult.AppliedPublishedPort d)%Z ||
             negb (re_match mutationPlanHashPattern (DockerResult.ComposeConfigSHA256 d))
          then Err "Docker port result mapping is invalid" else Ok tt
      end
  else Err "port result deployment mode is invalid".

Definition Validate (r : t) : check :=
  if Versioned r then Err "legacy port result contains versioned fields"
  else if negb (any_port (OldPort r)) || negb (any_port (NewPort r)) || negb (safeExecutorMessage (Message r))
  then Err "systemd port result is invalid"
  else
    let! _ := validate_mode r in
    validate_kind r.
End PortResult.

(** ** The fixed adapters and the sidecar file *)

Module Adapter.
Record t := mk { Unit : string; SidecarPath : string; ServiceType : string }.
#[global] Instance eq_dec : EqDecision t.
Proof. solve_decision. Defined.
End Adapter.

Definition adapter_of (serviceType : string) : option Adapter.t :=
  if serviceType ==? "worker" then
    Some (Adapter.mk "autostream-worker.service" "/opt/autostream/local-executor/ports/worker.json" "worker")
  else if serviceType ==? "encoder_recorder" then
    Some (Adapter.mk "autostream-encoder-recorder.service"
            "/opt/autostream/local-executor/ports/encoder-recorder.json" "encoder_recorder")
  else if serviceType ==? "discord_bot" then
    Some (Adapter.mk "autostream-discord-bot.service" "/opt/autostream/local-executor/ports/discord-bot.json" "discord_bot")
  else if serviceType ==? "observability" then
    Some (Adapter.mk "autostream-observability.service"
            "/opt/autostream/local-executor/ports/observability.json" "observability")
  else None.

Definition systemdPortAdapterFor (serviceType policyUnit : string) : result string Adapter.t :=
  match adapter_of serviceType with
  | None => Err "service type does not support systemd port reconfiguration"
  | Some a =>
      if policyUnit !=? Adapter.Unit a then Err "root policy unit does not match the fixed service adapter" else Ok a
  end.

(** [contracts.MarshalNodeListenerConfig], which is not part of the repository: the
    encoding of service type, bind address and revision. *)
Class ListenerCodec := MarshalNodeListenerConfig : string -> string -> Z -> option string.

(** [net.JoinHostPort] with a decimal port. *)
Definition JoinHostPort (host : string) (port : Z) : string :=
  if ContainsByte host ":" || ContainsByte host "%" then "[" +:+ host +:+ "]:" +:+ FormatInt port
  else host +:+ ":" +:+ FormatInt port.

Definition newline : string := bytes [10]%N.

Section Sidecar.
Context `{ListenerCodec}.

Definition systemdPortSidecarBytes (serviceType host : string) (port configRevision : Z) : string :=
  let address := JoinHostPort host port in
  if serviceType ==? "control_panel" then
    "AUTOSTREAM_BIND_ADDR=" +:+ address +:+ newline +:+ "AUTOSTREAM_CONFIG_REVISION=" +:+ FormatInt configRevision +:+ newline
  else match MarshalNodeListenerConfig serviceType address configRevision with Some body => body | None => "" end.
End Sidecar.

Definition systemdPortSidecarSHA256 (body : string) : string := "sha256:" +:+ sha256_hex body.

Definition systemdPortSidecarMaxBytes : Z := 64 * 2 ^ 10.

Module Checkpoint.
Record t := mk { Existed : bool; Mode : Z; Bytes : string; SHA256 : string }.
#[global] Instance eq_dec : EqDecision t.
Proof. solve_decision. Defined.

Definition new (existed : bool) (mode : Z) (body : string) : t :=
  let body := if existed then body else "" in
  let mode := if existed then mode else 0%Z in
  mk existed mode body (systemdPortSidecarSHA256 body).

Definition validate (c : t) : check :=
  if SHA256 c !=? systemdPortSidecarSHA256 (Bytes c) then Err "systemd port sidecar checkpoint digest is invalid"
  else if negb (Existed c) then
    if (Mode c !=? 0)%Z || (len (Bytes c) !=? 0)%Z then Err "absent systemd port sidecar checkpoint is invalid" else Ok tt
  else if (Mode c =? 0)%Z || (Z.land (Mode c) 18 !=? 0)%Z || (len (Bytes c) =? 0)%Z ||
          (systemdPortSidecarMaxBytes <? len (Bytes c))%Z
  then Err "present systemd port sidecar checkpoint is invalid" else Ok tt.

(** [sameSystemdPortCheckpoint]. *)
Definition same (left right : t) : bool := bool_decide (left = right).
End Checkpoint.

(** ** Targets of the root policy *)

Module PortTarget.
Record t := mk {
  ServiceID : string;
  ServiceType : string;
  DeploymentMode : string;
  EndpointRevision : Z;
  ConfigRevision : Z;
  ConfigSHA256 : string;
  Host : string;            (** [LocalListen.Host] *)
  Port : Z;                 (** [LocalListen.Port] *)
  Unit : option string;     (** [Systemd.Unit] *)
}.
#[global] Instance eta_t : Eta t := fun x =>
  mk (ServiceID x) (ServiceType x) (DeploymentMode x) (EndpointRevision x) (ConfigRevision x) (ConfigSHA256 x)
     (Host x) (Port x) (Unit x).
#[global] Instance eq_dec : EqDecision t.
Proof. solve_decision. Defined.
End PortTarget.

(** The targets of the executor policy. *)
Class PolicyTargets (P : Type) := {
  policy_target : P -> string -> option PortTarget.t;
  target_valid : PortTarget.t -> bool;       (** [LocalExecutorTarget.validate] *)
}.

(** ** The applied-port record *)

Module Applied.
Record t := mk {
  SchemaVersion : Z;
  TargetID : string;
  ServiceType : string;
  Port : Z;
  EndpointRevision : Z;
  ConfigRevision : Z;
  ConfigSHA256 : string;
  SourcePolicyRevision : Z;
  UpdaterPolicyRevision : Z;
  ExecutorPolicyRevision : Z;
  ExecutorPolicySHA256 : string;
  OwnershipEpoch : Z;
}.
#[global] Instance eq_dec : EqDecision t.
Proof. solve_decision. Defined.

Definition fields_invalid (s : t) : bool :=
  (SchemaVersion s !=? systemdPortPlanSchemaVersion)%Z || negb (validSystemdPort (Port s)) ||
  (EndpointRevision s <? 1)%Z || (ConfigRevision s <? 1)%Z || negb (re_match digestPattern (ConfigSHA256 s)) ||
  (SourcePolicyRevision s <? 1)%Z || (UpdaterPolicyRevision s <? 1)%Z || (ExecutorPolicyRevision s <? 1)%Z ||
  negb (re_match digestPattern (ExecutorPolicySHA256 s)) || (OwnershipEpoch s <? 1)%Z.

(** The checks of [SaveApplied]. *)
Definition saveable (s : t) : bool :=
  negb (fields_invalid s) && re_match identifierPattern (TargetID s) && validSystemdPortServiceType (ServiceType s).

Definition matchesTarget (s : t) (target : PortTarget.t) : bool :=
  (TargetID s ==? PortTarget.ServiceID target) && (ServiceType s ==? PortTarget.ServiceType target) &&
  (Port s =? PortTarget.Port target)%Z && (EndpointRevision s =? PortTarget.EndpointRevision target)%Z &&
  (ConfigRevision s =? PortTarget.ConfigRevision target)%Z && (ConfigSHA256 s ==? PortTarget.ConfigSHA256 target).

Section Record.
Context `{ListenerCodec} {P : Type} `{ExecutorPolicy P}.

Definition validateRecord (s : t) (target : PortTarget.t) : check :=
  match PortTarget.Unit target with
  | None => Err "systemd applied port state is invalid"
  | Some unit =>
      if fields_invalid s || (TargetID s !=? PortTarget.ServiceID target) ||
         (ServiceType s !=? PortTarget.ServiceType target) || (PortTarget.DeploymentMode target !=? ModeSystemd) ||
         negb (re_match digestPattern (PortTarget.ConfigSHA256 target))
      then Err "systemd applied port state is invalid"
      else
        match systemdPortAdapterFor (PortTarget.ServiceType target) unit with
        | Err _ => Err "systemd applied port state adapter is invalid"
        | Ok a =>
            if ConfigSHA256 s !=? systemdPortSidecarSHA256
                 (systemdPortSidecarBytes (Adapter.ServiceType a) (PortTarget.Host target) (Port s) (ConfigRevision s))
            then Err "systemd applied port state digest is invalid" else Ok tt
        end
  end.

(** [true] means that the record overrides the policy. *)
Definition validateForPolicy (s : t) (policy : P) (target : PortTarget.t) : result string bool :=
  let! _ := validateRecord s target in
  match Policy_SHA256 policy with
  | Err _ => Err "systemd applied port policy digest is unavailable"
  | Ok policySHA =>
      let lineageMatches :=
        (SourcePolicyRevision s =? SelfUpdateGrant.SourcePolicyRevision policy)%Z &&
        (UpdaterPolicyRevision s =? ProjectionRevision policy)%Z &&
        (ExecutorPolicyRevision s =? PolicyRevision policy)%Z && (ExecutorPolicySHA256 s ==? policySHA) in
      if negb lineageMatches then
        if matchesTarget s target then Ok false else Err "systemd applied port state policy lineage is stale"
      else if (EndpointRevision s <? PortTarget.EndpointRevision target)%Z || (ConfigRevision s <? PortTarget.ConfigRevision target)%Z
      then Err "systemd applied port state revision regresses"
      else if (EndpointRevision s =? PortTarget.EndpointRevision target)%Z &&
              ((Port s !=? PortTarget.Port target)%Z || (ConfigRevision s !=? PortTarget.ConfigRevision target)%Z ||
               (ConfigSHA256 s !=? PortTarget.ConfigSHA256 target))
      then Err "systemd applied port state reuses an endpoint revision"
      else if (ConfigRevision s =? PortTarget.ConfigRevision target)%Z &&
              ((Port s !=? PortTarget.Port target)%Z || (ConfigSHA256 s !=? PortTarget.ConfigSHA256 target))
      then Err "systemd applied port state reuses a config revision"
      else Ok true
  end.
End Record.
End Applied.

(** ** The job ledger *)

Module PortLedger.
Record t := mk {
  SchemaVersion : Z;
  Plan : PortPlan.t;
  State : string;
  checkpoint : Checkpoint.t;
  TargetBytes : string;
  CurrentVersion : string;
  Result : option PortResult.t;
}.
#[global] Instance eta_t : Eta t := fun l =>
  mk (SchemaVersion l) (Plan l) (State l) (checkpoint l) (TargetBytes l) (CurrentVersion l) (Result l).
#[global] Instance eq_dec : EqDecision t.
Proof. solve_decision. Defined.

Definition result_valid (r : option PortResult.t) : bool :=
  match r with Some r => is_ok (PortResult.Validate r) | None => false end.

Definition unfinished : list string :=
  [LedgerStaged; LedgerGrantConsuming; LedgerGrantConsumed; LedgerSidecarWritten; LedgerRestarted; LedgerAmbiguous].

Definition validate_state (l : t) : check :=
  if existsb (fun x => State l ==? x) unfinished then
    if bool_decide (Result l <> None) then Err "non-terminal systemd port ledger contains a result" else Ok tt
  else if State l ==? LedgerCommitting then
    if negb (result_valid (Result l)) ||
       match Result l with Some r => PortResult.Result r ==? ResultRollbackFailed | None => false end
    then Err "committing systemd port ledger result is invalid" else Ok tt
  else if State l ==? LedgerTerminal then
    if negb (result_valid (Result l)) then Err "terminal systemd port ledger result is invalid" else Ok tt
  else Err "systemd port ledger state is invalid".

Definition validate `{TimeZones} (l : t) (targetID : string) : check :=
  if (SchemaVersion l !=? systemdPortPlanSchemaVersion)%Z || (PortPlan.TargetID (Plan l) !=? targetID) ||
     is_err (PortPlan.Validate (Plan l)) || is_err (Checkpoint.validate (checkpoint l)) ||
     (PortPlan.ExpectedConfigSHA256 (Plan l) !=? Checkpoint.SHA256 (checkpoint l)) ||
     (systemdPortSidecarSHA256 (TargetBytes l) !=? PortPlan.TargetConfigSHA256 (Plan l))
  then Err "systemd port ledger binding is invalid"
  else if negb (re_match versionPattern (CurrentVersion l)) then Err "systemd port ledger current version is invalid"
  else validate_state l.
End PortLedger.

(** ** Requests *)

(** [LocalExecutorRequest], as far as port changes read it; [Foreign] stands for the
    payload fields of the other operations. *)
Module PortRequest.
Record t := mk {
  Version : Z;
  Operation : string;
  ServiceID : string;
  Plan : option PortPlan.t;
  SourcePolicyRevision : Z;
  OwnershipEpoch : Z;
  OwnershipPolicyRevision : Z;
  ExecutorPolicyRevision : Z;
  MutationGrant : string;
  MutationGrantV2Binding : option V2Binding.t;
  Foreign : bool;
}.

Section Validate.
Context `{TimeZones}.
(** [contracts.SystemUpdatePortPlanIsNoOp]. *)
Variable PlanIsNoOp : PortPlan.t -> bool.

Definition Validate (r : t) : check :=
  if (ServiceID r !=? TrimSpace (ServiceID r)) || negb (re_match identifierPattern (ServiceID r))
  then Err "local executor service_id is invalid"
  else if (Operation r ==? "port_reconfigure") || (Operation r ==? "port_reconfigure_reconcile") then
    match Plan r with
    | None => Err "local executor port mutation binding is invalid"
    | Some p =>
        if (Version r !=? LocalExecutorMutationProtocolVersion)%Z || Foreign r || (PortPlan.TargetID p !=? ServiceID r) ||
           (SourcePolicyRevision r !=? PortPlan.ExpectedSourcePolicyRevision p)%Z ||
           (OwnershipEpoch r !=? PortPlan.OwnershipEpoch p)%Z ||
           (OwnershipPolicyRevision r !=? PortPlan.ExpectedUpdaterPolicyRevision p)%Z ||
           (ExecutorPolicyRevision r !=? PortPlan.ExpectedExecutorPolicyRevision p)%Z
        then Err "local executor port mutation binding is invalid"
        else
          let! _ := PortPlan.Validate p in
          if negb (validBoundedSecret (MutationGrant r)) &&
             ((MutationGrant r !=? "") || bool_decide (MutationGrantV2Binding r = None) || negb (PlanIsNoOp p))
          then Err "local executor port mutation requires a grant unless its validated plan is an exact no-op"
          else Ok tt
    end
  else Err "unsupported local executor operation".
End Validate.
End PortRequest.
