(* ===== verification/PortEngine.v ===== *)
(** The port change of a systemd service as programs: the ledger files
    ([systemd_port_state.go]), the actions of the Linux runtime
    ([systemd_port_reconfigure_linux.go]) and the transaction with its recovery
    ([systemd_port_execution.go], [systemd_port_commit.go], [systemd_port_recovery.go]).

    The checks of files that do not look at the content (owners, symbolic links, the
    size of the encoded record) are part of the operations, which may fail.  A write is
    atomic: it happens or it does not, and it may report a failure either way. *)
From Stdlib Require Import Ascii String ZArith Lia.
From stdpp Require Import base decidable list strings gmap.
From S2P Require Import Prelude Strings Regexp Patterns Effects Sha256 Json Paths PlanDigest MutationLedger SelfUpdateGrant Grants PortPlan.

Open Scope string_scope.

(** ** What the Panel is asked *)

(** [MutationGrantBinding] of a port change, with the nested binding
    [SystemdPortMutationGrantBinding] of contract version 0. *)
Module PortGrant.
Record nested := mk_nested {
  NetworkNamespace : string;
  Protocol : string;
  OldPort : Z;
  NewPort : Z;
  ExpectedEndpointRevision : Z;
  TargetEndpointRevision : Z;
  ExpectedConfigRevision : Z;
  TargetConfigRevision : Z;
  ExpectedConfigSHA256 : string;
  TargetConfigSHA256 : string;
  ExpectedSourcePolicyRevision : Z;
  ExpectedUpdaterPolicyRevision : Z;
  ExpectedExecutorPolicyRevision : Z;
  ExpectedExecutorPolicySHA256 : string;
  PortPlanSHA256 : string;
  Docker : option DockerBinding.t;
}.
Record t := mk {
  LeaseGeneration : Z;
  HostID : string;
  TransportMode : string;
  TargetID : string;
  ServiceType : string;
  TargetVersion : string;
  DeploymentMode : string;
  JobOperation : string;
  Operation : string;
  PlanSHA256 : string;
  SessionID : string;
  OwnershipEpoch : Z;
  PolicyRevision : Z;
  PortReconfigure : nested;
}.
End PortGrant.

(** [mutationGrantBinding]. *)
Definition mutationGrantBinding (p : PortPlan.t) : PortGrant.nested :=
  PortGrant.mk_nested (PortPlan.NetworkNamespace p) (PortPlan.Protocol p) (PortPlan.OldPort p) (PortPlan.NewPort p)
    (PortPlan.ExpectedEndpointRevision p) (PortPlan.TargetEndpointRevision p) (PortPlan.ExpectedConfigRevision p)
    (PortPlan.TargetConfigRevision p) (PortPlan.ExpectedConfigSHA256 p) (PortPlan.TargetConfigSHA256 p)
    (PortPlan.ExpectedSourcePolicyRevision p) (PortPlan.ExpectedUpdaterPolicyRevision p)
    (PortPlan.ExpectedExecutorPolicyRevision p) (PortPlan.ExpectedExecutorPolicySHA256 p) (PortPlan.PortPlanSHA256 p)
    (PortPlan.Docker p).

Definition grant_binding (p : PortPlan.t) (operation currentVersion : string) : PortGrant.t :=
  PortGrant.mk (PortPlan.LeaseGeneration p) (PortPlan.HostID p) HostTransportPullV2 (PortPlan.TargetID p)
    (PortPlan.ServiceType p) currentVersion ModeSystemd "port_reconfigure" operation (PortPlan.PortPlanSHA256 p)
    (PortPlan.SessionID p) (PortPlan.OwnershipEpoch p) (PortPlan.ExpectedUpdaterPolicyRevision p)
    (mutationGrantBinding p).

(** What is presented to the Panel with a grant: the binding that the executor builds from
    the plan, or the one of the later grant contract, as it came with the request. *)
Inductive presented :=
| PresentedV1 (b : PortGrant.t)
| PresentedV2 (b : V2Binding.t).

(** ** The world *)

(** What happened outside the ledger directory, with the job ledgers that were durable
    at that moment. *)
Inductive event :=
| EGranted (jobID : string) (b : presented) (jobs : gmap string PortLedger.t)
| ESidecar (path : string) (before : option (Z * string)) (body : option string) (jobs : gmap string PortLedger.t)
| ERestart (svc : string) (jobs : gmap string PortLedger.t)
| EVerified (target : PortTarget.t).

Record world := World {
  jobs : gmap string PortLedger.t;
  active : gmap string (string * string);     (** target and job of the active pointer *)
  applied : gmap string Applied.t;
  sidecars : gmap string (Z * string);        (** mode and content *)
  log : list event;                           (** newest first *)
}.
#[global] Instance eta_world : Eta world := fun w => World (jobs w) (active w) (applied w) (sidecars w) (log w).

Inductive op : Type -> Type :=
| LifecycleLock : op (result string unit)           (** [acquireHostLifecycleLock] *)
| NoRecoveryIntent : op (result string unit)        (** [softwareClaimRecoveryIntentBlocksHost] *)
| CurrentPolicy : op (result string unit)           (** the snapshot of the policy store *)
| HostLane : op (result string unit)                (** the state stores and [portV2HostLaneAllows] *)
| SecureTarget : op (result string unit)            (** [securePrivilegedTarget] *)
| AcquireLock (targetID : string) : op (result string unit)
| OpenExecution : op (result string unit)           (** the host checks of [newPlatformSystemdPortExecution] *)
| EnsureDirectory : op (result string unit)
| ReadJob (key : string) : op (result string (option PortLedger.t))
| WriteJob (key : string) (l : PortLedger.t) : op (result string unit)
| ReadActive (key : string) : op (result string (option (string * string)))
| WriteActive (key : string) (reference : string * string) : op (result string unit)
| ReadApplied (key : string) : op (result string (option Applied.t))
| WriteApplied (key : string) (s : Applied.t) : op (result string unit)
| ReadSidecar (path : string) : op (result string (option (Z * string)))
| WriteSidecar (path body : string) : op (result string unit)
| RemoveSidecar (path : string) : op (result string unit)
| SyncDirectory : op (result string unit)
| ListeningPort (table : string) (port : Z) : op (result string bool)   (** [procNetTCPListeningPort] *)
| Consume (url jobID grant : string) (b : presented) : op (result string unit)
| Systemctl (svc : string) : op (result string unit)
| WaitListener (host : string) (port : Z) : op (result string unit)
| VerifyStable (target : PortTarget.t) : op (result string string).     (** [verifyStableLocalTarget] *)

(** [Fails]: the operation fails and has not happened; [FailsAfter]: it has happened and
    reports a failure; [Smooth]: it succeeds, and a verification comes out as the verdict
    says. *)
Inductive answer :=
| Good
| Fails
| FailsAfter
| Busy
| Version (v : string)
| Smooth (verdict : list event -> PortTarget.t -> option string).

Definition observe {A} (r : A) (ans : answer) (w : world) : option (result string A * world) :=
  match ans with
  | Good | Smooth _ => Some (Ok r, w)
  | Fails => Some (Err "unavailable", w)
  | _ => None
  end.

Definition effect (ans : answer) (after before : world) : option (result string unit * world) :=
  match ans with
  | Good | Smooth _ => Some (Ok tt, after)
  | Fails => Some (Err "unavailable", before)
  | FailsAfter => Some (Err "unavailable", after)
  | _ => None
  end.

Definition record (e : event) (w : world) : world := w <| log := e :: log w |>.

#[global] Instance port_handler : Handler op world answer := fun X o ans w =>
  match o in op X return option (X * world) with
  | LifecycleLock | NoRecoveryIntent | CurrentPolicy | HostLane | SecureTarget | AcquireLock _ | OpenExecution | EnsureDirectory | SyncDirectory | WaitListener _ _ => observe tt ans w
  | ReadJob key => observe (jobs w !! key) ans w
  | WriteJob key l => effect ans (w <| jobs := <[key := l]> (jobs w) |>) w
  | ReadActive key => observe (active w !! key) ans w
  | WriteActive key r => effect ans (w <| active := <[key := r]> (active w) |>) w
  | ReadApplied key => observe (applied w !! key) ans w
  | WriteApplied key s => effect ans (w <| applied := <[key := s]> (applied w) |>) w
  | ReadSidecar path => observe (sidecars w !! path) ans w
  | WriteSidecar path body =>
      effect ans (record (ESidecar path (sidecars w !! path) (Some body) (jobs w)) (w <| sidecars := <[path := (384%Z, body)]> (sidecars w) |>)) w
  | RemoveSidecar path =>
      effect ans (record (ESidecar path (sidecars w !! path) None (jobs w)) (w <| sidecars := delete path (sidecars w) |>)) w
  | ListeningPort _ _ =>
      match ans with
      | Good | Smooth _ => Some (Ok false, w)
      | Busy => Some (Ok true, w)
      | Fails => Some (Err "unavailable", w)
      | _ => None
      end
  | Consume _ jobID _ b =>
      match ans with
      | Good | Smooth _ => Some (Ok tt, record (EGranted jobID b (jobs w)) w)
      | Fails => Some (Err "rejected", w)
      | FailsAfter => Some (Err "rejected", record (EGranted jobID b (jobs w)) w)
      | _ => None
      end
  | Systemctl svc => effect ans (record (ERestart svc (jobs w)) w) w
  | VerifyStable target =>
      match ans with
      | Version v => Some (Ok v, record (EVerified target) w)
      | Smooth verdict =>
          match verdict (log w) target with
          | Some v => Some (Ok v, record (EVerified target) w)
          | None => Some (Err "unverified", w)
          end
      | Fails => Some (Err "unverified", w)
      | _ => None
      end
  end.

Abbreviation io A := (prog op (result string A)).

Definition require (b : bool) : io unit := Ret (if b then Ok tt else Err "invalid").

Section Engine.
Context `{TimeZones} `{ListenerCodec} {P : Type} `{ExecutorPolicy P} `{PolicyTargets P}.
(** [contracts.SystemUpdatePortPlanIsNoOp]. *)
Variable PlanIsNoOp : PortPlan.t -> bool.

(** ** The ledger files *)

Definition jobKey (targetID jobID : string) : string := remoteStableKey [targetID; jobID].
Definition activeKey (targetID : string) : string := remoteStableKey [targetID].
Definition appliedKey (targetID : string) : string := remoteStableKey [targetID].

Definition LoadJob (targetID jobID : string) : io (option PortLedger.t) :=
  let? _ := require (re_match identifierPattern targetID && re_match identifierPattern jobID) in
  let? found := call (ReadJob (jobKey targetID jobID)) in
  match found with
  | None => Ret (Ok None)
  | Some l =>
      let? _ := require (is_ok (PortLedger.validate l targetID) && (PortPlan.JobID (PortLedger.Plan l) ==? jobID)) in
      Ret (Ok (Some l))
  end.

Definition LoadActive (targetID : string) : io (option PortLedger.t) :=
  let? _ := require (re_match identifierPattern targetID) in
  let? found := call (ReadActive (activeKey targetID)) in
  match found with
  | None => Ret (Ok None)
  | Some (target, job) =>
      let? _ := require ((target ==? targetID) && re_match identifierPattern job) in
      let? ledger := LoadJob targetID job in
      match ledger with
      | None => Ret (Err "systemd port active ledger is missing")
      | Some l => Ret (Ok (Some l))
      end
  end.

Definition ledger_target (l : PortLedger.t) : string := PortPlan.TargetID (PortLedger.Plan l).
Definition ledger_job (l : PortLedger.t) : string := PortPlan.JobID (PortLedger.Plan l).
Definition ledger_key (l : PortLedger.t) : string := jobKey (ledger_target l) (ledger_job l).

Definition Save (l : PortLedger.t) : io unit :=
  let? _ := lift (PortLedger.validate l (ledger_target l)) in
  let? _ := call EnsureDirectory in
  call (WriteJob (ledger_key l) l).

(** The target has another transaction that is not finished. *)
Definition busy_with_other (active : option PortLedger.t) (jobID : string) : bool :=
  match active with
  | Some a => (ledger_job a !=? jobID) && (PortLedger.State a !=? LedgerTerminal)
  | None => false
  end.

Definition Stage (l : PortLedger.t) : io unit :=
  let? _ := lift (PortLedger.validate l (ledger_target l)) in
  let? active := LoadActive (ledger_target l) in
  let? _ := require (negb (busy_with_other active (ledger_job l))) in
  let? _ := Save l in
  call (WriteActive (activeKey (ledger_target l)) (ledger_target l, ledger_job l)).

Definition LoadApplied (targetID : string) : io (option Applied.t) :=
  let? _ := require (re_match identifierPattern targetID) in
  let? found := call (ReadApplied (appliedKey targetID)) in
  match found with
  | None => Ret (Ok None)
  | Some s => let? _ := require (Applied.TargetID s ==? targetID) in Ret (Ok (Some s))
  end.

Definition SaveApplied (s : Applied.t) : io unit :=
  let? _ := require (Applied.saveable s) in
  let? _ := call EnsureDirectory in
  call (WriteApplied (appliedKey (Applied.TargetID s)) s).

Definition VerifyAppliedSidecar (target : PortTarget.t) (s : Applied.t) : io unit :=
  let? _ := lift (Applied.validateRecord s target) in
  match PortTarget.Unit target with
  | None => Ret (Err "systemd applied port sidecar adapter is invalid")
  | Some svc =>
      let? a := lift (systemdPortAdapterFor (PortTarget.ServiceType target) svc) in
      let? found := call (ReadSidecar (Adapter.SidecarPath a)) in
      match found with
      | None => Ret (Err "systemd applied port sidecar is not a private regular file")
      | Some (mode, body) =>
          let expected := systemdPortSidecarBytes (Adapter.ServiceType a) (PortTarget.Host target)
                            (Applied.Port s) (Applied.ConfigRevision s) in
          require ((mode =? 384)%Z && (len body =? len expected)%Z && negb (len expected =? 0)%Z &&
                   (len expected <=? systemdPortSidecarMaxBytes)%Z && (body ==? expected) &&
                   (systemdPortSidecarSHA256 body ==? Applied.ConfigSHA256 s))
      end
  end.

(** ** The Linux runtime *)

(** [linuxSystemdPortRuntime]. *)
Record runtime := Runtime {
  rt_adapter : Adapter.t;
  rt_hostID : string;
  rt_serviceID : string;
  rt_serviceType : string;
  rt_listenHost : string;
  rt_panelURL : string;
  rt_v2_binding : option V2Binding.t;
}.

Definition matchesAdapter (r : runtime) (a : Adapter.t) : bool := a ==? rt_adapter r.

Definition checkpointSystemdPortSidecar (path : string) : io Checkpoint.t :=
  let? found := call (ReadSidecar path) in
  match found with
  | None => Ret (Ok (Checkpoint.new false 0 ""))
  | Some (mode, body) =>
      let? _ := require ((mode =? 384)%Z && (0 <? len body)%Z && (len body <=? systemdPortSidecarMaxBytes)%Z) in
      Ret (Ok (Checkpoint.new true mode body))
  end.

Definition TakeCheckpoint (r : runtime) (a : Adapter.t) : io Checkpoint.t :=
  let? _ := require (matchesAdapter r a) in
  checkpointSystemdPortSidecar (Adapter.SidecarPath a).

(** [validLocalExecutorLoopback]: what [netip.ParseAddr] reads as a loopback address and
    prints again as the same text.  An IPv4 address in 127/8, the IPv6 loopback, or a
    mapped IPv4 loopback; an IPv6 address may carry a zone. *)
Definition octet : re :=
  Alt (Cls digit) (Alt (Cat (Cls (rng "1" "9")) (Cls digit))
    (Alt (Cat (Lit "1") (Times (Cls digit) 2))
      (Alt (Cat (Lit "2") (Cat (Cls (rng "0" "4")) (Cls digit))) (Cat (Lit "25") (Cls (rng "0" "5")))))).
Definition loopback4 : re := Cat (Lit "127") (Times (Cat (Lit ".") octet) 3).

Definition validLocalExecutorLoopback (value : string) : bool :=
  if value !=? TrimSpace value then false
  else
    let '(address, zone, zoned) := Cut value "%" in
    if re_match (Alt (Lit "::1") (Cat (Lit "::ffff:") loopback4)) address then negb zoned || (zone !=? "")
    else re_match loopback4 value.

Definition EnsurePortAvailable (r : runtime) (host : string) (port : Z) : io unit :=
  let? _ := require ((host ==? rt_listenHost r) && validLocalExecutorLoopback host && validSystemdPort port) in
  let? inUse := call (ListeningPort "/proc/net/tcp" port) in
  let? _ := require (negb inUse) in
  let? inUse := call (ListeningPort "/proc/net/tcp6" port) in
  require (negb inUse).

Definition port_operation (operation : string) : bool :=
  (operation ==? "port_reconfigure") || (operation ==? "port_reconfigure_reconcile").

Definition presented_binding (r : runtime) (p : PortPlan.t) (operation currentVersion : string) : presented :=
  match rt_v2_binding r with
  | Some b => PresentedV2 b
  | None => PresentedV1 (grant_binding p operation currentVersion)
  end.

Definition ConsumeGrant (r : runtime) (p : PortPlan.t) (operation currentVersion grant : string) : io unit :=
  let? _ := require (is_ok (PortPlan.Validate p) && (PortPlan.HostID p ==? rt_hostID r) &&
                     (PortPlan.TargetID p ==? rt_serviceID r) && (PortPlan.ServiceType p ==? rt_serviceType r) &&
                     port_operation operation && re_match versionPattern currentVersion && validBoundedSecret grant) in
  call (Consume (rt_panelURL r) (PortPlan.JobID p) grant (presented_binding r p operation currentVersion)).

(** The sidecar is a private file with exactly this content. *)
Definition holds (c : Checkpoint.t) (body : string) : bool :=
  Checkpoint.Existed c && (Checkpoint.Mode c =? 384)%Z && (Checkpoint.SHA256 c ==? systemdPortSidecarSHA256 body) &&
  (Checkpoint.Bytes c ==? body).

Definition body_bounded (body : string) : bool := negb (len body =? 0)%Z && (len body <=? systemdPortSidecarMaxBytes)%Z.

Definition Write (r : runtime) (a : Adapter.t) (c : Checkpoint.t) (body : string) : io unit :=
  let? _ := require (matchesAdapter r a && is_ok (Checkpoint.validate c) && body_bounded body) in
  let? current := checkpointSystemdPortSidecar (Adapter.SidecarPath a) in
  let? _ := require (Checkpoint.same current c) in
  let? _ := call (WriteSidecar (Adapter.SidecarPath a) body) in
  let? written := checkpointSystemdPortSidecar (Adapter.SidecarPath a) in
  require (holds written body).

Definition Restore (r : runtime) (a : Adapter.t) (c : Checkpoint.t) (targetBytes : string) : io unit :=
  let? _ := require (matchesAdapter r a && is_ok (Checkpoint.validate c) && body_bounded targetBytes) in
  let? current := checkpointSystemdPortSidecar (Adapter.SidecarPath a) in
  let? _ := require (holds current targetBytes) in
  let? _ := if Checkpoint.Existed c then
              let? _ := require (Checkpoint.Mode c =? 384)%Z in
              call (WriteSidecar (Adapter.SidecarPath a) (Checkpoint.Bytes c))
            else
              let? _ := call (RemoveSidecar (Adapter.SidecarPath a)) in
              call SyncDirectory in
  let? restored := checkpointSystemdPortSidecar (Adapter.SidecarPath a) in
  require (Checkpoint.same restored c).

Definition validateTarget (r : runtime) (t : PortTarget.t) : bool :=
  target_valid t && (PortTarget.ServiceID t ==? rt_serviceID r) && (PortTarget.ServiceType t ==? rt_serviceType r) &&
  (PortTarget.DeploymentMode t ==? ModeSystemd) && (PortTarget.Unit t ==? Some (Adapter.Unit (rt_adapter r))) &&
  (PortTarget.Host t ==? rt_listenHost r).

Definition Restart (r : runtime) (t : PortTarget.t) : io unit :=
  let? _ := require (validateTarget r t) in
  let? _ := call (Systemctl (Adapter.Unit (rt_adapter r))) in
  call (WaitListener (PortTarget.Host t) (PortTarget.Port t)).

Definition Verify (r : runtime) (policy : P) (t : PortTarget.t) : io string :=
  let? _ := require (validateTarget r t && (HostID policy ==? rt_hostID r) && is_ok (Policy_Validate policy)) in
  call (VerifyStable t).

(** ** Results *)

Definition port_response : Type := result string (PortResult.t * string * string).

Definition failure (code : string) : prog op port_response := Ret (Err code).

(** [attempt x := p or c in q] answers with the code [c] when [p] fails. *)
Definition or_fail {A} (p : io A) (code : string) (f : A -> prog op port_response) : prog op port_response :=
  bind p (fun r => match r with Ok a => f a | Err _ => failure code end).

Notation "'attempt' x ':=' p 'or' c 'in' q" := (or_fail p c (fun x => q))
  (at level 10, x pattern, p at level 100, c at level 100, q at level 200).

Definition localExecutorPortResponse (p : PortPlan.t) (r : PortResult.t) : port_response :=
  if re_match mutationSessionPattern (PortPlan.SessionID p) && re_match mutationPlanHashPattern (PortPlan.PortPlanSHA256 p) &&
     is_ok (PortResult.Validate r)
  then Ok (r, PortPlan.SessionID p, PortPlan.PortPlanSHA256 p) else Err "internal_error".

Definition systemdPortAppliedStateForResult (p : PortPlan.t) (r : PortResult.t) : Applied.t :=
  Applied.mk systemdPortPlanSchemaVersion (PortPlan.TargetID p) (PortPlan.ServiceType p) (PortResult.AppliedPort r)
    (PortResult.EndpointRevision r) (PortResult.ConfigRevision r) (PortResult.ConfigSHA256 r)
    (PortPlan.ExpectedSourcePolicyRevision p) (PortPlan.ExpectedUpdaterPolicyRevision p)
    (PortPlan.ExpectedExecutorPolicyRevision p) (PortPlan.ExpectedExecutorPolicySHA256 p) (PortPlan.OwnershipEpoch p).

Definition applied_result (p : PortPlan.t) : PortResult.t :=
  PortResult.mk false "" "succeeded" ResultApplied true (PortPlan.OldPort p) (PortPlan.NewPort p) (PortPlan.NewPort p)
    (PortPlan.TargetEndpointRevision p) (PortPlan.TargetConfigRevision p) (PortPlan.TargetConfigSHA256 p)
    "requested systemd port is running and verified" None.

Definition rolled_back_result (p : PortPlan.t) : PortResult.t :=
  PortResult.mk false "" "rolled_back" ResultRolledBack true (PortPlan.OldPort p) (PortPlan.NewPort p) (PortPlan.OldPort p)
    (i64_succ (PortPlan.TargetEndpointRevision p)) (PortPlan.ExpectedConfigRevision p) (PortPlan.ExpectedConfigSHA256 p)
    "previous systemd port was restored and verified" None.

Definition unchanged_result (p : PortPlan.t) : PortResult.t :=
  PortResult.mk false "" "succeeded" ResultUnchanged true (PortPlan.OldPort p) (PortPlan.NewPort p) (PortPlan.OldPort p)
    (i64_succ (PortPlan.TargetEndpointRevision p)) (PortPlan.ExpectedConfigRevision p) (PortPlan.ExpectedConfigSHA256 p)
    "systemd port mutation had not changed the verified previous state" None.

Definition rollback_failed_result (p : PortPlan.t) : PortResult.t :=
  PortResult.mk false "" "failed" ResultRollbackFailed false (PortPlan.OldPort p) (PortPlan.NewPort p) 0
    (PortPlan.TargetEndpointRevision p) 0 "" "local rollback could not determine a verified effective port" None.

Definition result_of (kind : string) (p : PortPlan.t) : option PortResult.t :=
  if kind ==? ResultApplied then Some (applied_result p)
  else if kind ==? ResultRolledBack then Some (rolled_back_result p)
  else if kind ==? ResultUnchanged then Some (unchanged_result p)
  else None.

(** The ledger entry with the plan, the state and the result of the step. *)
Definition advance (l : PortLedger.t) (p : PortPlan.t) (state : string) (r : option PortResult.t) : PortLedger.t :=
  l <| PortLedger.Plan := p |> <| PortLedger.State := state |> <| PortLedger.Result := r |>.

Definition commitSystemdPortResult (p : PortPlan.t) (l : PortLedger.t) (kind : string) : prog op port_response :=
  match result_of kind p with
  | None => failure "internal_error"
  | Some r =>
      attempt _ := Save (advance l p LedgerCommitting (Some r)) or "state_unavailable" in
      attempt _ := SaveApplied (systemdPortAppliedStateForResult p r) or "state_unavailable" in
      attempt _ := Save (advance l p LedgerTerminal (Some r)) or "state_unavailable" in
      Ret (localExecutorPortResponse p r)
  end.

Definition systemdPortTargetAfter (t : PortTarget.t) (p : PortPlan.t) : PortTarget.t :=
  t <| PortTarget.Port := PortPlan.NewPort p |> <| PortTarget.EndpointRevision := PortPlan.TargetEndpointRevision p |>
    <| PortTarget.ConfigRevision := PortPlan.TargetConfigRevision p |>
    <| PortTarget.ConfigSHA256 := PortPlan.TargetConfigSHA256 p |>.

(** ** Recovery *)

Definition rollbackSystemdPortRequest (rt : runtime) (policy : P) (p : PortPlan.t) (oldTarget : PortTarget.t)
    (a : Adapter.t) (l : PortLedger.t) : prog op port_response :=
  let* undone :=
    let? _ := Restore rt a (PortLedger.checkpoint l) (PortLedger.TargetBytes l) in
    let? _ := Restart rt oldTarget in
    Verify rt policy oldTarget in
  match undone with
  | Ok _ => commitSystemdPortResult p l ResultRolledBack
  | Err _ =>
      attempt _ := Save (advance l p LedgerTerminal (Some (rollback_failed_result p))) or "state_unavailable" in
      Ret (localExecutorPortResponse p (rollback_failed_result p))
  end.

(** The grant is consumed between two saves of the ledger; when the Panel refuses it or
    does not answer, the entry becomes ambiguous. *)
Definition consume_gate (rt : runtime) (p : PortPlan.t) (operation grant : string) (l : PortLedger.t)
    (k : PortLedger.t -> prog op port_response) : prog op port_response :=
  attempt _ := Save (l <| PortLedger.State := LedgerGrantConsuming |>) or "state_unavailable" in
  let* consumed := ConsumeGrant rt p operation (PortLedger.CurrentVersion l) grant in
  match consumed with
  | Err _ =>
      let* _ := Save (l <| PortLedger.State := LedgerAmbiguous |>) in
      failure "reconcile_required"
  | Ok _ =>
      attempt _ := Save (l <| PortLedger.State := LedgerGrantConsumed |>) or "reconcile_required" in
      k (l <| PortLedger.State := LedgerGrantConsumed |>)
  end.

Definition reconcileUnstartedSystemdPortRequest (rt : runtime) (policy : P) (request : PortRequest.t) (p : PortPlan.t)
    (target : PortTarget.t) (a : Adapter.t) : prog op port_response :=
  attempt c := TakeCheckpoint rt a or "mutation_precondition_failed" in
  let expectedOld := systemdPortSidecarBytes (Adapter.ServiceType a) (PortTarget.Host target)
                       (PortPlan.OldPort p) (PortPlan.ExpectedConfigRevision p) in
  if is_err (Checkpoint.validate c) || negb (Checkpoint.Existed c) || (Checkpoint.Mode c !=? 384)%Z ||
     (Checkpoint.SHA256 c !=? PortPlan.ExpectedConfigSHA256 p) || (Checkpoint.Bytes c !=? expectedOld)
  then failure "mutation_precondition_failed"
  else
    attempt currentVersion := Verify rt policy target or "mutation_precondition_failed" in
    if negb (re_match versionPattern currentVersion) then failure "mutation_precondition_failed"
    else
      let targetBytes := systemdPortSidecarBytes (Adapter.ServiceType a) (PortTarget.Host target)
                           (PortPlan.NewPort p) (PortPlan.TargetConfigRevision p) in
      if systemdPortSidecarSHA256 targetBytes !=? PortPlan.TargetConfigSHA256 p then failure "config_mismatch"
      else
        let working := PortLedger.mk systemdPortPlanSchemaVersion p LedgerStaged c targetBytes currentVersion None in
        attempt _ := Stage working or "state_unavailable" in
        consume_gate rt p (PortRequest.Operation request) (PortRequest.MutationGrant request) working (fun working =>
          commitSystemdPortResult p working ResultUnchanged).

Definition reconcileSystemdPortRequest (rt : runtime) (policy : P) (request : PortRequest.t) (p : PortPlan.t)
    (target : PortTarget.t) (a : Adapter.t) (l : PortLedger.t) : prog op port_response :=
  let working := l <| PortLedger.Plan := p |> <| PortLedger.Result := None |> in
  consume_gate rt p (PortRequest.Operation request) (PortRequest.MutationGrant request) working (fun working =>
    let* current := TakeCheckpoint rt a in
    let* isNew := match current with
                  | Ok c => if Checkpoint.SHA256 c ==? PortPlan.TargetConfigSHA256 p then
                              let* v := Verify rt policy (systemdPortTargetAfter target p) in Ret (is_ok v)
                            else Ret false
                  | Err _ => Ret false
                  end in
    if (isNew : bool) then commitSystemdPortResult p working ResultApplied
    else
      let* isOld := match current with
                    | Ok c => if Checkpoint.same c (PortLedger.checkpoint working) then
                                let* v := Verify rt policy target in Ret (is_ok v)
                              else Ret false
                    | Err _ => Ret false
                    end in
      if (isOld : bool) then commitSystemdPortResult p working ResultUnchanged
      else rollbackSystemdPortRequest rt policy p target a working).

Definition effective_target (policyTarget : PortTarget.t) (r : PortResult.t) : PortTarget.t :=
  policyTarget <| PortTarget.Port := PortResult.AppliedPort r |>
    <| PortTarget.EndpointRevision := PortResult.EndpointRevision r |>
    <| PortTarget.ConfigRevision := PortResult.ConfigRevision r |>
    <| PortTarget.ConfigSHA256 := PortResult.ConfigSHA256 r |>.

Definition repairSystemdPortCommit (rt : runtime) (policy : P) (request : PortRequest.t) (p : PortPlan.t)
    (policyTarget : PortTarget.t) (a : Adapter.t) (l : PortLedger.t) : prog op port_response :=
  match PortLedger.Result l with
  | None => failure "state_invalid"
  | Some r =>
      if (PortLedger.State l !=? LedgerCommitting) || is_err (PortResult.Validate r) ||
         (PortResult.Result r ==? ResultRollbackFailed)
      then failure "state_invalid"
      else
        attempt _ := ConsumeGrant rt p (PortRequest.Operation request) (PortLedger.CurrentVersion l)
                       (PortRequest.MutationGrant request) or "reconcile_required" in
        let effective := effective_target policyTarget r in
        let expected := systemdPortSidecarBytes (Adapter.ServiceType a) (PortTarget.Host effective)
                          (PortTarget.Port effective) (PortTarget.ConfigRevision effective) in
        attempt c := TakeCheckpoint rt a or "state_invalid" in
        if negb (Checkpoint.Existed c) || (Checkpoint.Mode c !=? 384)%Z ||
           (Checkpoint.SHA256 c !=? PortResult.ConfigSHA256 r) ||
           (systemdPortSidecarSHA256 expected !=? PortResult.ConfigSHA256 r) || (Checkpoint.Bytes c !=? expected)
        then failure "state_invalid"
        else
          attempt _ := Verify rt policy effective or "reconcile_required" in
          attempt _ := SaveApplied (systemdPortAppliedStateForResult p r) or "state_unavailable" in
          attempt _ := Save (advance l p LedgerTerminal (Some r)) or "state_unavailable" in
          Ret (localExecutorPortResponse p r)
  end.

(** ** Requests *)

Definition validateSystemdPortPolicyBinding (policy : P) (request : PortRequest.t) (p : PortPlan.t) :
    result string (PortTarget.t * Adapter.t) :=
  if is_err (PortRequest.Validate PlanIsNoOp request) || is_err (PortPlan.Validate p) ||
     negb (port_operation (PortRequest.Operation request)) || (PortRequest.ServiceID request !=? PortPlan.TargetID p) ||
     (PortRequest.SourcePolicyRevision request !=? PortPlan.ExpectedSourcePolicyRevision p)%Z ||
     (PortRequest.OwnershipEpoch request !=? PortPlan.OwnershipEpoch p)%Z ||
     (PortRequest.OwnershipPolicyRevision request !=? PortPlan.ExpectedUpdaterPolicyRevision p)%Z ||
     (PortRequest.ExecutorPolicyRevision request !=? PortPlan.ExpectedExecutorPolicyRevision p)%Z
  then Err "request fence does not match the port plan"
  else if is_err (Policy_Validate policy) || (SchemaVersion policy !=? LocalExecutorMutationPolicySchemaVersion)%Z ||
          (ProtocolVersion policy !=? LocalExecutorMutationProtocolVersion)%Z || bool_decide (PanelURL policy = None) ||
          (HostID policy !=? PortPlan.HostID p) ||
          (SelfUpdateGrant.SourcePolicyRevision policy !=? PortPlan.ExpectedSourcePolicyRevision p)%Z ||
          (ProjectionRevision policy !=? PortPlan.ExpectedUpdaterPolicyRevision p)%Z ||
          (PolicyRevision policy !=? PortPlan.ExpectedExecutorPolicyRevision p)%Z
  then Err "root policy revision does not match the port plan"
  else if negb (bool_decide (Policy_SHA256 policy = Ok (PortPlan.ExpectedExecutorPolicySHA256 p)))
  then Err "root policy digest does not match the port plan"
  else
    match policy_target policy (PortPlan.TargetID p) with
    | None => Err "root target identity does not match the port plan"
    | Some t =>
        match PortTarget.Unit t with
        | None => Err "root target identity does not match the port plan"
        | Some svc =>
            if (PortTarget.DeploymentMode t !=? ModeSystemd) || (PortTarget.ServiceType t !=? PortPlan.ServiceType p)
            then Err "root target identity does not match the port plan"
            else
              let! a := systemdPortAdapterFor (PortTarget.ServiceType t) svc in
              let expected := systemdPortSidecarBytes (Adapter.ServiceType a) (PortTarget.Host t)
                                (PortPlan.NewPort p) (PortPlan.TargetConfigRevision p) in
              if systemdPortSidecarSHA256 expected !=? PortPlan.TargetConfigSHA256 p
              then Err "target sidecar digest does not match the fixed adapter"
              else Ok (t, a)
        end
    end.

Definition overlay (t : PortTarget.t) (s : Applied.t) : PortTarget.t :=
  t <| PortTarget.Port := Applied.Port s |> <| PortTarget.EndpointRevision := Applied.EndpointRevision s |>
    <| PortTarget.ConfigRevision := Applied.ConfigRevision s |> <| PortTarget.ConfigSHA256 := Applied.ConfigSHA256 s |>.

Definition resolveSystemdPortAppliedTarget (policy : P) (policyTarget : PortTarget.t) : io PortTarget.t :=
  let? found := LoadApplied (PortTarget.ServiceID policyTarget) in
  match found with
  | None => Ret (Ok policyTarget)
  | Some s =>
      let? useOverlay := lift (Applied.validateForPolicy s policy policyTarget) in
      let? _ := VerifyAppliedSidecar policyTarget s in
      Ret (Ok (if (useOverlay : bool) then overlay policyTarget s else policyTarget))
  end.

Definition systemdPortTargetMatchesExpected (t : PortTarget.t) (p : PortPlan.t) : bool :=
  (PortTarget.Port t =? PortPlan.OldPort p)%Z && (0 <? PortTarget.EndpointRevision t)%Z &&
  (PortTarget.EndpointRevision t <=? PortPlan.ExpectedEndpointRevision p)%Z &&
  (PortTarget.ConfigRevision t =? PortPlan.ExpectedConfigRevision p)%Z &&
  (PortTarget.ConfigSHA256 t ==? PortPlan.ExpectedConfigSHA256 p).

(** The first request of a job: everything the change relies on is checked before the
    ledger is staged. *)
Definition stage_new (rt : runtime) (policy : P) (p : PortPlan.t) (target : PortTarget.t) (a : Adapter.t)
    (k : PortLedger.t -> prog op port_response) : prog op port_response :=
  attempt c := TakeCheckpoint rt a or "mutation_precondition_failed" in
  let expectedOld := systemdPortSidecarBytes (Adapter.ServiceType a) (PortTarget.Host target)
                       (PortPlan.OldPort p) (PortPlan.ExpectedConfigRevision p) in
  if is_err (Checkpoint.validate c) || (Checkpoint.SHA256 c !=? PortPlan.ExpectedConfigSHA256 p) ||
     (Checkpoint.Existed c && (Checkpoint.Bytes c !=? expectedOld)) ||
     (negb (Checkpoint.Existed c) && (Checkpoint.SHA256 c !=? systemdPortSidecarSHA256 ""))
  then failure "mutation_precondition_failed"
  else
    attempt currentVersion := Verify rt policy target or "mutation_precondition_failed" in
    if negb (re_match versionPattern currentVersion) then failure "mutation_precondition_failed"
    else
      attempt _ := EnsurePortAvailable rt (PortTarget.Host target) (PortPlan.NewPort p) or "mutation_precondition_failed" in
      let targetBytes := systemdPortSidecarBytes (Adapter.ServiceType a) (PortTarget.Host target)
                           (PortPlan.NewPort p) (PortPlan.TargetConfigRevision p) in
      if systemdPortSidecarSHA256 targetBytes !=? PortPlan.TargetConfigSHA256 p then failure "config_mismatch"
      else
        let staged := PortLedger.mk systemdPortPlanSchemaVersion p LedgerStaged c targetBytes currentVersion None in
        attempt _ := Stage staged or "state_unavailable" in
        k staged.

(** The change itself, once the grant is consumed. *)
Definition apply_change (rt : runtime) (policy : P) (p : PortPlan.t) (target : PortTarget.t) (a : Adapter.t)
    (l : PortLedger.t) : prog op port_response :=
  let newTarget := systemdPortTargetAfter target p in
  let* written := Write rt a (PortLedger.checkpoint l) (PortLedger.TargetBytes l) in
  if is_err written then rollbackSystemdPortRequest rt policy p target a l
  else
    let l := l <| PortLedger.State := LedgerSidecarWritten |> in
    attempt _ := Save l or "reconcile_required" in
    let* restarted := Restart rt newTarget in
    if is_err restarted then rollbackSystemdPortRequest rt policy p target a l
    else
      let l := l <| PortLedger.State := LedgerRestarted |> in
      attempt _ := Save l or "reconcile_required" in
      let* verified := Verify rt policy newTarget in
      if is_err verified then rollbackSystemdPortRequest rt policy p target a l
      else commitSystemdPortResult p l ResultApplied.

Definition start_change (rt : runtime) (policy : P) (request : PortRequest.t) (p : PortPlan.t) (target : PortTarget.t)
    (a : Adapter.t) (l : PortLedger.t) : prog op port_response :=
  if PortLedger.State l !=? LedgerStaged then failure "reconcile_required"
  else
    attempt current := TakeCheckpoint rt a or "reconcile_required" in
    if negb (Checkpoint.same current (PortLedger.checkpoint l)) then failure "reconcile_required"
    else
      attempt _ := EnsurePortAvailable rt (PortTarget.Host target) (PortPlan.NewPort p) or "mutation_precondition_failed" in
      consume_gate rt p (PortRequest.Operation request) (PortRequest.MutationGrant request) (l <| PortLedger.Plan := p |>)
        (apply_change rt policy p target a).

(** What a job that is known already answers without doing anything. *)
Definition settled (historical : option PortLedger.t) (p : PortPlan.t) : option port_response :=
  match historical with
  | None => None
  | Some h =>
      if is_err (PortLedger.validate h (PortPlan.TargetID p)) then Some (Err "state_invalid")
      else if negb (PortPlan.sameIntent (PortLedger.Plan h) p) then Some (Err "plan_conflict")
      else if PortLedger.State h ==? LedgerTerminal then
        Some match PortLedger.Result h with Some r => localExecutorPortResponse p r | None => Err "internal_error" end
      else None
  end.

Definition continue_job (rt : runtime) (policy : P) (request : PortRequest.t) (p : PortPlan.t)
    (policyTarget : PortTarget.t) (a : Adapter.t) (ledger : option PortLedger.t) : prog op port_response :=
  attempt target := resolveSystemdPortAppliedTarget policy policyTarget or "config_mismatch" in
  if negb (systemdPortTargetMatchesExpected target p) then failure "config_mismatch"
  else if PortRequest.Operation request ==? "port_reconfigure_reconcile" then
    match ledger with
    | None => reconcileUnstartedSystemdPortRequest rt policy request p target a
    | Some l => reconcileSystemdPortRequest rt policy request p target a l
    end
  else if PortRequest.Operation request !=? "port_reconfigure" then failure "invalid_request"
  else
    match ledger with
    | None => stage_new rt policy p target a (start_change rt policy request p target a)
    | Some l => start_change rt policy request p target a l
    end.

Definition executeSystemdPortRequest (rt : runtime) (policy : P) (request : PortRequest.t) : prog op port_response :=
  match PortRequest.Plan request with
  | None => failure "internal_error"
  | Some p =>
      match validateSystemdPortPolicyBinding policy request p with
      | Err _ => failure "config_mismatch"
      | Ok (policyTarget, a) =>
          attempt historical := LoadJob (PortPlan.TargetID p) (PortPlan.JobID p) or "state_invalid" in
          match settled historical p with
          | Some answer => Ret answer
          | None =>
              attempt active := LoadActive (PortPlan.TargetID p) or "state_invalid" in
              if busy_with_other active (PortPlan.JobID p) then failure "target_busy"
              else
                let ledger := match historical, active with
                              | None, Some l => if ledger_job l ==? PortPlan.JobID p then Some l else None
                              | _, _ => historical
                              end in
                match ledger with
                | Some l =>
                    if PortLedger.State l ==? LedgerCommitting then
                      if PortRequest.Operation request !=? "port_reconfigure_reconcile" then failure "reconcile_required"
                      else repairSystemdPortCommit rt policy request p policyTarget a l
                    else continue_job rt policy request p policyTarget a ledger
                | None => continue_job rt policy request p policyTarget a ledger
                end
          end
      end
  end.

(** [newPlatformSystemdPortExecution]: the runtime of a target. *)
Definition new_runtime (policy : P) (t : PortTarget.t) (url : string) (a : Adapter.t) (v2 : option V2Binding.t) : runtime :=
  Runtime a (HostID policy) (PortTarget.ServiceID t) (PortTarget.ServiceType t) (PortTarget.Host t) url v2.

Definition newPlatformSystemdPortExecution (policy : P) (t : PortTarget.t) (v2 : option V2Binding.t) : io runtime :=
  match PanelURL policy, PortTarget.Unit t with
  | Some url, Some svc =>
      let? _ := require (is_ok (Policy_Validate policy) && (SchemaVersion policy =? LocalExecutorMutationPolicySchemaVersion)%Z &&
                         (ProtocolVersion policy =? LocalExecutorMutationProtocolVersion)%Z && target_valid t &&
                         (PortTarget.DeploymentMode t ==? ModeSystemd)) in
      let? a := lift (systemdPortAdapterFor (PortTarget.ServiceType t) svc) in
      let? _ := call OpenExecution in
      let? _ := call EnsureDirectory in
      Ret (Ok (new_runtime policy t url a v2))
  | _, _ => Ret (Err "systemd port policy is invalid")
  end.

Definition handleLocalExecutorSystemdPortMutation (policy : P) (request : PortRequest.t) : prog op port_response :=
  match PortRequest.Plan request with
  | None => failure "target_unavailable"
  | Some _ =>
      match policy_target policy (PortRequest.ServiceID request) with
      | None => failure "target_not_found"
      | Some t =>
          if (PortTarget.DeploymentMode t !=? ModeSystemd) || bool_decide (PortTarget.Unit t = None)
          then failure "config_mismatch"
          else
            attempt _ := call SecureTarget or "target_unavailable" in
            attempt _ := call (AcquireLock (PortTarget.ServiceID t)) or "target_busy" in
            attempt rt := newPlatformSystemdPortExecution policy t (PortRequest.MutationGrantV2Binding request) or "state_unavailable" in
            executeSystemdPortRequest rt policy request
      end
  end.
End Engine.
