(* ===== verification/PortAdmission.v ===== *)
(** What a port request has to pass before its handler runs ([handleLocalExecutorMutation]
    in [local_executor_mutation.go], the part for port requests): the policy, the target,
    and the binding of a v2 grant, which is compared with the plan field by field.

    Plans of the second port contract are not modelled, as in PortPlan. *)
From Stdlib Require Import Ascii String ZArith Lia.
From stdpp Require Import base decidable list strings gmap.
From S2P Require Import Prelude Strings Regexp Patterns Effects Sha256 Json PlanDigest SelfUpdateGrant Grants PortPlan PortEngine.

Open Scope string_scope.

(** ** The binding of a v2 grant *)

Definition v2DockerDesiredMatchesPlan (desired : option DesiredPort.docker) (d : option DockerBinding.t) : bool :=
  match d, desired with
  | Some d, Some x =>
      (DesiredPort.PublishedHostIP x ==? DockerBinding.PublishedHostIP d) &&
      (DesiredPort.OldPublishedPort x ==? DockerBinding.OldPublishedPort d)%Z &&
      (DesiredPort.NewPublishedPort x ==? DockerBinding.NewPublishedPort d)%Z &&
      (DesiredPort.OldContainerPort x ==? DockerBinding.OldContainerPort d)%Z &&
      (DesiredPort.NewContainerPort x ==? DockerBinding.NewContainerPort d)%Z &&
      (DesiredPort.OldHealthPort x ==? DockerBinding.OldHealthPort d)%Z &&
      (DesiredPort.NewHealthPort x ==? DockerBinding.NewHealthPort d)%Z &&
      (DesiredPort.ApprovedComposeConfigSHA256 x ==? DockerBinding.ApprovedComposeConfigSHA256 d) &&
      (DesiredPort.ApprovedComposeRevision x ==? DockerBinding.ApprovedComposeRevision d)%Z &&
      (DesiredPort.ExpectedVersionEnvSHA256 x ==? DockerBinding.ExpectedVersionEnvSHA256 d) &&
      (DesiredPort.ExpectedContainerID x ==? DockerBinding.ExpectedContainerID d) &&
      (DesiredPort.ExpectedImageID x ==? DockerBinding.ExpectedImageID d) &&
      (DesiredPort.ExpectedRepositoryDigest x ==? DockerBinding.ExpectedRepositoryDigest d)
  | None, None => true
  | _, _ => false
  end.

Definition v2PortDesiredMatchesPlan (desired : option DesiredPort.t) (p : PortPlan.t) : bool :=
  match desired with
  | None => false
  | Some x =>
      if (DesiredPort.Result x !=? "") ||
         (DesiredPort.NetworkNamespace x !=? PortPlan.NetworkNamespace p) ||
         (DesiredPort.Protocol x !=? PortPlan.Protocol p) ||
         (DesiredPort.OldPort x !=? PortPlan.OldPort p)%Z ||
         (DesiredPort.NewPort x !=? PortPlan.NewPort p)%Z ||
         (DesiredPort.ExpectedEndpointRevision x !=? PortPlan.ExpectedEndpointRevision p)%Z ||
         (DesiredPort.TargetEndpointRevision x !=? PortPlan.TargetEndpointRevision p)%Z ||
         (DesiredPort.ExpectedConfigRevision x !=? PortPlan.ExpectedConfigRevision p)%Z ||
         (DesiredPort.TargetConfigRevision x !=? PortPlan.TargetConfigRevision p)%Z ||
         (DesiredPort.ExpectedConfigSHA256 x !=? PortPlan.ExpectedConfigSHA256 p) ||
         (DesiredPort.TargetConfigSHA256 x !=? PortPlan.TargetConfigSHA256 p) ||
         (DesiredPort.ExpectedSourcePolicyRevision x !=? PortPlan.ExpectedSourcePolicyRevision p)%Z ||
         (DesiredPort.ExpectedUpdaterPolicyRevision x !=? PortPlan.ExpectedUpdaterPolicyRevision p)%Z ||
         (DesiredPort.ExpectedExecutorPolicyRevision x !=? PortPlan.ExpectedExecutorPolicyRevision p)%Z ||
         (DesiredPort.ExpectedExecutorPolicySHA256 x !=? PortPlan.ExpectedExecutorPolicySHA256 p)
      then false
      else v2DockerDesiredMatchesPlan (DesiredPort.Docker x) (PortPlan.Docker p)
  end.

Section Admission.
Context `{TimeZones} `{ListenerCodec} {P : Type} `{ExecutorPolicy P} `{PolicyTargets P} `{GrantContracts}.
(** [contracts.SystemUpdatePortPlanIsNoOp]. *)
Variable PlanIsNoOp : PortPlan.t -> bool.

(** The authorization of the grant is not one for this plan and fence. *)
Definition v2_authorization_differs (b : V2Binding.t) (p : PortPlan.t) (fence : Fence.t) : bool :=
  let command := V2Binding.Command b in
  let authorization := GrantCommand.MutationAuthorization command in
  let target := GrantAuthorization.Target authorization in
  let desired := GrantCommand.Desired command in
  (DesiredOperation.Operation desired !=? UpdaterDesiredPortReconfigure) ||
  negb (v2PortDesiredMatchesPlan (DesiredOperation.PortReconfigure desired) p) ||
  (GrantAuthorization.JobID authorization !=? PortPlan.JobID p) ||
  (GrantAuthorization.HostID authorization !=? PortPlan.HostID p) ||
  (GrantAuthorization.DesiredRevision authorization !=? PortPlan.ExpectedUpdaterPolicyRevision p)%Z ||
  (GrantAuthorization.DesiredRevision authorization !=? Fence.OwnershipPolicyRevision fence)%Z ||
  (GrantAuthorization.Fence authorization !=? PortPlan.OwnershipEpoch p)%Z ||
  (GrantAuthorization.Fence authorization !=? Fence.OwnershipEpoch fence)%Z ||
  (V2Binding.LeaseGeneration b !=? int64_of_u64 (PortPlan.LeaseGeneration p))%Z ||
  (GrantTarget.TargetKind target !=? UpdaterTargetApplication) ||
  (GrantTarget.ServiceID target !=? PortPlan.TargetID p) ||
  (GrantTarget.ServiceType target !=? PortPlan.ServiceType p) ||
  (GrantTarget.DeploymentMode target !=? PortPlan.effectiveDeploymentMode p) ||
  (GrantTarget.ExpectedConfigRevision target !=? PortPlan.ExpectedConfigRevision p)%Z.

(** The root policy or its target is not the one that the grant and the plan name. *)
Definition v2_policy_differs (b : V2Binding.t) (p : PortPlan.t) (fence : Fence.t) (policy : P) (t : PortTarget.t) : bool :=
  let authorization := GrantCommand.MutationAuthorization (V2Binding.Command b) in
  let target := GrantAuthorization.Target authorization in
  is_err (Policy_Validate policy) || (HostID policy !=? GrantAuthorization.HostID authorization) ||
  (SelfUpdateGrant.SourcePolicyRevision policy !=? Fence.SourcePolicyRevision fence)%Z ||
  (SelfUpdateGrant.SourcePolicyRevision policy !=? PortPlan.ExpectedSourcePolicyRevision p)%Z ||
  (ProjectionRevision policy !=? GrantAuthorization.DesiredRevision authorization)%Z ||
  (PolicyRevision policy !=? Fence.ExecutorPolicyRevision fence)%Z ||
  (PolicyRevision policy !=? PortPlan.ExpectedExecutorPolicyRevision p)%Z ||
  (PortTarget.ServiceID t !=? GrantTarget.ServiceID target) ||
  (PortTarget.ServiceType t !=? GrantTarget.ServiceType target) ||
  (PortTarget.DeploymentMode t !=? GrantTarget.DeploymentMode target) ||
  (PortTarget.ConfigRevision t !=? GrantTarget.ExpectedConfigRevision target)%Z ||
  (PortTarget.ConfigSHA256 t !=? PortPlan.ExpectedConfigSHA256 p).

(** [root]: the root policy and its target; the client has neither. *)
Definition validateV2PortMutationGrantBinding (now : GoTime.t) (b : V2Binding.t) (operation : string) (p : PortPlan.t)
    (fence : Fence.t) (root : option (P * PortTarget.t)) : check :=
  if is_err (ValidateUpdaterMutationGrantBinding now b) || is_err (PortPlan.Validate p) ||
     (V2Binding.Operation b !=? operation) || (V2Binding.SessionID b !=? PortPlan.SessionID p) ||
     negb (port_operation operation)
  then Err "v2 port mutation grant is invalid"
  else if v2_authorization_differs b p fence then Err "v2 port mutation grant does not match the plan"
  else
    match root with
    | None => Ok tt
    | Some (policy, t) =>
        if v2_policy_differs b p fence policy t then Err "v2 port mutation grant does not match root policy"
        else if negb (bool_decide (Policy_SHA256 policy = Ok (PortPlan.ExpectedExecutorPolicySHA256 p)))
        then Err "v2 port mutation plan does not match root policy digest"
        else Ok tt
    end.

(** ** Requests *)

Definition request_fence (r : PortRequest.t) : Fence.t :=
  Fence.mk (PortRequest.SourcePolicyRevision r) (PortRequest.OwnershipEpoch r) (PortRequest.OwnershipPolicyRevision r)
    (PortRequest.ExecutorPolicyRevision r).

(** The grant of the request may be presented for its plan. *)
Definition grant_admitted (now : GoTime.t) (policy : P) (request : PortRequest.t) (t : PortTarget.t) : bool :=
  match PortRequest.MutationGrantV2Binding request, PortRequest.Plan request with
  | None, _ => true
  | Some b, Some p =>
      is_ok (validateV2PortMutationGrantBinding now b (PortRequest.Operation request) p (request_fence request) (Some (policy, t)))
  | Some _, None => false
  end.

(** [handleLocalExecutorMutation] on a port request, with the policy that it runs under
    and the time that it reads; [docker]: the handler of a Docker target. *)
Definition handleLocalExecutorMutation (now : GoTime.t) (policy : P) (docker : prog op port_response)
    (request : PortRequest.t) : prog op port_response :=
  if is_err (PortRequest.Validate PlanIsNoOp request) then failure "invalid_request"
  else
    or_fail (call LifecycleLock) "target_busy" (fun _ =>
    or_fail (call NoRecoveryIntent) "target_busy" (fun _ =>
    or_fail (call CurrentPolicy) "policy_invalid" (fun _ =>
    or_fail (call HostLane) "target_busy" (fun _ =>
    if is_err (Policy_Validate policy) then failure "policy_invalid"
    else
      match policy_target policy (PortRequest.ServiceID request) with
      | None => failure "target_not_found"
      | Some t =>
          if negb (grant_admitted now policy request t) then failure "config_mismatch"
          else if PortTarget.DeploymentMode t ==? ModeSystemd
          then handleLocalExecutorSystemdPortMutation PlanIsNoOp policy request
          else if PortTarget.DeploymentMode t ==? ModeDocker then docker
          else failure "config_mismatch"
      end)))).

(** ** What an admitted binding says *)

Definition desired_docker (d : DockerBinding.t) : DesiredPort.docker :=
  DesiredPort.mk_docker (DockerBinding.PublishedHostIP d) (DockerBinding.OldPublishedPort d) (DockerBinding.NewPublishedPort d)
    (DockerBinding.OldContainerPort d) (DockerBinding.NewContainerPort d) (DockerBinding.OldHealthPort d)
    (DockerBinding.NewHealthPort d) (DockerBinding.ApprovedComposeConfigSHA256 d) (DockerBinding.ApprovedComposeRevision d)
    (DockerBinding.ExpectedVersionEnvSHA256 d) (DockerBinding.ExpectedContainerID d) (DockerBinding.ExpectedImageID d)
    (DockerBinding.ExpectedRepositoryDigest d).

(** The change that the plan makes, as the Panel signs it. *)
Definition desired_port (p : PortPlan.t) : DesiredPort.t :=
  DesiredPort.mk "" (PortPlan.NetworkNamespace p) (PortPlan.Protocol p) (PortPlan.OldPort p) (PortPlan.NewPort p)
    (PortPlan.ExpectedEndpointRevision p) (PortPlan.TargetEndpointRevision p) (PortPlan.ExpectedConfigRevision p)
    (PortPlan.TargetConfigRevision p) (PortPlan.ExpectedConfigSHA256 p) (PortPlan.TargetConfigSHA256 p)
    (PortPlan.ExpectedSourcePolicyRevision p) (PortPlan.ExpectedUpdaterPolicyRevision p)
    (PortPlan.ExpectedExecutorPolicyRevision p) (PortPlan.ExpectedExecutorPolicySHA256 p)
    (option_map desired_docker (PortPlan.Docker p)).

(** The binding authorizes this operation with this plan and no other: the operation, the
    session, the lease, the job, the host, the epoch, the target and every value of the
    change are the plan's. *)
Record binding_for (b : V2Binding.t) (operation : string) (p : PortPlan.t) : Prop := {
  bf_operation : V2Binding.Operation b = operation;
  bf_session : V2Binding.SessionID b = PortPlan.SessionID p;
  bf_lease : V2Binding.LeaseGeneration b = int64_of_u64 (PortPlan.LeaseGeneration p);
  bf_desired : DesiredOperation.Operation (GrantCommand.Desired (V2Binding.Command b)) = UpdaterDesiredPortReconfigure;
  bf_change : DesiredOperation.PortReconfigure (GrantCommand.Desired (V2Binding.Command b)) = Some (desired_port p);
  bf_authorization : exists updater,
    GrantCommand.MutationAuthorization (V2Binding.Command b) =
      GrantAuthorization.mk (PortPlan.JobID p) updater (PortPlan.HostID p) (PortPlan.ExpectedUpdaterPolicyRevision p)
        (PortPlan.OwnershipEpoch p)
        (GrantTarget.mk UpdaterTargetApplication (PortPlan.TargetID p) (PortPlan.ServiceType p)
           (PortPlan.effectiveDeploymentMode p) (PortPlan.ExpectedConfigRevision p));
}.

Lemma docker_matches x d : v2DockerDesiredMatchesPlan x d = true -> x = option_map desired_docker d.
Proof.
  destruct d as [d|], x as [x|]; cbn; try done. intros Hm. bool_to_prop. destruct x. cbn in *. by subst.
Qed.

Lemma desired_matches x p : v2PortDesiredMatchesPlan x p = true -> x = Some (desired_port p).
Proof.
  destruct x as [x|]; [|done]. unfold v2PortDesiredMatchesPlan. destruct (_ || _) eqn:E; [done|]. intros Hd%docker_matches.
  bool_to_prop. destruct x. cbn in *. subst. done.
Qed.

Lemma v2_binding_matches now b operation p fence root :
  validateV2PortMutationGrantBinding now b operation p fence root = Ok tt -> binding_for b operation p.
Proof.
  unfold validateV2PortMutationGrantBinding. destruct (_ || _) eqn:E1; [done|].
  destruct (v2_authorization_differs b p fence) eqn:E2; [done|]. intros _. unfold v2_authorization_differs in E2. cbn zeta in E2.
  bool_to_prop. split; try done; [by apply desired_matches|].
  destruct (GrantCommand.MutationAuthorization _) as [job updater host revision f [kind id type mode config]]. cbn in *. subst.
  by exists updater.
Qed.

Lemma admitted_binding now policy request t b p :
  grant_admitted now policy request t = true -> PortRequest.MutationGrantV2Binding request = Some b ->
  PortRequest.Plan request = Some p -> binding_for b (PortRequest.Operation request) p.
Proof.
  unfold grant_admitted. intros Ha Eb Ep. rewrite Eb, Ep in Ha. apply is_ok_unit in Ha. by eapply v2_binding_matches.
Qed.
End Admission.
