(* ===== verification/PortSafety.v ===== *)
(** Safety of the port change: what the ledger records, in which order, and what a
    reported result says about the sidecar file. *)
From Stdlib Require Import Ascii String ZArith Lia.
From stdpp Require Import base decidable list strings gmap relations.
From S2P Require Import Prelude Strings Regexp Patterns Effects Sha256 Json Paths PlanDigest MutationLedger SelfUpdateGrant Grants PortPlan PortEngine PortAdmission.

Open Scope string_scope.
#[local] Opaque remoteStableKey systemdPortSidecarSHA256 systemdPortSidecarBytes PortPlan.Validate PortLedger.validate
  PortResult.Validate.

(** ** The abstract machine of a job *)

(** The states in which the sidecar file and the service may be touched. *)
Definition mutating : list string := [LedgerGrantConsumed; LedgerSidecarWritten; LedgerRestarted].

Definition moves : list (string * string) :=
  [(LedgerGrantConsuming, LedgerGrantConsumed); (LedgerGrantConsuming, LedgerAmbiguous);
   (LedgerGrantConsumed, LedgerSidecarWritten); (LedgerSidecarWritten, LedgerRestarted)].

Definition commits : list (string * string) :=
  [(LedgerGrantConsumed, ResultApplied); (LedgerGrantConsumed, ResultUnchanged); (LedgerGrantConsumed, ResultRolledBack);
   (LedgerSidecarWritten, ResultRolledBack); (LedgerRestarted, ResultApplied); (LedgerRestarted, ResultRolledBack)].

(** A job keeps its intent, its checkpoint and its target bytes; only the lease of the
    plan is renewed, with a new grant.  A result is first recorded and then final. *)
Inductive ledger_step : PortLedger.t -> PortLedger.t -> Prop :=
| step_consume l p :
    PortLedger.State l ∈ PortLedger.unfinished -> PortPlan.sameIntent (PortLedger.Plan l) p = true ->
    ledger_step l (advance l p LedgerGrantConsuming None)
| step_move l s : (PortLedger.State l, s) ∈ moves -> ledger_step l (l <| PortLedger.State := s |>)
| step_commit l kind r :
    (PortLedger.State l, kind) ∈ commits -> result_of kind (PortLedger.Plan l) = Some r ->
    ledger_step l (advance l (PortLedger.Plan l) LedgerCommitting (Some r))
| step_quarantine l :
    PortLedger.State l ∈ mutating ->
    ledger_step l (advance l (PortLedger.Plan l) LedgerTerminal (Some (rollback_failed_result (PortLedger.Plan l))))
| step_finish l p r :
    PortLedger.State l = LedgerCommitting -> PortLedger.Result l = Some r ->
    PortPlan.sameIntent (PortLedger.Plan l) p = true ->
    ledger_step l (advance l p LedgerTerminal (Some r)).

Inductive job_step : option PortLedger.t -> option PortLedger.t -> Prop :=
| job_new l : PortLedger.State l = LedgerStaged -> PortLedger.Result l = None -> job_step None (Some l)
| job_next l l' : ledger_step l l' -> job_step (Some l) (Some l').

Lemma sameIntent_spec p q :
  PortPlan.sameIntent p q = true <->
  exists g h, q = p <| PortPlan.LeaseGeneration := g |> <| PortPlan.PortPlanSHA256 := h |>.
Proof.
  unfold PortPlan.sameIntent. rewrite bool_decide_eq_true. split.
  - intros E. exists (PortPlan.LeaseGeneration q), (PortPlan.PortPlanSHA256 q). destruct p, q. cbn in *. unfold set_field in *. cbn in *. by inversion E.
  - intros (g & h & ->). done.
Qed.

Lemma sameIntent_refl p : PortPlan.sameIntent p p = true.
Proof. unfold PortPlan.sameIntent. by rewrite bool_decide_eq_true. Qed.

Lemma sameIntent_trans p q r : PortPlan.sameIntent p q = true -> PortPlan.sameIntent q r = true -> PortPlan.sameIntent p r = true.
Proof. unfold PortPlan.sameIntent. rewrite !bool_decide_eq_true. congruence. Qed.

Lemma sameIntent_keys p q :
  PortPlan.sameIntent p q = true -> PortPlan.TargetID p = PortPlan.TargetID q /\ PortPlan.JobID p = PortPlan.JobID q.
Proof. intros (g & h & ->)%sameIntent_spec. done. Qed.

(** Membership in one of the fixed lists above. *)
Ltac in_cases H :=
  unfold mutating, moves, commits, PortLedger.unfinished in H; rewrite ?elem_of_cons in H;
  repeat match type of H with
  | _ \/ _ => destruct H as [H|H]
  | _ ∈ [] => by apply not_elem_of_nil in H
  end; try discriminate H.

(** A job that is finished stays as it is. *)
Lemma terminal_final l l' : PortLedger.State l = LedgerTerminal -> ~ ledger_step l l'.
Proof.
  intros E Hs. inversion Hs as [? ? Hu|? ? Hm|? ? ? Hm|? Hm|? ? ? Hm]; subst; rewrite E in *;
    [in_cases Hu|in_cases Hm|in_cases Hm|in_cases Hm|discriminate Hm].
Qed.

(** ** What the log must say *)

(** [bound]: what is known of the binding of a v2 grant that is presented for an operation
    with a plan. *)
Section Log.
Context (bound : V2Binding.t -> string -> PortPlan.t -> Prop).

(** What is presented is for this plan. *)
Definition presents (b : presented) (operation : string) (p : PortPlan.t) (version : string) : Prop :=
  match b with
  | PresentedV1 b => b = grant_binding p operation version
  | PresentedV2 b => bound b operation p
  end.

(** The Panel accepted the grant for this very plan. *)
Definition granted (earlier : list event) (l : PortLedger.t) : Prop := exists b js operation,
  EGranted (ledger_job l) b js ∈ earlier /\ presents b operation (PortLedger.Plan l) (PortLedger.CurrentVersion l).

(** A job of this record owns the step: it is durable, in a state that allows it, and
    its grant was accepted before. *)
Definition licensed (earlier : list event) (js : gmap string PortLedger.t) (l : PortLedger.t) (a : Adapter.t) : Prop :=
  js !! ledger_key l = Some l /\ PortLedger.State l ∈ mutating /\ granted earlier l /\
  adapter_of (PortPlan.ServiceType (PortLedger.Plan l)) = Some a.

Definition sidecar_of (c : Checkpoint.t) : option (Z * string) :=
  if Checkpoint.Existed c then Some (Checkpoint.Mode c, Checkpoint.Bytes c) else None.

Definition body_of (c : Checkpoint.t) : option string :=
  if Checkpoint.Existed c then Some (Checkpoint.Bytes c) else None.

(** [earlier]: the events before this one. *)
Definition event_ok (earlier : list event) (e : event) : Prop :=
  match e with
  | EVerified _ => True
  | EGranted jobID b js => exists l p operation,
      js !! ledger_key l = Some l /\ (PortLedger.State l = LedgerGrantConsuming \/ PortLedger.State l = LedgerCommitting) /\
      PortPlan.sameIntent (PortLedger.Plan l) p = true /\ jobID = PortPlan.JobID p /\
      presents b operation p (PortLedger.CurrentVersion l)
  | ESidecar path before body js => exists l a,
      licensed earlier js l a /\ path = Adapter.SidecarPath a /\
      (before = sidecar_of (PortLedger.checkpoint l) /\ body = Some (PortLedger.TargetBytes l) \/
       before = Some (384%Z, PortLedger.TargetBytes l) /\ body = body_of (PortLedger.checkpoint l))
  | ERestart svc js => exists l a, licensed earlier js l a /\ svc = Adapter.Unit a
  end.

Inductive log_ok : list event -> Prop :=
| log_nil : log_ok []
| log_cons e earlier : event_ok earlier e -> log_ok earlier -> log_ok (e :: earlier).

(** Every job in a state that allows the change has its grant. *)
Definition grants (w : world) : Prop := forall key l,
  jobs w !! key = Some l -> PortLedger.State l ∈ mutating -> granted (log w) l.

Lemma granted_later e earlier l : granted earlier l -> granted (e :: earlier) l.
Proof. intros (b & js & o & Hin & Hb). exists b, js, o. split; [by right|done]. Qed.
End Log.

(** ** Rules for the operations *)

Section Rules.
Context `{TimeZones} (I : world -> Prop).

Lemma wp_port_require w b Q :
  I w -> (b = true -> Q (Ok tt) w) -> (forall e, Q (Err e) w) -> wp I (require b) Q w.
Proof. intros Hi Ht Hf. apply wp_ret; [done|]. destruct b; auto. Qed.

Lemma wp_lift {A} w (r : result string A) Q :
  I w -> (forall a, r = Ok a -> Q (Ok a) w) -> (forall e, Q (Err e) w) -> wp I (lift r) Q w.
Proof. intros Hi Ht Hf. apply wp_ret; [done|]. destruct r; auto. Qed.

Lemma wp_port_observe {A} (o : op (result string A)) r w Q :
  (forall ans, handle o ans w = observe r ans w) -> I w -> Q (Ok r) w -> (forall e, Q (Err e) w) -> wp I (call o) Q w.
Proof.
  intros E Hi Hq He. apply wp_call; [done|]. intros ans x v Eh. rewrite E in Eh.
  destruct ans; try discriminate Eh; injection Eh as <- <-; auto.
Qed.

Lemma wp_port_effect (o : op (result string unit)) after w Q :
  (forall ans, handle o ans w = effect ans after w) -> I w -> I after ->
  (forall e, Q (Err e) w) -> (forall r, Q r after) -> wp I (call o) Q w.
Proof.
  intros E Hi Ha Hw Hq. apply wp_call; [done|]. intros ans x v Eh. rewrite E in Eh.
  destruct ans; try discriminate Eh; injection Eh as <- <-; auto.
Qed.

Lemma wp_port_or_fail {A} (p : prog op (result string A)) code f Q w :
  wp I p (fun r v => match r with Ok a => wp I (f a) Q v | Err _ => Q (Err code) v end) w ->
  wp I (or_fail p code f) Q w.
Proof.
  intros Hp. apply wp_bind. eapply wp_mono; [|exact Hp]. intros [a|e] v Hi Hv; [done|]. by apply wp_ret.
Qed.

(** A ledger as it lies on the disk. *)
Definition on_disk (w : world) (l : PortLedger.t) : Prop :=
  jobs w !! ledger_key l = Some l /\ PortLedger.validate l (ledger_target l) = Ok tt.

Lemma validate_target l t : PortLedger.validate l t = Ok tt -> ledger_target l = t.
Proof.
  Transparent PortLedger.validate. unfold PortLedger.validate. intros E. destruct (_ || _) eqn:Eb; [done|]. by bool_to_prop.
  Opaque PortLedger.validate.
Qed.

Lemma wp_load_job w t j Q :
  I w -> (forall e, Q (Err e) w) -> (jobs w !! jobKey t j = None -> Q (Ok None) w) ->
  (forall l, on_disk w l -> ledger_target l = t -> ledger_job l = j -> Q (Ok (Some l)) w) -> wp I (LoadJob t j) Q w.
Proof.
  intros Hi He Hn Hs. apply wp_bind_ok, wp_port_require; [done| |done]. intros _.
  apply wp_bind_ok, (wp_port_observe _ (jobs w !! jobKey t j)); [done|done| |done].
  destruct (jobs w !! jobKey t j) as [l|] eqn:E; [|by apply wp_ret; auto].
  apply wp_bind_ok, wp_port_require; [done| |done]. intros Hb. bool_to_prop. apply wp_ret; [done|].
  destruct (PortLedger.validate l t) as [[]|] eqn:Ev; [|done]. pose proof (validate_target _ _ Ev) as Et.
  apply Hs; [|done|done]. split; [|by rewrite Et]. unfold ledger_key. rewrite Et. unfold ledger_job. by subst j.
Qed.

Lemma wp_load_active w t Q :
  I w -> (forall e, Q (Err e) w) -> (active w !! activeKey t = None -> Q (Ok None) w) ->
  (forall l, on_disk w l -> ledger_target l = t -> active w !! activeKey t = Some (t, ledger_job l) -> Q (Ok (Some l)) w) ->
  wp I (LoadActive t) Q w.
Proof.
  intros Hi He Hn Hs. apply wp_bind_ok, wp_port_require; [done| |done]. intros _.
  apply wp_bind_ok, (wp_port_observe _ (active w !! activeKey t)); [done|done| |done].
  destruct (active w !! activeKey t) as [[t' j]|] eqn:E; [|by apply wp_ret; auto].
  apply wp_bind_ok, wp_port_require; [done| |done]. intros Hb. bool_to_prop. subst t'.
  apply wp_bind_ok, wp_load_job; [done|done|by intros _; apply wp_ret|].
  intros l Hl Et Ej. apply wp_ret; [done|]. apply Hs; [done|done|]. by rewrite Ej.
Qed.

(** What the checkpoint of a file is. *)
Definition taken (found : option (Z * string)) : Checkpoint.t :=
  match found with Some (mode, body) => Checkpoint.new true mode body | None => Checkpoint.new false 0 "" end.

Lemma sidecar_of_taken f : sidecar_of (taken f) = f.
Proof. by destruct f as [[m b]|]. Qed.

Definition sidecar_digest (w : world) (path : string) : string :=
  systemdPortSidecarSHA256 match sidecars w !! path with Some (_, body) => body | None => "" end.

Lemma taken_sha w path : Checkpoint.SHA256 (taken (sidecars w !! path)) = sidecar_digest w path.
Proof. unfold sidecar_digest. by destruct (sidecars w !! path) as [[m b]|]. Qed.

Lemma wp_port_checkpoint w path Q :
  I w -> (forall e, Q (Err e) w) -> Q (Ok (taken (sidecars w !! path))) w -> wp I (checkpointSystemdPortSidecar path) Q w.
Proof.
  intros Hi He Hq. apply wp_bind_ok, (wp_port_observe _ (sidecars w !! path)); [done|done| |done].
  destruct (sidecars w !! path) as [[mode body]|]; [|by apply wp_ret].
  apply wp_bind_ok, wp_port_require; [done| |done]. intros _. by apply wp_ret.
Qed.

Lemma wp_take w rt a Q :
  I w -> (forall e, Q (Err e) w) ->
  (a = rt_adapter rt -> Q (Ok (taken (sidecars w !! Adapter.SidecarPath a))) w) -> wp I (TakeCheckpoint rt a) Q w.
Proof.
  intros Hi He Hq. apply wp_bind_ok, wp_port_require; [done| |done]. intros Ha. unfold matchesAdapter in Ha. bool_to_prop.
  apply wp_port_checkpoint; [done|done|auto].
Qed.

Lemma wp_available w rt host port Q :
  I w -> Q (Ok tt) w -> (forall e, Q (Err e) w) -> wp I (EnsurePortAvailable rt host port) Q w.
Proof.
  intros Hi Hq He. apply wp_bind_ok, wp_port_require; [done| |done]. intros _.
  assert (Hport : forall table R, (forall b, R (Ok b) w) -> (forall e, R (Err e) w) -> wp I (call (ListeningPort table port)) R w).
  { intros table R Hb Hr. apply wp_call; [done|]. intros ans x v E. destruct ans; try discriminate E; injection E as <- <-; auto. }
  apply wp_bind_ok, Hport; [|done]. intros b. apply wp_bind_ok, wp_port_require; [done| |done]. intros _.
  apply wp_bind_ok, Hport; [|done]. intros b'. by apply wp_port_require.
Qed.
End Rules.

(** ** The invariant of a run *)

Section Safety.
Context `{TimeZones} `{ListenerCodec} {P : Type} `{ExecutorPolicy P} `{PolicyTargets P}.
Variable PlanIsNoOp : PortPlan.t -> bool.
Context (bound : V2Binding.t -> string -> PortPlan.t -> Prop) (w0 : world).

#[local] Abbreviation granted := (granted bound).
#[local] Abbreviation licensed := (licensed bound).
#[local] Abbreviation event_ok := (event_ok bound).
#[local] Abbreviation log_ok := (log_ok bound).
#[local] Abbreviation grants := (grants bound).

Definition sound (w : world) : Prop :=
  (forall key, rtc job_step (jobs w0 !! key) (jobs w !! key)) /\
  (log_ok (log w0) /\ grants w0 -> log_ok (log w) /\ grants w).

(** The runtime presents a v2 binding only for what it is known to be bound to. *)
Definition fitting (rt : runtime) (operation : string) (p : PortPlan.t) : Prop :=
  forall b, rt_v2_binding rt = Some b -> bound b operation p.

Lemma sound_start : sound w0.
Proof. done. Qed.

Lemma sound_write w key l :
  sound w -> job_step (jobs w !! key) (Some l) -> (PortLedger.State l ∈ mutating -> grants w -> granted (log w) l) ->
  sound (w <| jobs := <[key := l]> (jobs w) |>).
Proof.
  intros [Ht Hg] Hs Hl. split; cbn.
  - intros k. destruct (decide (k = key)) as [->|Hk].
    + rewrite lookup_insert_eq. eapply rtc_r; [apply Ht|done].
    + by rewrite lookup_insert_ne.
  - intros Hw. destruct (Hg Hw) as [Ho Hj]. split; [done|]. intros k m Hm Hs'. cbn in Hm |- *.
    destruct (decide (k = key)) as [->|Hk].
    + rewrite lookup_insert_eq in Hm. injection Hm as <-. by apply Hl.
    + rewrite lookup_insert_ne in Hm by done. by apply (Hj k).
Qed.

Lemma sound_record w e : sound w -> (grants w -> event_ok (log w) e) -> sound (record e w).
Proof.
  intros [Ht Hg] He. split; [done|]. intros Hw. destruct (Hg Hw) as [Ho Hj]. split; cbn.
  - constructor; [by apply He|done].
  - intros k m Hm Hs. by apply granted_later, (Hj k).
Qed.

Lemma wp_verify w rt (policy : P) t Q :
  sound w -> (forall e, Q (Err e) w) -> (forall v, sound (record (EVerified t) w) -> Q (Ok v) (record (EVerified t) w)) ->
  wp sound (Verify rt policy t) Q w.
Proof.
  intros Hi He Hq. apply wp_bind_ok, wp_port_require; [done| |done]. intros _. apply wp_call; [done|].
  intros ans x v Eh. assert (Hs : sound (record (EVerified t) w)) by (by apply sound_record).
  cbn in Eh. repeat case_match; simplify_eq; auto.
Qed.

(** Saving the next step of a job. *)
Lemma wp_port_save w l Q :
  sound w -> job_step (jobs w !! ledger_key l) (Some l) ->
  (PortLedger.State l ∈ mutating -> grants w -> granted (log w) l) ->
  (forall e, Q (Err e) w) ->
  (forall r, let v := w <| jobs := <[ledger_key l := l]> (jobs w) |> in sound v -> on_disk v l -> Q r v) ->
  wp sound (Save l) Q w.
Proof.
  intros Hi Hs Hg He Hq. apply wp_bind_ok, wp_lift; [done| |done]. intros [] Ev.
  apply wp_bind_ok, (wp_port_observe _ _ tt); [done|done| |done].
  set (v := w <| jobs := <[ledger_key l := l]> (jobs w) |>).
  assert (Hv : sound v) by (by apply sound_write).
  apply (wp_port_effect _ _ v); [done|done|done|done|]. intros r. apply Hq; [done|]. split; [|done]. apply lookup_insert_eq.
Qed.

Lemma wp_save_applied w s Q :
  sound w -> (forall e, Q (Err e) w) -> (forall r k, Q r (w <| applied := <[k := s]> (applied w) |>)) ->
  wp sound (SaveApplied s) Q w.
Proof.
  intros Hi He Hq. apply wp_bind_ok, wp_port_require; [done| |done]. intros _.
  apply wp_bind_ok, (wp_port_observe _ _ tt); [done|done| |done].
  apply (wp_port_effect _ _ (w <| applied := <[appliedKey (Applied.TargetID s) := s]> (applied w) |>)); [done|done|done|done|].
  intros r. apply Hq.
Qed.

(** ** What a result says *)

(** Events after which an earlier verification still counts. *)
Definition harmless (e : event) : Prop := match e with ESidecar _ _ _ _ | ERestart _ _ => False | _ => True end.

(** The sidecar has the reported digest, and since the last change of the sidecar or the
    service a target with the reported port was verified. *)
Definition true_now (a : Adapter.t) (w : world) (r : PortResult.t) : Prop :=
  sidecar_digest w (Adapter.SidecarPath a) = PortResult.ConfigSHA256 r /\
  exists t after before, log w = (after ++ EVerified t :: before)%list /\ Forall harmless after /\
    PortTarget.Port t = PortResult.AppliedPort r /\ PortTarget.ConfigSHA256 t = PortResult.ConfigSHA256 r.

Definition final (p : PortPlan.t) (a : Adapter.t) (response : port_response) (w : world) : Prop :=
  match response with
  | Err _ => True
  | Ok (r, session, digest) =>
      session = PortPlan.SessionID p /\ digest = PortPlan.PortPlanSHA256 p /\
      (exists l, jobs w !! jobKey (PortPlan.TargetID p) (PortPlan.JobID p) = Some l /\
        PortPlan.sameIntent (PortLedger.Plan l) p = true /\ PortLedger.State l = LedgerTerminal /\ PortLedger.Result l = Some r) /\
      (PortResult.Result r = ResultRollbackFailed \/ true_now a w r)
  end.

Lemma final_response p a w l r :
  on_disk w l -> PortLedger.Plan l = p -> PortLedger.State l = LedgerTerminal -> PortLedger.Result l = Some r ->
  PortResult.Result r = ResultRollbackFailed \/ true_now a w r -> final p a (localExecutorPortResponse p r) w.
Proof.
  intros [Hl _] <- Es Er Hr. unfold localExecutorPortResponse. destruct (_ && _); [|done].
  split_and!; [done|done| |done]. exists l. split_and!; [done|apply sameIntent_refl|done|done].
Qed.

Lemma wp_commit w p a l kind :
  sound w -> on_disk w l -> PortLedger.Plan l = p -> (PortLedger.State l, kind) ∈ commits ->
  (forall r, result_of kind p = Some r -> true_now a w r) -> wp sound (commitSystemdPortResult p l kind) (final p a) w.
Proof.
  intros Hi [Hl Hv] Ep Hk Ht. unfold commitSystemdPortResult. destruct (result_of kind p) as [r|] eqn:Er; [|by apply wp_ret].
  specialize (Ht r eq_refl). set (l1 := advance l p LedgerCommitting (Some r)).
  assert (Ek : ledger_key l1 = ledger_key l) by (unfold ledger_key, ledger_target, ledger_job; cbn; by rewrite Ep).
  apply wp_port_or_fail, wp_port_save; [done| | |done|].
  - rewrite Ek, Hl. constructor. subst p. by eapply step_commit.
  - intros Hm. in_cases Hm.
  - intros [[]|e]; [|done]. intros v Hsv Hd. apply wp_port_or_fail, wp_save_applied; [done|done|].
    intros [[]|e] k; [|done]. set (u := v <| applied := _ |>). assert (Hu : sound u) by done.
    set (l2 := advance l p LedgerTerminal (Some r)). assert (Ek2 : ledger_key l2 = ledger_key l1) by done.
    apply wp_port_or_fail, wp_port_save; [done| | |done|].
    + rewrite Ek2. change (jobs u) with (jobs v). rewrite (proj1 Hd). constructor.
      change l2 with (advance l1 p LedgerTerminal (Some r)). by apply step_finish; [| |apply sameIntent_refl].
    + intros Hm. in_cases Hm.
    + intros [[]|e]; [|done]. intros u' Hu' Hd'. apply wp_ret; [done|]. eapply final_response; [done|done|done|done|]. by right.
Qed.

(** ** Changing the sidecar and restarting the service *)

(** The ledger that owns the change. *)
Definition owns (w : world) (l : PortLedger.t) (a : Adapter.t) : Prop :=
  on_disk w l /\ PortLedger.State l ∈ mutating /\ adapter_of (PortPlan.ServiceType (PortLedger.Plan l)) = Some a.

Lemma owns_licensed w l a : owns w l a -> grants w -> licensed (log w) (jobs w) l a.
Proof. intros ((Hl & _) & Hm & Ha) Hg. split_and!; [done|done|by apply (Hg (ledger_key l))|done]. Qed.

Lemma owns_jobs w v l a : jobs v = jobs w -> owns w l a -> owns v l a.
Proof. intros E ((Hl & Hv) & Hm & Ha). unfold owns, on_disk. by rewrite E. Qed.

Lemma same_sidecar f c : Checkpoint.same (taken f) c = true -> sidecar_of c = f.
Proof. unfold Checkpoint.same. intros <-%bool_decide_eq_true. apply sidecar_of_taken. Qed.

Lemma holds_sidecar f body : holds (taken f) body = true -> f = Some (384%Z, body).
Proof. unfold holds. intros Hb. bool_to_prop. destruct f as [[m b]|]; cbn in *; rewrite ?Z.eqb_eq in *; congruence. Qed.

Lemma wp_write w rt a l Q :
  sound w -> owns w l a ->
  (forall v e, sound v -> jobs v = jobs w -> Q (Err e) v) ->
  (forall v, sound v -> jobs v = jobs w -> sidecars v !! Adapter.SidecarPath a = Some (384%Z, PortLedger.TargetBytes l) ->
     Q (Ok tt) v) ->
  wp sound (Write rt a (PortLedger.checkpoint l) (PortLedger.TargetBytes l)) Q w.
Proof.
  intros Hi Ho He Hq. apply wp_bind_ok, wp_port_require; [done| |auto]. intros _.
  apply wp_bind_ok, wp_port_checkpoint; [done|auto|]. apply wp_bind_ok, wp_port_require; [done| |auto]. intros Hs%same_sidecar.
  set (path := Adapter.SidecarPath a) in *. set (body := PortLedger.TargetBytes l) in *.
  set (v := record (ESidecar path (sidecars w !! path) (Some body) (jobs w)) (w <| sidecars := <[path := (384%Z, body)]> (sidecars w) |>)).
  assert (Hv : sound v).
  { apply (sound_record (w <| sidecars := _ |>)); [done|]. intros Hg. exists l, a.
    split_and!; [by apply (owns_licensed w)|done|]. left. by rewrite Hs. }
  apply wp_bind_ok, (wp_port_effect _ _ v); [done|done|done|auto|]. intros [[]|e]; [|by apply He].
  apply wp_bind_ok, wp_port_checkpoint; [done|by intros; apply He|]. apply wp_port_require; [done| |by intros; apply He].
  intros Hh%holds_sidecar. by apply Hq.
Qed.

Lemma wp_restore w rt a l Q :
  sound w -> owns w l a ->
  (forall v e, sound v -> jobs v = jobs w -> Q (Err e) v) ->
  (forall v, sound v -> jobs v = jobs w -> sidecars v !! Adapter.SidecarPath a = sidecar_of (PortLedger.checkpoint l) ->
     Q (Ok tt) v) ->
  wp sound (Restore rt a (PortLedger.checkpoint l) (PortLedger.TargetBytes l)) Q w.
Proof.
  intros Hi Ho He Hq. apply wp_bind_ok, wp_port_require; [done| |auto]. intros _.
  apply wp_bind_ok, wp_port_checkpoint; [done|auto|]. apply wp_bind_ok, wp_port_require; [done| |auto]. intros Hs%holds_sidecar.
  set (path := Adapter.SidecarPath a) in *. set (c := PortLedger.checkpoint l) in *.
  assert (Hlast : forall v, sound v -> jobs v = jobs w ->
    wp sound (let? restored := checkpointSystemdPortSidecar path in require (Checkpoint.same restored c)) Q v).
  { intros v Hv Ej. apply wp_bind_ok, wp_port_checkpoint; [done|by intros; apply He|].
    apply wp_port_require; [done| |by intros; apply He]. intros Hc%same_sidecar. apply Hq; [done|done|]. done. }
  assert (Hev : forall body, body_of c = body -> grants w -> event_ok (log w) (ESidecar path (sidecars w !! path) body (jobs w))).
  { intros body Eb Hg. exists l, a. split_and!; [by apply (owns_licensed w)|done|]. right. by rewrite Hs. }
  unfold body_of in Hev. apply wp_bind_ok. destruct (Checkpoint.Existed c) eqn:Ex.
  - apply wp_bind_ok, wp_port_require; [done| |auto]. intros _.
    set (v := record (ESidecar path (sidecars w !! path) (Some (Checkpoint.Bytes c)) (jobs w)) (w <| sidecars := <[path := (384%Z, Checkpoint.Bytes c)]> (sidecars w) |>)).
    assert (Hv : sound v) by (apply (sound_record (w <| sidecars := _ |>)); [done|exact (Hev _ eq_refl)]).
    apply (wp_port_effect _ _ v); [done|done|done|auto|]. intros [[]|e]; [by apply Hlast|by apply He].
  - set (v := record (ESidecar path (sidecars w !! path) None (jobs w)) (w <| sidecars := delete path (sidecars w) |>)).
    assert (Hv : sound v) by (apply (sound_record (w <| sidecars := _ |>)); [done|exact (Hev _ eq_refl)]).
    apply wp_bind_ok, (wp_port_effect _ _ v); [done|done|done|auto|]. intros [[]|e]; [|by apply He].
    apply (wp_port_observe _ _ tt); [done|done|by apply Hlast|by intros; apply He].
Qed.

Lemma wp_restart w rt a t l Q :
  sound w -> owns w l a -> rt_adapter rt = a ->
  (forall v e, sound v -> jobs v = jobs w -> Q (Err e) v) ->
  (forall v, sound v -> jobs v = jobs w -> sidecars v = sidecars w -> Q (Ok tt) v) -> wp sound (Restart rt t) Q w.
Proof.
  intros Hi Ho Ea He Hq. apply wp_bind_ok, wp_port_require; [done| |auto]. intros _.
  set (v := record (ERestart (Adapter.Unit (rt_adapter rt)) (jobs w)) w).
  assert (Hv : sound v).
  { apply sound_record; [done|]. intros Hg. exists l, a. split; [by apply (owns_licensed w)|by rewrite Ea]. }
  apply wp_bind_ok, (wp_port_effect _ _ v); [done|done|done|auto|]. intros [[]|e]; [|by apply He].
  apply (wp_port_observe _ _ tt); [done|done|by apply Hq|by intros; apply He].
Qed.

Lemma valid_checkpoint l t :
  PortLedger.validate l t = Ok tt ->
  Checkpoint.validate (PortLedger.checkpoint l) = Ok tt /\
  PortPlan.ExpectedConfigSHA256 (PortLedger.Plan l) = Checkpoint.SHA256 (PortLedger.checkpoint l) /\
  systemdPortSidecarSHA256 (PortLedger.TargetBytes l) = PortPlan.TargetConfigSHA256 (PortLedger.Plan l).
Proof.
  Transparent PortLedger.validate. unfold PortLedger.validate. intros E. destruct (_ || _) eqn:Eb; [done|]. bool_to_prop.
  split_and!; [|done|done]. by destruct (Checkpoint.validate _) as [[]|].
  Opaque PortLedger.validate.
Qed.

Lemma checkpoint_digest l v path :
  PortLedger.validate l (ledger_target l) = Ok tt -> sidecars v !! path = sidecar_of (PortLedger.checkpoint l) ->
  sidecar_digest v path = PortPlan.ExpectedConfigSHA256 (PortLedger.Plan l).
Proof.
  intros (Hc & -> & _)%valid_checkpoint Es. unfold sidecar_digest, sidecar_of in *. rewrite Es.
  unfold Checkpoint.validate in Hc. destruct (PortLedger.checkpoint l) as [[] m b h]; cbn in *.
  - destruct (_ !=? _) eqn:Eh; [done|]. by bool_to_prop.
  - destruct (_ !=? _) eqn:Eh; [done|]. destruct (_ || _) eqn:Eb; [done|]. bool_to_prop.
    assert (b = "") as -> by (destruct b; [done|]; unfold len in *; cbn in *; lia). done.
Qed.

Lemma port_target_digest l v path m :
  PortLedger.validate l (ledger_target l) = Ok tt -> sidecars v !! path = Some (m, PortLedger.TargetBytes l) ->
  sidecar_digest v path = PortPlan.TargetConfigSHA256 (PortLedger.Plan l).
Proof. intros (_ & _ & <-)%valid_checkpoint Es. unfold sidecar_digest. by rewrite Es. Qed.

Lemma matches_expected t p :
  systemdPortTargetMatchesExpected t p = true ->
  PortTarget.Port t = PortPlan.OldPort p /\ PortTarget.ConfigSHA256 t = PortPlan.ExpectedConfigSHA256 p.
Proof. unfold systemdPortTargetMatchesExpected. intros Hb. bool_to_prop. split; [by apply Z.eqb_eq|done]. Qed.

(** ** Recovery *)

Lemma wp_rollback w rt (policy : P) p t a l :
  sound w -> owns w l a -> PortLedger.Plan l = p -> rt_adapter rt = a -> systemdPortTargetMatchesExpected t p = true ->
  wp sound (rollbackSystemdPortRequest rt policy p t a l) (final p a) w.
Proof.
  intros Hi Ho Ep Ea (Et & Es)%matches_expected. unfold rollbackSystemdPortRequest. apply wp_bind.
  assert (Hbad : forall v, sound v -> jobs v = jobs w ->
    wp sound (or_fail (Save (advance l p LedgerTerminal (Some (rollback_failed_result p)))) "state_unavailable"
      (fun _ => Ret (localExecutorPortResponse p (rollback_failed_result p)))) (final p a) v).
  { intros v Hv Ej. destruct (owns_jobs w v l a Ej Ho) as ((Hl & _) & Hm & _). apply wp_port_or_fail, wp_port_save; [done| | |done|].
    - replace (ledger_key (advance l p _ _)) with (ledger_key l) by (unfold ledger_key, ledger_target, ledger_job; cbn; by rewrite Ep).
      rewrite Hl. constructor. rewrite <- Ep. by apply step_quarantine.
    - intros Hm'. in_cases Hm'.
    - intros [[]|e]; [|done]. intros u Hu Hd. apply wp_ret; [done|]. eapply final_response; [done|done|done|done|by left]. }
  apply wp_bind_ok, (wp_restore _ _ _ l); [done|done|by intros; apply Hbad|]. intros v Hv Ej Esc.
  apply wp_bind_ok, (wp_restart _ _ a _ l); [done|by eapply owns_jobs|done|by intros u e Hu Eu; apply Hbad; [|congruence]|].
  intros u Hu Eu Esu. apply wp_verify; [done|intros e; apply Hbad; [done|congruence]|]. intros version Hx.
  assert (Ho' : owns u l a) by (eapply owns_jobs; [|done]; congruence). destruct Ho as ((_ & Hval) & Hm & _).
  apply wp_commit; [done|apply Ho'|done| |].
  - in_cases Hm; rewrite Hm; unfold commits; rewrite !elem_of_cons; tauto.
  - intros r [= <-]. split.
    + cbn. rewrite <- Ep. apply checkpoint_digest; [done|]. cbn. by rewrite Esu, Esc.
    + exists t, [], (log u). split_and!; [done|by constructor|done|done].
Qed.

Lemma wp_port_consume w rt p operation version grant l Q :
  fitting rt operation p -> sound w -> on_disk w l -> PortLedger.State l = LedgerGrantConsuming \/ PortLedger.State l = LedgerCommitting ->
  PortPlan.sameIntent (PortLedger.Plan l) p = true -> PortLedger.CurrentVersion l = version ->
  (forall v e, sound v -> jobs v = jobs w -> sidecars v = sidecars w -> Q (Err e) v) ->
  (forall b, let v := record (EGranted (PortPlan.JobID p) b (jobs w)) w in
     presents bound b operation p version -> sound v -> Q (Ok tt) v) ->
  wp sound (ConsumeGrant rt p operation version grant) Q w.
Proof.
  intros Hft Hi [Hl _] Hs Hp Ev He Hq. apply wp_bind_ok, wp_port_require; [done| |auto]. intros _.
  set (b := presented_binding rt p operation version).
  assert (Hb : presents bound b operation p version).
  { unfold b, presented_binding. destruct (rt_v2_binding rt) eqn:Eb; [by apply Hft|done]. }
  set (v := record (EGranted (PortPlan.JobID p) b (jobs w)) w).
  assert (Hv : sound v).
  { apply sound_record; [done|]. intros _. exists l, p, operation. rewrite Ev. split_and!; done. }
  apply wp_call; [done|]. intros ans x u E. destruct ans; try discriminate E; injection E as <- <-; split; auto.
Qed.

Definition regranted (l : PortLedger.t) (p : PortPlan.t) : PortLedger.t :=
  l <| PortLedger.Plan := p |> <| PortLedger.Result := None |>.

Lemma regranted_key l p : PortPlan.sameIntent (PortLedger.Plan l) p = true -> jobKey (PortPlan.TargetID p) (PortPlan.JobID p) = ledger_key l.
Proof. intros [<- <-]%sameIntent_keys. done. Qed.

Lemma wp_gate w rt p a operation grant l k :
  fitting rt operation p -> sound w -> on_disk w l -> PortLedger.State l ∈ PortLedger.unfinished -> PortPlan.sameIntent (PortLedger.Plan l) p = true ->
  (forall v b js, let l1 := (regranted l p) <| PortLedger.State := LedgerGrantConsumed |> in
     sound v -> on_disk v l1 -> sidecars v = sidecars w -> log v = EGranted (PortPlan.JobID p) b js :: log w ->
     wp sound (k l1) (final p a) v) ->
  wp sound (consume_gate rt p operation grant (regranted l p) k) (final p a) w.
Proof.
  intros Hft Hi [Hl Hval] Hs Hp Hk. pose proof (regranted_key _ _ Hp) as Ek.
  set (lc := (regranted l p) <| PortLedger.State := LedgerGrantConsuming |>).
  set (la := (regranted l p) <| PortLedger.State := LedgerAmbiguous |>).
  set (l1 := (regranted l p) <| PortLedger.State := LedgerGrantConsumed |>).
  apply wp_port_or_fail, wp_port_save; [done| | |done|].
  - change (ledger_key _) with (jobKey (PortPlan.TargetID p) (PortPlan.JobID p)). rewrite Ek, Hl. constructor.
    by apply (step_consume l p).
  - intros Hm. in_cases Hm.
  - intros [[]|e]; [|done]. intros v Hv Hd.
    assert (Hmove : forall u s, jobs u = jobs v -> (LedgerGrantConsuming, s) ∈ moves ->
      job_step (jobs u !! ledger_key ((regranted l p) <| PortLedger.State := s |>)) (Some ((regranted l p) <| PortLedger.State := s |>))).
    { intros u s Eu Hm. change (ledger_key _) with (ledger_key lc). rewrite Eu.
      rewrite (proj1 Hd : jobs v !! ledger_key lc = Some lc). constructor. by apply (step_move lc s). }
    apply wp_bind, (wp_port_consume _ _ _ _ _ _ lc); [done|done|done|by left|apply sameIntent_refl|done| |].
    + intros u e Hu Eu Esu. apply wp_bind, wp_port_save; [done| | | |].
      * apply Hmove; [done|]. unfold moves. rewrite !elem_of_cons. tauto.
      * intros Hm. in_cases Hm.
      * intros e'. by apply wp_ret.
      * intros r u' Hu' _. by apply wp_ret.
    + intros b u Hb Hu. apply wp_port_or_fail, wp_port_save; [done| | |done|].
      * apply Hmove; [done|]. unfold moves. rewrite !elem_of_cons. tauto.
      * intros _ _. exists b, (jobs v), operation. split; [by left|exact Hb].
      * intros [[]|e]; [|done]. intros u' Hu' Hd'. by eapply Hk.
Qed.

(** ** The operations of a request *)

Lemma wp_apply_change w rt (policy : P) p t a l :
  sound w -> owns w l a -> PortLedger.Plan l = p -> PortLedger.State l = LedgerGrantConsumed ->
  rt_adapter rt = a -> systemdPortTargetMatchesExpected t p = true ->
  wp sound (apply_change rt policy p t a l) (final p a) w.
Proof.
  intros Hi Ho Ep Es Ea Ht. unfold apply_change. apply wp_bind, (wp_write _ _ _ l); [done|done| |].
  { intros v e Hv Ej. cbn [is_err is_ok negb]. apply wp_rollback; [done|by eapply owns_jobs|done|done|done]. }
  intros v Hv Ej Esc. cbn [is_err is_ok negb]. set (l2 := l <| PortLedger.State := LedgerSidecarWritten |>).
  pose proof (owns_jobs w v l a Ej Ho) as ((Hl & _) & _ & Had).
  apply wp_port_or_fail, wp_port_save; [done| | |done|].
  { change (ledger_key l2) with (ledger_key l). rewrite Hl. constructor. apply step_move. rewrite Es. unfold moves. rewrite !elem_of_cons. tauto. }
  { intros _ Hg. apply (Hg (ledger_key l) l); [done|]. rewrite Es. unfold mutating. rewrite !elem_of_cons. tauto. }
  intros [[]|e]; [|done]. intros u Hu Hd.
  assert (Ho2 : owns u l2 a) by (split_and!; [done| |done]; unfold mutating; rewrite !elem_of_cons; tauto).
  apply wp_bind, (wp_restart _ _ a _ l2); [done|done|done| |].
  { intros v' e Hv' Ej'. cbn [is_err is_ok negb]. apply wp_rollback; [done|by eapply owns_jobs|done|done|done]. }
  intros v' Hv' Ej' Esc'. cbn [is_err is_ok negb]. set (l3 := l2 <| PortLedger.State := LedgerRestarted |>).
  pose proof (owns_jobs u v' l2 a Ej' Ho2) as ((Hl2 & _) & Hm2 & _).
  apply wp_port_or_fail, wp_port_save; [done| | |done|].
  { change (ledger_key l3) with (ledger_key l2). rewrite Hl2. constructor. apply (step_move l2). unfold moves. rewrite !elem_of_cons. tauto. }
  { intros _ Hg. by apply (Hg (ledger_key l2) l2). }
  intros [[]|e]; [|done]. intros u' Hu' Hd'.
  assert (Ho3 : owns u' l3 a) by (split_and!; [done| |done]; unfold mutating; rewrite !elem_of_cons; tauto).
  apply wp_bind, wp_verify; [done| |].
  { intros e. cbn [is_err is_ok negb]. apply wp_rollback; done. }
  intros version Hx. cbn [is_err is_ok negb]. apply wp_commit; [done|apply Ho3|done| |].
  - unfold commits. rewrite !elem_of_cons. tauto.
  - intros r [= <-]. split.
    + cbn. rewrite <- Ep. apply (port_target_digest l _ _ 384%Z); [apply Ho|]. cbn. rewrite Esc'. cbn. by rewrite Esc.
    + eexists _, [], _. split_and!; [done|by constructor|done|done].
Qed.

Lemma wp_port_stage w l Q :
  sound w -> jobs w !! ledger_key l = None -> PortLedger.State l = LedgerStaged -> PortLedger.Result l = None ->
  (forall e v, sound v -> Q (Err e) v) ->
  (forall v, sound v -> on_disk v l -> sidecars v = sidecars w -> log v = log w -> Q (Ok tt) v) -> wp sound (Stage l) Q w.
Proof.
  intros Hi Hn Hs Hr He Hq. apply wp_bind_ok, wp_lift; [done| |auto]. intros [] _.
  assert (Hgo : forall a, wp sound (let? _ := require (negb (busy_with_other a (ledger_job l))) in
    let? _ := Save l in call (WriteActive (activeKey (ledger_target l)) (ledger_target l, ledger_job l))) Q w).
  { intros a. apply wp_bind_ok, wp_port_require; [done| |auto]. intros _. apply wp_bind_ok, wp_port_save; [done| | |auto|].
    - rewrite Hn. by constructor.
    - intros Hm. rewrite Hs in Hm. in_cases Hm.
    - intros [[]|e] v Hv Hd; [|by apply He].
      apply (wp_port_effect _ _ (v <| active := <[activeKey (ledger_target l) := (ledger_target l, ledger_job l)]> (active v) |>));
        [done|done|done|by intros; apply He|]. intros [[]|e]; [by apply Hq|by apply He]. }
  apply wp_bind_ok, wp_load_active; [done|auto|intros _; apply Hgo|]. intros m _ _ _. apply Hgo.
Qed.

Lemma wp_start_change w rt (policy : P) request p t a l :
  fitting rt (PortRequest.Operation request) p -> sound w -> on_disk w l -> PortLedger.Result l = None -> PortPlan.sameIntent (PortLedger.Plan l) p = true ->
  adapter_of (PortPlan.ServiceType p) = Some a -> rt_adapter rt = a -> systemdPortTargetMatchesExpected t p = true ->
  wp sound (start_change rt policy request p t a l) (final p a) w.
Proof.
  intros Hft Hi Hd Hr Hp Ha Ert Ht. unfold start_change. destruct (_ !=? _) eqn:Es; [by apply wp_ret|]. bool_to_prop.
  apply wp_port_or_fail, wp_take; [done|done|]. intros _. destruct (negb _); [by apply wp_ret|].
  apply wp_port_or_fail, wp_available; [done| |done].
  replace (l <| PortLedger.Plan := p |>) with (regranted l p) by (unfold regranted; destruct l; cbn in *; by subst).
  apply wp_gate; [done|done|done| |done|].
  - rewrite Es. unfold PortLedger.unfinished. rewrite !elem_of_cons. tauto.
  - intros v b js l1 Hv Hd1 _ _. apply wp_apply_change; [done| |done|done|done|done].
    split_and!; [done| |done]. unfold mutating. rewrite !elem_of_cons. tauto.
Qed.

Lemma wp_stage_new w rt (policy : P) request p t a :
  fitting rt (PortRequest.Operation request) p -> sound w -> jobs w !! jobKey (PortPlan.TargetID p) (PortPlan.JobID p) = None ->
  adapter_of (PortPlan.ServiceType p) = Some a -> rt_adapter rt = a -> systemdPortTargetMatchesExpected t p = true ->
  wp sound (stage_new rt policy p t a (start_change rt policy request p t a)) (final p a) w.
Proof.
  intros Hft Hi Hn Ha Ert Ht. unfold stage_new. apply wp_port_or_fail, wp_take; [done|done|]. intros _.
  destruct (_ || _); [by apply wp_ret|]. apply wp_port_or_fail, wp_verify; [done|done|]. intros version Hv.
  destruct (negb _); [by apply wp_ret|]. apply wp_port_or_fail, wp_available; [done| |done].
  destruct (_ !=? _); [by apply wp_ret|]. apply wp_port_or_fail, wp_port_stage; [done|done|done|done|done|].
  intros v Hsv Hd _ _. apply wp_start_change; [done|done|done|done|apply sameIntent_refl|done|done|done].
Qed.

Lemma wp_reconcile_unstarted w rt (policy : P) request p t a :
  fitting rt (PortRequest.Operation request) p -> sound w -> jobs w !! jobKey (PortPlan.TargetID p) (PortPlan.JobID p) = None ->
  systemdPortTargetMatchesExpected t p = true ->
  wp sound (reconcileUnstartedSystemdPortRequest rt policy request p t a) (final p a) w.
Proof.
  intros Hft Hi Hn (Et & Es)%matches_expected. unfold reconcileUnstartedSystemdPortRequest.
  apply wp_port_or_fail, wp_take; [done|done|]. intros _.
  destruct (_ || _) eqn:Eb; [by apply wp_ret|]. bool_to_prop. rewrite taken_sha in *.
  apply wp_port_or_fail, wp_verify; [done|done|]. intros version Hv.
  destruct (negb _); [by apply wp_ret|]. destruct (_ !=? _); [by apply wp_ret|].
  apply wp_port_or_fail, wp_port_stage; [done|done|done|done|done|]. intros v Hsv Hd Esc Elog.
  set (staged := PortLedger.mk _ _ _ _ _ _ _) in *. change staged with (regranted staged p) at 1.
  apply wp_gate; [done|done|done| |apply sameIntent_refl|].
  - unfold PortLedger.unfinished. rewrite !elem_of_cons. tauto.
  - intros u b js l1 Hu Hd1 Esc1 Elog1. apply wp_commit; [done|done|done| |].
    + unfold commits. rewrite !elem_of_cons. tauto.
    + intros r [= <-]. split.
      * unfold sidecar_digest in *. rewrite Esc1, Esc. done.
      * exists t, [EGranted (PortPlan.JobID p) b js], (log w). rewrite Elog1, Elog. split_and!; [done|by repeat constructor|done|done].
Qed.

Lemma wp_port_reconcile w rt (policy : P) request p t a l :
  fitting rt (PortRequest.Operation request) p -> sound w -> on_disk w l -> PortLedger.State l ∈ PortLedger.unfinished -> PortPlan.sameIntent (PortLedger.Plan l) p = true ->
  adapter_of (PortPlan.ServiceType p) = Some a -> rt_adapter rt = a -> systemdPortTargetMatchesExpected t p = true ->
  wp sound (reconcileSystemdPortRequest rt policy request p t a l) (final p a) w.
Proof.
  intros Hft Hi Hd Hs Hp Ha Ert Ht. pose proof (matches_expected _ _ Ht) as [Et Ec].
  unfold reconcileSystemdPortRequest. apply wp_gate; [done|done|done|done|done|]. intros v b js l1 Hv Hd1 Esc Elog.
  assert (Ho : forall u, jobs u = jobs v -> owns u l1 a).
  { intros u Eu. unfold owns, on_disk. rewrite Eu. split_and!; [apply Hd1|apply Hd1| |done].
    unfold mutating. rewrite !elem_of_cons. tauto. }
  assert (Hback : forall u, sound u -> jobs u = jobs v -> wp sound (rollbackSystemdPortRequest rt policy p t a l1) (final p a) u).
  { intros u Hu Eu. by apply wp_rollback; [|apply Ho| | |]. }
  apply wp_bind, wp_take; [done|by intros e; apply wp_bind, wp_ret; [|apply wp_bind, wp_ret; [|apply Hback]]|]. intros _.
  set (path := Adapter.SidecarPath a). rewrite taken_sha. apply wp_bind.
  assert (Hcommit : forall u kind target, sound u -> jobs u = jobs v -> log u = EVerified target :: log v ->
    (LedgerGrantConsumed, kind) ∈ commits ->
    (forall r, result_of kind p = Some r -> sidecar_digest u path = PortResult.ConfigSHA256 r /\
       PortTarget.Port target = PortResult.AppliedPort r /\ PortTarget.ConfigSHA256 target = PortResult.ConfigSHA256 r) ->
    wp sound (commitSystemdPortResult p l1 kind) (final p a) u).
  { intros u kind target Hu Eu Eul Hk Hr. apply wp_commit; [done|apply (Ho u Eu)|done|done|].
    intros r Er. destruct (Hr r Er) as (H1' & H2' & H3'). split; [done|]. exists target, [], (log v). by split_and!. }
  assert (Hold : wp sound (let* isOld := if Checkpoint.same (taken (sidecars v !! path)) (PortLedger.checkpoint l1)
      then let* r := Verify rt policy t in Ret (is_ok r) else Ret false in
    if isOld then commitSystemdPortResult p l1 ResultUnchanged else rollbackSystemdPortRequest rt policy p t a l1) (final p a) v).
  { apply wp_bind. destruct (Checkpoint.same _ _) eqn:Esame; [|by apply wp_ret; [|apply Hback]].
    apply same_sidecar in Esame. apply wp_bind, wp_verify; [done|by intros e; apply wp_ret; [|apply Hback]|].
    intros version Hx. apply wp_ret; [done|]. eapply Hcommit; [done|done|done| |].
    - unfold commits. rewrite !elem_of_cons. tauto.
    - intros r [= <-]. split_and!; [|done|done]. apply (checkpoint_digest l1); [apply Hd1|done]. }
  destruct (_ ==? _) eqn:Enew; [|by apply wp_ret]. bool_to_prop. apply wp_bind, wp_verify; [done|by intros e; apply wp_ret|].
  intros version Hx. apply wp_ret; [done|]. eapply Hcommit; [done|done|done| |].
  - unfold commits. rewrite !elem_of_cons. tauto.
  - intros r [= <-]. split_and!; done.
Qed.

Lemma wp_repair w rt (policy : P) request p t a l :
  fitting rt (PortRequest.Operation request) p -> sound w -> on_disk w l -> PortPlan.sameIntent (PortLedger.Plan l) p = true ->
  wp sound (repairSystemdPortCommit rt policy request p t a l) (final p a) w.
Proof.
  intros Hft Hi Hd Hp. unfold repairSystemdPortCommit. destruct (PortLedger.Result l) as [r|] eqn:Er; [|by apply wp_ret].
  destruct (_ || _) eqn:Eb; [by apply wp_ret|]. bool_to_prop.
  apply wp_port_or_fail, (wp_port_consume _ _ _ _ _ _ l); [done|done|done|by right|done|done|done|]. intros b v Hb Hv.
  apply wp_port_or_fail, wp_take; [done|done|]. intros _. destruct (_ || _) eqn:Ec; [by apply wp_ret|]. bool_to_prop.
  rewrite taken_sha in *. apply wp_port_or_fail, wp_verify; [done|done|]. intros version Hx.
  apply wp_port_or_fail, wp_save_applied; [done|done|]. intros [[]|e] k; [|done].
  set (u := _ <| applied := _ |>). assert (Hu : sound u) by done.
  apply wp_port_or_fail, wp_port_save; [done| | |done|].
  - change (ledger_key _) with (jobKey (PortPlan.TargetID p) (PortPlan.JobID p)). rewrite (regranted_key _ _ Hp).
    change (jobs u) with (jobs w). rewrite (proj1 Hd). constructor. by apply step_finish.
  - intros Hm. in_cases Hm.
  - intros [[]|e]; [|done]. intros u' Hu' Hd'. apply wp_ret; [done|]. eapply final_response; [done|done|done|done|].
    right. split; [done|]. eexists _, [], _. by split_and!.
Qed.

Lemma valid_states l t :
  PortLedger.validate l t = Ok tt ->
  (PortLedger.State l ∈ PortLedger.unfinished /\ PortLedger.Result l = None) \/
  PortLedger.State l = LedgerCommitting \/ PortLedger.State l = LedgerTerminal.
Proof.
  Transparent PortLedger.validate. unfold PortLedger.validate. Opaque PortLedger.validate.
  intros E. destruct (_ || _); [done|]. destruct (negb _); [done|].
  unfold PortLedger.validate_state in E. destruct (existsb _ _) eqn:Ex.
  - left. destruct (bool_decide _) eqn:Er; [done|]. bool_to_prop. apply existsb_exists in Ex as (s & Hin & Es).
    bool_to_prop. split; [|by apply dec_stable]. rewrite Es. by apply list_elem_of_In.
  - right. destruct (_ ==? _) eqn:Ec; [left; by bool_to_prop|]. destruct (PortLedger.State l ==? LedgerTerminal) eqn:Et; [right; by bool_to_prop|done].
Qed.

Lemma wp_resolve (I : world -> Prop) w (policy : P) t Q :
  I w -> (forall e, Q (Err e) w) -> (forall t', Q (Ok t') w) -> wp I (resolveSystemdPortAppliedTarget policy t) Q w.
Proof.
  intros Hi He Hq. apply wp_bind_ok. unfold LoadApplied. apply wp_bind_ok, wp_port_require; [done| |done]. intros _.
  set (key := appliedKey (PortTarget.ServiceID t)). apply wp_bind_ok, (wp_port_observe _ _ (applied w !! key)); [done|done| |done].
  destruct (applied w !! key) as [s|]; [|by apply wp_ret; [|apply wp_ret]].
  apply wp_bind_ok, wp_port_require; [done| |done]. intros _. apply wp_ret; [done|].
  apply wp_bind_ok, wp_lift; [done| |done]. intros useOverlay _. apply wp_bind_ok.
  unfold VerifyAppliedSidecar. apply wp_bind_ok, wp_lift; [done| |done]. intros _ _.
  destruct (PortTarget.Unit t) as [svc|]; [|by apply wp_ret]. apply wp_bind_ok, wp_lift; [done| |done]. intros a _.
  apply wp_bind_ok, (wp_port_observe _ _ (sidecars w !! Adapter.SidecarPath a)); [done|done| |done].
  destruct (sidecars w !! Adapter.SidecarPath a) as [[mode body]|]; [|by apply wp_ret].
  apply wp_port_require; [done| |done]. intros _. by apply wp_ret.
Qed.

Lemma wp_continue w rt (policy : P) request p t a ledger :
  fitting rt (PortRequest.Operation request) p -> sound w ->
  match ledger with
  | Some l => on_disk w l /\ PortLedger.State l ∈ PortLedger.unfinished /\ PortLedger.Result l = None /\
              PortPlan.sameIntent (PortLedger.Plan l) p = true
  | None => jobs w !! jobKey (PortPlan.TargetID p) (PortPlan.JobID p) = None
  end ->
  adapter_of (PortPlan.ServiceType p) = Some a -> rt_adapter rt = a ->
  wp sound (continue_job rt policy request p t a ledger) (final p a) w.
Proof.
  intros Hft Hi Hl Ha Ert. unfold continue_job. apply wp_port_or_fail, wp_resolve; [done|done|]. intros target.
  destruct (negb _) eqn:Em; [by apply wp_ret|]. bool_to_prop.
  destruct (_ ==? _).
  - destruct ledger as [l|]; [|by apply wp_reconcile_unstarted]. destruct Hl as (Hd & Hs & _ & Hp). by apply wp_port_reconcile.
  - destruct (negb _); [by apply wp_ret|]. destruct ledger as [l|]; [|by apply wp_stage_new].
    destruct Hl as (Hd & _ & Hr & Hp). by apply wp_start_change.
Qed.

Lemma binding_ok (policy : P) request p t a :
  validateSystemdPortPolicyBinding PlanIsNoOp policy request p = Ok (t, a) ->
  PortRequest.ServiceID request = PortPlan.TargetID p /\ policy_target policy (PortPlan.TargetID p) = Some t /\
  adapter_of (PortPlan.ServiceType p) = Some a /\
  exists svc, PortTarget.Unit t = Some svc /\ systemdPortAdapterFor (PortTarget.ServiceType t) svc = Ok a.
Proof.
  unfold validateSystemdPortPolicyBinding. intros E. destruct (_ || _) eqn:E1; [done|]. destruct (_ || _) in E; [done|].
  destruct (negb _) in E; [done|]. destruct (policy_target _ _) as [t'|]; [|done].
  destruct (PortTarget.Unit t') as [svc|] eqn:Eu; [|done]. destruct (_ || _) eqn:E2 in E; [done|].
  destruct (systemdPortAdapterFor _ _) as [a'|] eqn:Ea; [|done]. cbn in E. destruct (_ !=? _) in E; [done|]. injection E as <- <-.
  bool_to_prop. split_and!; [done|done| |by exists svc].
  assert (Est : PortTarget.ServiceType t' = PortPlan.ServiceType p) by done.
  unfold systemdPortAdapterFor in Ea. rewrite Est in Ea. destruct (adapter_of _) as [a''|]; [|done].
  destruct (_ !=? _) in Ea; [done|]. congruence.
Qed.

(** The result was final before the request, or it is now. *)
Definition reported (w : world) (p : PortPlan.t) (a : Adapter.t) (response : port_response) (v : world) : Prop :=
  final p a response v \/
  exists l r, jobs w !! jobKey (PortPlan.TargetID p) (PortPlan.JobID p) = Some l /\
    PortPlan.sameIntent (PortLedger.Plan l) p = true /\ PortLedger.State l = LedgerTerminal /\
    PortLedger.Result l = Some r /\ response = localExecutorPortResponse p r /\ v = w.

Lemma wp_execute w rt (policy : P) request p :
  fitting rt (PortRequest.Operation request) p -> sound w -> PortRequest.Plan request = Some p ->
  (forall t a, validateSystemdPortPolicyBinding PlanIsNoOp policy request p = Ok (t, a) -> rt_adapter rt = a) ->
  wp sound (executeSystemdPortRequest PlanIsNoOp rt policy request)
    (fun response v => is_ok response = true ->
       exists t a, validateSystemdPortPolicyBinding PlanIsNoOp policy request p = Ok (t, a) /\ reported w p a response v) w.
Proof.
  intros Hft Hi Ep Hrt. unfold executeSystemdPortRequest. rewrite Ep.
  destruct (validateSystemdPortPolicyBinding _ _ _ _) as [[t a]|e] eqn:Eb; [|by apply wp_ret].
  specialize (Hrt t a eq_refl). destruct (binding_ok _ _ _ _ _ Eb) as (_ & _ & Ha & _).
  eapply (wp_mono _ _ (fun response v => is_ok response = true -> reported w p a response v)).
  { intros response v _ Hr Hok. exists t, a. split; [done|by apply Hr]. }
  set (key := jobKey (PortPlan.TargetID p) (PortPlan.JobID p)).
  assert (Hf : forall q : prog op port_response, wp sound q (final p a) w ->
    wp sound q (fun response v => is_ok response = true -> reported w p a response v) w).
  { intros q Hq. eapply wp_mono; [|exact Hq]. intros response v _ Hv _. by left. }
  apply wp_port_or_fail, wp_load_job; [done|done| |].
  - intros Hn. cbn [settled]. apply wp_port_or_fail, wp_load_active; [done|done| |].
    + intros _. apply Hf, wp_continue; done.
    + intros l Hd Et _. destruct (busy_with_other _ _); [by apply wp_ret|].
      assert (Ej : (ledger_job l ==? PortPlan.JobID p) = false).
      { apply bool_decide_eq_false. intros Ej. destruct Hd as [Hd _]. unfold ledger_key in Hd. rewrite Et, Ej in Hd. congruence. }
      rewrite Ej. apply Hf, wp_continue; done.
  - intros l Hd Et Ej. cbn [settled]. pose proof (proj2 Hd) as Ev. rewrite Et in Ev. rewrite Ev. cbn [is_err is_ok negb].
    assert (Ek : jobs w !! key = Some l). { destruct Hd as [Hd _]. unfold ledger_key in Hd. by rewrite Et, Ej in Hd. }
    destruct (PortPlan.sameIntent _ _) eqn:Esi; cbn [negb]; [|by apply wp_ret].
    destruct (PortLedger.State l ==? LedgerTerminal) eqn:Est.
    { bool_to_prop. apply wp_ret; [done|]. destruct (PortLedger.Result l) as [r|] eqn:Er; [|done]. intros _. right.
      exists l, r. by split_and!. }
    bool_to_prop.
    assert (Hgo : wp sound (if PortLedger.State l ==? LedgerCommitting then
        if PortRequest.Operation request !=? "port_reconfigure_reconcile" then failure "reconcile_required"
        else repairSystemdPortCommit rt policy request p t a l
      else continue_job rt policy request p t a (Some l))
      (fun response v => is_ok response = true -> reported w p a response v) w).
    { destruct (_ ==? _) eqn:Ec; [destruct (negb _); [by apply wp_ret|by apply Hf, wp_repair]|]. bool_to_prop.
      apply Hf, wp_continue; [done|done| |done|done]. destruct (valid_states _ _ Ev) as [[Hu Hr]|[?|?]]; [by split_and!|done|done]. }
    apply wp_port_or_fail, wp_load_active; [done|done|intros _; exact Hgo|]. intros l' _ _ _. destruct (busy_with_other _ _); [by apply wp_ret|exact Hgo].
Qed.

Lemma wp_port_handle w (policy : P) request :
  (forall b p, PortRequest.MutationGrantV2Binding request = Some b -> PortRequest.Plan request = Some p ->
     bound b (PortRequest.Operation request) p) ->
  sound w ->
  wp sound (handleLocalExecutorSystemdPortMutation PlanIsNoOp policy request)
    (fun response v => is_ok response = true -> exists p t a, PortRequest.Plan request = Some p /\
       validateSystemdPortPolicyBinding PlanIsNoOp policy request p = Ok (t, a) /\ reported w p a response v) w.
Proof.
  intros Hbound Hi. unfold handleLocalExecutorSystemdPortMutation. destruct (PortRequest.Plan request) as [p|] eqn:Ep; [|by apply wp_ret].
  destruct (policy_target _ _) as [t|] eqn:Et; [|by apply wp_ret]. destruct (_ || _); [by apply wp_ret|].
  apply wp_port_or_fail, (wp_port_observe _ _ tt); [done|done| |done]. apply wp_port_or_fail, (wp_port_observe _ _ tt); [done|done| |done].
  apply wp_port_or_fail. unfold newPlatformSystemdPortExecution. destruct (PanelURL policy) as [url|]; [|by apply wp_ret].
  destruct (PortTarget.Unit t) as [svc|] eqn:Eu; [|by apply wp_ret].
  apply wp_bind_ok, wp_port_require; [done| |done]. intros _. apply wp_bind_ok, wp_lift; [done| |done]. intros a Ea.
  apply wp_bind_ok, (wp_port_observe _ _ tt); [done|done| |done]. apply wp_bind_ok, (wp_port_observe _ _ tt); [done|done| |done].
  apply wp_ret; [done|]. eapply wp_mono; [|apply wp_execute; [|done|exact Ep|]].
  - intros response v _ Hr Hok. destruct (Hr Hok) as (t' & a' & Hb & Hrep). by exists p, t', a'.
  - intros b Eb. by apply Hbound.
  - intros t' a' (Es & Ept & _ & svc' & Eu' & Ea')%binding_ok. cbn. rewrite <- Es in Ept. congruence.
Qed.
End Safety.

(** ** Histories of requests *)

Section Histories.
Context `{TimeZones} `{ListenerCodec} {P : Type} `{ExecutorPolicy P} `{PolicyTargets P}.
Variable PlanIsNoOp : PortPlan.t -> bool.

(** Any request to the handler of systemd targets. *)
Inductive port_entry : prog op unit -> Prop :=
| entry_port (policy : P) request :
    port_entry (let* _ := handleLocalExecutorSystemdPortMutation PlanIsNoOp policy request in Ret tt).

(** Of v2 bindings nothing is known. *)
Definition unchecked (b : V2Binding.t) (operation : string) (p : PortPlan.t) : Prop := True.

Lemma history_sound w v : history port_entry w v -> sound unchecked w v.
Proof.
  intros Hh. eapply (history_invariant port_entry (sound unchecked w)); [|apply sound_start|exact Hh].
  intros p u Hp Hu. destruct Hp as [policy request]. apply wp_bind. eapply wp_mono; [|by apply wp_port_handle].
  intros response x Hx _. by apply wp_ret.
Qed.

(** Any request that reaches the executor, for a target that is not a Docker target. *)
Inductive request_entry `{GrantContracts} : prog op unit -> Prop :=
| entry_request now (policy : P) docker request :
    (forall t, policy_target policy (PortRequest.ServiceID request) = Some t -> PortTarget.DeploymentMode t <> ModeDocker) ->
    request_entry (let* _ := handleLocalExecutorMutation PlanIsNoOp now policy docker request in Ret tt).

Lemma wp_request `{GrantContracts} w0 w now (policy : P) docker request :
  (forall t, policy_target policy (PortRequest.ServiceID request) = Some t -> PortTarget.DeploymentMode t <> ModeDocker) ->
  sound binding_for w0 w ->
  wp (sound binding_for w0) (handleLocalExecutorMutation PlanIsNoOp now policy docker request) (fun _ _ => True) w.
Proof.
  intros Hd Hi. unfold handleLocalExecutorMutation. destruct (is_err _); [by apply wp_ret|].
  do 4 (apply wp_port_or_fail, (wp_port_observe _ _ tt); [done|done| |done]).
  destruct (is_err _); [by apply wp_ret|]. destruct (policy_target _ _) as [t|] eqn:Et; [|by apply wp_ret].
  destruct (negb _) eqn:Ea; [by apply wp_ret|]. apply negb_false_iff in Ea.
  destruct (_ ==? _); [|rewrite (bool_decide_false (_ = ModeDocker)) by (by apply Hd); by apply wp_ret].
  eapply wp_mono; [by intros|]. apply wp_port_handle; [|done]. intros b p Eb Ep. by eapply admitted_binding.
Qed.

Lemma requests_sound `{GrantContracts} w v : history request_entry w v -> sound binding_for w v.
Proof.
  intros Hh. eapply (history_invariant request_entry (sound binding_for w)); [|apply sound_start|exact Hh].
  intros p u Hp Hu. destruct Hp as [now policy docker request Hd]. apply wp_bind. eapply wp_mono; [|by apply wp_request].
  intros response x Hx _. by apply wp_ret.
Qed.

(** No change is under way, and nothing has been logged. *)
Definition idle (w : world) : Prop :=
  log w = [] /\ forall key l, jobs w !! key = Some l -> ~ PortLedger.State l ∈ mutating.


Lemma terminal_stays l x : PortLedger.State l = LedgerTerminal -> rtc job_step (Some l) x -> x = Some l.
Proof.
  intros Hs Hr. inversion Hr as [|? y ? Hstep]; [done|]. subst. inversion Hstep as [|? ? Hl]. subst.
  by destruct (terminal_final _ _ Hs Hl).
Qed.

(** C33: over any history of requests and crashes every job ledger goes only through the
    steps of the abstract job machine: it appears staged, is regranted, moves forward,
    records a result and becomes terminal; intent, checkpoint and target bytes never
    change.  In particular a terminal ledger, with its result, never changes again. *)
Theorem port_jobs_refine_machine w v :
  history port_entry w v ->
  (forall key, rtc job_step (jobs w !! key) (jobs v !! key)) /\
  (forall key l, jobs w !! key = Some l -> PortLedger.State l = LedgerTerminal -> jobs v !! key = Some l).
Proof.
  intros [Hr _]%history_sound. split; [done|]. intros key l Hl Hs. specialize (Hr key). rewrite Hl in Hr.
  by apply terminal_stays.
Qed.

(** C34: a result that a request reports is the result of the terminal ledger of its job
    on the disk, and it carries session and digest of the request's plan.  Unless the
    job was terminal before or the result is that the rollback failed, the sidecar file
    has the reported digest, and a target with the reported port was verified after the
    last change of the file and the last restart. *)
Theorem port_results_are_true w v (policy : P) request answers r session digest :
  run (handleLocalExecutorSystemdPortMutation PlanIsNoOp policy request) answers w = (v, Some (Ok (r, session, digest))) ->
  exists p t a l, PortRequest.Plan request = Some p /\
    validateSystemdPortPolicyBinding PlanIsNoOp policy request p = Ok (t, a) /\
    session = PortPlan.SessionID p /\ digest = PortPlan.PortPlanSHA256 p /\
    jobs v !! jobKey (PortPlan.TargetID p) (PortPlan.JobID p) = Some l /\ PortPlan.sameIntent (PortLedger.Plan l) p = true /\
    PortLedger.State l = LedgerTerminal /\ PortLedger.Result l = Some r /\
    (jobs w !! jobKey (PortPlan.TargetID p) (PortPlan.JobID p) = Some l \/
     PortResult.Result r = ResultRollbackFailed \/ true_now a v r).
Proof.
  intros E. destruct (wp_sound _ _ _ answers w (wp_port_handle PlanIsNoOp unchecked w w policy request (fun _ _ _ _ => I) (sound_start unchecked w))) as [_ Hq].
  rewrite E in Hq. destruct (Hq _ eq_refl eq_refl) as (p & t & a & Ep & Eb & [Hf|Hw]).
  - destruct Hf as (-> & -> & (l & Hl & Hi & Hs & Hr) & Ht). exists p, t, a, l. by split_and!; [..|right].
  - destruct Hw as (l & r' & Hl & Hi & Hs & Hr & Eresp & Ev). unfold localExecutorPortResponse in Eresp.
    destruct (_ && _) in Eresp; [|done]. injection Eresp as <- -> ->. exists p, t, a, l. cbn in Ev. subst v.
    by split_and!; [..|left].
Qed.
End Histories.
