(* ===== verification/PortRecovery.v ===== *)
(** Recovery of an interrupted port change: when it ends, and when it cannot. *)
From Stdlib Require Import Ascii String ZArith Lia.
From stdpp Require Import base decidable list strings gmap.
From S2P Require Import Prelude Strings Regexp Patterns Effects Sha256 Json Paths PlanDigest MutationLedger SelfUpdateGrant Grants PortPlan PortEngine PortAdmission PortSafety.

Open Scope string_scope.
#[local] Opaque remoteStableKey systemdPortSidecarSHA256 systemdPortSidecarBytes re_match.

(** A guard of alternatives that are all false. *)
Ltac guard_false :=
  repeat apply orb_false_intro;
  try match goal with
  | |- negb _ = false => apply negb_false_iff
  end;
  first [done | assumption | apply bool_decide_eq_true; done | apply bool_decide_eq_false; (done || tauto || congruence) | apply Z.ltb_ge; lia
        | apply Z.eqb_eq; lia | apply Z.eqb_neq; lia].

(** ** Valid plans have valid results *)

Section Plans.
Context `{TimeZones}.

Record plan_facts (p : PortPlan.t) : Prop := {
  pf_identity : PortPlan.identity_invalid p = false;
  pf_revisions : PortPlan.revisions_invalid p = false;
  pf_digests : PortPlan.digests_invalid p = false;
  pf_differ : PortPlan.ExpectedConfigSHA256 p <> PortPlan.TargetConfigSHA256 p;
  pf_fence : PortPlan.fence_invalid p = false;
  pf_session : re_match mutationSessionPattern (PortPlan.SessionID p) = true;
  pf_hash : re_match mutationPlanHashPattern (PortPlan.PortPlanSHA256 p) = true;
  pf_systemd : PortPlan.systemd_invalid p = false;
}.

Lemma port_plan_valid p :
  PortPlan.Validate p = Ok tt -> PortPlan.effectiveDeploymentMode p = ModeSystemd -> plan_facts p.
Proof.
  unfold PortPlan.Validate. intros E Em. rewrite Em, (bool_decide_true (ModeSystemd = ModeSystemd) eq_refl) in E.
  destruct (PortPlan.Versioned p); [done|]. destruct (PortPlan.identity_invalid p) eqn:E1; [done|].
  destruct (PortPlan.network_invalid p); [done|]. destruct (PortPlan.ports_invalid p); [done|].
  destruct (PortPlan.revisions_invalid p) eqn:E2; [done|]. destruct (_ || _) eqn:E3 in E; [done|].
  destruct (PortPlan.fence_invalid p) eqn:E4; [done|]. destruct (_ || _) eqn:E5 in E; [done|].
  destruct (PortPlan.systemd_invalid p) eqn:E6; [done|]. bool_to_prop. by split.
Qed.

(** The next configuration revision does not overflow. *)
Definition room (p : PortPlan.t) : Prop := (PortPlan.ExpectedConfigRevision p < max_int64)%Z.

Lemma plan_revisions p :
  plan_facts p -> room p ->
  (1 <= PortPlan.TargetEndpointRevision p)%Z /\ (1 <= i64_succ (PortPlan.TargetEndpointRevision p))%Z /\
  (1 <= PortPlan.ExpectedConfigRevision p)%Z /\ (1 <= PortPlan.TargetConfigRevision p)%Z.
Proof.
  intros Hf Hr. pose proof (pf_revisions _ Hf) as E. unfold PortPlan.revisions_invalid, room in *. bool_to_prop.
  unfold i64_succ, max_int64 in *. repeat case_match; rewrite ?Z.eqb_eq in *; lia.
Qed.

Lemma result_parts p r :
  plan_facts p -> PortResult.Versioned r = false -> PortResult.DeploymentMode r = "" -> PortResult.Docker r = None ->
  PortResult.OldPort r = PortPlan.OldPort p -> PortResult.NewPort r = PortPlan.NewPort p ->
  safeExecutorMessage (PortResult.Message r) = true -> PortResult.validate_kind r = Ok tt -> PortResult.Validate r = Ok tt.
Proof.
  intros Hf Ev Em Ed Eo En Es Ek. pose proof (pf_systemd _ Hf) as Hs. unfold PortPlan.systemd_invalid in Hs.
  unfold PortResult.Validate, PortResult.validate_mode. rewrite Ev, Em, Ed, Eo, En, Es. bool_to_prop.
  assert (Hport : forall q, validSystemdPort q = true -> any_port q = true).
  { intros q Hq. unfold validSystemdPort, any_port in *. apply andb_true_iff in Hq as [?%Z.leb_le ?%Z.leb_le].
    apply andb_true_iff. split; apply Z.leb_le; lia. }
  rewrite !Hport by done. cbn [negb orb]. change (TrimSpace "") with "". change ("" ==? "") with true. cbn iota.
  change (ModeSystemd ==? ModeSystemd) with true. cbn iota.
  replace (_ || _) with false by (symmetry; guard_false). done.
Qed.

Lemma result_validates p kind r :
  plan_facts p -> room p -> result_of kind p = Some r -> PortResult.Validate r = Ok tt.
Proof.
  intros Hf Hr E. destruct (plan_revisions p Hf Hr) as (R1 & R2 & R3 & R4).
  pose proof (pf_digests _ Hf) as Hd. unfold PortPlan.digests_invalid in *. bool_to_prop.
  unfold result_of in E. repeat (destruct (_ ==? _) in E; [injection E as <-|]); [..|done];
    (apply (result_parts p); [done|done|done|done|done|done|vm_compute; reflexivity|]);
    unfold PortResult.validate_kind, PortResult.known_invalid; cbn -[re_match i64_succ].
  - change (ResultApplied ==? ResultApplied) with true. cbn iota. replace (_ || _) with false by (symmetry; guard_false). done.
  - change (ResultRolledBack ==? ResultApplied) with false. change (ResultRolledBack ==? ResultRolledBack) with true.
    cbn iota. replace (_ || _) with false by (symmetry; guard_false). done.
  - change (ResultUnchanged ==? ResultApplied) with false. change (ResultUnchanged ==? ResultRolledBack) with false.
    change (ResultUnchanged ==? ResultUnchanged) with true.
    cbn iota. replace (_ || _) with false by (symmetry; guard_false). done.
Qed.

Lemma rollback_failed_validates p : plan_facts p -> room p -> PortResult.Validate (rollback_failed_result p) = Ok tt.
Proof.
  intros Hf Hr. destruct (plan_revisions p Hf Hr) as (R1 & _). apply (result_parts p); [done|done|done|done|done|done|vm_compute; reflexivity|].
  unfold PortResult.validate_kind. cbn. change (ResultRollbackFailed ==? ResultApplied) with false.
  change (ResultRollbackFailed ==? ResultRolledBack) with false. change (ResultRollbackFailed ==? ResultUnchanged) with false.
  change (ResultRollbackFailed ==? ResultRollbackFailed) with true. cbn iota.
  replace (_ || _) with false by (symmetry; guard_false). done.
Qed.

(** ** Valid ledgers stay valid *)

Lemma committing_state l r :
  PortLedger.State l = LedgerCommitting -> PortLedger.Result l = Some r -> PortResult.Validate r = Ok tt ->
  PortResult.Result r <> ResultRollbackFailed -> PortLedger.validate_state l = Ok tt.
Proof.
  intros Es Er Hv Hk. unfold PortLedger.validate_state, PortLedger.result_valid. rewrite Es, Er, Hv.
  change (existsb _ _) with false. change (LedgerCommitting ==? LedgerCommitting) with true. cbn iota.
  by rewrite bool_decide_false.
Qed.

Lemma terminal_state l r :
  PortLedger.State l = LedgerTerminal -> PortLedger.Result l = Some r -> PortResult.Validate r = Ok tt ->
  PortLedger.validate_state l = Ok tt.
Proof.
  intros Es Er Hv. unfold PortLedger.validate_state, PortLedger.result_valid. rewrite Es, Er, Hv.
  change (existsb _ _) with false. change (LedgerTerminal ==? LedgerCommitting) with false.
  by change (LedgerTerminal ==? LedgerTerminal) with true.
Qed.

Lemma unfinished_state l :
  PortLedger.State l ∈ PortLedger.unfinished -> PortLedger.Result l = None -> PortLedger.validate_state l = Ok tt.
Proof.
  intros Hs Er. unfold PortLedger.validate_state. rewrite Er.
  replace (existsb _ _) with true; [by rewrite bool_decide_false by tauto|].
  symmetry. apply existsb_exists. exists (PortLedger.State l). split; [by apply list_elem_of_In|by apply bool_decide_eq_true].
Qed.

Lemma advance_validates l p s r t :
  PortLedger.validate l t = Ok tt -> PortPlan.Validate p = Ok tt -> PortPlan.sameIntent (PortLedger.Plan l) p = true ->
  PortLedger.validate_state (advance l p s r) = Ok tt -> PortLedger.validate (advance l p s r) t = Ok tt.
Proof.
  intros Hl Hp Hi Hs. apply sameIntent_spec in Hi as (g & h & ->). unfold PortLedger.validate in *.
  destruct (_ || _) eqn:Eb in Hl; [done|]. destruct (negb _) eqn:Ev in Hl; [done|]. rewrite Hs.
  change (PortLedger.CurrentVersion (advance _ _ _ _)) with (PortLedger.CurrentVersion l). rewrite Ev.
  change (PortLedger.Plan (advance _ ?q _ _)) with q. rewrite Hp. bool_to_prop.
  replace (_ || _) with false by (symmetry; guard_false). done.
Qed.
End Plans.

(** ** Undisturbed runs *)

Section Smooth.
Context `{TimeZones} `{ListenerCodec} {P : Type} `{ExecutorPolicy P} `{PolicyTargets P}.
Variable PlanIsNoOp : PortPlan.t -> bool.
Context (verdict : list event -> PortTarget.t -> option string).

Abbreviation run_smooth := (twp (Smooth verdict)).

Lemma smooth_require w b (Q : result string unit -> world -> Prop) :
  (b = true -> Q (Ok tt) w) -> (b = false -> forall e, Q (Err e) w) -> run_smooth (require b) Q w.
Proof. intros Ht Hf. apply twp_ret. destruct b; auto. Qed.

Lemma smooth_guard w b (Q : result string unit -> world -> Prop) : b = true -> Q (Ok tt) w -> run_smooth (require b) Q w.
Proof. intros -> HQ. by apply twp_ret. Qed.

Lemma smooth_or_fail {A} (p : prog op (result string A)) code f Q w :
  run_smooth p (fun r v => match r with Ok a => run_smooth (f a) Q v | Err _ => Q (Err code) v end) w ->
  run_smooth (or_fail p code f) Q w.
Proof. intros (v & r & E & Hr). apply twp_bind. exists v, r. split; [done|]. destruct r; [done|]. by apply twp_ret. Qed.

Lemma smooth_save w l (Q : result string unit -> world -> Prop) :
  PortLedger.validate l (ledger_target l) = Ok tt -> Q (Ok tt) (w <| jobs := <[ledger_key l := l]> (jobs w) |>) ->
  run_smooth (Save l) Q w.
Proof.
  intros Hv HQ. apply twp_bind_ok, twp_ret. rewrite Hv. apply twp_bind_ok. eapply twp_call; [done|]. by eapply twp_call.
Qed.

(** A file that can be read back. *)
Definition readable (f : option (Z * string)) : Prop :=
  match f with Some (mode, body) => mode = 384%Z /\ body_bounded body = true | None => True end.

Lemma smooth_read w path (Q : result string Checkpoint.t -> world -> Prop) :
  (readable (sidecars w !! path) -> Q (Ok (taken (sidecars w !! path))) w) ->
  (forall e, ~ readable (sidecars w !! path) -> Q (Err e) w) -> run_smooth (checkpointSystemdPortSidecar path) Q w.
Proof.
  intros Hok He. apply twp_bind_ok. eapply twp_call; [done|].
  destruct (sidecars w !! path) as [[mode body]|]; [|by apply twp_ret, Hok].
  apply twp_bind_ok, smooth_require.
  - intros Hg. apply twp_ret, Hok. unfold readable, body_bounded. bool_to_prop. rewrite Z.eqb_eq in *. split; [done|].
    apply andb_true_iff. split; [apply negb_true_iff, Z.eqb_neq; lia|by apply Z.leb_le].
  - intros Hg e. apply He. intros [-> Hb].
    unfold body_bounded, len in *. bool_to_prop. rewrite Z.eqb_neq in *. bool_cases; [done|lia|lia].
Qed.

Lemma smooth_checkpoint w path (Q : result string Checkpoint.t -> world -> Prop) :
  Q (Ok (taken (sidecars w !! path))) w -> (forall e, ~ readable (sidecars w !! path) -> Q (Err e) w) ->
  run_smooth (checkpointSystemdPortSidecar path) Q w.
Proof. intros Hok. by apply smooth_read. Qed.

Lemma smooth_stable w t (Q : result string string -> world -> Prop) :
  (forall v, verdict (log w) t = Some v -> Q (Ok v) (record (EVerified t) w)) ->
  (verdict (log w) t = None -> forall e, Q (Err e) w) -> run_smooth (call (VerifyStable t)) Q w.
Proof.
  intros Hok He. destruct (verdict (log w) t) as [v|] eqn:E; (eapply twp_call; [cbn; by rewrite E|]); auto.
Qed.

Lemma smooth_verify w rt (policy : P) t (Q : result string string -> world -> Prop) :
  (forall v, Q (Ok v) (record (EVerified t) w)) ->
  (~ (validateTarget rt t = true /\ HostID policy = rt_hostID rt /\ Policy_Validate policy = Ok tt /\
      verdict (log w) t <> None) -> forall e, Q (Err e) w) ->
  run_smooth (Verify rt policy t) Q w.
Proof.
  intros Hok He. apply twp_bind_ok, smooth_require.
  - intros _. apply smooth_stable; [auto|]. intros E e. apply He. by intros (_ & _ & _ & Hv).
  - intros Hg e. apply He. intros (Ht & Eh & Ev & _). rewrite Ht, Eh, Ev, bool_decide_true in Hg by done. done.
Qed.

Definition closed (p : PortPlan.t) (r : PortResult.t) (w : world) : Prop := exists l,
  jobs w !! jobKey (PortPlan.TargetID p) (PortPlan.JobID p) = Some l /\
  PortLedger.State l = LedgerTerminal /\ PortLedger.Result l = Some r.

(** The request ends with a result that is final; in calm circumstances ([calm]) it is not
    the failure of the rollback. *)
Definition ends (p : PortPlan.t) (calm : Prop) (response : port_response) (w : world) : Prop := exists r,
  response = Ok (r, PortPlan.SessionID p, PortPlan.PortPlanSHA256 p) /\ closed p r w /\
  (calm -> PortResult.Result r <> ResultRollbackFailed).

Section Plan.
Context (p : PortPlan.t) (Hvalid : PortPlan.Validate p = Ok tt) (Hf : plan_facts p) (Hroom : room p).

Lemma response_ok r : PortResult.Validate r = Ok tt ->
  localExecutorPortResponse p r = Ok (r, PortPlan.SessionID p, PortPlan.PortPlanSHA256 p).
Proof. intros E. unfold localExecutorPortResponse. by rewrite (pf_session _ Hf), (pf_hash _ Hf), E. Qed.

Lemma applied_saveable kind r : result_of kind p = Some r -> Applied.saveable (systemdPortAppliedStateForResult p r) = true.
Proof.
  intros E. destruct (plan_revisions p Hf Hroom) as (R1 & R2 & R3 & R4). pose proof (pf_digests _ Hf) as Hd.
  pose proof (pf_fence _ Hf) as He. pose proof (pf_systemd _ Hf) as Hs. pose proof (pf_identity _ Hf) as Hi.
  unfold PortPlan.digests_invalid, PortPlan.fence_invalid, PortPlan.systemd_invalid, PortPlan.identity_invalid in *. bool_to_prop.
  unfold Applied.saveable, Applied.fields_invalid. unfold result_of in E.
  repeat (destruct (_ ==? _) in E; [injection E as <-|]); [..|done]; cbn;
    (apply andb_true_iff; split; [apply andb_true_iff; split|]; [|done|done]); apply negb_true_iff; guard_false.
Qed.

(** A ledger of this plan. *)
Definition bound (l : PortLedger.t) : Prop :=
  PortLedger.Plan l = p /\ PortLedger.validate l (PortPlan.TargetID p) = Ok tt.

Lemma bound_advance l s r :
  bound l -> PortLedger.validate_state (advance l p s r) = Ok tt -> bound (advance l p s r).
Proof.
  intros [Ep Hv] Hs. split; [done|]. apply advance_validates; [done|done|rewrite Ep; apply sameIntent_refl|done].
Qed.

Lemma smooth_commit w l kind r calm :
  bound l -> result_of kind p = Some r -> run_smooth (commitSystemdPortResult p l kind) (ends p calm) w.
Proof.
  intros Hb Er. pose proof (result_validates p kind r Hf Hroom Er) as Hr.
  assert (Hk : PortResult.Result r <> ResultRollbackFailed).
  { unfold result_of in Er. repeat (destruct (_ ==? _) in Er; [by injection Er as <-|]). done. }
  unfold commitSystemdPortResult. rewrite Er.
  assert (Hc : bound (advance l p LedgerCommitting (Some r))).
  { apply bound_advance; [done|]. by apply (committing_state _ r). }
  assert (Ht : bound (advance l p LedgerTerminal (Some r))).
  { apply bound_advance; [done|]. by apply (terminal_state _ r). }
  apply smooth_or_fail, smooth_save; [apply Hc|]. apply smooth_or_fail, twp_bind_ok, smooth_guard; [by eapply applied_saveable|].
  apply twp_bind_ok. eapply twp_call; [done|]. eapply twp_call; [done|].
  apply smooth_or_fail, smooth_save; [apply Ht|]. apply twp_ret. exists r. split_and!; [by apply response_ok| |done].
  exists (advance l p LedgerTerminal (Some r)). split_and!; [|done|done]. cbn. apply lookup_insert_eq.
Qed.

Lemma smooth_quarantine w l (calm : Prop) :
  bound l -> ~ calm ->
  run_smooth (or_fail (Save (advance l p LedgerTerminal (Some (rollback_failed_result p)))) "state_unavailable"
    (fun _ => Ret (localExecutorPortResponse p (rollback_failed_result p)))) (ends p calm) w.
Proof.
  intros Hb Hcalm. pose proof (rollback_failed_validates p Hf Hroom) as Hr.
  assert (Ht : bound (advance l p LedgerTerminal (Some (rollback_failed_result p)))).
  { apply bound_advance; [done|]. by apply (terminal_state _ (rollback_failed_result p)). }
  apply smooth_or_fail, smooth_save; [apply Ht|]. apply twp_ret. eexists. split_and!; [by apply response_ok| |done].
  eexists. split_and!; [cbn; apply lookup_insert_eq|done|done].
Qed.

(** What makes a rollback succeed. *)
Record restorable (w : world) (rt : runtime) (policy : P) (t : PortTarget.t) (a : Adapter.t) (l : PortLedger.t) : Prop := {
  rs_file : sidecars w !! Adapter.SidecarPath a = Some (384%Z, PortLedger.TargetBytes l);
  rs_bounded : body_bounded (PortLedger.TargetBytes l) = true;
  rs_mode : Checkpoint.Existed (PortLedger.checkpoint l) = true -> Checkpoint.Mode (PortLedger.checkpoint l) = 384%Z;
  rs_target : validateTarget rt t = true;
  rs_policy : HostID policy = rt_hostID rt /\ Policy_Validate policy = Ok tt;
  rs_verdict : forall events, verdict events t <> None;
}.

Lemma checkpoint_facts l :
  bound l -> (Checkpoint.Existed (PortLedger.checkpoint l) = true -> Checkpoint.Mode (PortLedger.checkpoint l) = 384%Z) ->
  Checkpoint.validate (PortLedger.checkpoint l) = Ok tt /\ readable (sidecar_of (PortLedger.checkpoint l)) /\
  taken (sidecar_of (PortLedger.checkpoint l)) = PortLedger.checkpoint l.
Proof.
  intros [_ Hv] Hm. destruct (valid_checkpoint _ _ Hv) as (Hc & _). split; [done|]. clear Hv. unfold Checkpoint.validate, sidecar_of in *.
  destruct (PortLedger.checkpoint l) as [ex m b h]. cbn in *. destruct (_ !=? _) eqn:Eh in Hc; [done|]. bool_to_prop. subst h.
  destruct ex; cbn in *.
  - rewrite (Hm eq_refl) in *. destruct (_ || _) eqn:Eb in Hc; [done|]. bool_to_prop. split; [split; [done|]|done].
    unfold body_bounded. apply andb_true_iff. split; [by apply negb_true_iff|by apply Z.leb_le].
  - destruct (_ || _) eqn:Eb in Hc; [done|]. bool_to_prop. split; [done|].
    assert (b = "") as -> by (destruct b; [done|]; unfold len in *; cbn in *; lia). by subst m.
Qed.

Lemma smooth_restore w rt (policy : P) t a l calm (Q : result string unit -> world -> Prop) :
  bound l -> rt_adapter rt = a -> (calm -> restorable w rt policy t a l) ->
  (forall v, Q (Ok tt) v) -> (forall e v, ~ calm -> Q (Err e) v) ->
  run_smooth (Restore rt a (PortLedger.checkpoint l) (PortLedger.TargetBytes l)) Q w.
Proof.
  intros Hb Ea Hcalm Hok He.
  assert (Hc : calm -> Checkpoint.validate (PortLedger.checkpoint l) = Ok tt /\ readable (sidecar_of (PortLedger.checkpoint l)) /\
    taken (sidecar_of (PortLedger.checkpoint l)) = PortLedger.checkpoint l).
  { intros HC. apply checkpoint_facts; [done|]. by apply (rs_mode _ _ _ _ _ _ (Hcalm HC)). }
  set (c := PortLedger.checkpoint l) in *. set (path := Adapter.SidecarPath a).
  assert (Hmode : calm -> Checkpoint.Existed c = true -> Checkpoint.Mode c = 384%Z).
  { intros HC. exact (rs_mode _ _ _ _ _ _ (Hcalm HC)). }
  apply twp_bind_ok, smooth_require; [|intros Hg e; apply He; intros HC].
  2: { destruct (Hc HC) as (Hv & _). rewrite Hv, (rs_bounded _ _ _ _ _ _ (Hcalm HC)) in Hg. unfold matchesAdapter in Hg.
       rewrite Ea, bool_decide_true in Hg by done. done. }
  intros _. apply twp_bind_ok, smooth_checkpoint.
  2: { intros e Hr. apply He. intros HC. apply Hr. unfold path. rewrite (rs_file _ _ _ _ _ _ (Hcalm HC)). split; [done|].
       by apply (rs_bounded _ _ _ _ _ _ (Hcalm HC)). }
  apply twp_bind_ok, smooth_require; [|intros Hg e; apply He; intros HC].
  2: { unfold path in Hg. rewrite (rs_file _ _ _ _ _ _ (Hcalm HC)) in Hg. unfold holds in Hg. cbn in Hg.
       rewrite !bool_decide_true in Hg by done. done. }
  intros _.
  assert (Hlast : forall v, sidecars v !! path = match sidecar_of c with Some (_, b) => Some (384%Z, b) | None => None end ->
    run_smooth (let? restored := checkpointSystemdPortSidecar path in require (Checkpoint.same restored c)) Q v).
  { intros v Ev.
    assert (Es : calm -> sidecars v !! path = sidecar_of c).
    { intros HC. rewrite Ev. unfold sidecar_of. destruct (Checkpoint.Existed c) eqn:Ex; [|done].
      by rewrite (Hmode HC). }
    apply twp_bind_ok, smooth_checkpoint; [|intros e Hr; apply He; intros HC; apply Hr; rewrite (Es HC); by apply Hc].
    apply smooth_require; [done|]. intros Hg e. apply He. intros HC. rewrite (Es HC), (proj2 (proj2 (Hc HC))) in Hg.
    unfold Checkpoint.same in Hg. by rewrite bool_decide_true in Hg. }
  unfold sidecar_of in Hlast. apply twp_bind_ok. destruct (Checkpoint.Existed c) eqn:Ex.
  - apply twp_bind_ok, smooth_require; [|intros Hg e; apply He; intros HC; by rewrite (Hmode HC eq_refl) in Hg].
    intros _. eapply twp_call; [done|]. apply Hlast. cbn. apply lookup_insert_eq.
  - apply twp_bind_ok. eapply twp_call; [done|]. eapply twp_call; [done|]. apply Hlast. cbn. apply lookup_delete_eq.
Qed.

Lemma smooth_rollback w rt (policy : P) t a l calm :
  bound l -> rt_adapter rt = a -> (calm -> restorable w rt policy t a l) ->
  run_smooth (rollbackSystemdPortRequest rt policy p t a l) (ends p calm) w.
Proof.
  intros Hb Ea Hcalm. unfold rollbackSystemdPortRequest.
  apply twp_bind, twp_bind_ok, (smooth_restore _ _ policy t _ _ calm); [done|done|done| |by intros; apply smooth_quarantine].
  intros v. apply twp_bind_ok, twp_bind_ok, smooth_require;
    [|intros Hg e; apply smooth_quarantine; [done|]; intros HC; by rewrite (rs_target _ _ _ _ _ _ (Hcalm HC)) in Hg].
  intros _. apply twp_bind_ok. eapply twp_call; [done|]. eapply twp_call; [done|].
  apply smooth_verify; [intros version; by eapply smooth_commit|]. intros Hn e. apply smooth_quarantine; [done|].
  intros HC. apply Hn. destruct (rs_policy _ _ _ _ _ _ (Hcalm HC)) as [Eh Ev].
  split_and!; [by apply (rs_target _ _ _ _ _ _ (Hcalm HC))|done|done|by apply (rs_verdict _ _ _ _ _ _ (Hcalm HC))].
Qed.

Lemma smooth_gate w rt operation grant l k calm :
  PortPlan.HostID p = rt_hostID rt -> PortPlan.TargetID p = rt_serviceID rt -> PortPlan.ServiceType p = rt_serviceType rt ->
  port_operation operation = true -> validBoundedSecret grant = true ->
  PortLedger.validate l (PortPlan.TargetID p) = Ok tt -> PortPlan.sameIntent (PortLedger.Plan l) p = true ->
  (forall v, let l1 := (regranted l p) <| PortLedger.State := LedgerGrantConsumed |> in
     bound l1 -> sidecars v = sidecars w -> run_smooth (k l1) (ends p calm) v) ->
  run_smooth (consume_gate rt p operation grant (regranted l p) k) (ends p calm) w.
Proof.
  intros Eh Et Es Hop Hg Hv Hi Hk.
  assert (Hb : forall s, s ∈ PortLedger.unfinished -> bound ((regranted l p) <| PortLedger.State := s |>)).
  { intros s Hs. split; [done|]. by apply (advance_validates l p s None); [| | |apply unfinished_state]. }
  apply smooth_or_fail, smooth_save; [apply Hb; unfold PortLedger.unfinished; rewrite !elem_of_cons; tauto|].
  apply twp_bind, twp_bind_ok, smooth_guard.
  { rewrite Hvalid, Eh, Et, Es, Hop, Hg, !bool_decide_true by done. cbn.
    change (PortLedger.CurrentVersion (regranted l p)) with (PortLedger.CurrentVersion l).
    unfold PortLedger.validate in Hv. destruct (_ || _) in Hv; [done|]. destruct (negb _) eqn:Ev in Hv; [done|].
    apply negb_false_iff in Ev. by rewrite Ev. }
  eapply twp_call; [done|]. apply smooth_or_fail, smooth_save; [apply Hb; unfold PortLedger.unfinished; rewrite !elem_of_cons; tauto|].
  apply Hk; [|done]. apply Hb. unfold PortLedger.unfinished. rewrite !elem_of_cons. tauto.
Qed.

(** The sidecar is what the job found or what it writes, the previous file can be put back,
    and the service verifies with the previous port. *)
Definition calm (w : world) (t : PortTarget.t) (a : Adapter.t) (l : PortLedger.t) : Prop :=
  (sidecars w !! Adapter.SidecarPath a = sidecar_of (PortLedger.checkpoint l) \/
   sidecars w !! Adapter.SidecarPath a = Some (384%Z, PortLedger.TargetBytes l)) /\
  body_bounded (PortLedger.TargetBytes l) = true /\
  (Checkpoint.Existed (PortLedger.checkpoint l) = true -> Checkpoint.Mode (PortLedger.checkpoint l) = 384%Z) /\
  forall events, verdict events t <> None.

Lemma smooth_reconcile w rt (policy : P) request t a l :
  rt_adapter rt = a -> validateTarget rt t = true -> HostID policy = rt_hostID rt -> Policy_Validate policy = Ok tt ->
  PortPlan.HostID p = rt_hostID rt -> PortPlan.TargetID p = rt_serviceID rt -> PortPlan.ServiceType p = rt_serviceType rt ->
  port_operation (PortRequest.Operation request) = true -> validBoundedSecret (PortRequest.MutationGrant request) = true ->
  PortLedger.validate l (PortPlan.TargetID p) = Ok tt -> PortPlan.sameIntent (PortLedger.Plan l) p = true ->
  run_smooth (reconcileSystemdPortRequest rt policy request p t a l) (ends p (calm w t a l)) w.
Proof.
  intros Ea Ht Eh Ev Eph Ept Eps Hop Hg Hv Hi. apply smooth_gate; [done..|]. intros v l1 Hb Es.
  set (path := Adapter.SidecarPath a).
  assert (Hcp : calm w t a l -> readable (sidecar_of (PortLedger.checkpoint l)) /\
    taken (sidecar_of (PortLedger.checkpoint l)) = PortLedger.checkpoint l).
  { intros (_ & _ & Hm & _). by apply (checkpoint_facts l1). }
  assert (Hback : forall u, sidecars u = sidecars w -> (calm w t a l -> sidecars w !! path = Some (384%Z, PortLedger.TargetBytes l)) ->
    run_smooth (rollbackSystemdPortRequest rt policy p t a l1) (ends p (calm w t a l)) u).
  { intros u Eu Hfile. apply smooth_rollback; [done|done|]. intros HC. pose proof HC as (_ & Hbd & Hm & Hver).
    split; [by rewrite Eu; apply Hfile|done|done|done|done|done]. }
  assert (Hread : calm w t a l -> readable (sidecars v !! path)).
  { rewrite Es. intros HC. pose proof HC as ([Ef|Ef] & Hbd & _); fold path in Ef; rewrite Ef; [by apply Hcp|done]. }
  apply twp_bind. unfold TakeCheckpoint. apply twp_bind_ok, smooth_guard; [by apply bool_decide_eq_true|].
  apply smooth_checkpoint.
  2: { intros e Hr. apply twp_bind, twp_ret, twp_bind, twp_ret. apply Hback; [done|]. intros HC. by destruct (Hr (Hread HC)). }
  assert (Hold : run_smooth (let* isOld := if Checkpoint.same (taken (sidecars v !! path)) (PortLedger.checkpoint l1)
      then let* r := Verify rt policy t in Ret (is_ok r) else Ret false in
    if isOld then commitSystemdPortResult p l1 ResultUnchanged else rollbackSystemdPortRequest rt policy p t a l1)
    (ends p (calm w t a l)) v).
  { apply twp_bind. destruct (Checkpoint.same _ _) eqn:Esame.
    - apply twp_bind, smooth_verify; [intros version; apply twp_ret; by eapply smooth_commit|].
      intros Hn e. apply twp_ret, Hback; [done|]. intros HC. destruct Hn. by split_and!; [..|apply HC].
    - apply twp_ret, Hback; [done|]. intros HC. pose proof HC as ([Ef|Ef] & _); [|done]. exfalso.
      unfold Checkpoint.same in Esame. rewrite Es in Esame. fold path in Ef. rewrite Ef, (proj2 (Hcp HC)) in Esame.
      by rewrite bool_decide_true in Esame. }
  apply twp_bind. destruct (_ ==? _) eqn:En; [|by apply twp_ret].
  apply twp_bind, smooth_verify; [intros version; apply twp_ret; by eapply smooth_commit|].
  intros _ e. by apply twp_ret.
Qed.

(** *** A change whose result is recorded *)

(** The sidecar is the file of the recorded result. *)
Definition as_recorded (w : world) (t : PortTarget.t) (a : Adapter.t) (r : PortResult.t) : Prop :=
  let body := systemdPortSidecarBytes (Adapter.ServiceType a) (PortTarget.Host t) (PortResult.AppliedPort r)
                (PortResult.ConfigRevision r) in
  sidecars w !! Adapter.SidecarPath a = Some (384%Z, body) /\ body_bounded body = true /\
  systemdPortSidecarSHA256 body = PortResult.ConfigSHA256 r.

(** The service may not verify with the recorded port. *)
Definition unverified (t : PortTarget.t) (r : PortResult.t) : Prop :=
  target_valid (effective_target t r) = false \/ exists events, verdict events (effective_target t r) = None.

(** The answer to a reconcile request for a recorded result: the job is closed with it,
    after the service was verified with it, or the ledger stays as it is, because the
    service does not verify or because the sidecar is missing or another file. *)
Definition finishes (w : world) (t : PortTarget.t) (a : Adapter.t) (r : PortResult.t) (response : port_response) (v : world) : Prop :=
  as_recorded w t a r /\ response = Ok (r, PortPlan.SessionID p, PortPlan.PortPlanSHA256 p) /\ closed p r v /\
    head (log v) = Some (EVerified (effective_target t r)) \/
  as_recorded w t a r /\ unverified t r /\ response = Err "reconcile_required" /\ jobs v = jobs w \/
  ~ as_recorded w t a r /\ response = Err "state_invalid" /\ jobs v = jobs w.

Lemma valid_version l t : PortLedger.validate l t = Ok tt -> re_match versionPattern (PortLedger.CurrentVersion l) = true.
Proof.
  unfold PortLedger.validate. intros Hv. destruct (_ || _) in Hv; [done|]. destruct (negb _) eqn:Ev in Hv; [done|].
  by apply negb_false_iff in Ev.
Qed.

(** The guard of the repair. *)
Lemma repair_guard w t a r :
  let effective := effective_target t r in
  let expected := systemdPortSidecarBytes (Adapter.ServiceType a) (PortTarget.Host effective) (PortTarget.Port effective)
                    (PortTarget.ConfigRevision effective) in
  let c := taken (sidecars w !! Adapter.SidecarPath a) in
  readable (sidecars w !! Adapter.SidecarPath a) ->
  negb (Checkpoint.Existed c) || (Checkpoint.Mode c !=? 384)%Z || (Checkpoint.SHA256 c !=? PortResult.ConfigSHA256 r) ||
  (systemdPortSidecarSHA256 expected !=? PortResult.ConfigSHA256 r) || (Checkpoint.Bytes c !=? expected) = false <->
  as_recorded w t a r.
Proof.
  intros effective expected c Hr. unfold as_recorded. cbn zeta. change (systemdPortSidecarBytes _ _ _ _) with expected. split.
  - intros Hg. unfold c in Hg. destruct (sidecars w !! _) as [[mode body]|]; cbn in Hg; bool_to_prop; [|done].
    destruct Hr as [-> Hb]. subst body. by split_and!.
  - intros (Ef & Hb & Es). unfold c. rewrite Ef. cbn. guard_false.
Qed.

Lemma smooth_repair w rt (policy : P) request t a l kind r :
  rt_adapter rt = a -> (target_valid (effective_target t r) = true -> validateTarget rt (effective_target t r) = true) ->
  HostID policy = rt_hostID rt -> Policy_Validate policy = Ok tt ->
  PortPlan.HostID p = rt_hostID rt -> PortPlan.TargetID p = rt_serviceID rt -> PortPlan.ServiceType p = rt_serviceType rt ->
  port_operation (PortRequest.Operation request) = true -> validBoundedSecret (PortRequest.MutationGrant request) = true ->
  PortLedger.validate l (PortPlan.TargetID p) = Ok tt -> PortPlan.sameIntent (PortLedger.Plan l) p = true ->
  PortLedger.State l = LedgerCommitting -> PortLedger.Result l = Some r -> result_of kind p = Some r ->
  run_smooth (repairSystemdPortCommit rt policy request p t a l) (finishes w t a r) w.
Proof.
  intros Ea Ht Eh Ev Eph Ept Eps Hop Hg Hv Hi Es Er Ek. pose proof (result_validates p kind r Hf Hroom Ek) as Hr.
  assert (Hk : PortResult.Result r <> ResultRollbackFailed).
  { unfold result_of in Ek. repeat (destruct (_ ==? _) in Ek; [by injection Ek as <-|]). done. }
  unfold repairSystemdPortCommit. rewrite Er, Es, Hr, (bool_decide_true (LedgerCommitting = LedgerCommitting)) by done.
  rewrite bool_decide_false by done. cbn [negb orb is_err is_ok].
  apply smooth_or_fail, twp_bind_ok, smooth_guard.
  { by rewrite Hvalid, Eph, Ept, Eps, Hop, Hg, (valid_version _ _ Hv), !bool_decide_true. }
  eapply twp_call; [done|]. apply smooth_or_fail. unfold TakeCheckpoint. apply twp_bind_ok, smooth_guard; [by apply bool_decide_eq_true|].
  set (w1 := record _ w). apply smooth_read.
  2: { intros e Hn. right. right. split_and!; [|done|done]. intros (Ef & Hb & _). apply Hn. cbn. by rewrite Ef. }
  intros Hread. destruct (_ || _) eqn:Eg.
  { apply twp_ret. right. right. split_and!; [|done|done]. intros Hrec. apply (repair_guard w1 t a r Hread) in Hrec. congruence. }
  apply (repair_guard w1 t a r Hread) in Eg. apply smooth_or_fail, smooth_verify.
  2: { intros Hn e. right. left. split_and!; [done| |done|done]. destruct (target_valid (effective_target t r)) eqn:Et; [|by left].
       right. exists (log w1). apply dec_stable. intros Hver. apply Hn. split_and!; [by apply Ht|done|done|done]. }
  intros version. apply smooth_or_fail, twp_bind_ok, smooth_guard; [by eapply applied_saveable|].
  apply twp_bind_ok. eapply twp_call; [done|]. eapply twp_call; [done|].
  assert (Hterm : PortLedger.validate (advance l p LedgerTerminal (Some r)) (PortPlan.TargetID p) = Ok tt).
  { apply advance_validates; [done|done|done|]. by apply (terminal_state _ r). }
  apply smooth_or_fail, smooth_save; [exact Hterm|]. apply twp_ret. left. split_and!; [done|by apply response_ok| |done].
  exists (advance l p LedgerTerminal (Some r)). split_and!; [|done|done]. cbn. apply lookup_insert_eq.
Qed.
End Plan.

(** A job of the target that is on record, and a request to reconcile it. *)
Record recoverable (w : world) (policy : P) (request : PortRequest.t) (p : PortPlan.t) (t : PortTarget.t) (a : Adapter.t)
    (l : PortLedger.t) : Prop := {
  rc_plan : PortRequest.Plan request = Some p;
  rc_operation : PortRequest.Operation request = "port_reconfigure_reconcile";
  rc_grant : validBoundedSecret (PortRequest.MutationGrant request) = true;
  rc_binding : validateSystemdPortPolicyBinding PlanIsNoOp policy request p = Ok (t, a);
  rc_target : target_valid t = true;
  rc_id : PortTarget.ServiceID t = PortPlan.TargetID p;
  rc_mode : PortPlan.effectiveDeploymentMode p = ModeSystemd;
  rc_room : room p;
  rc_job : jobs w !! jobKey (PortPlan.TargetID p) (PortPlan.JobID p) = Some l;
  rc_valid : PortLedger.validate l (PortPlan.TargetID p) = Ok tt;
  rc_intent : PortPlan.sameIntent (PortLedger.Plan l) p = true;
  rc_active : active w !! activeKey (PortPlan.TargetID p) = None \/
              active w !! activeKey (PortPlan.TargetID p) = Some (PortPlan.TargetID p, PortPlan.JobID p);
}.

(** Where the change was interrupted: before its result was recorded, when it is the first
    change of the port that the policy gives the target; or after that, before the ledger
    became terminal, when the result is one of the plan. *)
Inductive interruption (w : world) (p : PortPlan.t) (t : PortTarget.t) (l : PortLedger.t) : option PortResult.t -> Prop :=
| before_result :
    PortLedger.State l ∈ PortLedger.unfinished -> applied w !! appliedKey (PortPlan.TargetID p) = None ->
    systemdPortTargetMatchesExpected t p = true -> interruption w p t l None
| after_result kind r :
    PortLedger.State l = LedgerCommitting -> PortLedger.Result l = Some r -> result_of kind p = Some r ->
    interruption w p t l (Some r).

(** How an undisturbed reconcile request ends. *)
Definition outcome (w : world) (p : PortPlan.t) (t : PortTarget.t) (a : Adapter.t) (l : PortLedger.t)
    (recorded : option PortResult.t) (response : port_response) (v : world) : Prop :=
  match recorded with
  | None => ends p (calm w t a l) response v
  | Some r => finishes p w t a r response v
  end.

Lemma binding_facts (policy : P) request p t a :
  validateSystemdPortPolicyBinding PlanIsNoOp policy request p = Ok (t, a) ->
  PortPlan.Validate p = Ok tt /\ Policy_Validate policy = Ok tt /\
  SchemaVersion policy = LocalExecutorMutationPolicySchemaVersion /\ ProtocolVersion policy = LocalExecutorMutationProtocolVersion /\
  (exists url, PanelURL policy = Some url) /\ HostID policy = PortPlan.HostID p /\ PortTarget.DeploymentMode t = ModeSystemd /\
  PortTarget.ServiceType t = PortPlan.ServiceType p /\ PortTarget.Unit t = Some (Adapter.Unit a).
Proof.
  unfold validateSystemdPortPolicyBinding. intros E. destruct (_ || _) eqn:E1 in E; [done|]. destruct (_ || _) eqn:E2 in E; [done|].
  destruct (negb _) in E; [done|]. destruct (policy_target _ _) as [t'|]; [|done].
  destruct (PortTarget.Unit t') as [svc|] eqn:Eu; [|done]. destruct (_ || _) eqn:E3 in E; [done|].
  destruct (systemdPortAdapterFor _ _) as [a'|] eqn:Ea; [|done]. cbn in E. destruct (_ !=? _) in E; [done|]. injection E as <- <-.
  unfold systemdPortAdapterFor in Ea. destruct (adapter_of _) as [a''|]; [|done]. destruct (_ !=? _) eqn:Es in Ea; [done|].
  bool_to_prop. injection Ea as ->. subst svc. rewrite is_err_false, is_ok_unit in *.
  split_and!; try done. destruct (PanelURL policy) as [url|]; [by exists url|done].
Qed.

Lemma smooth_load_job w t j l (Q : result string (option PortLedger.t) -> world -> Prop) :
  re_match identifierPattern t = true -> re_match identifierPattern j = true -> jobs w !! jobKey t j = Some l ->
  PortLedger.validate l t = Ok tt -> ledger_job l = j -> Q (Ok (Some l)) w -> run_smooth (LoadJob t j) Q w.
Proof.
  intros Ht Hj El Hv Ej HQ. apply twp_bind_ok, smooth_guard; [by rewrite Ht, Hj|]. apply twp_bind_ok.
  eapply twp_call; [done|]. rewrite El. apply twp_bind_ok, smooth_guard; [|by apply twp_ret].
  rewrite Hv. by apply bool_decide_eq_true.
Qed.

Lemma smooth_handle w (policy : P) request p t a l recorded :
  recoverable w policy request p t a l -> interruption w p t l recorded ->
  run_smooth (handleLocalExecutorSystemdPortMutation PlanIsNoOp policy request) (outcome w p t a l recorded) w.
Proof.
  intros [Ep Eo Hg Eb Ht Eid Em Hr Ej Hv Hi Hact] Hint.
  destruct (binding_ok _ _ _ _ _ _ Eb) as (Es & Ept & Had & svc & Eu & Ea).
  destruct (binding_facts _ _ _ _ _ Eb) as (Hp & Hpol & Hsch & Hpro & (url & Eurl) & Eh & Edm & Est & Eun).
  pose proof (port_plan_valid _ Hp Em) as Hf. pose proof (pf_identity _ Hf) as Hid. unfold PortPlan.identity_invalid in Hid. bool_to_prop.
  destruct (sameIntent_keys _ _ Hi) as [_ Ejob].
  unfold handleLocalExecutorSystemdPortMutation. rewrite Ep, Es, Ept, Edm, Eu.
  rewrite (bool_decide_true (ModeSystemd = ModeSystemd)), bool_decide_false by done. cbn [negb orb].
  apply smooth_or_fail. eapply twp_call; [done|]. apply smooth_or_fail. eapply twp_call; [done|]. apply smooth_or_fail.
  unfold newPlatformSystemdPortExecution. rewrite Eurl, Eu. apply twp_bind_ok, smooth_guard.
  { rewrite Hpol, Hsch, Hpro, Ht, Edm, !Z.eqb_refl. by rewrite bool_decide_true. }
  apply twp_bind_ok, twp_ret. rewrite Ea. apply twp_bind_ok. eapply twp_call; [done|]. apply twp_bind_ok. eapply twp_call; [done|].
  apply twp_ret. set (rt := new_runtime policy t url a _). unfold executeSystemdPortRequest. rewrite Ep, Eb.
  apply smooth_or_fail. eapply smooth_load_job; [done..|]. unfold settled. rewrite Hv, Hi. cbn [is_err is_ok negb].
  assert (Hnt : PortLedger.State l <> LedgerTerminal).
  { intros Hn. destruct Hint as [Hs _ _|k r Hs _ _]; rewrite Hn in Hs; [in_cases Hs|done]. }
  rewrite (bool_decide_false (PortLedger.State l = LedgerTerminal)) by done.
  assert (Hvt : forall t', target_valid t' = true -> PortTarget.ServiceID t' = PortTarget.ServiceID t ->
    PortTarget.ServiceType t' = PortTarget.ServiceType t -> PortTarget.DeploymentMode t' = PortTarget.DeploymentMode t ->
    PortTarget.Unit t' = PortTarget.Unit t -> PortTarget.Host t' = PortTarget.Host t -> validateTarget rt t' = true).
  { intros t' Hval E1 E2 E3 E4 E5. unfold validateTarget. by rewrite Hval, E1, E2, E3, E4, E5, Edm, Eun, !bool_decide_true. }
  assert (Hgo : run_smooth (if PortLedger.State l ==? LedgerCommitting then
      if PortRequest.Operation request !=? "port_reconfigure_reconcile" then failure "reconcile_required"
      else repairSystemdPortCommit rt policy request p t a l
    else continue_job rt policy request p t a (Some l)) (outcome w p t a l recorded) w).
  { destruct Hint as [Hs Happ Hexp|kind r Hs Hres Hkind].
    2: { rewrite Hs, (bool_decide_true (LedgerCommitting = LedgerCommitting)), Eo by done. cbn iota.
         eapply smooth_repair; try done; unfold rt; cbn; try congruence; [intros Hval; by apply Hvt|by rewrite Eo]. }
    rewrite bool_decide_false by (intros Hn; rewrite Hn in Hs; in_cases Hs).
    unfold continue_job. apply smooth_or_fail. unfold resolveSystemdPortAppliedTarget, LoadApplied. rewrite Eid.
    apply twp_bind_ok, twp_bind_ok, smooth_guard; [done|]. apply twp_bind_ok. eapply twp_call; [done|]. rewrite Happ.
    apply twp_ret, twp_ret. rewrite Hexp, Eo. cbn [negb].
    rewrite bool_decide_true by done. cbn iota. apply smooth_reconcile; try done; unfold rt; cbn; try congruence.
    - by apply Hvt.
    - by rewrite Eo. }
  apply smooth_or_fail, twp_bind_ok, smooth_guard; [done|]. apply twp_bind_ok. eapply twp_call; [done|].
  destruct Hact as [-> | ->]; [by apply twp_ret|]. apply twp_bind_ok, smooth_guard.
  { rewrite bool_decide_true by done. done. }
  apply twp_bind_ok. eapply smooth_load_job; [done..|]. apply twp_ret. unfold busy_with_other, ledger_job.
  rewrite Ejob, bool_decide_true by done. exact Hgo.
Qed.

(** C35: what one reconcile request does for an interrupted port change, when it passes the
    checks of the policy and is not disturbed (its plan is that of the job but for the
    lease, and the next configuration revision does not overflow).  A first change of the
    port that the policy gives a target, interrupted before its result was recorded (the
    ledger is not yet committing), is closed: the request ends, whatever the verifications
    say, with a reported result and a terminal ledger, so the target is free again; and when
    the sidecar is the file of before or the new one and the service verifies with its
    previous port, the result is not a failed rollback.  A change interrupted while its
    result is being committed, with or without an applied state, is closed with the recorded
    result when the sidecar is the file of this result and the service verifies with it.
    Otherwise the ledger stays as it is: the answer is reconcile_required when the service
    does not verify, and state_invalid when the sidecar is missing or another file.  (A later
    change interrupted before its result: the theorem about the second change.) *)
Theorem interrupted_port_change_is_closed w (policy : P) request p t a l recorded :
  recoverable w policy request p t a l -> interruption w p t l recorded ->
  exists n, forall m, n <= m -> exists v response,
    run (handleLocalExecutorSystemdPortMutation PlanIsNoOp policy request) (repeat (Smooth verdict) m) w =
      (v, Some response) /\ outcome w p t a l recorded response v.
Proof.
  intros Hr Hi. destruct (smooth_handle _ _ _ _ _ _ _ _ Hr Hi) as (v & response & E & Ho).
  destruct (exec_run _ _ _ _ _ E) as [n Hrun]. exists n. intros m Hm. exists v, response. split; [by apply Hrun|done].
Qed.
End Smooth.

(** ** A second change that is interrupted *)

Section Wedge.
Context `{TimeZones} `{ListenerCodec} {P : Type} `{ExecutorPolicy P} `{PolicyTargets P}.
Variable PlanIsNoOp : PortPlan.t -> bool.

(** The target has an applied-port record of an earlier change and an unfinished job, and
    the sidecar is no longer the file of that record. *)
Record stranded (w : world) (policy : P) (t : PortTarget.t) (a : Adapter.t) (s : Applied.t) (l : PortLedger.t) : Prop := {
  st_target : policy_target policy (PortTarget.ServiceID t) = Some t;
  st_adapter : exists svc, PortTarget.Unit t = Some svc /\ systemdPortAdapterFor (PortTarget.ServiceType t) svc = Ok a;
  st_applied : applied w !! appliedKey (PortTarget.ServiceID t) = Some s;
  st_sidecar : match sidecars w !! Adapter.SidecarPath a with
               | Some (_, body) => body <> systemdPortSidecarBytes (Adapter.ServiceType a) (PortTarget.Host t)
                                             (Applied.Port s) (Applied.ConfigRevision s)
               | None => True
               end;
  st_active : active w !! activeKey (PortTarget.ServiceID t) = Some (PortTarget.ServiceID t, ledger_job l);
  st_job : jobs w !! jobKey (PortTarget.ServiceID t) (ledger_job l) = Some l;
  st_state : PortLedger.State l ∈ PortLedger.unfinished;
}.

Context (w : world) (policy : P) (t : PortTarget.t) (a : Adapter.t) (s : Applied.t) (l : PortLedger.t).
Context (Hs : stranded w policy t a s l).

#[local] Abbreviation stays p Q := (wp (fun v => v = w) p (fun response v => v = w /\ Q response) w).

Lemma stuck_resolve : stays (resolveSystemdPortAppliedTarget policy t) (fun r => is_err r = true).
Proof.
  destruct Hs as [_ (svc & Eu & Ea) Eapp Hside _ _ _]. apply wp_bind_ok. unfold LoadApplied.
  apply wp_bind_ok, wp_port_require; [done| |done]. intros _.
  apply wp_bind_ok, (wp_port_observe _ _ (applied w !! appliedKey (PortTarget.ServiceID t))); [done|done| |done]. rewrite Eapp.
  apply wp_bind_ok, wp_port_require; [done| |done]. intros _. apply wp_ret; [done|].
  apply wp_bind_ok, wp_lift; [done| |done]. intros useOverlay _. apply wp_bind_ok. unfold VerifyAppliedSidecar.
  apply wp_bind_ok, wp_lift; [done| |done]. intros _ _. rewrite Eu. apply wp_bind_ok, wp_lift; [done| |done].
  intros a' Ea'. rewrite Ea in Ea'. injection Ea' as <-.
  apply wp_bind_ok, (wp_port_observe _ _ (sidecars w !! Adapter.SidecarPath a)); [done|done| |done].
  destruct (sidecars w !! Adapter.SidecarPath a) as [[mode body]|]; [|by apply wp_ret].
  apply wp_port_require; [done| |done]. intros Hb. bool_to_prop. by destruct Hside.
Qed.

Lemma stuck_continue rt request p ledger :
  stays (continue_job rt policy request p t a ledger) (fun r => is_err r = true).
Proof.
  apply wp_port_or_fail. eapply wp_mono; [|apply stuck_resolve]. intros [x|e] v _ [-> Hr]; [discriminate Hr|done].
Qed.

Definition own_job (request : PortRequest.t) : Prop :=
  exists p, PortRequest.Plan request = Some p /\ PortPlan.JobID p = ledger_job l.

Lemma stuck_execute rt request p a' :
  PortRequest.Plan request = Some p ->
  validateSystemdPortPolicyBinding PlanIsNoOp policy request p = Ok (t, a') ->
  PortPlan.TargetID p = PortTarget.ServiceID t ->
  stays (executeSystemdPortRequest PlanIsNoOp rt policy request) (fun r => own_job request -> is_err r = true).
Proof.
  intros Ep Eb Et. unfold executeSystemdPortRequest. rewrite Ep, Eb.
  destruct (binding_ok _ _ _ _ _ _ Eb) as (_ & _ & _ & svc & Eu & Ea).
  pose proof Hs as [_ (svc' & Eu' & Ea') _ _ Eact Ejob Hst].
  assert (a' = a) as -> by (rewrite Eu in Eu'; injection Eu' as ->; rewrite Ea in Ea'; by injection Ea').
  assert (Hn : PortLedger.State l <> LedgerTerminal /\ PortLedger.State l <> LedgerCommitting).
  { split; intros E; rewrite E in Hst; in_cases Hst. }
  assert (Hgo : forall ledger, stays (continue_job rt policy request p t a ledger) (fun r => own_job request -> is_err r = true)).
  { intros ledger. eapply wp_mono; [|apply stuck_continue]. intros r v _ [-> Hr]; split; [done|by intros _]. }
  assert (Hbusy : forall active ledger, on_disk w active -> ledger_target active = PortPlan.TargetID p ->
    PortEngine.active w !! activeKey (PortPlan.TargetID p) = Some (PortPlan.TargetID p, ledger_job active) ->
    (forall h, ledger = Some h -> on_disk w h /\ ledger_target h = PortPlan.TargetID p /\ ledger_job h = PortPlan.JobID p) ->
    stays (if busy_with_other (Some active) (PortPlan.JobID p) then failure "target_busy"
           else match ledger with
                | Some h => if PortLedger.State h ==? LedgerCommitting then
                              if PortRequest.Operation request !=? "port_reconfigure_reconcile" then failure "reconcile_required"
                              else repairSystemdPortCommit rt policy request p t a h
                            else continue_job rt policy request p t a ledger
                | None => continue_job rt policy request p t a ledger
                end) (fun r => own_job request -> is_err r = true)).
  { intros x ledger [Hx _] Etx Eax Hh. rewrite Et, Eact in Eax. injection Eax as Ejx.
    assert (x = l) as ->. { unfold ledger_key in Hx. rewrite Etx, Et, <- Ejx in Hx. congruence. }
    unfold busy_with_other. destruct (ledger_job l !=? PortPlan.JobID p) eqn:Eo.
    - rewrite bool_decide_false by apply Hn. by apply wp_ret.
    - cbn [andb]. bool_to_prop. destruct ledger as [h|]; [|apply Hgo]. destruct (Hh h eq_refl) as ([Hd _] & Eth & Ejh).
      assert (h = l) as ->. { unfold ledger_key in Hd. rewrite Eth, Ejh, Et, <- Eo in Hd. congruence. }
      rewrite bool_decide_false by apply Hn. apply Hgo. }
  apply wp_port_or_fail, wp_load_job; [done|done| |].
  - intros Hnone. cbn [settled]. apply wp_port_or_fail, wp_load_active; [done|done|by intros _; apply Hgo|]. intros x Hx Etx Eax.
    destruct (ledger_job x ==? PortPlan.JobID p) eqn:Ej.
    + bool_to_prop. destruct Hx as [Hx _]. unfold ledger_key in Hx. rewrite Etx, Ej in Hx. congruence.
    + by apply (Hbusy x None).
  - intros h Hd Eth Ejh. unfold settled. destruct (is_err _); [by apply wp_ret|].
    destruct (PortPlan.sameIntent _ _); cbn [negb]; [|by apply wp_ret].
    destruct (PortLedger.State h ==? LedgerTerminal) eqn:Eterm.
    { apply wp_ret; [done|]. split; [done|]. intros (q & Eq & Ejq). rewrite Ep in Eq. injection Eq as <-. bool_to_prop.
      assert (h = l) as ->; [|by destruct Hn]. destruct Hd as [Hd _]. unfold ledger_key in Hd. rewrite Eth, Ejh, Et, Ejq in Hd. congruence. }
    apply wp_port_or_fail, wp_load_active; [done|done|rewrite Et; congruence|].
    intros x Hx Etx Eax. apply (Hbusy x (Some h)); [done|done|done|]. by intros ? [= <-].
Qed.

(** C36: a target whose port was changed before does not recover from an interruption of
    the next change between the write of the sidecar and the recorded result.  Whatever
    request for this target comes, and however its operations come out, nothing changes
    and the unfinished job never gets a result: the record of the earlier change is
    compared with the sidecar, which the interrupted change has replaced, before the
    reconciliation that would repair it. *)
Theorem interrupted_second_change_is_stuck request answers :
  PortRequest.ServiceID request = PortTarget.ServiceID t ->
  (run (handleLocalExecutorSystemdPortMutation PlanIsNoOp policy request) answers w).1 = w /\
  (own_job request -> forall response,
     (run (handleLocalExecutorSystemdPortMutation PlanIsNoOp policy request) answers w).2 = Some response ->
     is_err response = true).
Proof.
  intros Eid. assert (Hw : stays (handleLocalExecutorSystemdPortMutation PlanIsNoOp policy request)
    (fun r => own_job request -> is_err r = true)).
  { unfold handleLocalExecutorSystemdPortMutation. destruct (PortRequest.Plan request) as [p|] eqn:Ep; [|by apply wp_ret].
    rewrite Eid, (st_target _ _ _ _ _ _ Hs). destruct (_ || _); [by apply wp_ret|].
    apply wp_port_or_fail, (wp_port_observe _ _ tt); [done|done| |done]. apply wp_port_or_fail, (wp_port_observe _ _ tt); [done|done| |done].
    apply wp_port_or_fail. unfold newPlatformSystemdPortExecution. destruct (PanelURL policy) as [url|]; [|by apply wp_ret].
    destruct (PortTarget.Unit t) as [svc|] eqn:Eu; [|by apply wp_ret].
    apply wp_bind_ok, wp_port_require; [done| |done]. intros _. apply wp_bind_ok, wp_lift; [done| |done]. intros a' Ea.
    apply wp_bind_ok, (wp_port_observe _ _ tt); [done|done| |done]. apply wp_bind_ok, (wp_port_observe _ _ tt); [done|done| |done].
    apply wp_ret; [done|]. set (rt := new_runtime _ _ _ _ _).
    destruct (validateSystemdPortPolicyBinding PlanIsNoOp policy request p) as [[t' a'']|] eqn:Eb.
    - pose proof (binding_ok _ _ _ _ _ _ Eb) as (Et' & Ept & _). rewrite <- Et', Eid, (st_target _ _ _ _ _ _ Hs) in Ept.
      injection Ept as <-. eapply stuck_execute; [done|done|congruence].
    - unfold executeSystemdPortRequest. rewrite Ep, Eb. by apply wp_ret. }
  destruct (wp_sound _ _ _ answers w Hw) as [E Hq]. split; [done|]. intros Ho response Er. by apply (Hq response Er).
Qed.
End Wedge.
