(* ===== verification/PortDemo.v ===== *)
(** A concrete service whose port is changed: a change that is applied, one that is
    interrupted and reconciled, and a second change that is interrupted.  The witnesses
    of the theorems about port changes run here. *)
From Stdlib Require Import Ascii String ZArith Lia.
From stdpp Require Import base decidable list strings gmap.
From S2P Require Import Prelude Strings Regexp Patterns Effects Sha256 Json Paths PlanDigest MutationLedger SelfUpdateGrant Grants PortPlan PortEngine PortAdmission PortSafety PortRecovery.

Open Scope string_scope.

#[local] Instance utc_only : TimeZones := fun _ => 0%Z.
#[local] Instance plain_codec : ListenerCodec := fun service address revision =>
  Some (service +:+ " " +:+ address +:+ " " +:+ FormatInt revision).

Definition demo_sha : string := "sha256:0123456789abcdef0123456789abcdef0123456789abcdef0123456789abcdef".
#[local] Instance demo_policy : ExecutorPolicy unit := {|
  HostID := fun _ => "host-1"; SchemaVersion := fun _ => 2%Z; ProtocolVersion := fun _ => 2%Z;
  SourcePolicyRevision := fun _ => 3%Z; ProjectionRevision := fun _ => 4%Z; PolicyRevision := fun _ => 5%Z;
  PanelURL := fun _ => Some "https://panel.example"; Policy_Validate := fun _ => Ok tt;
  Policy_SHA256 := fun _ => Ok demo_sha |}.

Definition sidecar (port revision : Z) : string := systemdPortSidecarBytes "worker" "127.0.0.1" port revision.

Definition worker : PortTarget.t := Eval vm_compute in
  PortTarget.mk "target-1" "worker" ModeSystemd 1 1 (systemdPortSidecarSHA256 (sidecar 8101 1)) "127.0.0.1" 8101
    (Some "autostream-worker.service").

#[local] Instance demo_targets : PolicyTargets unit := {|
  policy_target := fun _ id => if id ==? "target-1" then Some worker else None; target_valid := fun _ => true |}.

Definition no_op (p : PortPlan.t) : bool := false.

(** The plan that moves the port and advances both revisions by one. *)
Definition draft (job : string) (old new endpoint config : Z) : PortPlan.t :=
  PortPlan.mk false "" job "host-1" "target-1" "worker" NamespaceHost ProtocolTCP old new endpoint (endpoint + 1)
    config (config + 1) (systemdPortSidecarSHA256 (sidecar old config)) (systemdPortSidecarSHA256 (sidecar new (config + 1)))
    3 4 5 demo_sha 7 1 "session-0123456789" "" None.

Definition seal (p : PortPlan.t) : PortPlan.t :=
  match PortPlan.ComputePortPlanSHA256 p with Ok d => p <| PortPlan.PortPlanSHA256 := d |> | Err _ => p end.

Definition plan1 : PortPlan.t := Eval vm_compute in seal (draft "job-1" 8101 8102 1 1).
Definition plan2 : PortPlan.t := Eval vm_compute in seal (draft "job-2" 8102 8103 2 2).

Definition ask (operation : string) (p : PortPlan.t) : PortRequest.t :=
  PortRequest.mk 2 operation "target-1" (Some p) 3 7 4 5 "grant-secret" None false.

#[local] Instance lenient_grants : GrantContracts := {|
  ValidateUpdaterMutationGrantBinding := fun _ _ => Ok tt;
  UpdaterDesiredSoftwareUpdate := "software_update";
  UpdaterDesiredPortReconfigure := "port_reconfigure";
  UpdaterTargetApplication := "application" |}.

(** The same request under the later grant contract. *)
Definition v2_binding (operation : string) (p : PortPlan.t) : V2Binding.t :=
  V2Binding.mk operation (PortPlan.SessionID p) (PortPlan.LeaseGeneration p)
    (GrantCommand.mk "command-1" demo_sha
       (GrantAuthorization.mk (PortPlan.JobID p) "updater-1" (PortPlan.HostID p) 4 7
          (GrantTarget.mk "application" "target-1" "worker" ModeSystemd (PortPlan.ExpectedConfigRevision p)))
       (DesiredOperation.mk "port_reconfigure" None (Some (desired_port p)))).

Definition ask_v2 (operation : string) (p : PortPlan.t) : PortRequest.t :=
  PortRequest.mk 2 operation "target-1" (Some p) 3 7 4 5 "grant-secret" (Some (v2_binding operation p)) false.

Definition host : world := World ∅ ∅ ∅ {[ "/opt/autostream/local-executor/ports/worker.json" := (384%Z, sidecar 8101 1) ]} [].

Definition fine : answer := Smooth (fun _ _ => Some "v1.2.3").
Definition serve (n : nat) (request : PortRequest.t) (w : world) : world :=
  (run (let* _ := handleLocalExecutorSystemdPortMutation no_op tt request in Ret tt) (repeat fine n) w).1.
Definition answer_of (n : nat) (request : PortRequest.t) (w : world) : option port_response :=
  (run (handleLocalExecutorSystemdPortMutation no_op tt request) (repeat fine n) w).2.


(** The first change is applied; the first change is cut off after its sidecar is written;
    after the first change, the second one is cut off there. *)
Definition moved : world := Eval vm_compute in serve 100 (ask "port_reconfigure" plan1) host.
Definition cut : world := Eval vm_compute in serve 29 (ask "port_reconfigure" plan1) host.
Definition cut_again : world := Eval vm_compute in serve 31 (ask "port_reconfigure" plan2) moved.

Definition the_job (p : PortPlan.t) (w : world) : PortLedger.t :=
  default (PortLedger.mk 0 p "" (Checkpoint.new false 0 "") "" "" None) (jobs w !! jobKey "target-1" (PortPlan.JobID p)).

Lemma port_serve_history n request w v : history (port_entry no_op) w v -> history (port_entry no_op) w (serve n request v).
Proof. intros Hh. apply history_run; [done|]. constructor. Qed.

(** A request from the socket on. *)
Definition submit (n : nat) (request : PortRequest.t) (w : world) : world :=
  (run (let* _ := handleLocalExecutorMutation no_op GoTime.zero tt (Ret (Err "")) request in Ret tt) (repeat fine n) w).1.

Lemma worker_only id t : policy_target tt id = Some t -> PortTarget.DeploymentMode t <> ModeDocker.
Proof. cbn. destruct (id ==? "target-1"); [|done]. by intros [= <-]. Qed.

Lemma submit_history n request w v : history (request_entry no_op) w v -> history (request_entry no_op) w (submit n request v).
Proof. intros Hh. apply history_run; [done|]. constructor. intros t. apply worker_only. Qed.

Lemma host_idle : idle host.
Proof. split; [reflexivity|]. intros key l. cbn. by rewrite lookup_empty. Qed.

(** A change that is applied under a v2 grant, and another one, under a grant of the first
    contract, that is cut off after its sidecar is written. *)
Definition both_changes : world := submit 35 (ask "port_reconfigure" plan2) (submit 100 (ask_v2 "port_reconfigure" plan1) host).

Definition is_v2 (e : event) : bool := match e with EGranted _ (PresentedV2 _) _ => true | _ => false end.
Definition is_write (e : event) : bool := match e with ESidecar _ _ _ _ => true | _ => false end.


(** The first job is terminal and stays so while the second one is cut off. *)
Lemma port_jobs_refine_machine_witness :
  let v := serve 31 (ask "port_reconfigure" plan2) moved in
  (forall key, rtc job_step (jobs moved !! key) (jobs v !! key)) /\
  (forall key l, jobs moved !! key = Some l -> PortLedger.State l = LedgerTerminal -> jobs v !! key = Some l).
Proof. apply (port_jobs_refine_machine no_op moved). apply port_serve_history, history_refl. Defined.

Lemma answered (out : world * option port_response) kind :
  match out.2 with Some (Ok (r, _, _)) => PortResult.Result r = kind | _ => False end ->
  exists v r session digest, out = (v, Some (Ok (r, session, digest))) /\ PortResult.Result r = kind.
Proof. destruct out as [v [[[[r session] digest]|e]|]]; cbn; [|done|done]. intros E. by exists v, r, session, digest. Qed.

Lemma first_answer : exists v r session digest,
  run (handleLocalExecutorSystemdPortMutation no_op tt (ask "port_reconfigure" plan1)) (repeat fine 100) host =
    (v, Some (Ok (r, session, digest))) /\ PortResult.Result r = ResultApplied.
Proof. apply answered. vm_compute. reflexivity. Qed.

Lemma port_results_are_true_witness : exists v r session digest p t a l,
  run (handleLocalExecutorSystemdPortMutation no_op tt (ask "port_reconfigure" plan1)) (repeat fine 100) host =
    (v, Some (Ok (r, session, digest))) /\ PortResult.Result r = ResultApplied /\
  PortRequest.Plan (ask "port_reconfigure" plan1) = Some p /\
    validateSystemdPortPolicyBinding no_op tt (ask "port_reconfigure" plan1) p = Ok (t, a) /\
    session = PortPlan.SessionID p /\ digest = PortPlan.PortPlanSHA256 p /\
    jobs v !! jobKey (PortPlan.TargetID p) (PortPlan.JobID p) = Some l /\ PortPlan.sameIntent (PortLedger.Plan l) p = true /\
    PortLedger.State l = LedgerTerminal /\ PortLedger.Result l = Some r /\
    (jobs host !! jobKey (PortPlan.TargetID p) (PortPlan.JobID p) = Some l \/
     PortResult.Result r = ResultRollbackFailed \/ true_now a v r).
Proof.
  destruct first_answer as (v & r & session & digest & Er & E).
  exists v, r, session, digest.
  destruct (port_results_are_true no_op host v tt (ask "port_reconfigure" plan1) (repeat fine 100) r session digest Er)
    as (p & t & a & l & Hrest). exists p, t, a, l. split; [exact Er|]. split; [exact E|exact Hrest].
Defined.

Definition worker_adapter : Adapter.t :=
  Adapter.mk "autostream-worker.service" "/opt/autostream/local-executor/ports/worker.json" "worker".

Lemma cut_recoverable :
  recoverable no_op cut tt (ask "port_reconfigure_reconcile" plan1) plan1 worker worker_adapter (the_job plan1 cut).
Proof.
  constructor; try (vm_compute; reflexivity). right. vm_compute. reflexivity.
Qed.

Lemma cut_before_result : interruption cut plan1 worker (the_job plan1 cut) None.
Proof. constructor; [apply list_elem_of_In; vm_compute; tauto|vm_compute; reflexivity..]. Qed.

Lemma cut_calm : calm (fun _ _ => Some "v1.2.3") cut worker worker_adapter (the_job plan1 cut).
Proof.
  split_and!; [right; vm_compute; reflexivity|vm_compute; reflexivity|intros _; vm_compute; reflexivity|done].
Qed.

(** The first change cut off when its result and the applied state are written. *)
Definition committing : world := Eval vm_compute in serve 38 (ask "port_reconfigure" plan1) host.

Lemma committing_recoverable :
  recoverable no_op committing tt (ask "port_reconfigure_reconcile" plan1) plan1 worker worker_adapter (the_job plan1 committing).
Proof. constructor; try (vm_compute; reflexivity). right. vm_compute. reflexivity. Qed.

Lemma committing_after_result : interruption committing plan1 worker (the_job plan1 committing) (Some (applied_result plan1)).
Proof. apply (after_result _ _ _ _ ResultApplied); vm_compute; reflexivity. Qed.

(** Both interruptions of the first change are closed. *)
Lemma interrupted_port_change_is_closed_witness :
  (PortLedger.State (the_job plan1 cut) = LedgerSidecarWritten /\
   exists n, forall m, n <= m -> exists v r,
    run (handleLocalExecutorSystemdPortMutation no_op tt (ask "port_reconfigure_reconcile" plan1)) (repeat fine m) cut =
      (v, Some (Ok (r, PortPlan.SessionID plan1, PortPlan.PortPlanSHA256 plan1))) /\
    closed plan1 r v /\ PortResult.Result r <> ResultRollbackFailed) /\
  (bool_decide (applied committing !! appliedKey "target-1" = None) = false /\
   exists n, forall m, n <= m -> exists v response,
    run (handleLocalExecutorSystemdPortMutation no_op tt (ask "port_reconfigure_reconcile" plan1)) (repeat fine m) committing =
      (v, Some response) /\ finishes (fun _ _ => Some "v1.2.3") plan1 committing worker worker_adapter (applied_result plan1) response v).
Proof.
  split.
  - split; [vm_compute; reflexivity|].
    destruct (interrupted_port_change_is_closed no_op (fun _ _ => Some "v1.2.3") cut tt (ask "port_reconfigure_reconcile" plan1)
                plan1 worker worker_adapter (the_job plan1 cut) None cut_recoverable cut_before_result) as [n Hn].
    exists n. intros m Hm. destruct (Hn m Hm) as (v & response & Er & r & -> & Hc & Hk).
    exists v, r. split; [exact Er|]. split; [exact Hc|]. apply Hk, cut_calm.
  - split; [vm_compute; reflexivity|].
    exact (interrupted_port_change_is_closed no_op (fun _ _ => Some "v1.2.3") committing tt (ask "port_reconfigure_reconcile" plan1)
             plan1 worker worker_adapter (the_job plan1 committing) _ committing_recoverable committing_after_result).
Defined.

Definition earlier : Applied.t :=
  default (systemdPortAppliedStateForResult plan2 (applied_result plan2)) (applied cut_again !! appliedKey "target-1").

Lemma cut_again_stranded : stranded cut_again tt worker worker_adapter earlier (the_job plan2 cut_again).
Proof.
  constructor; try (vm_compute; reflexivity).
  - exists "autostream-worker.service". split; vm_compute; reflexivity.
  - vm_compute. discriminate.
  - apply list_elem_of_In. vm_compute. tauto.
Qed.

(** The interrupted second change stays as it is, and its own reconcile request fails. *)
Lemma interrupted_second_change_is_stuck_witness :
  (run (handleLocalExecutorSystemdPortMutation no_op tt (ask "port_reconfigure_reconcile" plan2)) (repeat fine 100) cut_again).1 = cut_again /\
  forall response,
    (run (handleLocalExecutorSystemdPortMutation no_op tt (ask "port_reconfigure_reconcile" plan2)) (repeat fine 100) cut_again).2 =
      Some response -> is_err response = true.
Proof.
  destruct (interrupted_second_change_is_stuck no_op cut_again tt worker worker_adapter earlier (the_job plan2 cut_again)
    cut_again_stranded (ask "port_reconfigure_reconcile" plan2) (repeat fine 100) eq_refl) as [Hw Hr].
  split; [exact Hw|]. apply Hr. exists plan2. split; vm_compute; reflexivity.
Defined.
