(* ===== verification/AgentPolicy.v ===== *)
(** The host agent's view of its host ([host_pull_panel.go], [host_pull_agent.go],
    [host_pull_observation.go], the readiness checks of [host_pull_execution.go] and
    [host_pull_recovery_control.go]): the binding of its registration, the policy the
    Panel projects for it, the observations of the targets, and when jobs may run. *)
From Stdlib Require Import Ascii String ZArith Lia.
From stdpp Require Import base decidable list strings gmap.
From S2P Require Import Prelude Strings Regexp Patterns Sha256 Json SelfUpdateState SelfUpdateGrant PlanDigest DockerPin FileTree Artifact Release TokenRotation PortPlan.

Open Scope string_scope.

(** [HostAgentEndpoint]. *)
Module Endpoint.
Record t := mk { Host : string; Port : Z; SSLEnabled : bool; PublicURL : string }.

#[global] Instance eq_dec : EqDecision t.
Proof. solve_decision. Defined.

(** [validateOptionalHostAgentEndpoint] on an endpoint that is there. *)
Definition validate `{Formats} (e : t) : check :=
  let host := TrimSpace (Host e) in
  let publicURL := TrimSpace (PublicURL e) in
  if (Host e !=? host) || (PublicURL e !=? publicURL) || (host ==? "") || (Port e <? 1)%Z || (65535 <? Port e)%Z ||
     match parse_url publicURL with
     | None => true
     | Some u => (Url.Host u ==? "") || ((Url.Scheme u !=? "http") && (Url.Scheme u !=? "https"))
     end
  then Err "host agent policy endpoint is invalid" else Ok tt.
End Endpoint.

Definition validateOptionalHostAgentEndpoint `{Formats} (e : option Endpoint.t) : check :=
  match e with None => Ok tt | Some e => Endpoint.validate e end.

(** [HostAgentPolicyTarget]. *)
Module PolicyTarget.
Record t := mk {
  ServiceID : string;
  ServiceType : string;
  DeploymentMode : string;
  EndpointRevision : Z;
  AppliedEndpointRevision : Z;
  AppliedConfigRevision : Z;
  AppliedConfigSHA256 : string;
  DesiredEndpoint : option Endpoint.t;
  AppliedEndpoint : option Endpoint.t;
  LocalListenEndpoint : option Endpoint.t;
  LocalHealthEndpoint : option Endpoint.t;
}.

Definition appliedConfigRevision (t : t) : Z :=
  if (0 <? AppliedConfigRevision t)%Z then AppliedConfigRevision t else 1%Z.

(** One round of the loop over the targets in [validateForService]. *)
Definition validate `{Formats} (seen : list string) (t : t) : check :=
  let serviceID := TrimSpace (ServiceID t) in
  let serviceType := TrimSpace (ServiceType t) in
  let deploymentMode := TrimSpace (DeploymentMode t) in
  if (ServiceID t !=? serviceID) || (ServiceType t !=? serviceType) || (DeploymentMode t !=? deploymentMode) ||
     negb (re_match identifierPattern serviceID)
  then Err "host agent policy target identity is invalid"
  else if existsb (String.eqb serviceID) seen then Err "host agent policy target identity is duplicated"
  else if negb (existsb (String.eqb serviceType) MutationPlan.service_types)
  then Err "host agent policy target type is invalid"
  else if (deploymentMode !=? ModeSystemd) && (deploymentMode !=? ModeDocker)
  then Err "host agent policy deployment mode is invalid"
  else if (EndpointRevision t <? 0)%Z || (AppliedEndpointRevision t <? 0)%Z || (AppliedConfigRevision t <? 0)%Z ||
     ((AppliedConfigSHA256 t !=? "") && negb (re_match digestPattern (AppliedConfigSHA256 t)))
  then Err "host agent policy target config revision is invalid"
  else
    let! _ := validateOptionalHostAgentEndpoint (DesiredEndpoint t) in
    let! _ := validateOptionalHostAgentEndpoint (AppliedEndpoint t) in
    let! _ := validateOptionalHostAgentEndpoint (LocalListenEndpoint t) in
    let! _ := match LocalListenEndpoint t with
              | Some e => if (Endpoint.Port e <? 1024)%Z
                          then Err "host agent local listen endpoint must use an unprivileged port" else Ok tt
              | None => Ok tt
              end in
    validateOptionalHostAgentEndpoint (LocalHealthEndpoint t).
End PolicyTarget.

(** [HostAgentBinding]. *)
Module AgentBinding.
Record t := mk {
  ServiceID : string;
  ServiceType : string;
  TransportMode : string;
  ExecutionHostID : string;
  OwnershipEpoch : Z;
}.

Definition validateForService (b : t) (serviceID : string) : check :=
  let trimmedServiceID := TrimSpace (ServiceID b) in
  let trimmedHostID := TrimSpace (ExecutionHostID b) in
  if (ServiceID b !=? trimmedServiceID) || (ExecutionHostID b !=? trimmedHostID) ||
     (trimmedServiceID !=? TrimSpace serviceID) || (ServiceType b !=? ServiceTypeUpdateAgent) ||
     (TransportMode b !=? HostTransportPullV2) || negb (validExecutionHostID trimmedHostID) ||
     (OwnershipEpoch b <? 0)%Z
  then Err "host agent registration binding is invalid" else Ok tt.
End AgentBinding.

Definition validHostSelfUpdateDirectiveStatus (status : string) : bool :=
  existsb (String.eqb status) ["queued"; "staging"; "activating"; "verifying"; "rolling_back"].

(** [HostAgentPolicy]. *)
Module Policy.
Record t := mk {
  ServiceID : string;
  TransportMode : string;
  ExecutionHostID : string;
  OwnershipEpoch : Z;
  Revision : Z;
  SourcePolicyRevision : Z;
  LocalExecutorPolicyRevision : Z;
  ObserveOnly : bool;
  LocalExecutorPolicySHA256 : string;
  RuntimeRequirement : option Requirement.t;
  SelfUpdate : option Request.t;
  SelfUpdateID : string;
  SelfUpdateRevision : Z;
  SelfUpdateStatus : string;
  RuntimeTokenRotation : option Rotation.t;
  Targets : list PolicyTarget.t;
}.

(** The binding a policy stands for. *)
Definition binding (p : t) : AgentBinding.t :=
  AgentBinding.mk (ServiceID p) ServiceTypeUpdateAgent (TransportMode p) (ExecutionHostID p) (OwnershipEpoch p).

Definition target_runtime (r : Request.t) : Compatibility.t :=
  Compatibility.mk (Request.AgentVersion r) (Request.ExecutorVersion r) (Request.AgentProtocolVersion r)
    (Request.ExecutorProtocolVersion r) (Request.MutationProtocolVersion r) (Request.RecoveryProtocolVersion r).

(** The self-update part of [validateForService]. *)
Definition validate_self_update (p : t) : check :=
  match SelfUpdate p with
  | Some r =>
      match RuntimeRequirement p with
      | None => Err "host agent self-update directive is invalid"
      | Some requirement =>
          if (OwnershipEpoch p <? 1)%Z || is_err (Request.validate r) ||
             negb (re_match identifierPattern (SelfUpdateID p)) || (SelfUpdateRevision p <? 1)%Z ||
             negb (validHostSelfUpdateDirectiveStatus (SelfUpdateStatus p))
          then Err "host agent self-update directive is invalid"
          else if is_err (ValidateHostRuntimeCompatibility (target_runtime r) requirement)
          then Err "host agent self-update does not satisfy the runtime requirement"
          else Ok tt
      end
  | None =>
      if SelfUpdateStatus p ==? "cancel_requested" then
        if negb (re_match identifierPattern (SelfUpdateID p)) || (SelfUpdateRevision p <? 1)%Z ||
           set (RuntimeRequirement p)
        then Err "host agent self-update cancellation is invalid" else Ok tt
      else if (SelfUpdateID p !=? "") || (SelfUpdateRevision p !=? 0)%Z || (SelfUpdateStatus p !=? "") ||
         set (RuntimeRequirement p)
      then Err "host agent self-update metadata is incomplete" else Ok tt
  end.

Definition validate_rotation (p : t) : check :=
  match RuntimeTokenRotation p with
  | None => Ok tt
  | Some r =>
      if is_err (Rotation.Validate r) || (OwnershipEpoch p <? 1)%Z || (Rotation.ServiceID r !=? ServiceID p) ||
         (Rotation.ExecutionHostID r !=? ExecutionHostID p) ||
         (Rotation.ExpectedOwnershipEpoch r !=? OwnershipEpoch p)%Z ||
         (Rotation.ExpectedSourcePolicyRevision r !=? SourcePolicyRevision p)%Z ||
         (Rotation.ExpectedProjectionRevision r !=? Revision p)%Z ||
         (Rotation.ExpectedLocalExecutorPolicyRevision r !=? LocalExecutorPolicyRevision p)%Z
      then Err "host agent runtime token rotation directive is invalid"
      else if set (SelfUpdate p) then Err "host lifecycle directives overlap"
      else Ok tt
  end.

Fixpoint validate_targets `{Formats} (seen : list string) (l : list PolicyTarget.t) : check :=
  match l with
  | [] => Ok tt
  | t :: l => let! _ := PolicyTarget.validate seen t in validate_targets (PolicyTarget.ServiceID t :: seen) l
  end.

Definition validateForService `{Formats} (p : t) (serviceID : string) (currentRevision : Z) : check :=
  if is_err (AgentBinding.validateForService (binding p) serviceID) || (Revision p <? 1)%Z ||
     (Revision p <? currentRevision)%Z || (SourcePolicyRevision p <? 1)%Z ||
     negb (Bool.eqb (ObserveOnly p) (OwnershipEpoch p =? 0)%Z)
  then Err "host agent policy identity, revision, or mode is invalid"
  else
    let! _ :=
      if (OwnershipEpoch p =? 0)%Z then
        if negb (Bool.eqb (LocalExecutorPolicyRevision p =? 0)%Z (LocalExecutorPolicySHA256 p ==? "")) ||
           (LocalExecutorPolicyRevision p <? 0)%Z ||
           ((LocalExecutorPolicySHA256 p !=? "") && negb (re_match digestPattern (LocalExecutorPolicySHA256 p)))
        then Err "host agent local executor policy binding is invalid" else Ok tt
      else if (LocalExecutorPolicyRevision p <? 1)%Z || negb (re_match digestPattern (LocalExecutorPolicySHA256 p))
      then Err "host agent local executor policy digest is invalid" else Ok tt in
    let! _ := match RuntimeRequirement p with Some r => Requirement.validate r | None => Ok tt end in
    let! _ := validate_self_update p in
    let! _ := validate_rotation p in
    validate_targets [] (Targets p).
End Policy.

Definition hostPullPolicyTarget (policy : Policy.t) (serviceID : string) : option PolicyTarget.t :=
  List.find (fun t => PolicyTarget.ServiceID t ==? serviceID) (Policy.Targets policy).

(** ** Observations *)

Definition TargetAvailabilityAvailable : string := "available".
Definition TargetAvailabilityUnavailable : string := "unavailable".
Definition TargetAvailabilityUnknown : string := "unknown".

(** [HostDockerPortObservation]. *)
Module DockerObservation.
Record t := mk {
  CapabilityVersion : string;
  AdvertisedPort : Z;
  PublishedPort : Z;
  ContainerPort : Z;
  HealthPort : Z;
  ComposePolicySHA256 : string;
  ComposeConfigSHA256 : string;
  ComposeRevision : Z;
  VersionEnvSHA256 : string;
  ContainerID : string;
  ImageID : string;
  RepositoryDigest : string;
}.
End DockerObservation.

(** [HostTargetObservation]: the fields the agent's own checks read. *)
Module TargetObservation.
Record t := mk {
  ServiceID : string;
  Availability : string;
  AvailabilityCode : string;
  ReportedPort : Z;
  ReportedServiceType : string;
  ReportedDeploymentMode : string;
  PolicyRevision : Z;
  PolicySHA256 : string;
  ConfigRevision : Z;
  ConfigSHA256 : string;
  Docker : option DockerObservation.t;
}.

#[global] Instance eta_t : Eta t := fun o =>
  mk (ServiceID o) (Availability o) (AvailabilityCode o) (ReportedPort o) (ReportedServiceType o)
     (ReportedDeploymentMode o) (PolicyRevision o) (PolicySHA256 o) (ConfigRevision o) (ConfigSHA256 o) (Docker o).
End TargetObservation.

Definition dockerPortCapabilityVersion : string := "v1".

Definition validHostDockerPortObservation (o : DockerObservation.t) : bool :=
  (DockerObservation.CapabilityVersion o ==? dockerPortCapabilityVersion) &&
  (1 <=? DockerObservation.AdvertisedPort o)%Z && (DockerObservation.AdvertisedPort o <=? 65535)%Z &&
  validSystemdPort (DockerObservation.PublishedPort o) && validSystemdPort (DockerObservation.ContainerPort o) &&
  (DockerObservation.HealthPort o ==? DockerObservation.PublishedPort o)%Z &&
  re_match mutationPlanHashPattern (DockerObservation.ComposePolicySHA256 o) &&
  (1 <=? DockerObservation.ComposeRevision o)%Z &&
  re_match digestPattern (DockerObservation.VersionEnvSHA256 o) &&
  (len (DockerObservation.ContainerID o) ==? 64)%Z &&
  re_match dockerContainerIDPattern (DockerObservation.ContainerID o) &&
  re_match digestPattern (DockerObservation.ImageID o) &&
  re_match digestPattern (DockerObservation.RepositoryDigest o).

(** One observation after the agent's clean-up in [observe]. *)
Definition sanitize (o : TargetObservation.t) : TargetObservation.t :=
  let keep_digest s := if (s !=? "") && negb (re_match digestPattern s) then "" else s in
  let keep_count n := if (n <? 0)%Z then 0%Z else n in
  let o := o <| TargetObservation.Availability :=
    if existsb (String.eqb (TargetObservation.Availability o))
         [TargetAvailabilityAvailable; TargetAvailabilityUnavailable; TargetAvailabilityUnknown]
    then TargetObservation.Availability o else TargetAvailabilityUnknown |> in
  let o := o <| TargetObservation.ReportedPort :=
    if (TargetObservation.ReportedPort o <? 0)%Z || (65535 <? TargetObservation.ReportedPort o)%Z then 0%Z
    else TargetObservation.ReportedPort o |> in
  let o := o <| TargetObservation.ReportedServiceType :=
    if (TargetObservation.ReportedServiceType o !=? "") &&
       negb (existsb (String.eqb (TargetObservation.ReportedServiceType o)) MutationPlan.service_types)
    then "" else TargetObservation.ReportedServiceType o |> in
  let o := o <| TargetObservation.ReportedDeploymentMode :=
    if (TargetObservation.ReportedDeploymentMode o !=? "") &&
       (TargetObservation.ReportedDeploymentMode o !=? ModeSystemd) &&
       (TargetObservation.ReportedDeploymentMode o !=? ModeDocker)
    then "" else TargetObservation.ReportedDeploymentMode o |> in
  let o := o <| TargetObservation.PolicyRevision := keep_count (TargetObservation.PolicyRevision o) |> in
  let o := o <| TargetObservation.PolicySHA256 := keep_digest (TargetObservation.PolicySHA256 o) |> in
  let o := o <| TargetObservation.ConfigRevision := keep_count (TargetObservation.ConfigRevision o) |> in
  let o := o <| TargetObservation.ConfigSHA256 := keep_digest (TargetObservation.ConfigSHA256 o) |> in
  let o := o <| TargetObservation.Docker :=
    match TargetObservation.Docker o with
    | Some d => if validHostDockerPortObservation d then Some d else None
    | None => None
    end |> in
  o <| TargetObservation.AvailabilityCode :=
    if re_match identifierPattern (TrimSpace (TargetObservation.AvailabilityCode o))
    then TargetObservation.AvailabilityCode o else "" |>.

(** The loop of [observe]: targets of the policy only, each once, the first one wins. *)
Fixpoint filter_observations (allowed seen : list string) (l : list TargetObservation.t) : list TargetObservation.t :=
  match l with
  | [] => []
  | o :: l =>
      let serviceID := TrimSpace (TargetObservation.ServiceID o) in
      if negb (existsb (String.eqb serviceID) allowed) || existsb (String.eqb serviceID) seen
      then filter_observations allowed seen l
      else sanitize (o <| TargetObservation.ServiceID := serviceID |>) ::
           filter_observations allowed (serviceID :: seen) l
  end.

Definition observe_targets (policy : Policy.t) (l : list TargetObservation.t) : list TargetObservation.t :=
  filter_observations (map PolicyTarget.ServiceID (Policy.Targets policy)) [] l.

(** [observed]: the last observation of a service. *)
Definition observed (l : list TargetObservation.t) : gmap string TargetObservation.t :=
  foldl (fun m o => <[TargetObservation.ServiceID o := o]> m) ∅ l.

Definition localExecutorConfigDigestMatchesTarget (policy : Policy.t) (target : PolicyTarget.t)
    (reportedDigest : string) : bool :=
  if negb (re_match digestPattern reportedDigest) then false
  else if PolicyTarget.AppliedConfigSHA256 target !=? "" then
    re_match digestPattern (PolicyTarget.AppliedConfigSHA256 target) &&
    (reportedDigest ==? PolicyTarget.AppliedConfigSHA256 target)
  else
    (Policy.TransportMode policy ==? HostTransportPullV2) && Policy.ObserveOnly policy &&
    (Policy.OwnershipEpoch policy ==? 0)%Z && (PolicyTarget.DeploymentMode target ==? ModeSystemd).

(** ** Readiness *)

(** The parts the agent was built with. *)
Module Parts.
Record t := mk {
  Executor : bool;
  PortExecutor : bool;
  Downloader : bool;
  NewSessionID : bool;
  ExecutionControlPlane : bool;        (** the control plane hands out jobs *)
}.
End Parts.

Definition target_ready (policy : Policy.t) (o : gmap string TargetObservation.t) (target : PolicyTarget.t) : bool :=
  match o !! PolicyTarget.ServiceID target with
  | None => false
  | Some observation =>
      (TargetObservation.Availability observation ==? TargetAvailabilityAvailable) &&
      (TargetObservation.PolicyRevision observation ==? Policy.LocalExecutorPolicyRevision policy)%Z &&
      (TargetObservation.PolicySHA256 observation ==? Policy.LocalExecutorPolicySHA256 policy) &&
      (TargetObservation.ConfigRevision observation ==? PolicyTarget.appliedConfigRevision target)%Z &&
      localExecutorConfigDigestMatchesTarget policy target (TargetObservation.ConfigSHA256 observation)
  end.

Definition executorReady (parts : Parts.t) (policy : option Policy.t) (observations : list TargetObservation.t)
    (observationFailed : bool) : bool :=
  match policy with
  | None => false
  | Some policy =>
      if observationFailed || negb (Parts.Executor parts) || negb (Parts.Downloader parts) ||
         negb (Parts.NewSessionID parts) || (Policy.TransportMode policy !=? HostTransportPullV2) ||
         (Policy.Revision policy <? 1)%Z || (Policy.SourcePolicyRevision policy <? 1)%Z ||
         (Policy.LocalExecutorPolicyRevision policy <? 1)%Z || (Policy.LocalExecutorPolicySHA256 policy ==? "")
      then false
      else
        Parts.ExecutionControlPlane parts &&
        forallb (target_ready policy (observed observations)) (Policy.Targets policy) &&
        negb (match Policy.Targets policy with [] => true | _ => false end)
  end.

Definition mutationCapabilityReady (parts : Parts.t) (binding : AgentBinding.t) (policy : option Policy.t)
    (observations : list TargetObservation.t) (observationFailed : bool) : bool :=
  executorReady parts policy observations observationFailed &&
  match policy with
  | None => false
  | Some policy =>
      negb (Policy.ObserveOnly policy) && (AgentBinding.TransportMode binding ==? HostTransportPullV2) &&
      (0 <? AgentBinding.OwnershipEpoch binding)%Z && (Policy.TransportMode policy ==? HostTransportPullV2) &&
      (Policy.ExecutionHostID policy ==? AgentBinding.ExecutionHostID binding) &&
      (Policy.OwnershipEpoch policy ==? AgentBinding.OwnershipEpoch binding)%Z
  end.

Definition mutationReady (parts : Parts.t) (binding : AgentBinding.t) (policy : option Policy.t)
    (observations : list TargetObservation.t) (observationFailed : bool) : bool :=
  mutationCapabilityReady parts binding policy observations observationFailed &&
  match policy with Some policy => negb (set (Policy.RuntimeTokenRotation policy)) | None => false end.
