(* ===== verification/AgentClaims.v ===== *)
(** What the host agent accepts from the Panel before it runs a job
    ([host_pull_claim_validation.go], [software_claim_binding.go],
    [software_claim_snapshot.go], [host_pull_execution_grants.go]): claims, terminal
    clears, and the grants for a mutation.

    The binding of a v2 grant is the record of [Grants].  The fields of a port payload are read through [PortFields]. *)
From Stdlib Require Import Ascii String ZArith Lia.
From stdpp Require Import base decidable list strings gmap.
From S2P Require Import Prelude Strings Regexp Patterns Sha256 Json SelfUpdateState SelfUpdateGrant PlanDigest Jobs Journal Grants AgentPolicy.

Open Scope string_scope.

(** ** Grants *)

(** [MutationGrant]. *)
Module Grant.
Record t := mk { Token : string; ExpiresAt : string; v2 : option V2Binding.t }.

#[global] Instance t_eq_dec : EqDecision t.
Proof. solve_decision. Defined.
End Grant.

(** [MutationGrantRequest] for a software update. *)
Module GrantRequest.
Record t := mk {
  ServiceID : string;
  LeaseToken : string;
  LeaseGeneration : Z;
  HostID : string;
  TransportMode : string;
  OwnershipEpoch : Z;
  PolicyRevision : Z;
  TargetID : string;
  TargetVersion : string;
  ServiceType : string;
  DeploymentMode : string;
  Operation : string;
  PlanSHA256 : string;
  SessionID : string;
}.
End GrantRequest.

(** ** The fields of a port payload *)

Class PortFields `{PortContracts} := {
  ExpectedSourcePolicyRevision : PortBinding -> Z;
  ExpectedUpdaterPolicyRevision : PortBinding -> Z;
  ExpectedExecutorPolicyRevision : PortBinding -> Z;
  ExpectedExecutorPolicySHA256 : PortBinding -> string;
  ExpectedConfigRevision : PortBinding -> Z;
  ExpectedConfigSHA256 : PortBinding -> string;
  OldPort : PortBinding -> Z;
  NewPort : PortBinding -> Z;
  DockerFields : PortBinding -> option (string * Z);      (** [PublishedHostIP] and [OldHealthPort] *)
  Before_ProjectionRevision : PortBinding -> Z;
  Before_ConfigRevision : PortBinding -> Z;
  Target_ConfigRevision : PortBinding -> Z;
  portClaimPolicyMatches : Job.t -> Policy.t -> PolicyTarget.t -> bool;
  RollbackFailedReport : PortReport -> bool;             (** a failed rollback with the time of its observation *)
}.

Section Claims.
Context `{UnicodeTables} `{TimeZones} `{PortFields} `{GrantContracts}.

(** ** Terminal clears *)

Definition isV2RecoveryClearStatus (status : string) : bool := status ==? "canceled".

Definition validateV2RecoveryClear (active terminal : Job.t) (updaterID : string) : check :=
  if (Job.ProtocolVersion active !=? 2)%Z || negb (Job.RecoveryClear terminal) ||
     (Job.ProtocolVersion terminal !=? 2)%Z || (Job.ID terminal !=? Job.ID active) ||
     (Job.AgentServiceID active !=? updaterID) || (Job.AgentServiceID terminal !=? updaterID) ||
     (Job.ReleaseToken terminal !=? "") || (Job.LeaseToken terminal !=? "") ||
     (Job.LeaseExpiresAt terminal !=? "") || (Job.LeaseGeneration terminal !=? 0)%Z ||
     negb (isV2RecoveryClearStatus (Job.Status terminal))
  then Err "v2 recovery clear does not match the active job" else Ok tt.

(** ** The software authority of a claim *)

Definition softwareClaimPolicyMatches (job : Job.t) (policy : Policy.t) (target : PolicyTarget.t) : bool :=
  match Job.SoftwareUpdate job with
  | None => false
  | Some b =>
      is_ok (SoftwareBinding.Validate b) && (Job.PolicyRevision job ==? SoftwareBinding.ProjectionRevision b)%Z &&
      (SoftwareBinding.SourcePolicyRevision b ==? Policy.SourcePolicyRevision policy)%Z &&
      (SoftwareBinding.ProjectionRevision b ==? Policy.Revision policy)%Z &&
      (SoftwareBinding.ExecutorPolicyRevision b ==? Policy.LocalExecutorPolicyRevision policy)%Z &&
      (SoftwareBinding.ExecutorPolicySHA256 b ==? Policy.LocalExecutorPolicySHA256 policy) &&
      (SoftwareBinding.ConfigRevision b ==? PolicyTarget.appliedConfigRevision target)%Z &&
      (SoftwareBinding.ConfigSHA256 b ==? PolicyTarget.AppliedConfigSHA256 target)
  end.

Definition softwareClaimFence (job : Job.t) (binding : AgentBinding.t) (policy : Policy.t) : Fence.t :=
  match (if Job.isV2SoftwareJob job then Job.SoftwareUpdate job else None) with
  | Some b => Fence.mk (SoftwareBinding.SourcePolicyRevision b) (Job.OwnershipEpoch job)
                (SoftwareBinding.ProjectionRevision b) (SoftwareBinding.ExecutorPolicyRevision b)
  | None => Fence.mk (Policy.SourcePolicyRevision policy) (AgentBinding.OwnershipEpoch binding)
              (Job.PolicyRevision job) (Policy.LocalExecutorPolicyRevision policy)
  end.

Definition softwareClaimIdentityMatches (job : Job.t) (updaterID : string) (binding : AgentBinding.t)
    (policy : Policy.t) : bool :=
  Job.isV2SoftwareJob job && (Job.ID job !=? "") && (Job.AgentServiceID job ==? updaterID) &&
  (Job.HostID job ==? AgentBinding.ExecutionHostID binding) && (AgentBinding.ServiceID binding ==? updaterID) &&
  (AgentBinding.ServiceType binding ==? ServiceTypeUpdateAgent) && (Policy.ServiceID policy ==? updaterID) &&
  (Job.TransportMode job ==? HostTransportPullV2) &&
  (Job.OwnershipEpoch job ==? AgentBinding.OwnershipEpoch binding)%Z &&
  (Policy.ExecutionHostID policy ==? AgentBinding.ExecutionHostID binding) &&
  (Policy.TransportMode policy ==? HostTransportPullV2) &&
  (Policy.OwnershipEpoch policy ==? AgentBinding.OwnershipEpoch binding)%Z &&
  match hostPullPolicyTarget policy (Job.TargetID job) with
  | Some target => (PolicyTarget.ServiceType target ==? Job.EffectiveType job) &&
                   (PolicyTarget.DeploymentMode target ==? Job.DeploymentMode job)
  | None => false
  end.

(** The authority that the current policy gives the claim. *)
Definition claim_snapshot (wire : SoftwareBinding.t) (policy : Policy.t) (target : PolicyTarget.t) : SoftwareBinding.t :=
  SoftwareBinding.mk (SoftwareBinding.ConfigRevision wire) (PolicyTarget.AppliedConfigSHA256 target)
    (SoftwareBinding.CommandSHA256 wire) (Policy.SourcePolicyRevision policy) (Policy.Revision policy)
    (Policy.LocalExecutorPolicyRevision policy) (Policy.LocalExecutorPolicySHA256 policy).

(** A cursor saved before bindings existed: its plan proves the same authority. *)
Definition legacy_plan_matches (active job : Job.t) (wire snapshot : SoftwareBinding.t) (plan : option MutationPlan.t) : bool :=
  (Job.PolicyRevision active ==? SoftwareBinding.ConfigRevision wire)%Z &&
  match plan with
  | None => false
  | Some p =>
      is_ok (MutationPlan.Validate p) && (MutationPlan.JobID p ==? Job.ID job) &&
      (MutationPlan.TargetID p ==? Job.TargetID job) && (MutationPlan.HostID p ==? Job.HostID job) &&
      (MutationPlan.CurrentVersion p ==? Job.CurrentVersion job) &&
      (MutationPlan.TargetVersion p ==? Job.EffectiveVersion job) &&
      (MutationPlan.ConfigSHA256 p ==? SoftwareBinding.ExecutorPolicySHA256 snapshot)
  end.

(** [bindSoftwareClaim] up to the call of the panel: the claim with its authority, and
    the retained cursor, which a legacy journal completes. *)
Definition bind_claim (nodeID : string) (binding : AgentBinding.t) (policy : Policy.t) (plan : option MutationPlan.t)
    (active : option Job.t) (job : Job.t) : result string (option Job.t * Job.t) :=
  match (if softwareClaimIdentityMatches job nodeID binding policy then Job.SoftwareUpdate job else None),
        hostPullPolicyTarget policy (Job.TargetID job) with
  | Some wire, Some target =>
      if is_err (SoftwareBinding.validateIntent wire) then Err "software claim identity or original intent is invalid"
      else if (SoftwareBinding.ConfigRevision wire !=? PolicyTarget.appliedConfigRevision target)%Z
      then Err "software claim configuration differs from authenticated policy"
      else
        let snapshot := claim_snapshot wire policy target in
        let revision := SoftwareBinding.ProjectionRevision wire in
        if is_err (SoftwareBinding.Validate snapshot) then Err "software claim authenticated policy is incomplete"
        else if ((revision !=? 0)%Z && (wire !=? snapshot)) || ((revision ==? 0)%Z && (Job.PolicyRevision job !=? 0)%Z) ||
           ((revision !=? 0)%Z && (Job.PolicyRevision job !=? SoftwareBinding.ProjectionRevision snapshot)%Z)
        then Err "software claim policy projection was replaced before binding"
        else
          let bound job := job <| Job.SoftwareUpdate := Some snapshot |>
                               <| Job.PolicyRevision := SoftwareBinding.ProjectionRevision snapshot |> in
          match active with
          | None => Ok (None, bound job)
          | Some a =>
              if negb (Job.sameSoftwareJobIdentity a job) || negb (Job.sameRecoveredJobLease a job)
              then Err "recovered software claim changed its immutable identity"
              else
                let job := job <| Job.SoftwareClaimRejected := Job.SoftwareClaimRejected a |> in
                match Job.SoftwareUpdate a with
                | Some saved =>
                    if saved !=? snapshot then Err "recovered software claim changed its saved policy authority"
                    else Ok (active, bound job)
                | None =>
                    if legacy_plan_matches a job wire snapshot plan then Ok (Some (bound a), bound job)
                    else Err "legacy software cursor lacks its original trusted policy plan"
                end
          end
  | _, _ => Err "software claim identity or original intent is invalid"
  end.

(** ** Claims *)

Definition lease_binding_invalid (job : Job.t) (serviceID : string) (binding : AgentBinding.t) (policy : Policy.t) : bool :=
  negb (re_match identifierPattern (Job.ID job)) || (Job.AgentServiceID job !=? serviceID) ||
  (Job.HostID job !=? AgentBinding.ExecutionHostID binding) || (Job.TransportMode job !=? HostTransportPullV2) ||
  (Job.OwnershipEpoch job !=? AgentBinding.OwnershipEpoch binding)%Z ||
  (negb (Job.isPortContractV2 job) && negb (Job.isV2SoftwareJob job) &&
   (Job.PolicyRevision job !=? Policy.Revision policy)%Z) ||
  (Job.LeaseGeneration job =? 0)%Z || (Job.ReportSequence job =? 0)%Z.

(** A port claim of the first contract. *)
Definition validate_legacy_port (job : Job.t) (policy : Policy.t) (target : PolicyTarget.t) (port : PortBinding) : check :=
  let port_of e := match e with Some e => Endpoint.Port e | None => (-1)%Z end in
  if (ExpectedSourcePolicyRevision port !=? Policy.SourcePolicyRevision policy)%Z ||
     (ExpectedUpdaterPolicyRevision port !=? Policy.Revision policy)%Z ||
     (ExpectedUpdaterPolicyRevision port !=? Job.PolicyRevision job)%Z ||
     (ExpectedExecutorPolicyRevision port !=? Policy.LocalExecutorPolicyRevision policy)%Z ||
     (ExpectedExecutorPolicySHA256 port !=? Policy.LocalExecutorPolicySHA256 policy) ||
     (ExpectedConfigRevision port !=? PolicyTarget.appliedConfigRevision target)%Z ||
     (ExpectedConfigSHA256 port !=? PolicyTarget.AppliedConfigSHA256 target) ||
     negb (Job.present (PolicyTarget.DesiredEndpoint target)) ||
     (port_of (PolicyTarget.DesiredEndpoint target) !=? NewPort port)%Z
  then Err "pull_v2 port claim does not match the active policy"
  else
    let! _ :=
      if (Job.ProtocolVersion job ==? 2)%Z then
        if (Job.CurrentVersion job !=? "") || (Job.TargetVersion job !=? "") || (Job.Version job !=? "")
        then Err "pull_v2 v2 port claim must remain versionless" else Ok tt
      else if negb (re_match versionPattern (Job.CurrentVersion job)) ||
         negb (re_match versionPattern (Job.TargetVersion job)) ||
         (Job.CurrentVersion job !=? TrimSpace (Job.CurrentVersion job)) ||
         (Job.TargetVersion job !=? TrimSpace (Job.TargetVersion job)) || (Job.Version job !=? "") ||
         (Job.TargetVersion job !=? Job.CurrentVersion job)
      then Err "pull_v2 legacy port claim version binding is invalid" else Ok tt in
    if Job.DeploymentMode job ==? ModeSystemd then
      if Job.present (DockerFields port) || negb (Job.present (PolicyTarget.LocalListenEndpoint target)) ||
         (port_of (PolicyTarget.LocalListenEndpoint target) !=? OldPort port)%Z
      then Err "pull_v2 systemd port claim does not match the active policy" else Ok tt
    else if Job.DeploymentMode job ==? ModeDocker then
      match DockerFields port, PolicyTarget.AppliedEndpoint target, PolicyTarget.LocalHealthEndpoint target with
      | Some (hostIP, oldHealthPort), Some applied, Some health =>
          if (Endpoint.Port applied !=? OldPort port)%Z || (Endpoint.Host health !=? hostIP) ||
             (Endpoint.Port health !=? oldHealthPort)%Z
          then Err "pull_v2 Docker port claim does not match the active policy" else Ok tt
      | _, _, _ => Err "pull_v2 Docker port claim does not match the active policy"
      end
    else Err "pull_v2 port claim deployment mode is unsupported".

Definition validate_port_claim (job : Job.t) (policy : Policy.t) (target : PolicyTarget.t) : check :=
  match Job.PortReconfigure job with
  | Some port =>
      if Job.isPortContractV2 job then
        if (Job.CurrentVersion job !=? "") || (Job.TargetVersion job !=? "") || (Job.Version job !=? "") ||
           (Job.PolicyRevision job !=? Before_ProjectionRevision port)%Z ||
           negb (portClaimPolicyMatches job policy target)
        then Err "pull_v2 port claim does not match its original snapshot and policy" else Ok tt
      else validate_legacy_port job policy target port
  | None => Err "pull_v2 port claim does not match the active policy"
  end.

Definition validateHostPullClaim (job : Job.t) (serviceID : string) (binding : AgentBinding.t) (policy : Policy.t) : check :=
  if Job.ReleaseToken job !=? "" then Err "pull_v2 claim unexpectedly contained a release credential"
  else
    let! _ := Job.validateOperationUnion job in
    if lease_binding_invalid job serviceID binding policy
    then Err "pull_v2 claim ownership or lease binding is invalid"
    else
      let! _ :=
        if (Job.ProtocolVersion job ==? 2)%Z then
          if (Job.LeaseToken job !=? "") || negb (re_match identifierPattern (Job.CommandID job))
          then Err "pull_v2 v2 claim credential or command binding is invalid" else Ok tt
        else if negb (validBoundedSecret (Job.LeaseToken job))
        then Err "pull_v2 legacy claim lease credential is invalid" else Ok tt in
      match hostPullPolicyTarget policy (Job.TargetID job) with
      | None => Err "pull_v2 claim target does not match the active policy"
      | Some target =>
          if (PolicyTarget.ServiceType target !=? Job.EffectiveType job) ||
             (PolicyTarget.DeploymentMode target !=? Job.DeploymentMode job)
          then Err "pull_v2 claim target does not match the active policy"
          else if Job.isV2SoftwareJob job &&
             (Job.SoftwareClaimRejected job || negb (softwareClaimIdentityMatches job serviceID binding policy) ||
              negb (softwareClaimPolicyMatches job policy target))
          then Err "software claim does not match its fixed configuration and policy authority"
          else if Job.EffectiveOperation job ==? updateJobOperationPortReconfigure
          then validate_port_claim job policy target
          else if negb (re_match versionPattern (Job.CurrentVersion job)) ||
             negb (re_match versionPattern (Job.EffectiveVersion job)) ||
             (Job.CurrentVersion job !=? TrimSpace (Job.CurrentVersion job))
          then Err "pull_v2 claim version binding is invalid" else Ok tt
      end.

(** ** The validation of a grant *)

(** [revisionMatches] and [configMatches]. *)
Definition grant_revisions_match (job : Job.t) (policy : Policy.t) (target : PolicyTarget.t)
    (desiredRevision configRevision : Z) (commandDigest : string) : bool :=
  if Job.isV2SoftwareJob job then
    match Job.SoftwareUpdate job with
    | None => false
    | Some b =>
        (desiredRevision ==? SoftwareBinding.ConfigRevision b)%Z && softwareClaimPolicyMatches job policy target &&
        (commandDigest ==? SoftwareBinding.CommandSHA256 b) && (configRevision ==? SoftwareBinding.ConfigRevision b)%Z
    end
  else
    match (if Job.isPortContractV2 job then Job.PortReconfigure job else None) with
    | Some port =>
        (desiredRevision ==? Target_ConfigRevision port)%Z &&
        (Job.PolicyRevision job ==? Before_ProjectionRevision port)%Z && portClaimPolicyMatches job policy target &&
        (configRevision ==? Before_ConfigRevision port)%Z
    | None =>
        (desiredRevision ==? Policy.Revision policy)%Z && (desiredRevision ==? Job.PolicyRevision job)%Z &&
        (configRevision ==? PolicyTarget.appliedConfigRevision target)%Z
    end.

Definition validateV2ExecutionGrantCommon (now : GoTime.t) (updaterID : string) (hostBinding : AgentBinding.t)
    (policy : Policy.t) (job : Job.t) (operation sessionID : string) (b : V2Binding.t) :
    result string DesiredOperation.t :=
  if (Job.ProtocolVersion job !=? 2)%Z || (Job.LeaseToken job !=? "") ||
     is_err (ValidateUpdaterMutationGrantBinding now b) || (V2Binding.Operation b !=? operation) ||
     (V2Binding.SessionID b !=? sessionID)
  then Err "v2 mutation grant binding is invalid"
  else
    let command := V2Binding.Command b in
    let authorization := GrantCommand.MutationAuthorization command in
    let target := GrantAuthorization.Target authorization in
    let e := Err "v2 mutation grant does not match the claimed job and active policy" in
    match hostPullPolicyTarget policy (Job.TargetID job) with
    | None => e
    | Some policyTarget =>
        if (GrantCommand.CommandID command !=? Job.CommandID job) ||
           (GrantAuthorization.JobID authorization !=? Job.ID job) ||
           (GrantAuthorization.UpdaterID authorization !=? updaterID) ||
           (GrantAuthorization.UpdaterID authorization !=? Job.AgentServiceID job) ||
           (GrantAuthorization.HostID authorization !=? AgentBinding.ExecutionHostID hostBinding) ||
           (GrantAuthorization.HostID authorization !=? Job.HostID job) ||
           negb (grant_revisions_match job policy policyTarget (GrantAuthorization.DesiredRevision authorization)
                   (GrantTarget.ExpectedConfigRevision target) (GrantCommand.CanonicalPayloadDigest command)) ||
           (GrantAuthorization.Fence authorization !=? AgentBinding.OwnershipEpoch hostBinding)%Z ||
           (GrantAuthorization.Fence authorization !=? Job.OwnershipEpoch job)%Z ||
           (V2Binding.LeaseGeneration b !=? int64_of_u64 (Job.LeaseGeneration job))%Z ||
           (GrantTarget.TargetKind target !=? UpdaterTargetApplication) ||
           (GrantTarget.ServiceID target !=? Job.TargetID job) ||
           (GrantTarget.ServiceType target !=? Job.EffectiveType job) ||
           (GrantTarget.DeploymentMode target !=? Job.DeploymentMode job)
        then e else Ok (GrantCommand.Desired command)
    end.

Definition validateV2SoftwareExecutionGrant (now : GoTime.t) (updaterID : string) (hostBinding : AgentBinding.t)
    (policy : Policy.t) (job : Job.t) (plan : MutationPlan.t) (operation : string) (b : V2Binding.t) : check :=
  let! desired := validateV2ExecutionGrantCommon now updaterID hostBinding policy job operation
                    (MutationPlan.SessionID plan) b in
  let e := Err "v2 mutation grant does not match the software update plan" in
  match DesiredOperation.SoftwareUpdate desired with
  | None => e
  | Some s =>
      if (DesiredOperation.Operation desired !=? UpdaterDesiredSoftwareUpdate) ||
         (DesiredOperation.ExpectedCurrentVersion s !=? MutationPlan.CurrentVersion plan) ||
         (DesiredOperation.TargetVersion s !=? MutationPlan.TargetVersion plan) ||
         (MutationPlan.JobID plan !=? Job.ID job) || (MutationPlan.HostID plan !=? Job.HostID job) ||
         (MutationPlan.TargetID plan !=? Job.TargetID job) ||
         (MutationPlan.ServiceType plan !=? Job.EffectiveType job) ||
         (MutationPlan.DeploymentMode plan !=? Job.DeploymentMode job) ||
         (MutationPlan.CurrentVersion plan !=? Job.CurrentVersion job) ||
         (MutationPlan.TargetVersion plan !=? Job.EffectiveVersion job) ||
         (MutationPlan.LeaseGeneration plan !=? Job.LeaseGeneration job)%Z ||
         (MutationPlan.ConfigSHA256 plan !=? Policy.LocalExecutorPolicySHA256 policy)
      then e else Ok tt
  end.
End Claims.
