(* ===== verification/RecoveryIntent.v ===== *)
(** The operator's terminal-only recovery of a claimed software job: its request, the
    root executor's absence proof, and the durable intent with its attempts and receipt
    ([software_claim_recovery.go], [software_claim_recovery_intent.go],
    [software_claim_recovery_receipt.go], [software_claim_recovery_history_reader.go]). *)
From Stdlib Require Import Ascii String ZArith Lia.
From stdpp Require Import base decidable list strings gmap.
From S2P Require Import Prelude Strings Regexp Patterns Sha256 Json SelfUpdateState SelfUpdateGrant PlanDigest Jobs Journal AgentPolicy AgentClaims.

Open Scope string_scope.

Definition softwareClaimRecoveryIntentMaxBytes : Z := 32 * 1024.
Definition softwareClaimRecoveryMaxAttempts : Z := 32.
Definition localExecutorClientTimeout : Z := 5 * GoTime.Second.

(** [softwareClaimRecoveryRawDigestValid]: 32 bytes in lower-case hexadecimal. *)
Definition softwareClaimRecoveryRawDigestValid (value : string) : bool := re_match mutationPlanHashPattern value.

(** [SoftwareClaimRecoveryRequest]. *)
Module RecoveryRequest.
Record t := mk {
  JobID : string;
  LeaseGeneration : Z;
  TargetID : string;
  CurrentVersion : string;
  TargetVersion : string;
  ConfigRevision : Z;
  OwnershipEpoch : Z;
}.

#[global] Instance eq_dec : EqDecision t.
Proof. solve_decision. Defined.

#[global] Instance eta_t : Eta t := fun r =>
  mk (JobID r) (LeaseGeneration r) (TargetID r) (CurrentVersion r) (TargetVersion r) (ConfigRevision r) (OwnershipEpoch r).

Definition Validate (r : t) : check :=
  if (JobID r !=? TrimSpace (JobID r)) || negb (re_match identifierPattern (JobID r)) ||
     (TargetID r !=? TrimSpace (TargetID r)) || negb (re_match identifierPattern (TargetID r)) ||
     (CurrentVersion r !=? TrimSpace (CurrentVersion r)) || negb (re_match versionPattern (CurrentVersion r)) ||
     (TargetVersion r !=? TrimSpace (TargetVersion r)) || negb (re_match versionPattern (TargetVersion r)) ||
     (LeaseGeneration r =? 0)%Z || (max_int64 <=? LeaseGeneration r)%Z || (ConfigRevision r <? 1)%Z ||
     (OwnershipEpoch r <? 1)%Z
  then Err "software claim recovery requires an exact job, target, versions, config revision, ownership epoch and lease generation"
  else Ok tt.

Definition sameIntent (r other : t) : bool :=
  (r <| LeaseGeneration := 0%Z |> ==? other <| LeaseGeneration := 0%Z |>).

Definition to_json (r : t) : json := JObj
  [("job_id", JStr (JobID r)); ("lease_generation", JNum (LeaseGeneration r)); ("target_id", JStr (TargetID r));
   ("current_version", JStr (CurrentVersion r)); ("target_version", JStr (TargetVersion r));
   ("config_revision", JNum (ConfigRevision r)); ("ownership_epoch", JNum (OwnershipEpoch r))].

(** [sha256]; an encoding error would hash no bytes. *)
Definition sha256 `{TimeZones} (r : t) : string := "sha256:" +:+ sha256_hex (default "" (Marshal (to_json r))).
End RecoveryRequest.

(** [SoftwareClaimRecoveryInspection]. *)
Module RecoveryInspection.
Record t := mk { Request : RecoveryRequest.t; ExecutorPolicySHA256 : string }.
End RecoveryInspection.

(** [SoftwareClaimRecoveryProof]. *)
Module RecoveryProof.
Record t := mk {
  RequestSHA256 : string;
  UpdaterID : string;
  HostID : string;
  SourcePolicyRevision : Z;
  ProjectionRevision : Z;
  ExecutorPolicyRevision : Z;
  ExecutorPolicySHA256 : string;
  OwnershipEpoch : Z;
  RuntimeVersion : string;
  NoMutation : bool;
  ObservedAt : GoTime.t;
  PriorSettledRawSHA256 : string;
}.

#[global] Instance eq_dec : EqDecision t.
Proof. solve_decision. Defined.

Definition Validate (p : t) : check :=
  if negb (re_match digestPattern (RequestSHA256 p)) || negb (re_match identifierPattern (UpdaterID p)) ||
     negb (validExecutionHostID (HostID p)) || (SourcePolicyRevision p <? 1)%Z || (ProjectionRevision p <? 1)%Z ||
     (ExecutorPolicyRevision p <? 1)%Z || negb (re_match digestPattern (ExecutorPolicySHA256 p)) ||
     (OwnershipEpoch p <? 1)%Z || (RuntimeVersion p !=? TrimSpace (RuntimeVersion p)) ||
     negb (re_match versionPattern (RuntimeVersion p)) || negb (NoMutation p) || GoTime.IsZero (ObservedAt p) ||
     ((PriorSettledRawSHA256 p !=? "") && negb (softwareClaimRecoveryRawDigestValid (PriorSettledRawSHA256 p)))
  then Err "software claim recovery absence proof is invalid" else Ok tt.

Definition to_json (p : t) : json := JObj (
  [("request_sha256", JStr (RequestSHA256 p)); ("updater_id", JStr (UpdaterID p)); ("host_id", JStr (HostID p));
   ("source_policy_revision", JNum (SourcePolicyRevision p)); ("projection_revision", JNum (ProjectionRevision p));
   ("executor_policy_revision", JNum (ExecutorPolicyRevision p));
   ("executor_policy_sha256", JStr (ExecutorPolicySHA256 p)); ("ownership_epoch", JNum (OwnershipEpoch p));
   ("runtime_version", JStr (RuntimeVersion p)); ("no_mutation", JBool (NoMutation p));
   ("observed_at", JTime (ObservedAt p))] ++
  omit_str "prior_settled_raw_sha256" (PriorSettledRawSHA256 p)).
End RecoveryProof.

(** [HostPullClaimRequest]. *)
Module ClaimRequest.
Record t := mk { UpdaterID : string; HostID : string; LeaseGeneration : Z; Fence : Z; ActiveJobID : string }.

#[global] Instance eq_dec : EqDecision t.
Proof. solve_decision. Defined.

Definition to_json (r : t) : json := JObj
  [("UpdaterID", JStr (UpdaterID r)); ("HostID", JStr (HostID r)); ("LeaseGeneration", JNum (LeaseGeneration r));
   ("Fence", JNum (Fence r)); ("ActiveJobID", JStr (ActiveJobID r))].
End ClaimRequest.

(** [softwareClaimRecoveryAttempt]. *)
Module Attempt.
Record t := mk { LeaseGeneration : Z; StartedAt : GoTime.t; ConfirmedReread : bool }.

#[global] Instance eq_dec : EqDecision t.
Proof. solve_decision. Defined.

Definition to_json (a : t) : json := JObj (
  [("lease_generation", JNum (LeaseGeneration a)); ("started_at", JTime (StartedAt a))] ++
  omit_bool "confirmed_reread" (ConfirmedReread a)).
End Attempt.

(** [softwareClaimRecoveryTerminalClearReceipt]; [AcceptedResult] is the status and
    code of the accepted report. *)
Module Receipt.
Record t := mk {
  claim : ClaimRequest.t;
  RootNoMutation : RecoveryProof.t;
  ObservedAt : GoTime.t;
  AcceptedResult : option (string * string);
}.

#[global] Instance eq_dec : EqDecision t.
Proof. solve_decision. Defined.

Definition to_json (r : t) : json := JObj (
  [("claim_request", ClaimRequest.to_json (claim r)); ("root_no_mutation", RecoveryProof.to_json (RootNoMutation r));
   ("observed_at", JTime (ObservedAt r))] ++
  omit_opt "accepted_result" (fun x => JObj [("status", JStr x.1); ("code", JStr x.2)]) (AcceptedResult r)).
End Receipt.

(** [softwareClaimRecoveryIntent]. *)
Module Intent.
Record t := mk {
  SchemaVersion : Z;
  Original : RecoveryRequest.t;
  Request : RecoveryRequest.t;
  UpdaterID : string;
  HostID : string;
  SourcePolicyRevision : Z;
  ProjectionRevision : Z;
  ExecutorPolicyRevision : Z;
  ExecutorPolicySHA256 : string;
  Attempts : list Attempt.t;
  Settled : bool;
  SettledAt : GoTime.t;
  TerminalClear : option Receipt.t;
  PreviousSettledRawSHA256 : string;
}.

#[global] Instance eq_dec : EqDecision t.
Proof. solve_decision. Defined.

#[global] Instance eta_t : Eta t := fun s =>
  mk (SchemaVersion s) (Original s) (Request s) (UpdaterID s) (HostID s) (SourcePolicyRevision s)
     (ProjectionRevision s) (ExecutorPolicyRevision s) (ExecutorPolicySHA256 s) (Attempts s) (Settled s)
     (SettledAt s) (TerminalClear s) (PreviousSettledRawSHA256 s).

(** [newSoftwareClaimRecoveryIntent]. *)
Definition new (request : RecoveryRequest.t) (updaterID hostID : string) (policy : Policy.t) : t :=
  mk 2 request request updaterID hostID (Policy.SourcePolicyRevision policy) (Policy.Revision policy)
     (Policy.LocalExecutorPolicyRevision policy) (Policy.LocalExecutorPolicySHA256 policy) [] false GoTime.zero None "".

Section Intent.
Context `{TimeZones}.

(** [softwareClaimRecoveryProofMatchesIntent]. *)
Definition proof_matches (proof : RecoveryProof.t) (s : t) : bool :=
  is_ok (RecoveryProof.Validate proof) && (RecoveryProof.RequestSHA256 proof ==? RecoveryRequest.sha256 (Request s)) &&
  (RecoveryProof.UpdaterID proof ==? UpdaterID s) && (RecoveryProof.HostID proof ==? HostID s) &&
  (RecoveryProof.SourcePolicyRevision proof ==? SourcePolicyRevision s)%Z &&
  (RecoveryProof.ProjectionRevision proof ==? ProjectionRevision s)%Z &&
  (RecoveryProof.ExecutorPolicyRevision proof ==? ExecutorPolicyRevision s)%Z &&
  (RecoveryProof.ExecutorPolicySHA256 proof ==? ExecutorPolicySHA256 s) &&
  (RecoveryProof.OwnershipEpoch proof ==? RecoveryRequest.OwnershipEpoch (Original s))%Z &&
  (RecoveryProof.PriorSettledRawSHA256 proof ==? PreviousSettledRawSHA256 s).

(** [softwareClaimRecoveryTerminalClearReceipt.validate]. *)
Definition receipt_invalid (r : Receipt.t) (s : t) : bool :=
  let claim := Receipt.claim r in
  let generation := ClaimRequest.LeaseGeneration claim in
  (ClaimRequest.ActiveJobID claim !=? RecoveryRequest.JobID (Original s)) ||
  (ClaimRequest.UpdaterID claim !=? UpdaterID s) || (ClaimRequest.HostID claim !=? HostID s) ||
  (ClaimRequest.Fence claim !=? RecoveryRequest.OwnershipEpoch (Original s))%Z || (generation <? 1)%Z ||
  ((generation !=? RecoveryRequest.LeaseGeneration (Request s))%Z &&
   (generation !=? u64_succ (RecoveryRequest.LeaseGeneration (Request s)))%Z) ||
  negb (proof_matches (Receipt.RootNoMutation r) s) || GoTime.IsZero (Receipt.ObservedAt r) ||
  GoTime.Before (Receipt.ObservedAt r) (RecoveryProof.ObservedAt (Receipt.RootNoMutation r)) ||
  match Receipt.AcceptedResult r with
  | Some (status, code) => (status !=? "failed") || (code !=? "execution_failed")
  | None => false
  end.

Fixpoint attempts_valid (first : Z) (seen : list Z) (l : list Attempt.t) : bool :=
  match l with
  | [] => true
  | a :: l =>
      let g := Attempt.LeaseGeneration a in
      (first <=? g)%Z && (g <? max_int64)%Z && negb (GoTime.IsZero (Attempt.StartedAt a)) &&
      (negb (existsb (Z.eqb g) seen) || Attempt.ConfirmedReread a) && attempts_valid first (g :: seen) l
  end.

Definition generations (s : t) : list Z := map Attempt.LeaseGeneration (Attempts s).

Definition receipt_state_invalid (s : t) : bool :=
  let none := match TerminalClear s with None => true | Some _ => false end in
  ((SchemaVersion s ==? 1)%Z && (negb none || (PreviousSettledRawSHA256 s !=? ""))) ||
  ((SchemaVersion s ==? 2)%Z &&
   ((Settled s && match TerminalClear s with Some r => receipt_invalid r s | None => true end) ||
    (negb (Settled s) && negb none) ||
    ((PreviousSettledRawSHA256 s !=? "") && negb (softwareClaimRecoveryRawDigestValid (PreviousSettledRawSHA256 s))))).

Definition validate (s : t) : check :=
  let first := RecoveryRequest.LeaseGeneration (Original s) in
  if ((SchemaVersion s !=? 1)%Z && (SchemaVersion s !=? 2)%Z) || is_err (RecoveryRequest.Validate (Original s)) ||
     is_err (RecoveryRequest.Validate (Request s)) || negb (RecoveryRequest.sameIntent (Original s) (Request s)) ||
     negb (re_match identifierPattern (UpdaterID s)) || negb (validExecutionHostID (HostID s)) ||
     (SourcePolicyRevision s <? 1)%Z || (ProjectionRevision s <? 1)%Z || (ExecutorPolicyRevision s <? 1)%Z ||
     negb (re_match digestPattern (ExecutorPolicySHA256 s)) || (Z.of_nat (length (Attempts s)) =? 0)%Z ||
     (softwareClaimRecoveryMaxAttempts <? Z.of_nat (length (Attempts s)))%Z ||
     negb (Bool.eqb (Settled s) (negb (GoTime.IsZero (SettledAt s))))
  then Err "software claim recovery durable intent is invalid"
  else if receipt_state_invalid s then Err "software claim recovery settled receipt or raw history is invalid"
  else if negb (attempts_valid first [] (Attempts s)) then Err "software claim recovery durable attempt is invalid"
  else if (hd 0%Z (generations s) !=? first)%Z ||
     (List.last (generations s) 0%Z !=? RecoveryRequest.LeaseGeneration (Request s))%Z
  then Err "software claim recovery durable attempt cursor is invalid"
  else Ok tt.

Definition policyMatches (s : t) (policy : Policy.t) : bool :=
  (HostID s ==? Policy.ExecutionHostID policy) && (UpdaterID s ==? Policy.ServiceID policy) &&
  (RecoveryRequest.OwnershipEpoch (Original s) ==? Policy.OwnershipEpoch policy)%Z &&
  (SourcePolicyRevision s ==? Policy.SourcePolicyRevision policy)%Z &&
  (ProjectionRevision s ==? Policy.Revision policy)%Z &&
  (ExecutorPolicyRevision s ==? Policy.LocalExecutorPolicyRevision policy)%Z &&
  (ExecutorPolicySHA256 s ==? Policy.LocalExecutorPolicySHA256 policy).

Definition wasAttempted (s : t) (generation : Z) : bool := existsb (Z.eqb generation) (generations s).

Definition to_json (s : t) : json := JObj (
  [("schema_version", JNum (SchemaVersion s)); ("original_request", RecoveryRequest.to_json (Original s));
   ("current_request", RecoveryRequest.to_json (Request s)); ("updater_id", JStr (UpdaterID s));
   ("host_id", JStr (HostID s)); ("source_policy_revision", JNum (SourcePolicyRevision s));
   ("projection_revision", JNum (ProjectionRevision s)); ("executor_policy_revision", JNum (ExecutorPolicyRevision s));
   ("executor_policy_sha256", JStr (ExecutorPolicySHA256 s)); ("attempts", JArr (map Attempt.to_json (Attempts s)));
   ("settled", JBool (Settled s))] ++
  (if GoTime.IsZero (SettledAt s) then [] else [("settled_at", JTime (SettledAt s))]) ++
  omit_opt "terminal_clear_receipt" Receipt.to_json (TerminalClear s) ++
  omit_str "previous_settled_raw_sha256" (PreviousSettledRawSHA256 s)).

(** [softwareClaimRecoveryIntentSHA256]. *)
Definition digest (s : t) : string := sha256_hex (default "" (Marshal (to_json s))).

(** The bytes of the file, when the intent can be encoded within its size. *)
Definition encoded (s : t) : option string :=
  match Marshal (to_json s) with
  | Some payload => if (softwareClaimRecoveryIntentMaxBytes <? len payload + 1)%Z then None else Some payload
  | None => None
  end.

(** [saveSoftwareClaimRecoveryIntent], what the next record may change of the one on
    disk: nothing but the current request, one more attempt, and the settlement. *)
Fixpoint keeps_attempts (previous next : list Attempt.t) : bool :=
  match previous, next with
  | [], _ => true
  | a :: previous, b :: next => (a ==? b) && keeps_attempts previous next
  | _ :: _, [] => false
  end.

Definition replaces_history (previous next : t) : bool :=
  (SchemaVersion previous !=? SchemaVersion next)%Z ||
  (PreviousSettledRawSHA256 previous !=? PreviousSettledRawSHA256 next) ||
  negb (RecoveryRequest.sameIntent (Original previous) (Original next)) || (Original previous !=? Original next) ||
  (UpdaterID previous !=? UpdaterID next) || (HostID previous !=? HostID next) ||
  (SourcePolicyRevision previous !=? SourcePolicyRevision next)%Z ||
  (ProjectionRevision previous !=? ProjectionRevision next)%Z ||
  (ExecutorPolicyRevision previous !=? ExecutorPolicyRevision next)%Z ||
  (ExecutorPolicySHA256 previous !=? ExecutorPolicySHA256 next) || Settled previous ||
  (Z.of_nat (length (Attempts next)) <? Z.of_nat (length (Attempts previous)))%Z ||
  (Z.of_nat (length (Attempts previous)) + 1 <? Z.of_nat (length (Attempts next)))%Z.

Definition may_save (disk : option t) (previousSHA256 : string) (next : t) : check :=
  let! _ := match disk with
            | None => if previousSHA256 !=? "" then Err "software claim recovery durable intent compare-and-swap failed" else Ok tt
            | Some previous =>
                if digest previous !=? previousSHA256 then Err "software claim recovery durable intent compare-and-swap failed"
                else if replaces_history previous next then Err "software claim recovery CAS cannot replace immutable history"
                else if negb (keeps_attempts (Attempts previous) (Attempts next))
                then Err "software claim recovery CAS cannot rewrite previous attempts"
                else Ok tt
            end in
  match encoded next with None => Err "encode software claim recovery durable intent" | Some _ => Ok tt end.
End Intent.
End Intent.
