(* ===== verification/AgentWorld.v ===== *)
(** The surroundings of the host agent when it runs jobs: the files it keeps, the Panel,
    the local executor and the release downloader, as operations of a program, with the
    log of what an outside observer sees.

    The Panel, the executor and the downloader answer anything the types allow.  The
    journal file is the one of Journal, with its failures and crash points; every write
    that installs or removes the active job leaves a mark in the log. *)
From Stdlib Require Import Ascii String ZArith Lia.
From stdpp Require Import base decidable list strings gmap.
From S2P Require Import Prelude Strings Regexp Patterns Effects Sha256 Json SelfUpdateState SelfUpdateGrant PlanDigest Jobs Journal Grants AgentPolicy AgentClaims RecoveryIntent.

Open Scope string_scope.

(** ** Errors *)

(** [Client]: a [LocalExecutorClientError] with its code and message.  [Http]: a
    [PanelHTTPError] with its status and code. *)
Inductive failure :=
| Failed (message : string)
| Client (code message : string)
| Http (status : Z) (code : string).

Definition IsPermanentReportError (e : failure) : bool :=
  match e with
  | Http status code =>
      (status ==? 404)%Z ||
      ((status ==? 409)%Z &&
       ((code ==? "system_update_lease_invalid") || (code ==? "system_update_sequence_stale") ||
        (code ==? "stale_generation") || (code ==? "stale_fence")))
  | _ => false
  end.

Definition localExecutorErrorCode (e : failure) : string :=
  match e with Client code _ => TrimSpace code | _ => "" end.

(** [ErrLeaseLost]. *)
Definition ErrLeaseLost : failure := Failed "system update execution lease was lost".

(** [ResolvedDockerRelease]: what a plan takes from it. *)
Module ResolvedDocker.
Record t := mk { ManifestSHA256 : string; SourceVersion : string; ManifestDigest : string; PlatformDigest : string }.
End ResolvedDocker.

Section World.
Context `{UnicodeTables} `{TimeZones} `{PortPolicies}.

(** What the handler of a port job does to the journal: a report, its plan, its policy
    candidates. *)
Inductive port_call :=
| PortReports (status code message : string) (progress : Z) (result : option ExecutorPortResult)
| PortPlans (plan : PortPlan)
| PortStages (policy : PortPolicy).

Inductive xop : Type -> Type :=
| OnJournal {X} (o : op X) : xop X
| ReadJournalFile : xop (result failure (option Data.t))            (** decode [journal.json] *)
| ClearFence : xop (result failure bool)                            (** the clear fence or its temporary file exists *)
| LoadIntent : xop (result failure (option Intent.t))
| WriteIntent (i : Intent.t) : xop (result failure unit)            (** write, rename and sync *)
| ArchiveIntent (i : Intent.t) : xop (result failure unit)
| ClaimHost (r : ClaimRequest.t) : xop (result failure (option Job.t * bool))
| SendReport (jobID : string) (r : Report.t) : xop (result failure unit)
| IssueMutationGrant (jobID : string) (r : GrantRequest.t) : xop (result failure Grant.t)
| BindSoftwareUpdateClaim (job : Job.t) : xop (result failure unit)
| HasActiveLease (job : Job.t) : xop bool
| Stage (plan : MutationPlan.t) (fence : Fence.t) : xop (result failure unit)
| Apply (plan : MutationPlan.t) (fence : Fence.t) (grant : Grant.t) : xop (result failure ApplyResult.t)
| Reconcile (plan : MutationPlan.t) (fence : Fence.t) (grant : Grant.t) : xop (result failure ApplyResult.t)
| InspectClaim (i : RecoveryInspection.t) (fence : Fence.t) : xop (result failure RecoveryProof.t)
| JobDirectory (jobID : string) (generation : Z) : xop (result failure unit)  (** with an empty verification directory *)
| CleanupJobDirectory (jobID : string) : xop (result failure unit)
| Download (serviceType version arch : string) : xop (result failure string)
| ResolveDocker (version serviceType imageRepo arch : string) : xop (result failure ResolvedDocker.t)
| NewSessionID : xop (result failure string)
| Now : xop GoTime.t
| RuntimeForClaim (binding : AgentBinding.t) (policy : Policy.t) : xop (result failure unit)
| FetchPolicy : xop (result failure Policy.t)
| RecoveryPolicy (policy : Policy.t) : xop (result failure Policy.t)
| PortHandler (job : Job.t) : xop (list port_call).

(** ** The log *)

Inductive event :=
| Opened (id : string)                                   (** the journal names an active job *)
| Cleared (id : string)                                  (** it no longer does *)
| Moved (before after : string)                          (** it names another one *)
| Accepted (id : string) (r : Report.t)                  (** the Panel took a report *)
| Confirmed (id : string)                                (** the Panel answered that the job is over *)
| Asked (id operation : string) (r : GrantRequest.t) (saved : option Data.t)
    (answer : option Grant.t)                            (** a grant was asked for; [None]: no answer arrived *)
| Staged (plan : MutationPlan.t) (saved : option Data.t)
| Applied (plan : MutationPlan.t) (grant : Grant.t) (saved : option Data.t)
| Reconciled (plan : MutationPlan.t) (grant : Grant.t) (saved : option Data.t)
| Intended (i : Intent.t).                                (** the recovery intent on disk is this one *)

Record agent_world := AgentWorld {
  files : disk;
  intent_file : option Intent.t;
  log : list event;                                      (** newest first *)
}.

#[global] Instance eta_agent_world : Eta agent_world := fun w => AgentWorld (files w) (intent_file w) (log w).

Definition active_of (d : option Data.t) : option string :=
  match d with Some d => option_map Job.ID (Data.ActiveJob d) | None => None end.

(** The mark of a change of the active job. *)
Definition mark (before after : option string) : list event :=
  match before, after with
  | None, Some id => [Opened id]
  | Some id, None => [Cleared id]
  | Some a, Some b => if a ==? b then [] else [Moved a b]
  | None, None => []
  end.

(** The world with other files, and the mark of what changed. *)
Definition with_files (w : agent_world) (v : disk) : agent_world :=
  w <| files := v |> <| log := (mark (active_of (main (files w))) (active_of (main v)) ++ log w)%list |>.

(** ** The environment *)

Inductive xanswer :=
| JournalAnswer (a : answer)
| Yes
| Fails (e : failure)                                    (** without an effect *)
| FailsLate (e : failure)                                (** the effect happened *)
| GivesFlag (b : bool)
| GivesJob (job : option Job.t) (clear : bool)
| GivesGrant (g : Grant.t)
| GivesResult (r : ApplyResult.t)
| GivesProof (p : RecoveryProof.t)
| GivesString (s : string)
| GivesDocker (r : ResolvedDocker.t)
| GivesTime (t : GoTime.t)
| GivesPolicy (p : Policy.t)
| GivesCalls (l : list port_call).

(** An operation that changes nothing that is modelled. *)
Definition observes {A} (reply : option A) (ans : xanswer) (w : agent_world) : option (result failure A * agent_world) :=
  match ans, reply with
  | Fails e, _ | FailsLate e, _ => Some (Err e, w)
  | _, Some a => Some (Ok a, w)
  | _, None => None
  end.

(** An operation with an effect, or a request that an observer sees. *)
Definition effects {A} (reply : option A) (ans : xanswer) (after w : agent_world) : option (result failure A * agent_world) :=
  match ans, reply with
  | Fails e, _ => Some (Err e, w)
  | FailsLate e, _ => Some (Err e, after)
  | _, Some a => Some (Ok a, after)
  | _, None => None
  end.

Definition note (e : event) (w : agent_world) : agent_world := w <| log := e :: log w |>.

Definition yes (ans : xanswer) : option unit := match ans with Yes => Some tt | _ => None end.

(** The Panel's answer to a claim; one that says the job is over is on record. *)
Definition claim_answered (job : option Job.t) (clear : bool) (w : agent_world) : agent_world :=
  match job with Some j => if clear then note (Confirmed (Job.ID j)) w else w | None => w end.

#[global] Instance agent_handler : Handler xop agent_world xanswer := fun X o ans w =>
  match o in xop X return option (X * agent_world) with
  | OnJournal o =>
      match ans with
      | JournalAnswer a =>
          match handle o a (files w) with Some (x, v) => Some (x, with_files w v) | None => None end
      | _ => None
      end
  | ReadJournalFile => observes (match ans with Yes => Some (option_map Data.persisted (main (files w))) | _ => None end) ans w
  | ClearFence => observes (match ans with Yes => Some (Job.present (marker (files w)) || temp (files w)) | _ => None end) ans w
  | LoadIntent => observes (match ans with Yes => Some (intent_file w) | _ => None end) ans w
  | WriteIntent i => effects (yes ans) ans (note (Intended i) (w <| intent_file := Some i |>)) w
  | ArchiveIntent _ => observes (yes ans) ans w
  | ClaimHost _ =>
      match ans with
      | GivesJob job clear => Some (Ok (job, clear), claim_answered job clear w)
      | _ => observes None ans w
      end
  | SendReport id r => effects (yes ans) ans (note (Accepted id r) w) w
  | IssueMutationGrant id r =>
      let answer := match ans with GivesGrant g => Some g | _ => None end in
      effects answer ans (note (Asked id (GrantRequest.Operation r) r (main (files w)) answer) w) w
  | BindSoftwareUpdateClaim _ => observes (yes ans) ans w
  | HasActiveLease _ => match ans with GivesFlag b => Some (b, w) | _ => None end
  | Stage plan _ => effects (yes ans) ans (note (Staged plan (main (files w))) w) w
  | Apply plan _ g =>
      effects (match ans with GivesResult r => Some r | _ => None end) ans (note (Applied plan g (main (files w))) w) w
  | Reconcile plan _ g =>
      effects (match ans with GivesResult r => Some r | _ => None end) ans (note (Reconciled plan g (main (files w))) w) w
  | InspectClaim _ _ => observes (match ans with GivesProof p => Some p | _ => None end) ans w
  | JobDirectory _ _ => observes (yes ans) ans w
  | CleanupJobDirectory _ => observes (yes ans) ans w
  | Download _ _ _ => observes (match ans with GivesString s => Some s | _ => None end) ans w
  | ResolveDocker _ _ _ _ => observes (match ans with GivesDocker r => Some r | _ => None end) ans w
  | NewSessionID => observes (match ans with GivesString s => Some s | _ => None end) ans w
  | Now => match ans with GivesTime t => Some (t, w) | _ => None end
  | RuntimeForClaim _ _ => observes (yes ans) ans w
  | FetchPolicy => observes (match ans with GivesPolicy p => Some p | _ => None end) ans w
  | RecoveryPolicy _ => observes (match ans with GivesPolicy p => Some p | _ => None end) ans w
  | PortHandler _ => match ans with GivesCalls l => Some (l, w) | _ => None end
  end.

(** ** Programs that carry the journal *)

Definition io (A : Type) : Type := journal -> prog xop (journal * result failure A).

Definition ret {A} (a : A) : io A := fun j => Ret (j, Ok a).
Definition fail {A} (e : failure) : io A := fun j => Ret (j, Err e).
Definition stop {A} (message : string) : io A := fail (Failed message).
Definition then_ {A B} (m : io A) (k : A -> io B) : io B := fun j =>
  let* (j, r) := m j in match r with Ok a => k a j | Err e => Ret (j, Err e) end.

(** Goes on with the error as a value. *)
Definition attempt {A} (m : io A) : io (result failure A) := fun j => let* (j, r) := m j in Ret (j, Ok r).

(** The journal's data as the getters see it. *)
Definition look : io journal := fun j => Ret (j, Ok j).
Definition ask {X} (o : xop X) : io X := fun j => let* x := call o in Ret (j, Ok x).
Definition ask_ok {A} (o : xop (result failure A)) : io A := fun j => let* r := call o in Ret (j, r).
Definition check_ok {A} (r : result string A) : io A := fun j =>
  Ret (j, match r with Ok a => Ok a | Err m => Err (Failed m) end).
Definition require (b : bool) (message : string) : io unit := if b then ret tt else stop message.

(** Any error becomes this one. *)
Definition or_stop {A} (m : io A) (message : string) : io A := fun j =>
  let* (j, r) := m j in Ret (j, match r with Ok a => Ok a | Err _ => Err (Failed message) end).

Fixpoint on_journal {A} (p : prog op A) : prog xop A :=
  match p with
  | Ret a => Ret a
  | Do o k => Do (OnJournal o) (fun x => on_journal (k x))
  end.

(** A method of the journal. *)
Definition journal_do {A} (m : journal -> prog op (journal * result string A)) : io A := fun j =>
  let* (j, r) := on_journal (m j) in Ret (j, match r with Ok a => Ok a | Err e => Err (Failed e) end).
End World.

Notation "'let$' x ':=' m 'in' k" := (then_ m (fun x => k))
  (at level 10, x pattern, m at level 100, k at level 200) : go_scope.
