(* ===== verification/AgentExecution.v ===== *)
(** The host agent runs a job ([host_pull_execution.go],
    [host_pull_software_execution.go], [host_pull_software_mutation.go],
    [host_pull_execution_grants.go], [software_claim_snapshot.go]): its reports, the plan
    it makes durable before the executor sees it, the grants, and the recovery of an
    interrupted job, which never applies again.

    The handler of a port job is reduced to the calls of the journal and the reports it
    sends, in any order and with any values. *)
From Stdlib Require Import Ascii String ZArith Lia.
From stdpp Require Import base decidable list strings gmap.
From S2P Require Import Prelude Strings Regexp Patterns Effects Sha256 Json SelfUpdateState SelfUpdateGrant PlanDigest Release Jobs Journal Grants AgentPolicy AgentClaims RecoveryIntent AgentWorld.

Open Scope string_scope.

(** The identity and the abilities of the agent's process. *)
Record agent := Agent {
  NodeID : string;
  AgentVersion : string;
  GOARCH : string;
  parts : Parts.t;
  V2Executor : bool;                (** the executor's client takes v2 grants *)
  ClaimBinder : bool;               (** the panel has [BindSoftwareUpdateClaim] *)
  LeaseState : bool;                (** the panel has [HasActiveLease] *)
}.

(** [dockerImageRepoForService]. *)
Definition dockerImageRepoForService (serviceType : string) : result string string :=
  let service := dockerManifestService serviceType in
  if existsb (String.eqb service) ["control-panel"; "worker"; "encoder-recorder"; "discord-bot"; "observability"]
  then Ok ("ghcr.io/kome-lab/autostream-docker/" +:+ service)
  else Err "service type has no fixed Docker image repository".

Section Execution.
Context `{UnicodeTables} `{TimeZones} `{PortPolicies} `{!PortFields} `{GrantContracts}.
Context (a : agent).

(** ** Reports *)

Definition isPortRecoveryObservation (r : Report.t) : bool :=
  (Report.Status r ==? "failed") &&
  match Report.PortReconfigure r with Some p => RollbackFailedReport p | None => false end.

(** A report that ends its job. *)
Definition ends_job (r : Report.t) : bool :=
  isTerminalUpdateStatus (Report.Status r) && negb (isPortRecoveryObservation r).

(** [cleanupJobDirectory], then [ClearActive]. *)
Definition clear_job (jobID : string) : io unit :=
  let$ _ := ask_ok (CleanupJobDirectory jobID) in journal_do ClearActive.

(** [flushExecutionReports], one report per round. *)
Fixpoint flush (fuel : nat) : io unit :=
  match fuel with
  | O => stop "pending reports remain"
  | S fuel =>
      let$ j := look in
      match pending_view j with
      | [] => ret tt
      | item :: _ =>
          let report := Pending.report item in
          let$ sent := attempt (ask_ok (SendReport (Pending.JobID item) report)) in
          match sent with
          | Err e =>
              if IsPermanentReportError e then
                let$ _ := journal_do (DropJobReports (Pending.JobID item)) in fail ErrLeaseLost
              else fail e
          | Ok _ =>
              let$ _ := journal_do (Ack (Pending.JobID item) (Report.Sequence report)) in
              let$ _ := if ends_job report then clear_job (Pending.JobID item) else ret tt in
              flush fuel
          end
      end
  end.

Definition flushExecutionReports : io unit := fun j => flush (S (length (Data.PendingReports (data j)))) j.

Definition emitExecutionReport (job : Job.t) (status code message : string) (progress : Z) (artifact previous : string) :
    io Report.t :=
  let$ report := journal_do (Queue (Job.ID job) (NodeID a) (Job.LeaseToken job) (Job.LeaseGeneration job) status code
                               message progress (canonicalReportDigest artifact) (canonicalReportDigest previous)) in
  let$ _ := flushExecutionReports in
  ret report.

(** ** Plans *)

Definition recoverExecutionPlan (policy : Policy.t) (job : Job.t) : io MutationPlan.t :=
  let$ j := look in
  match Data.ActivePlan (data j) with
  | None => stop "durable recovery plan does not match the recovered job"
  | Some stored =>
      if is_err (MutationPlan.Validate stored) || (MutationPlan.JobID stored !=? Job.ID job) ||
         (MutationPlan.HostID stored !=? Job.HostID job) || (MutationPlan.TargetID stored !=? Job.TargetID job) ||
         (MutationPlan.ServiceType stored !=? Job.EffectiveType job) ||
         (MutationPlan.DeploymentMode stored !=? Job.DeploymentMode job) ||
         (MutationPlan.CurrentVersion stored !=? TrimSpace (Job.CurrentVersion job)) ||
         (MutationPlan.TargetVersion stored !=? Job.EffectiveVersion job) ||
         (MutationPlan.ConfigSHA256 stored !=? Policy.LocalExecutorPolicySHA256 policy)
      then stop "durable recovery plan does not match the recovered job"
      else
        let rebound := stored <| MutationPlan.LeaseGeneration := Job.LeaseGeneration job |> in
        let$ digest := check_ok (MutationPlan.ComputePlanSHA256 rebound) in
        let rebound := rebound <| MutationPlan.PlanSHA256 := digest |> in
        let$ _ := check_ok (MutationPlan.Validate rebound) in
        let$ _ := journal_do (SetActivePlan rebound) in
        ret rebound
  end.

(** The release part of a plan: digest, version, image and platform. *)
Definition resolve_release (target : PolicyTarget.t) (plan : ApplyPlan.t) : io ApplyPlan.t :=
  if PolicyTarget.DeploymentMode target ==? ModeSystemd then
    let$ digest := ask_ok (Download (PolicyTarget.ServiceType target) (ApplyPlan.TargetVersion plan) (GOARCH a)) in
    ret (plan <| ApplyPlan.ArtifactDigest := digest |>
              <| ApplyPlan.ExpectedVersion := ApplyPlan.TargetVersion plan |>)
  else if PolicyTarget.DeploymentMode target ==? ModeDocker then
    let$ imageRepo := check_ok (dockerImageRepoForService (PolicyTarget.ServiceType target)) in
    let$ resolved := ask_ok (ResolveDocker (ApplyPlan.TargetVersion plan) (PolicyTarget.ServiceType target) imageRepo (GOARCH a)) in
    ret (plan <| ApplyPlan.ArtifactDigest := TrimPrefix (normalizeDigest (ResolvedDocker.ManifestSHA256 resolved)) "sha256:" |>
              <| ApplyPlan.ExpectedVersion := ResolvedDocker.SourceVersion resolved |>
              <| ApplyPlan.ExpectedImageDigest := ResolvedDocker.ManifestDigest resolved |>
              <| ApplyPlan.ExpectedPlatformDigest := ResolvedDocker.PlatformDigest resolved |>)
  else stop "host pull target deployment mode is unsupported".

Definition prepareExecutionPlan (policy : Policy.t) (job : Job.t) : io MutationPlan.t :=
  match hostPullPolicyTarget policy (Job.TargetID job) with
  | None => stop "host pull policy target is unavailable"
  | Some target =>
      let$ _ := require ((GOARCH a ==? "amd64") || (GOARCH a ==? "arm64")) "host pull execution architecture is unsupported" in
      let$ _ := ask_ok (JobDirectory (Job.ID job) (Job.LeaseGeneration job)) in
      let plan := ApplyPlan.mk (Job.ID job) (Job.HostID job) (Job.TargetID job) (PolicyTarget.ServiceType target)
        (PolicyTarget.DeploymentMode target) (Job.EffectiveVersion job) (TrimSpace (Job.CurrentVersion job))
        (Policy.LocalExecutorPolicySHA256 policy) "" (Job.LeaseGeneration job) "" "" "" "" "" in
      let$ plan := resolve_release target plan in
      let$ planSHA256 := check_ok (MutationPlanSHA256 plan) in
      let$ sessionID := ask_ok NewSessionID in
      let plan := MutationPlan.mk (ApplyPlan.JobID plan) (ApplyPlan.HostID plan) (ApplyPlan.TargetID plan)
        (ApplyPlan.ServiceType plan) (ApplyPlan.DeploymentMode plan) (ApplyPlan.CurrentVersion plan)
        (ApplyPlan.ConfigSHA256 plan) (ApplyPlan.TargetVersion plan) (ApplyPlan.LeaseGeneration plan)
        (ApplyPlan.ArtifactDigest plan) (ApplyPlan.ExpectedVersion plan) (ApplyPlan.ExpectedImageDigest plan)
        (ApplyPlan.ExpectedPlatformDigest plan) sessionID planSHA256 in
      let$ _ := check_ok (MutationPlan.Validate plan) in
      ret plan
  end.

(** ** Mutations *)

Definition grant_request (binding : AgentBinding.t) (job : Job.t) (plan : MutationPlan.t) (operation : string) : GrantRequest.t :=
  GrantRequest.mk (NodeID a) (Job.LeaseToken job) (Job.LeaseGeneration job) (AgentBinding.ExecutionHostID binding)
    HostTransportPullV2 (AgentBinding.OwnershipEpoch binding) (Job.PolicyRevision job) (Job.TargetID job)
    (Job.EffectiveVersion job) (Job.EffectiveType job) (Job.DeploymentMode job) operation
    (MutationPlan.PlanSHA256 plan) (MutationPlan.SessionID plan).

(** [Apply] or [Reconcile] of the executor's client. *)
Definition mutate (operation : string) (plan : MutationPlan.t) (fence : Fence.t) (grant : Grant.t) : io ApplyResult.t :=
  if operation ==? "apply" then ask_ok (Apply plan fence grant) else ask_ok (Reconcile plan fence grant).

Definition invokeExecutionMutation (binding : AgentBinding.t) (policy : Policy.t) (job : Job.t) (plan : MutationPlan.t)
    (operation : string) : io ApplyResult.t :=
  let v2 := (Job.ProtocolVersion job ==? 2)%Z in
  let$ _ := require (negb v2 || V2Executor a) "local executor does not support v2 mutation grants" in
  let$ grant := ask_ok (IssueMutationGrant (Job.ID job) (grant_request binding job plan operation)) in
  let fence := softwareClaimFence job binding policy in
  match Grant.v2 grant with
  | Some b =>
      let$ _ := require (V2Executor a) "local executor does not support v2 mutation grants" in
      let$ now := ask Now in
      let$ _ := check_ok (validateV2SoftwareExecutionGrant now (NodeID a) binding policy job plan operation b) in
      mutate operation plan fence grant
  | None =>
      let$ _ := require (negb v2) "v2 mutation grant binding is unavailable" in
      mutate operation plan fence grant
  end.

(** ** A software job *)

Definition terminal (job : Job.t) (status code message : string) (result : option ApplyResult.t) : io unit :=
  let artifact := match result with Some r => ApplyResult.ArtifactDigest r | None => "" end in
  let previous := match result with Some r => ApplyResult.PreviousDigest r | None => "" end in
  let$ _ := emitExecutionReport job status code message 100 artifact previous in ret tt.

Definition rolled_back (r : ApplyResult.t) : bool := (ApplyResult.Status r ==? "rolled_back") || ApplyResult.RolledBack r.

Definition finishExecutionResult (job : Job.t) (r : ApplyResult.t) : io unit :=
  if rolled_back r
  then terminal job "rolled_back" "post_update_verification_failed" "previous target state was restored and verified" (Some r)
  else terminal job "succeeded" "" "target updated and verified" (Some r).

(** A report on the way. *)
Definition progress (job : Job.t) (status message : string) (percent : Z) (artifact previous : string) : io unit :=
  let$ _ := emitExecutionReport job status "" message percent artifact previous in ret tt.

(** The branch of a recovered job: reconcile only. *)
Definition recover_job (binding : AgentBinding.t) (policy : Policy.t) (job : Job.t) : io unit :=
  let$ recovered := attempt (recoverExecutionPlan policy job) in
  match recovered with
  | Err _ =>
      if Job.isV2SoftwareJob job
      then stop "software recovery requires its original plan or explicit inspected terminal-only recovery"
      else terminal job "failed" "recovery_plan_unavailable" "interrupted job has no trusted durable plan to reconcile" None
  | Ok plan =>
      let$ _ := progress job "reconciling" "inspecting interrupted host update state without reapplying" 99 "" "" in
      let$ result := attempt (invokeExecutionMutation binding policy job plan "reconcile") in
      match result with
      | Ok r => finishExecutionResult job r
      | Err e =>
          if localExecutorErrorCode e ==? "stage_required" then
            let$ j := look in
            let missing := terminal job "failed" "remote_stage_missing"
              "interrupted job has no durable mutation state to reconcile" None in
            match Data.ActiveStageFailure (data j) with
            | Some f =>
                if StageFailure.JobID f ==? Job.ID job
                then terminal job "failed" (StageFailure.reportCode f) (StageFailure.Message f) None
                else missing
            | None => missing
            end
          else fail e
      end
  end.

(** [stageFailureFromLocalExecutorError] on an error of the client. *)
Definition stage_failure (jobID : string) (e : failure) : option StageFailure.t :=
  StageFailure.fromExecutorError jobID (match e with Client code message => Some (code, message) | _ => None end).

(** From the staged plan to the end. *)
Definition apply_plan (binding : AgentBinding.t) (policy : Policy.t) (job : Job.t) (plan : MutationPlan.t) : io unit :=
  let$ applied := attempt (invokeExecutionMutation binding policy job plan "apply") in
  match applied with
  | Err _ =>
      let$ _ := progress job "reconciling" "apply result is uncertain; reconciling without reapplying" 99 "" "" in
      let$ r := invokeExecutionMutation binding policy job plan "reconcile" in
      finishExecutionResult job r
  | Ok r =>
      let artifact := ApplyResult.ArtifactDigest r in
      let previous := ApplyResult.PreviousDigest r in
      let$ _ := progress job "health_checking" "root executor completed bounded health and version checks" 90 artifact previous in
      let$ _ := if rolled_back r
                then progress job "rolling_back" "post-update checks failed; previous release was restored" 95 artifact previous
                else ret tt in
      finishExecutionResult job r
  end.

Definition stage_plan (binding : AgentBinding.t) (policy : Policy.t) (job : Job.t) (plan : MutationPlan.t) : io unit :=
  let$ staged := attempt (ask_ok (Stage plan (softwareClaimFence job binding policy))) in
  match staged with
  | Err e =>
      let$ _ := match stage_failure (Job.ID job) e with
                | Some f => journal_do (SetActiveStageFailure f)
                | None => ret tt
                end in
      fail e
  | Ok _ =>
      let$ _ := progress job "installing" "root executor is applying the fixed target" 65
                  (normalizeDigest (MutationPlan.ArtifactDigest plan)) "" in
      apply_plan binding policy job plan
  end.

(** The branch of a fresh job. *)
Definition start_job (binding : AgentBinding.t) (policy : Policy.t) (job : Job.t) : io unit :=
  let$ _ := progress job "claimed" "update job claimed and fixed target validated" 5 "" "" in
  let$ _ := progress job "downloading" "resolving immutable public release metadata" 20 "" "" in
  let$ prepared := attempt (prepareExecutionPlan policy job) in
  match prepared with
  | Err _ => terminal job "failed" "artifact_verification_failed" "immutable public release metadata could not be verified" None
  | Ok plan =>
      let digest := normalizeDigest (MutationPlan.ArtifactDigest plan) in
      let$ _ := journal_do (SetActivePlan plan) in
      let$ _ := progress job "verifying" "release tag, manifest and artifact identity verified" 40 digest "" in
      let$ _ := progress job "staging" "root executor is staging the immutable release" 55 digest "" in
      stage_plan binding policy job plan
  end.

(** ** A port job *)

Definition stage_port_policy (p : PortPolicy) (j : journal) : prog op (journal * check) :=
  mutable j (ensure j (PortPolicy_validate p (Data.ActiveJob (data j)) (Data.ActivePortPlan (data j)))
    (saveLocked (j <| data := (data j) <| Data.ActivePortPolicy := Some p |> |>))).

Definition port_step (job : Job.t) (c : port_call) : io unit :=
  match c with
  | PortReports status code message percent result =>
      let$ _ := journal_do (QueuePort (Job.ID job) (NodeID a) (Job.LeaseToken job) (Job.LeaseGeneration job) status code
                              message percent result) in
      flushExecutionReports
  | PortPlans plan => journal_do (SetActivePortPlan plan)
  | PortStages p => journal_do (stage_port_policy p)
  end.

Fixpoint port_steps (job : Job.t) (l : list port_call) : io unit :=
  match l with
  | [] => ret tt
  | c :: l => let$ _ := port_step job c in port_steps job l
  end.

Definition processPortReconfigurationJob (job : Job.t) : io unit :=
  let$ _ := require (Parts.PortExecutor (parts a)) "host pull port executor is unavailable" in
  let$ _ := journal_do (SetActive (Some job)) in
  let$ calls := ask (PortHandler job) in
  port_steps job calls.

Definition processExecutionJob (binding : AgentBinding.t) (policy : Policy.t) (job : Job.t) : io unit :=
  if Job.EffectiveOperation job ==? updateJobOperationPortReconfigure then processPortReconfigurationJob job
  else
    let$ _ := journal_do (SetActive (Some job)) in
    if Job.RecoveryRequired job then recover_job binding policy job else start_job binding policy job.

(** ** The authority of a claim *)

(** [bindSoftwareClaim]: the cursor and the claim as it leaves them, and its error. *)
Definition bindSoftwareClaim (binding : AgentBinding.t) (policy : Policy.t) (active : option Job.t) (job : Job.t) :
    io (option Job.t * Job.t * result failure unit) :=
  if negb (Job.isV2SoftwareJob job) then ret (active, job, Ok tt)
  else
    let$ j := look in
    match bind_claim (NodeID a) binding policy (Data.ActivePlan (data j)) active job with
    | Err e => ret (active, job, Err (Failed e))
    | Ok (active, job) =>
        let$ bound := if ClaimBinder a then attempt (ask_ok (BindSoftwareUpdateClaim job)) else ret (Ok tt) in
        ret (active, job, bound)
    end.

Definition settle_with {A} (r : result failure A) : io A := fun j => Ret (j, r).
End Execution.
