(* ===== verification/AgentRecovery.v ===== *)
(** The recovery entries of the host agent for a software job whose lease was lost: the
    terminal-only recovery of a claim that never reached the executor
    ([software_claim_recovery.go], [software_claim_recovery_receipt.go],
    [software_claim_recovery_intent.go], [software_claim_recovery_history_store.go]) and
    the reconciliation of a saved plan ([software_plan_recovery.go]), with the journal's
    two adoptions of a recovered lease ([software_journal_binding.go]). *)
From Stdlib Require Import Ascii String ZArith Lia.
From stdpp Require Import base decidable list strings gmap.
From S2P Require Import Prelude Strings Regexp Patterns Effects Sha256 Json SelfUpdateState SelfUpdateGrant PlanDigest Release Jobs Journal Grants AgentPolicy AgentClaims RecoveryIntent AgentWorld AgentExecution.

Open Scope string_scope.

(** The text an operator sees when a claim's outcome is not known. *)
Definition softwareClaimRecoveryGenerationRereadError : failure :=
  Failed "software claim recovery claim outcome is uncertain; reread only this job's current lease generation and supply that exact value with --confirm-current-generation to recover-software-claim; the durable intent remains".

Definition softwarePlanRecoveryGenerationRereadError : failure :=
  Failed "saved software recovery claim outcome is uncertain; reread only this job's current lease generation and supply that exact value to recover-software-plan; the original cursor and plan remain".

(** A process that has not opened the journal. *)
Definition no_journal `{PortContracts} : journal := Journal Data.initial ∅ (Some "journal is not open").

(** Another journal in memory. *)
Definition install_journal `{UnicodeTables} `{TimeZones} `{PortPolicies} (j : journal) : io unit := fun _ => Ret (j, Ok tt).

Section Recovery.
Context `{UnicodeTables} `{TimeZones} `{PortPolicies} `{!PortFields} `{GrantContracts} `{Formats}.
Context (a : agent).

(** ** Cursors and intents *)

Definition softwareClaimRecoveryJobMatches (intent : Intent.t) (job : Job.t) : bool :=
  let original := Intent.Original intent in
  match Job.SoftwareUpdate job with
  | None => false
  | Some b =>
      (Job.ID job ==? RecoveryRequest.JobID original) && (Job.ProtocolVersion job ==? 2)%Z &&
      (Job.EffectiveOperation job ==? updateJobOperationSoftwareUpdate) &&
      (Job.AgentServiceID job ==? Intent.UpdaterID intent) && (Job.HostID job ==? Intent.HostID intent) &&
      (Job.TransportMode job ==? HostTransportPullV2) &&
      (Job.OwnershipEpoch job ==? RecoveryRequest.OwnershipEpoch original)%Z &&
      (Job.TargetID job ==? RecoveryRequest.TargetID original) &&
      (Job.CurrentVersion job ==? RecoveryRequest.CurrentVersion original) &&
      (Job.EffectiveVersion job ==? RecoveryRequest.TargetVersion original) &&
      (SoftwareBinding.ConfigRevision b ==? RecoveryRequest.ConfigRevision original)%Z &&
      (Job.PolicyRevision job ==? Intent.ProjectionRevision intent)%Z &&
      (SoftwareBinding.SourcePolicyRevision b ==? Intent.SourcePolicyRevision intent)%Z &&
      (SoftwareBinding.ProjectionRevision b ==? Intent.ProjectionRevision intent)%Z &&
      (SoftwareBinding.ExecutorPolicyRevision b ==? Intent.ExecutorPolicyRevision intent)%Z &&
      (SoftwareBinding.ExecutorPolicySHA256 b ==? Intent.ExecutorPolicySHA256 intent)
  end.

Definition softwareClaimRecoveryCursorMatches (intent : Intent.t) (job : Job.t) : bool :=
  let original := Intent.Original intent in
  if (Job.ProtocolVersion job !=? 2)%Z || (Job.ID job !=? RecoveryRequest.JobID original) ||
     (Job.EffectiveOperation job !=? updateJobOperationSoftwareUpdate) ||
     (Job.AgentServiceID job !=? Intent.UpdaterID intent) || (Job.HostID job !=? Intent.HostID intent) ||
     (Job.TransportMode job !=? HostTransportPullV2) ||
     (Job.OwnershipEpoch job !=? RecoveryRequest.OwnershipEpoch original)%Z ||
     (Job.TargetID job !=? RecoveryRequest.TargetID original) ||
     (Job.CurrentVersion job !=? RecoveryRequest.CurrentVersion original) ||
     (Job.EffectiveVersion job !=? RecoveryRequest.TargetVersion original) ||
     negb (re_match identifierPattern (Job.CommandID job)) || (Job.LeaseToken job !=? "") ||
     (Job.ReleaseToken job !=? "") || Job.present (Job.PortReconfigure job)
  then false
  else
    match Job.SoftwareUpdate job with
    | None => negb (Job.SoftwareClaimRejected job) && (Job.PolicyRevision job ==? RecoveryRequest.ConfigRevision original)%Z
    | Some b =>
        if is_ok (SoftwareBinding.Validate b) then softwareClaimRecoveryJobMatches intent job
        else Job.SoftwareClaimRejected job && (Job.PolicyRevision job ==? 0)%Z &&
             is_ok (SoftwareBinding.validateIntent b) &&
             (SoftwareBinding.ConfigRevision b ==? RecoveryRequest.ConfigRevision original)%Z
    end.

(** [softwareClaimRecoveryPendingAllowed]: no report, or the first one of the cursor. *)
Definition first_report_only (active : Job.t) (p : Pending.t) : bool :=
  let r := Pending.report p in
  (Pending.JobID p ==? Job.ID active) && (Report.ServiceID r ==? Job.AgentServiceID active) &&
  (Report.LeaseGeneration r ==? Job.LeaseGeneration active)%Z && (Report.Sequence r ==? 1)%Z &&
  (Report.Status r ==? "claimed") && (Report.Progress r ==? 5)%Z && (Report.Code r ==? "") &&
  (Report.LeaseToken r ==? "") && (Report.ArtifactDigest r ==? "") && (Report.PreviousDigest r ==? "") &&
  negb (Job.present (Report.PortReconfigure r)).

Definition no_execution (d : Data.t) : bool :=
  negb (Job.present (Data.ActivePlan d)) && negb (Job.present (Data.ActivePortPlan d)) &&
  negb (Job.present (Data.ActivePortPolicy d)) && negb (Job.present (Data.ActiveStageFailure d)).

Definition softwareClaimRecoveryPendingAllowed (d : Data.t) : bool :=
  match Data.PendingReports d, Data.ActiveJob d with
  | [], _ => true
  | [p], Some active =>
      Job.isV2SoftwareJob active && negb (Job.SoftwareClaimRejected active) &&
      match Job.SoftwareUpdate active with Some b => is_ok (SoftwareBinding.Validate b) | None => false end &&
      is_ok (validateJournalSoftwareJob active) && (Job.ReportSequence active <=? 1)%Z &&
      (Job.Sequence active ==? 0)%Z && (Data.NextSeq d ==? 2)%Z &&
      re_match identifierPattern (Job.CommandID active) && (Job.LeaseToken active ==? "") &&
      (Job.ReleaseToken active ==? "") && negb (Job.present (Job.PortReconfigure active)) &&
      (Job.Status active ==? "claimed") && (Job.Progress active ==? 0)%Z && (Job.Code active ==? "") &&
      (Job.ArtifactDigest active ==? "") && (Job.PreviousDigest active ==? "") && no_execution d &&
      first_report_only active p
  | _, _ => false
  end.

Definition empty_data : Data.t := Data.mk None None None None None 0 [] ∅.

(** [readSoftwareClaimRecoveryJournal]. *)
Definition readSoftwareClaimRecoveryJournal : io Data.t :=
  let$ file := ask_ok ReadJournalFile in
  match file with
  | None => ret empty_data
  | Some d =>
      if is_err (validateJournalData d) || negb (no_execution d) || negb (softwareClaimRecoveryPendingAllowed d)
      then stop "software claim recovery journal has a plan, pending report, or unsafe state"
      else ret d
  end.

(** [saveSoftwareClaimRecoveryIntent]. *)
Definition saveSoftwareClaimRecoveryIntent (previousSHA256 : string) (next : Intent.t) : io unit :=
  let$ _ := require (is_ok (Intent.validate next)) "software claim recovery intent or parent is unsafe" in
  let$ disk := or_stop (ask_ok LoadIntent) "software claim recovery durable intent compare-and-swap failed" in
  let$ _ := check_ok (Intent.may_save disk previousSHA256 next) in
  or_stop (ask_ok (WriteIntent next)) "persist software claim recovery durable intent; outcome remains uncertain".

(** ** The absence proof *)

Definition proof_accepted (proof : RecoveryProof.t) (request : RecoveryRequest.t) (binding : AgentBinding.t)
    (policy : Policy.t) (now : GoTime.t) : bool :=
  is_ok (RecoveryProof.Validate proof) && (RecoveryProof.RequestSHA256 proof ==? RecoveryRequest.sha256 request) &&
  (RecoveryProof.UpdaterID proof ==? NodeID a) &&
  (RecoveryProof.HostID proof ==? AgentBinding.ExecutionHostID binding) &&
  (RecoveryProof.SourcePolicyRevision proof ==? Policy.SourcePolicyRevision policy)%Z &&
  (RecoveryProof.ProjectionRevision proof ==? Policy.Revision policy)%Z &&
  (RecoveryProof.ExecutorPolicyRevision proof ==? Policy.LocalExecutorPolicyRevision policy)%Z &&
  (RecoveryProof.ExecutorPolicySHA256 proof ==? Policy.LocalExecutorPolicySHA256 policy) &&
  (RecoveryProof.OwnershipEpoch proof ==? RecoveryRequest.OwnershipEpoch request)%Z &&
  (RecoveryProof.RuntimeVersion proof ==? AgentVersion a) &&
  negb (GoTime.After (RecoveryProof.ObservedAt proof) (GoTime.Add now GoTime.Second)) &&
  (GoTime.Sub now (RecoveryProof.ObservedAt proof) <=? localExecutorClientTimeout)%Z.

Definition inspectSoftwareClaimRecovery (request : RecoveryRequest.t) (binding : AgentBinding.t) (policy : Policy.t) :
    io RecoveryProof.t :=
  let$ proof := ask_ok (InspectClaim (RecoveryInspection.mk request (Policy.LocalExecutorPolicySHA256 policy))
    (Fence.mk (Policy.SourcePolicyRevision policy) (AgentBinding.OwnershipEpoch binding) (Policy.Revision policy)
       (Policy.LocalExecutorPolicyRevision policy))) in
  let$ now := ask Now in
  let$ _ := require (proof_accepted proof request binding policy now)
    "software claim recovery absence proof does not match the authenticated policy and installed runtime" in
  ret proof.

Definition inspect_matching (intent : Intent.t) (binding : AgentBinding.t) (policy : Policy.t) (message : string) :
    io RecoveryProof.t :=
  let$ proof := inspectSoftwareClaimRecovery (Intent.Request intent) binding policy in
  let$ _ := require (Intent.proof_matches proof intent) message in
  ret proof.

(** ** Settling *)

Definition intent_settled (intent : Intent.t) (receipt : Receipt.t) : Intent.t :=
  let intent := intent <| Intent.Settled := true |> <| Intent.SettledAt := Receipt.ObservedAt receipt |> in
  if (Intent.SchemaVersion intent ==? 2)%Z then intent <| Intent.TerminalClear := Some receipt |> else intent.

(** The job that a clear of the intent must name. *)
Definition anchor (intent : Intent.t) : Job.t :=
  Job.mk 2 "" (RecoveryRequest.JobID (Intent.Original intent)) "" None None None (Intent.UpdaterID intent) "" "" 0 0
    None false "" "" "" "" "" "" "" "" "" "" "" 0 "" "" "" "" 0 0 0 false false.

Definition settleSoftwareClaimRecovery (binding : AgentBinding.t) (policy : Policy.t) (intent : Intent.t)
    (over : option Job.t) (clearRequest : ClaimRequest.t) (failedReportAccepted : bool) : io unit :=
  let$ _ := require (match over with
                     | Some over => is_ok (validateV2RecoveryClear (anchor intent) over (Intent.UpdaterID intent))
                     | None => false
                     end) "software claim recovery clear does not prove the exact requested job" in
  let$ proof := inspectSoftwareClaimRecovery (Intent.Request intent) binding policy in
  let$ now := ask Now in
  let receipt := Receipt.mk clearRequest proof now
    (if failedReportAccepted then Some ("failed", "execution_failed") else None) in
  let$ _ := require (negb (Intent.receipt_invalid receipt intent))
    "software claim recovery actual terminal clear or root proof disagrees with the intent" in
  let$ j := look in
  let$ _ := require (negb (Job.present (Data.ActivePlan (data j))) && negb (Job.present (Data.ActivePortPlan (data j))))
    "software claim recovery cannot clear a journal with execution state" in
  let$ _ := require (match Data.ActiveJob (data j) with
                     | Some active => softwareClaimRecoveryCursorMatches intent active
                     | None => true
                     end) "software claim recovery cannot clear another active cursor" in
  let pending := Data.PendingReports (data j) in
  let$ read := attempt readSoftwareClaimRecoveryJournal in
  let$ _ := require (match read with
                     | Ok d => softwareClaimRecoveryPendingAllowed d && (length (Data.PendingReports d) ==? length pending)
                     | Err _ => false
                     end) "software claim recovery cannot clear unrelated or terminal pending reports" in
  let$ _ := match pending with
            | [] => ret tt
            | _ :: _ => journal_do (DropJobReports (RecoveryRequest.JobID (Intent.Original intent)))
            end in
  let$ _ := journal_do ClearActive in
  saveSoftwareClaimRecoveryIntent (Intent.digest intent) (intent_settled intent receipt).

Definition CompleteSoftwareClaimRecoveryClear (binding : AgentBinding.t) (policy : Policy.t) (over : option Job.t)
    (clearRequest : ClaimRequest.t) : io unit :=
  let$ intent := ask_ok LoadIntent in
  match intent with
  | Some intent =>
      let$ _ := require (negb (Intent.Settled intent)) "software claim recovery clear has no durable intent" in
      settleSoftwareClaimRecovery binding policy intent over clearRequest false
  | None => stop "software claim recovery clear has no durable intent"
  end.

(** ** Adopting a terminal-only lease *)

Definition terminal_lease_invalid (job : Job.t) (request : RecoveryRequest.t) (proof : RecoveryProof.t) (now : GoTime.t) : bool :=
  is_err (RecoveryRequest.Validate request) || is_err (RecoveryProof.Validate proof) ||
  negb (RecoveryProof.NoMutation proof) || (RecoveryProof.RequestSHA256 proof !=? RecoveryRequest.sha256 request) ||
  GoTime.After (RecoveryProof.ObservedAt proof) (GoTime.Add now GoTime.Second) ||
  (localExecutorClientTimeout <? GoTime.Sub now (RecoveryProof.ObservedAt proof))%Z ||
  negb (Job.isV2SoftwareJob job) || is_err (Job.validateOperationUnion job) || is_err (validateJournalSoftwareJob job) ||
  Job.SoftwareClaimRejected job || (Job.ID job !=? RecoveryRequest.JobID request) ||
  (Job.TargetID job !=? RecoveryRequest.TargetID request) ||
  (Job.CurrentVersion job !=? RecoveryRequest.CurrentVersion request) ||
  (Job.EffectiveVersion job !=? RecoveryRequest.TargetVersion request) ||
  (Job.OwnershipEpoch job !=? RecoveryRequest.OwnershipEpoch request)%Z || negb (Job.RecoveryRequired job) ||
  Job.RecoveryClear job || (Job.LeaseGeneration job !=? u64_succ (RecoveryRequest.LeaseGeneration request))%Z ||
  (Job.ReportSequence job =? 0)%Z || negb (re_match identifierPattern (Job.CommandID job)) ||
  (Job.LeaseToken job !=? "") || (Job.ReleaseToken job !=? "") ||
  match ParseRFC3339Nano (Job.LeaseExpiresAt job) with Some t => negb (GoTime.After t now) | None => true end ||
  (Job.AgentServiceID job !=? RecoveryProof.UpdaterID proof) || (Job.HostID job !=? RecoveryProof.HostID proof) ||
  (Job.OwnershipEpoch job !=? RecoveryProof.OwnershipEpoch proof)%Z ||
  match Job.SoftwareUpdate job with
  | None => true
  | Some b =>
      is_err (SoftwareBinding.Validate b) ||
      (SoftwareBinding.ConfigRevision b !=? RecoveryRequest.ConfigRevision request)%Z ||
      (SoftwareBinding.SourcePolicyRevision b !=? RecoveryProof.SourcePolicyRevision proof)%Z ||
      (SoftwareBinding.ProjectionRevision b !=? RecoveryProof.ProjectionRevision proof)%Z ||
      (SoftwareBinding.ExecutorPolicyRevision b !=? RecoveryProof.ExecutorPolicyRevision proof)%Z ||
      (SoftwareBinding.ExecutorPolicySHA256 b !=? RecoveryProof.ExecutorPolicySHA256 proof)
  end.

(** The saved authority of the retained cursor allows the replacement. *)
Definition authority_kept (active job : Job.t) (request : RecoveryRequest.t) : check :=
  match Job.SoftwareUpdate active, Job.SoftwareUpdate job with
  | Some saved, Some b =>
      if is_ok (SoftwareBinding.Validate saved) then
        if (saved !=? b) || (Job.PolicyRevision active !=? Job.PolicyRevision job)%Z
        then Err "terminal software recovery cannot replace saved software authority" else Ok tt
      else if negb (Job.SoftwareClaimRejected active) || (Job.PolicyRevision active !=? 0)%Z ||
         is_err (SoftwareBinding.validateIntent saved) ||
         (SoftwareBinding.ConfigRevision saved !=? SoftwareBinding.ConfigRevision b)%Z ||
         (SoftwareBinding.CommandSHA256 saved !=? SoftwareBinding.CommandSHA256 b) ||
         ((SoftwareBinding.ConfigSHA256 saved !=? "") &&
          (SoftwareBinding.ConfigSHA256 saved !=? SoftwareBinding.ConfigSHA256 b))
      then Err "terminal software recovery cannot replace saved software authority" else Ok tt
  | Some _, None => Err "terminal software recovery cannot replace saved software authority"
  | None, _ =>
      if (Job.PolicyRevision active !=? RecoveryRequest.ConfigRevision request)%Z
      then Err "terminal software recovery legacy cursor does not retain its original configuration revision" else Ok tt
  end.

(** The same fresh terminal-only cursor is already durable. *)
Definition already_adopted (active job : Job.t) : bool :=
  (Job.LeaseGeneration active ==? Job.LeaseGeneration job)%Z && (Job.CommandID active ==? Job.CommandID job) &&
  (Job.LeaseExpiresAt active ==? Job.LeaseExpiresAt job) && negb (Job.SoftwareClaimRejected active) &&
  Job.present (Job.SoftwareUpdate active) && (Job.SoftwareUpdate active ==? Job.SoftwareUpdate job) &&
  (Job.PolicyRevision active ==? Job.PolicyRevision job)%Z.

Definition SetTerminalSoftwareClaimRecovery (job : Job.t) (request : RecoveryRequest.t) (proof : RecoveryProof.t) : io unit :=
  let$ j := look in
  match poisoned j with
  | Some e => stop e
  | None =>
      let$ now := ask Now in
      let$ _ := require (negb (terminal_lease_invalid job request proof now))
        "terminal software recovery lease or root absence proof is invalid" in
      let$ _ := require (is_ok (validateJournalData (data j)) && no_execution (data j) &&
                         softwareClaimRecoveryPendingAllowed (data j))
        "terminal software recovery cannot replace execution or pending report state" in
      let$ loaded := attempt (ask_ok LoadIntent) in
      let$ _ := require (match loaded with
                         | Ok (Some intent) => negb (Intent.Settled intent) && (Intent.Request intent ==? request) &&
                                               softwareClaimRecoveryJobMatches intent job
                         | _ => false
                         end) "terminal software recovery durable request compare-and-swap failed" in
      match Data.ActiveJob (data j) with
      | None => journal_do (saveSoftwareRecoveryAdoptionLocked job job)
      | Some active =>
          let$ _ := require (Job.sameSoftwareJobIdentity active job && negb (Job.LeaseGeneration active =? 0)%Z &&
                             re_match identifierPattern (Job.CommandID active) && (Job.LeaseToken active ==? "") &&
                             (Job.ReleaseToken active ==? ""))
            "terminal software recovery cannot replace another retained cursor" in
          let$ _ := check_ok (authority_kept active job request) in
          if already_adopted active job then ret tt
          else
            let$ _ := require (negb ((RecoveryRequest.LeaseGeneration request <? Job.LeaseGeneration active)%Z ||
                                     (Job.CommandID active ==? Job.CommandID job)))
              "terminal software recovery requires the exact supplied fresh lease" in
            journal_do (saveSoftwareRecoveryAdoptionLocked active job)
      end
  end.

(** ** The terminal-only path *)

Definition HasSoftwareClaimRecoveryIntent (jobID : string) : io bool :=
  let$ intent := ask_ok LoadIntent in
  match intent with
  | None => ret false
  | Some intent =>
      if Intent.Settled intent then ret false
      else if (jobID !=? "") && (RecoveryRequest.JobID (Intent.Original intent) !=? jobID)
      then stop "another terminal-only software claim recovery intent blocks normal job processing"
      else ret true
  end.

Definition PrepareSoftwareClaimRecoveryClaim (binding : AgentBinding.t) (policy : Policy.t) (active : Job.t) : io unit :=
  let$ loaded := ask_ok LoadIntent in
  match loaded with
  | None => stop "software claim recovery cannot claim another or an executing cursor"
  | Some intent =>
      let generation := Job.LeaseGeneration active in
      let$ _ := require (negb (Intent.Settled intent) && Intent.policyMatches intent policy &&
                         softwareClaimRecoveryCursorMatches intent active && (1 <=? generation)%Z &&
                         (generation <? max_int64)%Z)
        "software claim recovery cannot claim another or an executing cursor" in
      if Intent.wasAttempted intent generation then fail softwareClaimRecoveryGenerationRereadError
      else
        let request := (Intent.Original intent) <| RecoveryRequest.LeaseGeneration := generation |> in
        let$ _ := inspectSoftwareClaimRecovery request binding policy in
        let$ now := ask Now in
        saveSoftwareClaimRecoveryIntent (Intent.digest intent)
          (intent <| Intent.Request := request |>
                  <| Intent.Attempts := (Intent.Attempts intent ++ [Attempt.mk generation now false])%list |>)
  end.

Definition ResumeSoftwareClaimRecovery (binding : AgentBinding.t) (policy : Policy.t) (job : Job.t) : io unit :=
  let$ loaded := ask_ok LoadIntent in
  let$ j := look in
  match loaded with
  | None => stop "software claim recovery cannot resume without its exact nonexecuting durable intent"
  | Some intent =>
      let$ _ := require
        (negb (Intent.Settled intent) && Intent.policyMatches intent policy && softwareClaimRecoveryJobMatches intent job &&
         (AgentBinding.ExecutionHostID binding ==? Intent.HostID intent) &&
         (AgentBinding.OwnershipEpoch binding ==? RecoveryRequest.OwnershipEpoch (Intent.Request intent))%Z &&
         is_ok (validateHostPullClaim job (NodeID a) binding policy) &&
         negb (Job.present (Data.ActivePlan (data j))) && negb (Job.present (Data.ActivePortPlan (data j))) &&
         match Data.PendingReports (data j) with [] => true | _ => false end)
        "software claim recovery cannot resume without its exact nonexecuting durable intent" in
      let$ proof := inspect_matching intent binding policy
        "software claim recovery terminal report lacks its exact immutable root history" in
      let$ _ := SetTerminalSoftwareClaimRecovery job (Intent.Request intent) proof in
      let$ _ := ask_ok (SendReport (Job.ID job)
        (Report.mk (NodeID a) "" (Job.ReportSequence job) (Job.LeaseGeneration job) "failed" 100
           "software_claim_orphan_recovered"
           "explicit recovery proved no local mutation; the original job was settled without applying software" "" "" None)) in
      let clearRequest := ClaimRequest.mk (NodeID a) (AgentBinding.ExecutionHostID binding)
        (int64_of_u64 (Job.LeaseGeneration job)) (RecoveryRequest.OwnershipEpoch (Intent.Request intent)) (Job.ID job) in
      let$ answered := attempt (ask_ok (ClaimHost clearRequest)) in
      match answered with
      | Ok (over, true) => settleSoftwareClaimRecovery binding policy intent over clearRequest true
      | _ => stop "software claim recovery terminal result awaits authenticated same-job clear; the durable intent remains"
      end
  end.

(** ** The operator's terminal-only entry *)

Definition validateSoftwareClaimRecoveryPolicy (request : RecoveryRequest.t) (binding : AgentBinding.t) (policy : Policy.t) : check :=
  let e := Err "software claim recovery request does not match the current authenticated target and ownership policy" in
  match hostPullPolicyTarget policy (RecoveryRequest.TargetID request) with
  | None => e
  | Some target =>
      let epoch := RecoveryRequest.OwnershipEpoch request in
      if is_err (RecoveryRequest.Validate request) ||
         (PolicyTarget.appliedConfigRevision target !=? RecoveryRequest.ConfigRevision request)%Z ||
         (AgentBinding.TransportMode binding !=? HostTransportPullV2) ||
         (Policy.TransportMode policy !=? HostTransportPullV2) ||
         (AgentBinding.OwnershipEpoch binding !=? epoch)%Z || (Policy.OwnershipEpoch policy !=? epoch)%Z ||
         (AgentBinding.ExecutionHostID binding !=? Policy.ExecutionHostID policy) || Policy.ObserveOnly policy ||
         (Policy.SourcePolicyRevision policy <? 1)%Z || (Policy.Revision policy <? 1)%Z ||
         (Policy.LocalExecutorPolicyRevision policy <? 1)%Z ||
         negb (re_match digestPattern (Policy.LocalExecutorPolicySHA256 policy)) ||
         Job.present (Policy.RuntimeTokenRotation policy) || Job.present (Policy.SelfUpdate policy) ||
         (Policy.SelfUpdateID policy !=? "")
      then e else Ok tt
  end.

Definition softwareClaimRecoveryPolicy (request : RecoveryRequest.t) : io (AgentBinding.t * Policy.t) :=
  let$ policy := or_stop (ask_ok FetchPolicy) "authenticate software claim recovery policy" in
  let$ _ := require (is_ok (Policy.validateForService policy (NodeID a) 0)) "authenticate software claim recovery policy" in
  let binding := Policy.binding policy in
  let$ _ := require (is_ok (AgentBinding.validateForService binding (NodeID a)))
    "authenticate software claim recovery host binding" in
  let$ _ := check_ok (validateSoftwareClaimRecoveryPolicy request binding policy) in
  ret (binding, policy).

(** [sameSoftwareClaimRecoveryAuthority]. *)
Definition sameSoftwareClaimRecoveryAuthority (x y : Intent.t) : bool :=
  (Intent.UpdaterID x ==? Intent.UpdaterID y) && (Intent.HostID x ==? Intent.HostID y) &&
  (RecoveryRequest.OwnershipEpoch (Intent.Original x) ==? RecoveryRequest.OwnershipEpoch (Intent.Original y))%Z &&
  (Intent.SourcePolicyRevision x ==? Intent.SourcePolicyRevision y)%Z &&
  (Intent.ProjectionRevision x ==? Intent.ProjectionRevision y)%Z &&
  (Intent.ExecutorPolicyRevision x ==? Intent.ExecutorPolicyRevision y)%Z &&
  (Intent.ExecutorPolicySHA256 x ==? Intent.ExecutorPolicySHA256 y).

(** [softwareClaimRecoveryRawSHA256] of the file the intent was written to. *)
Definition raw_digest (intent : Intent.t) : string :=
  sha256_hex (default "" (Marshal (Intent.to_json intent)) +:+ String "010" "").

(** [transitionSoftwareClaimRecoveryIntent]: the settled record is archived before the
    next job's intent takes its place.  Comparing the archived records with the next one
    (no earlier job is reused, the chain is complete) is part of [ArchiveIntent], which
    may refuse. *)
Definition transition_invalid (previousRaw : string) (next : Intent.t) (proof : RecoveryProof.t) : bool :=
  negb (softwareClaimRecoveryRawDigestValid previousRaw) || (Intent.SchemaVersion next !=? 2)%Z ||
  is_err (Intent.validate next) || Intent.Settled next || Job.present (Intent.TerminalClear next) ||
  (length (Intent.Attempts next) !=? 1) || (Intent.PreviousSettledRawSHA256 next !=? previousRaw) ||
  negb (Intent.proof_matches proof next).

Definition replaceable_head (old : option Intent.t) (previousRaw : string) (next : Intent.t) : bool :=
  match old with
  | None => false
  | Some old =>
      (raw_digest old ==? previousRaw) && (Intent.SchemaVersion old ==? 2)%Z && Intent.Settled old &&
      Job.present (Intent.TerminalClear old) &&
      (RecoveryRequest.JobID (Intent.Original old) !=? RecoveryRequest.JobID (Intent.Original next)) &&
      sameSoftwareClaimRecoveryAuthority old next
  end.

Definition transitionSoftwareClaimRecoveryIntent (previousRaw : string) (next : Intent.t) (proof : RecoveryProof.t) : io unit :=
  let$ _ := require (negb (transition_invalid previousRaw next proof))
    "software claim recovery history transition lacks an exact root proof" in
  let$ old := or_stop (ask_ok LoadIntent) "software claim recovery raw head compare-and-swap failed" in
  let$ _ := require (replaceable_head old previousRaw next) "software claim recovery raw head compare-and-swap failed" in
  let$ _ := match old with Some i => ask_ok (ArchiveIntent i) | None => ret tt end in
  let$ current := or_stop (ask_ok LoadIntent)
    "software claim recovery raw head changed after durable archive; no claim was sent" in
  let$ _ := require (Job.present current && (current ==? old))
    "software claim recovery raw head changed after durable archive; no claim was sent" in
  let$ _ := require (Job.present (Intent.encoded next)) "encode software claim recovery history head" in
  or_stop (ask_ok (WriteIntent next))
    "persist software claim recovery history head; outcome remains uncertain and no claim was sent".

Definition claimSoftwareClaimRecovery (binding : AgentBinding.t) (policy : Policy.t) (intent : Intent.t) : io unit :=
  let request := Intent.Request intent in
  let$ _ := inspect_matching intent binding policy
    "software claim recovery root proof does not match its complete durable history" in
  let claimRequest := ClaimRequest.mk (NodeID a) (AgentBinding.ExecutionHostID binding)
    (int64_of_u64 (RecoveryRequest.LeaseGeneration request)) (RecoveryRequest.OwnershipEpoch request)
    (RecoveryRequest.JobID request) in
  let$ answered := attempt (ask_ok (ClaimHost claimRequest)) in
  match answered with
  | Err _ => fail softwareClaimRecoveryGenerationRereadError
  | Ok (job, true) => settleSoftwareClaimRecovery binding policy intent job claimRequest false
  | Ok (None, false) => fail softwareClaimRecoveryGenerationRereadError
  | Ok (Some job, false) =>
      if (Job.ProtocolVersion job !=? 2)%Z || (Job.ID job !=? RecoveryRequest.JobID request) ||
         (Job.LeaseGeneration job !=? u64_succ (RecoveryRequest.LeaseGeneration request))%Z ||
         negb (Job.RecoveryRequired job) || Job.RecoveryClear job ||
         (Job.EffectiveOperation job !=? updateJobOperationSoftwareUpdate)
      then fail softwareClaimRecoveryGenerationRereadError
      else
        let$ (_, job, bound) := bindSoftwareClaim a binding policy None job in
        let$ _ := settle_with bound in
        let$ _ := require (is_ok (validateHostPullClaim job (NodeID a) binding policy) &&
                           softwareClaimRecoveryJobMatches intent job)
          "software claim recovery fresh lease does not match the durable terminal-only intent" in
        let$ proof := inspect_matching intent binding policy
          "software claim recovery fresh lease lacks its exact immutable root history" in
        let$ _ := SetTerminalSoftwareClaimRecovery job request proof in
        ResumeSoftwareClaimRecovery binding policy job
  end.

(** The checks of the retained cursor, and of the generation where there is none. *)
Definition cursor_refused (request : RecoveryRequest.t) (policy : Policy.t) (intent : Intent.t) (active : Job.t) : option string :=
  let generation := Job.LeaseGeneration active in
  if negb (softwareClaimRecoveryCursorMatches intent active) || (generation <? 1)%Z || (max_int64 <=? generation)%Z ||
     match hostPullPolicyTarget policy (RecoveryRequest.TargetID request) with
     | Some target => (Job.EffectiveType active !=? PolicyTarget.ServiceType target) ||
                      (Job.DeploymentMode active !=? PolicyTarget.DeploymentMode target)
     | None => true
     end
  then Some "software claim recovery retained cursor does not match its durable intent"
  else if (RecoveryRequest.LeaseGeneration request <? generation)%Z
  then Some "software claim recovery requires a current generation at least as new as the retained exact job cursor"
  else None.

Definition reread_needed (request : RecoveryRequest.t) (intent : Intent.t) (known confirmed : bool) : bool :=
  let generation := RecoveryRequest.LeaseGeneration request in
  let original := RecoveryRequest.LeaseGeneration (Intent.Original intent) in
  known && ((generation <? original)%Z ||
            (negb confirmed && ((generation ==? original)%Z || Intent.wasAttempted intent generation))).

Definition recoverSoftwareClaim (request : RecoveryRequest.t) (confirmed : bool) : io unit :=
  let$ _ := check_ok (RecoveryRequest.Validate request) in
  let$ (binding, policy) := softwareClaimRecoveryPolicy request in
  let$ _ := require (Parts.ExecutionControlPlane (parts a)) "software claim recovery execution dependencies are incomplete" in
  let$ saved := ask_ok LoadIntent in
  let$ _ := require (match saved with
                     | Some i => (Intent.UpdaterID i ==? NodeID a) &&
                                 (Intent.HostID i ==? AgentBinding.ExecutionHostID binding) && Intent.policyMatches i policy
                     | None => true
                     end) "software claim recovery cannot replace another durable intent or policy" in
  let rotating := match saved with
                  | Some i => negb (RecoveryRequest.sameIntent (Intent.Original i) request)
                  | None => false
                  end in
  let$ _ := require (match saved with
                     | Some i => negb rotating || ((Intent.SchemaVersion i ==? 2)%Z && Intent.Settled i &&
                                   Job.present (Intent.TerminalClear i) &&
                                   (RecoveryRequest.JobID (Intent.Original i) !=? RecoveryRequest.JobID request))
                     | None => true
                     end) "software claim recovery cannot replace an unsettled or legacy durable intent" in
  if match saved with Some i => Intent.Settled i && negb rotating | None => false end then ret tt
  else
    let$ d := readSoftwareClaimRecoveryJournal in
    let known := Job.present saved && negb rotating in
    let fresh := Intent.new request (NodeID a) (AgentBinding.ExecutionHostID binding) policy in
    let previousRaw := match saved with Some i => if rotating then raw_digest i else "" | None => "" end in
    let intent := match saved with
                  | Some i => if rotating then fresh <| Intent.PreviousSettledRawSHA256 := previousRaw |> else i
                  | None => fresh
                  end in
    let generation := RecoveryRequest.LeaseGeneration request in
    let$ _ := match Data.ActiveJob d with
              | Some active => match cursor_refused request policy intent active with Some e => stop e | None => ret tt end
              | None => if reread_needed request intent known confirmed
                        then fail softwareClaimRecoveryGenerationRereadError else ret tt
              end in
    if Intent.wasAttempted intent generation && negb confirmed then fail softwareClaimRecoveryGenerationRereadError
    else
      let$ proof := inspectSoftwareClaimRecovery request binding policy in
      let$ _ := require (RecoveryProof.PriorSettledRawSHA256 proof ==? Intent.PreviousSettledRawSHA256 intent)
        "software claim recovery root proof does not bind the exact preserved raw history" in
      let$ now := ask Now in
      let next := intent <| Intent.Request := request |>
                         <| Intent.Attempts := (Intent.Attempts intent ++ [Attempt.mk generation now confirmed])%list |> in
      let$ _ := if rotating then transitionSoftwareClaimRecoveryIntent previousRaw next proof
                else saveSoftwareClaimRecoveryIntent (match saved with Some _ => Intent.digest intent | None => "" end) next in
      let$ proof := inspectSoftwareClaimRecovery request binding policy in
      let$ _ := require (RecoveryProof.PriorSettledRawSHA256 proof ==? Intent.PreviousSettledRawSHA256 intent)
        "software claim recovery root history changed after durable head transition; no claim was sent" in
      let$ _ := install_journal (Journal (normalize d) ∅ None) in
      claimSoftwareClaimRecovery binding policy next.

(** ** The operator's entry for a saved plan *)

Definition pending_foreign (active : Job.t) (p : Pending.t) : bool :=
  let r := Pending.report p in
  (Pending.JobID p !=? Job.ID active) || (Report.ServiceID r !=? Job.AgentServiceID active) ||
  (Report.LeaseGeneration r !=? Job.LeaseGeneration active)%Z || (Report.Sequence r <? 1)%Z ||
  (Report.LeaseToken r !=? "") || Job.present (Report.PortReconfigure r).

(** [readSoftwarePlanRecoveryJournal]: the job, its plan and the journal. *)
Definition readSoftwarePlanRecoveryJournal : io (Job.t * MutationPlan.t * journal) :=
  let$ fenced := ask_ok ClearFence in
  let$ _ := require (negb fenced) "saved software recovery journal has an unresolved clear fence" in
  let$ file := ask_ok ReadJournalFile in
  match file with
  | None => stop "saved software recovery journal is missing or unsafe"
  | Some d =>
      match Data.ActiveJob d, Data.ActivePlan d with
      | Some active, Some plan =>
          if is_err (validateJournalData d) || (Data.NextSeq d <? 1)%Z || Job.present (Data.ActivePortPlan d) ||
             Job.present (Data.ActivePortPolicy d)
          then stop "saved software recovery journal lacks one valid original software plan"
          else if existsb (pending_foreign active) (Data.PendingReports d)
          then stop "saved software recovery journal contains another or unsafe pending report"
          else ret (active, plan, Journal d ∅ None)
      | _, _ => stop "saved software recovery journal lacks one valid original software plan"
      end
  end.

Definition validateSoftwarePlanRecoveryOriginal (request : RecoveryRequest.t) (binding : AgentBinding.t) (policy : Policy.t)
    (active : Job.t) (plan : MutationPlan.t) : check :=
  let generation := Job.LeaseGeneration active in
  if negb (Job.isV2SoftwareJob active) || Job.SoftwareClaimRejected active || is_err (Job.validateOperationUnion active) ||
     negb (softwareClaimIdentityMatches active (Policy.ServiceID policy) binding policy) ||
     (Job.ID active !=? RecoveryRequest.JobID request) || (Job.TargetID active !=? RecoveryRequest.TargetID request) ||
     (Job.CurrentVersion active !=? RecoveryRequest.CurrentVersion request) ||
     (Job.EffectiveVersion active !=? RecoveryRequest.TargetVersion request) ||
     (Job.OwnershipEpoch active !=? RecoveryRequest.OwnershipEpoch request)%Z || (generation <? 1)%Z ||
     (max_int64 <=? generation)%Z || (RecoveryRequest.LeaseGeneration request <? generation)%Z ||
     negb (re_match identifierPattern (Job.CommandID active)) || (Job.LeaseToken active !=? "") ||
     (Job.ReleaseToken active !=? "") || is_err (MutationPlan.Validate plan) ||
     is_err (validateJournalSoftwarePlan active plan false) ||
     (MutationPlan.ConfigSHA256 plan !=? Policy.LocalExecutorPolicySHA256 policy)
  then Err "saved software recovery request does not match its original trusted cursor and plan"
  else if match ParseRFC3339Nano (Job.LeaseExpiresAt active) with Some t => GoTime.IsZero t | None => true end
  then Err "saved software recovery original lease metadata is invalid"
  else
    match Job.SoftwareUpdate active with
    | Some b =>
        if negb (match hostPullPolicyTarget policy (RecoveryRequest.TargetID request) with
                 | Some target => softwareClaimPolicyMatches active policy target
                 | None => false
                 end) || (SoftwareBinding.ConfigRevision b !=? RecoveryRequest.ConfigRevision request)%Z
        then Err "saved software recovery authority differs from the authenticated policy" else Ok tt
    | None =>
        if (Job.PolicyRevision active !=? RecoveryRequest.ConfigRevision request)%Z
        then Err "saved legacy software recovery cursor lacks its original configuration revision" else Ok tt
    end.

(** [AdoptRecoveredSoftwareClaimAfterGenerationRead]. *)
Definition reread_adoption_refused (d : Data.t) (active : Job.t) (plan : MutationPlan.t) (job : Job.t)
    (request : RecoveryRequest.t) : bool :=
  is_err (RecoveryRequest.Validate request) || is_err (MutationPlan.Validate plan) ||
  negb (Job.sameSoftwareJobIdentity active job) || Job.SoftwareClaimRejected active || Job.SoftwareClaimRejected job ||
  is_err (Job.validateOperationUnion job) || is_err (validateJournalSoftwareJob job) ||
  (Job.LeaseGeneration active =? 0)%Z || (RecoveryRequest.LeaseGeneration request <? Job.LeaseGeneration active)%Z ||
  (Job.LeaseGeneration job !=? u64_succ (RecoveryRequest.LeaseGeneration request))%Z || negb (Job.RecoveryRequired job) ||
  Job.RecoveryClear job || (Job.ReportSequence job =? 0)%Z || (Job.CommandID active ==? Job.CommandID job) ||
  negb (re_match identifierPattern (Job.CommandID active)) || negb (re_match identifierPattern (Job.CommandID job)) ||
  (Job.LeaseToken active !=? "") || (Job.ReleaseToken active !=? "") || (Job.LeaseToken job !=? "") ||
  (Job.ReleaseToken job !=? "") || (Job.ID job !=? RecoveryRequest.JobID request) ||
  (Job.TargetID job !=? RecoveryRequest.TargetID request) ||
  (Job.CurrentVersion job !=? RecoveryRequest.CurrentVersion request) ||
  (Job.EffectiveVersion job !=? RecoveryRequest.TargetVersion request) ||
  (Job.OwnershipEpoch job !=? RecoveryRequest.OwnershipEpoch request)%Z || is_err (validateJournalData d) ||
  Job.present (Data.ActivePortPlan d) || Job.present (Data.ActivePortPolicy d) ||
  is_err (validateJournalSoftwarePlan job plan false) ||
  match Job.SoftwareUpdate job with
  | Some b => is_err (SoftwareBinding.Validate b) ||
              (SoftwareBinding.ConfigRevision b !=? RecoveryRequest.ConfigRevision request)%Z
  | None => true
  end.

Definition reread_authority_kept (active : Job.t) (plan : MutationPlan.t) (job : Job.t) (request : RecoveryRequest.t) : check :=
  match Job.SoftwareUpdate active, Job.SoftwareUpdate job with
  | Some saved, Some b =>
      if is_err (SoftwareBinding.Validate saved) || (saved !=? b) || (Job.PolicyRevision active !=? Job.PolicyRevision job)%Z
      then Err "explicit software reconciliation cannot replace frozen policy authority" else Ok tt
  | None, Some b =>
      if (Job.PolicyRevision active !=? RecoveryRequest.ConfigRevision request)%Z ||
         (MutationPlan.ConfigSHA256 plan !=? SoftwareBinding.ExecutorPolicySHA256 b)
      then Err "explicit software reconciliation legacy cursor lacks its original trusted policy plan" else Ok tt
  | _, None => Err "explicit software reconciliation does not match its original trusted plan and exact generation request"
  end.

Definition expiry_readable (job : Job.t) : bool :=
  match ParseRFC3339Nano (Job.LeaseExpiresAt job) with Some t => negb (GoTime.IsZero t) | None => false end.

Definition AdoptRecoveredSoftwareClaimAfterGenerationRead (job : Job.t) (request : RecoveryRequest.t) : io unit :=
  let e := "explicit software reconciliation does not match its original trusted plan and exact generation request" in
  let$ j := look in
  match poisoned j, Data.ActiveJob (data j), Data.ActivePlan (data j) with
  | Some m, _, _ => stop m
  | None, Some active, Some plan =>
      let$ _ := require (negb (reread_adoption_refused (data j) active plan job request)) e in
      let$ _ := check_ok (reread_authority_kept active plan job request) in
      let$ _ := require (expiry_readable active && expiry_readable job)
        "explicit software reconciliation lease expiry binding is invalid" in
      let$ loaded := attempt (ask_ok LoadIntent) in
      let$ _ := require (match loaded with Ok (Some i) => Intent.Settled i | Ok None => true | Err _ => false end)
        "explicit software reconciliation cannot replace a terminal-only recovery intent" in
      journal_do (saveSoftwareRecoveryAdoptionLocked active job)
  | None, _, _ => stop e
  end.

Definition RecoverSoftwarePlanAfterGenerationRead (request : RecoveryRequest.t) : io unit :=
  let$ _ := check_ok (RecoveryRequest.Validate request) in
  let$ _ := require (Parts.Executor (parts a)) "saved software plan recovery dependencies are unavailable or busy" in
  let$ (binding, policy) := softwareClaimRecoveryPolicy request in
  let$ _ := require (Parts.ExecutionControlPlane (parts a)) "saved software plan recovery control plane is unavailable" in
  let$ loaded := attempt (ask_ok LoadIntent) in
  let$ _ := require (match loaded with Ok (Some i) => Intent.Settled i | Ok None => true | Err _ => false end)
    "terminal-only software claim intent blocks saved-plan reconciliation" in
  let$ (active, plan, j) := readSoftwarePlanRecoveryJournal in
  let$ _ := check_ok (validateSoftwarePlanRecoveryOriginal request binding policy active plan) in
  let$ _ := install_journal j in
  let$ _ := ask_ok (RuntimeForClaim binding policy) in
  let$ answered := attempt (ask_ok (ClaimHost (ClaimRequest.mk (NodeID a) (AgentBinding.ExecutionHostID binding)
    (int64_of_u64 (RecoveryRequest.LeaseGeneration request)) (RecoveryRequest.OwnershipEpoch request)
    (RecoveryRequest.JobID request)))) in
  match answered with
  | Err _ => fail softwarePlanRecoveryGenerationRereadError
  | Ok (over, true) =>
      let$ _ := require (match over with
                         | Some over => is_ok (validateV2RecoveryClear active over (NodeID a))
                         | None => false
                         end) "saved software plan recovery clear does not prove the exact retained job" in
      let$ _ := journal_do (DropJobReports (Job.ID active)) in
      clear_job (Job.ID active)
  | Ok (None, false) => fail softwarePlanRecoveryGenerationRereadError
  | Ok (Some job, false) =>
      if negb (Job.isV2SoftwareJob job) || negb (Job.RecoveryRequired job) || Job.RecoveryClear job ||
         (Job.ID job !=? RecoveryRequest.JobID request) ||
         (Job.LeaseGeneration job !=? u64_succ (RecoveryRequest.LeaseGeneration request))%Z
      then fail softwarePlanRecoveryGenerationRereadError
      else
        let comparison := active <| Job.LeaseGeneration := RecoveryRequest.LeaseGeneration request |> in
        let$ (_, job, bound) := bindSoftwareClaim a binding policy (Some comparison) job in
        let$ _ := settle_with bound in
        let$ _ := check_ok (validateHostPullClaim job (NodeID a) binding policy) in
        let$ _ := require (Job.sameSoftwareJobIdentity active job && negb (Job.SoftwareClaimRejected job) &&
                           match Job.SoftwareUpdate job with
                           | Some b => (SoftwareBinding.ConfigRevision b ==? RecoveryRequest.ConfigRevision request)%Z
                           | None => false
                           end) "fresh software recovery lease changed the retained original intent" in
        let$ _ := AdoptRecoveredSoftwareClaimAfterGenerationRead job request in
        processExecutionJob a binding policy job
  end.
End Recovery.
