(* ===== verification/AgentPoll.v ===== *)
(** The polls of the host agent ([host_pull_execution.go], [host_pull_recovery_control.go],
    [host_pull_control_loop.go]): one claim and what follows from it, when a poll runs at
    all, and the processes an operator or the system starts. *)
From Stdlib Require Import Ascii String ZArith Lia.
From stdpp Require Import base decidable list strings gmap.
From S2P Require Import Prelude Strings Regexp Patterns Effects Sha256 Json SelfUpdateState SelfUpdateGrant PlanDigest Release TokenRotation Jobs Journal Grants AgentPolicy AgentClaims RecoveryIntent AgentWorld AgentExecution AgentRecovery.

Open Scope string_scope.

Section Poll.
Context `{UnicodeTables} `{TimeZones} `{PortPolicies} `{!PortFields} `{GrantContracts} `{Formats}.
Context (a : agent).

(** ** One poll *)

(** The Panel says that the active job is over. *)
Definition clear_answered (active : option Job.t) (job : option Job.t) : io unit :=
  match active, job with
  | Some active, Some job =>
      let$ _ := if Job.RecoveryClear job then check_ok (validateV2RecoveryClear active job (NodeID a))
                else require (Job.sameRecoveredJobIntent active job && isTerminalUpdateStatus (Job.Status job))
                       "terminal pull recovery proof does not match the active job" in
      let$ _ := if Job.isV2SoftwareJob active then journal_do (DropJobReports (Job.ID active)) else ret tt in
      clear_job (Job.ID active)
  | _, _ => stop "terminal pull recovery proof does not match the active job"
  end.

(** A claim whose authority cannot be bound is kept as rejected. *)
Definition retain_rejected (binding : AgentBinding.t) (policy : Policy.t) (active : option Job.t) (job : Job.t)
    (e : failure) : io unit :=
  let$ _ :=
    if negb (Job.present active) && negb (Job.RecoveryRequired job) &&
       softwareClaimIdentityMatches job (NodeID a) binding policy &&
       match Job.SoftwareUpdate job with Some b => is_ok (SoftwareBinding.validateIntent b) | None => false end
    then journal_do (SetActive (Some (job <| Job.SoftwareClaimRejected := true |>))) else ret tt in
  fail e.

(** A claimed job outside the terminal-only path. *)
Definition run_claim (binding : AgentBinding.t) (policy : Policy.t) (leaseAvailable : bool) (active : option Job.t)
    (job : Job.t) : io unit :=
  let$ (active, job, bound) := bindSoftwareClaim a binding policy active job in
  match bound with
  | Err e => retain_rejected binding policy active job e
  | Ok _ =>
      let$ _ := require (negb (Job.SoftwareClaimRejected job)) "software claim is retained for explicit terminal-only recovery" in
      let$ _ := check_ok (validateHostPullClaim job (NodeID a) binding policy) in
      let$ _ := match active with
                | None => ret tt
                | Some active =>
                    let$ _ := require ((Job.ID active ==? Job.ID job) && Job.RecoveryRequired job)
                      ("refusing claim " +:+ Job.ID job +:+ " while interrupted job " +:+ Job.ID active +:+ " awaits recovery") in
                    let$ _ := require (Job.sameRecoveredJobIntent active job)
                      ("refusing recovered claim " +:+ Job.ID job +:+ " because its immutable intent changed") in
                    if Job.isV2SoftwareJob active && negb leaseAvailable &&
                       (Job.LeaseGeneration job ==? u64_succ (Job.LeaseGeneration active))%Z
                    then journal_do (AdoptRecoveredSoftwareClaim job) else ret tt
                end in
      processExecutionJob a binding policy job
  end.

Definition resume_terminal (binding : AgentBinding.t) (policy : Policy.t) (job : Job.t) : io unit :=
  let$ (_, job, bound) := bindSoftwareClaim a binding policy None job in
  let$ _ := settle_with bound in
  ResumeSoftwareClaimRecovery a binding policy job.

(** The lease of the saved cursor goes into the claim. *)
Definition lease_generation (active : option Job.t) : result string Z :=
  match active with
  | None => Ok 1%Z
  | Some active =>
      let generation := Job.LeaseGeneration active in
      if (generation =? 0)%Z || (max_int64 <? generation)%Z
      then Err "active pull_v2 lease generation is invalid" else Ok generation
  end.

(** The last part of [executeOnce]: the claim and its answer. *)
Definition claim_and_run (binding : AgentBinding.t) (policy : Policy.t) (terminalOnly leaseAvailable : bool) : io unit :=
  let$ j := look in
  let active := Data.ActiveJob (data j) in
  let$ generation := check_ok (lease_generation active) in
  let claimRequest := ClaimRequest.mk (NodeID a) (AgentBinding.ExecutionHostID binding) generation
    (AgentBinding.OwnershipEpoch binding) (match active with Some active => Job.ID active | None => "" end) in
  let$ (job, clearActive) := ask_ok (ClaimHost claimRequest) in
  if clearActive : bool then
    if terminalOnly then CompleteSoftwareClaimRecoveryClear a binding policy job claimRequest
    else clear_answered active job
  else
    match job with
    | None => ret tt
    | Some job =>
        if terminalOnly then resume_terminal binding policy job
        else run_claim binding policy leaseAvailable active job
    end.

Definition executeOnce (binding : AgentBinding.t) (policy : Policy.t) : io unit :=
  let$ policy := ask_ok (RecoveryPolicy policy) in
  let$ _ := ask_ok (RuntimeForClaim binding policy) in
  let$ j := look in
  let active := Data.ActiveJob (data j) in
  let$ terminalOnly := HasSoftwareClaimRecoveryIntent (match active with Some active => Job.ID active | None => "" end) in
  let$ _ := if terminalOnly : bool then
              match active with
              | None => fail softwareClaimRecoveryGenerationRereadError
              | Some active => PrepareSoftwareClaimRecoveryClaim a binding policy active
              end
            else ret tt in
  let$ leaseAvailable :=
    match active with
    | Some active => if Job.isV2SoftwareJob active && LeaseState a then ask (HasActiveLease active) else ret true
    | None => ret true
    end in
  let$ _ := if negb terminalOnly && leaseAvailable then flushExecutionReports else ret tt in
  claim_and_run binding policy terminalOnly leaseAvailable.

(** ** When a poll runs *)

Definition recoveryExecutionReady (j : journal) (binding : AgentBinding.t) (policy : option Policy.t) : bool :=
  match Data.ActiveJob (data j), policy with
  | Some active, Some policy =>
      (AgentBinding.ServiceID binding ==? NodeID a) && (AgentBinding.ServiceType binding ==? ServiceTypeUpdateAgent) &&
      (AgentBinding.TransportMode binding ==? HostTransportPullV2) && (AgentBinding.ExecutionHostID binding !=? "") &&
      (1 <=? AgentBinding.OwnershipEpoch binding)%Z && (Policy.ServiceID policy ==? NodeID a) &&
      (Policy.TransportMode policy ==? HostTransportPullV2) &&
      (Policy.ExecutionHostID policy ==? AgentBinding.ExecutionHostID binding) &&
      (Policy.OwnershipEpoch policy ==? AgentBinding.OwnershipEpoch binding)%Z && (1 <=? Policy.Revision policy)%Z &&
      (1 <=? Policy.SourcePolicyRevision policy)%Z && (1 <=? Policy.LocalExecutorPolicyRevision policy)%Z &&
      re_match digestPattern (Policy.LocalExecutorPolicySHA256 policy) && Parts.ExecutionControlPlane (parts a) &&
      (if Job.EffectiveOperation active ==? updateJobOperationSoftwareUpdate then Parts.Executor (parts a)
       else if Job.EffectiveOperation active ==? updateJobOperationPortReconfigure then Parts.PortExecutor (parts a)
       else false)
  | _, _ => false
  end.

(** What the control loop knows when it starts a cycle. *)
Record turn := Turn {
  turn_binding : AgentBinding.t;
  turn_policy : option Policy.t;
  turn_observations : list TargetObservation.t;
  turn_failed : bool;
}.

(** [startExecutionCycle], with [startExecution]: one execution at a time. *)
Definition startExecutionCycle (t : turn) : io unit :=
  let$ j := look in
  let ready := match Data.ActiveJob (data j) with
               | None => mutationReady (parts a) (turn_binding t) (turn_policy t) (turn_observations t) (turn_failed t)
               | Some _ => recoveryExecutionReady j (turn_binding t) (turn_policy t)
               end in
  match turn_policy t with
  | Some policy => if ready then executeOnce (turn_binding t) policy else ret tt
  | None => ret tt
  end.

(** ** Processes *)

Fixpoint cycles (l : list turn) (j : journal) : prog xop unit :=
  match l with
  | [] => Ret tt
  | t :: l => let* (j, _) := startExecutionCycle t j in cycles l j
  end.

(** The agent opens its journal and polls. *)
Definition agent_process (l : list turn) : prog xop unit :=
  let* opened := on_journal OpenJournal in
  match opened with Ok j => cycles l j | Err _ => Ret tt end.

Definition entry (m : io unit) : prog xop unit := let* _ := m no_journal in Ret tt.

(** What may be started on the host; the lifecycle lock keeps it to one at a time. *)
Inductive started : prog xop unit -> Prop :=
| started_agent l : started (agent_process l)
| started_claim request confirmed : started (entry (recoverSoftwareClaim a request confirmed))
| started_plan request : started (entry (RecoverSoftwarePlanAfterGenerationRead a request)).
End Poll.
