(* ===== verification/AgentProtocol.v ===== *)
(** The protocol a host agent owes the Panel and the executor, as a machine over the
    events of its log.

    A job is opened in the journal, its release staged at most once and, once staged,
    applied at most once; and the journal is cleared only when the Panel took a report
    that ends the job or confirmed that it is over.  A job that was cleared may be opened
    again.  A request reaches the executor only for the plan that the journal on disk
    holds, and not while an unsettled terminal-only intent exists; an apply or a
    reconciliation only under the Panel's answer to the last grant request, which was one
    for this operation, job, plan and session and answers for one request only.  The
    record of the intent only grows. *)
From Stdlib Require Import Ascii String ZArith Lia.
From stdpp Require Import base decidable list strings gmap.
From S2P Require Import Prelude Strings Regexp Patterns Effects Sha256 Json SelfUpdateState SelfUpdateGrant PlanDigest Release Jobs Journal Grants AgentPolicy AgentClaims RecoveryIntent AgentWorld AgentExecution AgentRecovery.

Open Scope string_scope.

(** The job the journal names, and how far it has come. *)
Record work := Work {
  job : string;
  staged : bool;                     (** a stage request was sent *)
  installing : bool;                 (** the Panel took the report of the installation *)
  applied : bool;                    (** an apply request was sent *)
  over : bool;                       (** the Panel took its last report, or says it is over *)
}.

#[global] Instance eta_work : Eta work := fun k => Work (job k) (staged k) (installing k) (applied k) (over k).

(** A grant with the job and the request it was given for. *)
Definition issued : Type := string * GrantRequest.t * Grant.t.

Record state := State {
  current : option work;
  intent : option Intent.t;
  granted : option issued;           (** the last grant request was answered so, and it was not used yet *)
}.

#[global] Instance eta_state : Eta state := fun s => State (current s) (intent s) (granted s).

Definition start : state := State None None None.

(** A terminal-only recovery is under way. *)
Definition frozen (s : state) : bool := match intent s with Some i => negb (Intent.Settled i) | None => false end.

Section Protocol.
Context `{UnicodeTables} `{TimeZones} `{PortPolicies} `{!PortFields}.

Definition saved_plan (saved : option Data.t) : option MutationPlan.t :=
  match saved with Some d => Data.ActivePlan d | None => None end.

(** The journal on disk names the job [id] and holds this plan for it. *)
Definition covers (saved : option Data.t) (id : string) (plan : MutationPlan.t) : bool :=
  (active_of saved ==? Some id) && (saved_plan saved ==? Some plan) && (MutationPlan.JobID plan ==? id).

Definition saved_version (saved : option Data.t) : option Z :=
  match saved with Some d => option_map Job.ProtocolVersion (Data.ActiveJob d) | None => None end.

(** The grant answers a request for this operation, job, plan and session. *)
Definition requested (last : option issued) (operation : string) (plan : MutationPlan.t) (g : Grant.t) : bool :=
  match last with
  | Some (id, r, given) =>
      (given ==? g) && (id ==? MutationPlan.JobID plan) && (GrantRequest.Operation r ==? operation) &&
      (GrantRequest.PlanSHA256 r ==? MutationPlan.PlanSHA256 plan) &&
      (GrantRequest.SessionID r ==? MutationPlan.SessionID plan)
  | None => false
  end.

(** What the grant itself says: a v2 grant names this operation, job and session, and a
    v2 job has a v2 grant.  A grant without a binding is a secret that says nothing. *)
Definition binds (saved : option Data.t) (operation : string) (plan : MutationPlan.t) (g : Grant.t) : bool :=
  match Grant.v2 g with
  | Some b =>
      (V2Binding.Operation b ==? operation) && (V2Binding.SessionID b ==? MutationPlan.SessionID plan) &&
      (GrantAuthorization.JobID (GrantCommand.MutationAuthorization (V2Binding.Command b)) ==? MutationPlan.JobID plan)
  | None => (saved_version saved !=? Some 2%Z)
  end.

Definition authorized (saved : option Data.t) (last : option issued) (operation : string) (plan : MutationPlan.t)
    (g : Grant.t) : bool :=
  requested last operation plan g && binds saved operation plan g.

(** The grant asked for is one for the saved plan. *)
Definition asks_for (saved : option Data.t) (id : string) (r : GrantRequest.t) : bool :=
  match saved_plan saved with
  | Some plan => covers saved id plan && (GrantRequest.PlanSHA256 r ==? MutationPlan.PlanSHA256 plan) &&
                 (GrantRequest.SessionID r ==? MutationPlan.SessionID plan)
  | None => false
  end.

(** The next record of the intent: the same job with at most one more attempt, or, after
    a settled one, another job that names the settled record. *)
Definition extends (previous : option Intent.t) (next : Intent.t) : bool :=
  match previous with
  | None => negb (Intent.Settled next) && (length (Intent.Attempts next) ==? 1)
  | Some p =>
      if Intent.Settled p then
        (RecoveryRequest.JobID (Intent.Original p) !=? RecoveryRequest.JobID (Intent.Original next)) &&
        (Intent.PreviousSettledRawSHA256 next ==? raw_digest p) && negb (Intent.Settled next)
      else
        (Intent.Original p ==? Intent.Original next) && Intent.keeps_attempts (Intent.Attempts p) (Intent.Attempts next) &&
        (Z.of_nat (length (Intent.Attempts next)) <=? Z.of_nat (length (Intent.Attempts p)) + 1)%Z
  end.

Definition noted (k : work) (id : string) (r : Report.t) : work :=
  if id ==? job k
  then k <| installing := installing k || (Report.Status r ==? "installing") |> <| over := over k || ends_job r |>
  else k.

(** [None]: the protocol forbids the event here. *)
Definition step (e : event) (s : state) : option state :=
  let go k := Some (s <| current := Some k |>) in
  let allow b s := if b : bool then Some s else None in
  match e, current s with
  | Opened id, None => go (Work id false false false false)
  | Opened _, Some _ => None
  | Cleared id, Some k => allow ((id ==? job k) && over k) (s <| current := None |>)
  | Cleared _, None => None
  | Moved _ _, _ => None
  | Accepted id r, Some k => go (noted k id r)
  | Accepted _ _, None => Some s
  | Confirmed id, Some k => go (if id ==? job k then k <| over := true |> else k)
  | Confirmed _, None => Some s
  | Asked id operation r saved answer, Some k =>
      allow ((id ==? job k) && asks_for saved id r && negb (frozen s) &&
             (if operation ==? "apply" then installing k && negb (applied k) && negb (over k) else true))
        (s <| granted := option_map (fun g => (id, r, g)) answer |>)
  | Asked id operation r _ answer, None =>
      allow (negb (frozen s) && (operation !=? "apply")) (s <| granted := option_map (fun g => (id, r, g)) answer |>)
  | Staged plan saved, Some k =>
      if covers saved (job k) plan && negb (frozen s) && negb (staged k) && negb (installing k) && negb (applied k) &&
         negb (over k)
      then go (k <| staged := true |>) else None
  | Staged _ _, None => None
  | Applied plan g saved, Some k =>
      if covers saved (job k) plan && authorized saved (granted s) "apply" plan g && negb (frozen s) &&
         staged k && installing k && negb (applied k) && negb (over k)
      then Some (s <| current := Some (k <| applied := true |>) |> <| granted := None |>) else None
  | Applied _ _ _, None => None
  | Reconciled plan g saved, Some k =>
      allow (covers saved (job k) plan && authorized saved (granted s) "reconcile" plan g && negb (frozen s))
        (s <| granted := None |>)
  | Reconciled plan g _, None =>
      allow (negb (frozen s) && requested (granted s) "reconcile" plan g) (s <| granted := None |>)
  | Intended i, _ => allow (extends (intent s) i) (s <| intent := Some i |>)
  end.

(** The state after a log, newest event first. *)
Fixpoint follows (l : list event) : option state :=
  match l with
  | [] => Some start
  | e :: l => match follows l with Some s => step e s | None => None end
  end.

(** ** What the protocol gives *)

(** An event by which the Panel ends the job [id]. *)
Definition ends (id : string) (e : event) : bool :=
  match e with
  | Accepted i r => (i ==? id) && ends_job r
  | Confirmed i => i ==? id
  | _ => false
  end.
End Protocol.
