(* ===== verification/AgentRules.v ===== *)
(** Rules for programs of the host agent: the journal's own rules carried over to the
    agent's world, and triples for programs that thread the journal. *)
From Stdlib Require Import Ascii String ZArith Lia.
From stdpp Require Import base decidable list strings gmap.
From S2P Require Import Prelude Strings Regexp Patterns Effects Sha256 Json PlanDigest Release Jobs Journal JournalRules Grants AgentPolicy AgentClaims RecoveryIntent AgentWorld AgentExecution AgentRecovery AgentProtocol.

Open Scope string_scope.

(** ** The journal's programs in the agent's world *)

Section Lift.
Context `{UnicodeTables} `{TimeZones} `{PortPolicies}.

(** At most [n] writes of [journal.json]. *)
Fixpoint writes {A} (n : nat) (p : prog op A) : Prop :=
  match p with
  | Ret _ => True
  | Do o k =>
      match o with
      | WriteMain _ => match n with O => False | S n => forall x, writes n (k x) end
      | _ => forall x, writes n (k x)
      end
  end.

Lemma mark_same i : mark i i = [].
Proof. destruct i as [i|]; [|done]. cbn. by rewrite bool_decide_true. Qed.

Lemma with_files_id w : with_files w (files w) = w.
Proof. unfold with_files. rewrite mark_same. by destruct w. Qed.

Lemma with_files_again w u v :
  u = with_files w (files u) -> main v = main (files u) -> with_files u v = with_files w v.
Proof.
  intros E Em. unfold with_files at 1. rewrite Em, mark_same. rewrite E. unfold with_files. cbn. by rewrite Em.
Qed.

Lemma with_files_first w u v :
  u = with_files w (files u) -> main (files u) = main (files w) -> with_files u v = with_files w v.
Proof.
  intros E Em. rewrite E. unfold with_files. cbn. rewrite Em, mark_same. done.
Qed.

(** Every operation but the write leaves the journal file alone. *)
Definition harmless {X} (o : op X) : bool := match o with WriteMain _ => false | _ => true end.

Lemma harmless_main {X} (o : op X) ans (w v : disk) x :
  harmless o = true -> handle o ans w = Some (x, v) -> main v = main w.
Proof.
  destruct o; cbn; intros Hh E; try done;
    repeat match type of E with
           | observe _ _ _ = _ => apply observe_inv in E as [-> _]
           | effect _ _ _ = _ => apply effect_inv in E as [[-> | ->] _]
           | context [match ?y with _ => _ end] => destruct y
           | Some _ = Some _ => injection E as <- <-
           | None = Some _ => discriminate E
           end; done.
Qed.

Lemma writes_cons {A X} n (o : op X) (k : X -> prog op A) x :
  writes n (Do o k) -> harmless o = true -> writes n (k x).
Proof. destruct o; cbn; intros Hw Hh; done || apply Hw. Qed.

Lemma wp_on_journal_0 {A} (J : disk -> Prop) (p : prog op A) (Q : A -> disk -> Prop) w u :
  writes 0 p -> u = with_files w (files u) -> wp J p Q (files u) ->
  wp (fun v => J (files v) /\ v = with_files w (files v)) (on_journal p)
     (fun a v => Q a (files v) /\ v = with_files w (files v)) u.
Proof.
  revert u. induction p as [a|X o k IH]; intros u Hw Eu [HJ Hp]; cbn; [done|]. split; [done|].
  intros ans x v E. destruct ans as [ans| | | | | | | | | | | | |]; try discriminate E.
  destruct (handle o ans (files u)) as [[y v']|] eqn:Eh; [|discriminate E]. injection E as <- <-.
  assert (Hh : harmless o = true) by (destruct o; done).
  pose proof (harmless_main o ans _ _ _ Hh Eh) as Em.
  apply IH; [by eapply writes_cons|by rewrite (with_files_again w)|by eapply Hp].
Qed.

Lemma wp_on_journal_1 {A} (J : disk -> Prop) (p : prog op A) (Q : A -> disk -> Prop) w u :
  writes 1 p -> u = with_files w (files u) -> main (files u) = main (files w) -> wp J p Q (files u) ->
  wp (fun v => J (files v) /\ v = with_files w (files v)) (on_journal p)
     (fun a v => Q a (files v) /\ v = with_files w (files v)) u.
Proof.
  revert u. induction p as [a|X o k IH]; intros u Hw Eu Em [HJ Hp]; cbn; [done|]. split; [done|].
  intros ans x v E. destruct ans as [ans| | | | | | | | | | | | |]; try discriminate E.
  destruct (handle o ans (files u)) as [[y v']|] eqn:Eh; [|discriminate E]. injection E as <- <-.
  rewrite (with_files_first w u v') by done. destruct (harmless o) eqn:Hh.
  - pose proof (harmless_main o ans _ _ _ Hh Eh) as Em'.
    apply IH; [by eapply writes_cons|done|by cbn; rewrite Em'|by eapply Hp].
  - destruct o; try done. cbn in Hw. apply wp_on_journal_0; [apply Hw|done|by eapply Hp].
Qed.

Lemma wp_on_journal {A} (J : disk -> Prop) (p : prog op A) (Q : A -> disk -> Prop) w :
  writes 1 p -> wp J p Q (files w) ->
  wp (fun v => J (files v) /\ v = with_files w (files v)) (on_journal p)
     (fun a v => Q a (files v) /\ v = with_files w (files v)) w.
Proof. intros Hw Hp. by apply wp_on_journal_1; [done|rewrite with_files_id|..]. Qed.

(** ** Counting writes *)

Lemma writes_mono {A} n m (p : prog op A) : n <= m -> writes n p -> writes m p.
Proof.
  revert n m. induction p as [a|X o k IH]; intros n m Hn Hw; [done|]. destruct o; cbn in *; eauto.
  destruct n, m; try done || lia. intros x. apply (IH x n m); [lia|done].
Qed.

Lemma writes_bind {A B} n m (p : prog op A) (f : A -> prog op B) :
  writes n p -> (forall a, writes m (f a)) -> writes (n + m) (bind p f).
Proof.
  revert n. induction p as [a|X o k IH]; intros n Hw Hf; cbn in *; [by eapply writes_mono, Hf; lia|].
  destruct o; cbn in *; eauto. destruct n; [done|]. cbn. eauto.
Qed.

Lemma writes_bind_0 {A B} n (p : prog op A) (f : A -> prog op B) :
  writes 0 p -> (forall a, writes n (f a)) -> writes n (bind p f).
Proof. apply (writes_bind 0 n). Qed.

Lemma writes_bind_1 {A B} (p : prog op A) (f : A -> prog op B) :
  writes 1 p -> (forall a, writes 0 (f a)) -> writes 1 (bind p f).
Proof. apply (writes_bind 1 0). Qed.
End Lift.

(** Walks through a journal program and counts its writes. *)
Ltac writes_step :=
  match goal with
  | |- writes _ (Ret _) => exact I
  | |- writes _ (refuse _ _) => exact I
  | |- writes _ (lift _) => exact I
  | |- writes 0 (bind_ok _ _) => apply writes_bind_0; [|intros [?|?]]
  | |- writes 0 (bind _ _) => apply writes_bind_0; [|intros ?]
  | |- writes _ (let (_, _) := ?x in _) => destruct x
  | |- writes _ (if ?b then _ else _) => destruct b
  | |- writes _ (match ?x with _ => _ end) => destruct x
  end.

Section Writes.
Context `{UnicodeTables} `{TimeZones} `{PortPolicies}.

Lemma writes_call_0 {X} (o : op X) : harmless o = true -> writes 0 (call o).
Proof. by destruct o. Qed.

Lemma writes_save d : writes 1 (saveDataLocked d).
Proof. unfold saveDataLocked. by destruct (Marshal _). Qed.

Lemma writes_fail {A} j e : writes 0 (@fail_with _ A j e).
Proof. unfold fail_with. by destruct (poisonLocked j e). Qed.

Lemma writes_saveLocked j : writes 1 (saveLocked j).
Proof. apply writes_bind_1; [apply writes_save|]. intros [[]|e]; [done|apply writes_fail]. Qed.

Lemma writes_marker_load : writes 0 loadActiveClearMarkerLocked.
Proof. unfold loadActiveClearMarkerLocked. repeat writes_step; by apply writes_call_0. Qed.

Lemma writes_install d : writes 0 (installActiveClearMarkerLocked d).
Proof.
  unfold installActiveClearMarkerLocked, install_fresh, install_written.
  repeat (writes_step || apply writes_marker_load || by apply writes_call_0).
Qed.

Lemma writes_clear j : writes 1 (ClearActive j).
Proof.
  unfold ClearActive, mutable. repeat writes_step. apply writes_bind_0; [apply writes_install|].
  intros [[]|e]; [|eapply writes_mono, writes_fail; lia]. apply writes_bind_1; [apply writes_save|].
  intros [[]|e]; [|apply writes_fail]. apply writes_bind_0; [by apply writes_call_0|].
  intros [[]|e]; [done|apply writes_fail].
Qed.

Lemma writes_adoption active job j : writes 1 (saveSoftwareRecoveryAdoptionLocked active job j).
Proof.
  unfold saveSoftwareRecoveryAdoptionLocked. destruct (existsb _ _); [done|].
  apply writes_bind_1; [apply writes_save|]. intros [[]|e]; [done|apply writes_fail].
Qed.

Lemma writes_queue a b c d e f g h i k l j : writes 1 (queue a b c d e f g h i k l j).
Proof.
  unfold queue, mutable. destruct (poisoned j); [done|]. destruct (match l with Some _ => _ | None => _ end) as [[? ?]|]; [|done].
  apply writes_bind_1; [apply writes_saveLocked|]. intros [? ?]. done.
Qed.

Lemma writes_perform c j : writes 1 (perform c j).
Proof.
  destruct c; cbn; [..|apply writes_clear|];
    unfold MarkDeployed, SetActive, SetActivePlan, SetActivePortPlan, SetActiveStageFailure, DropJobReports, Ack,
      AdoptRecoveredSoftwareClaim, mutable, ensure;
    try (apply writes_bind_1; [apply writes_queue|intros [? ?]; done]);
    repeat (writes_step || apply writes_saveLocked || apply writes_adoption).
Qed.

Lemma writes_open : writes 1 OpenJournal.
Proof.
  unfold OpenJournal, reconcileActiveClearMarkerLocked, bind_ok. apply writes_bind_0; [by apply writes_call_0|].
  intros [[d|]|e]; [| |done].
  - apply writes_bind_0; [done|]. intros [[]|e]; [|done]. apply writes_bind_0.
    { apply writes_bind_0; [by apply writes_call_0|]. intros [[]|e]; [|done].
      apply writes_bind_0; [apply writes_marker_load|]. intros [[m|]|e]; [|done..].
      repeat (writes_step || by apply writes_call_0). }
    intros [[]|e]; [|done]. apply writes_bind_0; [done|]. intros [[]|e]; [|done].
    destruct (scrub _) as [d' dirty]. destruct dirty; [|done].
    apply writes_bind_1; [apply writes_saveLocked|]. intros [? ?]. done.
  - apply writes_bind_0; [|by intros [[]|e]]. apply writes_bind_0; [by apply writes_call_0|]. intros [[]|e]; [|done].
    apply writes_bind_0; [apply writes_marker_load|]. intros [[m|]|e]; done.
Qed.

Lemma writes_port_policy p j : writes 1 (stage_port_policy p j).
Proof. unfold stage_port_policy, mutable, ensure. repeat (writes_step || apply writes_saveLocked). Qed.
End Writes.
