(* ===== verification/AgentTriples.v ===== *)
(** The invariant that ties the host agent's protocol to the journal on disk, triples for
    the agent's programs under it, and the rules for operations and journal commands. *)
From Stdlib Require Import Ascii String ZArith Lia.
From stdpp Require Import base decidable list strings gmap.
From S2P Require Import Prelude Strings Regexp Patterns Effects Sha256 Json SelfUpdateState SelfUpdateGrant PlanDigest Release Jobs Journal JournalRules JournalSafety Grants AgentPolicy AgentClaims RecoveryIntent AgentWorld AgentExecution AgentRecovery AgentPoll AgentProtocol AgentRules.

Open Scope string_scope.

(** ** The invariant *)

Section Invariant.
Context `{UnicodeTables} `{TimeZones} `{PortPolicies} `{!PortFields}.

(** What the protocol reads of a journal: the active job with its version, the plan, the
    reports. *)
Definition shown (d : option Data.t) : option (string * Z) * option MutationPlan.t * list Pending.t :=
  match d with
  | None => (None, None, [])
  | Some d => (option_map (fun job => (Job.ID job, Job.ProtocolVersion job)) (Data.ActiveJob d), Data.ActivePlan d,
               Data.PendingReports d)
  end.

Definition reports_of (id : string) (l : list Pending.t) : Prop := Forall (fun p => Pending.JobID p = id) l.

(** The state of the protocol is that of the journal on disk. *)
Definition agrees (s : state) (d : option Data.t) : Prop :=
  match active_of d with
  | None => current s = None
  | Some id => exists k, current s = Some k /\ job k = id /\ reports_of id (shown d).2
  end.

Record at_ (s : state) (w : agent_world) : Prop := At {
  at_log : follows (log w) = Some s;
  at_intent : intent s = intent_file w;
  at_disk : agrees s (main (files w));
}.

Definition Inv (w : agent_world) : Prop := exists s, at_ s w.

(** A journal that is not poisoned shows what is on disk. *)
Definition coupled (j : journal) (w : agent_world) : Prop :=
  poisoned j = None -> shown (Some (data j)) = shown (main (files w)).

Definition good (j : journal) (w : agent_world) : Prop := Inv w /\ coupled j w.

Lemma active_shown d : active_of d = option_map fst (shown d).1.1.
Proof. destruct d as [d|]; [|done]. cbn. by destruct (Data.ActiveJob d). Qed.

Lemma plan_shown d : saved_plan d = (shown d).1.2.
Proof. by destruct d. Qed.

Lemma version_shown d : saved_version d = option_map snd (shown d).1.1.
Proof. destruct d as [d|]; [|done]. cbn. by destruct (Data.ActiveJob d). Qed.

Lemma agrees_shown s d d' : shown d = shown d' -> agrees s d -> agrees s d'.
Proof. intros E. unfold agrees. by rewrite !active_shown, E. Qed.

(** ** Triples *)

Definition iowp {A} (m : io A) (Q : result failure A -> journal -> agent_world -> Prop) (j : journal) (w : agent_world) : Prop :=
  wp Inv (m j) (fun x v => Q x.2 x.1 v) w.

(** An assertion that implies the good state and says nothing of a poisoned journal. *)
Class Safe (E : journal -> agent_world -> Prop) : Prop := {
  safe : forall j w, E j w -> good j w;
  safe_poisoned : forall j j' w, poisoned j' <> None -> E j w -> E j' w;
}.

#[global] Instance safe_good : Safe good.
Proof. split; [done|]. intros j j' w Hp [Hi _]. split; [done|]. intros Hn. by destruct Hp. Qed.

(** From [P] the program keeps the invariant; it returns in [R], or with an error in [E]. *)
Definition spec_in (E : journal -> agent_world -> Prop) {A} (P : journal -> agent_world -> Prop) (m : io A)
    (R : A -> journal -> agent_world -> Prop) : Prop :=
  forall j w, P j w -> iowp m (fun r j v => match r with Ok a => R a j v | Err _ => E j v end) j w.

Definition sound_in (E P : journal -> agent_world -> Prop) : Prop := forall j w, P j w -> E j w.

Abbreviation spec := (spec_in good).
Abbreviation sound := (sound_in good).

Lemma sound_refl E : sound_in E E.
Proof. by intros j w. Qed.

Lemma iowp_mono {A} (m : io A) (Q Q' : result failure A -> journal -> agent_world -> Prop) j w :
  (forall r j v, Inv v -> Q r j v -> Q' r j v) -> iowp m Q j w -> iowp m Q' j w.
Proof. intros HQ. apply wp_mono. intros x v Hv. by apply HQ. Qed.

Section Rules.
Context {E : journal -> agent_world -> Prop} `{!Safe E}.

Lemma sound_inv P j w : sound_in E P -> P j w -> Inv w.
Proof. intros HP Hw. by eapply (safe j w), HP. Qed.

Lemma spec_exists {A B} (P : B -> journal -> agent_world -> Prop) (m : io A) R :
  (forall x, spec_in E (P x) m R) -> spec_in E (fun j w => exists x, P x j w) m R.
Proof. intros Hm j w [x Hx]. by apply (Hm x). Qed.

Lemma spec_pure {A} (F : Prop) (P : journal -> agent_world -> Prop) (m : io A) R :
  (F -> spec_in E P m R) -> spec_in E (fun j w => F /\ P j w) m R.
Proof. intros Hm j w [Hf Hw]. by apply Hm. Qed.

Lemma spec_weaken {A} P P' (m : io A) R R' :
  (forall j w, P' j w -> P j w) -> (forall a j w, R a j w -> R' a j w) -> spec_in E P m R -> spec_in E P' m R'.
Proof. intros HP HR Hm j w Hw. eapply iowp_mono, Hm, HP, Hw. intros [x|e] j' v _ Hx; auto. Qed.

Lemma spec_pre {A} P P' (m : io A) R : (forall j w, P' j w -> P j w) -> spec_in E P m R -> spec_in E P' m R.
Proof. intros HP. by apply spec_weaken. Qed.

Lemma spec_post {A} P (m : io A) R R' : (forall a j w, R a j w -> R' a j w) -> spec_in E P m R -> spec_in E P m R'.
Proof. intros HR. by apply spec_weaken. Qed.

(** Less is promised of an error. *)
Lemma spec_errors {A} P (m : io A) R : spec_in E P m R -> spec P m R.
Proof. intros Hm j w Hw. eapply iowp_mono, Hm, Hw. intros [x|e] j' v _ Hx; [done|by apply safe]. Qed.

Lemma spec_then {A B} P (m : io A) (k : A -> io B) R S :
  spec_in E P m R -> (forall a, spec_in E (R a) (k a) S) -> spec_in E P (then_ m k) S.
Proof.
  intros Hm Hk j w Hw. apply wp_bind. eapply wp_mono, Hm, Hw. intros [j' [x|e]] v Hv Hx; cbn in *.
  - by apply Hk.
  - by apply wp_ret.
Qed.

(** A returned value in the current state. *)
Lemma spec_here {A} P (r : result failure A) R :
  sound_in E P -> (forall x j w, P j w -> r = Ok x -> R x j w) -> spec_in E P (fun j => Ret (j, r)) R.
Proof.
  intros HP HR j w Hw. apply wp_ret; [by eapply (sound_inv P)|]. destruct r; [by apply HR|by apply HP].
Qed.

Lemma spec_ret {A} (P : journal -> agent_world -> Prop) (x : A) R :
  sound_in E P -> (forall j w, P j w -> R x j w) -> spec_in E P (ret x) R.
Proof. intros HP HR. apply spec_here; [done|]. intros y j w Hw [= <-]. by apply HR. Qed.

Lemma spec_fail {A} (P : journal -> agent_world -> Prop) e (R : A -> journal -> agent_world -> Prop) :
  sound_in E P -> spec_in E P (fail e) R.
Proof. intros HP. by apply spec_here. Qed.

Lemma spec_stop {A} (P : journal -> agent_world -> Prop) e (R : A -> journal -> agent_world -> Prop) :
  sound_in E P -> spec_in E P (stop e) R.
Proof. apply spec_fail. Qed.

Lemma spec_look P R : sound_in E P -> (forall j w, P j w -> R j j w) -> spec_in E P look R.
Proof. intros HP HR j w Hw. apply wp_ret; [by eapply (sound_inv P)|by apply HR]. Qed.

Lemma spec_require (P : journal -> agent_world -> Prop) b e R :
  sound_in E P -> (forall j w, P j w -> b = true -> R tt j w) -> spec_in E P (require b e) R.
Proof. intros HP HR. destruct b; [apply spec_ret; auto|by apply spec_stop]. Qed.

Lemma spec_check {A} (P : journal -> agent_world -> Prop) (c : result string A) R :
  sound_in E P -> (forall x j w, P j w -> c = Ok x -> R x j w) -> spec_in E P (check_ok c) R.
Proof.
  intros HP HR. apply spec_here; [done|]. intros x j w Hw Ec. apply HR; [done|]. destruct c; [by injection Ec as <-|done].
Qed.

Lemma spec_settle_with {A} (P : journal -> agent_world -> Prop) (c : result failure A) R :
  sound_in E P -> (forall x j w, P j w -> c = Ok x -> R x j w) -> spec_in E P (settle_with c) R.
Proof. apply spec_here. Qed.

(** The error as a value. *)
Lemma spec_attempt {A} F P (m : io A) R :
  spec_in F P m R -> spec_in E P (attempt m) (fun r j w => match r with Ok x => R x j w | Err _ => F j w end).
Proof.
  intros Hm j w Hw. apply wp_bind. eapply wp_mono, Hm, Hw. intros [j' r] v Hv Hx. apply wp_ret; [done|].
  by destruct r.
Qed.

Lemma spec_or_stop {A} P (m : io A) e R : spec_in E P m R -> spec_in E P (or_stop m e) R.
Proof.
  intros Hm j w Hw. apply wp_bind. eapply wp_mono, Hm, Hw. intros [j' r] v Hv Hx. apply wp_ret; [done|].
  by destruct r.
Qed.
End Rules.

(** ** Operations *)

(** An operation that changes nothing keeps every assertion. *)
Definition benign {X} (o : xop X) : bool :=
  match o with
  | OnJournal _ | WriteIntent _ | ClaimHost _ | SendReport _ _ | IssueMutationGrant _ _ | Stage _ _ | Apply _ _ _
  | Reconcile _ _ _ => false
  | _ => true
  end.

Lemma observes_same {A} (reply : option A) ans w x v : observes reply ans w = Some (x, v) -> v = w.
Proof. destruct ans, reply; cbn; intros E; by try injection E as _ <-. Qed.

Lemma benign_same {X} (o : xop X) ans w x v : benign o = true -> handle o ans w = Some (x, v) -> v = w.
Proof.
  destruct o; cbn; intros Hb E; try done; try (by eapply observes_same);
    destruct ans; try discriminate E; by injection E as _ <-.
Qed.

Section Asking.
Context {E : journal -> agent_world -> Prop} `{!Safe E}.

(** An operation whose answers satisfy [Q]. *)
Lemma wp_asked {X Y} (o : xop X) (f : X -> Y) (Q : Y -> journal -> agent_world -> Prop) j w : Inv w ->
  (forall ans x v, handle o ans w = Some (x, v) -> Inv v /\ Q (f x) j v) ->
  wp Inv (bind (call o) (fun x => Ret (j, f x))) (fun x v => Q x.2 x.1 v) w.
Proof.
  intros Hi Ho. apply wp_bind, wp_call; [done|]. intros ans x v Ex. apply Ho in Ex as [Hv Hx]. split; [done|].
  by apply wp_ret.
Qed.

Lemma spec_ask {X} (P : journal -> agent_world -> Prop) (o : xop X) :
  benign o = true -> sound_in E P -> spec_in E P (ask o) (fun _ => P).
Proof.
  intros Hb HP j w Hw. apply (wp_asked o Ok (fun r j v => match r with Ok _ => P j v | Err _ => E j v end));
    [by eapply (sound_inv (E := E) P)|].
  intros ans x v Ex. apply (benign_same o) in Ex as ->; [|done]. split; [by eapply (sound_inv (E := E) P)|done].
Qed.

Lemma spec_ask_ok {A} (P : journal -> agent_world -> Prop) (o : xop (result failure A)) :
  benign o = true -> sound_in E P -> spec_in E P (ask_ok o) (fun _ => P).
Proof.
  intros Hb HP j w Hw.
  apply (wp_asked o (fun r => r) (fun r j v => match r with Ok _ => P j v | Err _ => E j v end)); [by eapply (sound_inv (E := E) P)|].
  intros ans x v Ex. apply (benign_same o) in Ex as ->; [|done]. split; [by eapply (sound_inv (E := E) P)|]. destruct x; [done|by apply HP].
Qed.

(** An operation leaves the journal in memory alone. *)
Lemma spec_frame {A} (P : journal -> agent_world -> Prop) (F : journal -> Prop) (o : xop (result failure A)) R :
  spec_in E P (ask_ok o) R -> spec_in E (fun j w => P j w /\ F j) (ask_ok o) (fun x j w => R x j w /\ F j).
Proof.
  intros Ho j w [Hw Hf]. destruct (Ho j w Hw) as [Hi Hk]. split; [done|]. intros ans x v Ex.
  destruct (Hk ans x v Ex) as [Hv Hx]. split; [done|]. by destruct x.
Qed.

(** What a read returns. *)
Lemma spec_read {A} (P : journal -> agent_world -> Prop) (o : xop (result failure A)) (f : agent_world -> A) :
  sound_in E P ->
  (forall ans w, handle o ans w = observes (match ans with Yes => Some (f w) | _ => None end) ans w) ->
  spec_in E P (ask_ok o) (fun x j w => P j w /\ x = f w).
Proof.
  intros HP Ho j w Hw.
  apply (wp_asked o (fun r => r) (fun r j v => match r with Ok x => P j v /\ x = f v | Err _ => E j v end));
    [by eapply (sound_inv (E := E) P)|].
  intros ans x v Ex. rewrite Ho in Ex. pose proof (observes_same _ _ _ _ _ Ex) as ->. split; [by eapply (sound_inv (E := E) P)|].
  destruct ans; cbn in Ex; try discriminate Ex; injection Ex as <-; first [done | by apply HP].
Qed.

Lemma read_journal_file (P : journal -> agent_world -> Prop) : sound_in E P ->
  spec_in E P (ask_ok ReadJournalFile) (fun d j w => P j w /\ d = option_map Data.persisted (main (files w))).
Proof. intros HP. by apply spec_read. Qed.

Lemma load_intent (P : journal -> agent_world -> Prop) :
  sound_in E P -> spec_in E P (ask_ok LoadIntent) (fun i j w => P j w /\ i = intent_file w).
Proof. intros HP. by apply spec_read. Qed.

(** An operation that adds one event. *)
Lemma at_note s s' e w : at_ s w -> step e s = Some s' -> intent s' = intent s ->
  agrees s' (main (files w)) -> at_ s' (note e w).
Proof. intros [Hl Hi Hd] Hs Hi' Hd'. split; cbn; [by rewrite Hl|congruence|done]. Qed.

Lemma coupled_same j w v : files v = files w -> coupled j w -> coupled j v.
Proof. intros Ef Hc. unfold coupled. by rewrite Ef. Qed.

Lemma effects_inv {A} (reply : option A) ans after w x v :
  effects reply ans after w = Some (x, v) -> (v = w /\ is_err x = true) \/ v = after.
Proof. destruct ans, reply; cbn; intros Ex; try discriminate Ex; injection Ex as <- <-; auto. Qed.

Lemma spec_event {A} (P R : journal -> agent_world -> Prop) (o : xop (result failure A)) (after : agent_world -> agent_world) :
  sound_in E P -> sound_in E R -> (forall j w, P j w -> R j (after w)) ->
  (forall ans w x v, handle o ans w = Some (x, v) -> (v = w /\ is_err x = true) \/ v = after w) ->
  spec_in E P (ask_ok o) (fun _ => R).
Proof.
  intros HP HR Ha Ho j w Hw.
  apply (wp_asked o (fun r => r) (fun r j v => match r with Ok _ => R j v | Err _ => E j v end)); [by eapply (sound_inv (E := E) P)|].
  intros ans x v Ex. apply Ho in Ex as [[-> Hx] | ->].
  - split; [by eapply (sound_inv (E := E) P)|]. destruct x; [done|by apply HP].
  - apply Ha in Hw. split; [by eapply (sound_inv (E := E) R)|]. destruct x; [done|by apply HR].
Qed.
End Asking.

(** ** Journal commands *)

(** The world after [d] was written. *)
Definition moved (w : agent_world) (d : Data.t) : agent_world := with_files w ((files w) <| main := Some d |>).

Lemma moved_eq w d : moved w d =
  AgentWorld ((files w) <| main := Some d |>) (intent_file w)
    (mark (active_of (main (files w))) (active_of (Some d)) ++ log w)%list.
Proof. done. Qed.

Lemma moved_quiet s w d :
  at_ s w -> active_of (Some d) = active_of (main (files w)) ->
  (forall id, active_of (Some d) = Some id -> reports_of id (Data.PendingReports d)) -> at_ s (moved w d).
Proof.
  intros [Hl Hi Hd] Ea Hr. rewrite moved_eq, <- Ea, mark_same. split; [done..|].
  cbn. unfold agrees in *. rewrite Ea in *. destruct (active_of (main (files w))) as [id|]; [|done].
  destruct Hd as (k & Hk & Ej & _). exists k. split; [done|]. split; [done|]. by apply Hr.
Qed.

Lemma moved_open s w d id :
  at_ s w -> active_of (main (files w)) = None -> active_of (Some d) = Some id ->
  reports_of id (Data.PendingReports d) -> at_ (s <| current := Some (Work id false false false false) |>) (moved w d).
Proof.
  intros [Hl Hi Hd] En Ea Hr. rewrite moved_eq, En, Ea. unfold agrees in Hd. rewrite En in Hd.
  split; [|done|]; cbn.
  - rewrite Hl. cbn. by rewrite Hd.
  - unfold agrees. rewrite Ea. by eexists.
Qed.

Lemma moved_clear s w d :
  at_ s w -> active_of (Some d) = None -> (forall k, current s = Some k -> over k = true) ->
  at_ (s <| current := None |>) (moved w d).
Proof.
  intros [Hl Hi Hd] Ea Ho. rewrite moved_eq, Ea. unfold agrees in Hd.
  split; cbn; [|done|unfold agrees; by rewrite Ea].
  destruct (active_of (main (files w))) as [id|].
  - destruct Hd as (k & Hk & Ej & _). cbn. rewrite Hl. cbn. rewrite Hk. cbn. rewrite bool_decide_true by done. by rewrite Ho.
  - cbn. rewrite Hl. destruct s as [c i g]. cbn in *. by rewrite Hd.
Qed.

(** What a saving program did: nothing, or the save of a journal in [E]. *)
Definition saved_by (E : journal -> Prop) (j : journal) (w : disk) (j1 : journal) (r : check) (v : disk) : Prop :=
  (is_err r = true /\ v = w /\ j1 = j) \/
  (exists j', E j' /\ r = Ok tt /\ j1 = j' /\ v = w <| main := Some (data j') |>) \/
  (is_err r = true /\ poisoned j1 <> None /\ (v = w \/ exists j', E j' /\ v = w <| main := Some (data j') |>)).

Definition save_points (E : journal -> Prop) (w v : disk) : Prop :=
  v = w \/ exists j', E j' /\ v = w <| main := Some (data j') |>.

Lemma wp_perform_saved c j w :
  c <> DoClearActive -> poisoned j = None ->
  wp (save_points (edit j c) w) (perform c j) (fun x v => saved_by (edit j c) j w x.1 x.2 v) w.
Proof.
  intros Hc Hp. apply wp_perform; [done|by left|intros e; by left|done|].
  intros j' He. split; [right; by exists j'|]. split; [right; left; by exists j'|].
  intros jp e v Hpz _ Hv. right; right. split; [done|]. split; [done|]. destruct Hv as [-> | ->]; [by left|right; by exists j'].
Qed.

(** The rule for a method of the journal that saves at most once.  An error leaves the
    journal as it was, or poisoned, with the file as it was or as it should be. *)
Section Saving.
Context {E : journal -> agent_world -> Prop} `{!Safe E}.

Lemma spec_saving {A} (m : journal -> prog op (journal * result string A)) (W : journal -> journal -> Prop)
    (P R : journal -> agent_world -> Prop) :
  sound_in E P -> sound_in E R ->
  (forall j e, poisoned j = Some e -> m j = Ret (j, Err e)) -> (forall j, writes 1 (m j)) ->
  (forall j w, P j w -> poisoned j = None ->
     wp (save_points (W j) (files w)) (m j)
       (fun x v => saved_by (W j) j (files w) x.1 (match x.2 with Ok _ => Ok tt | Err e => Err e end) v) (files w)) ->
  (forall j w j', P j w -> poisoned j = None -> W j j' -> R j' (moved w (data j'))) ->
  spec_in E P (journal_do m) (fun _ => R).
Proof.
  intros HP HR Hpz Hwr Hm HE j w Hw. pose proof (sound_inv P j w HP Hw) as Hg. unfold iowp, journal_do. apply wp_bind.
  destruct (poisoned j) as [e|] eqn:Ep; [rewrite (Hpz j e Ep); apply wp_ret, wp_ret; try done; by apply HP|].
  assert (Hpt : forall v, save_points (W j) (files w) (files v) -> v = with_files w (files v) -> Inv v /\ exists j', E j' v).
  { intros v [Ev|(j' & He & Ev)] ->; rewrite Ev; [rewrite with_files_id; split; [done|]; by exists j; apply HP|].
    pose proof (HE j w j' Hw Ep He) as Hr. split; [by eapply (sound_inv (E := E) R)|]. by exists j'; apply HR. }
  eapply wp_weaken, wp_mono, wp_on_journal, (Hm j w Hw Ep); [by intros v [Hv ->]; apply Hpt| |apply Hwr].
  intros [j1 r] v [Hpv Hv] [Hs _]. destruct (Hpt v Hpv Hv) as [Hi [jv Hjv]]. apply wp_ret; [done|]. cbn [fst snd] in *.
  destruct Hs as [(Hr & Ev & ->)|[(j' & He & Hr & -> & Ev)|(Hr & Hz & _)]].
  - destruct r; [done|]. rewrite Hv, Ev, with_files_id. by apply HP.
  - destruct r as [x|]; [|done]. rewrite Hv, Ev. by apply (HE j).
  - destruct r; [done|]. by eapply safe_poisoned.
Qed.

Lemma spec_perform c (P R : journal -> agent_world -> Prop) :
  c <> DoClearActive -> sound_in E P -> sound_in E R ->
  (forall j w j', P j w -> poisoned j = None -> edit j c j' -> R j' (moved w (data j'))) ->
  spec_in E P (journal_do (perform c)) (fun _ => R).
Proof.
  intros Hc HP HR HE. apply (spec_saving _ (fun j => edit j c)); [done..| | | |done].
  - intros j e. apply perform_poisoned.
  - intros j. apply writes_perform.
  - intros j w _ Ep. eapply wp_mono, wp_perform_saved; [|done..]. intros [j1 [[]|e]] v _ Hx; exact Hx.
Qed.

Lemma wp_bind_inv {A B} (I : disk -> Prop) (p : prog op A) (f : A -> prog op B) Q (w : disk) :
  wp I (bind p f) Q w -> wp I p (fun a => wp I (f a) Q) w.
Proof.
  revert w. induction p as [x|X o k IH]; intros w Hp; cbn in *; [split; [by apply wp_inv in Hp|done]|].
  destruct Hp as [HI Hp]. split; eauto.
Qed.

Lemma spec_queue job service token gen status code message percent artifact previous result (P R : journal -> agent_world -> Prop) :
  let c := DoQueue job service token gen status code message percent artifact previous result in
  sound_in E P -> sound_in E R ->
  (forall j w j', P j w -> poisoned j = None -> edit j c j' -> R j' (moved w (data j'))) ->
  spec_in E P (journal_do (queue job service token gen status code message percent artifact previous result)) (fun _ => R).
Proof.
  intros c HP HR HE. apply (spec_saving _ (fun j => edit j c)); [done..| | | |done].
  - intros j e Ep. unfold queue, mutable. by rewrite Ep.
  - intros j. apply writes_queue.
  - intros j w _ Ep. pose proof (wp_perform_saved c j (files w) ltac:(done) Ep) as Hw. apply wp_bind_inv in Hw.
    eapply wp_mono, Hw. intros [j1 r] v _ [_ Hx]. by destruct r.
Qed.

(** The adoption of a recovered lease, and the policy of a port job. *)
Definition adopted (job : Job.t) (j : journal) : journal :=
  j <| data := (data j) <| Data.ActiveJob := Some job |> <| Data.NextSeq := Job.ReportSequence job |>
                        <| Data.PendingReports := [] |> |>
    <| leaseTokens := foldr (fun p m => delete (pending_key p) m) (leaseTokens j) (Data.PendingReports (data j)) |>.

Lemma wp_adoption active job j w : poisoned j = None ->
  wp (save_points (fun j' => j' = adopted job j) w) (saveSoftwareRecoveryAdoptionLocked active job j)
    (fun x v => saved_by (fun j' => j' = adopted job j) j w x.1 x.2 v) w.
Proof.
  intros Ep. unfold saveSoftwareRecoveryAdoptionLocked. destruct (existsb _ _); [apply wp_ret; by left|].
  unfold fail_with, poisonLocked. rewrite Ep. apply wp_bind, wp_save; [by left| |].
  - intros e. apply wp_ret; [by left|]. right; right. by repeat split; [..|left].
  - split; [right; by eexists|]. intros [[]|e]; apply wp_ret; try (right; by eexists).
    + right; left. by eexists.
    + right; right. repeat split; [done..|]. right. by eexists.
Qed.

Lemma spec_adoption active job (P R : journal -> agent_world -> Prop) :
  sound_in E P -> sound_in E R -> (forall j w, P j w -> poisoned j = None) ->
  (forall j w, P j w -> R (adopted job j) (moved w (data (adopted job j)))) ->
  spec_in E P (journal_do (saveSoftwareRecoveryAdoptionLocked active job)) (fun _ => R).
Proof.
  intros HP HR Hp0 HE.
  apply (spec_pre (fun j w => P j w /\ poisoned j = None)); [intros j w Hw; split; [done|by eapply Hp0]|].
  set (m := fun j => match poisoned j with Some e => Ret (j, Err e) | None => saveSoftwareRecoveryAdoptionLocked active job j end).
  assert (Hm : spec_in E (fun j w => P j w /\ poisoned j = None) (journal_do m) (fun _ => R)).
  { apply (spec_saving m (fun j j' => j' = adopted job j)); [by intros j w [Hw _]; apply HP|done| | | |].
    - intros j e Ep. unfold m. by rewrite Ep.
    - intros j. unfold m. destruct (poisoned j); [done|]. apply writes_adoption.
    - intros j w _ Ep. unfold m. rewrite Ep. eapply wp_mono, wp_adoption; [|done]. by intros [j1 [[]|e]] v _ Hx.
    - intros j w j' [Hw _] _ ->. by apply HE. }
  intros j w Hw. specialize (Hm j w Hw). unfold iowp, journal_do, m in Hm. by rewrite (proj2 Hw) in Hm.
Qed.

Lemma spec_port_policy p (P : journal -> agent_world -> Prop) :
  sound_in E P -> (forall j w d, P j w -> poisoned j = None -> shown (Some d) = shown (Some (data j)) ->
    P (j <| data := d |>) (moved w d)) ->
  spec_in E P (journal_do (stage_port_policy p)) (fun _ => P).
Proof.
  intros HP HE.
  apply (spec_saving _ (fun j j' => j' = j <| data := (data j) <| Data.ActivePortPolicy := Some p |> |>)); [done..| | | |].
  - intros j e Ep. unfold stage_port_policy, mutable. by rewrite Ep.
  - intros j. apply writes_port_policy.
  - intros j w _ Ep. unfold stage_port_policy, mutable, ensure. rewrite Ep.
    destruct (PortPolicy_validate _ _ _) as [[]|e]; [|apply wp_ret; by left].
    apply wp_saveLocked; [by left| | |done].
    + intros v e e' Hv. right; right. split; [done|]. split; [done|]. destruct Hv as [-> | ->]; [by left|right; by eexists].
    + split; [right; by eexists|]. right; left. by eexists.
  - intros j w j' Hw Ep ->. by apply HE.
Qed.
End Saving.

(** ** Assertions on the state *)

Definition holds (s : state) (j : journal) (w : agent_world) : Prop := at_ s w /\ coupled j w.

Lemma holds_good s j w : holds s j w -> good j w.
Proof. intros [Ha Hc]. split; [by exists s|done]. Qed.

Lemma good_holds j w : good j w -> exists s, holds s j w.
Proof. intros [[s Hs] Hc]. by exists s. Qed.

Lemma coupled_moved j w : coupled j (moved w (data j)).
Proof. done. Qed.

Lemma holds_active s j w : holds s j w -> poisoned j = None -> active_of (Some (data j)) = active_of (main (files w)).
Proof. intros [_ Hc] Hp. by rewrite !active_shown, Hc. Qed.

(** The reports of the active job, seen from the journal in memory. *)
Lemma holds_reports s j w id :
  holds s j w -> poisoned j = None -> active_of (Some (data j)) = Some id -> reports_of id (Data.PendingReports (data j)).
Proof.
  intros Hh Hp Ea. pose proof (holds_active s j w Hh Hp) as Em. destruct Hh as [[_ _ Hd] Hc]. unfold agrees in Hd.
  rewrite <- Em, Ea in Hd. destruct Hd as (k & _ & _ & Hr). by rewrite <- (Hc Hp) in Hr.
Qed.

(** A save that keeps the active job, and adds no report of another one. *)
Definition quiet (d d' : Data.t) : Prop :=
  active_of (Some d') = active_of (Some d) /\
  (forall id, active_of (Some d) = Some id -> reports_of id (Data.PendingReports d) -> reports_of id (Data.PendingReports d')).

Lemma holds_quiet s j w j' :
  holds s j w -> poisoned j = None -> quiet (data j) (data j') -> holds s j' (moved w (data j')).
Proof.
  intros Hh Hp [Ea Hr]. split; [|apply coupled_moved]. apply moved_quiet; [apply Hh|by rewrite Ea; eapply holds_active|].
  intros id Ei. rewrite Ea in Ei. by eapply Hr, holds_reports.
Qed.

Lemma filter_reports id f l : reports_of id l -> reports_of id (List.filter f l).
Proof. intros Hl. induction Hl as [|p l Hp _ IH]; cbn; [constructor|]. destruct (f p); [by constructor|done]. Qed.

(** The commands that never touch the active job. *)
Definition quiet_command (c : command) : bool :=
  match c with
  | DoSetActivePlan _ | DoSetActivePortPlan _ | DoSetActiveStageFailure _ | DoDropJobReports _ | DoAck _ _ => true
  | _ => false
  end.

Lemma edit_quiet j c j' : quiet_command c = true -> edit j c j' -> quiet (data j) (data j').
Proof.
  intros Hc He. destruct He; try discriminate Hc; (split; [done|]); intros id' Hi Hr; cbn; auto using filter_reports.
  match goal with E : Data.PendingReports _ = _ :: _ |- _ => rewrite E in Hr end. by apply Forall_cons in Hr as [_ Hr].
Qed.

Lemma edit_poisoned j c j' : edit j c j' -> poisoned j' = poisoned j.
Proof. by destruct 1. Qed.

(** ** Clearing *)

Lemma at_same s w v : main v = main (files w) -> at_ s w -> at_ s (with_files w v).
Proof.
  intros Em [Hl Hi Hd]. unfold with_files. rewrite Em, mark_same. split; [done..|]. by cbn; rewrite Em.
Qed.

Lemma at_with_files s w v d : main v = Some d -> at_ s (moved w d) -> at_ s (with_files w v).
Proof.
  intros Em [Hl Hi Hd]. unfold with_files. rewrite Em. split; [done..|]. by cbn; rewrite Em.
Qed.

(** The journal may be cleared: the protocol's job is over. *)
Definition settled_job (s : state) : Prop := forall k, current s = Some k -> over k = true.

(** What is known of the active job, its plan and the intent. *)
Definition knowledge : Type := option (string * Z) * option MutationPlan.t -> option Intent.t -> Prop.

Definition knows (D : knowledge) (w : agent_world) : Prop := D (shown (main (files w))).1 (intent_file w).

(** Knowledge that survives the end of the job. *)
Definition closed (D : knowledge) : Prop := forall x i, D x i -> D (None, None) i.

Definition within (D : knowledge) (j : journal) (w : agent_world) : Prop := good j w /\ knows D w.

#[global] Instance safe_within D : Safe (within D).
Proof. split; [by intros j w []|]. intros j j' w Hp [Hg Hd]. split; [by eapply safe_poisoned|done]. Qed.

Lemma sound_within D : sound (within D).
Proof. by intros j w []. Qed.

(** The journal may be cleared. *)
Definition clearable (D : knowledge) (j : journal) (w : agent_world) : Prop :=
  (exists s, holds s j w /\ (poisoned j = None -> settled_job s)) /\ knows D w.

Lemma spec_clear (D : knowledge) : closed D -> spec_in (within D) (clearable D) (journal_do ClearActive) (fun _ => within D).
Proof.
  intros HD j w [(s & Hh & Ho) Hd]. pose proof (holds_good _ _ _ Hh) as Hg. unfold iowp, journal_do. apply wp_bind.
  destruct (poisoned j) as [e|] eqn:Ep.
  { unfold ClearActive, mutable. rewrite Ep. apply wp_ret, wp_ret; try apply Hg; done. }
  specialize (Ho eq_refl). set (J := clearing (data j) (files w)).
  set (Q := fun (x : journal * check) (v : disk) =>
    (x = (j, Ok tt) /\ v = files w /\ Data.ActiveJob (data j) = None) \/
    (poisoned x.1 <> None /\ is_err x.2 = true /\ J v) \/
    (x = (j <| data := Data.cleared (data j) |>, Ok tt) /\ main v = Some (Data.cleared (data j)))).
  assert (Hw : wp J (ClearActive j) Q (files w)).
  { apply wp_clear; [done|done|intros Hn; by left|intros jp e v Hz _ Hv; by right; left|].
    intros v Em _. by right; right. }
  assert (Hc : forall v, main v = Some (Data.cleared (data j)) -> at_ (s <| current := None |>) (with_files w v)).
  { intros v Em. eapply at_with_files, moved_clear; [done|apply Hh|done|done]. }
  assert (Hk : forall v, main v = Some (Data.cleared (data j)) -> knows D (with_files w v)).
  { intros v Em. unfold knows. cbn. rewrite Em. by eapply HD. }
  assert (HJ : forall v, J v -> Inv (with_files w v) /\ knows D (with_files w v)).
  { intros v [[Em _]|[Em _]]; (split; [|first [by apply Hk | unfold knows; cbn; by rewrite Em]]).
    - exists s. by apply at_same, Hh.
    - eexists. by apply Hc. }
  eapply wp_weaken, wp_mono, wp_on_journal, Hw; [intros v [Hv ->]; by apply HJ| |apply writes_clear].
  intros [j1 r] v [Hpv Hv] [Hx _]. destruct (HJ _ Hpv) as [Hi Hd']. rewrite <- Hv in Hi, Hd'. apply wp_ret; [done|].
  destruct Hx as [([= -> ->] & Ev & Hn)|[(Hz & Hr & _)|([= -> ->] & Em)]]; cbn [fst snd] in *.
  - rewrite Hv, Ev, with_files_id. done.
  - destruct r; [done|]. split; [|done]. split; [done|]. intros Hn. by destruct Hz.
  - split; [|done]. split; [done|]. intros _. rewrite Hv. cbn. by rewrite Em.
Qed.

End Invariant.

Abbreviation spec := (spec_in good).
Abbreviation sound := (sound_in good).

#[export] Hint Resolve sound_refl : core.

(** A program that only reads keeps every assertion. *)
Ltac keeps_step R :=
  match goal with
  | |- spec_in _ _ (then_ _ _) _ => apply (spec_then _ _ _ (fun _ => R)); [|intros ?]
  | |- spec_in _ _ (ret _) _ => by apply spec_ret
  | |- spec_in _ _ (stop _) _ => by apply spec_stop
  | |- spec_in _ _ (fail _) _ => by apply spec_fail
  | |- spec_in _ _ (require _ _) _ => by apply spec_require
  | |- spec_in _ _ (check_ok _) _ => by apply spec_check
  | |- spec_in _ _ (ask_ok _) _ => by apply spec_ask_ok
  | |- spec_in _ _ (ask _) _ => by apply spec_ask
  | |- spec_in _ _ look _ => by apply spec_look
  | |- spec_in _ _ (let (_, _) := ?x in _) _ => destruct x
  | |- spec_in _ _ (if ?b then _ else _) _ => destruct b
  | |- spec_in _ _ (match ?x with _ => _ end) _ => destruct x
  end.
