(* ===== verification/AgentSafety.v ===== *)
(** The host agent follows its protocol: at every crash point of every sequence of
    processes on the host, whatever the Panel and the executor answer. *)
From Stdlib Require Import Ascii String ZArith Lia.
From stdpp Require Import base decidable list strings gmap.
From S2P Require Import Prelude Strings Regexp Patterns Effects Sha256 Json SelfUpdateState SelfUpdateGrant PlanDigest Release Jobs Journal JournalRules Grants AgentPolicy AgentClaims RecoveryIntent AgentWorld AgentExecution AgentRecovery AgentPoll AgentProtocol AgentRules AgentTriples.

Open Scope string_scope.

Section Safety.
Context `{UnicodeTables} `{TimeZones} `{PortPolicies} `{!PortFields} `{GrantContracts} `{Formats}.
Context (a : agent).

(** ** Requests to the Panel *)

Definition accept (id : string) (r : Report.t) (s : state) : state :=
  match current s with Some k => s <| current := Some (noted k id r) |> | None => s end.

Definition confirm (id : string) (s : state) : state :=
  match current s with
  | Some k => s <| current := Some (if id ==? job k then k <| over := true |> else k) |>
  | None => s
  end.

Lemma job_noted k id r : job (noted k id r) = job k.
Proof. unfold noted. by destruct (id ==? job k). Qed.

(** The protocol's job may change its marks, not its name. *)
Definition same_job (s s' : state) : Prop := option_map job (current s') = option_map job (current s).

Lemma agrees_same_job s s' d : same_job s s' -> agrees s d -> agrees s' d.
Proof.
  intros Hs. unfold agrees. destruct (active_of d) as [id|].
  - intros (k & Hk & Ej & Hr). unfold same_job in Hs. rewrite Hk in Hs. destruct (current s') as [k'|]; [|done].
    injection Hs as Hs. exists k'. by rewrite Hs.
  - intros Hn. unfold same_job in Hs. rewrite Hn in Hs. by destruct (current s').
Qed.

Lemma same_job_accept id r s : same_job s (accept id r s).
Proof. unfold same_job, accept. destruct (current s) as [k|] eqn:E; cbn; [by rewrite job_noted|by rewrite E]. Qed.

Lemma same_job_confirm id s : same_job s (confirm id s).
Proof.
  unfold same_job, confirm. destruct (current s) as [k|] eqn:E; cbn; [|by rewrite E]. by destruct (id ==? job k).
Qed.

Lemma holds_note s s' e j w :
  holds s j w -> step e s = Some s' -> intent s' = intent s -> same_job s s' -> holds s' j (note e w).
Proof.
  intros [Ha Hc] Hs Hi Hj. split; [|done]. eapply at_note; [done|done|done|]. by eapply agrees_same_job, Ha.
Qed.

Definition claim_result (s : state) (x : option Job.t * bool) : state :=
  match x with (Some j, true) => confirm (Job.ID j) s | _ => s end.

(** ** Flushing the reports *)

(** In a state of the protocol, with what is known. *)
Definition held (s : state) (D : knowledge) (j : journal) (w : agent_world) : Prop := holds s j w /\ knows D w.

Lemma held_within s D : sound_in (within D) (held s D).
Proof. intros j w [Hh Hd]. split; [by eapply holds_good|done]. Qed.

Lemma clearable_within D : sound_in (within D) (clearable D).
Proof. intros j w [(s & Hh & _) Hd]. split; [by eapply holds_good|done]. Qed.

Lemma shown_moved w d : shown (main (files (moved w d))) = shown (Some d).
Proof. done. Qed.

Lemma within_held D j w : within D j w <-> exists s, held s D j w.
Proof.
  split; [intros [Hg Hd]; apply good_holds in Hg as [s Hs]; by exists s|].
  intros (s & Hs). by eapply held_within.
Qed.

Lemma spec_held {E} `{!Safe E} {A} D (m : io A) R : (forall s, spec_in E (held s D) m R) -> spec_in E (within D) m R.
Proof.
  intros Hm. apply (spec_pre (fun j w => exists s, held s D j w)); [by intros j w; rewrite within_held|]. by apply spec_exists.
Qed.

Lemma pending_view_head j item rest :
  pending_view j = item :: rest ->
  exists p ps, Data.PendingReports (data j) = p :: ps /\ Pending.JobID item = Pending.JobID p /\
    Report.Sequence (Pending.report item) = Report.Sequence (Pending.report p) /\
    Report.Status (Pending.report item) = Report.Status (Pending.report p) /\
    Report.PortReconfigure (Pending.report item) = Report.PortReconfigure (Pending.report p).
Proof.
  unfold pending_view. destruct (Data.PendingReports (data j)) as [|p ps]; [done|]. intros [= <- _]. by exists p, ps.
Qed.

Lemma pending_view_nil j : pending_view j = [] -> Data.PendingReports (data j) = [].
Proof. unfold pending_view. by destruct (Data.PendingReports (data j)). Qed.

Lemma ends_noted k id r : id = job k -> ends_job r = true -> over (noted k id r) = true.
Proof. intros -> Hr. unfold noted. rewrite bool_decide_true by done. cbn. rewrite Hr. by rewrite orb_true_r. Qed.

(** A journal command that keeps the active job and its plan. *)
Lemma spec_quiet c s D :
  quiet_command c = true -> (match c with DoSetActivePlan _ => false | _ => true end) = true ->
  spec_in (within D) (held s D) (journal_do (perform c)) (fun _ => held s D).
Proof.
  intros Hq Hc. apply (spec_perform c); [by destruct c|apply held_within..|].
  intros j w j' [Hh Hd] Hp He. split; [by eapply holds_quiet, edit_quiet|].
  unfold knows in *. rewrite shown_moved. destruct Hh as [_ Hk]. rewrite <- (Hk Hp) in Hd. by destruct He.
Qed.

Lemma spec_clear_job D id : closed D -> spec_in (within D) (clearable D) (clear_job id) (fun _ => within D).
Proof.
  intros HD. apply (spec_then _ _ _ (fun _ => clearable D)); [|intros []; by apply spec_clear].
  apply spec_ask_ok; [done|apply clearable_within].
Qed.

Lemma spec_drop D id : spec_in (within D) (within D) (journal_do (DropJobReports id)) (fun _ => within D).
Proof.
  apply spec_held. intros s. eapply spec_post; [|by apply (spec_quiet (DoDropJobReports _))].
  intros []. apply held_within.
Qed.

Lemma spec_refused_report {A} D id e (R : A -> journal -> agent_world -> Prop) :
  spec_in (within D) (within D)
    (if IsPermanentReportError e then then_ (journal_do (DropJobReports id)) (fun _ => fail ErrLeaseLost) else fail e) R.
Proof.
  destruct (IsPermanentReportError e); [|apply spec_fail, sound_refl].
  apply (spec_then _ _ _ (fun _ => within D)); [apply spec_drop|]. intros []. apply spec_fail, sound_refl.
Qed.

Definition anything : knowledge := fun _ _ => True.

Lemma good_within j w : good j w <-> within anything j w.
Proof. split; [done|by intros []]. Qed.

Lemma spec_refused_good {A} id e (R : A -> journal -> agent_world -> Prop) :
  spec good
    (if IsPermanentReportError e then then_ (journal_do (DropJobReports id)) (fun _ => fail ErrLeaseLost) else fail e) R.
Proof. eapply spec_pre, spec_errors, (spec_refused_report anything). by intros j w; rewrite good_within. Qed.

Lemma spec_send D s id r : spec_in (within D) (held s D) (ask_ok (SendReport id r)) (fun _ => held (accept id r s) D).
Proof.
  apply (spec_event _ _ _ (note (Accepted id r))); [apply held_within..| |].
  - intros j w [Hh Hd]. split; [|done].
    eapply holds_note; [done| |unfold accept; by destruct (current s)|apply same_job_accept].
    cbn. unfold accept. by destruct (current s).
  - intros ans w x v Ex. by apply effects_inv in Ex.
Qed.

Lemma spec_claim D s req :
  spec_in (within D) (held s D) (ask_ok (ClaimHost req)) (fun x => held (claim_result s x) D).
Proof.
  intros j w [Hh Hd]. pose proof (holds_good _ _ _ Hh) as Hg.
  apply (wp_asked (ClaimHost req) (fun r => r)
           (fun r j v => match r with Ok x => held (claim_result s x) D j v | Err _ => within D j v end)); [apply Hg|].
  intros ans x v Ex.
  destruct ans as [| |e|e| |jb cl| | | | | | | |]; cbn in Ex; try discriminate Ex; injection Ex as <- <-;
    [by split; [apply Hg|]..|].
  destruct jb as [jb|]; [|by split; [apply Hg|]]. destruct cl; [|by split; [apply Hg|]].
  assert (Hn : holds (confirm (Job.ID jb) s) j (note (Confirmed (Job.ID jb)) w)).
  { eapply holds_note; [done| |unfold confirm; by destruct (current s)|apply same_job_confirm].
    cbn. unfold confirm. by destruct (current s). }
  cbn. split; [by eapply holds_good|done].
Qed.

(** The reports on disk are of the protocol's job. *)
Lemma holds_head s j w p ps k :
  holds s j w -> poisoned j = None -> Data.PendingReports (data j) = p :: ps -> current s = Some k -> Pending.JobID p = job k.
Proof.
  intros Hh Hp El Hk. pose proof (holds_active _ _ _ Hh Hp) as Em. destruct Hh as [[Hl Hi Hd] Hc].
  unfold agrees in Hd. destruct (active_of (main (files w))) as [i|] eqn:Ei; [|congruence].
  destruct Hd as (k' & Hk' & Ej & Hr). rewrite Hk in Hk'. injection Hk' as <-. rewrite <- (Hc Hp) in Hr. cbn in Hr.
  rewrite El in Hr. apply Forall_cons in Hr as [Hr _]. congruence.
Qed.

(** After the acknowledgement of a report that ends its job, the job may be cleared. *)
Lemma spec_acked D s id r :
  spec_in (within D)
    (fun j w => held (accept id r s) D j w /\
       exists p ps, Data.PendingReports (data j) = p :: ps /\ Pending.JobID p = id)
    (journal_do (Ack id (Report.Sequence r))) (fun _ j w => if ends_job r then clearable D j w else within D j w).
Proof.
  apply (spec_perform (DoAck id (Report.Sequence r))).
  - done.
  - intros j w [Hw _]. by apply held_within in Hw.
  - intros j w Hw. destruct (ends_job r); [by apply clearable_within|done].
  - intros j w j' ([Hh Hd] & p & ps & El & Ep) Hp He.
    pose proof (holds_quiet _ j w j' Hh Hp (edit_quiet j (DoAck id (Report.Sequence r)) j' eq_refl He)) as Hq.
    assert (Hd' : knows D (moved w (data j'))).
    { unfold knows in *. rewrite shown_moved. rewrite <- (proj2 Hh Hp) in Hd. by inversion He; subst. }
    destruct (ends_job r) eqn:Er; [|by apply (held_within (accept id r s))].
    split; [|done]. exists (accept id r s). split; [done|]. intros _ k Hk.
    pose proof (holds_head _ _ _ _ _ _ Hh Hp El Hk) as Ek. unfold accept in Hk.
    destruct (current s) as [k0|] eqn:E0; [|congruence]. cbn in Hk. injection Hk as <-. rewrite job_noted in Ek.
    apply ends_noted; [congruence|done].
Qed.

Lemma spec_flush D n : closed D ->
  spec_in (within D) (within D) (flush n) (fun _ j w => within D j w /\ Data.PendingReports (data j) = []).
Proof.
  intros HD. induction n as [|n IH]; [apply spec_stop, sound_refl|]. cbn [flush].
  apply (spec_then _ _ _ (fun x j w => x = j /\ within D j w)); [by apply spec_look|].
  intros x. destruct (pending_view x) as [|item rest] eqn:Ev.
  { apply spec_ret; [by intros j w [_ Hw]|]. intros j w [-> Hw]. split; [done|]. by apply pending_view_nil. }
  destruct (pending_view_head x item rest Ev) as (p & ps & Ep & Ej & Es & _).
  set (id := Pending.JobID item) in *. set (r := Pending.report item) in *.
  set (queued := fun j : journal => exists p ps, Data.PendingReports (data j) = p :: ps /\ Pending.JobID p = id).
  apply (spec_pre (fun j w => exists s, held s D j w /\ queued j)).
  { intros j w [-> Hw]. apply within_held in Hw as (s & Hh). exists s. split; [done|]. by exists p, ps. }
  apply spec_exists. intros s.
  apply (spec_then _ _ _ (fun y j w => match y with Ok _ => held (accept id r s) D j w /\ queued j | Err _ => within D j w end)).
  - apply (spec_attempt (within D) _ _ (fun _ j w => held (accept id r s) D j w /\ queued j)). apply spec_frame, spec_send.
  - intros [[]|e]; [|apply spec_refused_report].
    apply (spec_then _ _ _ (fun _ j w => if ends_job r then clearable D j w else within D j w)); [by apply spec_acked|].
    intros []. apply (spec_then _ _ _ (fun _ => within D)); [|intros []; exact IH].
    destruct (ends_job r); [by apply spec_clear_job|apply spec_ret; [done|done]].
Qed.

Lemma spec_flush_all D : closed D ->
  spec_in (within D) (within D) flushExecutionReports (fun _ j w => within D j w /\ Data.PendingReports (data j) = []).
Proof. intros HD j w Hw. by apply (spec_flush D). Qed.

(** ** Reporting *)

Lemma note_port_shown d id sv g st r d' rep :
  note_port_result d id sv g st r = Ok (d', rep) -> shown (Some d') = shown (Some d).
Proof.
  unfold note_port_result. destruct (_ !=? _)%Z; [by intros [= <- _]|].
  destruct (Data.ActiveJob d) as [act|] eqn:Ea; [|done]. destruct (Result_PortResult r); [|done].
  destruct (Job.PortReconfigure act); [|done]. destruct (_ || _); [done|].
  destruct (IsAcceptedPortResult _).
  - destruct (match Job.PortResultOf act with Some _ => _ | None => _ end); [done|]. intros [= <- _]. cbn. by rewrite Ea.
  - destruct (_ || _); [done|]. intros [= <- _]. cbn. by rewrite Ea.
Qed.

Lemma edit_queue_shown j id sv tok g st code msg pr art prev res j' :
  edit j (DoQueue id sv tok g st code msg pr art prev res) j' ->
  exists r, Report.Status r = st /\
    shown (Some (data j')) = ((shown (Some (data j))).1, (Data.PendingReports (data j) ++ [Pending.mk id r])%list).
Proof.
  inversion 1 as [| | | | |? ? ? ? ? ? ? ? ? ? ? d port Hd Ec Ej| | |]; subst. eexists. split; [|cbn]; cycle 1.
  - destruct res as [r|].
    + destruct Hd as (report & Hn & ->). apply note_port_shown in Hn. cbn in Hn. injection Hn as -> -> ->. reflexivity.
    + destruct Hd as [-> ->]. reflexivity.
  - done.
Qed.

(** What is known names the job that reports. *)
Definition names (id : string) (D : knowledge) : Prop := forall i v p n, D (Some (i, v), p) n -> i = id.

Lemma reports_app id l p : reports_of id l -> Pending.JobID p = id -> reports_of id (l ++ [p])%list.
Proof. intros Hl Hp. apply Forall_app. split; [done|]. by constructor. Qed.

Lemma spec_queue_within D id sv tok g st code msg pr art prev res :
  names id D ->
  spec_in (within D) (within D) (journal_do (queue id sv tok g st code msg pr art prev res)) (fun _ => within D).
Proof.
  intros Hn. apply (spec_queue id sv tok g st code msg pr art prev res); [done..|].
  intros j w j' Hw Hp He. apply within_held in Hw as (s & Hh & Hd). apply within_held. exists s.
  destruct (edit_queue_shown _ _ _ _ _ _ _ _ _ _ _ _ _ He) as (r & _ & Es).
  pose proof (proj2 Hh Hp) as Hk. unfold knows in Hd. rewrite <- Hk in Hd. split; [|by unfold knows; rewrite shown_moved, Es].
  eapply holds_quiet; [done|done|]. split; [by rewrite !active_shown, Es|].
  intros i Ei Hr. replace (Data.PendingReports (data j')) with (shown (Some (data j'))).2 by done. rewrite Es. cbn [snd].
  apply reports_app; [done|]. cbn. rewrite active_shown in Ei. destruct (shown (Some (data j))) as [[[[i' v']|] p'] l] eqn:Ex;
    [|done]. cbn in Ei, Hd. injection Ei as ->. symmetry. by eapply Hn.
Qed.

(** A report in the middle of [within]. *)
Section Reports.
Context (D : knowledge) (jb : Job.t) (HD : closed D) (Hn : names (Job.ID jb) D).

Lemma spec_emit status code message percent artifact previous :
  spec_in (within D) (within D) (emitExecutionReport a jb status code message percent artifact previous) (fun _ => within D).
Proof.
  apply (spec_then _ _ _ (fun _ => within D)); [by apply spec_queue_within|]. intros r.
  apply (spec_then _ _ _ (fun _ => within D)).
  - eapply spec_post; [|by apply spec_flush_all]. by intros [] j w [].
  - intros []. apply spec_ret; [done|done].
Qed.

Lemma spec_terminal status code message result :
  spec_in (within D) (within D) (terminal a jb status code message result) (fun _ => within D).
Proof.
  apply (spec_then _ _ _ (fun _ => within D)); [by apply spec_emit|]. intros r. apply spec_ret; [done|done].
Qed.

Lemma spec_finish r : spec_in (within D) (within D) (finishExecutionResult a jb r) (fun _ => within D).
Proof. unfold finishExecutionResult. destruct (rolled_back r); by apply spec_terminal. Qed.

Lemma spec_progress status message percent artifact previous :
  spec_in (within D) (within D) (progress a jb status message percent artifact previous) (fun _ => within D).
Proof.
  apply (spec_then _ _ _ (fun _ => within D)); [by apply spec_emit|]. intros r. apply spec_ret; [done|done].
Qed.
End Reports.

(** ** A job under way *)

(** The fresh job of this process: open in the journal, nothing pending. *)
Definition running (s : state) (k : work) (v : Z) (p : option MutationPlan.t) (j : journal) (w : agent_world) : Prop :=
  holds (s <| current := Some k |>) j w /\ poisoned j = None /\ shown (main (files w)) = (Some (job k, v), p, []).

Lemma sound_running s k v p : sound (running s k v p).
Proof. intros j w [Hh _]. by eapply holds_good. Qed.

Definition reported (k : work) (status : string) : work := k <| installing := installing k || (status ==? "installing") |>.

Lemma noted_progress k r status :
  Report.Status r = status -> isTerminalUpdateStatus status = false -> noted k (job k) r = reported k status.
Proof.
  intros Es Ht. unfold noted, reported. rewrite bool_decide_true by done. rewrite Es. unfold ends_job. rewrite Es, Ht. cbn.
  destruct k. cbn. by rewrite orb_false_r.
Qed.

(** One report of a running job: queued, sent, acknowledged. *)
Lemma spec_flush_one s k v p n r :
  isTerminalUpdateStatus (Report.Status r) = false ->
  spec (fun j w => holds (s <| current := Some k |>) j w /\ poisoned j = None /\
          shown (main (files w)) = (Some (job k, v), p, [Pending.mk (job k) r]))
    (flush (S (S n))) (fun _ => running s (reported k (Report.Status r)) v p).
Proof.
  intros Ht. cbn [flush]. set (k' := reported k (Report.Status r)).
  set (P := fun (j : journal) (w : agent_world) => holds _ j w /\ _).
  assert (HP : sound P) by (intros j w [Hh _]; by eapply holds_good).
  apply (spec_then _ _ _ (fun x j w => Data.PendingReports (data x) = [Pending.mk (job k) r] /\ P j w)).
  { apply spec_look; [done|]. intros j w Hw. split; [|done]. destruct Hw as (Hh & Hp & Hs).
    rewrite <- (proj2 Hh Hp) in Hs. by injection Hs. }
  intros x. apply spec_pure. intros Ex. unfold pending_view. rewrite Ex. cbn [map].
  set (item := _ <| Pending.report := _ |>). set (rep := Pending.report item).
  assert (Er : Report.Status rep = Report.Status r) by done.
  set (P1 := fun (j : journal) (w : agent_world) => holds (s <| current := Some k' |>) j w /\
               poisoned j = None /\ shown (main (files w)) = (Some (job k, v), p, [Pending.mk (job k) r])).
  assert (HP1 : sound P1) by (intros j w (Hh & _); by eapply holds_good).
  apply (spec_then _ _ _ (fun y j w => match y with Ok _ => P1 j w | Err _ => good j w end)).
  - apply (spec_attempt good _ _ (fun _ => P1)), (spec_event _ _ _ (note (Accepted (job k) rep))); [done|done| |].
    + intros j w (Hh & Hp & Hs). split; [|done]. eapply holds_note; [done| |done|done].
      change (Some (s <| current := Some (noted k (job k) rep) |>) = Some (s <| current := Some k' |>)).
      by rewrite (noted_progress k rep (Report.Status r)).
    + intros ans w y u E. by apply effects_inv in E.
  - intros [[]|e]; [|apply spec_refused_good].
    apply (spec_then _ _ _ (fun _ => running s k' v p)).
    + apply (spec_perform (DoAck (job k) (Report.Sequence rep))); [done|done|apply sound_running|].
      intros j w j' (Hh & Hp & Hs) _ He.
      pose proof (holds_quiet _ j w j' Hh Hp (edit_quiet j (DoAck (job k) (Report.Sequence rep)) j' eq_refl He)) as Hq.
      pose proof (proj2 Hh Hp) as Hk. rewrite Hs in Hk.
      split; [done|]. split; [by rewrite (edit_poisoned _ _ _ He)|]. rewrite shown_moved.
      inversion He as [| | | | | | |p0 rest0 El|]; subst. cbn in Hk |- *. rewrite El in Hk. injection Hk as -> -> _ ->. done.
    + intros []. unfold ends_job. rewrite Er, Ht. cbn [andb].
      apply (spec_then _ _ _ (fun _ => running s k' v p)); [apply spec_ret; [apply sound_running|done]|]. intros [].
      apply (spec_then _ _ _ (fun x j w => Data.PendingReports (data x) = [] /\ running s k' v p j w)).
      { apply spec_look; [apply sound_running|]. intros j w Hw. split; [|done]. destruct Hw as (Hh & Hp & Hs).
        rewrite <- (proj2 Hh Hp) in Hs. by injection Hs. }
      intros y. apply spec_pure. intros Ey. unfold pending_view. rewrite Ey. cbn [map].
      apply spec_ret; [apply sound_running|done].
Qed.

Lemma spec_emit_running s k v p jb status code message percent artifact previous :
  Job.ID jb = job k -> isTerminalUpdateStatus status = false ->
  spec (running s k v p) (emitExecutionReport a jb status code message percent artifact previous)
    (fun _ => running s (reported k status) v p).
Proof.
  intros Hj Ht.
  apply (spec_then _ _ _ (fun _ j w => exists r, Report.Status r = status /\ holds (s <| current := Some k |>) j w /\
    poisoned j = None /\ shown (main (files w)) = (Some (job k, v), p, [Pending.mk (job k) r]))).
  - set (c := DoQueue (Job.ID jb) (NodeID a) (Job.LeaseToken jb) (Job.LeaseGeneration jb) status code message percent
                (canonicalReportDigest artifact) (canonicalReportDigest previous) None).
    apply (spec_queue (Job.ID jb) (NodeID a) (Job.LeaseToken jb) (Job.LeaseGeneration jb) status code message percent
             (canonicalReportDigest artifact) (canonicalReportDigest previous) None); [apply sound_running| |].
    { intros j w (r & _ & Hh & _). by eapply holds_good. }
    intros j w j' (Hh & Hp & Hs) _ He. pose proof (edit_poisoned _ _ _ He) as Hp'.
    destruct (edit_queue_shown _ _ _ _ _ _ _ _ _ _ _ _ _ He) as (r & Er & Es). rewrite Hp in Hp'.
    pose proof (proj2 Hh Hp) as Hk. rewrite Hs in Hk. rewrite Hk in Es. injection Hk as _ _ Hl. rewrite Hl, Hj in Es. cbn [fst app] in Es.
    exists r. split; [done|]. split; [|by rewrite shown_moved].
    eapply holds_quiet; [done|done|]. split.
    + rewrite !active_shown, Es, (proj2 Hh Hp), Hs. done.
    + intros i Ei _. replace (Data.PendingReports (data j')) with (shown (Some (data j'))).2 by done. rewrite Es. cbn.
      rewrite active_shown, (proj2 Hh Hp), Hs in Ei. injection Ei as <-. by repeat constructor.
  - intros rep. apply spec_exists. intros r. apply spec_pure. intros <-.
    apply (spec_then _ _ _ (fun _ => running s (reported k (Report.Status r)) v p)).
    + intros j w Hw. unfold flushExecutionReports.
      assert (El : length (Data.PendingReports (data j)) = 1).
      { destruct Hw as (Hh & Hp & Hs). rewrite <- (proj2 Hh Hp) in Hs. injection Hs as _ _ ->. done. }
      unfold iowp. rewrite El. by apply spec_flush_one.
    + intros []. apply spec_ret; [apply sound_running|done].
Qed.

Lemma spec_progress_running s k v p jb status message percent artifact previous :
  Job.ID jb = job k -> isTerminalUpdateStatus status = false ->
  spec (running s k v p) (progress a jb status message percent artifact previous) (fun _ => running s (reported k status) v p).
Proof.
  intros Hj Ht. apply (spec_then _ _ _ (fun _ => running s (reported k status) v p)); [by apply spec_emit_running|].
  intros r. apply spec_ret; [apply sound_running|done].
Qed.
End Safety.
