(* ===== verification/AgentJobs.v ===== *)
(** The host agent at work on a job: what reaches the executor, for a fresh job and for
    one that is recovered, and the reports in between. *)
From Stdlib Require Import Ascii String ZArith Lia.
From stdpp Require Import base decidable list strings gmap.
From S2P Require Import Prelude Strings Regexp Patterns Effects Sha256 Json SelfUpdateState SelfUpdateGrant PlanDigest Release Jobs Journal JournalRules Grants AgentPolicy AgentClaims RecoveryIntent AgentWorld AgentExecution AgentRecovery AgentPoll AgentProtocol AgentRules AgentTriples AgentSafety.

Open Scope string_scope.

Section Jobs.
Context `{UnicodeTables} `{TimeZones} `{PortPolicies} `{!PortFields} `{GrantContracts} `{Formats}.
Context (a : agent).

(** ** What is known while a job is processed *)

(** No terminal-only recovery is under way. *)
Definition settled_intent (i : option Intent.t) : bool := match i with Some i => Intent.Settled i | None => true end.

Lemma frozen_settled s : frozen s = negb (settled_intent (AgentProtocol.intent s)).
Proof. unfold frozen. by destruct (AgentProtocol.intent s). Qed.

Definition unfrozen : knowledge := fun _ i => settled_intent i = true.

(** The journal is empty or names this job, with a plan in [plans]. *)
Definition known (id : string) (v : Z) (plans : option MutationPlan.t -> Prop) : knowledge := fun x i =>
  settled_intent i = true /\ (x = (None, None) \/ exists p, x = (Some (id, v), p) /\ plans p).

Definition working id v : knowledge := known id v (fun _ => True).
Definition planned id v plan : knowledge := known id v (fun p => p = Some plan).

Lemma closed_known id v plans : closed (known id v plans).
Proof. intros x i [Hi _]. split; [done|by left]. Qed.

Lemma names_known id v plans : names id (known id v plans).
Proof. intros i v' p n [_ [[=]|(p' & [= -> -> ->] & _)]]. done. Qed.

Lemma closed_unfrozen : closed unfrozen.
Proof. by intros x i. Qed.

Lemma within_mono D D' j w : (forall x i, D x i -> D' x i) -> within D j w -> within D' j w.
Proof. intros HD [Hg Hd]. split; [done|by apply HD]. Qed.

Lemma known_mono id v (F G : option MutationPlan.t -> Prop) : (forall p, F p -> G p) ->
  forall x i, known id v F x i -> known id v G x i.
Proof. intros HF x i [Hi [Hx|(p & Hx & Hp)]]; (split; [done|]); [by left|right; by exists p; auto]. Qed.

Lemma known_unfrozen id v F x i : known id v F x i -> unfrozen x i.
Proof. by intros []. Qed.

(** A running job, in the terms of [within]. *)
Lemma running_within s k v p (plans : option MutationPlan.t -> Prop) :
  frozen s = false -> plans p -> sound_in (within (known (job k) v plans)) (running s k v p).
Proof.
  intros Hf Hp j w (Hh & _ & Hs). split; [by eapply holds_good|]. unfold knows. rewrite Hs. split.
  - rewrite frozen_settled in Hf. apply negb_false_iff in Hf. destruct Hh as [[_ Hi _] _]. cbn in Hi. by rewrite <- Hi.
  - right. by exists p.
Qed.

(** ** Steps of the protocol *)

(** The state after the answer to a grant request. *)
Definition answered_with (id : string) (r : GrantRequest.t) (answer : option Grant.t) (s : state) : state :=
  s <| granted := option_map (fun g => (id, r, g)) answer |>.

Lemma asked_ok s k operation r saved answer :
  current s = Some k -> asks_for saved (job k) r = true -> frozen s = false ->
  (operation = "apply" -> installing k = true /\ applied k = false /\ over k = false) ->
  step (Asked (job k) operation r saved answer) s = Some (answered_with (job k) r answer s).
Proof.
  intros Hk Ha Hf Ho. unfold step. rewrite Hk, Ha, Hf, bool_decide_true by done. cbn [andb negb].
  destruct (bool_decide_reflect (operation = "apply")) as [Eo|Eo]; [|done]. by destruct (Ho Eo) as (-> & -> & ->).
Qed.

Lemma staged_ok s k plan saved :
  current s = Some k -> covers saved (job k) plan = true -> frozen s = false ->
  staged k = false -> installing k = false -> applied k = false -> over k = false ->
  step (Staged plan saved) s = Some (s <| current := Some (k <| staged := true |>) |>).
Proof. intros Hk Hc Hf Hs Hi Ha Ho. unfold step. by rewrite Hk, Hc, Hf, Hs, Hi, Ha, Ho. Qed.

Lemma applied_ok s k plan g saved :
  current s = Some k -> covers saved (job k) plan = true -> authorized saved (granted s) "apply" plan g = true ->
  frozen s = false -> staged k = true -> installing k = true -> applied k = false -> over k = false ->
  step (Applied plan g saved) s = Some (s <| current := Some (k <| applied := true |>) |> <| granted := None |>).
Proof. intros Hk Hc Hg Hf Hs Hi Ha Ho. unfold step. by rewrite Hk, Hc, Hg, Hf, Hs, Hi, Ha, Ho. Qed.

Lemma reconciled_ok s plan g saved :
  (forall k, current s = Some k -> covers saved (job k) plan = true /\ binds saved "reconcile" plan g = true) ->
  requested (granted s) "reconcile" plan g = true -> frozen s = false ->
  step (Reconciled plan g saved) s = Some (s <| granted := None |>).
Proof.
  intros Hk Hr Hf. unfold step, authorized. rewrite Hf, Hr. destruct (current s) as [k|]; [|done].
  by destruct (Hk k eq_refl) as [-> ->].
Qed.

(** ** Requests for a running job *)

Lemma running_note s s' k k' v p e j w :
  running s k v p j w -> step e (s <| current := Some k |>) = Some (s' <| current := Some k' |>) ->
  intent s' = intent s -> job k' = job k -> running s' k' v p j (note e w).
Proof.
  intros (Hh & Hp & Hs) He Hi Hj. split; [|by rewrite Hj]. eapply holds_note; [done|done|done|]. unfold same_job. cbn. by rewrite Hj.
Qed.

Lemma shown_covers d id v plan l : shown d = (Some (id, v), Some plan, l) -> MutationPlan.JobID plan = id -> covers d id plan = true.
Proof.
  intros Es Hj. unfold covers. rewrite active_shown, plan_shown, Es. cbn. by rewrite !bool_decide_true.
Qed.

(** A grant the agent accepts is for the operation, the session and the job. *)
Lemma grant_authorizes now node binding policy jb plan operation b saved g :
  validateV2SoftwareExecutionGrant now node binding policy jb plan operation b = Ok tt -> Grant.v2 g = Some b ->
  binds saved operation plan g = true.
Proof.
  intros Hv Hg. unfold binds. rewrite Hg. unfold validateV2SoftwareExecutionGrant in Hv. ok_inv Hv.
  unfold validateV2ExecutionGrantCommon in E. cbn zeta in E. destruct (_ || _) eqn:E1 in E; [discriminate E|].
  destruct (hostPullPolicyTarget _ _); [|discriminate E]. destruct (_ || _) eqn:E2 in E; [discriminate E|].
  destruct (DesiredOperation.SoftwareUpdate _); [|discriminate Hv]. destruct (_ || _) eqn:E3 in Hv; [discriminate Hv|].
  bool_to_prop. rewrite !bool_decide_true; [done|..]; congruence.
Qed.

(** The job, its plan and the state in which a request for it is sent. *)
Section Requests.
Context (v : Z) (jb : Job.t) (plan : MutationPlan.t).
Hypothesis (Hv : Job.ProtocolVersion jb = v) (Hplan : MutationPlan.JobID plan = Job.ID jb).

(** What the agent accepts as a grant for the operation. *)
Definition fits (operation : string) (g : Grant.t) : Prop :=
  forall saved, saved_version saved = Some v -> binds saved operation plan g = true.

Lemma spec_invoke {E} `{!Safe E} (P Q : journal -> agent_world -> Prop) (G : Grant.t -> journal -> agent_world -> Prop)
    binding policy operation :
  sound_in E P -> (forall g, sound_in E (G g)) ->
  spec_in E P (ask_ok (IssueMutationGrant (Job.ID jb) (grant_request a binding jb plan operation))) G ->
  (forall g, fits operation g ->
     spec_in E (G g) (mutate operation plan (softwareClaimFence jb binding policy) g) (fun _ => Q)) ->
  spec_in E P (invokeExecutionMutation a binding policy jb plan operation) (fun _ => Q).
Proof.
  intros HP HG Hask Hm. unfold invokeExecutionMutation.
  apply (spec_then _ _ _ (fun _ => P)); [by apply spec_require|]. intros [].
  apply (spec_then _ _ _ G); [done|]. intros g. set (R := G g). assert (HR : sound_in E R) by apply HG.
  destruct (Grant.v2 g) as [b|] eqn:Eg.
  - apply (spec_then _ _ _ (fun _ => R)); [by apply spec_require|]. intros [].
    apply (spec_then _ _ _ (fun _ => R)); [by apply spec_ask|]. intros now.
    apply (spec_then _ _ _ (fun _ j w => fits operation g /\ R j w)).
    + apply spec_check; [done|]. intros [] j w Hw Hc. split; [|done]. intros saved _. by eapply grant_authorizes.
    + intros []. apply spec_pure. apply Hm.
  - apply (spec_then _ _ _ (fun _ j w => fits operation g /\ R j w)).
    + apply spec_require; [done|]. intros j w Hw Hn. split; [|done]. intros saved Es. unfold binds. rewrite Eg, Es.
      bool_to_prop. apply negb_true_iff, bool_decide_eq_false. congruence.
    + intros []. apply spec_pure. apply Hm.
Qed.

(** *** A fresh job *)

Section Running.
Context (k : work).
Hypothesis (Hk : job k = Job.ID jb).

Abbreviation E := (within (planned (Job.ID jb) v plan)).

Lemma running_planned s k' : frozen s = false -> job k' = Job.ID jb -> sound_in E (running s k' v (Some plan)).
Proof. intros Hf <-. by apply running_within. Qed.

Lemma running_covers s j w : running s k v (Some plan) j w -> covers (main (files w)) (job k) plan = true.
Proof. intros (_ & _ & Hs). eapply shown_covers; [done|congruence]. Qed.

Lemma asks_for_plan saved binding operation : covers saved (Job.ID jb) plan = true ->
  asks_for saved (Job.ID jb) (grant_request a binding jb plan operation) = true.
Proof.
  intros Hc. unfold asks_for. pose proof Hc as Hc'. unfold covers in Hc'. apply andb_true_iff in Hc' as [Hc' _].
  apply andb_true_iff in Hc' as [_ Hp]. apply bool_decide_eq_true in Hp. rewrite Hp, Hc. cbn. by rewrite !bool_decide_true.
Qed.

(** The grant request and the answer to it. *)
Lemma spec_issue (P : journal -> agent_world -> Prop) (R : option Grant.t -> journal -> agent_world -> Prop) id r :
  sound_in E P -> (forall answer, sound_in E (R answer)) ->
  (forall j w answer, P j w -> R answer j (note (Asked id (GrantRequest.Operation r) r (main (files w)) answer) w)) ->
  spec_in E P (ask_ok (IssueMutationGrant id r)) (fun g => R (Some g)).
Proof.
  intros HP HR Hn j w Hw.
  apply (wp_asked (IssueMutationGrant id r) (fun x => x)
           (fun x j w => match x with Ok g => R (Some g) j w | Err _ => E j w end)); [by eapply (sound_inv (E := E) P)|].
  intros ans x u Ex. pose proof (Hn j w None Hw) as Hnone. pose proof (sound_inv (E := E) (R None) _ _ (HR None) Hnone).
  destruct ans; cbn in Ex; try discriminate Ex; injection Ex as <- <-.
  - split; [by eapply (sound_inv (E := E) P)|by apply HP].
  - split; [done|by apply (HR None)].
  - specialize (Hn j w (Some g) Hw). split; [by eapply (sound_inv (E := E) (R (Some g)))|done].
Qed.

(** The answer is for the operation and the plan. *)
Lemma issued_requested binding operation g :
  requested (Some (Job.ID jb, grant_request a binding jb plan operation, g)) operation plan g = true.
Proof. unfold requested. cbn. by rewrite !bool_decide_true. Qed.

Section Fresh.
Context (s : state).
Hypothesis (Hf : frozen s = false).

Lemma spec_running_asks binding operation :
  (operation = "apply" -> installing k = true /\ applied k = false /\ over k = false) ->
  let r := grant_request a binding jb plan operation in
  spec_in E (running s k v (Some plan)) (ask_ok (IssueMutationGrant (Job.ID jb) r))
    (fun g => running (answered_with (Job.ID jb) r (Some g) s) k v (Some plan)).
Proof.
  intros Hop r. apply (spec_issue _ (fun answer => running (answered_with (Job.ID jb) r answer s) k v (Some plan)));
    [by apply running_planned|intros answer; by apply running_planned|].
  intros j w answer Hw. eapply running_note; [done| |done|done]. pose proof (running_covers s j w Hw) as Hc.
  rewrite <- Hk. etrans; [apply (asked_ok _ k); [done| |done|done]|done]. rewrite Hk in *. by apply asks_for_plan.
Qed.

Lemma spec_running_stage fence : staged k = false -> installing k = false -> applied k = false -> over k = false ->
  spec_in E (running s k v (Some plan)) (ask_ok (Stage plan fence)) (fun _ => running s (k <| staged := true |>) v (Some plan)).
Proof.
  intros Hs Hi Ha Ho. apply (spec_event _ _ _ (fun w => note (Staged plan (main (files w))) w)); [by apply running_planned..| |].
  - intros j w Hw. eapply running_note; [done| |done|done].
    etrans; [apply (staged_ok _ k); [done|by eapply running_covers|done..]|done].
  - intros ans w x u Ex. by apply effects_inv in Ex.
Qed.

Lemma spec_running_apply fence g : fits "apply" g -> requested (granted s) "apply" plan g = true ->
  staged k = true -> installing k = true -> applied k = false -> over k = false ->
  spec_in E (running s k v (Some plan)) (mutate "apply" plan fence g)
    (fun _ => running (s <| granted := None |>) (k <| applied := true |>) v (Some plan)).
Proof.
  intros Hg Hr Hs Hi Ha Ho. unfold mutate. cbn [bool_decide].
  apply (spec_event _ _ _ (fun w => note (Applied plan g (main (files w))) w)); [by apply running_planned..| |].
  - intros j w Hw. eapply running_note; [done| |done|done].
    etrans; [apply (applied_ok _ k); [done|by eapply running_covers| |done..]|done].
    unfold authorized. apply andb_true_intro. split; [exact Hr|]. apply Hg. destruct Hw as (_ & _ & Hw). by rewrite version_shown, Hw.
  - intros ans w x u Ex. by apply effects_inv in Ex.
Qed.
End Fresh.

Lemma spec_running_invoke s binding policy :
  frozen s = false -> staged k = true -> installing k = true -> applied k = false -> over k = false ->
  spec_in E (running s k v (Some plan)) (invokeExecutionMutation a binding policy jb plan "apply") (fun _ => E).
Proof.
  intros Hf Hs Hi Ha Ho. eapply spec_invoke; [by apply running_planned| |by apply (spec_running_asks s Hf)|].
  - intros g. by apply running_planned.
  - intros g Hg. eapply spec_post; [|apply spec_running_apply; [done|done|apply issued_requested|done..]].
    intros x. by apply running_planned.
Qed.
End Running.

(** *** A reconciliation *)

Abbreviation E := (within (planned (Job.ID jb) v plan)).

(** The protocol's job and the saved plan, in a held state. *)
Lemma held_planned s0 k j w : held s0 (planned (Job.ID jb) v plan) j w -> current s0 = Some k ->
  job k = Job.ID jb /\ covers (main (files w)) (job k) plan = true /\ saved_version (main (files w)) = Some v.
Proof.
  intros [[[_ _ Hd] _] [_ Hx]] Hk. unfold agrees in Hd. rewrite active_shown in Hd.
  destruct (shown (main (files w))) as [[c p] l] eqn:Es. cbn in Hx, Hd. destruct Hx as [[= -> ->]|(p' & [= -> ->] & ->)]; [congruence|].
  cbn in Hd. destruct Hd as (k' & Hk' & Ej & _). rewrite Hk in Hk'. injection Hk' as <-. split; [done|].
  split; [rewrite Ej; by eapply shown_covers|by rewrite version_shown, Es].
Qed.

Lemma held_frozen s0 D j w : (forall x i, D x i -> unfrozen x i) -> held s0 D j w -> frozen s0 = false.
Proof. intros HD [[[_ Hi _] _] Hd]. apply HD in Hd. rewrite frozen_settled, Hi. by rewrite Hd. Qed.

(** The plan is known, and the last request was answered so. *)
Definition answered_planned (r : GrantRequest.t) (answer : option Grant.t) (j : journal) (w : agent_world) : Prop :=
  exists s0, granted s0 = option_map (fun g => (Job.ID jb, r, g)) answer /\ held s0 (planned (Job.ID jb) v plan) j w.

Lemma answered_planned_within r answer : sound_in E (answered_planned r answer).
Proof. intros j w (s0 & _ & Hw). by apply held_within in Hw. Qed.

Lemma spec_planned_asks binding :
  let r := grant_request a binding jb plan "reconcile" in
  spec_in E E (ask_ok (IssueMutationGrant (Job.ID jb) r)) (fun g => answered_planned r (Some g)).
Proof.
  intros r. apply spec_held. intros s0.
  apply (spec_issue _ (answered_planned r)); [apply held_within|apply answered_planned_within|].
  intros j w answer Hw. pose proof (held_frozen _ _ _ _ (known_unfrozen _ _ _) Hw) as Hz.
  exists (answered_with (Job.ID jb) r answer s0). split; [done|]. split; [|apply Hw].
  eapply holds_note; [apply Hw| |done..]. destruct (current s0) as [k|] eqn:Ek.
  - destruct (held_planned _ _ _ _ Hw Ek) as (Ej & Hc & _). rewrite <- Ej. apply asked_ok; [done| |done|done].
    rewrite Ej in *. by apply asks_for_plan.
  - unfold step. by rewrite Ek, Hz.
Qed.

Lemma spec_planned_reconcile binding fence g : fits "reconcile" g ->
  spec_in E (answered_planned (grant_request a binding jb plan "reconcile") (Some g)) (mutate "reconcile" plan fence g) (fun _ => E).
Proof.
  intros Hg. unfold mutate. cbn [bool_decide]. apply spec_exists. intros s0. apply spec_pure. intros Hs.
  apply (spec_event _ _ _ (fun w => note (Reconciled plan g (main (files w))) w)); [apply held_within|by intros j w| |].
  - intros j w Hw. pose proof (held_frozen _ _ _ _ (known_unfrozen _ _ _) Hw) as Hz.
    apply (held_within (s0 <| granted := None |>)). split; [|apply Hw]. eapply holds_note; [apply Hw| |done..].
    apply reconciled_ok; [|rewrite Hs; apply issued_requested|done]. intros k Ek.
    destruct (held_planned _ _ _ _ Hw Ek) as (Ej & Hc & Hsv). split; [done|]. by apply Hg.
  - intros ans w x u Ex. by apply effects_inv in Ex.
Qed.

Lemma spec_planned_invoke binding policy :
  spec_in E E (invokeExecutionMutation a binding policy jb plan "reconcile") (fun _ => E).
Proof.
  eapply spec_invoke; [by intros j w|intros g; apply answered_planned_within|apply spec_planned_asks|].
  intros g Hg. by apply spec_planned_reconcile.
Qed.

(** ** From the staged plan to the end *)

Lemma spec_conclude r :
  spec_in E E (finishExecutionResult a jb r) (fun _ => E).
Proof. apply spec_finish; [apply closed_known|apply names_known]. Qed.

Lemma spec_step status message percent artifact previous :
  spec_in E E (progress a jb status message percent artifact previous) (fun _ => E).
Proof. apply spec_progress; [apply closed_known|apply names_known]. Qed.

Lemma spec_apply_plan s k binding policy :
  frozen s = false -> job k = Job.ID jb -> staged k = true -> installing k = true -> applied k = false -> over k = false ->
  spec_in E (running s k v (Some plan)) (apply_plan a binding policy jb plan) (fun _ => E).
Proof.
  intros Hf Hk Hs Hi Ha Ho. unfold apply_plan.
  apply (spec_then _ _ _ (fun _ => E)).
  - eapply spec_post; [|by apply (spec_attempt E), (spec_running_invoke k)]. by intros [r|e].
  - intros [r|e].
    + apply (spec_then _ _ _ (fun _ => E)); [apply spec_step|]. intros [].
      apply (spec_then _ _ _ (fun _ => E)); [|intros []; apply spec_conclude].
      destruct (rolled_back r); [apply spec_step|by apply spec_ret].
    + apply (spec_then _ _ _ (fun _ => E)); [apply spec_step|]. intros [].
      apply (spec_then _ _ _ (fun _ => E)); [apply spec_planned_invoke|]. intros r. apply spec_conclude.
Qed.

Lemma spec_stage_plan s k binding policy :
  frozen s = false -> job k = Job.ID jb -> staged k = false -> installing k = false -> applied k = false -> over k = false ->
  spec (running s k v (Some plan)) (stage_plan a binding policy jb plan) (fun _ => good).
Proof.
  intros Hf Hk Hs Hi Ha Ho. unfold stage_plan. set (k' := k <| staged := true |>).
  apply (spec_then _ _ _ (fun r j w => match r with Ok _ => running s k' v (Some plan) j w | Err _ => E j w end)).
  { apply (spec_attempt E _ _ (fun _ => running s k' v (Some plan))). by apply spec_running_stage. }
  intros [[]|e].
  - apply (spec_then _ _ _ (fun _ => running s (reported k' "installing") v (Some plan))).
    + by apply spec_progress_running.
    + intros []. eapply spec_post, spec_errors, spec_apply_plan; [by intros [] j w []|done|done|done|cbn; by rewrite orb_true_r|done..].
  - apply (spec_then _ _ _ (fun _ => E)); [|intros []; apply spec_fail; by intros j w []].
    destruct (stage_failure _ e) as [f|]; [|apply spec_ret; [by intros j w []|done]].
    apply spec_errors, spec_held. intros s0. eapply spec_post; [|by apply (spec_quiet (DoSetActiveStageFailure f))].
    intros []. apply held_within.
Qed.
End Requests.

(** ** A fresh job *)

Lemma spec_prepare {E} `{!Safe E} (R : journal -> agent_world -> Prop) policy jb :
  sound_in E R -> spec_in E R (prepareExecutionPlan a policy jb) (fun _ => R).
Proof. intros HR. unfold prepareExecutionPlan, resolve_release. repeat keeps_step R. Qed.

(** The plan becomes durable before anything else sees it. *)
Lemma spec_running_plan s k v p plan :
  spec (running s k v p) (journal_do (SetActivePlan plan))
    (fun _ j w => MutationPlan.JobID plan = job k /\ running s k v (Some plan) j w).
Proof.
  apply (spec_perform (DoSetActivePlan plan)); [done|apply sound_running|by intros j w [_ Hw]; eapply sound_running|].
  intros j w j' (Hh & Hp & Hs) _ He.
  pose proof (holds_quiet _ j w j' Hh Hp (edit_quiet j (DoSetActivePlan plan) j' eq_refl He)) as Hq.
  pose proof (proj2 Hh Hp) as Hc. rewrite Hs in Hc.
  inversion He as [| |? jb Ea Eo Ej Hv Hu| | | | | |]; subst. cbn in Hc. rewrite Ea in Hc. cbn in Hc. injection Hc as Hi <- _ El.
  split; [congruence|]. split; [done|]. split; [done|]. rewrite shown_moved. cbn. rewrite Ea. cbn. congruence.
Qed.

Lemma spec_start_job s v p binding policy jb :
  frozen s = false -> Job.ProtocolVersion jb = v ->
  spec (running s (Work (Job.ID jb) false false false false) v p) (start_job a binding policy jb) (fun _ => good).
Proof.
  intros Hf Hv. set (k := Work (Job.ID jb) false false false false). unfold start_job.
  assert (Hpr : forall p status message percent artifact previous, isTerminalUpdateStatus status = false ->
    (status ==? "installing") = false ->
    spec (running s k v p) (progress a jb status message percent artifact previous) (fun _ => running s k v p)).
  { intros p' status message percent artifact previous Ht Hi. eapply spec_post, spec_progress_running; [|done..].
    intros []. unfold reported. by rewrite Hi. }
  apply (spec_then _ _ _ (fun _ => running s k v p)); [by apply Hpr|]. intros [].
  apply (spec_then _ _ _ (fun _ => running s k v p)); [by apply Hpr|]. intros [].
  assert (Hw : sound_in (within (working (Job.ID jb) v)) (running s k v p)).
  { by apply (running_within s k v p (fun _ => True)). }
  apply (spec_then _ _ _ (fun r j w => match r with Ok _ => running s k v p j w
                                                    | Err _ => within (working (Job.ID jb) v) j w end)).
  { apply (spec_attempt (within (working (Job.ID jb) v)) _ _ (fun _ => running s k v p)). by apply spec_prepare. }
  intros [plan|e].
  - apply (spec_then _ _ _ (fun _ j w => MutationPlan.JobID plan = job k /\ running s k v (Some plan) j w));
      [apply spec_running_plan|].
    intros []. apply spec_pure. intros Hj.
    apply (spec_then _ _ _ (fun _ => running s k v (Some plan))); [by apply Hpr|]. intros [].
    apply (spec_then _ _ _ (fun _ => running s k v (Some plan))); [by apply Hpr|]. intros [].
    by apply (spec_stage_plan v jb plan Hv Hj s k).
  - eapply spec_post, spec_errors, (spec_terminal a (working (Job.ID jb) v)); [by intros [] j w []| |];
      [apply closed_known|apply names_known].
Qed.

(** ** A recovered job *)

Section Recovered.
Context (v : Z) (jb : Job.t).
Hypothesis (Hv : Job.ProtocolVersion jb = v).

Abbreviation W := (within (working (Job.ID jb) v)).

Lemma spec_replan plan :
  spec_in W W (journal_do (SetActivePlan plan))
    (fun _ j w => MutationPlan.JobID plan = Job.ID jb /\ within (planned (Job.ID jb) v plan) j w).
Proof.
  assert (HR : sound_in W (fun j w => MutationPlan.JobID plan = Job.ID jb /\ within (planned (Job.ID jb) v plan) j w)).
  { intros j w [_ Hw]. eapply within_mono; [|done]. by apply known_mono. }
  apply spec_held. intros s. apply (spec_perform (DoSetActivePlan plan)); [done|apply held_within|done|].
  intros j w j' [Hh [Hi Hx]] Hp He.
  pose proof (holds_quiet _ j w j' Hh Hp (edit_quiet j (DoSetActivePlan plan) j' eq_refl He)) as Hq.
  rewrite <- (proj2 Hh Hp) in Hx. inversion He as [| |? act Ea Eo Ej Hval Hu| | | | | |]; subst.
  cbn in Hx. rewrite Ea in Hx. destruct Hx as [[=]|(p & [= Eid Ever Ep] & _)]. split; [congruence|].
  split; [by eapply holds_good|]. split; [done|]. right. exists (Some plan). split; [|done].
  rewrite shown_moved. cbn. rewrite Ea. cbn. congruence.
Qed.

Lemma spec_recover_plan policy :
  spec_in W W (recoverExecutionPlan policy jb)
    (fun plan j w => MutationPlan.JobID plan = Job.ID jb /\ within (planned (Job.ID jb) v plan) j w).
Proof.
  unfold recoverExecutionPlan. apply (spec_then _ _ _ (fun _ => W)); [by apply spec_look|]. intros x.
  destruct (Data.ActivePlan (data x)) as [stored|]; [|by apply spec_stop]. destruct (_ || _); [by apply spec_stop|].
  apply (spec_then _ _ _ (fun _ => W)); [by apply spec_check|]. intros digest.
  apply (spec_then _ _ _ (fun _ => W)); [by apply spec_check|]. intros [].
  set (plan := _ <| MutationPlan.PlanSHA256 := digest |>).
  apply (spec_then _ _ _ (fun _ j w => MutationPlan.JobID plan = Job.ID jb /\ within (planned (Job.ID jb) v plan) j w));
    [apply spec_replan|]. intros [].
  apply spec_ret; [|done]. intros j w [_ Hw]. eapply within_mono; [|done]. by apply known_mono.
Qed.

Lemma spec_recover_job binding policy : spec W (recover_job a binding policy jb) (fun _ => good).
Proof.
  unfold recover_job. eapply spec_then; [apply (spec_attempt W), spec_recover_plan|]. intros [plan|e].
  - apply spec_pure. intros Hp. set (P := within (planned (Job.ID jb) v plan)).
    assert (Ht : forall status code message result, spec P (terminal a jb status code message result) (fun _ => good)).
    { intros status code message result.
      eapply spec_post, spec_errors, spec_terminal; [by intros [] j w []|apply closed_known|apply names_known]. }
    apply (spec_then _ _ _ (fun _ => P)); [by apply spec_errors, spec_step|]. intros [].
    eapply spec_then; [by apply (spec_attempt P), (spec_planned_invoke v jb plan)|]. intros [r|e].
    + eapply spec_post, spec_errors, spec_conclude. by intros [] j w [].
    + destruct (_ ==? _); [|apply spec_fail; by intros j w []].
      apply (spec_then _ _ _ (fun _ => P)); [apply spec_look; [by intros j w []|done]|]. intros x.
      destruct (Data.ActiveStageFailure _) as [f|]; [destruct (_ ==? _)|]; apply Ht.
  - destruct (Job.isV2SoftwareJob jb); [apply spec_stop; by intros j w []|].
    eapply spec_post, spec_errors, spec_terminal; [by intros [] j w []|apply closed_known|apply names_known].
Qed.

(** ** A port job *)

Lemma spec_port_step c : spec_in W W (port_step a jb c) (fun _ => W).
Proof.
  destruct c as [status code message percent result|plan|p]; cbn [port_step].
  - apply (spec_then _ _ _ (fun _ => W)); [by apply spec_queue_within, names_known|]. intros r.
    eapply spec_post, spec_flush_all, closed_known. by intros [] j w [].
  - apply spec_held. intros s. eapply spec_post; [|by apply (spec_quiet (DoSetActivePortPlan plan))].
    intros []. apply held_within.
  - apply spec_held. intros s. eapply spec_post; [|apply (spec_port_policy p (held s (working (Job.ID jb) v)))].
    + intros []. apply held_within.
    + apply held_within.
    + intros j w d [Hh Hd] Hp Es. split; [|unfold knows in *; by rewrite shown_moved, Es, (proj2 Hh Hp)].
      refine (holds_quiet s j w (j <| data := d |>) Hh Hp _). split; [rewrite !active_shown; by apply (f_equal (fun x => option_map fst x.1.1)) in Es|].
      intros id Hi Hr. by apply (f_equal snd) in Es; cbn in *; rewrite Es.
Qed.

Lemma spec_port_steps l : spec_in W W (port_steps a jb l) (fun _ => W).
Proof.
  induction l as [|c l IH]; cbn [port_steps]; [by apply spec_ret|].
  apply (spec_then _ _ _ (fun _ => W)); [apply spec_port_step|by intros []].
Qed.
End Recovered.

(** ** The whole job *)

(** The journal in memory takes the job as its first one. *)
Definition vacant (j : journal) : Prop :=
  poisoned j = None -> Data.ActiveJob (data j) = None /\ Data.PendingReports (data j) = [].

(** With no active job there are no reports. *)
Definition tidy (j : journal) : Prop :=
  poisoned j = None -> Data.ActiveJob (data j) = None -> Data.PendingReports (data j) = [].

Lemma keep_port_same active jb copy :
  keep_port_results active jb = Ok copy -> Job.ID copy = Job.ID jb /\ Job.ProtocolVersion copy = Job.ProtocolVersion jb.
Proof.
  unfold keep_port_results. intros Hk. destruct (_ || _); [by injection Hk as <-|]. ok_inv Hk.
  assert (Job.ID a0 = Job.ID jb /\ Job.ProtocolVersion a0 = Job.ProtocolVersion jb) as [Ei Ev].
  { destruct (Job.PortResultOf active); [|by injection E0 as <-].
    destruct (match Job.PortResultOf jb with Some _ => _ | None => _ end); [done|]. by injection E0 as <-. }
  injection Hk as <-. by destruct (Job.LastRecoveryObservation a0).
Qed.

Lemma replacement_same d active jb : replacement_allowed d active jb = Ok tt -> Job.ID active = Job.ID jb.
Proof. unfold replacement_allowed. intros Hr. destruct (_ || _) eqn:E; [done|]. by bool_to_prop. Qed.

(** The fresh job opens the journal. *)
Lemma set_fresh s jb j w j' :
  holds s j w -> poisoned j = None -> Data.ActiveJob (data j) = None -> Data.PendingReports (data j) = [] ->
  edit j (DoSetActive (Some jb)) j' ->
  running s (Work (Job.ID jb) false false false false) (Job.ProtocolVersion jb) None j' (moved w (data j')).
Proof.
  intros Hh Hp Ea El He. pose proof (edit_poisoned _ _ _ He) as Hp'. rewrite Hp in Hp'.
  inversion He as [|? copy Hu Hj Hc Ec Ej| | | | | | |]; subst. rewrite Ea in Hc. subst copy.
  pose proof (holds_active _ _ _ Hh Hp) as Em. cbn in Em. rewrite Ea in Em. cbn in Em.
  split; [split; [|apply coupled_moved]|split; [done|]].
  - apply moved_open; [apply Hh|done|done|]. cbn. unfold with_active. rewrite Ea. cbn. rewrite El. constructor.
  - rewrite shown_moved. cbn. unfold with_active. rewrite Ea. cbn. by rewrite El.
Qed.

Lemma set_again s jb j w j' active :
  holds s j w -> poisoned j = None -> Data.ActiveJob (data j) = Some active ->
  edit j (DoSetActive (Some jb)) j' ->
  holds s j' (moved w (data j')) /\
  exists p, (shown (main (files (moved w (data j'))))).1 = (Some (Job.ID jb, Job.ProtocolVersion jb), p).
Proof.
  intros Hh Hp Ea He. inversion He as [|? copy Hu Hj Hc Ec Ej| | | | | | |]; subst. rewrite Ea in Hc. destruct Hc as [Hr Hk].
  apply replacement_same in Hr. apply keep_port_same in Hk as [Ei Ev]. split.
  - eapply holds_quiet; [done|done|]. split.
    + cbn. unfold with_active. cbn. rewrite Ea. cbn. congruence.
    + intros id _ Hl. unfold with_active. cbn. rewrite Ea. by destruct (_ && _).
  - eexists. rewrite shown_moved. cbn. by rewrite Ei, Ev.
Qed.

Lemma spec_set_fresh jb :
  spec (fun j w => within unfrozen j w /\ vacant j) (journal_do (SetActive (Some jb)))
    (fun _ j w => exists s, frozen s = false /\
       running s (Work (Job.ID jb) false false false false) (Job.ProtocolVersion jb) None j w).
Proof.
  apply (spec_perform (DoSetActive (Some jb))); [done|by intros j w [[]]|by intros j w (s & _ & Hw); eapply sound_running|].
  intros j w j' [Hw Hv] Hp He. destruct (Hv Hp) as [Ea El]. apply within_held in Hw as [s Hs]. exists s.
  split; [by eapply (held_frozen s unfrozen)|]. eapply set_fresh; [apply Hs|done..].
Qed.

Lemma spec_set_active jb :
  spec (fun j w => within unfrozen j w /\ tidy j) (journal_do (SetActive (Some jb)))
    (fun _ => within (working (Job.ID jb) (Job.ProtocolVersion jb))).
Proof.
  apply (spec_perform (DoSetActive (Some jb))); [done|by intros j w [[]]|by intros j w []|].
  intros j w j' [Hw Hv] Hp He. apply within_held in Hw as [s Hs].
  pose proof (held_frozen s unfrozen j w (fun _ _ Hu => Hu) Hs) as Hf.
  destruct (Data.ActiveJob (data j)) as [active|] eqn:Ea.
  - destruct (set_again s jb j w j' active (proj1 Hs) Hp Ea He) as [Hh [p Ex]].
    split; [by eapply holds_good|]. unfold knows. rewrite Ex. split; [apply Hs|right; by exists p].
  - eapply (running_within s (Work (Job.ID jb) false false false false)); [done| |eapply set_fresh; [apply Hs|done..|by apply Hv|done]]. done.
Qed.

Lemma spec_port_job jb :
  spec (fun j w => within unfrozen j w /\ tidy j) (processPortReconfigurationJob a jb) (fun _ => good).
Proof.
  unfold processPortReconfigurationJob.
  apply (spec_then _ _ _ (fun _ j w => within unfrozen j w /\ tidy j)); [apply spec_require; [by intros j w [[]]|done]|].
  intros []. set (W := within (working (Job.ID jb) (Job.ProtocolVersion jb))).
  apply (spec_then _ _ _ (fun _ => W)); [apply spec_set_active|]. intros [].
  apply (spec_then _ _ _ (fun _ => W)); [apply spec_ask; [done|by intros j w []]|]. intros calls.
  eapply spec_post, spec_errors, spec_port_steps. by intros [] j w [].
Qed.

(** The state in which a job is processed: one that is not a recovery finds no active job. *)
Definition ready (jb : Job.t) (j : journal) : Prop :=
  tidy j /\ (Job.RecoveryRequired jb = false -> vacant j).

Lemma spec_process binding policy jb :
  spec (fun j w => within unfrozen j w /\ ready jb j) (processExecutionJob a binding policy jb) (fun _ => good).
Proof.
  unfold processExecutionJob. destruct (_ ==? _).
  { eapply spec_pre, spec_port_job. by intros j w [Hw [Ht _]]. }
  destruct (Job.RecoveryRequired jb) eqn:Er.
  - apply (spec_then _ _ _ (fun _ => within (working (Job.ID jb) (Job.ProtocolVersion jb))));
      [|intros []; by apply spec_recover_job].
    eapply spec_pre, spec_set_active. by intros j w [Hw [Ht _]].
  - eapply spec_then.
    { eapply spec_pre, spec_set_fresh. intros j w [Hw [_ Hv]]. split; [done|]. by apply Hv. }
    intros []. apply spec_exists. intros s. apply spec_pure. intros Hf. by apply spec_start_job.
Qed.
End Jobs.
