(* ===== verification/AgentCycle.v ===== *)
(** The polls and the recovery entries of the host agent keep to the protocol: the record
    of a terminal-only recovery, the claims and the ends the Panel confirms. *)
From Stdlib Require Import Ascii String ZArith Lia.
From stdpp Require Import base decidable list strings gmap.
From S2P Require Import Prelude Strings Regexp Patterns Effects Sha256 Json SelfUpdateState SelfUpdateGrant PlanDigest Release Jobs Journal JournalRules Grants AgentPolicy AgentClaims RecoveryIntent AgentWorld AgentExecution AgentRecovery AgentPoll AgentProtocol AgentRules AgentTriples AgentSafety AgentJobs.

Open Scope string_scope.

Section Cycle.
Context `{UnicodeTables} `{TimeZones} `{PortPolicies} `{!PortFields} `{GrantContracts} `{Formats}.
Context (a : agent).

(** ** The record of a recovery *)

(** Only the intent is known. *)
Definition intending (F : option Intent.t -> Prop) : knowledge := fun _ i => F i.

Lemma closed_intending F : closed (intending F).
Proof. by intros x i. Qed.

(** What is known of the files. *)
Definition kept (D : knowledge) (F : disk -> Prop) (j : journal) (w : agent_world) : Prop := within D j w /\ F (files w).

Lemma kept_within D F : sound_in (within D) (kept D F).
Proof. by intros j w []. Qed.

Definition intended (i : Intent.t) (w : agent_world) : agent_world := note (Intended i) (w <| intent_file := Some i |>).

Lemma spec_write D F i :
  (forall x p, D x p -> extends p i = true) ->
  spec (kept D F) (ask_ok (WriteIntent i)) (fun _ => kept (intending (fun p => p = Some i)) F).
Proof.
  intros He. apply (spec_event _ _ _ (intended i)); [by intros j w [[]]|by intros j w [[]]| |].
  - intros j w [Hw HF]. apply within_held in Hw as (s & [[Hl Hi Hd] Hc] & Hk). split; [|done]. split; [|done].
    split; [|by intros Hp; apply Hc]. exists (s <| AgentProtocol.intent := Some i |>).
    split; cbn; [|done|]; [|by eapply agrees_same_job].
    rewrite Hl. unfold knows in Hk. rewrite <- Hi in Hk. apply He in Hk. unfold step. by rewrite Hk.
  - intros ans w x v Ex. by apply effects_inv in Ex.
Qed.

(** A record that may replace the one on disk extends it. *)
Lemma may_save_extends p previous next :
  Intent.may_save (Some p) previous next = Ok tt -> extends (Some p) next = true.
Proof.
  unfold Intent.may_save. intros Hm. ok_inv Hm. destruct (_ !=? _) in E; [discriminate E|].
  destruct (Intent.replaces_history p next) eqn:Er; [discriminate E|]. destruct (negb _) eqn:Ek in E; [discriminate E|].
  unfold Intent.replaces_history in Er. bool_to_prop. unfold extends.
  repeat match goal with H : Intent.Settled p = _ |- _ => rewrite H end. rewrite Ek.
  rewrite bool_decide_true by done. cbn [andb]. apply Z.leb_le. lia.
Qed.

(** *** Saving *)

Definition fresh_record (next : Intent.t) : Prop := Intent.Settled next = false /\ length (Intent.Attempts next) = 1.

Lemma spec_save D F previous next :
  (forall x, D x None -> fresh_record next) ->
  spec (kept D F) (saveSoftwareClaimRecoveryIntent previous next)
    (fun _ => kept (intending (fun p => p = Some next)) F).
Proof.
  intros HD. unfold saveSoftwareClaimRecoveryIntent.
  apply (spec_then _ _ _ (fun _ => kept D F)); [apply spec_require; [by intros j w [[]]|done]|]. intros [].
  apply (spec_then _ _ _ (fun i => kept (fun x p => D x p /\ p = i) F)).
  { apply spec_or_stop. eapply spec_post, load_intent; [|by intros j w [[]]].
    intros i j w [[[Hg Hd] HF] ->]. split; [split; [done|by split]|done]. }
  intros i. apply (spec_then _ _ _ (fun _ => kept (fun _ p => extends p next = true) F)).
  { apply spec_check; [by intros j w [[]]|]. intros [] j w [[Hg [Hd Hi]] HF] Hm. split; [|done]. split; [done|].
    unfold knows in *. rewrite Hi. destruct i as [p|]; [by eapply may_save_extends|]. rewrite Hi in Hd.
    destruct (HD _ Hd) as [Hs Hn]. unfold extends. by rewrite Hs, Hn. }
  intros []. apply spec_or_stop, spec_write. auto.
Qed.

(** *** The next job's record *)

Lemma transition_extends old raw next proof :
  transition_invalid raw next proof = false -> replaceable_head old raw next = true -> extends old next = true.
Proof.
  unfold transition_invalid, replaceable_head. destruct old as [p|]; [|done]. intros Ht Hr. bool_to_prop. unfold extends.
  repeat match goal with H : Intent.Settled p = _ |- _ => rewrite H end.
  repeat match goal with H : Intent.Settled next = _ |- _ => rewrite H end.
  rewrite bool_decide_false by done. rewrite bool_decide_true by congruence. done.
Qed.

Lemma spec_transition D F raw next proof :
  spec (kept D F) (transitionSoftwareClaimRecoveryIntent raw next proof)
    (fun _ => kept (intending (fun p => p = Some next)) F).
Proof.
  unfold transitionSoftwareClaimRecoveryIntent.
  apply (spec_then _ _ _ (fun _ j w => transition_invalid raw next proof = false /\ kept D F j w)).
  { apply spec_require; [by intros j w [[]]|]. intros j w Hw Ht. by apply negb_true_iff in Ht. }
  intros []. apply spec_pure. intros Ht.
  apply (spec_then _ _ _ (fun i => kept (intending (fun p => p = i)) F)).
  { apply spec_or_stop. eapply spec_post, load_intent; [|by intros j w [[]]].
    intros i j w [[[Hg Hd] HF] ->]. split; [by split|done]. }
  intros old. set (K := kept (intending (fun p => p = old)) F).
  assert (HK : sound K) by (by intros j w [[]]).
  apply (spec_then _ _ _ (fun _ j w => extends old next = true /\ K j w)).
  { apply spec_require; [done|]. intros j w Hw Hr. split; [by eapply transition_extends|done]. }
  intros []. apply spec_pure. intros He.
  apply (spec_then _ _ _ (fun _ => K)); [destruct old; [by apply spec_ask_ok|by apply spec_ret]|]. intros [].
  apply (spec_then _ _ _ (fun _ => K)); [by apply spec_or_stop, spec_ask_ok|]. intros now.
  apply (spec_then _ _ _ (fun _ => K)); [by apply spec_require|]. intros [].
  apply (spec_then _ _ _ (fun _ => K)); [by apply spec_require|]. intros [].
  apply spec_or_stop, spec_write. by intros x p ->.
Qed.

(** ** The end of a job *)

(** If the job is [id], it is over. *)
Definition ended (s : state) (id : string) : Prop := forall k, current s = Some k -> job k = id -> over k = true.

Lemma confirm_ended id s : ended (confirm id s) id.
Proof.
  intros k. unfold confirm. destruct (current s) as [k0|] eqn:E; [|congruence]. cbn. intros [= <-] Hj.
  destruct (bool_decide_reflect (id = job k0)) as [Ek|Ek]; [done|]. by destruct Ek.
Qed.

(** The answer of the Panel to a claim. *)
Definition answered (s : state) (over : option Job.t) : Prop := forall jb, over = Some jb -> ended s (Job.ID jb).

Lemma claim_answers s job : answered (claim_result s (job, true)) job.
Proof. intros jb ->. apply confirm_ended. Qed.

(** The cursor in memory is that of the ended job. *)
Lemma ended_settled s id j w :
  holds s j w -> ended s id -> (forall active, Data.ActiveJob (data j) = Some active -> Job.ID active = id) ->
  poisoned j = None -> settled_job s.
Proof.
  intros Hh He Ha Hp k Hk. apply He; [done|]. pose proof (holds_active _ _ _ Hh Hp) as Em. destruct Hh as [[_ _ Hd] _].
  unfold agrees in Hd. rewrite <- Em in Hd. cbn in Hd. destruct (Data.ActiveJob (data j)) as [active|]; cbn in Hd.
  - destruct Hd as (k' & Hk' & Ej & _). rewrite Hk in Hk'. injection Hk' as <-. rewrite Ej. by apply Ha.
  - congruence.
Qed.

(** About to be cleared: the protocol's job is over. *)
Definition closing (s : state) (D : knowledge) (j : journal) (w : agent_world) : Prop :=
  held s D j w /\ (poisoned j = None -> settled_job s).

Lemma closing_within s D : sound_in (within D) (closing s D).
Proof. intros j w [Hh _]. by apply held_within in Hh. Qed.

Lemma closing_clearable s D j w : closing s D j w -> clearable D j w.
Proof. intros [[Hh Hd] Ho]. split; [by exists s|done]. Qed.

Lemma spec_closing_drop s D id :
  spec_in (within D) (closing s D) (journal_do (DropJobReports id)) (fun _ => closing s D).
Proof.
  apply (spec_perform (DoDropJobReports id)); [done|apply closing_within..|].
  intros j w j' [[Hh Hd] Ho] Hp He. split; [|auto]. split; [exact (holds_quiet s j w j' Hh Hp (edit_quiet j (DoDropJobReports id) j' eq_refl He))|].
  unfold knows in *. rewrite shown_moved. rewrite <- (proj2 Hh Hp) in Hd. by inversion He; subst.
Qed.

Lemma spec_closing_clear s D : closed D ->
  spec_in (within D) (closing s D) (journal_do ClearActive) (fun _ => within D).
Proof. intros HD. eapply spec_pre, spec_clear; [|done]. apply closing_clearable. Qed.

Lemma spec_closing_job s D id : closed D -> spec_in (within D) (closing s D) (clear_job id) (fun _ => within D).
Proof. intros HD. eapply spec_pre, spec_clear_job; [|done]. apply closing_clearable. Qed.

Lemma clear_same_job active over id : validateV2RecoveryClear active over id = Ok tt -> Job.ID over = Job.ID active.
Proof. unfold validateV2RecoveryClear. destruct (_ || _) eqn:E; [done|]. intros _. by bool_to_prop. Qed.

(** ** Settling a terminal-only recovery *)

Lemma spec_inspect {E} `{!Safe E} (R : journal -> agent_world -> Prop) request binding policy :
  sound_in E R -> spec_in E R (inspectSoftwareClaimRecovery a request binding policy) (fun _ => R).
Proof. intros HR. unfold inspectSoftwareClaimRecovery. repeat keeps_step R. Qed.

Lemma spec_inspect_matching {E} `{!Safe E} (R : journal -> agent_world -> Prop) intent binding policy message :
  sound_in E R -> spec_in E R (inspect_matching a intent binding policy message) (fun _ => R).
Proof.
  intros HR. unfold inspect_matching. apply (spec_then _ _ _ (fun _ => R)); [by apply spec_inspect|].
  intros proof. repeat keeps_step R.
Qed.

Lemma spec_read_journal {E} `{!Safe E} (R : journal -> agent_world -> Prop) :
  sound_in E R -> spec_in E R readSoftwareClaimRecoveryJournal (fun _ => R).
Proof. intros HR. unfold readSoftwareClaimRecoveryJournal. repeat keeps_step R. Qed.

Lemma cursor_same_job intent active :
  softwareClaimRecoveryCursorMatches intent active = true -> Job.ID active = RecoveryRequest.JobID (Intent.Original intent).
Proof. unfold softwareClaimRecoveryCursorMatches. destruct (_ || _) eqn:E; [done|]. intros _. by bool_to_prop. Qed.

Abbreviation knowing intent := (intending (fun p => p = Some intent)).

Lemma spec_settle s binding policy intent over request accepted :
  answered s over ->
  spec (held s (knowing intent)) (settleSoftwareClaimRecovery a binding policy intent over request accepted) (fun _ => good).
Proof.
  intros Hov. unfold settleSoftwareClaimRecovery. set (R := held s (knowing intent)).
  assert (HR : sound R) by (intros j w Hw; by apply held_within in Hw as []).
  apply (spec_then _ _ _ (fun _ j w => ended s (RecoveryRequest.JobID (Intent.Original intent)) /\ R j w)).
  { apply spec_require; [done|]. intros j w Hw Hc. split; [|done]. destruct over as [jb|]; [|done].
    apply is_ok_unit, clear_same_job in Hc. cbn in Hc. rewrite <- Hc. by apply Hov. }
  intros []. apply spec_pure. intros He.
  apply (spec_then _ _ _ (fun _ => R)); [by apply spec_inspect|]. intros proof.
  apply (spec_then _ _ _ (fun _ => R)); [by apply spec_ask|]. intros now.
  apply (spec_then _ _ _ (fun _ => R)); [by apply spec_require|]. intros [].
  apply (spec_then _ _ _ (fun x j w => x = j /\ R j w)); [by apply spec_look|]. intros x.
  apply (spec_then _ _ _ (fun _ j w => x = j /\ R j w)); [apply spec_require; [by intros j w []; apply HR|done]|]. intros [].
  set (C := closing s (knowing intent)).
  assert (HC : sound C) by (intros j w Hw; by apply closing_within in Hw as []).
  apply (spec_then _ _ _ (fun _ => C)).
  { apply spec_require; [by intros j w []; apply HR|]. intros j w [-> Hw] Hc. split; [done|].
    eapply ended_settled; [apply Hw|done|]. intros active Ea. rewrite Ea in Hc. by apply cursor_same_job. }
  intros []. apply (spec_then _ _ _ (fun r j w => match r with Ok _ => C j w | Err _ => good j w end)).
  { by apply (spec_attempt good C _ (fun _ => C)), spec_read_journal. }
  intros r. apply (spec_then _ _ _ (fun _ => C)).
  { apply spec_require; destruct r; done || (intros j w Hw; by apply HC). }
  intros []. apply (spec_then _ _ _ (fun _ => C)).
  { destruct (Data.PendingReports (data x)); [by apply spec_ret|apply spec_errors, spec_closing_drop]. }
  intros []. apply (spec_then _ _ _ (fun _ => within (knowing intent))).
  { by apply spec_errors, spec_closing_clear, closed_intending. }
  intros []. eapply spec_weaken, (spec_save (knowing intent) (fun _ => True)); [done|by intros [] j w [[]]|by intros y [=]].
Qed.

Lemma spec_complete s binding policy over request :
  answered s over ->
  spec (holds s) (CompleteSoftwareClaimRecoveryClear a binding policy over request) (fun _ => good).
Proof.
  intros Ho. unfold CompleteSoftwareClaimRecoveryClear.
  apply (spec_then _ _ _ (fun i => held s (intending (fun p => p = i)))).
  { eapply spec_post, load_intent; [|intros j w; apply holds_good]. by intros i j w [Hh ->]. }
  intros [intent|]; [|apply spec_stop; intros j w [Hh _]; by eapply holds_good].
  apply (spec_then _ _ _ (fun _ => held s (knowing intent))); [|intros []; by apply spec_settle].
  apply spec_require; [|done]. intros j w [Hh _]; by eapply holds_good.
Qed.

(** ** Adopting a lease *)

Definition same_cursor (jb : Job.t) (j : journal) : Prop :=
  forall active, Data.ActiveJob (data j) = Some active -> Job.ID active = Job.ID jb.

Lemma adopt_good jb j w :
  good j w -> poisoned j = None -> same_cursor jb j -> good (adopted jb j) (moved w (data (adopted jb j))).
Proof.
  intros Hg Hp Hc. apply good_holds in Hg as [s Hh]. pose proof (holds_active _ _ _ Hh Hp) as Em.
  destruct (Data.ActiveJob (data j)) as [active|] eqn:Ea.
  - apply (holds_good s), (holds_quiet s j w (adopted jb j)); [done..|]. split; [|constructor].
    cbn. rewrite Ea. cbn. by rewrite (Hc active).
  - cbn in Em. rewrite Ea in Em. eapply holds_good. split; [|apply coupled_moved].
    apply moved_open; [apply Hh|done|done|constructor].
Qed.

Lemma identity_same_job l r : Job.sameSoftwareJobIdentity l r = true -> Job.ID l = Job.ID r.
Proof. unfold Job.sameSoftwareJobIdentity. intros Hs. by bool_to_prop. Qed.

(** The adoption, in a state where it names the same cursor. *)
Lemma spec_adopt F active jb x : poisoned x = None -> same_cursor jb x ->
  spec (fun j w => x = j /\ within (intending F) j w) (journal_do (saveSoftwareRecoveryAdoptionLocked active jb))
    (fun _ j w => within (intending F) j w /\ Data.ActiveJob (data j) = Some jb).
Proof.
  intros Hp Hc. apply spec_adoption; [by intros j w [_ []]|by intros j w [[]]|by intros j w [<- _]|].
  intros j w [<- [Hg Hd]]. split; [|done]. split; [by apply adopt_good|done].
Qed.

Lemma spec_set_terminal F jb request proof :
  spec (within (intending F)) (SetTerminalSoftwareClaimRecovery jb request proof) (fun _ => within (intending F)).
Proof.
  unfold SetTerminalSoftwareClaimRecovery.
  apply (spec_then _ _ _ (fun x j w => x = j /\ within (intending F) j w)); [apply spec_look; [by intros j w []|done]|].
  intros x. set (R := fun j w => x = j /\ within (intending F) j w). assert (HR : sound R) by (by intros j w [_ []]).
  destruct (poisoned x) as [e|] eqn:Ep; [by apply spec_stop|].
  apply (spec_then _ _ _ (fun _ => R)); [by apply spec_ask|]. intros now.
  apply (spec_then _ _ _ (fun _ => R)); [by apply spec_require|]. intros [].
  apply (spec_then _ _ _ (fun _ => R)); [by apply spec_require|]. intros [].
  apply (spec_then _ _ _ (fun r j w => match r with Ok _ => R j w | Err _ => good j w end)).
  { by apply (spec_attempt good R _ (fun _ => R)), spec_ask_ok. }
  intros r. apply (spec_then _ _ _ (fun _ => R)).
  { apply spec_require; destruct r; try done; intros j w Hw; by apply HR. }
  intros []. destruct (Data.ActiveJob (data x)) as [active|] eqn:Ea.
  - apply (spec_then _ _ _ (fun _ j w => Job.ID active = Job.ID jb /\ R j w)).
    { apply spec_require; [done|]. intros j w Hw Hs. split; [|done]. bool_to_prop. by apply identity_same_job. }
    intros []. apply spec_pure. intros Ei.
    apply (spec_then _ _ _ (fun _ => R)); [by apply spec_check|]. intros [].
    destruct (already_adopted active jb); [apply spec_ret; [done|by intros j w []]|].
    apply (spec_then _ _ _ (fun _ => R)); [by apply spec_require|]. intros [].
    eapply spec_post, spec_adopt; [by intros [] j w []|done|]. intros act Ha. congruence.
  - eapply spec_post, spec_adopt; [by intros [] j w []|done|]. intros act Ha. congruence.
Qed.

(** ** The terminal-only path *)

(** A loaded intent is the one on disk. *)
Lemma spec_load D : spec (within D) (ask_ok LoadIntent) (fun i => within (intending (fun p => p = i))).
Proof.
  eapply spec_post, load_intent; [|by intros j w []]. intros i j w [[Hg _] ->]. by split.
Qed.

(** What the answer says of the record, in the same journal. *)
Definition pathed (b : bool) : knowledge := intending (fun p => b = false -> settled_intent p = true).

Lemma spec_has_intent x id :
  spec (fun j w => x = j /\ good j w) (HasSoftwareClaimRecoveryIntent id) (fun b j w => x = j /\ within (pathed b) j w).
Proof.
  unfold HasSoftwareClaimRecoveryIntent.
  apply (spec_then _ _ _ (fun i j w => x = j /\ within (intending (fun p => p = i)) j w)).
  { eapply spec_post, load_intent; [|by intros j w []]. by intros i j w [[-> Hg] ->]. }
  intros i. set (R := fun j w => x = j /\ within (intending (fun p => p = i)) j w).
  assert (HR : sound R) by (by intros j w [_ []]).
  assert (Hb : forall b, (b = false -> settled_intent i = true) -> spec R (ret b) (fun b j w => x = j /\ within (pathed b) j w)).
  { intros b Hs. apply spec_ret; [done|]. intros j w [-> [Hg Hd]]. split; [done|]. split; [done|].
    unfold knows in *. cbn in Hd. rewrite Hd. exact Hs. }
  destruct i as [i|]; [|by apply Hb]. destruct (Intent.Settled i) eqn:Es; [by apply Hb|].
  destruct (_ && _); [by apply spec_stop|by apply Hb].
Qed.

Lemma spec_prepare_claim D binding policy active :
  spec (within D) (PrepareSoftwareClaimRecoveryClaim a binding policy active) (fun _ => good).
Proof.
  unfold PrepareSoftwareClaimRecoveryClaim. eapply spec_then; [apply spec_load|].
  intros [intent|]; [|apply spec_stop; by intros j w []]. set (R := within (knowing intent)).
  assert (HR : sound R) by (by intros j w []).
  apply (spec_then _ _ _ (fun _ => R)); [by apply spec_require|]. intros [].
  destruct (Intent.wasAttempted _ _); [by apply spec_fail|].
  apply (spec_then _ _ _ (fun _ => R)); [by apply spec_inspect|]. intros proof.
  apply (spec_then _ _ _ (fun _ => R)); [by apply spec_ask|]. intros now.
  eapply spec_weaken, (spec_save (knowing intent) (fun _ => True)); [done|by intros [] j w [[]]|by intros y [=]].
Qed.

(** A claim in a state that is only known to be good. *)
Lemma spec_claim_within D req :
  spec (within D) (attempt (ask_ok (ClaimHost req)))
    (fun r j w => match r with Ok x => exists s, held (claim_result s x) D j w | Err _ => within D j w end).
Proof.
  apply (spec_attempt (within D) _ _ (fun x j w => exists s, held (claim_result s x) D j w)).
  apply spec_held. intros s. eapply spec_post, spec_claim. intros x j w Hw. by exists s.
Qed.

Lemma spec_resume D binding policy jb :
  spec (within D) (ResumeSoftwareClaimRecovery a binding policy jb) (fun _ => good).
Proof.
  unfold ResumeSoftwareClaimRecovery. eapply spec_then; [apply spec_load|]. intros loaded.
  apply (spec_then _ _ _ (fun _ => within (intending (fun p => p = loaded)))); [apply spec_look; [by intros j w []|done]|].
  intros x. destruct loaded as [intent|]; [|apply spec_stop; by intros j w []]. set (R := within (knowing intent)).
  assert (HR : sound R) by (by intros j w []).
  apply (spec_then _ _ _ (fun _ => R)); [by apply spec_require|]. intros [].
  apply (spec_then _ _ _ (fun _ => R)); [by apply spec_inspect_matching|]. intros proof.
  apply (spec_then _ _ _ (fun _ => R)); [apply spec_set_terminal|]. intros [].
  apply (spec_then _ _ _ (fun _ => R)).
  { apply spec_errors, spec_held. intros s. eapply spec_post, spec_send. intros []. apply held_within. }
  intros []. eapply spec_then; [apply spec_claim_within|].
  intros [[over [|]]|e]; try (apply spec_stop; intros j w Hw; by (destruct Hw as [s Hw]; apply held_within in Hw as []) || apply Hw).
  apply spec_exists. intros s. apply spec_settle, claim_answers.
Qed.

(** An operation that changes nothing, its error as a value. *)
Lemma spec_attempt_ask {E} `{!Safe E} {A} (R : journal -> agent_world -> Prop) (o : xop (result failure A)) :
  benign o = true -> sound_in E R -> spec_in E R (attempt (ask_ok o)) (fun _ => R).
Proof.
  intros Hb HR j w Hw. apply wp_bind, wp_bind, wp_call; [by eapply (sound_inv (E := E) R)|]. intros ans x v Ex.
  apply (benign_same o) in Ex as ->; [|done]. pose proof (sound_inv (E := E) R j w HR Hw) as Hi.
  split; [done|]. by apply wp_ret, wp_ret.
Qed.

Lemma bind_claim_cursor node binding policy plan active jb active' jb' :
  bind_claim node binding policy plan active jb = Ok (active', jb') -> active' = None -> active = None.
Proof.
  unfold bind_claim. intros Hb ->. destruct (if softwareClaimIdentityMatches _ _ _ _ then _ else _); [|done].
  destruct (hostPullPolicyTarget _ _); [|done]. destruct (is_err _); [done|]. destruct (_ !=? _); [done|].
  destruct (is_err _); [done|]. destruct (_ || _); [done|]. destruct active as [act|]; [|done].
  destruct (_ || _); [done|]. destruct (Job.SoftwareUpdate act); [by destruct (_ !=? _)|]. by destruct (legacy_plan_matches _ _ _ _ _).
Qed.

Lemma spec_bind {E} `{!Safe E} (R : journal -> agent_world -> Prop) binding policy active jb :
  sound_in E R ->
  spec_in E R (bindSoftwareClaim a binding policy active jb) (fun x j w => (x.1.1 = None -> active = None) /\ R j w).
Proof.
  intros HR. unfold bindSoftwareClaim. destruct (negb _); [by apply spec_ret|].
  apply (spec_then _ _ _ (fun _ => R)); [by apply spec_look|]. intros x. destruct (bind_claim _ _ _ _ _ _) as [[active' jb']|e] eqn:Eb.
  - apply (spec_then _ _ _ (fun _ => R)).
    { destruct (ClaimBinder a); [by apply spec_attempt_ask|by apply spec_ret]. }
    intros bound. apply spec_ret; [done|]. intros j w Hw. split; [|done]. by eapply bind_claim_cursor.
  - by apply spec_ret.
Qed.

Lemma spec_claim_recovery binding policy intent :
  spec (within (knowing intent)) (claimSoftwareClaimRecovery a binding policy intent) (fun _ => good).
Proof.
  unfold claimSoftwareClaimRecovery. set (R := within (knowing intent)). assert (HR : sound R) by (by intros j w []).
  apply (spec_then _ _ _ (fun _ => R)); [by apply spec_inspect_matching|]. intros proof0.
  eapply spec_then; [apply spec_claim_within|]. intros [[job [|]]|e]; [| |apply spec_fail; by intros j w []].
  { apply spec_exists. intros s. destruct job; apply spec_settle, claim_answers. }
  apply (spec_pre R); [intros j w [s Hw]; by apply held_within in Hw|].
  destruct job as [jb|]; [|by apply spec_fail]. destruct (_ || _); [by apply spec_fail|].
  eapply spec_then; [by apply (spec_bind R)|]. intros [[active jb'] bound].
  apply (spec_pre R); [by intros j w []|].
  apply (spec_then _ _ _ (fun _ => R)); [by apply spec_settle_with|]. intros [].
  apply (spec_then _ _ _ (fun _ => R)); [by apply spec_require|]. intros [].
  apply (spec_then _ _ _ (fun _ => R)); [by apply spec_inspect_matching|]. intros proof.
  apply (spec_then _ _ _ (fun _ => R)); [apply spec_set_terminal|]. intros []. apply spec_resume.
Qed.

(** ** The operator's entries *)

(** A journal that shows what is on disk takes the place of the one in memory. *)
Lemma spec_install D (F : disk -> Prop) x :
  (forall d, F d -> shown (Some (data x)) = shown (main d)) ->
  spec (kept D F) (install_journal x) (fun _ j w => x = j /\ within D j w).
Proof.
  intros HF j w [[[Hi _] Hd] Hf]. apply wp_ret; [done|]. split; [done|]. split; [|done]. split; [done|].
  intros _. by apply HF.
Qed.

Lemma shown_persisted d : shown (Some (Data.persisted d)) = shown (Some d).
Proof. unfold shown. cbn. by destruct (Data.ActiveJob d). Qed.

Lemma shown_normalize d : shown (Some (normalize d)) = shown (Some d).
Proof. unfold normalize. by destruct (_ =? _)%Z. Qed.

(** The journal file as it was read. *)
Definition reads (d : Data.t) (v : disk) : Prop := shown (Some d) = shown (main v).

Lemma spec_read_claim_journal (R : journal -> agent_world -> Prop) :
  sound R -> spec R readSoftwareClaimRecoveryJournal (fun d j w => R j w /\ reads d (files w)).
Proof.
  intros HR. unfold readSoftwareClaimRecoveryJournal. eapply spec_then; [by apply (read_journal_file R)|].
  intros [d|]; [destruct (_ || _); [apply spec_stop; by intros j w []; apply HR|]|];
    (apply spec_ret; [by intros j w []; apply HR|]); intros j w [Hw Em]; (split; [done|]); unfold reads.
  - destruct (main (files w)) as [d'|]; [|done]. injection Em as ->. apply shown_persisted.
  - by destruct (main (files w)).
Qed.

Lemma spec_recovery_policy (R : journal -> agent_world -> Prop) request :
  sound R -> spec R (softwareClaimRecoveryPolicy a request) (fun _ => R).
Proof.
  intros HR. unfold softwareClaimRecoveryPolicy. apply (spec_then _ _ _ (fun _ => R)); [by apply spec_or_stop, spec_ask_ok|].
  intros policy. repeat keeps_step R.
Qed.

Lemma spec_recover_claim request confirmed : spec good (recoverSoftwareClaim a request confirmed) (fun _ => good).
Proof.
  unfold recoverSoftwareClaim.
  apply (spec_then _ _ _ (fun _ => good)); [by apply spec_check|]. intros [].
  apply (spec_then _ _ _ (fun _ => good)); [by apply spec_recovery_policy|]. intros [binding policy].
  apply (spec_then _ _ _ (fun _ => good)); [by apply spec_require|]. intros [].
  eapply spec_then; [eapply spec_pre, (spec_load anything); by intros j w; rewrite good_within|]. intros saved.
  set (R := within (intending (fun p => p = saved))). assert (HR : sound R) by (by intros j w []).
  apply (spec_then _ _ _ (fun _ => R)); [by apply spec_require|]. intros [].
  apply (spec_then _ _ _ (fun _ => R)); [by apply spec_require|]. intros [].
  destruct (match saved with Some i => _ | None => false end); [apply spec_ret; [done|by intros j w []]|].
  eapply spec_then; [by apply (spec_read_claim_journal R)|]. intros d.
  set (K := kept (intending (fun p => p = saved)) (reads d)). assert (HK : sound K) by (by intros j w [[]]).
  apply (spec_pre K); [by intros j w []|]. cbn zeta.
  apply (spec_then _ _ _ (fun _ => K)).
  { repeat keeps_step K. }
  intros []. destruct (_ && _); [by apply spec_fail|].
  apply (spec_then _ _ _ (fun _ => K)); [by apply spec_inspect|]. intros proof.
  apply (spec_then _ _ _ (fun _ => K)); [by apply spec_require|]. intros [].
  apply (spec_then _ _ _ (fun _ => K)); [by apply spec_ask|]. intros now.
  match goal with |- context [claimSoftwareClaimRecovery a binding policy ?n] => set (next := n) end.
  set (K' := kept (knowing next) (reads d)). assert (HK' : sound K') by (by intros j w [[]]).
  apply (spec_then _ _ _ (fun _ => K')).
  { match goal with |- context [if ?b then transitionSoftwareClaimRecoveryIntent _ _ _ else _] => destruct b eqn:Eb end.
    - apply spec_transition.
    - apply spec_save. intros x Hs. cbn in Hs. unfold next. clear - Hs. by destruct saved. }
  intros []. apply (spec_then _ _ _ (fun _ => K')); [by apply spec_inspect|]. intros proof'.
  apply (spec_then _ _ _ (fun _ => K')); [by apply spec_require|]. intros [].
  eapply spec_then; [apply spec_install; intros v; cbn [data]; rewrite shown_normalize; exact id|].
  intros []. eapply spec_pre, spec_claim_recovery. by intros j w [].
Qed.
End Cycle.
