(* ===== verification/AgentHistory.v ===== *)
(** Every process that may be started on the host follows the protocol: the theorems about
    the host agent over any sequence of runs, each cut short anywhere. *)
From Stdlib Require Import Ascii String ZArith Lia.
From stdpp Require Import base decidable list strings gmap.
From S2P Require Import Prelude Strings Regexp Patterns Effects Sha256 Json SelfUpdateState SelfUpdateGrant PlanDigest Release TokenRotation Jobs Journal JournalRules Grants AgentPolicy AgentClaims RecoveryIntent AgentWorld AgentExecution AgentRecovery AgentPoll AgentProtocol AgentRules AgentTriples AgentSafety AgentJobs AgentCycle.

Open Scope string_scope.

Section History.
Context `{UnicodeTables} `{TimeZones} `{PortPolicies} `{!PortFields} `{GrantContracts} `{Formats}.
Context (a : agent).

(** ** One poll *)

Lemma recovered_same_job l r : Job.sameRecoveredJobIntent l r = true -> Job.ID l = Job.ID r.
Proof.
  unfold Job.sameRecoveredJobIntent. destruct (_ || _) eqn:E; [done|]. intros _. by bool_to_prop.
Qed.

Lemma adoption_same_job d active jb : adoption_refused d active jb = false -> Job.ID active = Job.ID jb.
Proof.
  unfold adoption_refused. intros Hr. bool_to_prop.
  match goal with H : _ && _ = false |- _ => apply andb_false_iff in H as [Hs|Hl] end; bool_to_prop;
    [by apply recovered_same_job|].
  unfold journalLegacySoftwareBindingMatches in Hl. destruct (Job.SoftwareUpdate active), (Job.SoftwareUpdate jb), (Data.ActivePlan d);
    try done. bool_to_prop. by apply identity_same_job.
Qed.

(** The Panel confirmed that the job of the cursor is over. *)
Lemma spec_clear_answered s D x over : closed D -> answered s over ->
  spec (fun j w => x = j /\ held s D j w) (clear_answered a (Data.ActiveJob (data x)) over) (fun _ => good).
Proof.
  intros HD Ho. unfold clear_answered. set (R := fun j w => x = j /\ held s D j w).
  assert (HR : sound R) by (intros j w [_ Hw]; by apply held_within in Hw as []).
  destruct (Data.ActiveJob (data x)) as [active|] eqn:Ea; [|by apply spec_stop].
  destruct over as [jb|]; [|by apply spec_stop].
  apply (spec_then _ _ _ (fun _ => closing s D)).
  { assert (Hc : Job.ID jb = Job.ID active -> forall j w, R j w -> closing s D j w).
    { intros Ei j w [-> Hw]. split; [done|]. eapply ended_settled; [apply Hw|by apply Ho|]. intros act Ha. congruence. }
    destruct (Job.RecoveryClear jb).
    - apply spec_check; [done|]. intros [] j w Hw Hv. apply Hc; [by eapply clear_same_job|done].
    - apply spec_require; [done|]. intros j w Hw Hv. bool_to_prop. apply Hc; [symmetry; by apply recovered_same_job|done]. }
  intros []. assert (HC : sound (closing s D)) by (intros j w Hw; by apply closing_within in Hw as []).
  apply (spec_then _ _ _ (fun _ => closing s D)).
  { destruct (Job.isV2SoftwareJob active); [apply spec_errors, spec_closing_drop|by apply spec_ret]. }
  intros []. eapply spec_post, spec_errors, spec_closing_job; [by intros [] j w []|done].
Qed.

Lemma spec_retain binding policy active jb e :
  spec (fun j w => (active = None -> vacant j) /\ within unfrozen j w) (retain_rejected a binding policy active jb e) (fun _ => good).
Proof.
  unfold retain_rejected. apply (spec_then _ _ _ (fun _ => good)); [|intros []; by apply spec_fail].
  destruct active as [act|]; cbn [Job.present negb andb]; [apply spec_ret; by intros j w [_ []]|].
  destruct (_ && _); [|apply spec_ret; by intros j w [_ []]].
  eapply spec_weaken, spec_set_fresh; [intros j w [Hv Hw]; by split; [|apply Hv]|].
  intros [] j w (s & _ & Hw). by eapply sound_running.
Qed.

(** The claim that is run: a recovery where there is a cursor. *)
Lemma spec_run_claim binding policy lease x jb : tidy x ->
  spec (fun j w => x = j /\ within unfrozen j w) (run_claim a binding policy lease (Data.ActiveJob (data x)) jb) (fun _ => good).
Proof.
  intros Ht. unfold run_claim. set (R := fun j w => x = j /\ within unfrozen j w).
  assert (HR : sound R) by (by intros j w [_ []]).
  eapply spec_then; [by apply (spec_bind a R)|]. intros [[active jb'] bound]. apply spec_pure. cbn [fst]. intros Hn.
  assert (Hv : active = None -> vacant x) by (intros Ha Hp; split; [by apply Hn|by apply Ht; auto]).
  destruct bound as [[]|e]; [|eapply spec_pre, spec_retain; by intros j w [<- Hw]].
  apply (spec_then _ _ _ (fun _ => R)); [by apply spec_require|]. intros [].
  apply (spec_then _ _ _ (fun _ => R)); [by apply spec_check|]. intros [].
  apply (spec_then _ _ _ (fun _ j w => within unfrozen j w /\ ready jb' j)); [|intros []; apply spec_process].
  destruct active as [act|].
  - apply (spec_then _ _ _ (fun _ j w => Job.RecoveryRequired jb' = true /\ R j w)).
    { apply spec_require; [done|]. intros j w Hw Hb. by bool_to_prop. }
    intros []. apply spec_pure. intros Er.
    apply (spec_then _ _ _ (fun _ => R)); [by apply spec_require|]. intros [].
    assert (Hr : forall j, tidy j -> ready jb' j) by (intros j Hj; split; [done|]; by rewrite Er).
    destruct (_ && _); [|apply spec_ret; [done|]; intros j w [<- Hw]; by split; [|apply Hr]].
    apply (spec_perform (DoAdopt jb')); [done|done|by intros j w [[]]|].
    intros j w j' [<- [Hg Hd]] Hp He. inversion He as [| | | | | | | |? act' Ea Hf Hpl]; subst.
    split; [|by apply Hr]. split; [|done]. apply (adopt_good jb' x); [done|done|].
    intros act'' Ea'. rewrite Ea in Ea'. injection Ea' as <-. by eapply adoption_same_job.
  - apply spec_ret; [done|]. intros j w [<- Hw]. split; [done|]. split; [done|]. auto.
Qed.

Lemma spec_resume_terminal binding policy jb : spec good (resume_terminal a binding policy jb) (fun _ => good).
Proof.
  unfold resume_terminal. eapply spec_then; [by apply (spec_bind a good)|]. intros [[active jb'] bound].
  apply (spec_pre good); [by intros j w []|].
  apply (spec_then _ _ _ (fun _ => good)); [by apply spec_settle_with|]. intros [].
  eapply spec_pre, (spec_resume a anything). by intros j w; rewrite good_within.
Qed.

(** What a poll knows when it claims: outside the terminal-only path no recovery is under
    way, and without an active job there are no reports. *)
Definition polled (terminalOnly : bool) (j : journal) (w : agent_world) : Prop :=
  within (pathed terminalOnly) j w /\ (terminalOnly = false -> tidy j).

Lemma spec_claim_and_run binding policy terminalOnly lease :
  spec (polled terminalOnly) (claim_and_run a binding policy terminalOnly lease) (fun _ => good).
Proof.
  set (D := pathed terminalOnly). unfold claim_and_run.
  set (R := fun x j w => (terminalOnly = false -> tidy x) /\ x = j /\ within D j w).
  assert (HR : forall x, sound (R x)) by (by intros x j w (_ & _ & [])).
  apply (spec_then _ _ _ R); [apply spec_look; [by intros j w [[]]|]; by intros j w []|].
  intros x. cbn zeta. apply (spec_then _ _ _ (fun _ => R x)); [by apply spec_check|]. intros generation.
  set (req := ClaimRequest.mk _ _ _ _ _).
  apply (spec_then _ _ _ (fun y j w => (terminalOnly = false -> tidy x) /\ exists s, x = j /\ held (claim_result s y) D j w)).
  { apply spec_pure. intros Ht. apply (spec_pre (fun j w => exists s, held s D j w /\ x = j)).
    { intros j w [-> Hw]. apply within_held in Hw as [s Hs]. by exists s. }
    apply spec_exists. intros s. apply (spec_errors (E := within D)).
    eapply spec_post, spec_frame, spec_claim. intros y j w [Hw ->]. split; [done|]. by exists s. }
  intros [over clear]. apply spec_pure. intros Ht. destruct clear.
  - apply spec_exists. intros s. destruct terminalOnly.
    + eapply spec_pre, spec_complete; [|apply claim_answers]. by intros j w [_ []].
    + eapply spec_pre, (spec_clear_answered (claim_result s (over, true)) D); [done|apply closed_intending|apply claim_answers].
  - apply (spec_pre (fun j w => x = j /\ within D j w)).
    { intros j w (s & Hx & Hw). split; [done|]. by eapply held_within. }
    destruct over as [jb|]; [|apply spec_ret; by intros j w [_ []]].
    destruct terminalOnly.
    + eapply spec_pre, spec_resume_terminal. by intros j w [_ []].
    + eapply spec_pre, spec_run_claim; [|by apply Ht]. intros j w [-> Hw]. split; [done|].
      eapply within_mono; [|done]. intros y i Hi. by apply Hi.
Qed.

Lemma spec_execute binding policy : spec good (executeOnce a binding policy) (fun _ => good).
Proof.
  unfold executeOnce.
  apply (spec_then _ _ _ (fun _ => good)); [by apply spec_ask_ok|]. intros policy'.
  apply (spec_then _ _ _ (fun _ => good)); [by apply spec_ask_ok|]. intros [].
  apply (spec_then _ _ _ (fun x j w => x = j /\ good j w)); [by apply spec_look|]. intros x. cbn zeta.
  set (R := fun b j w => x = j /\ within (pathed b) j w). assert (HR : forall b, sound (R b)) by (by intros b j w [_ []]).
  apply (spec_then _ _ _ R); [apply spec_has_intent|].
  intros terminalOnly. set (lease := match Data.ActiveJob (data x) with Some _ => _ | None => _ end).
  apply (spec_then _ _ _ (fun _ j w => if terminalOnly then good j w else R false j w)).
  { destruct terminalOnly; [|by apply spec_ret]. destruct (Data.ActiveJob (data x)) as [active|]; [|by apply spec_fail].
    eapply spec_pre, spec_prepare_claim. by intros j w []. }
  intros []. apply (spec_then _ _ _ (fun b j w =>
    (b = false -> Data.ActiveJob (data x) <> None) /\ if terminalOnly then good j w else R false j w)).
  { unfold lease. assert (Hs : sound (fun j w => if terminalOnly then good j w else R false j w)).
    { destruct terminalOnly; [done|apply HR]. }
    destruct (Data.ActiveJob (data x)) as [active|]; [|by apply spec_ret].
    destruct (_ && _); [|by apply spec_ret]. by eapply spec_post, spec_ask. }
  intros available. apply spec_pure. intros Ha.
  apply (spec_then _ _ _ (fun _ => polled terminalOnly)); [|intros []; apply spec_claim_and_run].
  destruct terminalOnly; cbn [negb andb].
  - apply spec_ret; [done|]. intros j w Hw. split; [|done]. by apply good_within in Hw as [Hg _].
  - destruct available.
    + eapply spec_weaken, spec_errors, (spec_flush_all (pathed false)).
      * by intros j w [].
      * intros [] j w [Hw Hn]. split; [done|]. by intros _ _ _.
      * apply closed_intending.
    + apply spec_ret; [apply HR|]. intros j w [<- Hw]. split; [done|]. intros _ _ Hn. by destruct (Ha eq_refl).
Qed.

Lemma spec_cycle t : spec good (startExecutionCycle a t) (fun _ => good).
Proof.
  unfold startExecutionCycle. apply (spec_then _ _ _ (fun _ => good)); [by apply spec_look|]. intros x. cbn zeta.
  destruct (turn_policy t) as [policy|]; [|by apply spec_ret].
  destruct (match Data.ActiveJob (data x) with Some _ => _ | None => _ end); [apply spec_execute|by apply spec_ret].
Qed.

Lemma wp_cycles l j w : good j w -> wp Inv (cycles a l j) (fun _ _ => True) w.
Proof.
  revert j w. induction l as [|t l IH]; intros j w Hg; cbn [cycles]; [by apply wp_ret; [apply Hg|]|].
  apply wp_bind. eapply wp_mono, (spec_cycle t j w Hg). intros [j' r] v _ Hr. apply IH. by destruct r.
Qed.

(** ** The recovery of a saved plan *)

Lemma spec_read_plan_journal (R : journal -> agent_world -> Prop) :
  sound R ->
  spec R readSoftwarePlanRecoveryJournal (fun x j w =>
    Data.ActiveJob (data x.2) = Some x.1.1 /\ R j w /\ reads (data x.2) (files w)).
Proof.
  intros HR. unfold readSoftwarePlanRecoveryJournal.
  apply (spec_then _ _ _ (fun _ => R)); [by apply spec_ask_ok|]. intros fenced.
  apply (spec_then _ _ _ (fun _ => R)); [by apply spec_require|]. intros [].
  eapply spec_then; [by apply (read_journal_file R)|]. intros file.
  assert (Hs : sound (fun j w => R j w /\ file = option_map Data.persisted (main (files w)))) by (by intros j w []; apply HR).
  destruct file as [d|]; [|by apply spec_stop].
  destruct (Data.ActiveJob d) as [active|] eqn:Ea; [|by apply spec_stop].
  destruct (Data.ActivePlan d) as [plan|]; [|by apply spec_stop].
  destruct (_ || _); [by apply spec_stop|]. destruct (existsb _ _); [by apply spec_stop|].
  apply spec_ret; [done|]. intros j w [Hw Em]. split; [done|]. split; [done|]. unfold reads.
  destruct (main (files w)) as [d'|]; [|done]. injection Em as ->. apply shown_persisted.
Qed.

(** The lease is adopted for the cursor that the journal holds. *)
Lemma spec_adopt_reread jb request :
  spec (within unfrozen) (AdoptRecoveredSoftwareClaimAfterGenerationRead jb request)
    (fun _ j w => within unfrozen j w /\ ready jb j).
Proof.
  unfold AdoptRecoveredSoftwareClaimAfterGenerationRead.
  apply (spec_then _ _ _ (fun x j w => x = j /\ within unfrozen j w)); [apply spec_look; [by intros j w []|done]|].
  intros x. cbn zeta. set (R := fun j w => x = j /\ within unfrozen j w). assert (HR : sound R) by (by intros j w [_ []]).
  destruct (poisoned x) as [e|] eqn:Ep; [by apply spec_stop|].
  destruct (Data.ActiveJob (data x)) as [active|] eqn:Ea; [|by apply spec_stop].
  destruct (Data.ActivePlan (data x)) as [plan|] eqn:El; [|by apply spec_stop].
  apply (spec_then _ _ _ (fun _ j w => (Job.ID active = Job.ID jb /\ Job.RecoveryRequired jb = true) /\ R j w)).
  { apply spec_require; [done|]. intros j w Hw Hf. split; [|done]. unfold reread_adoption_refused in Hf. bool_to_prop.
    split; [by apply identity_same_job|done]. }
  intros []. apply spec_pure. intros [Ei Er].
  apply (spec_then _ _ _ (fun _ => R)); [by apply spec_check|]. intros [].
  apply (spec_then _ _ _ (fun _ => R)); [by apply spec_require|]. intros [].
  apply (spec_then _ _ _ (fun r => R)); [by apply spec_attempt_ask|]. intros r.
  apply (spec_then _ _ _ (fun _ => R)); [by apply spec_require|]. intros [].
  eapply spec_post, (spec_adopt (fun i => settled_intent i = true)); [|done|intros act Ha; congruence].
  intros [] j w [Hw Ha]. split; [done|]. split; [|by rewrite Er]. intros _ Hn. congruence.
Qed.

Lemma spec_recover_saved_plan request : spec good (RecoverSoftwarePlanAfterGenerationRead a request) (fun _ => good).
Proof.
  unfold RecoverSoftwarePlanAfterGenerationRead.
  apply (spec_then _ _ _ (fun _ => good)); [by apply spec_check|]. intros [].
  apply (spec_then _ _ _ (fun _ => good)); [by apply spec_require|]. intros [].
  apply (spec_then _ _ _ (fun _ => good)); [by apply spec_recovery_policy|]. intros [binding policy].
  apply (spec_then _ _ _ (fun _ => good)); [by apply spec_require|]. intros [].
  set (R := within unfrozen). assert (HR : sound R) by (by intros j w []).
  eapply spec_then; [apply (spec_attempt good), load_intent; done|]. intros loaded.
  apply (spec_then _ _ _ (fun _ => R)).
  { apply spec_require; [destruct loaded; [by intros j w []|done]|]. intros j w Hw Hs. destruct loaded as [i|]; [|done].
    destruct Hw as [Hg ->]. split; [done|]. unfold knows. by destruct (intent_file w). }
  intros []. eapply spec_then; [by apply (spec_read_plan_journal R)|]. intros [[active plan] x]. apply spec_pure. cbn [fst snd].
  intros Ea. set (K := kept unfrozen (reads (data x))). assert (HK : sound K) by (by intros j w [[]]).
  apply (spec_pre K); [by intros j w []|].
  apply (spec_then _ _ _ (fun _ => K)); [by apply spec_check|]. intros [].
  eapply spec_then; [by apply (spec_install unfrozen (reads (data x)) x)|]. intros [].
  set (X := fun j w => x = j /\ R j w). assert (HX : sound X) by (by intros j w [_ []]).
  apply (spec_then _ _ _ (fun _ => X)); [by apply spec_ask_ok|]. intros [].
  set (req := ClaimRequest.mk _ _ _ _ _).
  apply (spec_then _ _ _ (fun r j w => match r with
    | Ok y => exists s, held (claim_result s y) unfrozen j w /\ x = j | Err _ => R j w end)).
  { apply (spec_attempt R _ _ (fun y j w => exists s, held (claim_result s y) unfrozen j w /\ x = j)).
    apply (spec_pre (fun j w => exists s, held s unfrozen j w /\ x = j)).
    { intros j w [-> Hw]. apply within_held in Hw as [s Hs]. by exists s. }
    apply spec_exists. intros s. eapply spec_post, spec_frame, spec_claim. intros y j w Hw. by exists s. }
  intros [[over [|]]|e]; [| |by apply spec_fail].
  - apply spec_exists. intros s.
    assert (HL : sound (fun j w => held (claim_result s (over, true)) unfrozen j w /\ x = j)).
    { intros j w [Hw _]. by apply held_within in Hw as []. }
    destruct over as [jb|]; [|by apply (spec_then _ _ _ (fun _ _ _ => False)); [apply spec_require|intros [] j w []]].
    set (s' := claim_result s (Some jb, true)).
    apply (spec_then _ _ _ (fun _ => closing s' unfrozen)).
    { apply spec_require; [done|]. intros j w [Hw <-] Hv. split; [done|]. apply is_ok_unit, clear_same_job in Hv.
      eapply ended_settled; [apply Hw|by apply claim_answers|]. intros act Ha. congruence. }
    intros []. apply (spec_then _ _ _ (fun _ => closing s' unfrozen)); [apply spec_errors, spec_closing_drop|]. intros [].
    eapply spec_post, spec_errors, spec_closing_job, closed_unfrozen. by intros [] j w [].
  - apply (spec_pre R); [intros j w (s & Hw & _); by apply held_within in Hw|].
    destruct over as [jb|]; [|by apply spec_fail]. destruct (_ || _); [by apply spec_fail|].
    eapply spec_then; [by apply (spec_bind a R)|]. intros [[act jb'] bound]. apply (spec_pre R); [by intros j w []|].
    apply (spec_then _ _ _ (fun _ => R)); [by apply spec_settle_with|]. intros [].
    apply (spec_then _ _ _ (fun _ => R)); [by apply spec_check|]. intros [].
    apply (spec_then _ _ _ (fun _ => R)); [by apply spec_require|]. intros [].
    eapply spec_then; [apply spec_adopt_reread|]. intros []. apply spec_process.
Qed.

(** ** Opening the journal *)

Lemma shown_loaded v : shown (Some (loaded v)) = shown (main v).
Proof. unfold loaded. destruct (main v) as [d|]; [|done]. by rewrite shown_normalize, shown_persisted. Qed.

Lemma shown_scrub d :
  (shown (Some (scrub d).1)).1 = (shown (Some d)).1 /\
  ((shown (Some (scrub d).1)).2 = (shown (Some d)).2 \/ (shown (Some (scrub d).1)).2 = [] /\ (scrub d).2 = true).
Proof.
  unfold scrub. destruct (Data.PendingReports d) as [|p l] eqn:El; [|destruct (retains_pending d)];
    (split; [cbn; by destruct (Data.ActiveJob d)|]); cbn; auto.
Qed.

Lemma opening_inv w v : Inv w -> opening (files w) v -> Inv (with_files w v).
Proof.
  intros [s Hs] [[Em _]|(_ & _ & Em & _)]; exists s; [by apply at_same|].
  eapply at_with_files; [done|]. destruct (shown_scrub (loaded (files w))) as [E1 E2]. rewrite shown_loaded in E1, E2.
  apply moved_quiet; [done|by rewrite !active_shown, E1|]. intros id Hi.
  change (reports_of id (shown (Some (scrub (loaded (files w))).1)).2). rewrite active_shown, E1, <- active_shown in Hi.
  destruct Hs as [_ _ Hd]. unfold agrees in Hd. rewrite Hi in Hd. destruct Hd as (k & _ & _ & Hr).
  destruct E2 as [-> | [-> _]]; [done|constructor].
Qed.

Lemma opened_coupled w j v : opened (files w) j v -> shown (Some (data j)) = shown (main v).
Proof.
  intros (_ & _ & [(_ & -> & ->)|(_ & _ & _ & -> & [-> |[-> Hf]])]); [done|done|]. cbn [data].
  rewrite <- shown_loaded. destruct (shown_scrub (loaded (files w))) as [E1 [E2|[_ E2]]]; [|congruence].
  destruct (shown (Some (scrub _).1)), (shown (Some (loaded _))). cbn in *. congruence.
Qed.

Lemma wp_agent l w : Inv w -> wp Inv (agent_process a l) (fun _ _ => True) w.
Proof.
  intros Hi. unfold agent_process. apply wp_bind.
  assert (Ho : wp (opening (files w)) OpenJournal
            (fun r v => match r with Ok j => opened (files w) j v | Err _ => opening (files w) v end) (files w)).
  { by apply wp_open. }
  eapply wp_weaken, wp_mono, wp_on_journal, Ho; [intros v [Hv ->]; by apply opening_inv| |apply writes_open].
  intros r v [Hpv Hv] [Hr _]. pose proof (opening_inv _ _ Hi Hpv) as Hiv. rewrite <- Hv in Hiv. destruct r as [j|e]; [|by apply wp_ret].
  apply wp_cycles. split; [done|]. intros _. by eapply opened_coupled.
Qed.

(** ** Histories *)

Lemma good_closed w : Inv w -> good no_journal w.
Proof. intros Hi. split; [done|]. intros [=]. Qed.

Lemma wp_entry m w : spec good m (fun _ => good) -> Inv w -> wp Inv (entry m) (fun _ _ => True) w.
Proof.
  intros Hm Hi. unfold entry. apply wp_bind. eapply wp_mono, (Hm no_journal w), good_closed, Hi. intros x v Hv _.
  by apply wp_ret.
Qed.

Lemma history_keeps w v : history (started a) w v -> Inv w -> Inv v.
Proof.
  intros Hh Hi. apply (history_invariant (started a) Inv w v); [|done|done]. intros p u Hp Hu. destruct Hp.
  - by apply wp_agent.
  - by apply wp_entry; [apply spec_recover_claim|].
  - by apply wp_entry; [apply spec_recover_saved_plan|].
Qed.

(** A host without a journal and without a record of a recovery. *)
Definition new_host : agent_world := AgentWorld empty_disk None [].

Lemma inv_new : Inv new_host.
Proof. by exists start. Qed.

Lemma history_at w : history (started a) new_host w -> exists s, at_ s w.
Proof. intros Hh. exact (history_keeps _ _ Hh inv_new). Qed.

(** ** What the protocol gives *)

Lemma follows_app l l' s : follows (l ++ l') = Some s -> exists s', follows l' = Some s'.
Proof.
  revert s. induction l as [|e l IH]; intros s Hs; [by exists s|]. cbn in Hs. destruct (follows (l ++ l')) eqn:E; [|done].
  by eapply IH.
Qed.

(** A mark of the protocol's job that no event takes away. *)
Definition sticky (mark : work -> bool) : Prop := forall k, mark k = true ->
  (forall id r, mark (noted k id r) = true) /\ mark (k <| over := true |>) = true /\
  mark (k <| staged := true |>) = true /\ mark (k <| applied := true |>) = true.

Lemma sticky_applied : sticky applied.
Proof. intros k Hk. repeat split; try done. intros id r. unfold noted. by destruct (id ==? job k). Qed.

Lemma sticky_staged : sticky staged.
Proof. intros k Hk. repeat split; try done. intros id r. unfold noted. by destruct (id ==? job k). Qed.

Section Since.
Context (mark : work -> bool) (Hm : sticky mark).

(** The state of a job since it got the mark: it is still the same one, or it was cleared
    after the Panel ended it. *)
Definition since (id : string) (l : list event) (s : state) : Prop :=
  (exists k, current s = Some k /\ job k = id /\ mark k = true /\ (over k = true -> Exists (fun e => ends id e = true) l)) \/
  (exists x y, l = (x ++ Cleared id :: y)%list /\ Exists (fun e => ends id e = true) y).

Lemma since_step id l s e s' : since id l s -> step e s = Some s' -> since id (e :: l) s'.
Proof.
  intros [(k & Hk & Ej & Ha & Ho)|(x & y & -> & Hy)] He.
  2: { right. by exists (e :: x), y. }
  destruct (Hm k Ha) as (Hnoted & Hover & Hstaged & Happlied).
  assert (Hlater : over k = true -> Exists (fun e => ends id e = true) (e :: l)) by (intros Hk'; by right; apply Ho).
  assert (Hsame : forall k', current s' = Some k' -> job k' = job k -> mark k' = true -> over k' = over k -> since id (e :: l) s').
  { intros k' Hs Ej' Hm' Ho'. left. exists k'. rewrite Ej', Ho'. auto. }
  destruct e; cbn in He; try rewrite Hk in He; try discriminate He;
    repeat match type of He with (if ?b then _ else _) = _ => destruct b eqn:? end; try discriminate He;
    injection He as <-; try (by apply (Hsame k)).
  - bool_to_prop. right. exists [], l. subst. auto.
  - left. exists (noted k id0 r). rewrite job_noted. split; [done|]. split; [done|]. split; [auto|]. unfold noted.
    destruct (bool_decide_reflect (id0 = job k)) as [Ei|Ei]; [|done]. cbn.
    intros Hv. apply orb_true_iff in Hv as [Hv|Hv]; [by right; apply Ho|]. left. cbn. rewrite bool_decide_true by congruence. done.
  - destruct (bool_decide_reflect (id0 = job k)) as [Ei|Ei]; [|by apply (Hsame k)]. left. exists (k <| over := true |>).
    repeat split; [done..|]. intros _. left. cbn. by rewrite bool_decide_true by congruence.
  - by apply (Hsame (k <| staged := true |>)).
  - by apply (Hsame (k <| applied := true |>)).
Qed.

Lemma since_follows id l l' s' s :
  follows l' = Some s' -> since id [] s' -> follows (l ++ l') = Some s -> since id l s.
Proof.
  intros Hl Hs. revert s. induction l as [|e l IH]; intros s Hf; cbn in Hf; [congruence|].
  destruct (follows (l ++ l')) as [s1|] eqn:E1; [|done]. eapply since_step; [by apply IH|done].
Qed.

(** An event that gives the mark to the job [id], and none that has it. *)
Definition gives (id : string) (e : event) : Prop := forall s s', step e s = Some s' ->
  (exists k, current s = Some k /\ mark k = false) /\
  exists k, current s' = Some k /\ job k = id /\ mark k = true /\ over k = false.

(** Between two such events the Panel ended the first job and the journal was cleared. *)
Lemma follows_marks id0 id e0 e l0 l s : gives id0 e0 -> gives id e ->
  follows (e :: l ++ e0 :: l0) = Some s ->
  exists x y, l = (x ++ Cleared id0 :: y)%list /\ Exists (fun e => ends id0 e = true) y.
Proof.
  intros Hg0 He Hf. cbn [follows] in Hf. destruct (follows (l ++ _)) as [s2|] eqn:E2; [|done].
  destruct (follows_app _ _ _ E2) as [s1 E1]. pose proof E1 as E0. cbn [follows] in E0.
  destruct (follows l0) as [u|]; [|done]. destruct (Hg0 _ _ E0) as [_ (k & Hk & Ej & Hmk & Ho)].
  assert (Hs : since id0 [] s1) by (left; exists k; repeat split; [done..|congruence]).
  destruct (since_follows id0 l _ s1 s2 E1 Hs E2) as [(k1 & Hk1 & _ & Hm1 & _)|Hc]; [|done].
  destruct (He _ _ Hf) as [(k2 & Hk2 & Hm2) _]. congruence.
Qed.
End Since.

Lemma gives_applied p g d : gives applied (MutationPlan.JobID p) (Applied p g d).
Proof.
  intros s s' He. cbn in He. destruct (current s) as [k|]; [|done]. destruct (_ && _) eqn:Eb; [|done]. injection He as <-.
  unfold covers in Eb. bool_to_prop. split; [by exists k|]. exists (k <| applied := true |>). repeat split; [|done]. cbn. congruence.
Qed.

Lemma gives_staged p d : gives staged (MutationPlan.JobID p) (Staged p d).
Proof.
  intros s s' He. cbn in He. destruct (current s) as [k|]; [|done]. destruct (_ && _) eqn:Eb; [|done]. injection He as <-.
  unfold covers in Eb. bool_to_prop. split; [by exists k|]. exists (k <| staged := true |>). repeat split; [|done]. cbn. congruence.
Qed.

(** The record of a recovery that a log leaves, and the Panel's word that a job installs. *)
Fixpoint recorded (l : list event) : option Intent.t :=
  match l with
  | [] => None
  | Intended i :: _ => Some i
  | _ :: l => recorded l
  end.

Definition announces (id : string) (e : event) : bool :=
  match e with Accepted i r => (i ==? id) && (Report.Status r ==? "installing") | _ => false end.

Lemma step_intent e s s' : step e s = Some s' ->
  AgentProtocol.intent s' = match e with Intended i => Some i | _ => AgentProtocol.intent s end.
Proof.
  intros He. destruct e; cbn in He; try discriminate He; destruct (current s) as [k|]; try discriminate He;
    repeat match type of He with (if ?b then _ else _) = _ => destruct b end; try discriminate He; by injection He as <-.
Qed.

Lemma follows_recorded l s : follows l = Some s -> AgentProtocol.intent s = recorded l.
Proof.
  revert s. induction l as [|e l IH]; intros s Hs; [by injection Hs as <-|]. cbn [follows] in Hs.
  destruct (follows l) as [s0|]; [|done]. rewrite (step_intent _ _ _ Hs), (IH s0 eq_refl). by destruct e.
Qed.

(** A job that installs was announced. *)
Definition announced (l : list event) (s : state) : Prop :=
  forall k, current s = Some k -> installing k = true -> Exists (fun e => announces (job k) e = true) l.

Lemma announced_step e l s s' : announced l s -> step e s = Some s' -> announced (e :: l) s'.
Proof.
  intros Hl He k' Hk' Hi.
  assert (Hkeep : forall k, current s = Some k -> job k = job k' -> installing k = true ->
            Exists (fun e => announces (job k') e = true) (e :: l)).
  { intros k Hk Ej Hi'. right. rewrite <- Ej. by apply Hl. }
  destruct e; cbn in He; try discriminate He; destruct (current s) as [k|] eqn:Ek; try discriminate He;
    repeat match type of He with (if ?b then _ else _) = _ => destruct b end; try discriminate He;
    injection He as <-; cbn in Hk'; rewrite ?Ek in Hk'; try discriminate Hk'; injection Hk' as <-; eauto; try done.
  - rewrite job_noted. unfold noted in Hi. destruct (bool_decide_reflect (id = job k)) as [Ei|Ei].
    + cbn in Hi. apply orb_true_iff in Hi as [Hi|Hi]; [right; by apply Hl|]. left. cbn. rewrite bool_decide_true by done. done.
    + right. by apply Hl.
  - revert Hi. destruct (bool_decide_reflect (id = job k)); intros Hi; right; by apply (Hl k Ek).
Qed.

Lemma follows_announced l s : follows l = Some s -> announced l s.
Proof.
  revert s. induction l as [|e l IH]; intros s Hs; [by injection Hs as <-|]. cbn [follows] in Hs.
  destruct (follows l) as [s0|]; [|done]. by eapply announced_step; [apply IH|].
Qed.

(** The grant that a log leaves to be used: the answer to the last request. *)
Fixpoint presentable (l : list event) : option issued :=
  match l with
  | [] => None
  | Asked id _ r _ answer :: _ => option_map (fun g => (id, r, g)) answer
  | Applied _ _ _ :: _ | Reconciled _ _ _ :: _ => None
  | _ :: l => presentable l
  end.

Lemma follows_granted l s : follows l = Some s -> granted s = presentable l.
Proof.
  revert s. induction l as [|e l IH]; intros s Hs; [by injection Hs as <-|]. cbn [follows] in Hs.
  destruct (follows l) as [s0|]; [|done]. specialize (IH s0 eq_refl).
  destruct e; cbn in Hs; try discriminate Hs; destruct (current s0) as [k|]; try discriminate Hs;
    repeat match type of Hs with (if ?b then _ else _) = _ => destruct b end; try discriminate Hs; by injection Hs as <-.
Qed.

(** What is on record when an apply request is sent. *)
Lemma follows_applied p g d l s :
  follows (Applied p g d :: l) = Some s ->
  covers d (MutationPlan.JobID p) p = true /\ authorized d (presentable l) "apply" p g = true /\
  settled_intent (recorded l) = true /\ Exists (fun e => announces (MutationPlan.JobID p) e = true) l.
Proof.
  cbn. destruct (follows l) as [s0|] eqn:E0; [|done]. destruct (current s0) as [k|] eqn:Ek; [|done].
  destruct (_ && _) eqn:Eb; [|done]. intros _. pose proof (follows_announced _ _ E0 k Ek) as Ha. bool_to_prop.
  assert (Ej : MutationPlan.JobID p = job k) by (match goal with H : covers _ _ _ = true |- _ => unfold covers in H end; by bool_to_prop).
  rewrite Ej, <- (follows_granted _ _ E0). split; [done|]. split; [done|]. split; [|auto]. rewrite <- (follows_recorded _ _ E0).
  match goal with H : frozen s0 = false |- _ => rewrite frozen_settled in H; by apply negb_false_iff in H end.
Qed.

(** C17: over any history of the host agent and of the operator's recovery commands on a
    new host, with failures, crashes and any answers of the Panel, the executor and the
    downloader, what an observer sees follows the protocol of AgentProtocol: after a job is
    opened and until it is cleared, its release is staged at most once and, after that,
    applied at most once, under the plan on disk and the Panel's answer to the request of a
    grant for it; the journal is cleared only when the Panel ended the job (and such a job
    may be opened again), and the record of a terminal-only recovery only grows.  The
    protocol's job is the one that the journal on disk names, its record of a recovery the
    one on disk.  In particular, between two stage requests the Panel ended the first job
    and the journal was cleared of it. *)
Theorem host_agent_follows_protocol w :
  history (started a) new_host w ->
  (exists s, follows (log w) = Some s /\ AgentProtocol.intent s = intent_file w /\
     option_map job (current s) = active_of (main (files w))) /\
  forall newer p d between p0 d0 oldest, log w = (newer ++ Staged p d :: between ++ Staged p0 d0 :: oldest)%list ->
    exists x y, between = (x ++ Cleared (MutationPlan.JobID p0) :: y)%list /\
      Exists (fun e => ends (MutationPlan.JobID p0) e = true) y.
Proof.
  intros Hh. destruct (history_at w Hh) as [s [Hl Hi Hd]]. split.
  2: { intros newer p d between p0 d0 oldest El. rewrite El in Hl. apply follows_app in Hl as [s' Hl].
       exact (follows_marks staged sticky_staged _ _ _ _ _ _ _ (gives_staged p0 d0) (gives_staged p d) Hl). }
  exists s. split; [done|]. split; [done|]. unfold agrees in Hd.
  destruct (active_of (main (files w))) as [id|]; [|by rewrite Hd]. destruct Hd as (k & -> & <- & _). done.
Qed.

(** C7: over the same histories, whenever an apply request is sent to the executor, the
    journal on disk holds exactly its plan for the job it names; the grant is the Panel's
    answer to the last grant request, not used before, and that request was one for the
    apply of this job under this plan and session; a v2 job has a v2 grant, whose binding
    names the apply, the job and the session (a grant of an older job is an opaque secret:
    what it is for is what was asked); the Panel took the report that the job installs, and no
    terminal-only recovery is under way; and if another apply request was sent before, the
    Panel has ended that job, and after that the journal was cleared of it. *)
Theorem agent_applies_are_covered w newer p g d older :
  history (started a) new_host w -> log w = (newer ++ Applied p g d :: older)%list ->
  (covers d (MutationPlan.JobID p) p = true /\ authorized d (presentable older) "apply" p g = true /\
   settled_intent (recorded older) = true /\ Exists (fun e => announces (MutationPlan.JobID p) e = true) older) /\
  forall between p0 g0 d0 oldest, older = (between ++ Applied p0 g0 d0 :: oldest)%list ->
    exists x y, between = (x ++ Cleared (MutationPlan.JobID p0) :: y)%list /\
      Exists (fun e => ends (MutationPlan.JobID p0) e = true) y.
Proof.
  intros Hh El. destruct (history_at w Hh) as [s [Hl _ _]]. rewrite El in Hl. apply follows_app in Hl as [s' Hl].
  split; [by eapply follows_applied|]. intros between p0 g0 d0 oldest ->. exact (follows_marks applied sticky_applied _ _ _ _ _ _ _ (gives_applied p0 g0 d0) (gives_applied p g d) Hl).
Qed.
End History.
