(* ===== verification/AgentFlush.v ===== *)
(** The rounds of [flushExecutionReports]: every round acknowledges one report, so one
    round more than there are reports is enough. *)
From Stdlib Require Import Ascii String ZArith Lia.
From stdpp Require Import base decidable list strings gmap.
From S2P Require Import Prelude Strings Regexp Patterns Effects Sha256 Json PlanDigest Release Jobs Journal JournalRules JournalSafety Grants AgentPolicy AgentClaims RecoveryIntent AgentWorld AgentExecution AgentRules AgentTriples AgentSafety.

Open Scope string_scope.

Section Flush.
Context `{UnicodeTables} `{TimeZones} `{PortPolicies} `{!PortFields}.

Definition anywhere {W} : W -> Prop := fun _ => True.

(** Two programs that go on alike from every result. *)
Lemma run_bind_alike {A B} (m : prog xop A) (k k' : A -> prog xop B) answers w :
  wp anywhere m (fun x v => forall answers, run (k x) answers v = run (k' x) answers v) w ->
  run (bind m k) answers w = run (bind m k') answers w.
Proof.
  revert answers w. induction m as [x|X o f IH]; intros answers w [_ Hm]; cbn in *; [apply Hm|].
  destruct answers as [|ans answers]; [done|]. destruct (handle o ans w) as [[x v]|] eqn:E; [|done].
  apply IH. by eapply Hm.
Qed.

(** What a method leaves behind where it returns. *)
Definition leaves {A} (m : io A) (j : journal) (Q : journal -> Prop) : Prop :=
  forall w, wp anywhere (m j) (fun x _ => match x.2 with Ok _ => Q x.1 | Err _ => True end) w.

Lemma run_then_alike {A B} (m : io A) (k k' : A -> io B) j Q answers w :
  leaves m j Q -> (forall x j answers w, Q j -> run (k x j) answers w = run (k' x j) answers w) ->
  run (then_ m k j) answers w = run (then_ m k' j) answers w.
Proof.
  intros Hm Hk. apply run_bind_alike. eapply wp_mono, Hm. intros [j' [x|e]] v _ Hx; [by auto|done].
Qed.

Lemma leaves_ask {A} (o : xop (result failure A)) j : leaves (attempt (ask_ok o)) j (fun j' => j' = j).
Proof. intros w. split; [done|]. intros ans x v _. by split. Qed.

Lemma leaves_ask_ok {A} (o : xop (result failure A)) j : leaves (ask_ok o) j (fun j' => j' = j).
Proof. intros w. split; [done|]. intros ans x v _. split; [done|]. by destruct x. Qed.

Lemma leaves_journal {A} (m : journal -> prog op (journal * result string A)) j Q :
  writes 1 (m j) ->
  (forall w, wp anywhere (m j) (fun x _ => match x.2 with Ok _ => Q x.1 | Err _ => True end) w) ->
  leaves (journal_do m) j Q.
Proof.
  intros Hw Hm w. apply wp_bind. eapply wp_weaken, wp_mono, wp_on_journal, Hm; [done| |done].
  intros [j' [x|e]] v _ [Hx _]; by apply wp_ret.
Qed.

(** One report less. *)
Lemma leaves_ack id n j : leaves (journal_do (Ack id n)) j
  (fun j' => length (Data.PendingReports (data j)) = S (length (Data.PendingReports (data j')))).
Proof.
  apply leaves_journal; [apply (writes_perform (DoAck id n))|]. intros w. change (Ack id n j) with (perform (DoAck id n) j).
  destruct (poisoned j) as [e|] eqn:Ep; [rewrite (perform_poisoned _ _ e Ep); by apply wp_ret|].
  eapply wp_weaken, wp_mono, wp_perform_saved; [done| |done|done].
  intros [j' [[]|e]] v _ Hs; [|done]. destruct Hs as [(Hr & _)|[(j1 & He & _ & -> & _)|(Hr & _)]]; [done| |done].
  inversion He as [| | | | | | |p rest El|]; subst. cbn. by rewrite El.
Qed.

Lemma leaves_clear id j : leaves (clear_job id) j
  (fun j' => Data.PendingReports (data j') = Data.PendingReports (data j)).
Proof.
  assert (Hc : leaves (journal_do ClearActive) j (fun j' => Data.PendingReports (data j') = Data.PendingReports (data j))).
  { apply leaves_journal; [apply writes_clear|]. intros w.
    destruct (poisoned j) as [e|] eqn:Ep; [unfold ClearActive, mutable; rewrite Ep; by apply wp_ret|].
    apply (wp_weaken (clearing (data j) w)); [done|]. apply wp_clear; [done|done|done| |done].
    intros jp e v _ _ _. done. }
  intros w. apply wp_bind. eapply wp_mono, leaves_ask_ok. intros [j' [[]|e]] v _ Hj; cbn in *; [subst; apply Hc|by split].
Qed.

(** Any number of rounds above the number of reports gives the same run. *)
Lemma flush_rounds n m j answers w :
  length (Data.PendingReports (data j)) < n -> length (Data.PendingReports (data j)) < m ->
  run (flush n j) answers w = run (flush m j) answers w.
Proof.
  revert m j answers w. induction n as [|n IH]; intros m j answers w Hn Hm; [lia|]. destruct m as [|m]; [lia|]. cbn [flush].
  apply (run_then_alike _ _ _ _ (fun j' => j' = j)); [intros u; by apply wp_ret|]. intros x ? ans u ->.
  destruct (pending_view x) as [|item rest]; [done|].
  apply (run_then_alike _ _ _ _ (fun j' => j' = j)); [apply leaves_ask|]. intros [[]|e] ? ans' u' ->; [|done].
  apply (run_then_alike _ _ _ _ (fun j' => length (Data.PendingReports (data j)) = S (length (Data.PendingReports (data j')))));
    [apply leaves_ack|]. intros [] j1 ans1 u1 E1.
  apply (run_then_alike _ _ _ _ (fun j' => Data.PendingReports (data j') = Data.PendingReports (data j1))).
  { destruct (ends_job _); [apply leaves_clear|intros u2; by apply wp_ret]. }
  intros [] j2 ans2 u2 E2. apply IH; rewrite E2; lia.
Qed.

(** The rounds that [flushExecutionReports] is given are never too few. *)
Lemma flush_rounds_suffice n j answers w :
  run (flush (S (length (Data.PendingReports (data j))) + n) j) answers w = run (flushExecutionReports j) answers w.
Proof. apply flush_rounds; lia. Qed.
End Flush.
