(* ===== verification/AgentDemo.v ===== *)
(** A concrete host: its agent takes a software job and stops right after the apply
    request; the restarted agent reconciles the job and takes the next one.  The
    properties of the host agent are evaluated on it. *)
From Stdlib Require Import Ascii String ZArith Lia.
From stdpp Require Import base decidable list strings gmap.
From S2P Require Import Prelude Strings Regexp Patterns Effects Sha256 Json SelfUpdateState SelfUpdateGrant PlanDigest Release TokenRotation Jobs Journal JournalRules JournalDemo Grants AgentPolicy AgentClaims RecoveryIntent AgentWorld AgentExecution AgentRecovery AgentPoll AgentProtocol AgentHistory.

Open Scope string_scope.

Module DemoAgent.
Import DemoPlan DemoJournal.

#[global] Instance no_port_fields : PortFields := {|
  ExpectedSourcePolicyRevision := Empty_set_rect _; ExpectedUpdaterPolicyRevision := Empty_set_rect _;
  ExpectedExecutorPolicyRevision := Empty_set_rect _; ExpectedExecutorPolicySHA256 := Empty_set_rect _;
  ExpectedConfigRevision := Empty_set_rect _; ExpectedConfigSHA256 := Empty_set_rect _; OldPort := Empty_set_rect _;
  NewPort := Empty_set_rect _; DockerFields := Empty_set_rect _; Before_ProjectionRevision := Empty_set_rect _;
  Before_ConfigRevision := Empty_set_rect _; Target_ConfigRevision := Empty_set_rect _;
  portClaimPolicyMatches := fun _ _ _ => false; RollbackFailedReport := Empty_set_rect _;
|}.

#[global] Instance all_grants : GrantContracts := {|
  ValidateUpdaterMutationGrantBinding := fun _ _ => Ok tt;
  UpdaterDesiredSoftwareUpdate := "software_update";
  UpdaterDesiredPortReconfigure := "port_reconfigure";
  UpdaterTargetApplication := "application";
|}.

#[global] Instance no_formats : Formats := {|
  parse_url := fun _ => None; decode_release := fun _ => None; decode_ref := fun _ => None; decode_tag := fun _ => None;
  decode_manifest := fun _ => None; parse_rfc3339 := fun _ => false;
|}.

Definition digest : string := "sha256:" +:+ hex64.
Definition target : PolicyTarget.t := PolicyTarget.mk "worker-1" "worker" "systemd" 1 1 3 digest None None None None.
Definition policy : Policy.t :=
  Policy.mk "updater-1" "pull_v2" "host-0123456789abcdef" 1 4 2 5 false digest None None "" 0 "" None [target].
Definition demo_binding : AgentBinding.t := Policy.binding policy.
Definition observation : TargetObservation.t :=
  TargetObservation.mk "worker-1" "available" "" 0 "worker" "systemd" 5 digest 3 digest None.
Definition demo_turn : turn := Turn demo_binding (Some policy) [observation] false.
Definition demo_agent : agent := Agent "updater-1" "v2.0.0" "amd64" (Parts.mk true false true true true) true true true.

(** The Panel's jobs: the first one, its recovery, and the second one. *)
Definition panel_job (id command from to : string) (generation : Z) (recovery : bool) : Job.t :=
  Job.mk 2 command id "software_update" None None None "updater-1" "host-0123456789abcdef" "pull_v2" 1 0
    (Some (SoftwareBinding.mk 3 "" digest 0 0 0 "")) false "worker-1" "" "worker" "systemd" from to "" "" ""
    "2024-02-29T12:34:56Z" "claimed" 0 "" "" "" "" 0 1 generation recovery false.

Definition command_of (id : string) (generation : Z) : string :=
  if id ==? "job-2" then "command-3" else if (generation ==? 7)%Z then "command-1" else "command-2".

Definition is_cleared (e : event) : bool := match e with Cleared _ => true | _ => false end.

Definition next_job (active : string) (l : list event) : Job.t :=
  if active !=? "" then panel_job "job-1" "command-2" "v1.0.0" "v1.1.0" 8 true
  else if existsb is_cleared l then panel_job "job-2" "command-3" "v1.1.0" "v1.2.0" 3 false
  else panel_job "job-1" "command-1" "v1.0.0" "v1.1.0" 7 false.

Definition grant_for (id : string) (r : GrantRequest.t) : Grant.t :=
  let (from, to) := if id ==? "job-2" then ("v1.1.0", "v1.2.0") else ("v1.0.0", "v1.1.0") in
  Grant.mk "token" "2024-02-29T12:44:56Z" (Some (V2Binding.mk (GrantRequest.Operation r) (GrantRequest.SessionID r)
    (GrantRequest.LeaseGeneration r)
    (GrantCommand.mk (command_of id (GrantRequest.LeaseGeneration r)) digest
       (GrantAuthorization.mk id "updater-1" "host-0123456789abcdef" 3 1
          (GrantTarget.mk "application" "worker-1" "worker" "systemd" 3))
       (DesiredOperation.mk "software_update" (Some (DesiredOperation.mk_software from to)) None)))).

(** An environment in which everything works; the lease of a saved job is not at hand. *)
Definition respond {X} (o : xop X) (l : list event) : xanswer :=
  match o with
  | OnJournal _ => JournalAnswer Succeeds
  | ClaimHost r => GivesJob (Some (next_job (ClaimRequest.ActiveJobID r) l)) false
  | IssueMutationGrant id r => GivesGrant (grant_for id r)
  | HasActiveLease _ => GivesFlag false
  | Apply _ _ _ | Reconcile _ _ _ => GivesResult (ApplyResult.mk "succeeded" digest "" false "")
  | Download _ _ _ => GivesString hex64
  | NewSessionID => GivesString "session-0123456789"
  | Now => GivesTime GoTime.zero
  | RecoveryPolicy p => GivesPolicy p
  | FetchPolicy => GivesPolicy policy
  | _ => Yes
  end.

(** The answers a program gets, up to the point where [stop] holds. *)
Fixpoint drive {A} (stop : list event -> bool) (p : prog xop A) (w : agent_world) : list xanswer :=
  match p with
  | Ret _ => []
  | Do o k =>
      if stop (log w) then []
      else let ans := respond o (log w) in
           match handle o ans w with Some (x, v) => ans :: drive stop (k x) v | None => [ans] end
  end.

Definition after_apply (l : list event) : bool := match l with Applied _ _ _ :: _ => true | _ => false end.
Definition never (l : list event) : bool := false.

Definition first_run : list xanswer := Eval vm_compute in drive after_apply (agent_process demo_agent [demo_turn]) new_host.
Definition crashed_host : agent_world := Eval vm_compute in (run (agent_process demo_agent [demo_turn]) first_run new_host).1.

(** The restarted agent polls twice; it stops after the second job's apply request. *)
Definition recovered_run : list xanswer := Eval vm_compute in
  drive after_apply (agent_process demo_agent [demo_turn; demo_turn]) (crashed_host <| log := [] |>).
Definition second_host : agent_world := Eval vm_compute in
  (run (agent_process demo_agent [demo_turn; demo_turn]) recovered_run crashed_host).1.

Definition request_of (l : list event) : MutationPlan.t * Grant.t * option Data.t :=
  match l with Applied p g d :: _ => (p, g, d) | _ => (plan, Grant.mk "" "" None, None) end.

(** The log, newest first: the second apply, what came before it, the first apply. *)
Definition second_apply := Eval vm_compute in request_of (log second_host).
Definition between : list event := Eval vm_compute in firstn 13 (List.tl (log second_host)).
Definition first_apply := Eval vm_compute in request_of (skipn 14 (log second_host)).
Definition oldest : list event := Eval vm_compute in skipn 15 (log second_host).

Definition stage_of (l : list event) : MutationPlan.t * option Data.t :=
  match l with Staged p d :: _ => (p, d) | _ => (plan, None) end.

(** The same log around its two stage requests. *)
Definition second_stage := Eval vm_compute in stage_of (skipn 3 (log second_host)).
Definition between_stages : list event := Eval vm_compute in firstn 13 (skipn 4 (log second_host)).
Definition first_stage := Eval vm_compute in stage_of (skipn 17 (log second_host)).

Lemma crashed_history : history (started demo_agent) new_host crashed_host.
Proof.
  assert (E : (run (agent_process demo_agent [demo_turn]) first_run new_host).1 = crashed_host) by (vm_compute; reflexivity).
  rewrite <- E. apply history_run; [apply history_refl|apply started_agent].
Qed.

Lemma second_history : history (started demo_agent) new_host second_host.
Proof.
  assert (E : (run (agent_process demo_agent [demo_turn; demo_turn]) recovered_run crashed_host).1 = second_host)
    by (vm_compute; reflexivity).
  rewrite <- E. apply history_run; [apply crashed_history|apply started_agent].
Qed.
End DemoAgent.
Import DemoAgent.

Lemma host_agent_follows_protocol_witness :
  (exists s, follows (log second_host) = Some s /\ AgentProtocol.intent s = intent_file second_host /\
     option_map job (current s) = active_of (main (files second_host))) /\
  exists x y, between_stages = (x ++ Cleared "job-1" :: y)%list /\ Exists (fun e => ends "job-1" e = true) y.
Proof.
  assert (El : log second_host = (firstn 3 (log second_host) ++ Staged second_stage.1 second_stage.2 ::
    between_stages ++ Staged first_stage.1 first_stage.2 :: skipn 18 (log second_host))%list) by (vm_compute; reflexivity).
  destruct (host_agent_follows_protocol demo_agent second_host second_history) as [Hs Hb].
  split; [exact Hs|]. exact (Hb _ _ _ between_stages _ _ _ El).
Defined.

Lemma agent_applies_are_covered_witness :
  authorized second_apply.2 (presentable (List.tl (log second_host))) "apply" second_apply.1.1 second_apply.1.2 = true /\
  exists x y, between = (x ++ Cleared "job-1" :: y)%list /\ Exists (fun e => ends "job-1" e = true) y.
Proof.
  assert (El : log second_host = ([] ++ Applied second_apply.1.1 second_apply.1.2 second_apply.2 ::
    between ++ Applied first_apply.1.1 first_apply.1.2 first_apply.2 :: oldest)%list) by (vm_compute; reflexivity).
  destruct (agent_applies_are_covered demo_agent second_host _ _ _ _ _ second_history El) as [(_ & Ha & _) Hb].
  split; [exact Ha|]. exact (Hb between _ _ _ oldest eq_refl).
Defined.
